(* ===== verification/_CoqProject ===== *)
-Q . S2P
Prelude.v
Types.v
Text.v
Spread.v
Snapshots.v
Policy.v
Simulate.v
Clone.v
Capacity.v
Fencing.v
Disruption.v
ClusterBudget.v
Projection.v
History.v
Replay.v
Recovery.v
Divergence.v
Executor.v
EventLog.v
Durable.v
Lease.v
Provenance.v
Kernel.v
Guarantees.v
Governance.v
Rollout.v
Engine.v
Reconcile.v
WorkQueue.v
Calendar.v
Cron.v
Directory.v
Canary.v
NetPolicy.v
Agents.v
Repair.v
Placement.v
Dns.v
Validate.v
Keys.v
Approvals.v
Anchor.v
Server.v
Standby.v
Supervise.v
Dispatch.v
Metering.v
RuntimeApi.v
Router.v
Plan.v
Reports.v
ModelBoundary.v
OperatorApi.v
ServerRun.v
FileSystem.v
Volumes.v
Storage.v
Custody.v
LogBackup.v
Network.v
Containers.v
Secrets.v
Gateway.v
NodeHost.v
Channel.v
Wire.v
Enroll.v
Session.v
Registry.v
Probes.v
GoalSource.v
Follow.v
Commands.v
