(* ===== verification/Prelude.v ===== *)
(** * a4s: a control plane for agents and services

    a4s keeps a cluster at the goals its operators declare.  Agents (some of them language
    models) look at the world and make proposals; a deterministic kernel decides which
    proposals may run; signed actions go to the nodes over an encrypted stream; every node
    answers with attested evidence; a projection folds the evidence into the next world;
    and a hash-chained event log remembers it all, so that a restarted server, or a standby
    that takes over, finds the world it had.  Nothing an agent or the network says is
    trusted: what has to be right is the kernel, the projection, the log, the channel and
    what a node does with the actions it accepts, and this library models and verifies them.

    ** How the files correspond to the code

    Every record and function keeps its Go name where Rocq allows it; methods are plain
    functions of their receiver.  All paths are under src/.

    The vocabulary.
    - [Prelude]: 64-bit integers, instants, errors as values with the notations [let*],
      [refuse] and [need] for the source's early returns, record update, sums over maps;
      the tactics and hint databases the other files use.
    - [Types] (control/types.go): goals, worlds, proposals, actions, evidence, events.
    - [Text]: the parts of fmt and strings by which evidence carries numbers and lists.
    - [Calendar]: civil dates, the parts of package time that schedules use.

    The kernel and the world (control/).
    - [Spread] (spread.go, node_lifecycle.go), [Snapshots] (the retention rule of
      projection.go), [Policy] (the validators of policy.go), [Simulate] and [Clone]
      (simulateAction and cloneWorld of executor.go), [Disruption] (disruption.go),
      [ClusterBudget] (clusterbudget.go), [Provenance] (provenance.go), [Lease]
      (lease.go), [Kernel] (Authorize).
    - [Projection] (projection.go): Project, one definition per kind of evidence.
    - [Executor] (executor.go): the in-memory data plane.
    - [Capacity], [Fencing]: the invariants of capacity accounting and of volume
      generations; [History], [Replay], [Recovery]: what any history of evidence
      preserves; [Guarantees], [Governance]: what approval means; [Divergence]: where
      the projection and its documentation part.

    Agents and the engine (control/, reason/).
    - [Rollout] (rollout.go), [Agents] (agents.go), [Repair] (remediation.go,
      storage_agent.go), [Placement]: what placement proposes is accepted.
    - [Engine], [Reconcile] (engine.go, probe.go): Engine.Run over interfaces for the
      executor, the projection, the probers, the sink and the agents.
    - [Cron] (schedule.go), [Canary] (canary.go), [Directory] (directory.go,
      resolve.go), [NetPolicy] (netpolicy.go), [Validate] (validate.go), [Keys]
      (keyset.go), [Approvals] (approval.go, attest.go), [Plan] (plan.go), [Reports]
      (explain.go, diagnose.go), [ModelBoundary] (modelcontext.go, modeldecode.go,
      reason/diagnoser.go).

    The log and the server (eventlog/, server/, source/, cmd/a4s/).
    - [EventLog] (chain.go, store.go, schema.go), [Durable] (control/durable.go),
      [Anchor] (anchor.go), [LogBackup] (backup.go).
    - [Server], [ServerRun] (server.go), [Standby] (standby.go), [OperatorApi] (api.go,
      apiauth.go, apibody.go), [GoalSource] (source/git.go), [Follow] (cmd client.go and
      standby.go), [Commands] (cmd operator.go and keys.go).

    The node (node/).
    - [Dispatch] (envelope.go, dispatcher.go, file_ledger.go, remote.go), [Router]
      (router.go, firewall.go), [Containers] (container_runtime.go), [Network]
      (network.go), [Secrets] (secret.go, x25519.go), [Gateway] (gateway.go), [Probes]
      (probe.go, provider.go), [NodeHost] (the wiring of cmd/a4s/main.go).
    - [FileSystem]: the parts of os and path/filepath the node uses, with calls that may
      fail at any point; [Volumes] (volume.go, snapshot.go, handoff.go, backup.go,
      database.go); [Storage] and [Custody]: what these guarantee.
    - [WorkQueue] (queue.go), [Metering] (agent.go), [RuntimeApi] (runtime_api.go),
      [Supervise] (desired.go, supervisor.go), [Dns] (dns.go).
    - [Wire]: json.Decoder over bufio.Reader, with what they read ahead; [Channel]
      (channel.go), [Enroll] (enroll.go, listen.go), [Session] (the stream of remote.go),
      [Registry] (listen.go, observe.go).

    Components meet at classes and records: the engine is proved over [Executor],
    projection and sink interfaces that the in-memory data plane, the durable projector
    and the event log implement; the dispatcher over a runtime and an observer that
    [NodeHost] implements with the modelled containers, network and secrets; the volumes
    over a backup store that the directory store implements; the goal source over a
    submitter that the server implements.

    ** What is proved

    - Approval.  An approved plan simulates to the end, each action validated in the world
      its predecessors produce; it overcommits no node, keeps the availability floor after
      every step, concentrates no failure domain, exceeds no cluster ceiling, is signed
      off wherever a gate demands it, and passed every governor.
    - History.  Whatever evidence arrives, in whatever order: a volume never has two
      writers, it changes node only by a complete verified handoff, approvals stand only
      where they were granted, recovery points stay consistent, capacity is accounted
      exactly, and repeated evidence is harmless for all but six kinds.
    - Agreement.  For an action its validator accepts, the in-memory data plane and a
      node's real stack both lead where the simulation said; the engine executes nothing
      the kernel did not authorize; what placement proposes the kernel accepts.
    - Durability.  The log refines an append-only list across failed commits and restarts;
      two chains with one tip are one chain; a server that reports no failed record can be
      rebuilt from its log, and one that lost a record finds what it recorded; a standby catches up and its promotion loses nothing the anchor
      witnessed; a restored backup is the log that was backed up.
    - The wire.  An accepted node is who it says and shares its keys with the server; a
      channel hands out a beginning of what was written whatever happens to its bytes;
      answers reach the calls they belong to; actions are executed only when signed,
      addressed and in force, and at most once per idempotency key.
    - The node.  Custody of volumes survives restarts, a restore brings back the files of
      its snapshot or leaves the volume whole, secrets reach only their allocation, as
      sealed, as long as ids are DNS-style names; addresses are distinct; the gateway serves exactly the routes of its table;
      tool calls stay within their budget; a queue loses no task.
    - The operator's side.  Every change through the API is an authenticated operation, a
      repository submits goals and nothing else, a valid scenario is well formed.
    - Divergence.  Closed theorems record where the code does not do what it says.
      Where such a flaw limits a property, its comment states the condition and names the
      theorem that shows it is needed.

    Statements about hashes and signatures say what happens otherwise in terms of the
    texts at hand: a collision is between texts the two histories (or file sets, or
    archives) themselves digest, a forgery is a ciphertext in the bytes that arrived or a
    signature this very handshake received.

    ** Modelling decisions

    Integers are [Z] with the wrap-around of Go's [int] and [uint64] written out wherever
    the source adds, subtracts or multiplies; theorems that need it carry an explicit
    range hypothesis, and histories are bounded by 2^64 observations, the range of the
    counters.  An instant is an integer number of nanoseconds, zero being the zero time;
    the clock a world without observations falls back to is the parameter [WallClock].
    Pointers in a world's maps are the map entries, written back where the source writes
    through them; the copy [cloneWorld] makes is modelled as the copy it is.  Errors are
    values that keep the format string but not the interpolated text; a wrapped error
    keeps its cause.  Where the source iterates a map and the order cannot show, the model
    uses the order of the keys; where it can, the order is a parameter ([AllocationOrder],
    [ApprovalOrder], [NodeChoice]).  A mutex makes each guarded operation one step.

    Files are a map from paths to entries; each call may be told to fail, and a write to
    stop halfway, so a crash is a run whose remaining calls all fail.  The network
    delivers bytes in segments of its own choosing, and a deadline that passes is a
    connection that ends.

    Most recursion is structural.  Fuel bounds [field_values] and [next_loop] in [Cron],
    [parse_labels] in [Dns], [find_free] in [Network], [write_loop] in [Channel],
    [read_value] in [Wire], [Serve] in [Session] and [syncStandby] in [Follow]; in each
    file it is proved that the fuel given is enough, so no result is an artefact of it.

    What is not code of the repository is a class or an argument, its documented laws
    stated beside it: SHA-256 ([Digest]), Ed25519 ([Attest], [Signer]), X25519, HKDF and
    ChaCha20-Poly1305 ([SecretCipher], [KeyDerivation]), base64 ([RawBase64]), JSON (a
    codec for each type, [JsonScanner] for its framing, [JsonText] for its printing),
    SQLite (a table with the constraints of the schema whose transaction commits or not;
    [SqliteFile] for its file), parsers of package net ([CIDRParser], [SubnetParser],
    [IPParser], [AddressParser]), git ([GitSource]), the HTTP client, containerd, CNI and
    database engines.  JSON keeps text that is UTF-8: the laws of tasks, grants, requests,
    sealed secrets and handshakes say so by asking for ASCII, those of events and of volume
    records leave it to the reader.  Each property that uses a law has a witness with concrete instances.

    ** What is not modelled

    The drivers of containerd, CNI, nft, pg_dump and psql, whose behaviour lies outside the
    sources; sockets, the accept loop and the HTTP server; log lines and counters; the HTTP
    call to a model; timers and signals; file modes; flag parsing, printing and listing
    around operations modelled here; the rendering of plans and reports as text. *)

From stdpp Require Export base strings gmap list fin_maps pretty sorting.
From Stdlib Require Export ZArith Lia.

#[global] Set Default Goal Selector "!".

Declare Scope a4s_scope.
Delimit Scope a4s_scope with a4s.

(** ** Go integers

    Go's [int] is 64 bits wide on every platform a4s builds for, and its
    arithmetic wraps around; [uint64] likewise.  Values are kept as [Z] and each
    arithmetic operation of the source is followed by the wrap-around. *)

Definition int_min : Z := -9223372036854775808.
Definition int_max : Z := 9223372036854775807.
Definition two64 : Z := 18446744073709551616.

Definition i64 (z : Z) : Z := (z + 9223372036854775808) mod two64 - 9223372036854775808.
Definition u64 (z : Z) : Z := z mod two64.

Definition in_int (z : Z) : Prop := (int_min <= z <= int_max)%Z.

Lemma i64_id z : in_int z → i64 z = z.
Proof.
  unfold in_int, int_min, int_max, i64, two64. intros H.
  rewrite Z.mod_small by lia. lia.
Qed.

Lemma i64_range z : in_int (i64 z).
Proof.
  unfold in_int, int_min, int_max, i64, two64.
  pose proof (Z.mod_pos_bound (z + 9223372036854775808) 18446744073709551616). lia.
Qed.

Lemma u64_id z : (0 <= z < two64)%Z → u64 z = z.
Proof. intros H. unfold u64. by apply Z.mod_small. Qed.

(** [len] of a Go slice or map is an [int]. *)
Definition len {A} (l : list A) : Z := Z.of_nat (length l).

(** ** Go time

    An instant is a count of nanoseconds, with [0] for the zero [time.Time]; a
    [time.Duration] is a 64-bit count of nanoseconds. *)

Abbreviation time := Z (only parsing).
Abbreviation duration := Z (only parsing).

Definition time_zero : time := 0%Z.
Definition IsZero (t : time) : bool := (t =? 0)%Z.
Definition Before (t u : time) : bool := (t <? u)%Z.
Definition After (t u : time) : bool := (u <? t)%Z.
Definition time_Add (t : time) (d : duration) : time := (t + d)%Z.

(** [t.Sub(u)] saturates at the ends of the duration range. *)
Definition time_Sub (t u : time) : duration := Z.max int_min (Z.min int_max (t - u)).

Definition Second : duration := 1000000000%Z.
Definition Minute : duration := (60 * Second)%Z.
Definition Hour : duration := (60 * Minute)%Z.

(** [time.Now()]: one reading of the wall clock, taken as a parameter of every
    definition whose source consults it. *)
Class WallClock := time_Now : time.

(** ** Errors

    A Go [error] is kept as the format string it was built from, which names the
    refusing branch; the values interpolated into the text are not kept.  The two
    error types the engine inspects are constructors of their own.  A run-time panic
    is not a value of type [error] in Go; it ends the computation all the same, and is
    the constructor [Panic]. *)

Inductive error :=
  | Errorf (format : string)
  | Wrapf (format : string) (wrapped : error)
  | RollbackRequired (Workload Failed KnownGood : string)
  | Pacing_error (Reason : string) (Until : time)
  | Panic (reason : string).

#[export] Instance error_eq_dec : EqDecision error.
Proof. solve_decision. Defined.

Inductive result (A : Type) :=
  | Ok (a : A)
  | Err (e : error).
Arguments Ok {A} a.
Arguments Err {A} e.

#[export] Instance result_eq_dec {A} `{!EqDecision A} : EqDecision (result A).
Proof. solve_decision. Defined.

Definition is_Ok {A} (r : result A) : Prop := match r with Ok _ => True | Err _ => False end.

Definition rbind {A B} (m : result A) (k : A → result B) : result B :=
  match m with Ok a => k a | Err e => Err e end.

Definition wrap_err {A} (format : string) (m : result A) : result A :=
  match m with Ok a => Ok a | Err e => Err (Wrapf format e) end.

Notation "'let*' x ':=' m 'in' k" := (rbind m (λ x, k))
  (at level 10, x pattern, m at level 200, k at level 200) : a4s_scope.
Notation "m ';;' k" := (rbind m (λ _, k))
  (at level 100, k at level 200, right associativity) : a4s_scope.

(** [refuse b msg; k]: the early return [if b { return fmt.Errorf(msg) }; k]. *)
Notation "'refuse' b msg ; k" := (if b then Err (Errorf msg) else k)
  (at level 10, b at level 0, msg at level 0, k at level 200) : a4s_scope.

(** [x, ok := m[key]; if !ok { return fmt.Errorf(msg) }; k]. *)
Notation "'need' x ':=' o 'else' msg ; k" :=
  (match o with Some x => k | None => Err (Errorf msg) end)
  (at level 10, x name, o at level 99, msg at level 0, k at level 200)
  : a4s_scope.

Open Scope a4s_scope.

(** A [for] loop over a slice whose body may return an error. *)
Fixpoint for_each {A S} (f : S → A → result S) (s : S) (l : list A) : result S :=
  match l with
  | [] => Ok s
  | x :: l => let* s' := f s x in for_each f s' l
  end.

(** A [for] loop that only checks. *)
Definition for_all {A} (f : A → result unit) (l : list A) : result unit :=
  for_each (λ _ x, f x) tt l.

Lemma for_each_app {A S} (f : S → A → result S) s l1 l2 :
  for_each f s (l1 ++ l2) = let* s' := for_each f s l1 in for_each f s' l2.
Proof. revert s. induction l1 as [|x l1 IH]; intros s; simpl; [done|].
  destruct (f s x); simpl; [apply IH | done].
Qed.

(** The invariant rule for loops: what every accepted iteration preserves holds
    at the end. *)
Lemma for_each_inv {A S} (P : S → Prop) (f : S → A → result S) s l s' :
  (∀ s x s', x ∈ l → P s → f s x = Ok s' → P s') →
  P s → for_each f s l = Ok s' → P s'.
Proof.
  intros Hstep. revert s Hstep. induction l as [|x l IH]; simpl; intros s Hstep Hs Hl.
  - by injection Hl as <-.
  - destruct (f s x) as [s1|e] eqn:E; simpl in Hl; [|done].
    eapply IH; [|eapply Hstep; [|exact Hs|exact E]|exact Hl].
    + intros s2 y s3 Hy. apply Hstep. by right.
    + by left.
Qed.

Lemma for_all_ok {A} (f : A → result unit) l :
  for_all f l = Ok tt ↔ ∀ x, x ∈ l → f x = Ok tt.
Proof.
  unfold for_all. induction l as [|x l IH]; simpl.
  - split; [intros _ y Hy; by apply not_elem_of_nil in Hy | done].
  - destruct (f x) as [[]|e] eqn:E; simpl.
    + rewrite IH. split.
      * intros H y [->|Hy]%elem_of_cons; auto.
      * intros H y Hy. apply H. by right.
    + split; [done|]. intros H. specialize (H x (list_elem_of_here _ _)). congruence.
Qed.

(** To exhibit what a computation returns, run it. *)
Lemma ok_such_that {A} (m : result A) (P : A → Prop) :
  match m with Ok a => P a | Err _ => False end → ∃ a, m = Ok a ∧ P a.
Proof. destruct m; [eauto|done]. Qed.

(** ** Records with named field updates

    [r <| f := v |>] is the assignment [r.f = v] on a copy of [r]. *)

Class Eta (R : Type) := eta : R → R.
Class Setter {R T} (proj : R → T) := set : (T → T) → R → R.
Arguments set {R T} proj {_} f r.

Ltac solve_setter proj :=
  lazymatch type of proj with
  | ?R → _ =>
      let e := constr:(_ : Eta R) in
      let e := eval red in e in
      let e := eval cbv beta in e in
      lazymatch eval pattern proj in e with
      | ?g _ => let s := constr:(λ f, g (λ r, f (proj r))) in
                let s := eval cbv beta in s in exact s
      end
  end.
#[export] Hint Extern 1 (Setter ?proj) => solve_setter proj : typeclass_instances.

Notation "r <| proj := v |>" := (set proj (λ _, v) r)
  (at level 1, left associativity, v at level 200) : a4s_scope.
Notation "r <| proj ::= f |>" := (set proj f r)
  (at level 1, left associativity, f at level 200) : a4s_scope.

(** Reduce a projection applied to an update, leaving other updates folded. *)
Ltac simpl_set_step :=
  match goal with
  | |- context [?p (@set ?R ?T ?q ?i ?f ?r)] =>
      let x := constr:(p (@set R T q i f r)) in
      let y := eval cbn in x in
      progress change x with y
  | H : context [?p (@set ?R ?T ?q ?i ?f ?r)] |- _ =>
      let x := constr:(p (@set R T q i f r)) in
      let y := eval cbn in x in
      progress change x with y in H
  end.
Ltac simpl_set := repeat simpl_set_step.

(** ** Ranging over a Go map

    Go visits a map in an unspecified order.  The loops of the source that only
    count, add up or look for a witness do not depend on it, and are written with
    the three folds below over the map's values. *)

Definition values {V} (m : gmap string V) : list V := (map_to_list m).*2.
Definition map_any {V} (f : V → bool) (m : gmap string V) : bool := existsb f (values m).
Definition map_sum {V} (g : V → Z) (m : gmap string V) : Z := foldr (λ v n, (g v + n)%Z) 0%Z (values m).
Definition map_count {V} (f : V → bool) (m : gmap string V) : Z :=
  map_sum (λ v, if f v then 1%Z else 0%Z) m.

Lemma values_insert {V} (m : gmap string V) k v :
  m !! k = None → values (<[k:=v]> m) ≡ₚ v :: values m.
Proof. intros H. unfold values. by rewrite map_to_list_insert. Qed.

Lemma elem_of_values {V} (m : gmap string V) v : v ∈ values m ↔ ∃ k, m !! k = Some v.
Proof.
  unfold values. rewrite list_elem_of_fmap. split.
  - intros [[k v'] [-> H]]. exists k. by apply elem_of_map_to_list.
  - intros [k H]. exists (k, v). split; [done|]. by apply elem_of_map_to_list.
Qed.

Lemma map_any_true {V} (f : V → bool) (m : gmap string V) :
  map_any f m = true ↔ ∃ k v, m !! k = Some v ∧ f v = true.
Proof.
  unfold map_any. rewrite existsb_exists. split.
  - intros [v [Hin Hf]]. apply list_elem_of_In, elem_of_values in Hin as [k Hk]. eauto.
  - intros (k & v & Hk & Hf). exists v. split; [|done]. apply list_elem_of_In, elem_of_values. eauto.
Qed.

Lemma foldr_sum_perm {V} (g : V → Z) (l l' : list V) :
  l ≡ₚ l' → foldr (λ v n, (g v + n)%Z) 0%Z l = foldr (λ v n, (g v + n)%Z) 0%Z l'.
Proof. induction 1; simpl; lia. Qed.

Section MapSum.
Context {V : Type}.
Implicit Types (g : V → Z) (m : gmap string V).
Local Open Scope Z_scope.

Lemma map_sum_empty g : map_sum g ∅ = 0.
Proof. unfold map_sum, values. by rewrite map_to_list_empty. Qed.

Lemma map_sum_insert g m k v : m !! k = None → map_sum g (<[k:=v]> m) = g v + map_sum g m.
Proof. intros H. unfold map_sum. by rewrite (foldr_sum_perm g _ _ (values_insert m k v H)). Qed.

Lemma map_sum_delete g m k v : m !! k = Some v → map_sum g (delete k m) = map_sum g m - g v.
Proof.
  intros H. rewrite <-(insert_delete_id m k v H) at 2.
  rewrite map_sum_insert by apply lookup_delete_eq. lia.
Qed.

(** Overwriting an entry trades its contribution. *)
Lemma map_sum_update g m k v v' :
  m !! k = Some v → map_sum g (<[k:=v']> m) = map_sum g m - g v + g v'.
Proof.
  intros H. rewrite <-insert_delete_eq, map_sum_insert by apply lookup_delete_eq.
  rewrite (map_sum_delete g m k v H). lia.
Qed.

Lemma map_sum_nonneg g m : (∀ k v, m !! k = Some v → 0 <= g v) → 0 <= map_sum g m.
Proof.
  induction m as [|k v m Hk IH] using map_ind; intros H.
  - by rewrite map_sum_empty.
  - rewrite map_sum_insert by done. specialize (IH ltac:(intros k' v' H'; apply (H k');
      rewrite lookup_insert_ne; congruence)).
    specialize (H k v (lookup_insert_eq _ _ _)). lia.
Qed.

(** One entry never weighs more than the whole when every weight is non-negative. *)
Lemma map_sum_ge g m k v :
  m !! k = Some v → (∀ k' v', m !! k' = Some v' → 0 <= g v') → g v <= map_sum g m.
Proof.
  intros Hk Hpos. rewrite <-(insert_delete_id m k v Hk), map_sum_insert by apply lookup_delete_eq.
  pose proof (map_sum_nonneg g (delete k m)). 
  assert (0 <= map_sum g (delete k m)); [|lia].
  apply H. intros k' v' [_ H']%lookup_delete_Some. eauto.
Qed.

Lemma map_sum_ext g g' m :
  (∀ k v, m !! k = Some v → g v = g' v) → map_sum g m = map_sum g' m.
Proof.
  induction m as [|k v m Hk IH] using map_ind; intros H.
  - by rewrite !map_sum_empty.
  - rewrite !map_sum_insert by done. rewrite (H k v) by apply lookup_insert_eq.
    rewrite IH; [done|]. intros k' v' H'. apply (H k'). rewrite lookup_insert_ne; congruence.
Qed.

Lemma map_sum_mono g g' m :
  (∀ k v, m !! k = Some v → g v <= g' v) → map_sum g m <= map_sum g' m.
Proof.
  induction m as [|k v m Hk IH] using map_ind; intros H.
  - by rewrite !map_sum_empty.
  - rewrite !map_sum_insert by done. specialize (H k v (lookup_insert_eq _ _ _)) as H1.
    enough (map_sum g m <= map_sum g' m) by lia.
    apply IH. intros k' v' H'. apply (H k'). rewrite lookup_insert_ne; congruence.
Qed.
End MapSum.

(** ** Sorting *)

(** Byte-wise lexicographic order, the order of [sort.Strings]. *)
Definition string_le (s t : string) : Prop := String.leb s t = true.
#[export] Instance string_le_dec : RelDecision string_le.
Proof. intros s t. unfold string_le. apply _. Defined.

Lemma string_le_trans s t u : string_le s t → string_le t u → string_le s u.
Proof.
  unfold string_le, String.leb. revert t u. induction s as [|a s IH]; intros [|b t] [|c u]; simpl; try done.
  unfold Ascii.compare. destruct (N.compare_spec (Ascii.N_of_ascii a) (Ascii.N_of_ascii b)); [| |done];
    destruct (N.compare_spec (Ascii.N_of_ascii b) (Ascii.N_of_ascii c)); try done;
    destruct (N.compare_spec (Ascii.N_of_ascii a) (Ascii.N_of_ascii c)); try lia; eauto.
Qed.

Lemma string_le_total s t : string_le s t ∨ string_le t s.
Proof. apply String.leb_total. Qed.

Lemma string_le_antisym s t : string_le s t → string_le t s → s = t.
Proof. apply String.leb_antisym. Qed.

Definition sort_Strings (l : list string) : list string := merge_sort string_le l.

Lemma sort_Strings_sorted l : StronglySorted string_le (sort_Strings l).
Proof. apply StronglySorted_merge_sort; [exact string_le_trans|exact string_le_total]. Qed.

(** A sorted list is determined by its elements. *)
Lemma sorted_strings_unique l1 l2 :
  StronglySorted string_le l1 → StronglySorted string_le l2 → l1 ≡ₚ l2 → l1 = l2.
Proof. apply StronglySorted_unique. exact string_le_antisym. Qed.

Lemma sort_Strings_perm l : sort_Strings l ≡ₚ l.
Proof. apply merge_sort_Permutation. Qed.

Lemma elem_of_sort_Strings l s : s ∈ sort_Strings l ↔ s ∈ l.
Proof. by rewrite sort_Strings_perm. Qed.

(** A table written in the order of its keys and read back entry by entry is the table. *)
Lemma for_each_table {A} (encode : A → string) (load : gmap string A → string → result (gmap string A)) (m : gmap string A) :
  (∀ k x acc, m !! k = Some x → load acc (encode x) = Ok (<[k := x]> acc)) →
  for_each load ∅ (omap (λ k, encode <$> m !! k) (sort_Strings (map_to_list m).*1)) = Ok m.
Proof.
  intros Hload. set (keys := sort_Strings _).
  assert (∀ k, k ∈ keys ↔ is_Some (m !! k)) as Hkeys.
  { intros k. unfold keys. rewrite elem_of_sort_Strings, list_elem_of_fmap. split.
    - intros ([k' x] & -> & Hx). apply elem_of_map_to_list in Hx. by exists x.
    - intros [x Hx]. exists (k, x). split; [done|]. by apply elem_of_map_to_list. }
  assert (∀ acc, ∃ m', for_each load acc (omap (λ k, encode <$> m !! k) keys) = Ok m' ∧
    ∀ k, m' !! k = if bool_decide (k ∈ keys) then m !! k else acc !! k) as Hrun.
  { assert (∀ k, k ∈ keys → is_Some (m !! k)) as Hin by naive_solver. clear Hkeys. induction keys as [|id keys IH]; intros acc.
    { exists acc. split; [done|]. intros k. by rewrite bool_decide_false by apply not_elem_of_nil. }
    destruct (Hin id (list_elem_of_here _ _)) as [x Hx].
    destruct (IH (λ k Hk, Hin k (list_elem_of_further _ _ _ Hk)) (<[id := x]> acc)) as (m' & Hm' & Hk).
    exists m'. split; [cbn [omap list_omap]; rewrite Hx; cbn [fmap option_fmap option_map for_each]; by rewrite (Hload id x acc Hx)|].
    intros k. rewrite Hk. destruct (decide (k ∈ keys)) as [H|H].
    - by rewrite !bool_decide_true by (try done; by right).
    - rewrite (bool_decide_false (k ∈ keys)) by done. destruct (decide (k = id)) as [->|Hne].
      + rewrite bool_decide_true, lookup_insert_eq by (by left). done.
      + rewrite bool_decide_false, lookup_insert_ne by (try done; by intros [->|?]%elem_of_cons). done. }
  destruct (Hrun ∅) as (m' & -> & Hk). f_equal. apply map_eq. intros k. rewrite Hk, lookup_empty.
  case_bool_decide as H; [done|]. rewrite Hkeys in H. by destruct (m !! k); [destruct H; eexists|].
Qed.


(** ** Automation

    [inv_ok H] takes apart [H : m = Ok x], following the early returns, lookups and
    binds of [m] and dropping the refusing branches. *)

Lemma Ok_inj {A} (a b : A) : Ok a = Ok b → a = b.
Proof. congruence. Qed.

Ltac inv_ok_step H :=
  lazymatch type of H with
  | Err _ = Ok _ => discriminate H
  | Ok _ = Ok _ => apply Ok_inj in H
  | rbind ?m _ = Ok _ =>
      let E := fresh "Hm" in destruct m eqn:E; cbn [rbind] in H; [|discriminate H]
  | wrap_err _ ?m = Ok _ =>
      let E := fresh "Hm" in destruct m eqn:E; cbn [wrap_err] in H; [|discriminate H]
  | (if ?b then _ else _) = Ok _ =>
      let E := fresh "Hb" in destruct b eqn:E; try discriminate H
  | match ?o with Some _ => _ | None => _ end = Ok _ =>
      let E := fresh "Ho" in destruct o eqn:E; try discriminate H
  end.
Ltac inv_ok H := repeat (inv_ok_step H).

(** Turn boolean facts into propositions. *)
Ltac bool_simpl :=
  repeat match goal with
  | H : negb _ = true |- _ => apply negb_true_iff in H
  | H : negb _ = false |- _ => apply negb_false_iff in H
  | H : _ || _ = false |- _ => apply orb_false_iff in H as [? ?]
  | H : _ && _ = true |- _ => apply andb_true_iff in H as [? ?]
  | H : bool_decide _ = true |- _ => apply bool_decide_eq_true in H
  | H : bool_decide _ = false |- _ => apply bool_decide_eq_false in H
  | H : (_ <? _)%Z = true |- _ => apply Z.ltb_lt in H
  | H : (_ <? _)%Z = false |- _ => apply Z.ltb_ge in H
  | H : (_ <=? _)%Z = true |- _ => apply Z.leb_le in H
  | H : (_ <=? _)%Z = false |- _ => apply Z.leb_gt in H
  | H : (_ =? _)%Z = true |- _ => apply Z.eqb_eq in H
  | H : (_ =? _)%Z = false |- _ => apply Z.eqb_neq in H
  | H : ¬ (_ ≠ _) |- _ => apply dec_stable in H
  end.

(** Two maps whose values correspond key by key have the same sums. *)
Lemma map_sum_rel {V} (g : V → Z) (m m' : gmap string V) :
  (∀ k, option_Forall2 (λ x y, g x = g y) (m !! k) (m' !! k)) → map_sum g m = map_sum g m'.
Proof.
  assert (∀ m : gmap string V, map_sum g m = map_sum id (g <$> m)) as Hf.
  { clear. intros m. induction m as [|k v m Hk IH] using map_ind.
    - rewrite fmap_empty. by rewrite !map_sum_empty.
    - rewrite fmap_insert, !map_sum_insert; [by rewrite IH | | done].
      rewrite lookup_fmap. by rewrite Hk. }
  intros H. rewrite !Hf. f_equal. apply map_eq. intros k. rewrite !lookup_fmap.
  destruct (H k); simpl; congruence.
Qed.

Lemma option_Forall2_refl {A} (R : A → A → Prop) (o : option A) :
  (∀ x, R x x) → option_Forall2 R o o.
Proof. intros H. destruct o; by constructor. Qed.

Lemma option_Forall2_impl {A} (R S : A → A → Prop) (o o' : option A) :
  option_Forall2 R o o' → (∀ x y, R x y → S x y) → option_Forall2 S o o'.
Proof. intros [x y H|] HRS; constructor. auto. Qed.

(** Updating one entry of a map by a related value. *)
Lemma insert_related {V} (R : V → V → Prop) (m : gmap string V) k v v' :
  (∀ x, R x x) → m !! k = Some v → R v v' →
  ∀ j, option_Forall2 R (m !! j) (<[k := v']> m !! j).
Proof.
  intros Hrefl Hk HR j. rewrite lookup_insert. case_decide; subst.
  - rewrite Hk. by constructor.
  - by apply option_Forall2_refl.
Qed.
