(* ===== verification/Types.v ===== *)
(** * The control vocabulary (src/control/types.go)

    Goals, the observed world, proposals, actions and evidence, with the methods
    the source declares on them.  A Go map is a [gmap]: a nil map reads like an
    empty one, and every write of the source goes to a map it has made non-nil, so
    the two are not distinguished.  A pointer that may be nil is an [option]; the
    pointers stored as map values are never nil ([cloneWorld] and [normalize]
    dereference all of them).  String-typed enumerations are inductive types with
    one constructor per constant and one for any other text. *)

From S2P Require Import Prelude.
Open Scope Z_scope.

(** ** Budgets and resources *)

Record Budget := mkBudget {
  Tokens : Z; CostMillis : Z; WallSeconds : Z; ToolCalls : Z }.
#[export] Instance Budget_eq_dec : EqDecision Budget. Proof. solve_decision. Defined.

Definition Budget_zero : Budget := mkBudget 0 0 0 0.

Definition Budget_Fits (b ceiling : Budget) : bool :=
  (Tokens b <=? Tokens ceiling) && (CostMillis b <=? CostMillis ceiling) &&
  (WallSeconds b <=? WallSeconds ceiling) && (ToolCalls b <=? ToolCalls ceiling).

Definition Budget_Exhausts (b ceiling : Budget) : bool :=
  (Tokens ceiling <=? Tokens b) || (CostMillis ceiling <=? CostMillis b) ||
  (WallSeconds ceiling <=? WallSeconds b) || (ToolCalls ceiling <=? ToolCalls b).

Definition Budget_Add (b other : Budget) : Budget :=
  mkBudget (i64 (Tokens b + Tokens other)) (i64 (CostMillis b + CostMillis other))
           (i64 (WallSeconds b + WallSeconds other)) (i64 (ToolCalls b + ToolCalls other)).

(** [x := a - b; if x < 0 { x = 0 }] *)
Definition clamp_sub (a b : Z) : Z := let r := i64 (a - b) in if r <? 0 then 0 else r.

Definition Budget_Subtract (b other : Budget) : Budget :=
  mkBudget (clamp_sub (Tokens b) (Tokens other)) (clamp_sub (CostMillis b) (CostMillis other))
           (clamp_sub (WallSeconds b) (WallSeconds other)) (clamp_sub (ToolCalls b) (ToolCalls other)).

Definition Budget_IsZero (b : Budget) : bool := bool_decide (b = Budget_zero).

Record Resources := mkResources { CPUMillis : Z; MemoryMB : Z }.
#[export] Instance Resources_eq_dec : EqDecision Resources. Proof. solve_decision. Defined.

Definition Resources_zero : Resources := mkResources 0 0.

Definition Resources_Add (r other : Resources) : Resources :=
  mkResources (i64 (CPUMillis r + CPUMillis other)) (i64 (MemoryMB r + MemoryMB other)).

Definition Resources_Subtract (r other : Resources) : Resources :=
  mkResources (clamp_sub (CPUMillis r) (CPUMillis other)) (clamp_sub (MemoryMB r) (MemoryMB other)).

Definition Resources_Fits (r capacity : Resources) : bool :=
  (CPUMillis r <=? CPUMillis capacity) && (MemoryMB r <=? MemoryMB capacity).

(** ** Goals *)

Record ToolGrant := mkToolGrant { Tool_Name : string; Tool_Scope : string; Tool_Mutating : bool }.
#[export] Instance ToolGrant_eq_dec : EqDecision ToolGrant. Proof. solve_decision. Defined.
Definition ToolGrant_zero : ToolGrant := mkToolGrant "" "" false.

Record VolumeRef := mkVolumeRef {
  VolumeRef_Name : string; VolumeRef_MountPath : string;
  VolumeRef_ReadOnly : bool; VolumeRef_Checksum : string }.
#[export] Instance VolumeRef_eq_dec : EqDecision VolumeRef. Proof. solve_decision. Defined.

Record SecretRef := mkSecretRef {
  Secret_Name : string; Secret_Version : string; Secret_MountPath : string }.
#[export] Instance SecretRef_eq_dec : EqDecision SecretRef. Proof. solve_decision. Defined.

Record AgentRuntime := mkAgentRuntime {
  Runtime_Name : string; Runtime_Provider : string; Runtime_Model : string;
  Runtime_Budget : Budget; Runtime_Tools : list ToolGrant; Runtime_Queue : string }.

(** src/control/spread.go *)
Record Placement := mkPlacement { Placement_MaxPerDomain : Z }.

(** src/control/canary.go *)
Record Canary := mkCanary { Canary_Steps : list Z; Canary_HoldFor : duration }.

(** src/control/provenance.go; [Attested_Bytes] are the exact signed bytes. *)
Record SignedAttestation := mkSignedAttestation {
  Attested_Bytes : string; Attested_KeyID : string; Attested_Signature : string }.

(** The schedule of a batch workload (src/control/schedule.go). *)
Record Schedule := mkSchedule {
  Schedule_Cron : string; Schedule_Deadline : duration; Schedule_Concurrency : string;
  Schedule_Completions : Z; Schedule_Retries : Z }.

(** Network intent (src/control/netpolicy.go). *)
Record IngressRule := mkIngressRule {
  Ingress_FromWorkload : string; Ingress_FromCIDR : string; Ingress_Port : Z }.
Record EgressRule := mkEgressRule {
  Egress_ToWorkload : string; Egress_ToCIDR : string; Egress_Port : Z }.
Record NetworkPolicy := mkNetworkPolicy {
  NetPolicy_Workload : string; NetPolicy_Ingress : list IngressRule; NetPolicy_Egress : list EgressRule }.

Record WorkloadSpec := mkWorkloadSpec {
  Workload_Name : string; Workload_Image : string; Workload_Replicas : Z; Workload_Port : Z;
  Workload_Resources : Resources; Workload_Privileged : bool; Workload_Stateful : bool;
  Workload_Secrets : list SecretRef; Workload_Volumes : list VolumeRef; Workload_Engine : string;
  Workload_Runtime : option AgentRuntime; Workload_Policy : option NetworkPolicy;
  Workload_Schedule : option Schedule; Workload_Placement : option Placement;
  Workload_Attestation : option SignedAttestation }.

Record RouteSpec := mkRouteSpec { RouteSpec_Host : string; RouteSpec_Port : Z; RouteSpec_Exposure : string }.

Record Constraints := mkConstraints {
  RequiredLabels : gmap string string; AllowedNodes : list string }.

Record Goal := mkGoal {
  Goal_APIVersion : string; Goal_ID : string; Goal_Objective : string;
  Goal_Workload : WorkloadSpec; Goal_Route : option RouteSpec;
  Goal_Constraints : Constraints; Goal_Canary : option Canary }.

(** ** The observed world *)

Inductive HandoffPhase :=
  HandoffQuiesced | HandoffSnapshotted | HandoffTransferred | HandoffAdopted
  | HandoffOther (text : string).
#[export] Instance HandoffPhase_eq_dec : EqDecision HandoffPhase. Proof. solve_decision. Defined.

Record VolumeHandoff := mkVolumeHandoff {
  Handoff_From : string; Handoff_To : string; Handoff_Phase : HandoffPhase;
  Handoff_Snapshot : string; Handoff_Checksum : string }.
#[export] Instance VolumeHandoff_eq_dec : EqDecision VolumeHandoff. Proof. solve_decision. Defined.

Record Volume := mkVolume {
  Vol_Name : string; Vol_Node : string; Vol_Owner : string; Vol_Generation : Z; Vol_SizeMB : Z;
  Vol_LastSnapshot : string; Vol_Snapshots : gmap string string; Vol_SnapshotOrder : list string;
  Vol_RestoredFrom : string; Vol_VerifiedAt : time; Vol_VerifiedSnapshot : string;
  Vol_Handoff : option VolumeHandoff; Vol_Backups : gmap string string }.
#[export] Instance Volume_eq_dec : EqDecision Volume. Proof. solve_decision. Defined.

Record ProviderReach := mkProviderReach {
  Reach_Reachable : bool; Reach_ObservedAt : time; Reach_ExpiresAt : time; Reach_Detail : string }.
#[export] Instance ProviderReach_eq_dec : EqDecision ProviderReach. Proof. solve_decision. Defined.

Record Node := mkNode {
  Node_ID : string; Node_Labels : gmap string string; Node_Capacity : Resources;
  Node_Used : Resources; Node_Images : gmap string bool; Node_Healthy : bool;
  Node_Domain : string; Node_Cordoned : bool; Node_CordonReason : string;
  Node_Address : string; Node_GatewayPort : Z; Node_ZoneFingerprint : string;
  Node_PolicyFingerprint : string; Node_Providers : gmap string ProviderReach;
  Node_BudgetCapacity : Budget; Node_BudgetUsed : Budget }.
#[export] Instance Node_eq_dec : EqDecision Node. Proof. solve_decision. Defined.

Inductive AllocationPhase :=
  AllocationCreated | AllocationRunning | AllocationStopped | AllocationOther (text : string).
#[export] Instance AllocationPhase_eq_dec : EqDecision AllocationPhase. Proof. solve_decision. Defined.

Record Allocation := mkAllocation {
  Alloc_ID : string; Alloc_Workload : string; Alloc_Replica : Z; Alloc_Node : string;
  Alloc_Image : string; Alloc_Resources : Resources; Alloc_Phase : AllocationPhase;
  Alloc_Ready : bool; Alloc_Stateful : bool; Alloc_Volumes : gmap string Z;
  Alloc_Secrets : gmap string string; Alloc_Address : string; Alloc_ExitCode : Z;
  Alloc_Restarts : Z; Alloc_ReadyExpiresAt : time; Alloc_ReadySince : time;
  Alloc_Budget : Budget; Alloc_Spent : Budget; Alloc_Draining : bool; Alloc_Task : string;
  Alloc_Tools : list ToolGrant }.
#[export] Instance Allocation_eq_dec : EqDecision Allocation. Proof. solve_decision. Defined.

Record Route := mkRoute {
  Route_Host : string; Route_Workload : string; Route_Port : Z; Route_Exposure : string }.
#[export] Instance Route_eq_dec : EqDecision Route. Proof. solve_decision. Defined.

Record Queue := mkQueue {
  Queue_Name : string; Queue_Workload : string; Queue_Depth : Z; Queue_InFlight : Z;
  Queue_MaxWorkers : Z; Queue_ObservedAt : time }.
#[export] Instance Queue_eq_dec : EqDecision Queue. Proof. solve_decision. Defined.

Record Approval := mkApproval {
  Approval_ID : string; Approval_GoalID : string; Approval_Scope : string;
  Approval_IssuedBy : string; Approval_Granted : bool; Approval_IssuedAt : time;
  Approval_ExpiresAt : time; Approval_Revision : Z; Approval_Subject : string;
  Approval_Rollback : string; Approval_Reason : string }.
#[export] Instance Approval_eq_dec : EqDecision Approval. Proof. solve_decision. Defined.

(** Evidence kinds (src/control/projection.go). *)
Inductive EvidenceKind :=
  | EvidenceImagePresent | EvidenceAllocationCreated | EvidenceSecretMounted
  | EvidenceVolumeCreated | EvidenceVolumeAttached | EvidenceVolumeDetached
  | EvidenceVolumeSnapshotted | EvidenceVolumeRestored | EvidenceVolumeBackedUp
  | EvidenceVolumeQuiesced | EvidenceVolumeTransferred | EvidenceVolumeAdopted
  | EvidenceSnapshotsPruned | EvidenceBackupVerified | EvidenceDatabaseBackedUp
  | EvidenceNetworkAttached | EvidenceNetworkDetached | EvidenceAllocationRunning
  | EvidenceAllocationReady | EvidenceNodeCordoned | EvidenceNodeUncordoned
  | EvidenceNodeReachable | EvidenceNodeUnreachable | EvidenceAllocationStopped
  | EvidenceAllocationDeleted | EvidenceAllocationFailed | EvidenceRouteReachable
  | EvidenceRouteRemoved | EvidenceToolsGranted | EvidenceAgentReady | EvidenceAgentSpent
  | EvidenceAgentDraining | EvidenceAllocationDrained | EvidenceQueueObserved
  | EvidenceProviderReachable | EvidencePolicyApplied | EvidenceZonePublished
  | EvidenceImagesCollected | EvidenceApprovalGranted | EvidenceApprovalRevoked
  | EvidenceDiagnosisRecorded
  | EvidenceOther (text : string).
#[export] Instance EvidenceKind_eq_dec : EqDecision EvidenceKind. Proof. solve_decision. Defined.

(** src/control/disruption.go *)
Record Disruption := mkDisruption {
  Disruption_Target : string; Disruption_Workload : string; Disruption_Node : string;
  Disruption_Domain : string; Disruption_Kind : EvidenceKind; Disruption_At : time }.
#[export] Instance Disruption_eq_dec : EqDecision Disruption. Proof. solve_decision. Defined.

Record Backoff := mkBackoff {
  Backoff_Failures : Z; Backoff_Until : time; Backoff_LastFailure : time }.
#[export] Instance Backoff_eq_dec : EqDecision Backoff. Proof. solve_decision. Defined.

Record World := mkWorld {
  Revision : Z; ObservedAt : time;
  Nodes : gmap string Node; Allocations : gmap string Allocation;
  Routes : gmap string Route; Volumes : gmap string Volume; Queues : gmap string Queue;
  Approvals : gmap string Approval; KnownGood : gmap string string;
  Disruptions : list Disruption; BackoffState : gmap string Backoff }.
#[export] Instance World_eq_dec : EqDecision World. Proof. solve_decision. Defined.

(** ** Proposals, actions, checks and evidence *)

Inductive ActionKind :=
  | ActionPullImage | ActionCreateAllocation | ActionAttachNetwork | ActionMountSecret
  | ActionCreateVolume | ActionAttachVolume | ActionDetachVolume | ActionSnapshotVolume
  | ActionRestoreSnapshot | ActionBackupSnapshot | ActionQuiesceVolume | ActionTransferVolume
  | ActionAdoptVolume | ActionPruneSnapshots | ActionCollectImages | ActionVerifyBackup
  | ActionDatabaseBackup | ActionStartAllocation | ActionStopAllocation
  | ActionDeleteAllocation | ActionPublishRoute | ActionApplyPolicy | ActionPublishZone
  | ActionGrantTools | ActionDrainAllocation | ActionCordonNode | ActionUncordonNode
  | ActionProbeReadiness
  | ActionOther (text : string).
#[export] Instance ActionKind_eq_dec : EqDecision ActionKind. Proof. solve_decision. Defined.

(** src/control/resolve.go *)
Record ResolvedEndpoint := mkResolvedEndpoint {
  Resolved_Address : string; Resolved_Port : Z; Resolved_Allocation : string;
  Resolved_Node : string; Resolved_Local : bool }.
Record ServiceZone := mkServiceZone {
  Zone_Node : string; Zone_Records : gmap string (list ResolvedEndpoint) }.

(** src/control/netpolicy.go *)
Record CompiledPolicy := mkCompiledPolicy {
  Compiled_Node : string; Compiled_Table : string; Compiled_Rules : list string }.

(** src/control/probe.go *)
Record ProbeTarget := mkProbeTarget {
  Probe_Allocation : string; Probe_Kind : string; Probe_Port : Z; Probe_Path : string;
  Probe_Provider : string; Probe_Address : string; Probe_Engine : string; Probe_Node : string }.

Record Action := mkAction {
  Action_ID : string; Action_Kind : ActionKind; Action_Target : string; Action_Workload : string;
  Action_Node : string; Action_Image : string; Action_Replica : Z; Action_Resources : Resources;
  Action_Port : Z; Action_Exposure : string; Action_Volume : option VolumeRef;
  Action_Snapshot : string; Action_Engine : string; Action_Retain : Z; Action_DryRun : bool;
  Action_Zone : option ServiceZone; Action_Policy : option CompiledPolicy;
  Action_Protected : list string; Action_Secret : option SecretRef;
  Action_Tools : list ToolGrant; Action_Budget : Budget; Action_Reason : string;
  Action_Probe : option ProbeTarget; Action_DependsOn : list string }.

(** The zero [Action], which struct literals of the source fill in. *)
Definition Action_zero : Action :=
  mkAction "" (ActionOther "") "" "" "" "" 0 Resources_zero 0 "" None "" "" 0 false
    None None [] None [] Budget_zero "" None [].

Inductive CheckKind :=
  CheckAllocationReady | CheckRouteReachable | CheckAgentReady | CheckAllocationDrained
  | CheckOther (text : string).
#[export] Instance CheckKind_eq_dec : EqDecision CheckKind. Proof. solve_decision. Defined.

Record Check_ := mkCheck { Check_Kind : CheckKind; Check_Target : string; Check_Want : string }.

Record AgentDescriptor := mkAgentDescriptor {
  Agent_ID : string; Agent_Role : string; Agent_Capabilities : list ActionKind }.

Record Proposal := mkProposal {
  Proposal_ID : string; Proposal_AgentID : string; Proposal_GoalID : string;
  Proposal_BasedOnRevision : Z; Proposal_Reasoning : string;
  Proposal_Actions : list Action; Proposal_ExpectedEvidence : list Check_ }.

Record Evidence := mkEvidence {
  Ev_Kind : EvidenceKind; Ev_Target : string; Ev_Source : string;
  Ev_ObservedAt : time; Ev_ExpiresAt : time; Ev_Observed : gmap string string }.

(** [evidence.Observed[key]]: an absent key reads as the empty string. *)
Definition observed (e : Evidence) (key : string) : string := default "" (Ev_Observed e !! key).

Inductive EventType :=
  | EventGoalAccepted | EventProposalCreated | EventProposalApproved | EventProposalDenied
  | EventActionDispatched | EventActionCompleted | EventObservationRecorded
  | EventGoalAchieved | EventGoalBlocked | EventGoalCompensating
  | EventOther (text : string).
#[export] Instance EventType_eq_dec : EqDecision EventType. Proof. solve_decision. Defined.

(** [Event_Kind] is the text of an action or evidence kind. *)
Record Event := mkEvent {
  Event_Sequence : Z; Event_At : time; Event_Type : EventType; Event_Actor : string;
  Event_GoalID : string; Event_ProposalID : string; Event_ActionID : string;
  Event_Target : string; Event_Kind : string; Event_WorldRevision : Z;
  Event_Message : string; Event_Evidence : option Evidence }.

(** ** Field updates *)

#[export] Instance eta_Node : Eta Node := λ r,
  mkNode (Node_ID r) (Node_Labels r) (Node_Capacity r) (Node_Used r) (Node_Images r)
    (Node_Healthy r) (Node_Domain r) (Node_Cordoned r) (Node_CordonReason r) (Node_Address r)
    (Node_GatewayPort r) (Node_ZoneFingerprint r) (Node_PolicyFingerprint r) (Node_Providers r)
    (Node_BudgetCapacity r) (Node_BudgetUsed r).
#[export] Instance eta_Allocation : Eta Allocation := λ r,
  mkAllocation (Alloc_ID r) (Alloc_Workload r) (Alloc_Replica r) (Alloc_Node r) (Alloc_Image r)
    (Alloc_Resources r) (Alloc_Phase r) (Alloc_Ready r) (Alloc_Stateful r) (Alloc_Volumes r)
    (Alloc_Secrets r) (Alloc_Address r) (Alloc_ExitCode r) (Alloc_Restarts r)
    (Alloc_ReadyExpiresAt r) (Alloc_ReadySince r) (Alloc_Budget r) (Alloc_Spent r)
    (Alloc_Draining r) (Alloc_Task r) (Alloc_Tools r).
#[export] Instance eta_Volume : Eta Volume := λ r,
  mkVolume (Vol_Name r) (Vol_Node r) (Vol_Owner r) (Vol_Generation r) (Vol_SizeMB r)
    (Vol_LastSnapshot r) (Vol_Snapshots r) (Vol_SnapshotOrder r) (Vol_RestoredFrom r)
    (Vol_VerifiedAt r) (Vol_VerifiedSnapshot r) (Vol_Handoff r) (Vol_Backups r).
#[export] Instance eta_VolumeHandoff : Eta VolumeHandoff := λ r,
  mkVolumeHandoff (Handoff_From r) (Handoff_To r) (Handoff_Phase r) (Handoff_Snapshot r)
    (Handoff_Checksum r).
#[export] Instance eta_Queue : Eta Queue := λ r,
  mkQueue (Queue_Name r) (Queue_Workload r) (Queue_Depth r) (Queue_InFlight r)
    (Queue_MaxWorkers r) (Queue_ObservedAt r).
#[export] Instance eta_Approval : Eta Approval := λ r,
  mkApproval (Approval_ID r) (Approval_GoalID r) (Approval_Scope r) (Approval_IssuedBy r)
    (Approval_Granted r) (Approval_IssuedAt r) (Approval_ExpiresAt r) (Approval_Revision r)
    (Approval_Subject r) (Approval_Rollback r) (Approval_Reason r).
#[export] Instance eta_World : Eta World := λ r,
  mkWorld (Revision r) (ObservedAt r) (Nodes r) (Allocations r) (Routes r) (Volumes r) (Queues r)
    (Approvals r) (KnownGood r) (Disruptions r) (BackoffState r).
#[export] Instance eta_Action : Eta Action := λ r,
  mkAction (Action_ID r) (Action_Kind r) (Action_Target r) (Action_Workload r) (Action_Node r)
    (Action_Image r) (Action_Replica r) (Action_Resources r) (Action_Port r) (Action_Exposure r)
    (Action_Volume r) (Action_Snapshot r) (Action_Engine r) (Action_Retain r) (Action_DryRun r)
    (Action_Zone r) (Action_Policy r) (Action_Protected r) (Action_Secret r) (Action_Tools r)
    (Action_Budget r) (Action_Reason r) (Action_Probe r) (Action_DependsOn r).
#[export] Instance eta_Evidence : Eta Evidence := λ r,
  mkEvidence (Ev_Kind r) (Ev_Target r) (Ev_Source r) (Ev_ObservedAt r) (Ev_ExpiresAt r)
    (Ev_Observed r).

(** Writes through the pointers a world's maps hold. *)
Definition put_node (w : World) (id : string) (n : Node) : World := w <| Nodes ::= <[id := n]> |>.
Definition put_alloc (w : World) (id : string) (a : Allocation) : World :=
  w <| Allocations ::= <[id := a]> |>.
Definition put_volume (w : World) (name : string) (v : Volume) : World :=
  w <| Volumes ::= <[name := v]> |>.

(** A fresh allocation and a fresh volume, all other fields zero. *)
Definition new_Allocation (id workload : string) (replica : Z) (node image : string)
    (resources : Resources) (budget : Budget) : Allocation :=
  mkAllocation id workload replica node image resources AllocationCreated false false ∅ ∅ "" 0 0
    time_zero time_zero budget Budget_zero false "" [].
Definition new_Volume (name node : string) (size : Z) : Volume :=
  mkVolume name node "" 0 size "" ∅ [] "" time_zero "" None ∅.

(** ** Methods *)

Section Methods.
Context {clock : WallClock}.

(** [World.Now] *)
Definition Now (w : World) : time := if IsZero (ObservedAt w) then time_Now else ObservedAt w.

Definition Approval_Valid (a : Approval) (now : time) : bool :=
  if negb (Approval_Granted a) then false
  else IsZero (Approval_ExpiresAt a) || Before now (Approval_ExpiresAt a).

Definition CanReach (n : Node) (provider : string) (now : time) : bool :=
  match Node_Providers n !! provider with
  | None => false
  | Some reach =>
      if negb (Reach_Reachable reach) then false
      else IsZero (Reach_ExpiresAt reach) || Before now (Reach_ExpiresAt reach)
  end.

Definition Exhausted (a : Allocation) : bool :=
  if Budget_IsZero (Alloc_Budget a) then false
  else Budget_Exhausts (Alloc_Spent a) (Alloc_Budget a).

Definition Drained (a : Allocation) : bool :=
  Alloc_Draining a && bool_decide (Alloc_Task a = "").

Definition ReadyAt (a : Allocation) (now : time) : bool :=
  if negb (Alloc_Ready a) then false
  else IsZero (Alloc_ReadyExpiresAt a) || Before now (Alloc_ReadyExpiresAt a).

Definition ReadyFor (a : Allocation) (now : time) : duration :=
  if negb (ReadyAt a now) || IsZero (Alloc_ReadySince a) || Before now (Alloc_ReadySince a)
  then 0 else time_Sub now (Alloc_ReadySince a).

(** [(q *Queue).DesiredWorkers]; a nil queue leaves the running count. *)
Definition DesiredWorkers (q : option Queue) (running : Z) : Z :=
  match q with
  | None => running
  | Some q =>
      let desired := i64 (running + Queue_Depth q) in
      let desired := if Queue_MaxWorkers q <? desired then Queue_MaxWorkers q else desired in
      if desired <? 0 then 0 else desired
  end.

Definition Evidence_Fresh (e : Evidence) (now : time) : bool :=
  IsZero (Ev_ExpiresAt e) || Before now (Ev_ExpiresAt e).

End Methods.

(** src/control/node_lifecycle.go: [Schedulable] *)
Definition Schedulable (n : Node) : bool := Node_Healthy n && negb (Node_Cordoned n).

(** src/control/spread.go: [FailureDomain]; a nil node has the empty domain. *)
Definition FailureDomain (n : option Node) : string :=
  match n with
  | None => ""
  | Some n => if bool_decide (Node_Domain n ≠ "") then Node_Domain n else Node_ID n
  end.

(** ** Arithmetic of budgets and resources *)

(** Non-negative quantities whose sum stays inside [int] add exactly. *)
Definition Resources_nonneg (r : Resources) : Prop := 0 <= CPUMillis r ∧ 0 <= MemoryMB r.

Definition Resources_sum_in_range (r s : Resources) : Prop :=
  in_int (CPUMillis r + CPUMillis s) ∧ in_int (MemoryMB r + MemoryMB s).

Lemma Resources_Add_exact r s :
  Resources_sum_in_range r s →
  Resources_Add r s = mkResources (CPUMillis r + CPUMillis s) (MemoryMB r + MemoryMB s).
Proof. intros [H1 H2]. unfold Resources_Add. by rewrite !i64_id. Qed.

Lemma clamp_sub_nonneg a b : 0 <= clamp_sub a b.
Proof. unfold clamp_sub. destruct (Z.ltb_spec (i64 (a - b)) 0); lia. Qed.

Lemma clamp_sub_exact a b : in_int a → 0 <= b <= a → clamp_sub a b = a - b.
Proof.
  unfold in_int, int_min, int_max. intros Ha Hb. unfold clamp_sub.
  rewrite i64_id by (unfold in_int, int_min, int_max; lia).
  destruct (Z.ltb_spec (a - b) 0); lia.
Qed.

Lemma Resources_Fits_spec r c :
  Resources_Fits r c = true ↔ CPUMillis r <= CPUMillis c ∧ MemoryMB r <= MemoryMB c.
Proof. unfold Resources_Fits. rewrite andb_true_iff, !Z.leb_le. done. Qed.

Lemma Budget_Fits_spec b c :
  Budget_Fits b c = true ↔
  Tokens b <= Tokens c ∧ CostMillis b <= CostMillis c ∧
  WallSeconds b <= WallSeconds c ∧ ToolCalls b <= ToolCalls c.
Proof. unfold Budget_Fits. rewrite !andb_true_iff, !Z.leb_le. tauto. Qed.
