(* ===== verification/Text.v ===== *)
(** * Text carried by evidence (the parts of fmt and strings the source uses)

    Evidence holds only strings, so quantities cross the executor boundary as
    decimal text ([fmt.Sprint], read back by [fmt.Sscanf] in [observedInt]) and
    lists as newline-separated text ([strings.Join], read back by [splitLines]). *)

From S2P Require Import Prelude Types.
Open Scope Z_scope.

(** ** Decimal text *)

Definition is_digit (c : Ascii.ascii) : bool :=
  let n := Ascii.N_of_ascii c in (48 <=? n)%N && (n <=? 57)%N.
Definition digit_value (c : Ascii.ascii) : Z := Z.of_N (Ascii.N_of_ascii c) - 48.

Definition newline : Ascii.ascii := Ascii.ascii_of_N 10.
Definition minus_sign : Ascii.ascii := Ascii.ascii_of_N 45.
Definition plus_sign : Ascii.ascii := Ascii.ascii_of_N 43.

(** The ASCII characters [SkipSpace] steps over; a newline is an error there. *)
Definition is_blank (c : Ascii.ascii) : bool :=
  let n := Ascii.N_of_ascii c in
  (n =? 9)%N || (n =? 11)%N || (n =? 12)%N || (n =? 13)%N || (n =? 32)%N.

Fixpoint skip_space (s : string) : option string :=
  match s with
  | "" => Some ""
  | String c s' =>
      if bool_decide (c = newline) then None
      else if is_blank c then skip_space s' else Some s
  end.

Fixpoint digits_value (acc : Z) (s : string) : Z :=
  match s with
  | String c s' => if is_digit c then digits_value (10 * acc + digit_value c) s' else acc
  | "" => acc
  end.

(** [fmt.Sscanf(s, "%d", &value)] for an [int]: an optional sign and at least one
    digit, trailing text ignored, a value outside [int] refused. *)
Definition Sscanf_d (s : string) : option Z :=
  match skip_space s with
  | None => None
  | Some s =>
      let '(neg, s) := match s with
                       | String c s' =>
                           if bool_decide (c = minus_sign) then (true, s')
                           else if bool_decide (c = plus_sign) then (false, s') else (false, s)
                       | "" => (false, s)
                       end in
      match s with
      | String c _ =>
          if is_digit c then
            let n := digits_value 0 s in
            let v := if neg then - n else n in
            if (int_min <=? v) && (v <=? int_max) then Some v else None
          else None
      | "" => None
      end
  end.

(** src/control/projection.go: [observedInt] *)
Definition observedInt (e : Evidence) (key : string) : Z := default 0 (Sscanf_d (observed e key)).

(** [fmt.Sprint] of an [int], and [fmt.Sprintf("%t", b)]. *)
Definition Sprint (z : Z) : string := pretty z.
Definition Sprint_bool (b : bool) : string := if b then "true" else "false".

(** ** Newline-separated lists *)

Fixpoint split_on (sep : Ascii.ascii) (s : string) : list string :=
  match s with
  | "" => [""]
  | String c s' =>
      if bool_decide (c = sep) then "" :: split_on sep s'
      else match split_on sep s' with
           | [] => [String c ""]
           | w :: ws => String c w :: ws
           end
  end.

Definition splitLines (value : string) : list string :=
  if bool_decide (value = "") then []
  else filter (λ line, line ≠ "") (split_on newline value).

(** [strings.Join(l, "\n")] *)
Definition Join_lines (l : list string) : string := String.concat (String newline "") l.

(** [strings.Contains] *)
Fixpoint strings_Contains (s sub : string) : bool :=
  String.prefix sub s ||
  match s with "" => false | String _ s' => strings_Contains s' sub end.

(** ** Reading back what was printed *)

Lemma pretty_char_digit (x : N) :
  (x < 10)%N → is_digit (pretty_N_char x) = true ∧ digit_value (pretty_N_char x) = Z.of_N x.
Proof. intros H. destruct x as [|p]; [done|]. do 4 (try destruct p as [p|p|]); try done; lia. Qed.

Lemma digits_value_go (x : N) (s : string) :
  digits_value 0 (pretty_N_go x s) = digits_value (Z.of_N x) s.
Proof.
  revert s. induction (N.lt_wf_0 x) as [x _ IH]; intros s.
  destruct (decide (x = 0)%N) as [->|Hx]; [by rewrite pretty_N_go_0|].
  rewrite pretty_N_go_step by lia. rewrite IH by (apply N.div_lt; lia).
  cbn [digits_value]. pose proof (N.mod_lt x 10 ltac:(lia)) as Hm.
  destruct (pretty_char_digit (x mod 10) Hm) as [-> ->]. f_equal.
  pose proof (N.div_mod x 10 ltac:(lia)). lia.
Qed.

Definition starts_with_digit (s : string) : bool :=
  match s with String c _ => is_digit c | "" => false end.

Lemma starts_with_digit_go (x : N) (s : string) :
  (0 < x)%N ∨ starts_with_digit s = true → starts_with_digit (pretty_N_go x s) = true.
Proof.
  revert s. induction (N.lt_wf_0 x) as [x _ IH]; intros s H.
  destruct (decide (x = 0)%N) as [->|Hx].
  - rewrite pretty_N_go_0. destruct H; [lia|done].
  - rewrite pretty_N_go_step by lia. apply IH; [apply N.div_lt; lia|]. right.
    simpl. apply pretty_char_digit, N.mod_lt. lia.
Qed.

Lemma pretty_N_digits (x : N) :
  starts_with_digit (pretty x) = true ∧ digits_value 0 (pretty x) = Z.of_N x.
Proof.
  unfold pretty, pretty_N. case_decide as Hx; [by subst|].
  split; [apply starts_with_digit_go; lia | by rewrite digits_value_go].
Qed.

Lemma digit_not_space c : is_digit c = true → c ≠ newline ∧ is_blank c = false ∧ c ≠ minus_sign ∧ c ≠ plus_sign.
Proof.
  intros H. unfold is_digit in H. apply andb_true_iff in H as [H1 H2].
  apply N.leb_le in H1, H2.
  repeat split; try (intros ->; cbn in *; lia).
  unfold is_blank. rewrite !orb_false_iff, !N.eqb_neq. lia.
Qed.

(** Text that starts with a digit is read as that number. *)
Lemma Sscanf_digits s :
  starts_with_digit s = true → digits_value 0 s <= int_max → 0 <= digits_value 0 s →
  Sscanf_d s = Some (digits_value 0 s).
Proof.
  destruct s as [|c s]; [done|]. intros Hc Hle Hge. change (is_digit c = true) in Hc.
  destruct (digit_not_space c Hc) as (Hn & Hb & Hm & Hp).
  unfold Sscanf_d. cbn [skip_space]. rewrite bool_decide_false, Hb by done.
  rewrite !bool_decide_false by done. rewrite Hc.
  rewrite (proj2 (Z.leb_le _ _)) by (unfold int_min; lia).
  by rewrite (proj2 (Z.leb_le _ _)) by lia.
Qed.

Lemma Sscanf_minus s :
  starts_with_digit s = true → digits_value 0 s <= - int_min → 0 <= digits_value 0 s →
  Sscanf_d (String minus_sign s) = Some (- digits_value 0 s).
Proof.
  destruct s as [|c s]; [done|]. intros Hc Hle Hge. change (is_digit c = true) in Hc.
  unfold Sscanf_d. cbn [skip_space]. rewrite bool_decide_false by done.
  change (is_blank minus_sign) with false. cbn match. rewrite bool_decide_true by done.
  rewrite Hc.
  rewrite (proj2 (Z.leb_le _ _)) by lia.
  by rewrite (proj2 (Z.leb_le _ _)) by (unfold int_max; lia).
Qed.

(** Every [int] survives the decimal text evidence carries it in. *)
Lemma Sscanf_Sprint (z : Z) : in_int z → Sscanf_d (Sprint z) = Some z.
Proof.
  unfold in_int. intros Hz. destruct z as [|p|p]; [done| |];
    destruct (pretty_N_digits (N.pos p)) as [Hs Hd].
  - change (Sprint (Z.pos p)) with (pretty (N.pos p)).
    rewrite Sscanf_digits; rewrite ?Hd; simpl in *; done || lia.
  - change (Sprint (Z.neg p)) with (String minus_sign (pretty (N.pos p))).
    rewrite Sscanf_minus; rewrite ?Hd; simpl in *; done || lia.
Qed.

(** A line: non-empty text without a newline. *)
Fixpoint no_newline (s : string) : bool :=
  match s with "" => true | String c s' => negb (bool_decide (c = newline)) && no_newline s' end.
(** Text that survives [encoding/json] unchanged: Go replaces bytes that are not UTF-8,
    and ASCII is always UTF-8. *)
Fixpoint ascii_text (s : string) : bool :=
  match s with "" => true | String c s' => (Ascii.N_of_ascii c <? 128)%N && ascii_text s' end.

(** Neither a newline nor a carriage return, as in the compact JSON of a value. *)
Definition carriage_return : Ascii.ascii := Ascii.ascii_of_N 13.
Fixpoint no_break (s : string) : bool :=
  match s with
  | "" => true
  | String c s' => negb (bool_decide (c = newline)) && negb (bool_decide (c = carriage_return)) && no_break s'
  end.
Lemma no_break_newline s : no_break s = true → no_newline s = true.
Proof. induction s as [|c s IH]; [done|]. cbn. rewrite !andb_true_iff. intros [[? _] ?]. auto. Qed.
Lemma no_break_app s t : no_break s = true → no_break t = true → no_break (s +:+ t) = true.
Proof.
  induction s as [|c s IH]; [done|]. intros Hs Ht. change (no_break (String c (s +:+ t)) = true).
  cbn [no_break] in *. apply andb_true_iff in Hs as [-> Hs]. by rewrite IH.
Qed.

Definition is_line (s : string) : Prop := s ≠ "" ∧ no_newline s = true.

Lemma split_on_line s t :
  no_newline s = true →
  split_on newline (s +:+ t) =
  match split_on newline t with [] => [s] | w :: ws => (s +:+ w) :: ws end.
Proof.
  induction s as [|c s IH]; simpl; intros H.
  - destruct t; simpl; [done|]. case_bool_decide; [done|]. by destruct (split_on newline t).
  - apply andb_true_iff in H as [Hc Hs]. apply negb_true_iff in Hc. rewrite Hc.
    change (String.append s t) with (s +:+ t). rewrite IH by done.
    by destruct (split_on newline t).
Qed.

Lemma split_on_nonempty c s : split_on c s ≠ [].
Proof. destruct s; simpl; [done|]. case_bool_decide; [done|]. by destruct (split_on c s). Qed.

Lemma append_empty s : s +:+ "" = s.
Proof. induction s as [|c s IH]; [done|]. apply (f_equal (String c) IH). Qed.

Lemma split_on_Join l :
  l ≠ [] → Forall is_line l → split_on newline (Join_lines l) = l.
Proof.
  induction l as [|s l IH]; [done|]. intros _ [[Hne Hs] Hl]%Forall_cons.
  destruct l as [|s' l].
  - change (Join_lines [s]) with s. rewrite <-(append_empty s) at 1.
    rewrite split_on_line by done. simpl. by rewrite append_empty.
  - change (Join_lines (s :: s' :: l)) with (s +:+ String newline (Join_lines (s' :: l))).
    rewrite split_on_line by done. cbn [split_on]. rewrite bool_decide_true by done.
    rewrite IH by done. by rewrite append_empty.
Qed.

(** A list of lines survives the newline-separated text evidence carries it in. *)
Lemma splitLines_Join l : Forall is_line l → splitLines (Join_lines l) = l.
Proof.
  intros Hl. destruct (decide (l = [])) as [->|Hne]; [done|].
  unfold splitLines. rewrite bool_decide_false.
  - rewrite split_on_Join by done. clear Hne.
    induction l as [|s l IH]; [done|]. apply Forall_cons in Hl as [[Hs _] Hl].
    rewrite filter_cons_True by done. by rewrite IH.
  - destruct l as [|s [|s' l]]; [done| |]; apply Forall_cons in Hl as [[Hs _] _]; [done|].
    destruct s; [done|]. done.
Qed.
