(* ===== verification/Spread.v ===== *)
(** * Failure domains and node lifecycle (src/control/spread.go, node_lifecycle.go)

    The per-domain replica ceiling the kernel enforces on every placement, the
    occupancy it is measured against, and the rules for taking a node out of
    service and planning its evacuation. *)

From S2P Require Import Prelude Types.
Open Scope Z_scope.

(** ** spread.go *)

Definition Placement_Validate (p : option Placement) : result unit :=
  match p with
  | None => Ok tt
  | Some p =>
      refuse (Placement_MaxPerDomain p <? 0) "placement max_per_domain cannot be negative";
      Ok tt
  end.

(** [fmt.Sprintf("%s-%d", workload, replica)] *)
Definition AllocationID (workload : string) (replica : Z) : string :=
  workload +:+ "-" +:+ pretty replica.

Definition MaxPerDomain (g : Goal) : Z :=
  match Workload_Placement (Goal_Workload g) with
  | None => 0
  | Some p => Placement_MaxPerDomain p
  end.

(** Does [DomainOccupancy] count this allocation, and in which domain? *)
Definition occupies (w : World) (workload : string) (a : Allocation) : option string :=
  if bool_decide (Alloc_Workload a ≠ workload) || bool_decide (Alloc_Phase a = AllocationStopped)
  then None
  else match Nodes w !! Alloc_Node a with
       | None => None
       | Some n => Some (FailureDomain (Some n))
       end.

(** [counts[domain]++] *)
Definition map_incr (counts : gmap string Z) (domain : string) : gmap string Z :=
  <[domain := default 0 (counts !! domain) + 1]> counts.

Definition DomainOccupancy (w : World) (workload : string) : gmap string Z :=
  foldr (λ a counts, match occupies w workload a with
                     | Some d => map_incr counts d
                     | None => counts
                     end) ∅ (values (Allocations w)).

(** [DomainOccupancy(world, workload)[domain]] *)
Definition occupancy (w : World) (workload domain : string) : Z :=
  default 0 (DomainOccupancy w workload !! domain).

Definition FailureDomains (w : World) : list string :=
  sort_Strings (elements (list_to_set
    (C := gset string)
    ((λ n, FailureDomain (Some n)) <$> filter (λ n, Schedulable n = true) (values (Nodes w))))).

Definition checkSpread (g : Goal) (w : World) (a : Action) : result unit :=
  let ceiling := MaxPerDomain g in
  if ceiling <=? 0 then Ok tt
  else match Nodes w !! Action_Node a with
       | None => Ok tt
       | Some node =>
           let domain := FailureDomain (Some node) in
           let held := occupancy w (Workload_Name (Goal_Workload g)) domain in
           refuse (ceiling <=? held)
             "failure domain %q already holds %d of at most %d replicas of workload %q";
           Ok tt
       end.

Definition validateSpread (g : Goal) (w : World) : result unit :=
  let* _ := Placement_Validate (Workload_Placement (Goal_Workload g)) in
  let ceiling := MaxPerDomain g in
  if ceiling <=? 0 then Ok tt
  else
    let capacity := i64 (len (FailureDomains w) * ceiling) in
    refuse (capacity <? Workload_Replicas (Goal_Workload g))
      "workload %q wants %d replicas but %d failure domains at %d per domain hold only %d";
    Ok tt.

(** ** node_lifecycle.go *)

Definition ControlPlaneLocal (k : ActionKind) : bool :=
  match k with
  | ActionCordonNode | ActionUncordonNode => true
  | _ => false
  end.

Definition CordonEvidence (a : Action) : result Evidence :=
  refuse (bool_decide (Action_Target a = "")) "%s requires a node";
  let kind := if decide (Action_Kind a = ActionUncordonNode)
              then EvidenceNodeUncordoned else EvidenceNodeCordoned in
  Ok (mkEvidence kind (Action_Target a) "" time_zero time_zero
        (<["node" := Action_Target a]> (<["reason" := Action_Reason a]> ∅))).

Definition validateCordonNode (_ : Goal) (w : World) (a : Action) : result unit :=
  refuse (bool_decide (Action_Target a = "")) "cordon requires a node";
  need _n := Nodes w !! Action_Target a else "node %q does not exist";
  Ok tt.

Definition validateUncordonNode (_ : Goal) (w : World) (a : Action) : result unit :=
  refuse (bool_decide (Action_Target a = "")) "uncordon requires a node";
  need _n := Nodes w !! Action_Target a else "node %q does not exist";
  Ok tt.

Record NodeEvacuation := mkNodeEvacuation {
  Evac_Node : string; Evac_Allocations : list string; Evac_Stateful : list string }.

Definition Evacuation_Empty (e : NodeEvacuation) : bool := len (Evac_Allocations e) =? 0.

Definition PlanEvacuation (w : World) (nodeID : string) : NodeEvacuation :=
  let live := filter (λ a, Alloc_Node a = nodeID ∧ Alloc_Phase a ≠ AllocationStopped)
                     (values (Allocations w)) in
  mkNodeEvacuation nodeID (sort_Strings (Alloc_ID <$> live))
    (sort_Strings (Alloc_ID <$> filter (λ a, Alloc_Stateful a = true) live)).

Definition UnhealthyNodes (w : World) : list string :=
  sort_Strings ((map_to_list (Nodes w)).*1 ≫= λ id,
    match Nodes w !! id with
    | Some n => if negb (Node_Healthy n) && negb (Node_Cordoned n) then [id] else []
    | None => []
    end).

(** ** Facts about occupancy *)

Definition counts_in (w : World) (workload domain : string) (a : Allocation) : bool :=
  bool_decide (occupies w workload a = Some domain).

Lemma map_incr_lookup counts d e :
  default 0 (map_incr counts d !! e) = default 0 (counts !! e) + (if bool_decide (d = e) then 1 else 0).
Proof.
  unfold map_incr. rewrite lookup_insert. case_decide; case_bool_decide; try done; [by subst|].
  simpl. lia.
Qed.

(** The counting loop computes, for each domain, the number of live replicas in it. *)
Lemma occupancy_count w workload domain :
  occupancy w workload domain = map_count (counts_in w workload domain) (Allocations w).
Proof.
  unfold occupancy, DomainOccupancy, map_count, map_sum, counts_in.
  induction (values (Allocations w)) as [|a l IH]; cbn [foldr]; [done|].
  rewrite <-IH. destruct (occupies w workload a) as [d|].
  - rewrite map_incr_lookup. repeat case_bool_decide; try lia; congruence.
  - by rewrite bool_decide_false.
Qed.

Lemma occupies_Some w workload a d :
  occupies w workload a = Some d ↔
  Alloc_Workload a = workload ∧ Alloc_Phase a ≠ AllocationStopped ∧
  ∃ n, Nodes w !! Alloc_Node a = Some n ∧ d = FailureDomain (Some n).
Proof.
  unfold occupies. split.
  - intros H. destruct (bool_decide _ || bool_decide _) eqn:E; [done|]. bool_simpl.
    destruct (Nodes w !! Alloc_Node a) as [n|]; [|done]. naive_solver.
  - intros (-> & Hp & n & Hn & ->). rewrite bool_decide_false by (intros H; by apply H).
    rewrite bool_decide_false by done. simpl. by rewrite Hn.
Qed.
