(* ===== verification/Snapshots.v ===== *)
(** * Snapshot retention (src/control/projection.go: prunableSnapshots, removeString)

    Which snapshots of a volume may be removed, the removal loop shared by the
    simulation and the projection, and the record-keeping invariant that ties the
    three places a volume mentions a snapshot together. *)

From S2P Require Import Prelude Types.
Open Scope Z_scope.

(** The first occurrence of [target] removed. *)
Fixpoint removeString (values : list string) (target : string) : list string :=
  match values with
  | [] => []
  | v :: rest => if bool_decide (v = target) then rest else v :: removeString rest target
  end.

(** The most recent [retain] entries, as the loop over the tail of the order marks them. *)
Definition recent_snapshots (order : list string) (retain : Z) : list string :=
  take (Z.to_nat retain) (reverse order).

Definition prunableSnapshots (v : Volume) (retain : Z) : list string :=
  let retain := if retain <? 1 then 1 else retain in
  let protected (id : string) :=
    (bool_decide (Vol_LastSnapshot v ≠ "") && bool_decide (id = Vol_LastSnapshot v))
    || bool_decide (is_Some (Vol_Backups v !! id))
    || bool_decide (id ∈ recent_snapshots (Vol_SnapshotOrder v) retain) in
  filter (λ id, protected id = false) (Vol_SnapshotOrder v).

(** One iteration of the removal loop. *)
Definition forget_snapshot (v : Volume) (id : string) : Volume :=
  v <| Vol_Snapshots ::= delete id |>
    <| Vol_Backups ::= delete id |>
    <| Vol_SnapshotOrder ::= λ order, removeString order id |>.

Definition forget_snapshots (v : Volume) (ids : list string) : Volume := foldl forget_snapshot v ids.

(** ** removeString *)

Lemma removeString_sublist l s : removeString l s `sublist_of` l.
Proof.
  induction l as [|v l IH]; simpl; [constructor|]. case_bool_decide.
  - by constructor.
  - by constructor.
Qed.

Lemma elem_of_removeString l s x :
  NoDup l → x ∈ removeString l s ↔ x ∈ l ∧ x ≠ s.
Proof.
  induction 1 as [|v l Hv Hl IH]; simpl.
  - split; [intros H; by apply not_elem_of_nil in H | tauto].
  - case_bool_decide as E.
    + subst. rewrite elem_of_cons. split; [|naive_solver]. intros Hx. split; [by right|]. by intros ->.
    + rewrite !elem_of_cons, IH. split; [|naive_solver]. intros [->|?]; [|naive_solver].
      split; [by left|done].
Qed.

(** ** The record-keeping invariant *)

(** The order lists each recorded snapshot exactly once, every off-host copy is of
    a recorded snapshot, and the last-known recovery point is a recorded snapshot
    whenever there is one. *)
Record snapshots_ok (v : Volume) : Prop := {
  so_nodup : NoDup (Vol_SnapshotOrder v);
  so_order : ∀ id, id ∈ Vol_SnapshotOrder v ↔ is_Some (Vol_Snapshots v !! id);
  so_backups : ∀ id, is_Some (Vol_Backups v !! id) → is_Some (Vol_Snapshots v !! id);
  so_named : "" ∉ Vol_SnapshotOrder v;
  so_last : Vol_SnapshotOrder v ≠ [] → Vol_LastSnapshot v ∈ Vol_SnapshotOrder v;
}.

(** All of the invariant but the last-known pointer, which the prune handler
    repairs after the loop. *)
Record snapshots_listed (v : Volume) : Prop := {
  sl_nodup : NoDup (Vol_SnapshotOrder v);
  sl_order : ∀ id, id ∈ Vol_SnapshotOrder v ↔ is_Some (Vol_Snapshots v !! id);
  sl_backups : ∀ id, is_Some (Vol_Backups v !! id) → is_Some (Vol_Snapshots v !! id);
  sl_named : "" ∉ Vol_SnapshotOrder v;
}.

Lemma snapshots_ok_listed v : snapshots_ok v → snapshots_listed v.
Proof. intros []. by split. Qed.

Lemma is_Some_delete {A} (m : gmap string A) k j :
  is_Some (delete k m !! j) ↔ is_Some (m !! j) ∧ j ≠ k.
Proof.
  rewrite lookup_delete. case_decide; subst.
  - split; [intros [? ?]; done | naive_solver].
  - naive_solver.
Qed.

Lemma forget_snapshot_listed v id : snapshots_listed v → snapshots_listed (forget_snapshot v id).
Proof.
  intros [Hnd Ho Hb Hn]. unfold forget_snapshot. split; simpl_set.
  - by eapply sublist_NoDup, removeString_sublist.
  - intros j. rewrite elem_of_removeString, Ho, is_Some_delete by done. done.
  - intros j. rewrite !is_Some_delete. naive_solver.
  - rewrite elem_of_removeString by done. naive_solver.
Qed.

Lemma forget_snapshots_listed v ids : snapshots_listed v → snapshots_listed (forget_snapshots v ids).
Proof.
  unfold forget_snapshots. revert v. induction ids as [|id ids IH]; simpl; intros v Hv; [done|].
  apply IH. by apply forget_snapshot_listed.
Qed.

Lemma forget_snapshots_order v ids id :
  snapshots_listed v →
  id ∈ Vol_SnapshotOrder (forget_snapshots v ids) ↔ id ∈ Vol_SnapshotOrder v ∧ id ∉ ids.
Proof.
  unfold forget_snapshots. revert v. induction ids as [|i ids IH]; simpl; intros v Hv.
  - split; [|naive_solver]. intros H. split; [done|]. apply not_elem_of_nil.
  - rewrite IH by by apply forget_snapshot_listed. unfold forget_snapshot. simpl_set.
    rewrite elem_of_removeString by apply Hv. rewrite not_elem_of_cons. naive_solver.
Qed.

Lemma forget_snapshots_frame v ids :
  let v' := forget_snapshots v ids in
  Vol_Node v' = Vol_Node v ∧ Vol_Owner v' = Vol_Owner v ∧ Vol_Generation v' = Vol_Generation v ∧
  Vol_Handoff v' = Vol_Handoff v ∧ Vol_LastSnapshot v' = Vol_LastSnapshot v.
Proof.
  unfold forget_snapshots. revert v. induction ids as [|i ids IH]; intros v; [done|].
  destruct (IH (forget_snapshot v i)) as (H1 & H2 & H3 & H4 & H5). simpl.
  unfold forget_snapshot in *. simpl_set. repeat split; congruence.
Qed.

(** ** Retention *)

Lemma elem_of_prunable v retain id :
  id ∈ prunableSnapshots v retain →
  id ∈ Vol_SnapshotOrder v ∧ (Vol_LastSnapshot v ≠ "" → id ≠ Vol_LastSnapshot v) ∧
  Vol_Backups v !! id = None ∧ id ∉ recent_snapshots (Vol_SnapshotOrder v) (Z.max 1 retain).
Proof.
  unfold prunableSnapshots. rewrite list_elem_of_filter. intros [Hp Hid].
  apply orb_false_iff in Hp as [Hp Hr]. apply orb_false_iff in Hp as [Hl Hb]. bool_simpl.
  split; [done|]. split; [|split].
  - intros Hne ->. rewrite !bool_decide_true in Hl by done. done.
  - by apply eq_None_not_Some.
  - replace (Z.max 1 retain) with (if retain <? 1 then 1 else retain); [done|].
    destruct (Z.ltb_spec retain 1); lia.
Qed.

Lemma recent_snapshots_listed order n id : id ∈ recent_snapshots order n → id ∈ order.
Proof.
  intros Hid. apply elem_of_take in Hid as (i & Hi & _).
  apply list_elem_of_lookup_2 in Hi. by rewrite reverse_Permutation in Hi.
Qed.

Lemma recent_snapshots_length order n :
  0 <= n → len (recent_snapshots order n) = Z.min n (len order).
Proof. intros H. unfold len, recent_snapshots. rewrite length_take, length_reverse. lia. Qed.

Lemma recent_snapshots_nodup order n : NoDup order → NoDup (recent_snapshots order n).
Proof.
  intros H. eapply (sublist_NoDup _ (reverse order)); [by rewrite reverse_Permutation|]. apply sublist_take.
Qed.

(** What retention protects stays listed. *)
Lemma prune_keeps v retain id :
  snapshots_listed v → id ∈ Vol_SnapshotOrder v →
  (id = Vol_LastSnapshot v ∧ id ≠ "") ∨ is_Some (Vol_Backups v !! id)
  ∨ id ∈ recent_snapshots (Vol_SnapshotOrder v) (Z.max 1 retain) →
  id ∈ Vol_SnapshotOrder (forget_snapshots v (prunableSnapshots v retain)).
Proof.
  intros Hl Hid Hprot. apply forget_snapshots_order; [done|]. split; [done|].
  intros Hpr. destruct (elem_of_prunable _ _ _ Hpr) as (_ & H1 & H2 & H3).
  destruct Hprot as [[-> Hne]|[[? Hb]|Hr]]; [by apply H1|congruence|done].
Qed.

Lemma prune_snapshots_ok v retain :
  snapshots_ok v → snapshots_ok (forget_snapshots v (prunableSnapshots v retain)).
Proof.
  intros Hok. pose proof (snapshots_ok_listed v Hok) as Hl.
  destruct (forget_snapshots_listed v (prunableSnapshots v retain) Hl) as [H1 H2 H3 H4].
  split; [exact H1|exact H2|exact H3|exact H4|]. intros Hne.
  destruct (forget_snapshots_frame v (prunableSnapshots v retain)) as (_ & _ & _ & _ & ->).
  assert (Vol_LastSnapshot v ∈ Vol_SnapshotOrder v) as Hlast.
  { apply (so_last v Hok). intros He.
    destruct (Vol_SnapshotOrder (forget_snapshots v (prunableSnapshots v retain))) as [|x l] eqn:E; [done|].
    assert (x ∈ Vol_SnapshotOrder (forget_snapshots v (prunableSnapshots v retain))) as Hx
      by (rewrite E; by left).
    apply forget_snapshots_order in Hx as [Hx _]; [|done]. rewrite He in Hx.
    by apply not_elem_of_nil in Hx. }
  apply prune_keeps; [done..|]. left. split; [done|]. intros He. apply (so_named v Hok). by rewrite <-He.
Qed.

(** Pruning never removes what recovery depends on.  Whatever retention count
    is asked for, the volume keeps its last-known recovery point, every snapshot
    with an off-host copy, and its most recent snapshots up to that count (and at
    least one), and its records stay consistent. *)
Theorem prune_keeps_recovery_points v retain (Hok : snapshots_ok v) :
  let v' := forget_snapshots v (prunableSnapshots v retain) in
  snapshots_ok v' ∧
  (∀ id, id ∈ Vol_SnapshotOrder v →
     (id = Vol_LastSnapshot v ∧ id ≠ "") ∨ is_Some (Vol_Backups v !! id)
     ∨ id ∈ recent_snapshots (Vol_SnapshotOrder v) (Z.max 1 retain) →
     id ∈ Vol_SnapshotOrder v') ∧
  Z.min (Z.max 1 retain) (len (Vol_SnapshotOrder v)) <= len (Vol_SnapshotOrder v').
Proof.
  pose proof (snapshots_ok_listed v Hok) as Hl. intros v'.
  split; [by apply prune_snapshots_ok|]. split; [intros id; by apply prune_keeps|].
  rewrite <-recent_snapshots_length by lia. unfold len. apply inj_le, submseteq_length.
  apply NoDup_submseteq; [apply recent_snapshots_nodup, Hok|].
  intros id Hid. apply prune_keeps; [done| |by right; right]. by eapply recent_snapshots_listed.
Qed.

Definition sample_volume : Volume :=
  mkVolume "data" "n1" "" 3 0 "s3"
    (<["s1" := "a"]> (<["s2" := "b"]> (<["s3" := "c"]> ∅))) ["s1"; "s2"; "s3"]
    "" 0 "" None (<["s1" := "vault"]> ∅).

Lemma sample_volume_ok : snapshots_ok sample_volume.
Proof.
  split.
  - apply (bool_decide_unpack _). vm_compute. exact I.
  - intros id. unfold sample_volume. simpl. rewrite !elem_of_cons.
    rewrite !lookup_insert. repeat case_decide; subst; try naive_solver.
    rewrite lookup_empty. split; [|by intros [? ?]].
    intros [->|[->|[->|Hnil]]]; try done. by apply not_elem_of_nil in Hnil.
  - intros id. unfold sample_volume. simpl. rewrite !lookup_insert, !lookup_empty.
    repeat case_decide; subst; naive_solver.
  - apply (bool_decide_unpack _). vm_compute. exact I.
  - intros _. apply (bool_decide_unpack _). vm_compute. exact I.
Qed.

(** Witness: three snapshots, the oldest shipped off-host, retention of one: only
    the middle one goes. *)
Lemma prune_keeps_recovery_points_witness :
  prunableSnapshots sample_volume 1 = ["s2"] ∧
  snapshots_ok (forget_snapshots sample_volume (prunableSnapshots sample_volume 1)).
Proof.
  split; [vm_compute; reflexivity|].
  exact (proj1 (prune_keeps_recovery_points sample_volume 1 sample_volume_ok)).
Defined.
