(* ===== verification/Policy.v ===== *)
(** * The action validators of the policy kernel (src/control/policy.go)

    One definition per validator, with the guards in the order of the source, and
    the dispatch table [actionValidators].  [hasApproval] is from validate.go. *)

From S2P Require Import Prelude Types Text Spread.
Open Scope Z_scope.

Section Policy.
Context {clock : WallClock}.

(** ** Helpers *)

(** src/control/validate.go *)
Definition hasApproval (w : World) (goalID scope : string) : bool :=
  map_any (λ a, bool_decide (Approval_GoalID a = goalID) && bool_decide (Approval_Scope a = scope)
                && Approval_Valid a (Now w)) (Approvals w).

Definition nodeAllowed (c : Constraints) (n : Node) : bool :=
  (if 0 <? len (AllowedNodes c)
   then existsb (λ id, bool_decide (Node_ID n = id)) (AllowedNodes c) else true) &&
  forallb (λ '(key, value), bool_decide (default "" (Node_Labels n !! key) = value))
    (map_to_list (RequiredLabels c)).

Definition disruptionFloor (g : Goal) : Z :=
  let replicas := Workload_Replicas (Goal_Workload g) in
  if replicas <=? 1 then 0 else i64 (replicas - 1).

Definition serves (g : Goal) (now : time) (a : Allocation) : bool :=
  bool_decide (Alloc_Workload a = Workload_Name (Goal_Workload g)) && ReadyAt a now.

Definition servingAllocations (g : Goal) (w : World) : Z :=
  map_count (serves g (Now w)) (Allocations w).

Definition matchingReadyAllocations (g : Goal) (w : World) : Z :=
  map_count (λ a,
    match Nodes w !! Alloc_Node a with
    | None => false
    | Some n =>
        ReadyAt a (Now w) && bool_decide (Alloc_Workload a = Workload_Name (Goal_Workload g)) &&
        bool_decide (Alloc_Image a = Workload_Image (Goal_Workload g)) &&
        bool_decide (Alloc_Resources a = Workload_Resources (Goal_Workload g)) &&
        nodeAllowed (Goal_Constraints g) n && negb (Alloc_Draining a || Exhausted a)
    end) (Allocations w).

Definition goalDeclaresSecret (g : Goal) (ref : SecretRef) : bool :=
  existsb (λ d, bool_decide (d = ref)) (Workload_Secrets (Goal_Workload g)).

Definition authorizedReplicas (g : Goal) (w : World) : Z :=
  let replicas := Workload_Replicas (Goal_Workload g) in
  match Workload_Runtime (Goal_Workload g) with
  | None => replicas
  | Some runtime =>
      if bool_decide (Runtime_Queue runtime = "") then replicas
      else match Queues w !! Runtime_Queue runtime with
           | None => replicas
           | Some queue =>
               if bool_decide (Queue_Workload queue ≠ Workload_Name (Goal_Workload g)) then replicas
               else if replicas <? Queue_MaxWorkers queue then Queue_MaxWorkers queue else replicas
           end
  end.

Definition goalDeclaresTool (g : Goal) (grant : ToolGrant) : bool :=
  match Workload_Runtime (Goal_Workload g) with
  | None => false
  | Some runtime => existsb (λ d, bool_decide (d = grant)) (Runtime_Tools runtime)
  end.

Definition actionGrantsMutatingTool (a : Action) : bool := existsb Tool_Mutating (Action_Tools a).

Definition workloadDeclaresVolume (g : Goal) (name : string) : bool :=
  existsb (λ ref, bool_decide (VolumeRef_Name ref = name)) (Workload_Volumes (Goal_Workload g)).

Definition image_present (n : Node) (image : string) : bool := default false (Node_Images n !! image).

Definition validateAgentPlacement (g : Goal) (n : Node) (a : Action) (now : time) : result unit :=
  match Workload_Runtime (Goal_Workload g) with
  | None =>
      refuse (negb (Budget_IsZero (Action_Budget a))) "only agent workloads may reserve budget";
      Ok tt
  | Some runtime =>
      refuse (bool_decide (Action_Budget a ≠ Runtime_Budget runtime))
        "allocation budget differs from goal";
      refuse (negb (CanReach n (Runtime_Provider runtime) now)) "node %q cannot reach provider %q";
      refuse (negb (Budget_Fits (Budget_Add (Node_BudgetUsed n) (Action_Budget a)) (Node_BudgetCapacity n)))
        "node %q lacks agent budget capacity";
      Ok tt
  end.

(** [World.ProtectedImages] *)
Definition ProtectedImages (w : World) : list string :=
  sort_Strings (elements (list_to_set (C := gset string)
    (filter (λ i, i ≠ "") (Alloc_Image <$> values (Allocations w))))).

(** ** Validators *)

Definition validatePullImage (g : Goal) (w : World) (a : Action) : result unit :=
  need node := Nodes w !! Action_Node a else "node %q is missing or unhealthy";
  refuse (negb (Node_Healthy node)) "node %q is missing or unhealthy";
  refuse (bool_decide (Action_Image a ≠ Workload_Image (Goal_Workload g)) ||
          negb (strings_Contains (Action_Image a) "@sha256:"))
    "image must match the goal's pinned digest";
  Ok tt.

Definition validateCreateAllocation (g : Goal) (w : World) (a : Action) : result unit :=
  refuse (bool_decide (is_Some (Allocations w !! Action_Target a))) "allocation %q already exists";
  need node := Nodes w !! Action_Node a else "node %q is missing or unhealthy";
  refuse (negb (Node_Healthy node)) "node %q is missing or unhealthy";
  refuse (Node_Cordoned node) "node %q is cordoned: %s";
  refuse (negb (nodeAllowed (Goal_Constraints g) node)) "node %q violates placement constraints";
  refuse (bool_decide (Action_Workload a ≠ Workload_Name (Goal_Workload g))) "workload differs from goal";
  refuse (bool_decide (Action_Image a ≠ Workload_Image (Goal_Workload g)) ||
          negb (image_present node (Action_Image a))) "pinned image is not present on node %q";
  refuse (bool_decide (Action_Resources a ≠ Workload_Resources (Goal_Workload g)))
    "resources differ from goal";
  refuse (negb (Resources_Fits (Resources_Add (Node_Used node) (Action_Resources a)) (Node_Capacity node)))
    "node %q lacks capacity";
  refuse ((Action_Replica a <? 0) || (authorizedReplicas g w <=? Action_Replica a))
    "replica index is outside goal";
  let* _ := checkSpread g w a in
  validateAgentPlacement g node a (Now w).

Definition validateCreateVolume (g : Goal) (w : World) (a : Action) : result unit :=
  need ref := Action_Volume a else "create volume requires a volume reference";
  refuse (negb (workloadDeclaresVolume g (VolumeRef_Name ref))) "volume %q is not declared by the goal";
  need node := Nodes w !! Action_Node a else "node %q is missing or unhealthy";
  refuse (negb (Node_Healthy node)) "node %q is missing or unhealthy";
  refuse (Node_Cordoned node) "node %q is cordoned: %s";
  match Volumes w !! VolumeRef_Name ref with
  | Some existing =>
      refuse (bool_decide (Vol_Node existing ≠ Action_Node a)) "volume %q already exists on node %q";
      Ok tt
  | None => Ok tt
  end.

Definition validateAttachVolume (g : Goal) (w : World) (a : Action) : result unit :=
  need ref := Action_Volume a else "attach volume requires a volume reference";
  need allocation := Allocations w !! Action_Target a else "allocation %q does not exist";
  refuse (bool_decide (Alloc_Phase allocation ≠ AllocationCreated))
    "volumes must be attached before allocation %q starts";
  need volume := Volumes w !! VolumeRef_Name ref else "volume %q does not exist";
  refuse (negb (workloadDeclaresVolume g (VolumeRef_Name ref))) "volume %q is not declared by the goal";
  refuse (bool_decide (Vol_Owner volume ≠ "") && bool_decide (Vol_Owner volume ≠ Action_Target a))
    "volume %q is owned by allocation %q";
  refuse (bool_decide (is_Some (Vol_Handoff volume)))
    "volume %q is being moved to node %q and cannot be attached";
  refuse (bool_decide (Vol_Node volume ≠ Alloc_Node allocation))
    "volume %q lives on node %q but allocation %q is on %q";
  Ok tt.

Definition validateDetachVolume (g : Goal) (w : World) (a : Action) : result unit :=
  need ref := Action_Volume a else "detach volume requires a volume reference";
  need volume := Volumes w !! VolumeRef_Name ref else "volume %q does not exist";
  refuse (bool_decide (Vol_Owner volume ≠ "") && bool_decide (Vol_Owner volume ≠ Action_Target a))
    "allocation %q does not own volume %q";
  match Allocations w !! Action_Target a with
  | Some allocation =>
      refuse (bool_decide (Alloc_Phase allocation = AllocationRunning))
        "allocation %q must stop before releasing volume %q";
      Ok tt
  | None => Ok tt
  end.

Definition validateSnapshotVolume (g : Goal) (w : World) (a : Action) : result unit :=
  need ref := Action_Volume a else "snapshot volume requires a volume reference";
  need volume := Volumes w !! VolumeRef_Name ref else "volume %q does not exist";
  refuse (bool_decide (Workload_Engine (Goal_Workload g) ≠ ""))
    "volume %q backs a %s database; use database_backup for a consistent copy";
  refuse (bool_decide (Vol_Owner volume ≠ ""))
    "volume %q must be quiesced before snapshotting; it is attached to %q";
  Ok tt.

Definition validateQuiesceVolume (g : Goal) (w : World) (a : Action) : result unit :=
  need ref := Action_Volume a else "quiesce volume requires a volume reference";
  need volume := Volumes w !! VolumeRef_Name ref else "volume %q does not exist";
  refuse (bool_decide (Vol_Owner volume ≠ ""))
    "volume %q must be detached before a move; it is held by %q";
  need target := Nodes w !! Action_Node a else "handoff target %q is missing or unhealthy";
  refuse (negb (Node_Healthy target)) "handoff target %q is missing or unhealthy";
  refuse (Node_Cordoned target) "handoff target %q is cordoned: %s";
  refuse (bool_decide (Action_Node a = Vol_Node volume)) "volume %q already lives on node %q";
  refuse (negb (hasApproval w (Goal_ID g) "move-volume")) "moving volume %q requires move-volume approval";
  Ok tt.

Definition validateTransferVolume (g : Goal) (w : World) (a : Action) : result unit :=
  need ref := Action_Volume a else "transfer volume requires a volume reference";
  need volume := Volumes w !! VolumeRef_Name ref else "volume %q does not exist";
  need handoff := Vol_Handoff volume else "volume %q has no handoff in progress";
  refuse (bool_decide (Handoff_Phase handoff ≠ HandoffSnapshotted))
    "volume %q must be snapshotted before transfer, not %q";
  refuse (bool_decide (Action_Node a ≠ Handoff_To handoff))
    "transfer target %q is not the handoff target %q";
  Ok tt.

Definition validateAdoptVolume (g : Goal) (w : World) (a : Action) : result unit :=
  need ref := Action_Volume a else "adopt volume requires a volume reference";
  need volume := Volumes w !! VolumeRef_Name ref else "volume %q does not exist";
  need handoff := Vol_Handoff volume else "volume %q has no handoff in progress";
  refuse (bool_decide (Handoff_Phase handoff ≠ HandoffTransferred))
    "volume %q must be transferred before adoption, not %q";
  refuse (bool_decide (Action_Node a ≠ Handoff_To handoff))
    "adoption node %q is not the handoff target %q";
  Ok tt.

Definition validateDatabaseBackup (g : Goal) (w : World) (a : Action) : result unit :=
  need ref := Action_Volume a else "database backup requires a volume reference";
  refuse (bool_decide (Action_Snapshot a = "")) "database backup requires a backup label";
  refuse (bool_decide (Workload_Engine (Goal_Workload g) = ""))
    "database backup is only for database workloads";
  need volume := Volumes w !! VolumeRef_Name ref else "volume %q does not exist";
  refuse (bool_decide (Vol_Owner volume = "")) "database volume %q must be attached to back it up";
  Ok tt.

Definition validateVerifyBackup (g : Goal) (w : World) (a : Action) : result unit :=
  need ref := Action_Volume a else "verify backup requires a volume reference";
  refuse (bool_decide (Action_Snapshot a = "")) "verify backup requires a snapshot id";
  need volume := Volumes w !! VolumeRef_Name ref else "volume %q does not exist";
  refuse (bool_decide (Vol_Snapshots volume !! Action_Snapshot a = None))
    "snapshot %q of volume %q was never recorded";
  Ok tt.

Definition validatePruneSnapshots (g : Goal) (w : World) (a : Action) : result unit :=
  need ref := Action_Volume a else "prune snapshots requires a volume reference";
  need volume := Volumes w !! VolumeRef_Name ref else "volume %q does not exist";
  refuse (Action_Retain a <? 1) "prune must retain at least one snapshot";
  refuse (bool_decide (is_Some (Vol_Handoff volume))) "volume %q is being moved and cannot be pruned";
  Ok tt.

(** src/control/netpolicy.go *)
Definition PolicyTable : string := "a4s".

Definition validateApplyPolicy (g : Goal) (w : World) (a : Action) : result unit :=
  refuse (bool_decide (Action_Node a = "")) "apply policy requires a node";
  need _n := Nodes w !! Action_Node a else "node %q does not exist";
  need policy := Action_Policy a else "apply policy requires a compiled ruleset";
  refuse (bool_decide (Compiled_Node policy ≠ Action_Node a))
    "policy was compiled for node %q but is addressed to %q";
  refuse (bool_decide (Compiled_Table policy ≠ PolicyTable)) "policy must target the %q table, not %q";
  refuse (len (Compiled_Rules policy) =? 0) "compiled policy holds no rules";
  Ok tt.

Definition validatePublishZone (g : Goal) (w : World) (a : Action) : result unit :=
  refuse (bool_decide (Action_Node a = "")) "publish zone requires a node";
  need _n := Nodes w !! Action_Node a else "node %q does not exist";
  need zone := Action_Zone a else "publish zone requires a zone";
  refuse (bool_decide (Zone_Node zone ≠ Action_Node a))
    "zone was built for node %q but is addressed to %q";
  Ok tt.

Definition validateCollectImages (g : Goal) (w : World) (a : Action) : result unit :=
  refuse (bool_decide (Action_Node a = "")) "collect images requires a node";
  need node := Nodes w !! Action_Node a else "node %q is not healthy enough to collect images";
  refuse (negb (Node_Healthy node)) "node %q is not healthy enough to collect images";
  for_all (λ image,
    refuse (bool_decide (image ∉ Action_Protected a))
      "collect images must protect %q, which an allocation still references";
    Ok tt) (ProtectedImages w).

Definition validateBackupSnapshot (g : Goal) (w : World) (a : Action) : result unit :=
  need ref := Action_Volume a else "backup snapshot requires a volume reference";
  refuse (bool_decide (Action_Snapshot a = "")) "backup snapshot requires a snapshot id";
  need volume := Volumes w !! VolumeRef_Name ref else "volume %q does not exist";
  refuse (bool_decide (Vol_Snapshots volume !! Action_Snapshot a = None))
    "snapshot %q of volume %q was never recorded";
  Ok tt.

Definition validateRestoreSnapshot (g : Goal) (w : World) (a : Action) : result unit :=
  need ref := Action_Volume a else "restore snapshot requires a volume reference";
  refuse (bool_decide (Action_Snapshot a = "")) "restore snapshot requires a snapshot id";
  need volume := Volumes w !! VolumeRef_Name ref else "volume %q does not exist";
  refuse (bool_decide (Vol_Snapshots volume !! Action_Snapshot a = None))
    "snapshot %q of volume %q was never recorded";
  refuse (bool_decide (Vol_Owner volume ≠ ""))
    "volume %q must be detached before restore; it is attached to %q";
  refuse (negb (hasApproval w (Goal_ID g) "restore-volume"))
    "restoring volume %q requires restore-volume approval";
  Ok tt.

Definition validateMountSecret (g : Goal) (w : World) (a : Action) : result unit :=
  need allocation := Allocations w !! Action_Target a else "allocation %q does not exist";
  refuse (bool_decide (Alloc_Phase allocation ≠ AllocationCreated))
    "secrets must be mounted before allocation %q starts";
  need secret := Action_Secret a else "mount secret requires a secret reference";
  refuse (negb (goalDeclaresSecret g secret)) "secret %q is not declared by the goal";
  Ok tt.

Definition validateGrantTools (g : Goal) (w : World) (a : Action) : result unit :=
  need allocation := Allocations w !! Action_Target a else "allocation %q does not exist";
  refuse (bool_decide (Alloc_Phase allocation ≠ AllocationCreated))
    "tools must be granted before allocation %q starts";
  refuse (bool_decide (¬ is_Some (Workload_Runtime (Goal_Workload g))))
    "tool grants are only for agent workloads";
  let* _ := for_all (λ grant,
    refuse (negb (goalDeclaresTool g grant)) "tool %q is not declared by the goal";
    Ok tt) (Action_Tools a) in
  refuse (actionGrantsMutatingTool a && negb (hasApproval w (Goal_ID g) "agent-mutating-tools"))
    "granting mutating tools to %q requires agent-mutating-tools approval";
  Ok tt.

Definition validateDrainAllocation (g : Goal) (w : World) (a : Action) : result unit :=
  need allocation := Allocations w !! Action_Target a else "allocation %q does not exist";
  refuse (bool_decide (Alloc_Phase allocation ≠ AllocationRunning)) "allocation %q is not running";
  refuse (bool_decide (¬ is_Some (Workload_Runtime (Goal_Workload g))))
    "drain is only for agent workloads";
  refuse (bool_decide (Action_Workload a ≠ Alloc_Workload allocation)) "workload differs from allocation";
  Ok tt.

Definition validateAttachNetwork (g : Goal) (w : World) (a : Action) : result unit :=
  need allocation := Allocations w !! Action_Target a else "allocation %q does not exist";
  refuse (bool_decide (Alloc_Phase allocation ≠ AllocationCreated))
    "allocation %q must be attached before it starts";
  refuse (bool_decide (Action_Workload a ≠ Alloc_Workload allocation)) "workload differs from allocation";
  Ok tt.

Definition start_volume_check (w : World) (target : string) (allocation : Allocation)
    (ref : VolumeRef) : result unit :=
  need volume := Volumes w !! VolumeRef_Name ref else "allocation %q needs volume %q, which does not exist";
  need attached := Alloc_Volumes allocation !! VolumeRef_Name ref
    else "allocation %q is missing volume %q";
  refuse (negb (attached =? Vol_Generation volume)) "allocation %q holds a fenced generation of volume %q";
  refuse (bool_decide (Vol_Owner volume ≠ target)) "volume %q is no longer owned by allocation %q";
  Ok tt.

Definition validateStartAllocation (g : Goal) (w : World) (a : Action) : result unit :=
  need allocation := Allocations w !! Action_Target a else "allocation %q is not created";
  refuse (bool_decide (Alloc_Phase allocation ≠ AllocationCreated)) "allocation %q is not created";
  refuse (bool_decide (Action_Workload a ≠ Workload_Name (Goal_Workload g)) ||
          bool_decide (Alloc_Workload allocation ≠ Action_Workload a)) "workload differs from goal";
  let* _ := for_all (start_volume_check w (Action_Target a) allocation)
              (Workload_Volumes (Goal_Workload g)) in
  let* _ := for_all (λ ref,
    refuse (bool_decide (default "" (Alloc_Secrets allocation !! Secret_Name ref) ≠ Secret_Version ref))
      "allocation %q is missing secret %q version %q";
    Ok tt) (Workload_Secrets (Goal_Workload g)) in
  refuse ((0 <? Workload_Port (Goal_Workload g)) && bool_decide (Alloc_Address allocation = ""))
    "allocation %q has no network address";
  match Workload_Runtime (Goal_Workload g) with
  | None => Ok tt
  | Some runtime =>
      refuse ((0 <? len (Runtime_Tools runtime)) && (len (Alloc_Tools allocation) =? 0))
        "agent allocation %q has no tool grant";
      refuse (Budget_IsZero (Alloc_Budget allocation)) "agent allocation %q holds no budget";
      refuse (Exhausted allocation) "agent allocation %q has exhausted its budget";
      Ok tt
  end.

Definition validateStopAllocation (g : Goal) (w : World) (a : Action) : result unit :=
  need allocation := Allocations w !! Action_Target a else "allocation %q does not exist";
  refuse (bool_decide (Alloc_Phase allocation ≠ AllocationRunning)) "allocation %q is not running";
  refuse (bool_decide (Action_Workload a ≠ Alloc_Workload allocation)) "workload differs from allocation";
  if bool_decide (is_Some (Workload_Runtime (Goal_Workload g))) &&
     bool_decide (Alloc_Task allocation ≠ "") && negb (Exhausted allocation)
  then
    refuse (negb (Alloc_Draining allocation)) "agent allocation %q must be drained before it stops";
    Err (Errorf "agent allocation %q is still working on task %q")
  else if ReadyAt allocation (Now w) then
    refuse (i64 (servingAllocations g w - 1) <? disruptionFloor g)
      "stopping %q would leave %d ready replicas, below the availability floor of %d";
    Ok tt
  else Ok tt.

Definition validateDeleteAllocation (g : Goal) (w : World) (a : Action) : result unit :=
  need allocation := Allocations w !! Action_Target a else "allocation %q does not exist";
  refuse (bool_decide (Alloc_Phase allocation = AllocationRunning))
    "allocation %q must be stopped before deletion";
  refuse (bool_decide (Action_Workload a ≠ Alloc_Workload allocation)) "workload differs from allocation";
  refuse (bool_decide (Alloc_Volumes allocation ≠ ∅)) "allocation %q must release its volumes before deletion";
  refuse (Alloc_Stateful allocation && negb (hasApproval w (Goal_ID g) "destroy-stateful"))
    "deleting stateful allocation %q requires destroy-stateful approval";
  Ok tt.

Definition validatePublishRoute (g : Goal) (w : World) (a : Action) : result unit :=
  need route := Goal_Route g else "goal does not request a route";
  refuse (bool_decide (Action_Target a ≠ RouteSpec_Host route) ||
          negb (Action_Port a =? RouteSpec_Port route) ||
          bool_decide (Action_Exposure a ≠ RouteSpec_Exposure route)) "route differs from goal";
  refuse (bool_decide (Action_Workload a ≠ Workload_Name (Goal_Workload g))) "workload differs from goal";
  refuse (bool_decide (Action_Exposure a = "public") && negb (hasApproval w (Goal_ID g) "public-route"))
    "public route requires public-route approval";
  refuse (matchingReadyAllocations g w <? Workload_Replicas (Goal_Workload g)) "workload is not ready";
  Ok tt.

(** [actionValidators] and [validateAction] *)
Definition actionValidators (k : ActionKind) : option (Goal → World → Action → result unit) :=
  match k with
  | ActionPullImage => Some validatePullImage
  | ActionCreateAllocation => Some validateCreateAllocation
  | ActionCreateVolume => Some validateCreateVolume
  | ActionAttachVolume => Some validateAttachVolume
  | ActionDetachVolume => Some validateDetachVolume
  | ActionSnapshotVolume => Some validateSnapshotVolume
  | ActionQuiesceVolume => Some validateQuiesceVolume
  | ActionTransferVolume => Some validateTransferVolume
  | ActionAdoptVolume => Some validateAdoptVolume
  | ActionDatabaseBackup => Some validateDatabaseBackup
  | ActionVerifyBackup => Some validateVerifyBackup
  | ActionPruneSnapshots => Some validatePruneSnapshots
  | ActionCollectImages => Some validateCollectImages
  | ActionPublishZone => Some validatePublishZone
  | ActionApplyPolicy => Some validateApplyPolicy
  | ActionBackupSnapshot => Some validateBackupSnapshot
  | ActionRestoreSnapshot => Some validateRestoreSnapshot
  | ActionMountSecret => Some validateMountSecret
  | ActionGrantTools => Some validateGrantTools
  | ActionDrainAllocation => Some validateDrainAllocation
  | ActionAttachNetwork => Some validateAttachNetwork
  | ActionStartAllocation => Some validateStartAllocation
  | ActionStopAllocation => Some validateStopAllocation
  | ActionDeleteAllocation => Some validateDeleteAllocation
  | ActionPublishRoute => Some validatePublishRoute
  | ActionCordonNode => Some validateCordonNode
  | ActionUncordonNode => Some validateUncordonNode
  | ActionProbeReadiness | ActionOther _ => None
  end.

Definition validateAction (g : Goal) (w : World) (a : Action) : result unit :=
  need validator := actionValidators (Action_Kind a) else "unknown action kind %q";
  validator g w a.

End Policy.

(** The validators, unfolded by [autounfold with validate]. *)
Create HintDb validate.
#[export] Hint Unfold validatePullImage validateCreateAllocation validateCreateVolume validateAttachVolume
  validateDetachVolume validateSnapshotVolume validateQuiesceVolume validateTransferVolume
  validateAdoptVolume validateDatabaseBackup validateVerifyBackup validatePruneSnapshots
  validateCollectImages validatePublishZone validateApplyPolicy validateBackupSnapshot
  validateRestoreSnapshot validateMountSecret validateGrantTools validateDrainAllocation
  validateAttachNetwork validateStartAllocation validateStopAllocation validateDeleteAllocation
  validatePublishRoute validateCordonNode validateUncordonNode : validate.
