(* ===== verification/Simulate.v ===== *)
(** * Plan simulation (src/control/executor.go: simulateAction)

    The intended effect of an action on a cloned world, by which the kernel checks
    a whole plan before the first mutation.  One definition per group of cases of
    the source's switch, dispatched by [simulateAction]. *)

From S2P Require Import Prelude Types Snapshots.
Open Scope Z_scope.

Definition simulatePullImage (w : World) (a : Action) : result World :=
  need node := Nodes w !! Action_Node a else "node %q does not exist";
  Ok (put_node w (Action_Node a) (node <| Node_Images ::= <[Action_Image a := true]> |>)).

Definition simulateCreateAllocation (w : World) (a : Action) : result World :=
  need node := Nodes w !! Action_Node a else "node %q does not exist";
  let w := put_alloc w (Action_Target a)
    (new_Allocation (Action_Target a) (Action_Workload a) (Action_Replica a) (Action_Node a)
       (Action_Image a) (Action_Resources a) (Action_Budget a)) in
  Ok (put_node w (Action_Node a)
    (node <| Node_Used ::= λ u, Resources_Add u (Action_Resources a) |>
          <| Node_BudgetUsed ::= λ u, Budget_Add u (Action_Budget a) |>)).

Definition simulateCreateVolume (w : World) (a : Action) : result World :=
  need ref := Action_Volume a else "create volume requires a volume reference";
  match Volumes w !! VolumeRef_Name ref with
  | Some _ => Ok w
  | None => Ok (put_volume w (VolumeRef_Name ref) (new_Volume (VolumeRef_Name ref) (Action_Node a) 0))
  end.

(** [if volume.Owner != owner { volume.Owner = owner; volume.Generation++ }] *)
Definition take_ownership (v : Volume) (owner : string) : Volume :=
  if bool_decide (Vol_Owner v ≠ owner)
  then v <| Vol_Owner := owner |> <| Vol_Generation ::= λ g, u64 (g + 1) |>
  else v.

(** [volume.Owner = ""; volume.Generation++] *)
Definition release_ownership (v : Volume) : Volume :=
  v <| Vol_Owner := "" |> <| Vol_Generation ::= λ g, u64 (g + 1) |>.

Definition simulateAttachVolume (w : World) (a : Action) : result World :=
  need ref := Action_Volume a else "attach volume requires a volume reference";
  need volume := Volumes w !! VolumeRef_Name ref else "volume %q does not exist";
  need allocation := Allocations w !! Action_Target a else "allocation %q does not exist";
  let volume := take_ownership volume (Action_Target a) in
  let w := put_volume w (VolumeRef_Name ref) volume in
  Ok (put_alloc w (Action_Target a)
        (allocation <| Alloc_Volumes ::= <[VolumeRef_Name ref := Vol_Generation volume]> |>)).

Definition simulateCordonNode (w : World) (a : Action) : result World :=
  need node := Nodes w !! Action_Target a else "node %q does not exist";
  Ok (put_node w (Action_Target a)
        (node <| Node_Cordoned := true |> <| Node_CordonReason := Action_Reason a |>)).

Definition simulateUncordonNode (w : World) (a : Action) : result World :=
  need node := Nodes w !! Action_Target a else "node %q does not exist";
  Ok (put_node w (Action_Target a)
        (node <| Node_Cordoned := false |> <| Node_CordonReason := "" |>)).

(** Drop the volume from its owner's attachments, then release it. *)
Definition detach_volume (w : World) (name : string) (volume : Volume) : World :=
  let w := match Allocations w !! Vol_Owner volume with
           | Some allocation =>
               put_alloc w (Vol_Owner volume) (allocation <| Alloc_Volumes ::= delete name |>)
           | None => w
           end in
  put_volume w name (release_ownership volume).

Definition simulateDetachVolume (w : World) (a : Action) : result World :=
  need ref := Action_Volume a else "detach volume requires a volume reference";
  match Volumes w !! VolumeRef_Name ref with
  | Some volume => Ok (detach_volume w (VolumeRef_Name ref) volume)
  | None => Ok w
  end.

(** Apply [f] to the volume an action names, if it exists. *)
Definition on_volume (w : World) (name : string) (f : Volume → Volume) : World :=
  match Volumes w !! name with
  | Some volume => put_volume w name (f volume)
  | None => w
  end.

Definition simulateSnapshotVolume (w : World) (a : Action) : result World :=
  need ref := Action_Volume a else "snapshot volume requires a volume reference";
  Ok (on_volume w (VolumeRef_Name ref) (λ v,
        v <| Vol_Snapshots ::= <["simulated" := "simulated"]> |> <| Vol_LastSnapshot := "simulated" |>)).

Definition simulateQuiesceVolume (w : World) (a : Action) : result World :=
  need ref := Action_Volume a else "quiesce volume requires a volume reference";
  Ok (on_volume w (VolumeRef_Name ref) (λ v,
        v <| Vol_Handoff := Some (mkVolumeHandoff (Vol_Node v) (Action_Node a) HandoffQuiesced "" "") |>)).

Definition simulateTransferVolume (w : World) (a : Action) : result World :=
  need ref := Action_Volume a else "transfer volume requires a volume reference";
  Ok (on_volume w (VolumeRef_Name ref) (λ v,
        match Vol_Handoff v with
        | Some h => v <| Vol_Handoff := Some (h <| Handoff_Phase := HandoffTransferred |>) |>
        | None => v
        end)).

Definition simulateAdoptVolume (w : World) (a : Action) : result World :=
  need ref := Action_Volume a else "adopt volume requires a volume reference";
  Ok (on_volume w (VolumeRef_Name ref) (λ v,
        match Vol_Handoff v with
        | Some h => v <| Vol_Node := Handoff_To h |> <| Vol_Generation ::= λ g, u64 (g + 1) |>
                      <| Vol_Handoff := None |>
        | None => v
        end)).

(** Record a consistent copy the engine produced under its label. *)
Definition record_snapshot (v : Volume) (label checksum : string) : Volume :=
  let v := if bool_decide (is_Some (Vol_Snapshots v !! label)) then v
           else v <| Vol_SnapshotOrder ::= λ order, order ++ [label] |> in
  v <| Vol_Snapshots ::= <[label := checksum]> |> <| Vol_LastSnapshot := label |>.

Definition simulateDatabaseBackup (w : World) (a : Action) : result World :=
  need ref := Action_Volume a else "database backup requires a volume reference and label";
  refuse (bool_decide (Action_Snapshot a = "")) "database backup requires a volume reference and label";
  Ok (on_volume w (VolumeRef_Name ref) (λ v, record_snapshot v (Action_Snapshot a) "simulated")).

Definition simulateVerifyBackup (w : World) (a : Action) : result World :=
  need _r := Action_Volume a else "verify backup requires a volume reference and snapshot id";
  refuse (bool_decide (Action_Snapshot a = "")) "verify backup requires a volume reference and snapshot id";
  Ok w.

Definition simulatePruneSnapshots (w : World) (a : Action) : result World :=
  need ref := Action_Volume a else "prune snapshots requires a volume reference";
  if Action_DryRun a then Ok w
  else Ok (on_volume w (VolumeRef_Name ref) (λ v,
             forget_snapshots v (prunableSnapshots v (Action_Retain a)))).

Definition simulateBackupSnapshot (w : World) (a : Action) : result World :=
  need ref := Action_Volume a else "backup snapshot requires a volume reference and snapshot id";
  refuse (bool_decide (Action_Snapshot a = "")) "backup snapshot requires a volume reference and snapshot id";
  Ok (on_volume w (VolumeRef_Name ref) (λ v, v <| Vol_Backups ::= <[Action_Snapshot a := "simulated"]> |>)).

Definition simulateRestoreSnapshot (w : World) (a : Action) : result World :=
  need ref := Action_Volume a else "restore snapshot requires a volume reference and snapshot id";
  refuse (bool_decide (Action_Snapshot a = "")) "restore snapshot requires a volume reference and snapshot id";
  Ok (on_volume w (VolumeRef_Name ref) (λ v, v <| Vol_RestoredFrom := Action_Snapshot a |>)).

Definition simulateMountSecret (w : World) (a : Action) : result World :=
  need allocation := Allocations w !! Action_Target a else "allocation %q does not exist";
  need secret := Action_Secret a else "mount secret requires a secret reference";
  Ok (put_alloc w (Action_Target a)
        (allocation <| Alloc_Secrets ::= <[Secret_Name secret := Secret_Version secret]> |>)).

Definition simulateAttachNetwork (w : World) (a : Action) : result World :=
  need allocation := Allocations w !! Action_Target a else "allocation %q does not exist";
  Ok (put_alloc w (Action_Target a) (allocation <| Alloc_Address := "simulated" |>)).

Definition simulateStartAllocation (w : World) (a : Action) : result World :=
  need allocation := Allocations w !! Action_Target a else "allocation %q does not exist";
  Ok (put_alloc w (Action_Target a)
        (allocation <| Alloc_Phase := AllocationRunning |> <| Alloc_Ready := true |>)).

Definition simulateStopAllocation (w : World) (a : Action) : result World :=
  need allocation := Allocations w !! Action_Target a else "allocation %q does not exist";
  Ok (put_alloc w (Action_Target a)
        (allocation <| Alloc_Phase := AllocationStopped |> <| Alloc_Ready := false |>)).

Definition simulateDeleteAllocation (w : World) (a : Action) : result World :=
  need allocation := Allocations w !! Action_Target a else "allocation %q does not exist";
  let w := match Nodes w !! Alloc_Node allocation with
           | Some node =>
               put_node w (Alloc_Node allocation)
                 (node <| Node_Used ::= λ u, Resources_Subtract u (Alloc_Resources allocation) |>
                       <| Node_BudgetUsed ::= λ u, Budget_Subtract u (Alloc_Budget allocation) |>)
           | None => w
           end in
  Ok (w <| Allocations ::= delete (Action_Target a) |>).

Definition simulateGrantTools (w : World) (a : Action) : result World :=
  need allocation := Allocations w !! Action_Target a else "allocation %q does not exist";
  Ok (put_alloc w (Action_Target a) (allocation <| Alloc_Tools := Action_Tools a |>)).

Definition simulateDrainAllocation (w : World) (a : Action) : result World :=
  need allocation := Allocations w !! Action_Target a else "allocation %q does not exist";
  Ok (put_alloc w (Action_Target a)
        (allocation <| Alloc_Draining := true |> <| Alloc_Task := "" |>)).

Definition simulatePublishRoute (w : World) (a : Action) : result World :=
  Ok (w <| Routes ::= <[Action_Target a :=
        mkRoute (Action_Target a) (Action_Workload a) (Action_Port a) (Action_Exposure a)]> |>).

Definition simulateAction (w : World) (a : Action) : result World :=
  match Action_Kind a with
  | ActionPullImage => simulatePullImage w a
  | ActionCreateAllocation => simulateCreateAllocation w a
  | ActionCreateVolume => simulateCreateVolume w a
  | ActionAttachVolume => simulateAttachVolume w a
  | ActionCordonNode => simulateCordonNode w a
  | ActionUncordonNode => simulateUncordonNode w a
  | ActionDetachVolume => simulateDetachVolume w a
  | ActionSnapshotVolume => simulateSnapshotVolume w a
  | ActionQuiesceVolume => simulateQuiesceVolume w a
  | ActionTransferVolume => simulateTransferVolume w a
  | ActionAdoptVolume => simulateAdoptVolume w a
  | ActionDatabaseBackup => simulateDatabaseBackup w a
  | ActionVerifyBackup => simulateVerifyBackup w a
  | ActionApplyPolicy => Ok w
  | ActionPublishZone => Ok w
  | ActionCollectImages => Ok w
  | ActionPruneSnapshots => simulatePruneSnapshots w a
  | ActionBackupSnapshot => simulateBackupSnapshot w a
  | ActionRestoreSnapshot => simulateRestoreSnapshot w a
  | ActionMountSecret => simulateMountSecret w a
  | ActionAttachNetwork => simulateAttachNetwork w a
  | ActionStartAllocation => simulateStartAllocation w a
  | ActionStopAllocation => simulateStopAllocation w a
  | ActionDeleteAllocation => simulateDeleteAllocation w a
  | ActionGrantTools => simulateGrantTools w a
  | ActionDrainAllocation => simulateDrainAllocation w a
  | ActionPublishRoute => simulatePublishRoute w a
  | ActionProbeReadiness | ActionOther _ => Err (Errorf "unsupported action %q")
  end.

(** The cases of the switch, unfolded by [autounfold with simulate]. *)
Create HintDb simulate.
#[export] Hint Unfold simulatePullImage simulateCreateAllocation simulateCreateVolume simulateAttachVolume
  simulateCordonNode simulateUncordonNode simulateDetachVolume simulateSnapshotVolume
  simulateQuiesceVolume simulateTransferVolume simulateAdoptVolume simulateDatabaseBackup
  simulateVerifyBackup simulatePruneSnapshots simulateBackupSnapshot simulateRestoreSnapshot
  simulateMountSecret simulateAttachNetwork simulateStartAllocation simulateStopAllocation
  simulateDeleteAllocation simulateGrantTools simulateDrainAllocation simulatePublishRoute : simulate.

(** ** What simulation leaves alone *)

(** Everything outside nodes, allocations, volumes and routes. *)
Lemma simulate_frame w a w' :
  simulateAction w a = Ok w' →
  Revision w' = Revision w ∧ ObservedAt w' = ObservedAt w ∧ Queues w' = Queues w ∧
  Approvals w' = Approvals w ∧ KnownGood w' = KnownGood w ∧
  Disruptions w' = Disruptions w ∧ BackoffState w' = BackoffState w.
Proof.
  intros H. unfold simulateAction in H.
  destruct (Action_Kind a);
    autounfold with simulate in H; inv_ok H; subst; simpl_set; try done.
  all: unfold on_volume, detach_volume, put_alloc, put_node, put_volume; repeat case_match; done.
Qed.

(** The fields of an allocation that decide placement, capacity and availability. *)
Record same_core (a b : Allocation) : Prop := {
  sc_id : Alloc_ID b = Alloc_ID a; sc_workload : Alloc_Workload b = Alloc_Workload a;
  sc_replica : Alloc_Replica b = Alloc_Replica a; sc_node : Alloc_Node b = Alloc_Node a;
  sc_image : Alloc_Image b = Alloc_Image a; sc_resources : Alloc_Resources b = Alloc_Resources a;
  sc_phase : Alloc_Phase b = Alloc_Phase a; sc_ready : Alloc_Ready b = Alloc_Ready a;
  sc_stateful : Alloc_Stateful b = Alloc_Stateful a;
  sc_expires : Alloc_ReadyExpiresAt b = Alloc_ReadyExpiresAt a;
  sc_budget : Alloc_Budget b = Alloc_Budget a; sc_spent : Alloc_Spent b = Alloc_Spent a }.

(** Only running allocations are ready. *)
Definition ready_running (w : World) : Prop :=
  ∀ id x, Allocations w !! id = Some x → Alloc_Ready x = true → Alloc_Phase x = AllocationRunning.

(** The fields of a node no action changes, with what it has committed. *)
Record same_place (n m : Node) : Prop := {
  sp_id : Node_ID m = Node_ID n; sp_domain : Node_Domain m = Node_Domain n;
  sp_capacity : Node_Capacity m = Node_Capacity n; sp_labels : Node_Labels m = Node_Labels n;
  sp_healthy : Node_Healthy m = Node_Healthy n;
  sp_budget_capacity : Node_BudgetCapacity m = Node_BudgetCapacity n;
  sp_used : Node_Used m = Node_Used n; sp_budget_used : Node_BudgetUsed m = Node_BudgetUsed n }.

Lemma same_core_refl a : same_core a a. Proof. by split. Qed.
Lemma same_place_refl n : same_place n n. Proof. by split. Qed.
#[export] Hint Resolve same_core_refl same_place_refl : core.

(** The four kinds that start, end or move an allocation through its life. *)
Definition lifecycle_kind (k : ActionKind) : bool :=
  match k with
  | ActionCreateAllocation | ActionStartAllocation | ActionStopAllocation
  | ActionDeleteAllocation => true
  | _ => false
  end.

Ltac frame_entry :=
  first [ by apply option_Forall2_refl; auto
        | by eapply insert_related; [auto | eassumption | by split] ].

(** Outside the lifecycle kinds an action changes no allocation's core. *)
Lemma simulate_allocations_frame w a w' :
  lifecycle_kind (Action_Kind a) = false → simulateAction w a = Ok w' →
  ∀ id, option_Forall2 same_core (Allocations w !! id) (Allocations w' !! id).
Proof.
  intros Hl H id. unfold simulateAction in H.
  destruct (Action_Kind a); try discriminate Hl;
    autounfold with simulate in H; inv_ok H; subst;
    unfold on_volume, detach_volume, put_alloc, put_node, put_volume; simpl_set; try frame_entry.
  all: repeat case_match; simpl_set; frame_entry.
Qed.

(** Outside creation and deletion an action changes no node's place or load. *)
Lemma simulate_nodes_frame w a w' :
  Action_Kind a ≠ ActionCreateAllocation → Action_Kind a ≠ ActionDeleteAllocation →
  simulateAction w a = Ok w' →
  ∀ id, option_Forall2 same_place (Nodes w !! id) (Nodes w' !! id).
Proof.
  intros H1 H2 H id. unfold simulateAction in H.
  destruct (Action_Kind a); try done;
    autounfold with simulate in H; inv_ok H; subst;
    unfold on_volume, detach_volume, put_alloc, put_node, put_volume; simpl_set; try frame_entry.
  all: repeat case_match; simpl_set; frame_entry.
Qed.

(** The lifecycle steps, spelled out. *)
Lemma simulate_create_inv w a w' :
  Action_Kind a = ActionCreateAllocation → simulateAction w a = Ok w' →
  ∃ n, Nodes w !! Action_Node a = Some n ∧
    Nodes w' = <[Action_Node a :=
      n <| Node_Used ::= λ u, Resources_Add u (Action_Resources a) |>
        <| Node_BudgetUsed ::= λ u, Budget_Add u (Action_Budget a) |>]> (Nodes w) ∧
    Allocations w' = <[Action_Target a :=
      new_Allocation (Action_Target a) (Action_Workload a) (Action_Replica a) (Action_Node a)
        (Action_Image a) (Action_Resources a) (Action_Budget a)]> (Allocations w).
Proof.
  intros Hk H. unfold simulateAction in H. rewrite Hk in H. autounfold with simulate in H.
  inv_ok H. subst. eexists. by repeat split.
Qed.

Lemma simulate_start_inv w a w' :
  Action_Kind a = ActionStartAllocation → simulateAction w a = Ok w' →
  ∃ x, Allocations w !! Action_Target a = Some x ∧ Nodes w' = Nodes w ∧
    Allocations w' = <[Action_Target a :=
      x <| Alloc_Phase := AllocationRunning |> <| Alloc_Ready := true |>]> (Allocations w).
Proof.
  intros Hk H. unfold simulateAction in H. rewrite Hk in H. autounfold with simulate in H.
  inv_ok H. subst. eexists. by repeat split.
Qed.

Lemma simulate_stop_inv w a w' :
  Action_Kind a = ActionStopAllocation → simulateAction w a = Ok w' →
  ∃ x, Allocations w !! Action_Target a = Some x ∧ Nodes w' = Nodes w ∧
    Allocations w' = <[Action_Target a :=
      x <| Alloc_Phase := AllocationStopped |> <| Alloc_Ready := false |>]> (Allocations w).
Proof.
  intros Hk H. unfold simulateAction in H. rewrite Hk in H. autounfold with simulate in H.
  inv_ok H. subst. eexists. by repeat split.
Qed.

Lemma simulate_delete_inv w a w' :
  Action_Kind a = ActionDeleteAllocation → simulateAction w a = Ok w' →
  ∃ x, Allocations w !! Action_Target a = Some x ∧
    Allocations w' = delete (Action_Target a) (Allocations w) ∧
    Nodes w' = match Nodes w !! Alloc_Node x with
               | Some n => <[Alloc_Node x :=
                   n <| Node_Used ::= λ u, Resources_Subtract u (Alloc_Resources x) |>
                     <| Node_BudgetUsed ::= λ u, Budget_Subtract u (Alloc_Budget x) |>]> (Nodes w)
               | None => Nodes w
               end.
Proof.
  intros Hk H. unfold simulateAction in H. rewrite Hk in H. autounfold with simulate in H.
  inv_ok H. subst. eexists. repeat split; [|]; by case_match.
Qed.
