(* ===== verification/Clone.v ===== *)
(** * Deep copies of the world (src/control/policy.go: cloneWorld)

    Every simulation and every projection starts from a clone, so that neither
    writes through the pointers of the world it was given. *)

From S2P Require Import Prelude Types.
Open Scope Z_scope.

(** ** cloneWorld *)

(** [for k, v := range m { clone[k] = f(v) }] *)
Definition copy_map {A} (f : A → A) (m : gmap string A) : gmap string A :=
  foldr (λ '(k, v) clone, <[k := f v]> clone) ∅ (map_to_list m).
Arguments copy_map : simpl never.

Definition clone_node (n : Node) : Node :=
  n <| Node_Labels ::= copy_map id |> <| Node_Images ::= copy_map id |>
    <| Node_Providers ::= copy_map id |>.

Definition clone_allocation (a : Allocation) : Allocation :=
  a <| Alloc_Volumes ::= copy_map id |> <| Alloc_Secrets ::= copy_map id |>
    <| Alloc_Tools ::= λ l, [] ++ l |>.

Definition clone_volume (v : Volume) : Volume :=
  v <| Vol_Snapshots ::= copy_map id |> <| Vol_SnapshotOrder ::= λ l, [] ++ l |>
    <| Vol_Handoff ::= λ h, match h with Some h => Some h | None => None end |>
    <| Vol_Backups ::= copy_map id |>.

Definition cloneWorld (w : World) : World :=
  mkWorld (Revision w) (ObservedAt w)
    (copy_map clone_node (Nodes w)) (copy_map clone_allocation (Allocations w))
    (copy_map id (Routes w)) (copy_map clone_volume (Volumes w)) (copy_map id (Queues w))
    (copy_map id (Approvals w)) (copy_map id (KnownGood w))
    ([] ++ Disruptions w) (copy_map id (BackoffState w)).

(** ** Cloning loses nothing *)

Lemma copy_map_fmap {A} (f : A → A) (m : gmap string A) : copy_map f m = f <$> m.
Proof.
  unfold copy_map. rewrite <-(list_to_map_to_list m) at 2.
  pose proof (NoDup_fst_map_to_list m) as Hnd. revert Hnd.
  generalize (map_to_list m). intros l. induction l as [|[k v] l IH]; intros Hnd.
  - simpl. by rewrite fmap_empty.
  - simpl in *. apply NoDup_cons in Hnd as [_ Hnd]. rewrite IH by done. by rewrite fmap_insert.
Qed.

Lemma copy_map_id {A} (f : A → A) (m : gmap string A) :
  (∀ x, f x = x) → copy_map f m = m.
Proof.
  intros H. rewrite copy_map_fmap. apply map_eq. intros i. rewrite lookup_fmap.
  destruct (m !! i); simpl; [by rewrite H | done].
Qed.

Lemma copy_map_same {A} (m : gmap string A) : copy_map id m = m.
Proof. by apply copy_map_id. Qed.

(** The deep copy every simulation and projection starts from reproduces the world
    exactly: no field, map entry or nested map is lost or altered. *)
Lemma cloneWorld_id (w : World) : cloneWorld w = w.
Proof.
  destruct w. unfold cloneWorld. simpl. rewrite !copy_map_same.
  rewrite !copy_map_id; [done | | |].
  - intros []. unfold clone_volume, set. cbn. rewrite !copy_map_same. by destruct Vol_Handoff.
  - intros []. unfold clone_allocation, set. cbn. by rewrite !copy_map_same.
  - intros []. unfold clone_node, set. cbn. by rewrite !copy_map_same.
Qed.
