(* ===== verification/Capacity.v ===== *)
(** * Node capacity accounting

    The invariant that ties the capacity a node reports as used to the allocations
    placed on it, with one lemma per way an allocation map and a node map change
    together.  The plan simulation (Simulate.v) and the projection (Projection.v)
    both create, delete and rewrite allocations, and both rest on these lemmas. *)

From S2P Require Import Prelude Types.
Open Scope Z_scope.

(** One component of what the allocations on a node hold. *)
Definition on_node (f : Resources → Z) (id : string) (a : Allocation) : Z :=
  if bool_decide (Alloc_Node a = id) then f (Alloc_Resources a) else 0.
Definition load (f : Resources → Z) (al : gmap string Allocation) (id : string) : Z :=
  map_sum (on_node f id) al.

(** Every node is filed under its own id and its used capacity is exactly the sum of
    the resources of the allocations placed on it, a sum that fits an [int]. *)
Record accounted (ns : gmap string Node) (al : gmap string Allocation) : Prop := {
  ac_ids : ∀ id n, ns !! id = Some n → Node_ID n = id;
  ac_nonneg : ∀ id a, al !! id = Some a → Resources_nonneg (Alloc_Resources a);
  ac_cpu : ∀ id n, ns !! id = Some n → CPUMillis (Node_Used n) = load CPUMillis al id;
  ac_memory : ∀ id n, ns !! id = Some n → MemoryMB (Node_Used n) = load MemoryMB al id;
  ac_range : ∀ id n, ns !! id = Some n → load CPUMillis al id <= int_max ∧ load MemoryMB al id <= int_max }.

(** No node has more in use than it has. *)
Definition within_capacity (ns : gmap string Node) : Prop :=
  ∀ id n, ns !! id = Some n → Resources_Fits (Node_Used n) (Node_Capacity n) = true.

Section Accounting.
Implicit Types (ns : gmap string Node) (al : gmap string Allocation).

Lemma load_nonneg f ns al id :
  accounted ns al → (∀ r, Resources_nonneg r → 0 <= f r) → 0 <= load f al id.
Proof.
  intros H Hf. apply map_sum_nonneg. intros k a Ha. unfold on_node. case_bool_decide; [|done].
  apply Hf, (ac_nonneg _ _ H _ _ Ha).
Qed.

Lemma load_ge f ns al k a :
  accounted ns al → (∀ r, Resources_nonneg r → 0 <= f r) → al !! k = Some a →
  f (Alloc_Resources a) <= load f al (Alloc_Node a).
Proof.
  intros H Hf Ha.
  replace (f (Alloc_Resources a)) with (on_node f (Alloc_Node a) a)
    by (unfold on_node; by rewrite bool_decide_true).
  apply (map_sum_ge _ _ k a Ha). intros j b Hb. unfold on_node. case_bool_decide; [|done].
  apply Hf, (ac_nonneg _ _ H _ _ Hb).
Qed.

Lemma cpu_nonneg r : Resources_nonneg r → 0 <= CPUMillis r. Proof. by intros [? _]. Qed.
Lemma memory_nonneg r : Resources_nonneg r → 0 <= MemoryMB r. Proof. by intros [_ ?]. Qed.

(** Rewriting allocations and nodes without moving load. *)
Definition same_load (a b : Allocation) : Prop :=
  Alloc_Node b = Alloc_Node a ∧ Alloc_Resources b = Alloc_Resources a.
Definition same_use (n m : Node) : Prop :=
  Node_ID m = Node_ID n ∧ Node_Used m = Node_Used n ∧ Node_Capacity m = Node_Capacity n.

Lemma load_frame f al al' id :
  (∀ k, option_Forall2 same_load (al !! k) (al' !! k)) → load f al id = load f al' id.
Proof.
  intros H. apply map_sum_rel. intros k. destruct (H k) as [a b [Hn Hr]|]; constructor.
  unfold on_node. by rewrite Hn, Hr.
Qed.

Lemma accounted_frame ns al ns' al' :
  (∀ k, option_Forall2 same_use (ns !! k) (ns' !! k)) →
  (∀ k, option_Forall2 same_load (al !! k) (al' !! k)) →
  accounted ns al → accounted ns' al'.
Proof.
  intros Hn Ha H.
  assert (∀ k m, ns' !! k = Some m → ∃ n, ns !! k = Some n ∧ same_use n m) as Hback.
  { intros k m Hm. specialize (Hn k). rewrite Hm in Hn. inversion Hn; subst. eauto. }
  split.
  - intros k m (n & Hk & -> & _)%Hback. by eapply ac_ids.
  - intros k b Hb. specialize (Ha k). rewrite Hb in Ha. inversion Ha as [a ? [_ Hr] Hk|]; subst.
    rewrite Hr. by eapply (ac_nonneg _ _ H k).
  - intros k m (n & Hk & _ & -> & _)%Hback. rewrite <-(load_frame _ al) by done. by eapply ac_cpu.
  - intros k m (n & Hk & _ & -> & _)%Hback. rewrite <-(load_frame _ al) by done. by eapply ac_memory.
  - intros k m (n & Hk & _)%Hback. rewrite <-!(load_frame _ al al') by done. by eapply ac_range.
Qed.

Lemma within_frame ns ns' :
  (∀ k, option_Forall2 same_use (ns !! k) (ns' !! k)) → within_capacity ns → within_capacity ns'.
Proof.
  intros Hn H k m Hm. specialize (Hn k). rewrite Hm in Hn.
  inversion Hn as [n ? (_ & Hu & Hc) Hk|]; subst. rewrite Hu, Hc. by eapply H.
Qed.

(** Placing a new allocation. *)
Lemma load_create f al k a id :
  al !! k = None → load f (<[k := a]> al) id = load f al id + on_node f id a.
Proof. intros H. unfold load. rewrite map_sum_insert by done. lia. Qed.

Definition room_for (al : gmap string Allocation) (r : Resources) (id : string) : Prop :=
  load CPUMillis al id + CPUMillis r <= int_max ∧ load MemoryMB al id + MemoryMB r <= int_max.

Lemma accounted_create ns al k a n m :
  accounted ns al → al !! k = None → ns !! Alloc_Node a = Some n →
  Resources_nonneg (Alloc_Resources a) → room_for al (Alloc_Resources a) (Alloc_Node a) →
  Node_ID m = Node_ID n → Node_Used m = Resources_Add (Node_Used n) (Alloc_Resources a) →
  accounted (<[Alloc_Node a := m]> ns) (<[k := a]> al) ∧
  CPUMillis (Node_Used m) = CPUMillis (Node_Used n) + CPUMillis (Alloc_Resources a) ∧
  MemoryMB (Node_Used m) = MemoryMB (Node_Used n) + MemoryMB (Alloc_Resources a).
Proof.
  intros H Hk Hn [Hc Hm] [Hrc Hrm] Hid Hused.
  pose proof (load_nonneg CPUMillis ns al (Alloc_Node a) H cpu_nonneg).
  pose proof (load_nonneg MemoryMB ns al (Alloc_Node a) H memory_nonneg).
  rewrite Resources_Add_exact in Hused.
  2:{ rewrite <-(ac_cpu _ _ H _ _ Hn), <-(ac_memory _ _ H _ _ Hn) in *.
      split; unfold in_int, int_min; lia. }
  split; [|rewrite Hused; done]. split.
  - intros j x [[<- <-]|[Hne Hx]]%lookup_insert_Some; [rewrite Hid|]; by eapply ac_ids.
  - intros j b [[<- <-]|[Hne Hb]]%lookup_insert_Some; [done|]. by eapply (ac_nonneg _ _ H j).
  - intros j x Hx. rewrite load_create by done. unfold on_node.
    apply lookup_insert_Some in Hx as [[<- <-]|[Hne Hx]].
    + rewrite bool_decide_true, Hused by done. simpl. by rewrite (ac_cpu _ _ H _ _ Hn).
    + rewrite bool_decide_false by done. rewrite (ac_cpu _ _ H _ _ Hx). lia.
  - intros j x Hx. rewrite load_create by done. unfold on_node.
    apply lookup_insert_Some in Hx as [[<- <-]|[Hne Hx]].
    + rewrite bool_decide_true, Hused by done. simpl. by rewrite (ac_memory _ _ H _ _ Hn).
    + rewrite bool_decide_false by done. rewrite (ac_memory _ _ H _ _ Hx). lia.
  - intros j x Hx. rewrite !load_create by done. unfold on_node.
    apply lookup_insert_Some in Hx as [[<- <-]|[Hne Hx]].
    + rewrite !bool_decide_true by done. lia.
    + rewrite !bool_decide_false by done. destruct (ac_range _ _ H _ _ Hx). lia.
Qed.

(** Deleting an allocation and giving its node the capacity back. *)
Lemma load_delete f al k a id :
  al !! k = Some a → load f (delete k al) id = load f al id - on_node f id a.
Proof. intros H. unfold load. by rewrite (map_sum_delete _ _ k a). Qed.

Lemma subtract_exact ns al k a n :
  accounted ns al → al !! k = Some a → ns !! Alloc_Node a = Some n →
  Resources_Subtract (Node_Used n) (Alloc_Resources a) =
  mkResources (CPUMillis (Node_Used n) - CPUMillis (Alloc_Resources a))
              (MemoryMB (Node_Used n) - MemoryMB (Alloc_Resources a)).
Proof.
  intros H Ha Hn. unfold Resources_Subtract.
  rewrite (ac_cpu _ _ H _ _ Hn), (ac_memory _ _ H _ _ Hn).
  pose proof (load_ge CPUMillis ns al k a H cpu_nonneg Ha).
  pose proof (load_ge MemoryMB ns al k a H memory_nonneg Ha).
  destruct (ac_range _ _ H _ _ Hn), (ac_nonneg _ _ H _ _ Ha).
  rewrite !clamp_sub_exact; [done|..]; unfold in_int, int_min; lia.
Qed.

(** The node map after a delete: the allocation's node, if known, gives it back. *)
Definition released ns (a : Allocation) (f : Node → Node) : gmap string Node :=
  match ns !! Alloc_Node a with
  | Some n => <[Alloc_Node a := f n]> ns
  | None => ns
  end.

Lemma released_lookup ns a f k m :
  released ns a f !! k = Some m →
  ∃ n, ns !! k = Some n ∧ ((k = Alloc_Node a ∧ m = f n) ∨ (k ≠ Alloc_Node a ∧ m = n)).
Proof.
  unfold released. destruct (ns !! Alloc_Node a) as [n|] eqn:E.
  - intros [[<- <-]|[Hne Hk]]%lookup_insert_Some; eauto.
  - intros Hk. exists m. split; [done|]. right. split; [|done]. congruence.
Qed.

Lemma accounted_delete ns al k a f :
  accounted ns al → al !! k = Some a →
  (∀ n, Node_ID (f n) = Node_ID n ∧
        Node_Used (f n) = Resources_Subtract (Node_Used n) (Alloc_Resources a)) →
  accounted (released ns a f) (delete k al).
Proof.
  intros H Ha Hf. destruct (ac_nonneg _ _ H _ _ Ha).
  assert (∀ g j, Resources_nonneg (Alloc_Resources a) → (∀ r, Resources_nonneg r → 0 <= g r) →
            load g (delete k al) j <= load g al j) as Hle.
  { intros g j Hr Hg. rewrite (load_delete g al k a) by done. unfold on_node.
    case_bool_decide; [specialize (Hg _ Hr)|]; lia. }
  split.
  - intros j m (n & Hn & [[-> ->]|[Hne ->]])%released_lookup;
      [destruct (Hf n) as [-> _]|]; by eapply ac_ids.
  - intros j b [_ Hb]%lookup_delete_Some. by eapply (ac_nonneg _ _ H j).
  - intros j m (n & Hn & Hcase)%released_lookup. rewrite (load_delete _ al k a) by done.
    unfold on_node. destruct Hcase as [[-> ->]|[Hne ->]].
    + destruct (Hf n) as [_ ->]. rewrite (subtract_exact ns al k) by done.
      rewrite bool_decide_true by done. simpl. by rewrite (ac_cpu _ _ H _ _ Hn).
    + rewrite bool_decide_false by congruence. rewrite (ac_cpu _ _ H _ _ Hn). lia.
  - intros j m (n & Hn & Hcase)%released_lookup. rewrite (load_delete _ al k a) by done.
    unfold on_node. destruct Hcase as [[-> ->]|[Hne ->]].
    + destruct (Hf n) as [_ ->]. rewrite (subtract_exact ns al k) by done.
      rewrite bool_decide_true by done. simpl. by rewrite (ac_memory _ _ H _ _ Hn).
    + rewrite bool_decide_false by congruence. rewrite (ac_memory _ _ H _ _ Hn). lia.
  - intros j m (n & Hn & _)%released_lookup. destruct (ac_range _ _ H _ _ Hn).
    pose proof (Hle CPUMillis j ltac:(done) cpu_nonneg).
    pose proof (Hle MemoryMB j ltac:(done) memory_nonneg). lia.
Qed.

Lemma within_delete ns al k a f :
  accounted ns al → within_capacity ns → al !! k = Some a →
  (∀ n, Node_Used (f n) = Resources_Subtract (Node_Used n) (Alloc_Resources a) ∧
        Node_Capacity (f n) = Node_Capacity n) →
  within_capacity (released ns a f).
Proof.
  intros H Hw Ha Hf j m (n & Hn & [[-> ->]|[_ ->]])%released_lookup; [|by eapply Hw].
  destruct (Hf n) as [-> ->]. rewrite (subtract_exact ns al k) by done.
  specialize (Hw _ _ Hn). destruct (ac_nonneg _ _ H _ _ Ha).
  rewrite Resources_Fits_spec in *. simpl. lia.
Qed.

End Accounting.
