(* ===== verification/Fencing.v ===== *)
(** * Volume fencing

    A volume has at most one writer: attaching takes ownership and advances the
    volume's generation, and an allocation that holds an older generation is fenced.
    The invariant below is stated on the allocation and volume maps alone, with one
    lemma per way they change, and is shared by the plan simulation and by the
    projection. *)

From S2P Require Import Prelude Types Simulate.
Open Scope Z_scope.

Implicit Types (al : gmap string Allocation) (vs : gmap string Volume).

(** Every attachment an allocation records is of an existing volume, of a generation
    that volume has reached, and, if it is the current one, by the volume's owner. *)
Definition fenced al vs : Prop :=
  ∀ id a vol gen, al !! id = Some a → Alloc_Volumes a !! vol = Some gen →
    ∃ v, vs !! vol = Some v ∧ gen <= Vol_Generation v ∧ (gen = Vol_Generation v → Vol_Owner v = id).

(** No generation has passed [n]. *)
Definition generations_upto (n : Z) vs : Prop :=
  ∀ vol v, vs !! vol = Some v → 0 <= Vol_Generation v <= n.

(** What an allocation holding the current generation of a volume means. *)
Definition writer al vs (vol id : string) : Prop :=
  ∃ a v, al !! id = Some a ∧ vs !! vol = Some v ∧ Alloc_Volumes a !! vol = Some (Vol_Generation v).

Lemma fenced_single_writer al vs vol id id' :
  fenced al vs → writer al vs vol id → writer al vs vol id' → id = id'.
Proof.
  intros Hf (a & v & Ha & Hv & Hg) (a' & v' & Ha' & Hv' & Hg').
  destruct (Hf _ _ _ _ Ha Hg) as (u & Hu & _ & Ho). destruct (Hf _ _ _ _ Ha' Hg') as (u' & Hu' & _ & Ho').
  rewrite Hv in Hv', Hu, Hu'. injection Hv' as <-. injection Hu as <-. injection Hu' as <-.
  rewrite <-(Ho eq_refl). auto.
Qed.

(** [later v v']: the same ownership period, or a later generation. *)
Definition later (v v' : Volume) : Prop :=
  Vol_Generation v < Vol_Generation v' ∨
  (Vol_Generation v' = Vol_Generation v ∧ Vol_Owner v' = Vol_Owner v).

Lemma later_refl v : later v v. Proof. by right. Qed.

(** Attachments that only shrink, volumes that only move on. *)
Lemma fenced_shrink al vs al' vs' :
  (∀ id b, al' !! id = Some b → Alloc_Volumes b = ∅ ∨
     ∃ a, al !! id = Some a ∧ Alloc_Volumes b ⊆ Alloc_Volumes a) →
  (∀ vol v, vs !! vol = Some v → ∃ v', vs' !! vol = Some v' ∧ later v v') →
  fenced al vs → fenced al' vs'.
Proof.
  intros Ha Hv Hf id b vol gen Hb Hg. destruct (Ha _ _ Hb) as [He|(a & Hid & Hsub)].
  { rewrite He, lookup_empty in Hg. done. }
  destruct (Hf id a vol gen Hid) as (v & Hvol & Hle & Ho); [by eapply lookup_weaken|].
  destruct (Hv _ _ Hvol) as (v' & Hvol' & Hlater). exists v'. split; [done|].
  destruct Hlater as [Hlt|[Heq Hown]]; [split; [lia|intros; lia]|].
  rewrite Heq, Hown. done.
Qed.

Lemma u64_succ n g : 0 <= g <= n → n + 1 < two64 → u64 (g + 1) = g + 1.
Proof. intros. apply u64_id. lia. Qed.

(** Taking ownership of a volume that is free or already one's own. *)
Lemma take_ownership_later n v owner :
  0 <= Vol_Generation v <= n → n + 1 < two64 →
  Vol_Owner (take_ownership v owner) = owner ∧
  ((Vol_Owner v = owner ∧ take_ownership v owner = v) ∨
   (Vol_Owner v ≠ owner ∧ Vol_Generation (take_ownership v owner) = Vol_Generation v + 1)).
Proof.
  intros Hg Hn. unfold take_ownership. case_bool_decide as Ho.
  - split; [done|]. right. split; [done|]. simpl_set. by apply (u64_succ n).
  - split; [done|]. by left.
Qed.

Lemma fenced_attach n al vs id a vol v :
  fenced al vs → generations_upto n vs → n + 1 < two64 →
  al !! id = Some a → vs !! vol = Some v → Vol_Owner v = "" ∨ Vol_Owner v = id →
  let v' := take_ownership v id in
  fenced (<[id := a <| Alloc_Volumes ::= <[vol := Vol_Generation v']> |>]> al) (<[vol := v']> vs).
Proof.
  intros Hf Hn Hb Ha Hv Hown v'. pose proof (Hn _ _ Hv) as Hg.
  destruct (take_ownership_later n v id Hg Hb) as [Ho Hcase]. fold v' in Ho, Hcase.
  intros j b u gen Hj Hu. apply lookup_insert_Some in Hj as [[<- <-]|[Hne Hj]].
  - simpl_set. apply lookup_insert_Some in Hu as [[<- <-]|[Hne Hu]].
    + exists v'. rewrite lookup_insert_eq. done.
    + destruct (Hf _ _ _ _ Ha Hu) as (x & Hx & Hle & Hx'). exists x. by rewrite lookup_insert_ne.
  - destruct (Hf _ _ _ _ Hj Hu) as (x & Hx & Hle & Hx').
    destruct (decide (u = vol)) as [->|Hd]; [|exists x; by rewrite lookup_insert_ne].
    rewrite Hv in Hx. injection Hx as <-. exists v'. rewrite lookup_insert_eq. split; [done|].
    destruct Hcase as [[He ->]|[He Hgen]]; [|split; [lia|intros; lia]].
    split; [done|]. intros Hc. rewrite <-(Hx' Hc) in Hne. done.
Qed.

(** Generations advance by at most one per step. *)
Lemma generations_step n vs vs' :
  (∀ vol v', vs' !! vol = Some v' → 0 <= Vol_Generation v' <= n + 1 ∨
     ∃ v, vs !! vol = Some v ∧ (Vol_Generation v' = Vol_Generation v ∨
                                Vol_Generation v' = u64 (Vol_Generation v + 1))) →
  0 <= n → n + 1 < two64 → generations_upto n vs → generations_upto (n + 1) vs'.
Proof.
  intros H H0 Hn Hg vol v' Hv'. destruct (H _ _ Hv') as [?|(v & Hv & [->| ->])]; [done| |];
    pose proof (Hg _ _ Hv); [lia|]. rewrite (u64_succ n) by done. lia.
Qed.
