(* ===== verification/Disruption.v ===== *)
(** * The disruption governor (src/control/disruption.go)

    The ledger of disruptive change, the per-target failure backoff, and the two
    kernel checks measured against them: the disruption budget with its
    one-failure-domain-at-a-time rule, and the backoff on re-creation. *)

From S2P Require Import Prelude Types Spread Policy.
Open Scope Z_scope.

Definition DefaultDisruptionWindow : duration := 10 * Minute.
Definition DefaultMaxDisruptions : Z := 12.
Definition DefaultDisruptionCooldown : duration := 30 * Second.
Definition DisruptionRetention : duration := Hour.
Definition BaseBackoff : duration := 15 * Second.
Definition MaxBackoff : duration := 10 * Minute.

(** ** Backoff *)

(** [(b *Backoff).Active]; a nil backoff is not active. *)
Definition Backoff_Active (b : option Backoff) (now : time) : bool :=
  match b with
  | None => false
  | Some b => negb (IsZero (Backoff_Until b)) && Before now (Backoff_Until b)
  end.

(** The doubling loop, run [n] times unless it reaches the cap first. *)
Fixpoint backoff_loop (n : nat) (delay : duration) : duration :=
  match n with
  | O => delay
  | S n => let delay := i64 (delay * 2) in
           if MaxBackoff <=? delay then MaxBackoff else backoff_loop n delay
  end.

Definition backoffFor (failures : Z) : duration :=
  if failures <=? 1 then BaseBackoff else backoff_loop (Z.to_nat (failures - 1)) BaseBackoff.

Definition recordFailure (w : World) (target : string) (at_ : time) : World :=
  let failures := match BackoffState w !! target with Some b => Backoff_Failures b | None => 0 end in
  let failures := i64 (failures + 1) in
  w <| BackoffState ::= <[target := mkBackoff failures (time_Add at_ (backoffFor failures)) at_]> |>.

Definition clearBackoff (w : World) (target : string) : World :=
  w <| BackoffState ::= delete target |>.

(** ** The ledger *)

Definition disruptiveKinds (k : ActionKind) : bool :=
  match k with
  | ActionStopAllocation | ActionDeleteAllocation | ActionDrainAllocation => true
  | _ => false
  end.

Definition recordDisruption (w : World) (a : Allocation) (kind : EvidenceKind) (at_ : time) : World :=
  if IsZero at_ then w
  else if bool_decide (Alloc_Phase a = AllocationStopped) then w
  else
    let domain := match Nodes w !! Alloc_Node a with
                  | Some node => FailureDomain (Some node)
                  | None => ""
                  end in
    let appended := Disruptions w ++
      [mkDisruption (Alloc_ID a) (Alloc_Workload a) (Alloc_Node a) domain kind at_] in
    let cutoff := time_Add at_ (- DisruptionRetention) in
    w <| Disruptions := filter (λ d, After (Disruption_At d) cutoff = true) appended |>.

Definition At_le (d e : Disruption) : Prop := Disruption_At d <= Disruption_At e.
#[export] Instance At_le_dec : RelDecision At_le.
Proof. intros d e. unfold At_le. apply _. Defined.

Definition RecentDisruptions (w : World) (now : time) (window : duration) : list Disruption :=
  if window <=? 0 then []
  else
    let cutoff := time_Add now (- window) in
    merge_sort At_le (filter (λ d, After (Disruption_At d) cutoff = true) (Disruptions w)).

Definition disruptedDomains (w : World) (now : time) (cooldown : duration) : gset string :=
  list_to_set (filter (λ d, d ≠ "") (Disruption_Domain <$> RecentDisruptions w now cooldown)).

Definition actionDomain (w : World) (a : Action) : string :=
  let node := match Allocations w !! Action_Target a with
              | Some allocation =>
                  if bool_decide (Alloc_Node allocation ≠ "") then Alloc_Node allocation else Action_Node a
              | None => Action_Node a
              end in
  FailureDomain (Nodes w !! node).

(** ** Kernel checks

    The parts of the kernel's policy these checks read. *)

Section Checks.
Context {clock : WallClock} (MaxDisruptionsPerWindow : Z) (DisruptionWindow DisruptionCooldown : duration).

Definition effective_window : duration :=
  if DisruptionWindow <=? 0 then DefaultDisruptionWindow else DisruptionWindow.

Definition disruptive_actions (p : Proposal) : list Action :=
  filter (λ a, disruptiveKinds (Action_Kind a) = true) (Proposal_Actions p).

Definition proposed_domains (w : World) (p : Proposal) : gset string :=
  list_to_set (filter (λ d, d ≠ "") (actionDomain w <$> disruptive_actions p)).

Definition checkDisruptionBudget (w : World) (p : Proposal) : result unit :=
  let disruptive := disruptive_actions p in
  if len disruptive =? 0 then Ok tt
  else
    let now := Now w in
    refuse ((0 <? MaxDisruptionsPerWindow) &&
            (MaxDisruptionsPerWindow <?
               len (RecentDisruptions w now effective_window) + len disruptive))
      "disruption budget exhausted: %d disruptions in the last %s plus %d proposed exceeds %d";
    if 0 <? DisruptionCooldown then
      let proposed := proposed_domains w p in
      refuse (bool_decide (1 < Z.of_nat (size proposed)))
        "proposal disrupts %d failure domains at once; disrupt one at a time";
      let active := disruptedDomains w now DisruptionCooldown in
      for_all (λ domain, for_all (λ other,
        refuse (bool_decide (other ≠ domain))
          "failure domain %q was disrupted within the last %s; wait before disrupting %q";
        Ok tt) (elements active)) (elements proposed)
    else Ok tt.

Definition checkBackoff (w : World) (p : Proposal) : result unit :=
  for_all (λ a,
    match Action_Kind a with
    | ActionCreateAllocation | ActionStartAllocation =>
        refuse (Backoff_Active (BackoffState w !! Action_Target a) (Now w))
          "target %q failed %d times and is in backoff until %s";
        Ok tt
    | _ => Ok tt
    end) (Proposal_Actions p).

(** ** Pacing *)

(** Every allocation id the goal may occupy: the slots of the replica count, then
    the ids of existing allocations that are not among them, sorted. *)
Definition replicaSlots (g : Goal) (w : World) : list string :=
  let named := ((λ i, AllocationID (Workload_Name (Goal_Workload g)) (Z.of_nat i))
                 <$> seq 0 (Z.to_nat (authorizedReplicas g w))) in
  let existing := filter (λ id, (id ∉ named) ∧
                    (Alloc_Workload <$> (Allocations w !! id)) = Some (Workload_Name (Goal_Workload g)))
                    (map_to_list (Allocations w)).*1 in
  sort_Strings (named ++ existing).

(** The safeguard holding a goal back, with the time it lifts ([0]: none). *)
Inductive PacingReason :=
  | NotPaced
  | BackoffOn (target : string) (failures : Z)
  | DomainCooldown (domain : string)
  | BudgetFull (count : Z).

(** [if pacing.Until.IsZero() || until.Before(pacing.Until) { pacing = ... }] *)
Definition pace (p : PacingReason * time) (reason : PacingReason) (until : time) : PacingReason * time :=
  if IsZero (p.2) || Before until (p.2) then (reason, until) else p.

Definition Paced (g : Goal) (w : World) : (PacingReason * time) * bool :=
  let now := Now w in
  let pacing := foldl (λ p id,
    match BackoffState w !! id with
    | Some b => if Backoff_Active (Some b) now
                then pace p (BackoffOn id (Backoff_Failures b)) (Backoff_Until b) else p
    | None => p
    end) (NotPaced, time_zero) (replicaSlots g w) in
  let pacing :=
    if 0 <? DisruptionCooldown then
      foldl (λ p d, pace p (DomainCooldown (Disruption_Domain d))
                      (time_Add (Disruption_At d) DisruptionCooldown))
        pacing (RecentDisruptions w now DisruptionCooldown)
    else pacing in
  let pacing :=
    if 0 <? MaxDisruptionsPerWindow then
      let recent := RecentDisruptions w now effective_window in
      if MaxDisruptionsPerWindow <=? len recent then
        match recent with
        | d :: _ => pace pacing (BudgetFull (len recent)) (time_Add (Disruption_At d) effective_window)
        | [] => pacing
        end
      else pacing
    else pacing in
  (pacing, negb (IsZero (pacing.2))).

End Checks.

(** ** Backoff: doubling, capped *)

Lemma backoff_loop_closed n d :
  0 < d <= MaxBackoff → backoff_loop n d = Z.min MaxBackoff (d * 2 ^ Z.of_nat n).
Proof.
  revert d. induction n as [|n IH]; intros d Hd.
  - simpl. change (2 ^ 0) with 1. lia.
  - cbn [backoff_loop]. rewrite i64_id.
    2:{ unfold in_int, int_min, int_max. unfold MaxBackoff, Minute, Second in Hd. lia. }
    replace (d * 2 ^ Z.of_nat (S n)) with (d * 2 * 2 ^ Z.of_nat n)
      by (rewrite Nat2Z.inj_succ, Z.pow_succ_r; lia).
    pose proof (Z.pow_pos_nonneg 2 (Z.of_nat n) ltac:(lia) ltac:(lia)) as Hp.
    destruct (Z.leb_spec MaxBackoff (d * 2)); [nia|]. apply IH. lia.
Qed.

(** The delay after the [n]th consecutive failure of a target is
    [15s * 2^(n-1)], capped at ten minutes; the loop terminates for every count and
    no intermediate product leaves the 64-bit duration range. *)
Theorem backoffFor_closed (failures : Z) :
  backoffFor failures = Z.min MaxBackoff (BaseBackoff * 2 ^ Z.max 0 (failures - 1)).
Proof.
  unfold backoffFor. destruct (Z.leb_spec failures 1).
  - rewrite Z.max_l by lia. reflexivity.
  - rewrite backoff_loop_closed by (unfold BaseBackoff, MaxBackoff, Minute, Second; lia).
    by rewrite Z2Nat.id, Z.max_r by lia.
Qed.

(** ** The ledger *)

Lemma filter_app_disj {A} (P Q : A → Prop) `{!∀ x, Decision (P x), !∀ x, Decision (Q x)} (l : list A) :
  (∀ x, Q x → P x) → filter Q (filter P l) = filter Q l.
Proof.
  intros HQ. induction l as [|x l IH]; [done|]. rewrite !filter_cons.
  destruct (decide (P x)) as [HP|HP].
  - rewrite filter_cons. by rewrite IH.
  - destruct (decide (Q x)); [by exfalso; auto|done].
Qed.

Lemma RecentDisruptions_perm w now window :
  0 < window →
  RecentDisruptions w now window ≡ₚ
  filter (λ d, After (Disruption_At d) (now - window) = true) (Disruptions w).
Proof.
  intros Hw. unfold RecentDisruptions. destruct (Z.leb_spec window 0); [lia|].
  by rewrite merge_sort_Permutation.
Qed.

(** The record a live disruption leaves. *)
Definition ledger_entry (w : World) (a : Allocation) (kind : EvidenceKind) (at_ : time) : Disruption :=
  mkDisruption (Alloc_ID a) (Alloc_Workload a) (Alloc_Node a)
    (FailureDomain (Nodes w !! Alloc_Node a)) kind at_.

Lemma recordDisruption_live w a kind at_ :
  at_ ≠ 0 → Alloc_Phase a ≠ AllocationStopped →
  Disruptions (recordDisruption w a kind at_) =
  filter (λ d, After (Disruption_At d) (at_ - DisruptionRetention) = true)
    (Disruptions w ++ [ledger_entry w a kind at_]).
Proof.
  intros Hat Hp. unfold recordDisruption, IsZero, ledger_entry.
  rewrite (proj2 (Z.eqb_neq _ _)) by done. rewrite bool_decide_false by done.
  simpl_set. by destruct (Nodes w !! Alloc_Node a).
Qed.

(** Pruning the disruption ledger never hides anything the budget measures: at
    any later time and for any window no longer than the retention, the recent
    disruptions are those of the full history with the new entry appended. *)
Theorem ledger_prune_invisible w a kind at_ now window
    (Hat : at_ ≠ 0) (Hlive : Alloc_Phase a ≠ AllocationStopped)
    (Hnow : at_ <= now) (Hwin : 0 < window <= DisruptionRetention) :
  RecentDisruptions (recordDisruption w a kind at_) now window ≡ₚ
  filter (λ d, After (Disruption_At d) (now - window) = true)
    (Disruptions w ++ [ledger_entry w a kind at_]).
Proof.
  rewrite RecentDisruptions_perm by lia. rewrite recordDisruption_live by done.
  rewrite filter_app_disj; [done|]. intros d. unfold After. rewrite !Z.ltb_lt. lia.
Qed.

Definition ledger_w : World :=
  mkWorld 3 0 ∅ ∅ ∅ ∅ ∅ ∅ ∅ [mkDisruption "old-0" "old" "n9" "n9" EvidenceAllocationStopped (2 * Minute)] ∅.
Definition ledger_a : Allocation :=
  (new_Allocation "web-0" "web" 0 "n1" "img" Resources_zero Budget_zero) <| Alloc_Phase := AllocationRunning |>.

Lemma ledger_prune_invisible_witness :
  RecentDisruptions (recordDisruption ledger_w ledger_a EvidenceAllocationStopped (5 * Minute))
    (6 * Minute) DisruptionRetention ≡ₚ
  filter (λ d, After (Disruption_At d) (6 * Minute - DisruptionRetention) = true)
    (Disruptions ledger_w ++ [ledger_entry ledger_w ledger_a EvidenceAllocationStopped (5 * Minute)]).
Proof.
  refine (ledger_prune_invisible ledger_w ledger_a EvidenceAllocationStopped (5 * Minute) (6 * Minute)
    DisruptionRetention _ _ _ _).
  - discriminate.
  - discriminate.
  - discriminate.
  - split; [reflexivity|discriminate].
Defined.

(** Replaying a stop onto an allocation that is already stopped charges nothing. *)
Lemma recordDisruption_stopped w a kind at_ :
  Alloc_Phase a = AllocationStopped → recordDisruption w a kind at_ = w.
Proof.
  intros H. unfold recordDisruption. destruct (IsZero at_); [done|]. by rewrite bool_decide_true.
Qed.

(** ** What the governor admits *)

Lemma for_all_refuse {A} (f : A → bool) msg l :
  for_all (λ x, if f x then Err (Errorf msg) else Ok tt) l = Ok tt ↔ ∀ x, x ∈ l → f x = false.
Proof.
  rewrite for_all_ok. split; intros H x Hx; specialize (H x Hx).
  - by destruct (f x).
  - by rewrite H.
Qed.

Section Governor.
Context {clock : WallClock} (ceiling : Z) (window cooldown : duration).

(** What a proposal that passes the governor satisfies. *)
Definition disruption_admitted (w : World) (p : Proposal) : Prop :=
  (0 < ceiling →
     len (RecentDisruptions w (Now w) (effective_window window)) + len (disruptive_actions p) <= ceiling) ∧
  (0 < cooldown → ∀ a b, a ∈ disruptive_actions p → b ∈ disruptive_actions p →
     actionDomain w a ≠ "" → actionDomain w b ≠ "" → actionDomain w a = actionDomain w b) ∧
  (0 < cooldown → ∀ a d, a ∈ disruptive_actions p → d ∈ RecentDisruptions w (Now w) cooldown →
     actionDomain w a ≠ "" → Disruption_Domain d ≠ "" → Disruption_Domain d = actionDomain w a).

Lemma elem_of_proposed w p d :
  d ∈ proposed_domains w p ↔ d ≠ "" ∧ ∃ a, a ∈ disruptive_actions p ∧ actionDomain w a = d.
Proof.
  unfold proposed_domains. rewrite elem_of_list_to_set, list_elem_of_filter, list_elem_of_fmap.
  naive_solver.
Qed.

Lemma elem_of_disrupted w now c d :
  d ∈ disruptedDomains w now c ↔ d ≠ "" ∧ ∃ x, x ∈ RecentDisruptions w now c ∧ Disruption_Domain x = d.
Proof.
  unfold disruptedDomains. rewrite elem_of_list_to_set, list_elem_of_filter, list_elem_of_fmap.
  naive_solver.
Qed.

Lemma size_le_1 (X : gset string) :
  ¬ (1 < Z.of_nat (size X)) → ∀ x y, x ∈ X → y ∈ X → x = y.
Proof. intros H x y Hx Hy. apply (size_singleton_inv X); [|done..]. 
  assert (size X ≠ 0%nat); [|lia]. intros E. apply size_empty_inv in E. set_solver.
Qed.

Lemma checkDisruptionBudget_sound w p :
  checkDisruptionBudget ceiling window cooldown w p = Ok tt →
  disruptive_actions p = [] ∨ disruption_admitted w p.
Proof.
  unfold checkDisruptionBudget. intros H.
  destruct (len (disruptive_actions p) =? 0) eqn:E0.
  { left. apply Z.eqb_eq in E0. unfold len in E0. by apply length_zero_iff_nil; lia. }
  right. destruct ((0 <? ceiling) && _) eqn:Eb; [done|].
  split; [|destruct (0 <? cooldown) eqn:Ec; [|apply Z.ltb_ge in Ec; split; lia]].
  - intros Hc. apply andb_false_iff in Eb as [Eb|Eb]; bool_simpl; lia.
  - destruct (bool_decide (1 < _)) eqn:Es; [done|]. bool_simpl. split; intros _.
    + intros a b Ha Hb Hda Hdb. apply (size_le_1 _ Es); apply elem_of_proposed; eauto.
    + intros a d Ha Hd Hda Hdd. rewrite for_all_ok in H.
      specialize (H (actionDomain w a)). rewrite for_all_refuse in H.
      assert (actionDomain w a ∈ elements (proposed_domains w p)) as Hin.
      { apply elem_of_elements, elem_of_proposed. eauto. }
      specialize (H Hin (Disruption_Domain d)).
      assert (Disruption_Domain d ∈ elements (disruptedDomains w (Now w) cooldown)) as Hin'.
      { apply elem_of_elements, elem_of_disrupted. eauto. }
      specialize (H Hin'). bool_simpl. done.
Qed.

Lemma checkBackoff_sound w p a :
  checkBackoff w p = Ok tt → a ∈ Proposal_Actions p →
  Action_Kind a = ActionCreateAllocation ∨ Action_Kind a = ActionStartAllocation →
  Backoff_Active (BackoffState w !! Action_Target a) (Now w) = false.
Proof.
  unfold checkBackoff. rewrite for_all_ok. intros H Ha Hk. specialize (H a Ha).
  destruct Hk as [Hk|Hk]; rewrite Hk in H; by destruct (Backoff_Active _ _).
Qed.
End Governor.
