(* ===== verification/ClusterBudget.v ===== *)
(** * Cluster-wide ceilings (src/control/clusterbudget.go)

    What the live allocations commit across the cluster, and the kernel check that
    refuses a proposal that would take the commitment past a declared ceiling.  A
    ceiling of zero is no ceiling. *)

From S2P Require Import Prelude Types.
Open Scope Z_scope.

Record ClusterCommitment := mkClusterCommitment {
  Commit_Allocations : Z; Commit_Resources : Resources; Commit_Budget : Budget }.

Definition Commitment_zero : ClusterCommitment := mkClusterCommitment 0 Resources_zero Budget_zero.

(** [total.Allocations++; total.Resources = total.Resources.Add(r); ...] *)
Definition commit (total : ClusterCommitment) (r : Resources) (b : Budget) : ClusterCommitment :=
  mkClusterCommitment (i64 (Commit_Allocations total + 1))
    (Resources_Add (Commit_Resources total) r) (Budget_Add (Commit_Budget total) b).

Definition Commitment (w : World) : ClusterCommitment :=
  foldl (λ total a, if bool_decide (Alloc_Phase a = AllocationStopped) then total
                    else commit total (Alloc_Resources a) (Alloc_Budget a))
    Commitment_zero (values (Allocations w)).

Definition exceeds (total ceiling : Z) : bool := (0 <? ceiling) && (ceiling <? total).

Section Ceilings.
Context (MaxAllocations : Z) (ClusterCeiling : Resources) (ClusterBudget : Budget).

Definition proposed_commitment (p : Proposal) : ClusterCommitment :=
  foldl (λ total a, if bool_decide (Action_Kind a ≠ ActionCreateAllocation) then total
                    else commit total (Action_Resources a) (Action_Budget a))
    Commitment_zero (Proposal_Actions p).

Definition checkClusterBudget (w : World) (p : Proposal) : result unit :=
  let adding := proposed_commitment p in
  if Commit_Allocations adding =? 0 then Ok tt
  else
    let held := Commitment w in
    refuse (exceeds (i64 (Commit_Allocations held + Commit_Allocations adding)) MaxAllocations)
      "cluster allocation ceiling reached: %d live plus %d proposed exceeds %d";
    let total := Resources_Add (Commit_Resources held) (Commit_Resources adding) in
    refuse (exceeds (CPUMillis total) (CPUMillis ClusterCeiling))
      "cluster cpu ceiling reached: %d millis committed plus %d proposed exceeds %d";
    refuse (exceeds (MemoryMB total) (MemoryMB ClusterCeiling))
      "cluster memory ceiling reached: %d MB committed plus %d proposed exceeds %d";
    let committed := Budget_Add (Commit_Budget held) (Commit_Budget adding) in
    for_all (λ '(total, ceiling),
      refuse (exceeds total ceiling) "cluster agent %s ceiling reached: %d committed exceeds %d";
      Ok tt)
      [(Tokens committed, Tokens ClusterBudget); (CostMillis committed, CostMillis ClusterBudget);
       (WallSeconds committed, WallSeconds ClusterBudget); (ToolCalls committed, ToolCalls ClusterBudget)].

End Ceilings.
