(* ===== verification/Projection.v ===== *)
(** * The projection (src/control/projection.go)

    [Project] is the only path from observation to world state: one definition per
    case of the switch of [projectInto], applied to a clone of the world.  Cases the
    source writes as [volume, ok := world.Volumes[target]] and the like read the
    pointer, compute the new record and write it back under the same key. *)

From S2P Require Import Prelude Types Text Spread Snapshots Simulate Clone Disruption.
Open Scope Z_scope.

(** src/control/approval.go *)
Definition ApprovalScopes : list string :=
  ["public-route"; "destroy-stateful"; "restore-volume"; "move-volume"; "agent-mutating-tools"; "rollback"].

(** ** Reading evidence *)

Definition observedResources (e : Evidence) : result Resources :=
  let resources := mkResources (observedInt e "cpu_millis") (observedInt e "memory_mb") in
  refuse ((CPUMillis resources <? 1) || (MemoryMB resources <? 1)) "evidence %q must observe positive resources";
  Ok resources.

Definition observedBudget (e : Evidence) : Budget :=
  mkBudget (observedInt e "tokens") (observedInt e "cost_millis") (observedInt e "wall_seconds")
    (observedInt e "tool_calls").

(** ** Nodes and images *)

Definition projectImagePresent (w : World) (e : Evidence) : result World :=
  need node := Nodes w !! observed e "node" else "evidence %q names unknown node %q";
  let image := observed e "image" in
  refuse (bool_decide (image = "")) "evidence %q must observe an image";
  Ok (put_node w (observed e "node") (node <| Node_Images ::= <[image := true]> |>)).

Definition projectPolicyApplied (w : World) (e : Evidence) : result World :=
  need node := Nodes w !! Ev_Target e else "evidence %q names unknown node %q";
  Ok (put_node w (Ev_Target e) (node <| Node_PolicyFingerprint := observed e "fingerprint" |>)).

Definition projectZonePublished (w : World) (e : Evidence) : result World :=
  need node := Nodes w !! Ev_Target e else "evidence %q names unknown node %q";
  Ok (put_node w (Ev_Target e) (node <| Node_ZoneFingerprint := observed e "fingerprint" |>)).

Definition projectImagesCollected (w : World) (e : Evidence) : result World :=
  need node := Nodes w !! Ev_Target e else "evidence %q names unknown node %q";
  Ok (put_node w (Ev_Target e)
        (foldl (λ n image, n <| Node_Images ::= delete image |>) node (splitLines (observed e "reclaimed")))).

Definition projectNodeCordoned (w : World) (e : Evidence) : result World :=
  need node := Nodes w !! Ev_Target e else "evidence %q names unknown node %q";
  Ok (put_node w (Ev_Target e)
        (node <| Node_Cordoned := true |> <| Node_CordonReason := observed e "reason" |>)).

Definition projectNodeUncordoned (w : World) (e : Evidence) : result World :=
  need node := Nodes w !! Ev_Target e else "evidence %q names unknown node %q";
  Ok (put_node w (Ev_Target e) (node <| Node_Cordoned := false |> <| Node_CordonReason := "" |>)).

Definition projectNodeHealth (w : World) (e : Evidence) : result World :=
  need node := Nodes w !! Ev_Target e else "evidence %q names unknown node %q";
  Ok (put_node w (Ev_Target e)
        (node <| Node_Healthy := bool_decide (Ev_Kind e = EvidenceNodeReachable) |>)).

Definition projectProviderReachable (w : World) (e : Evidence) : result World :=
  need node := Nodes w !! observed e "node" else "evidence %q names unknown node %q";
  let provider := Ev_Target e in
  refuse (bool_decide (provider = "")) "evidence %q must name a provider";
  let stale := match Node_Providers node !! provider with
               | Some existing => negb (IsZero (Reach_ObservedAt existing)) &&
                                  Before (Ev_ObservedAt e) (Reach_ObservedAt existing)
               | None => false
               end in
  if stale then Ok w
  else Ok (put_node w (observed e "node") (node <| Node_Providers ::= <[provider :=
         mkProviderReach (bool_decide (observed e "reachable" = "true")) (Ev_ObservedAt e) (Ev_ExpiresAt e)
           (observed e "detail")]> |>)).

(** ** Volumes *)

Definition projectVolumeCreated (w : World) (e : Evidence) : result World :=
  refuse (bool_decide (Ev_Target e = "")) "evidence %q must name a volume";
  let node := observed e "node" in
  refuse (bool_decide (Nodes w !! node = None)) "evidence %q names unknown node %q";
  if bool_decide (is_Some (Volumes w !! Ev_Target e)) then Ok w
  else Ok (put_volume w (Ev_Target e) (new_Volume (Ev_Target e) node (observedInt e "size_mb"))).

Definition projectVolumeAttached (w : World) (e : Evidence) : result World :=
  need volume := Volumes w !! Ev_Target e else "evidence %q names unknown volume %q";
  let owner := observed e "allocation" in
  refuse (bool_decide (owner = "")) "evidence %q must observe an allocation";
  need allocation := Allocations w !! owner else "evidence %q names unknown allocation %q";
  refuse (bool_decide (Vol_Owner volume ≠ "") && bool_decide (Vol_Owner volume ≠ owner))
    "volume %q is owned by allocation %q";
  let volume := take_ownership volume owner in
  Ok (put_alloc (put_volume w (Ev_Target e) volume) owner
        (allocation <| Alloc_Volumes ::= <[Ev_Target e := Vol_Generation volume]> |>)).

Definition projectVolumeDetached (w : World) (e : Evidence) : result World :=
  match Volumes w !! Ev_Target e with
  | None => Ok w
  | Some volume =>
      let owner := observed e "allocation" in
      if bool_decide (Vol_Owner volume ≠ "") && bool_decide (owner ≠ "") &&
         bool_decide (Vol_Owner volume ≠ owner)
      then Ok w
      else Ok (detach_volume w (Ev_Target e) volume)
  end.

Definition projectVolumeSnapshotted (w : World) (e : Evidence) : result World :=
  need volume := Volumes w !! Ev_Target e else "evidence %q names unknown volume %q";
  let snapshot := observed e "snapshot" in
  let checksum := observed e "checksum" in
  refuse (bool_decide (snapshot = "") || bool_decide (checksum = ""))
    "evidence %q must observe a snapshot id and checksum";
  refuse (match Vol_Snapshots volume !! snapshot with
          | Some existing => bool_decide (existing ≠ checksum)
          | None => false
          end) "snapshot %q of volume %q already exists with a different checksum";
  let volume := record_snapshot volume snapshot checksum in
  let volume := match Vol_Handoff volume with
                | Some h => if bool_decide (Handoff_Phase h = HandoffQuiesced)
                            then volume <| Vol_Handoff := Some (h <| Handoff_Phase := HandoffSnapshotted |>
                                   <| Handoff_Snapshot := snapshot |> <| Handoff_Checksum := checksum |>) |>
                            else volume
                | None => volume
                end in
  Ok (put_volume w (Ev_Target e) volume).

Definition projectVolumeBackedUp (w : World) (e : Evidence) : result World :=
  need volume := Volumes w !! Ev_Target e else "evidence %q names unknown volume %q";
  let snapshot := observed e "snapshot" in
  let location := observed e "location" in
  let checksum := observed e "checksum" in
  refuse (bool_decide (snapshot = "") || bool_decide (location = ""))
    "evidence %q must observe a snapshot id and location";
  need recorded := Vol_Snapshots volume !! snapshot else "volume %q has no snapshot %q to back up";
  refuse (bool_decide (checksum ≠ "") && bool_decide (checksum ≠ recorded))
    "backup of snapshot %q does not match its recorded checksum";
  Ok (put_volume w (Ev_Target e) (volume <| Vol_Backups ::= <[snapshot := location]> |>)).

Definition projectVolumeQuiesced (w : World) (e : Evidence) : result World :=
  need volume := Volumes w !! Ev_Target e else "evidence %q names unknown volume %q";
  let target := observed e "to" in
  refuse (bool_decide (target = "")) "evidence %q must observe a target node";
  refuse (bool_decide (Nodes w !! target = None)) "evidence %q names unknown node %q";
  refuse (bool_decide (Vol_Owner volume ≠ "")) "volume %q cannot be quiesced while allocation %q holds it";
  Ok (put_volume w (Ev_Target e)
        (volume <| Vol_Handoff := Some (mkVolumeHandoff (Vol_Node volume) target HandoffQuiesced "" "") |>)).

Definition projectVolumeTransferred (w : World) (e : Evidence) : result World :=
  need volume := Volumes w !! Ev_Target e else "evidence %q names unknown volume %q";
  need handoff := Vol_Handoff volume else "volume %q has no handoff in progress";
  refuse (bool_decide (Handoff_Phase handoff ≠ HandoffSnapshotted))
    "volume %q must be snapshotted before transfer, not %q";
  let checksum := observed e "checksum" in
  refuse (bool_decide (checksum = "")) "evidence %q must observe a checksum";
  refuse (bool_decide (checksum ≠ Handoff_Checksum handoff))
    "transfer of volume %q does not match the snapshot checksum";
  Ok (put_volume w (Ev_Target e)
        (volume <| Vol_Handoff := Some (handoff <| Handoff_Phase := HandoffTransferred |>) |>)).

Definition projectVolumeAdopted (w : World) (e : Evidence) : result World :=
  need volume := Volumes w !! Ev_Target e else "evidence %q names unknown volume %q";
  need handoff := Vol_Handoff volume else "volume %q has no handoff in progress";
  refuse (bool_decide (Handoff_Phase handoff ≠ HandoffTransferred))
    "volume %q must be transferred before adoption, not %q";
  refuse (bool_decide (observed e "node" ≠ Handoff_To handoff))
    "volume %q was adopted by %q, not the handoff target %q";
  Ok (put_volume w (Ev_Target e)
        (volume <| Vol_Node := Handoff_To handoff |> <| Vol_Generation ::= λ g, u64 (g + 1) |>
                <| Vol_Handoff := None |>)).

(** The last-known pointer after a prune: unchanged while it names a recorded
    snapshot, else the most recent survivor, else empty. *)
Definition repair_last (v : Volume) : Volume :=
  if bool_decide (is_Some (Vol_Snapshots v !! Vol_LastSnapshot v)) then v
  else v <| Vol_LastSnapshot := default "" (last (Vol_SnapshotOrder v)) |>.

Definition projectSnapshotsPruned (w : World) (e : Evidence) : result World :=
  need volume := Volumes w !! Ev_Target e else "evidence %q names unknown volume %q";
  let volume := forget_snapshots volume (splitLines (observed e "removed")) in
  Ok (put_volume w (Ev_Target e) (repair_last volume)).

Definition projectDatabaseBackedUp (w : World) (e : Evidence) : result World :=
  need volume := Volumes w !! Ev_Target e else "evidence %q names unknown volume %q";
  let label := observed e "label" in
  let checksum := observed e "checksum" in
  refuse (bool_decide (label = "") || bool_decide (checksum = ""))
    "evidence %q must observe a backup label and checksum";
  Ok (put_volume w (Ev_Target e) (record_snapshot volume label checksum)).

Definition projectBackupVerified (w : World) (e : Evidence) : result World :=
  need volume := Volumes w !! Ev_Target e else "evidence %q names unknown volume %q";
  let snapshot := observed e "snapshot" in
  refuse (bool_decide (snapshot = "")) "evidence %q must observe a snapshot id";
  if bool_decide (observed e "verified" ≠ "true") then Ok w
  else
    refuse (bool_decide (Vol_Snapshots volume !! snapshot = None))
      "verification names unknown snapshot %q of volume %q";
    let volume := volume <| Vol_VerifiedSnapshot := snapshot |> in
    Ok (put_volume w (Ev_Target e)
          (if negb (IsZero (Ev_ObservedAt e)) then volume <| Vol_VerifiedAt := Ev_ObservedAt e |> else volume)).

Definition projectVolumeRestored (w : World) (e : Evidence) : result World :=
  need volume := Volumes w !! Ev_Target e else "evidence %q names unknown volume %q";
  let snapshot := observed e "snapshot" in
  refuse (bool_decide (snapshot = "")) "evidence %q must observe a snapshot id";
  refuse (bool_decide (Vol_Snapshots volume !! snapshot = None))
    "volume %q was restored from unknown snapshot %q";
  Ok (put_volume w (Ev_Target e) (volume <| Vol_RestoredFrom := snapshot |>)).

(** ** Allocations *)

Definition projectAllocationCreated (w : World) (e : Evidence) : result World :=
  need node := Nodes w !! observed e "node" else "evidence %q names unknown node %q";
  refuse (bool_decide (Ev_Target e = "")) "evidence %q must name an allocation";
  if bool_decide (is_Some (Allocations w !! Ev_Target e)) then Ok w
  else
    let* resources := observedResources e in
    let budget := observedBudget e in
    let w := put_alloc w (Ev_Target e)
      (new_Allocation (Ev_Target e) (observed e "workload") (observedInt e "replica") (Node_ID node)
         (observed e "image") resources budget) in
    Ok (put_node w (observed e "node")
          (node <| Node_Used ::= λ u, Resources_Add u resources |>
                <| Node_BudgetUsed ::= λ u, Budget_Add u budget |>)).

Definition projectSecretMounted (w : World) (e : Evidence) : result World :=
  need allocation := Allocations w !! Ev_Target e else "evidence %q names unknown allocation %q";
  let name := observed e "secret" in
  let version := observed e "version" in
  refuse (bool_decide (name = "") || bool_decide (version = ""))
    "evidence %q must observe a secret name and version";
  Ok (put_alloc w (Ev_Target e) (allocation <| Alloc_Secrets ::= <[name := version]> |>)).

Definition projectNetworkAttached (w : World) (e : Evidence) : result World :=
  need allocation := Allocations w !! Ev_Target e else "evidence %q names unknown allocation %q";
  let address := observed e "address" in
  refuse (bool_decide (address = "")) "evidence %q must observe an address";
  Ok (put_alloc w (Ev_Target e) (allocation <| Alloc_Address := address |>)).

Definition projectNetworkDetached (w : World) (e : Evidence) : result World :=
  match Allocations w !! Ev_Target e with
  | None => Ok w
  | Some allocation => Ok (put_alloc w (Ev_Target e) (allocation <| Alloc_Address := "" |>))
  end.

Definition projectAllocationRunning (w : World) (e : Evidence) : result World :=
  need allocation := Allocations w !! Ev_Target e else "evidence %q names unknown allocation %q";
  Ok (put_alloc w (Ev_Target e) (allocation <| Alloc_Phase := AllocationRunning |>)).

(** [applyReadiness]; [key] is where the allocation is filed. *)
Definition applyReadiness (w : World) (key : string) (allocation : Allocation) (e : Evidence) : World :=
  let ready := bool_decide (observed e "ready" = "true") in
  let lapsed := negb (Alloc_Ready allocation) ||
                (negb (IsZero (Alloc_ReadyExpiresAt allocation)) &&
                 negb (Before (Ev_ObservedAt e) (Alloc_ReadyExpiresAt allocation))) in
  let allocation :=
    if negb ready then allocation <| Alloc_ReadySince := time_zero |>
    else if lapsed || IsZero (Alloc_ReadySince allocation)
    then allocation <| Alloc_ReadySince := Ev_ObservedAt e |> else allocation in
  let allocation := allocation <| Alloc_Ready := ready |> <| Alloc_ReadyExpiresAt := Ev_ExpiresAt e |> in
  let w := put_alloc w key allocation in
  if ready then
    (clearBackoff w (Alloc_ID allocation))
      <| KnownGood ::= <[Alloc_Workload allocation := Alloc_Image allocation]> |>
  else w.

(** [EvidenceAllocationReady] and [EvidenceAgentReady]. *)
Definition projectReady (w : World) (e : Evidence) : result World :=
  need allocation := Allocations w !! Ev_Target e else "evidence %q names unknown allocation %q";
  refuse (bool_decide (Alloc_Phase allocation ≠ AllocationRunning))
    "allocation %q cannot be ready in phase %q";
  Ok (applyReadiness w (Ev_Target e) allocation e).

Definition projectAllocationStopped (w : World) (e : Evidence) : result World :=
  need allocation := Allocations w !! Ev_Target e else "evidence %q names unknown allocation %q";
  let w := recordDisruption w allocation (Ev_Kind e) (Ev_ObservedAt e) in
  Ok (put_alloc w (Ev_Target e)
        (allocation <| Alloc_Phase := AllocationStopped |> <| Alloc_Ready := false |>
                    <| Alloc_ReadySince := time_zero |>)).

Definition projectAllocationFailed (w : World) (e : Evidence) : result World :=
  need allocation := Allocations w !! Ev_Target e else "evidence %q names unknown allocation %q";
  let w := put_alloc w (Ev_Target e)
    (allocation <| Alloc_Phase := AllocationStopped |> <| Alloc_Ready := false |>
                <| Alloc_ReadySince := time_zero |> <| Alloc_ExitCode := observedInt e "exit_code" |>
                <| Alloc_Restarts := observedInt e "restarts" |>) in
  Ok (recordFailure w (Ev_Target e) (Ev_ObservedAt e)).

Definition projectAllocationDeleted (w : World) (e : Evidence) : result World :=
  match Allocations w !! Ev_Target e with
  | None => Ok w
  | Some allocation =>
      let w := match Nodes w !! Alloc_Node allocation with
               | Some node => put_node w (Alloc_Node allocation)
                   (node <| Node_Used ::= λ u, Resources_Subtract u (Alloc_Resources allocation) |>)
               | None => w
               end in
      let w := recordDisruption w allocation (Ev_Kind e) (Ev_ObservedAt e) in
      Ok (w <| Allocations ::= delete (Ev_Target e) |>)
  end.

(** [make([]ToolGrant, 0, count)] panics on a negative count. *)
Definition projectToolsGranted (w : World) (e : Evidence) : result World :=
  need allocation := Allocations w !! Ev_Target e else "evidence %q names unknown allocation %q";
  refuse (bool_decide (Alloc_Phase allocation ≠ AllocationCreated))
    "allocation %q cannot receive tools in phase %q";
  if observedInt e "count" <? 0 then Err (Panic "makeslice: cap out of range")
  else Ok (put_alloc w (Ev_Target e)
             (allocation <| Alloc_Tools := replicate (Z.to_nat (observedInt e "count")) ToolGrant_zero |>)).

Definition projectAgentSpent (w : World) (e : Evidence) : result World :=
  need allocation := Allocations w !! Ev_Target e else "evidence %q names unknown allocation %q";
  let spent := observedBudget e in
  if (Tokens spent <? Tokens (Alloc_Spent allocation)) ||
     (CostMillis spent <? CostMillis (Alloc_Spent allocation))
  then Ok w
  else
    let allocation := allocation <| Alloc_Spent := spent |> in
    Ok (put_alloc w (Ev_Target e)
          (if Exhausted allocation then allocation <| Alloc_Ready := false |> else allocation)).

Definition projectAgentDraining (w : World) (e : Evidence) : result World :=
  need allocation := Allocations w !! Ev_Target e else "evidence %q names unknown allocation %q";
  let allocation := allocation <| Alloc_Draining := true |> in
  Ok (put_alloc w (Ev_Target e)
        (match Ev_Observed e !! "task" with
         | Some task => allocation <| Alloc_Task := task |>
         | None => allocation
         end)).

Definition projectAllocationDrained (w : World) (e : Evidence) : result World :=
  need allocation := Allocations w !! Ev_Target e else "evidence %q names unknown allocation %q";
  let allocation := allocation <| Alloc_Draining := true |> <| Alloc_Task := "" |>
                               <| Alloc_Ready := false |> <| Alloc_ReadySince := time_zero |> in
  Ok (recordDisruption (put_alloc w (Ev_Target e) allocation) allocation (Ev_Kind e) (Ev_ObservedAt e)).

(** ** Routes, queues and approvals *)

Definition projectRouteReachable (w : World) (e : Evidence) : result World :=
  refuse (bool_decide (Ev_Target e = "")) "evidence %q must name a route host";
  Ok (w <| Routes ::= <[Ev_Target e :=
        mkRoute (Ev_Target e) (observed e "workload") (observedInt e "port") (observed e "exposure")]> |>).

Definition projectRouteRemoved (w : World) (e : Evidence) : result World :=
  Ok (w <| Routes ::= delete (Ev_Target e) |>).

Definition projectQueueObserved (w : World) (e : Evidence) : result World :=
  refuse (bool_decide (Ev_Target e = "")) "evidence %q must name a queue";
  need queue := Queues w !! Ev_Target e else "evidence %q names unknown queue %q";
  Ok (w <| Queues ::= <[Ev_Target e :=
        queue <| Queue_Depth := observedInt e "depth" |> <| Queue_InFlight := observedInt e "in_flight" |>
              <| Queue_ObservedAt := Ev_ObservedAt e |>]> |>).

Definition projectApprovalGranted (w : World) (e : Evidence) : result World :=
  refuse (bool_decide (Ev_Target e = "")) "evidence %q must name an approval";
  let goalID := observed e "goal" in
  let scope := observed e "scope" in
  refuse (bool_decide (goalID = "") || bool_decide (scope = "")) "evidence %q must name a goal and scope";
  refuse (bool_decide (scope ∉ ApprovalScopes)) "evidence %q names ungated scope %q";
  Ok (w <| Approvals ::= <[Ev_Target e :=
        mkApproval (Ev_Target e) goalID scope (observed e "issued_by") true (Ev_ObservedAt e)
          (Ev_ExpiresAt e) (u64 (observedInt e "revision")) (observed e "subject") (observed e "rollback")
          (observed e "reason")]> |>).

Definition projectApprovalRevoked (w : World) (e : Evidence) : result World :=
  match Approvals w !! Ev_Target e with
  | None => Ok w
  | Some approval => Ok (w <| Approvals ::= <[Ev_Target e := approval <| Approval_Granted := false |>]> |>)
  end.

(** ** projectInto and Project *)

Definition projectInto (w : World) (e : Evidence) : result World :=
  match Ev_Kind e with
  | EvidenceImagePresent => projectImagePresent w e
  | EvidenceAllocationCreated => projectAllocationCreated w e
  | EvidenceVolumeCreated => projectVolumeCreated w e
  | EvidenceVolumeAttached => projectVolumeAttached w e
  | EvidenceVolumeDetached => projectVolumeDetached w e
  | EvidenceVolumeSnapshotted => projectVolumeSnapshotted w e
  | EvidenceVolumeBackedUp => projectVolumeBackedUp w e
  | EvidenceVolumeQuiesced => projectVolumeQuiesced w e
  | EvidenceVolumeTransferred => projectVolumeTransferred w e
  | EvidenceVolumeAdopted => projectVolumeAdopted w e
  | EvidencePolicyApplied => projectPolicyApplied w e
  | EvidenceZonePublished => projectZonePublished w e
  | EvidenceImagesCollected => projectImagesCollected w e
  | EvidenceSnapshotsPruned => projectSnapshotsPruned w e
  | EvidenceDatabaseBackedUp => projectDatabaseBackedUp w e
  | EvidenceBackupVerified => projectBackupVerified w e
  | EvidenceVolumeRestored => projectVolumeRestored w e
  | EvidenceSecretMounted => projectSecretMounted w e
  | EvidenceNetworkAttached => projectNetworkAttached w e
  | EvidenceNetworkDetached => projectNetworkDetached w e
  | EvidenceAllocationRunning => projectAllocationRunning w e
  | EvidenceAllocationReady | EvidenceAgentReady => projectReady w e
  | EvidenceNodeCordoned => projectNodeCordoned w e
  | EvidenceNodeUncordoned => projectNodeUncordoned w e
  | EvidenceNodeReachable | EvidenceNodeUnreachable => projectNodeHealth w e
  | EvidenceAllocationStopped => projectAllocationStopped w e
  | EvidenceAllocationFailed => projectAllocationFailed w e
  | EvidenceAllocationDeleted => projectAllocationDeleted w e
  | EvidenceRouteReachable => projectRouteReachable w e
  | EvidenceRouteRemoved => projectRouteRemoved w e
  | EvidenceToolsGranted => projectToolsGranted w e
  | EvidenceAgentSpent => projectAgentSpent w e
  | EvidenceAgentDraining => projectAgentDraining w e
  | EvidenceAllocationDrained => projectAllocationDrained w e
  | EvidenceProviderReachable => projectProviderReachable w e
  | EvidenceApprovalGranted => projectApprovalGranted w e
  | EvidenceApprovalRevoked => projectApprovalRevoked w e
  | EvidenceDiagnosisRecorded => Ok w
  | EvidenceQueueObserved => projectQueueObserved w e
  | EvidenceOther _ => Err (Errorf "unknown evidence kind %q")
  end.

Definition observesNothing (kind : EvidenceKind) : bool := bool_decide (kind = EvidenceDiagnosisRecorded).

Definition Project (w : World) (e : Evidence) : result World :=
  let next := cloneWorld w in
  let* next := projectInto next e in
  if observesNothing (Ev_Kind e) then Ok next
  else
    let next := next <| Revision := u64 (Revision w + 1) |> in
    if negb (IsZero (Ev_ObservedAt e)) && After (Ev_ObservedAt e) (ObservedAt next)
    then Ok (next <| ObservedAt := Ev_ObservedAt e |>) else Ok next.

(** The cases of the switch, unfolded by [autounfold with project]. *)
Create HintDb project.
#[export] Hint Unfold projectImagePresent projectPolicyApplied projectZonePublished projectImagesCollected
  projectNodeCordoned projectNodeUncordoned projectNodeHealth projectProviderReachable projectVolumeCreated
  projectVolumeAttached projectVolumeDetached projectVolumeSnapshotted projectVolumeBackedUp
  projectVolumeQuiesced projectVolumeTransferred projectVolumeAdopted projectSnapshotsPruned
  projectDatabaseBackedUp projectBackupVerified projectVolumeRestored projectAllocationCreated
  projectSecretMounted projectNetworkAttached projectNetworkDetached projectAllocationRunning projectReady
  projectAllocationStopped projectAllocationFailed projectAllocationDeleted projectToolsGranted
  projectAgentSpent projectAgentDraining projectAllocationDrained projectRouteReachable
  projectRouteRemoved projectQueueObserved projectApprovalGranted projectApprovalRevoked : project.
