(* ===== verification/History.v ===== *)
(** * Invariants of evidence histories

    A history is a sequence of evidence projected in order.  The theorems say what
    holds of every world a history can produce: one writer per volume, exact capacity
    accounting, readiness only of running allocations, consistent snapshot records,
    verified handoffs, a monotone clock; and which evidence may safely be replayed. *)

From S2P Require Import Prelude Types Text Spread Snapshots Policy Simulate Clone Capacity Fencing Disruption Projection.
Open Scope Z_scope.

Definition projectAll (w : World) (evidence : list Evidence) : result World := for_each Project w evidence.

(** ** What the helpers leave alone *)

Lemma recordDisruption_frame w a k t :
  Nodes (recordDisruption w a k t) = Nodes w ∧ Allocations (recordDisruption w a k t) = Allocations w ∧
  Volumes (recordDisruption w a k t) = Volumes w ∧ Approvals (recordDisruption w a k t) = Approvals w ∧
  KnownGood (recordDisruption w a k t) = KnownGood w ∧ ObservedAt (recordDisruption w a k t) = ObservedAt w ∧
  BackoffState (recordDisruption w a k t) = BackoffState w.
Proof. unfold recordDisruption. by repeat case_match. Qed.

Lemma recordDisruption_Nodes w a k t : Nodes (recordDisruption w a k t) = Nodes w.
Proof. apply recordDisruption_frame. Qed.
Lemma recordDisruption_Allocations w a k t : Allocations (recordDisruption w a k t) = Allocations w.
Proof. apply recordDisruption_frame. Qed.
Lemma recordDisruption_Volumes w a k t : Volumes (recordDisruption w a k t) = Volumes w.
Proof. apply recordDisruption_frame. Qed.
Lemma recordDisruption_Approvals w a k t : Approvals (recordDisruption w a k t) = Approvals w.
Proof. apply recordDisruption_frame. Qed.
Lemma recordDisruption_ObservedAt w a k t : ObservedAt (recordDisruption w a k t) = ObservedAt w.
Proof. apply recordDisruption_frame. Qed.
Lemma recordDisruption_KnownGood w a k t : KnownGood (recordDisruption w a k t) = KnownGood w.
Proof. apply recordDisruption_frame. Qed.

Create Rewrite HintDb frame.
#[export] Hint Rewrite recordDisruption_Nodes recordDisruption_Allocations recordDisruption_Volumes
  recordDisruption_Approvals recordDisruption_ObservedAt recordDisruption_KnownGood : frame.

Lemma applyReadiness_frame w key a e :
  Nodes (applyReadiness w key a e) = Nodes w ∧ Volumes (applyReadiness w key a e) = Volumes w ∧
  Approvals (applyReadiness w key a e) = Approvals w ∧ ObservedAt (applyReadiness w key a e) = ObservedAt w.
Proof. unfold applyReadiness. by repeat case_match. Qed.

(** The allocation [applyReadiness] writes back. *)
Lemma applyReadiness_alloc w key a e :
  ∃ b, Allocations (applyReadiness w key a e) = <[key := b]> (Allocations w) ∧
    Alloc_ID b = Alloc_ID a ∧ Alloc_Workload b = Alloc_Workload a ∧ Alloc_Replica b = Alloc_Replica a ∧
    Alloc_Node b = Alloc_Node a ∧ Alloc_Image b = Alloc_Image a ∧ Alloc_Resources b = Alloc_Resources a ∧
    Alloc_Budget b = Alloc_Budget a ∧ Alloc_Stateful b = Alloc_Stateful a ∧
    Alloc_Volumes b = Alloc_Volumes a ∧ Alloc_Phase b = Alloc_Phase a.
Proof.
  unfold applyReadiness. destruct (bool_decide _); cbn [negb]; [destruct (_ || _)|];
    eexists; (split; [reflexivity|by repeat split]).
Qed.

(** [Project] is [projectInto] with the revision and the clock moved on. *)
Lemma Project_inv w e w' :
  Project w e = Ok w' →
  ∃ n, projectInto w e = Ok n ∧ Nodes w' = Nodes n ∧ Allocations w' = Allocations n ∧
    Volumes w' = Volumes n ∧ Approvals w' = Approvals n ∧ KnownGood w' = KnownGood n ∧
    Revision w' = (if observesNothing (Ev_Kind e) then Revision n else u64 (Revision w + 1)) ∧
    ObservedAt w' = (if observesNothing (Ev_Kind e) then ObservedAt n
                     else if negb (IsZero (Ev_ObservedAt e)) && After (Ev_ObservedAt e) (ObservedAt n)
                     then Ev_ObservedAt e else ObservedAt n).
Proof.
  unfold Project. rewrite cloneWorld_id. intros H. inv_ok H; subst; eexists; (split; [done|]).
  all: simpl_set; repeat split; try done.
  all: match goal with H : negb _ && After _ _ = _ |- _ => simpl_set; by rewrite H end.
Qed.

(** ** The shape of a projection step *)

(** The fields of an allocation that no evidence about it changes, and readiness
    only where it runs. *)
Record same_identity (a b : Allocation) : Prop := {
  si_id : Alloc_ID b = Alloc_ID a; si_workload : Alloc_Workload b = Alloc_Workload a;
  si_replica : Alloc_Replica b = Alloc_Replica a; si_node : Alloc_Node b = Alloc_Node a;
  si_image : Alloc_Image b = Alloc_Image a; si_resources : Alloc_Resources b = Alloc_Resources a;
  si_budget : Alloc_Budget b = Alloc_Budget a; si_stateful : Alloc_Stateful b = Alloc_Stateful a;
  si_ready : Alloc_Ready b = true → Alloc_Phase b = AllocationRunning ∨
               (Alloc_Ready a = true ∧ Alloc_Phase b = Alloc_Phase a) }.

Lemma same_identity_refl a : same_identity a a.
Proof. split; try done. auto. Qed.
#[export] Hint Resolve same_identity_refl : core.

(** The one entry a step rewrote. *)
Ltac identity_entry :=
  first [ by apply option_Forall2_refl; auto
        | by eapply insert_related; [auto | eassumption | split; simpl_set; (done || auto)] ].

Lemma applyReadiness_identity w key a e :
  Allocations w !! key = Some a → Alloc_Phase a = AllocationRunning →
  ∀ id, option_Forall2 same_identity (Allocations w !! id) (Allocations (applyReadiness w key a e) !! id).
Proof.
  intros Ha Hp. destruct (applyReadiness_alloc w key a e)
    as (b & -> & ? & ? & ? & ? & ? & ? & ? & ? & ? & Hph).
  eapply insert_related; [auto|done|]. split; try done. intros _. left. congruence.
Qed.

Lemma project_allocations_shape w e w' :
  projectInto w e = Ok w' → Ev_Kind e ≠ EvidenceAllocationCreated → Ev_Kind e ≠ EvidenceAllocationDeleted →
  ∀ id, option_Forall2 same_identity (Allocations w !! id) (Allocations w' !! id).
Proof.
  intros H Hc Hd id. unfold projectInto in H.
  destruct (Ev_Kind e); try done; autounfold with project in H;
    try (match type of H with match ?o with _ => _ end = _ => destruct o eqn:? end);
    inv_ok H; subst; unfold detach_volume, put_alloc, put_node, put_volume, recordFailure; simpl_set;
    autorewrite with frame; simpl_set; try identity_entry.
  - case_match; simpl_set; identity_entry.
  - bool_simpl. by apply applyReadiness_identity.
  - bool_simpl. by apply applyReadiness_identity.
  - case_match; identity_entry.
  - case_match; identity_entry.
Qed.

Lemma project_nodes_shape w e w' :
  projectInto w e = Ok w' → Ev_Kind e ≠ EvidenceAllocationCreated → Ev_Kind e ≠ EvidenceAllocationDeleted →
  ∀ id, option_Forall2 same_use (Nodes w !! id) (Nodes w' !! id).
Proof.
  intros H Hc Hd id. unfold projectInto in H.
  destruct (Ev_Kind e); try done; autounfold with project in H;
    try (match type of H with match ?o with _ => _ end = _ => destruct o eqn:? end);
    inv_ok H; subst; unfold detach_volume, put_alloc, put_node, put_volume, recordFailure; simpl_set;
    autorewrite with frame; simpl_set;
    try first [ by apply option_Forall2_refl
              | by eapply insert_related; [done | eassumption | by split] ].
  - case_match; by apply option_Forall2_refl.
  - destruct (applyReadiness_frame w (Ev_Target e) a e) as [-> _]. by apply option_Forall2_refl.
  - destruct (applyReadiness_frame w (Ev_Target e) a e) as [-> _]. by apply option_Forall2_refl.
  - eapply insert_related; [done|eassumption|]. clear.
    generalize (splitLines (observed e "reclaimed")) as l. intros l. revert n.
    induction l as [|i l IH]; intros n; [done|].
    destruct (IH (n <| Node_Images ::= delete i |>)) as (? & ? & ?). by repeat split.
Qed.

(** Creation evidence either repeats a known allocation or places a new one. *)
Lemma project_created_inv w e w' :
  projectInto w e = Ok w' → Ev_Kind e = EvidenceAllocationCreated →
  w' = w ∨ ∃ n r, Nodes w !! observed e "node" = Some n ∧ Allocations w !! Ev_Target e = None ∧
    observedResources e = Ok r ∧ Volumes w' = Volumes w ∧
    Allocations w' = <[Ev_Target e :=
      new_Allocation (Ev_Target e) (observed e "workload") (observedInt e "replica") (Node_ID n)
        (observed e "image") r (observedBudget e)]> (Allocations w) ∧
    Nodes w' = <[observed e "node" :=
      n <| Node_Used ::= λ u, Resources_Add u r |>
        <| Node_BudgetUsed ::= λ u, Budget_Add u (observedBudget e) |>]> (Nodes w).
Proof.
  intros H Hk. unfold projectInto in H. rewrite Hk in H. unfold projectAllocationCreated in H.
  inv_ok H; [by left|]. right. subst. do 2 eexists. bool_simpl.
  split; [done|]. split; [by apply eq_None_not_Some|]. by repeat split.
Qed.

(** Deletion evidence either repeats a deletion or removes the allocation and gives
    its node the capacity back. *)
Lemma project_deleted_inv w e w' :
  projectInto w e = Ok w' → Ev_Kind e = EvidenceAllocationDeleted →
  (w' = w ∧ Allocations w !! Ev_Target e = None) ∨
  ∃ a, Allocations w !! Ev_Target e = Some a ∧ Volumes w' = Volumes w ∧
    Allocations w' = delete (Ev_Target e) (Allocations w) ∧
    Nodes w' = released (Nodes w) a
      (λ n, n <| Node_Used ::= λ u, Resources_Subtract u (Alloc_Resources a) |>).
Proof.
  intros H Hk. unfold projectInto in H. rewrite Hk in H. unfold projectAllocationDeleted in H.
  destruct (Allocations w !! Ev_Target e) as [a|] eqn:E; inv_ok H; subst; [right|by left].
  exists a. split; [done|]. unfold released. simpl_set. autorewrite with frame. simpl_set.
  by destruct (Nodes w !! Alloc_Node a).
Qed.

(** ** Readiness *)

Lemma ready_running_project w e w' : ready_running w → Project w e = Ok w' → ready_running w'.
Proof.
  intros Hr H. apply Project_inv in H as (n & H & _ & HA & _). intros id b Hb Hready. rewrite HA in Hb.
  destruct (decide (Ev_Kind e = EvidenceAllocationCreated)) as [Hk|Hc].
  { apply (project_created_inv _ _ _ H) in Hk as [->|(? & ? & _ & _ & _ & _ & Hal & _)]; [eauto|].
    rewrite Hal in Hb. apply lookup_insert_Some in Hb as [[_ <-]|[_ Hb]]; [done|eauto]. }
  destruct (decide (Ev_Kind e = EvidenceAllocationDeleted)) as [Hk|Hd].
  { apply (project_deleted_inv _ _ _ H) in Hk as [[-> _]|(? & _ & _ & Hal & _)]; [eauto|].
    rewrite Hal in Hb. apply lookup_delete_Some in Hb as [_ Hb]. eauto. }
  pose proof (project_allocations_shape _ _ _ H Hc Hd id) as Hs. rewrite Hb in Hs.
  inversion Hs as [a ? Hsi Ha|]; subst. destruct (si_ready _ _ Hsi Hready) as [?|[Hra ->]]; [done|].
  by eapply Hr.
Qed.

(** Readiness is only ever believed of running allocations.  Whatever evidence
    arrives and in whatever order, a world built from it never holds an allocation
    that is ready in any phase but running. *)
Theorem history_ready_running w evidence w'
    (Hw : ready_running w) (H : projectAll w evidence = Ok w') : ready_running w'.
Proof. eapply (for_each_inv ready_running); [|exact Hw|exact H]. intros. by eapply ready_running_project. Qed.

(** ** Capacity *)

(** The created allocation's resources still fit an [int] beside what its node holds. *)
Definition room_in (w : World) (e : Evidence) : Prop :=
  Ev_Kind e = EvidenceAllocationCreated → ∀ r, observedResources e = Ok r →
  room_for (Allocations w) r (observed e "node").

Lemma observedResources_pos e r : observedResources e = Ok r → Resources_nonneg r.
Proof. unfold observedResources. intros H. inv_ok H. subst. bool_simpl. split; simpl in *; lia. Qed.

(** Capacity accounting survives every observation.  One projection step from a
    world in which each node's used capacity is exactly the sum of its allocations'
    resources yields such a world again: repeated creations are not double-counted,
    a deletion gives back exactly what the creation took, and nothing else moves. *)
Theorem project_accounted w e w'
    (Hw : accounted (Nodes w) (Allocations w)) (Hroom : room_in w e) (H : Project w e = Ok w') :
  accounted (Nodes w') (Allocations w').
Proof.
  apply Project_inv in H as (n & H & -> & -> & _).
  destruct (decide (Ev_Kind e = EvidenceAllocationCreated)) as [Hk|Hc].
  { pose proof Hk as Hk'. apply (project_created_inv _ _ _ H) in Hk as [->|(m & r & Hm & Hf & Hr & _ & -> & ->)];
      [done|]. pose proof (ac_ids _ _ Hw _ _ Hm) as Hid. set (a := new_Allocation _ _ _ _ _ _ _).
    replace (observed e "node") with (Alloc_Node a) by done.
    apply (accounted_create _ _ _ a m); [done..|by simpl; rewrite Hid|by eapply observedResources_pos| |done|done].
    simpl. rewrite Hid. by apply Hroom. }
  destruct (decide (Ev_Kind e = EvidenceAllocationDeleted)) as [Hk|Hd].
  { apply (project_deleted_inv _ _ _ H) in Hk as [[-> _]|(a & Ha & _ & -> & ->)]; [done|].
    by apply accounted_delete. }
  eapply accounted_frame; [by eapply project_nodes_shape| |exact Hw]. intros id.
  eapply option_Forall2_impl; [by eapply project_allocations_shape|]. intros a b []. by split.
Qed.

(** ** The life of a volume, as a step relation *)

(** What one piece of evidence about a volume does to where it lives, who owns it,
    its generation and its handoff. *)
Inductive vol_step (e : Evidence) (v : Volume) : Volume → Prop :=
  | step_keep v' :
      Vol_Node v' = Vol_Node v → Vol_Owner v' = Vol_Owner v → Vol_Generation v' = Vol_Generation v →
      Vol_Handoff v' = Vol_Handoff v → vol_step e v v'
  | step_attach :
      Ev_Kind e = EvidenceVolumeAttached → Vol_Owner v = "" ∨ Vol_Owner v = observed e "allocation" →
      vol_step e v (take_ownership v (observed e "allocation"))
  | step_detach : Ev_Kind e = EvidenceVolumeDetached → vol_step e v (release_ownership v)
  | step_quiesce :
      Ev_Kind e = EvidenceVolumeQuiesced → Vol_Owner v = "" →
      vol_step e v (v <| Vol_Handoff :=
        Some (mkVolumeHandoff (Vol_Node v) (observed e "to") HandoffQuiesced "" "") |>)
  | step_snapshot h v' :
      Ev_Kind e = EvidenceVolumeSnapshotted → Vol_Handoff v = Some h → Handoff_Phase h = HandoffQuiesced →
      observed e "checksum" ≠ "" →
      Vol_Node v' = Vol_Node v → Vol_Owner v' = Vol_Owner v → Vol_Generation v' = Vol_Generation v →
      Vol_Handoff v' = Some (h <| Handoff_Phase := HandoffSnapshotted |>
        <| Handoff_Snapshot := observed e "snapshot" |> <| Handoff_Checksum := observed e "checksum" |>) →
      vol_step e v v'
  | step_transfer h :
      Ev_Kind e = EvidenceVolumeTransferred → Vol_Handoff v = Some h → Handoff_Phase h = HandoffSnapshotted →
      observed e "checksum" = Handoff_Checksum h →
      vol_step e v (v <| Vol_Handoff := Some (h <| Handoff_Phase := HandoffTransferred |>) |>)
  | step_adopt h :
      Ev_Kind e = EvidenceVolumeAdopted → Vol_Handoff v = Some h → Handoff_Phase h = HandoffTransferred →
      observed e "node" = Handoff_To h →
      vol_step e v (v <| Vol_Node := Handoff_To h |> <| Vol_Generation ::= λ g, u64 (g + 1) |>
                      <| Vol_Handoff := None |>).

Lemma record_snapshot_frame v label checksum :
  Vol_Node (record_snapshot v label checksum) = Vol_Node v ∧
  Vol_Owner (record_snapshot v label checksum) = Vol_Owner v ∧
  Vol_Generation (record_snapshot v label checksum) = Vol_Generation v ∧
  Vol_Handoff (record_snapshot v label checksum) = Vol_Handoff v.
Proof. unfold record_snapshot. by case_bool_decide. Qed.

Lemma repair_last_frame v :
  Vol_Node (repair_last v) = Vol_Node v ∧ Vol_Owner (repair_last v) = Vol_Owner v ∧
  Vol_Generation (repair_last v) = Vol_Generation v ∧ Vol_Handoff (repair_last v) = Vol_Handoff v.
Proof. unfold repair_last. by case_bool_decide. Qed.

(** The entry of the volume evidence names, every other entry untouched. *)
Definition vol_update (w w' : World) (e : Evidence) : Prop :=
  Volumes w' = Volumes w ∨
  (Ev_Kind e = EvidenceVolumeCreated ∧ Volumes w !! Ev_Target e = None ∧
   Volumes w' = <[Ev_Target e := new_Volume (Ev_Target e) (observed e "node") (observedInt e "size_mb")]>
                  (Volumes w)) ∨
  ∃ v v', Volumes w !! Ev_Target e = Some v ∧ Volumes w' = <[Ev_Target e := v']> (Volumes w) ∧
    vol_step e v v'.

Lemma project_snapshotted_step w e w' :
  projectInto w e = Ok w' → Ev_Kind e = EvidenceVolumeSnapshotted → vol_update w w' e.
Proof.
  intros H Hk. unfold projectInto in H. rewrite Hk in H. unfold projectVolumeSnapshotted in H.
  inv_ok H. subst. right. right.
  destruct (record_snapshot_frame v (observed e "snapshot") (observed e "checksum")) as (Hn' & Ho' & Hg' & Hh).
  do 2 eexists. split; [done|]. split; [reflexivity|]. rewrite Hh.
  destruct (Vol_Handoff v) as [h|] eqn:Eh; [|by apply step_keep; congruence].
  destruct (bool_decide (Handoff_Phase h = HandoffQuiesced)) eqn:Hp; bool_simpl;
    [by eapply step_snapshot|by apply step_keep; congruence].
Qed.

#[local] Ltac vol_entry := right; do 2 eexists; (split; [eassumption|]); (split; [reflexivity|]).

Lemma project_volumes_shape w e w' : projectInto w e = Ok w' → vol_update w w' e.
Proof.
  intros H. destruct (decide (Ev_Kind e = EvidenceVolumeSnapshotted)) as [Hk|Hk];
    [by apply project_snapshotted_step|].
  unfold projectInto in H. destruct (Ev_Kind e) eqn:Ek; try done; autounfold with project in H;
    try (match type of H with match ?o with _ => _ end = _ => destruct o eqn:? end);
    inv_ok H; subst; unfold vol_update, detach_volume, put_alloc, put_node, put_volume, recordFailure;
    simpl_set; autorewrite with frame; simpl_set; try (by left); try (left; by repeat case_match);
    try (left; by apply applyReadiness_frame).
  all: right; bool_simpl.
  - left. split; [done|]. split; [by apply eq_None_not_Some|done].
  - vol_entry. match goal with H : _ && _ = false |- _ => apply andb_false_iff in H as [?|?] end;
      bool_simpl; apply step_attach; auto.
  - right. do 2 eexists. split; [eassumption|]. split; [by case_match|]. by apply step_detach.
  - vol_entry. by apply step_keep.
  - vol_entry. by apply step_keep.
  - vol_entry. by apply step_quiesce.
  - vol_entry. by apply step_transfer.
  - vol_entry. by apply step_adopt.
  - vol_entry.
    destruct (repair_last_frame (forget_snapshots v (splitLines (observed e "removed")))) as (? & ? & ? & ?).
    destruct (forget_snapshots_frame v (splitLines (observed e "removed"))) as (? & ? & ? & ? & _).
    apply step_keep; congruence.
  - vol_entry. by case_match; apply step_keep.
  - vol_entry. destruct (record_snapshot_frame v (observed e "label") (observed e "checksum")) as (? & ? & ? & ?).
    by apply step_keep.
Qed.

(** ** One writer per volume *)

(** Outside attachment, an allocation's attachments only shrink. *)
Lemma project_attachments w e w' :
  projectInto w e = Ok w' → Ev_Kind e ≠ EvidenceVolumeAttached →
  ∀ id b, Allocations w' !! id = Some b →
    Alloc_Volumes b = ∅ ∨ ∃ a, Allocations w !! id = Some a ∧ Alloc_Volumes b ⊆ Alloc_Volumes a.
Proof.
  intros H Hat id b Hb.
  destruct (decide (Ev_Kind e = EvidenceAllocationCreated)) as [Hk|Hc].
  { apply (project_created_inv _ _ _ H) in Hk as [->|(? & ? & _ & _ & _ & _ & Hal & _)]; [eauto|].
    rewrite Hal in Hb. apply lookup_insert_Some in Hb as [[_ <-]|[_ Hb]]; [by left|eauto]. }
  destruct (decide (Ev_Kind e = EvidenceAllocationDeleted)) as [Hk|Hd].
  { apply (project_deleted_inv _ _ _ H) in Hk as [[-> _]|(? & _ & _ & Hal & _)]; [eauto|].
    rewrite Hal in Hb. apply lookup_delete_Some in Hb as [_ Hb]. eauto. }
  enough (option_Forall2 (λ x y, Alloc_Volumes y ⊆ Alloc_Volumes x) (Allocations w !! id) (Allocations w' !! id))
    as Hs by (rewrite Hb in Hs; inversion Hs; subst; eauto).
  clear b Hb. unfold projectInto in H.
  destruct (Ev_Kind e); try done; autounfold with project in H;
    try (match type of H with match ?o with _ => _ end = _ => destruct o eqn:? end);
    inv_ok H; subst; unfold detach_volume, put_alloc, put_node, put_volume, recordFailure; simpl_set;
    autorewrite with frame; simpl_set;
    try first [ by apply option_Forall2_refl | by eapply insert_related; [done | eassumption | done] ].
  - case_match; simpl_set; [|by apply option_Forall2_refl].
    eapply insert_related; [done|eassumption|]. apply delete_subseteq.
  - destruct (applyReadiness_alloc w (Ev_Target e) a e) as (x & -> & ? & ? & ? & ? & ? & ? & ? & ? & Hv & _).
    eapply insert_related; [done|eassumption|]. by rewrite Hv.
  - destruct (applyReadiness_alloc w (Ev_Target e) a e) as (x & -> & ? & ? & ? & ? & ? & ? & ? & ? & Hv & _).
    eapply insert_related; [done|eassumption|]. by rewrite Hv.
  - eapply insert_related; [done|eassumption|]. by case_match.
  - eapply insert_related; [done|eassumption|]. by case_match.
Qed.

(** A step of a volume's life never goes back to an earlier owner's generation. *)
Lemma vol_step_later e v v' n :
  vol_step e v v' → Ev_Kind e ≠ EvidenceVolumeAttached → 0 <= Vol_Generation v <= n → n + 1 < two64 →
  later v v'.
Proof.
  intros Hs Hne Hg Hn. destruct Hs; try done; try (by right).
  - left. unfold release_ownership. simpl_set. rewrite (u64_succ n) by done. lia.
  - left. simpl_set. rewrite (u64_succ n) by done. lia.
Qed.

Lemma vol_step_generation e v v' :
  vol_step e v v' → Vol_Generation v' = Vol_Generation v ∨ Vol_Generation v' = u64 (Vol_Generation v + 1).
Proof. destruct 1; auto. unfold take_ownership. case_bool_decide; auto. Qed.

Lemma project_attached_inv w e w' :
  projectInto w e = Ok w' → Ev_Kind e = EvidenceVolumeAttached →
  ∃ v a, let v' := take_ownership v (observed e "allocation") in
    Volumes w !! Ev_Target e = Some v ∧ Allocations w !! observed e "allocation" = Some a ∧
    (Vol_Owner v = "" ∨ Vol_Owner v = observed e "allocation") ∧
    Volumes w' = <[Ev_Target e := v']> (Volumes w) ∧
    Allocations w' = <[observed e "allocation" :=
      a <| Alloc_Volumes ::= <[Ev_Target e := Vol_Generation v']> |>]> (Allocations w).
Proof.
  intros H Hk. unfold projectInto in H. rewrite Hk in H. unfold projectVolumeAttached in H. inv_ok H. subst.
  do 2 eexists. split; [done|]. split; [done|]. split; [|done].
  match goal with H : _ && _ = false |- _ => apply andb_false_iff in H as [?|?] end; bool_simpl; auto.
Qed.

Lemma project_generations n w e w' :
  projectInto w e = Ok w' → 0 <= n → n + 1 < two64 → generations_upto n (Volumes w) →
  generations_upto (n + 1) (Volumes w').
Proof.
  intros H H0 Hn Hg. eapply generations_step; [|done..|exact Hg]. intros vol x Hx.
  destruct (project_volumes_shape _ _ _ H) as [Heq|[(_ & _ & Heq)|(v & v' & Hv & Heq & Hs)]]; rewrite Heq in Hx.
  - eauto.
  - apply lookup_insert_Some in Hx as [[_ <-]|[_ Hx]]; [left; simpl; lia|eauto].
  - apply lookup_insert_Some in Hx as [[<- <-]|[_ Hx]]; [|eauto].
    right. exists v. split; [done|]. by eapply vol_step_generation.
Qed.

Lemma fenced_project n w e w' :
  projectInto w e = Ok w' → 0 <= n → n + 1 < two64 → generations_upto n (Volumes w) →
  fenced (Allocations w) (Volumes w) → fenced (Allocations w') (Volumes w').
Proof.
  intros H H0 Hn Hg Hf. destruct (decide (Ev_Kind e = EvidenceVolumeAttached)) as [Hk|Hk].
  { apply (project_attached_inv _ _ _ H) in Hk as (v & a & Hv & Ha & Ho & -> & ->).
    by apply (fenced_attach n). }
  eapply fenced_shrink; [by eapply project_attachments| |exact Hf]. intros vol x Hx.
  destruct (project_volumes_shape _ _ _ H) as [->|[(_ & Hnone & ->)|(v & v' & Hv & -> & Hs)]].
  - exists x. split; [done|apply later_refl].
  - exists x. rewrite lookup_insert_ne by congruence. split; [done|apply later_refl].
  - destruct (decide (vol = Ev_Target e)) as [->|Hne].
    + rewrite lookup_insert_eq. exists v'. split; [done|]. rewrite Hv in Hx. injection Hx as <-.
      by eapply vol_step_later; eauto.
    + rewrite lookup_insert_ne by done. exists x. split; [done|apply later_refl].
Qed.

Definition fence_state (n : Z) (w : World) : Prop :=
  fenced (Allocations w) (Volumes w) ∧ generations_upto n (Volumes w).

Lemma history_fence_state evidence n w w' :
  0 <= n → n + len evidence < two64 → fence_state n w → projectAll w evidence = Ok w' →
  fence_state (n + len evidence) w'.
Proof.
  unfold len. revert n w. induction evidence as [|e l IH]; intros n w H0 Hn Hw H.
  - injection H as <-. simpl. by rewrite Z.add_0_r.
  - cbn [length] in *. unfold projectAll in H. cbn [for_each] in H.
    destruct (Project w e) as [w1|] eqn:E; [|done].
    replace (n + Z.of_nat (S (length l))) with (n + 1 + Z.of_nat (length l)) by lia.
    apply (IH (n + 1) w1); [lia..| |exact H].
    apply Project_inv in E as (m & E & _ & HA & HV & _). destruct Hw as [Hf Hg].
    split; rewrite ?HA, ?HV; [by eapply (fenced_project n); eauto; lia|by eapply project_generations; eauto; lia].
Qed.

(** C3: a volume never has two writers.  After any history of fewer than 2^64
    observations, at most one allocation holds the current generation of a volume,
    and it is the allocation the volume names as its owner; every other attachment on
    record is of an older generation, which the start validator refuses. *)
Theorem history_single_writer w evidence w' vol id id'
    (Hw : fence_state 0 w) (Hlen : len evidence < two64) (H : projectAll w evidence = Ok w')
    (Hid : writer (Allocations w') (Volumes w') vol id)
    (Hid' : writer (Allocations w') (Volumes w') vol id') :
  id = id' ∧ Vol_Owner <$> Volumes w' !! vol = Some id.
Proof.
  destruct (history_fence_state evidence 0 w w') as [Hf _]; [lia..|done|done|].
  split; [by eapply fenced_single_writer|].
  destruct Hid as (a & v & Ha & Hv & Hg). destruct (Hf _ _ _ _ Ha Hg) as (u & Hu & _ & Ho).
  rewrite Hv in Hu. injection Hu as <-. rewrite Hv. simpl. by rewrite Ho.
Qed.

(** ** Moving a volume *)

(** The evidence of one complete move of [vol] to [to]: quiesced for that target,
    snapshotted, transferred with the snapshot's checksum reproduced, adopted there. *)
Definition quiesced_for (vol to : string) (q : Evidence) : Prop :=
  Ev_Kind q = EvidenceVolumeQuiesced ∧ Ev_Target q = vol ∧ observed q "to" = to.
Definition snapshotted_as (vol sum : string) (s : Evidence) : Prop :=
  Ev_Kind s = EvidenceVolumeSnapshotted ∧ Ev_Target s = vol ∧ observed s "checksum" = sum ∧ sum ≠ "".
Definition transferred_as (vol sum : string) (t : Evidence) : Prop :=
  Ev_Kind t = EvidenceVolumeTransferred ∧ Ev_Target t = vol ∧ observed t "checksum" = sum.
Definition adopted_by (vol node : string) (a : Evidence) : Prop :=
  Ev_Kind a = EvidenceVolumeAdopted ∧ Ev_Target a = vol ∧ observed a "node" = node.

Definition complete_move (l : list Evidence) (vol to : string) : Prop :=
  ∃ q s t a sum, [q; s; t; a] `sublist_of` l ∧ quiesced_for vol to q ∧ snapshotted_as vol sum s ∧
    transferred_as vol sum t ∧ adopted_by vol to a.

(** How far a handoff has come, read off the evidence seen so far. *)
Definition handoff_evidence (l : list Evidence) (vol : string) (h : VolumeHandoff) : Prop :=
  match Handoff_Phase h with
  | HandoffQuiesced => ∃ q, [q] `sublist_of` l ∧ quiesced_for vol (Handoff_To h) q
  | HandoffSnapshotted => ∃ q s, [q; s] `sublist_of` l ∧ quiesced_for vol (Handoff_To h) q ∧
      snapshotted_as vol (Handoff_Checksum h) s
  | HandoffTransferred => ∃ q s t, [q; s; t] `sublist_of` l ∧ quiesced_for vol (Handoff_To h) q ∧
      snapshotted_as vol (Handoff_Checksum h) s ∧ transferred_as vol (Handoff_Checksum h) t
  | _ => False
  end.

Record traced (l : list Evidence) (vol : string) (node0 : string) (v : Volume) : Prop := {
  tr_handoff : ∀ h, Vol_Handoff v = Some h → handoff_evidence l vol h;
  tr_node : Vol_Node v ≠ node0 → complete_move l vol (Vol_Node v) }.

Lemma sublist_snoc {A} (k l : list A) (x : A) : k `sublist_of` l → (k ++ [x]) `sublist_of` (l ++ [x]).
Proof. intros H. by apply sublist_app. Qed.

Lemma sublist_weaken {A} (k l : list A) (x : A) : k `sublist_of` l → k `sublist_of` (l ++ [x]).
Proof. intros H. by apply sublist_inserts_r. Qed.
#[local] Hint Resolve sublist_weaken : core.

Lemma handoff_evidence_weaken l vol h e : handoff_evidence l vol h → handoff_evidence (l ++ [e]) vol h.
Proof. unfold handoff_evidence. destruct (Handoff_Phase h); naive_solver eauto. Qed.

Lemma complete_move_weaken l vol to e : complete_move l vol to → complete_move (l ++ [e]) vol to.
Proof. unfold complete_move. naive_solver eauto 10. Qed.

Lemma traced_same l vol node0 v v' e :
  traced l vol node0 v → Vol_Node v' = Vol_Node v → Vol_Handoff v' = Vol_Handoff v →
  traced (l ++ [e]) vol node0 v'.
Proof.
  intros [Hh Hn] En Eh. split.
  - intros h. rewrite Eh. intros Hs. by apply handoff_evidence_weaken, Hh.
  - rewrite En. intros Hne. by apply complete_move_weaken, Hn.
Qed.

Lemma traced_step l vol node0 v v' e :
  traced l vol node0 v → Ev_Target e = vol → vol_step e v v' → traced (l ++ [e]) vol node0 v'.
Proof.
  intros Ht <- Hs. pose proof Ht as [Hh Hn]. destruct Hs as
    [v' ? ? ? ?|Hk Ho|Hk|Hk Ho|h v' Hk Ho Hp Hsum En ? ? Eh|h Hk Ho Hp Hsum|h Hk Ho Hp Hnode].
  - by eapply traced_same.
  - eapply traced_same; [done|..]; unfold take_ownership; by case_bool_decide.
  - by eapply traced_same.
  - split; simpl_set; [|intros; by apply complete_move_weaken, Hn].
    intros h [= <-]. exists e. split; [|done]. by apply (sublist_snoc []), sublist_nil_l.
  - split; [|rewrite En; intros; by apply complete_move_weaken, Hn].
    rewrite Eh. intros ? [= <-]. specialize (Hh h Ho). unfold handoff_evidence in *. rewrite Hp in Hh.
    destruct Hh as (q & Hq & Hq'). exists q, e. split; [by apply (sublist_snoc [q])|]. by split.
  - split; simpl_set; [|intros; by apply complete_move_weaken, Hn].
    intros ? [= <-]. specialize (Hh h Ho). unfold handoff_evidence in *. rewrite Hp in Hh.
    destruct Hh as (q & s & Hq & Hq' & Hs'). exists q, s, e.
    split; [by apply (sublist_snoc [q; s])|]. by split.
  - split; simpl_set; [done|]. intros _. specialize (Hh h Ho). unfold handoff_evidence in Hh.
    rewrite Hp in Hh. destruct Hh as (q & s & t & Hq & Hq' & Hs' & Ht').
    exists q, s, t, e, (Handoff_Checksum h). split; [by apply (sublist_snoc [q; s; t])|]. do 3 (split; [done|]). by split.
Qed.

(** C36: a volume changes node only by a complete, verified handoff.  If a history
    takes a volume from one node to another, then somewhere in it, in this order, the
    volume was quiesced for that node, snapshotted, transferred with exactly the
    snapshot's checksum reproduced, and adopted by that node. *)
Theorem history_moves_verified w evidence w' vol v v'
    (Hv : Volumes w !! vol = Some v) (Hh : Vol_Handoff v = None)
    (H : projectAll w evidence = Ok w') (Hv' : Volumes w' !! vol = Some v')
    (Hmoved : Vol_Node v' ≠ Vol_Node v) :
  complete_move evidence vol (Vol_Node v').
Proof.
  enough (∃ u, Volumes w' !! vol = Some u ∧ traced evidence vol (Vol_Node v) u) as (u & Hu & Ht).
  { rewrite Hv' in Hu. injection Hu as <-. by apply Ht. }
  clear Hv' Hmoved v'. revert w' H. induction evidence as [|e l IH] using rev_ind; intros w' H.
  - injection H as <-. exists v. split; [done|]. split; [congruence|done].
  - unfold projectAll in H. rewrite for_each_app in H.
    destruct (for_each Project w l) as [w1|] eqn:E; [|done]. destruct (IH w1 E) as (u & Hu & Ht).
    cbn [rbind for_each] in H. destruct (Project w1 e) as [w2|] eqn:E2; [|done]. injection H as <-.
    apply Project_inv in E2 as (m & Hm & _ & _ & HV & _). rewrite HV.
    destruct (project_volumes_shape _ _ _ Hm) as [->|[(_ & Hnone & ->)|(x & x' & Hx & -> & Hs)]].
    + exists u. split; [done|]. by eapply traced_same.
    + exists u. rewrite lookup_insert_ne by congruence. split; [done|]. by eapply traced_same.
    + destruct (decide (vol = Ev_Target e)) as [->|Hne].
      * rewrite Hu in Hx. injection Hx as <-. exists x'. rewrite lookup_insert_eq. split; [done|].
        by eapply traced_step.
      * exists u. rewrite lookup_insert_ne by done. split; [done|]. by eapply traced_same.
Qed.

(** ** Concrete histories *)

Definition evidence (kind : EvidenceKind) (target : string) (at_ : time) (fields : list (string * string))
    : Evidence :=
  mkEvidence kind target "n1" at_ time_zero (list_to_map fields).

Definition plain_node (id : string) : Node :=
  mkNode id ∅ (mkResources 4000 8192) Resources_zero ∅ true "" false "" "" 0 "" "" ∅ Budget_zero Budget_zero.
Definition empty_world : World :=
  mkWorld 0 0 (<["n1" := plain_node "n1"]> (<["n2" := plain_node "n2"]> ∅)) ∅ ∅ ∅ ∅ ∅ ∅ [] ∅.

Definition create_evidence (id : string) (at_ : time) : Evidence :=
  evidence EvidenceAllocationCreated id at_
    [("node", "n1"); ("workload", "db"); ("replica", "0"); ("image", "db@sha256:00");
     ("cpu_millis", "500"); ("memory_mb", "256")].
Definition serving_history : list Evidence :=
  [create_evidence "db-0" 1;
   evidence EvidenceVolumeCreated "data" 2 [("node", "n1")];
   evidence EvidenceVolumeAttached "data" 3 [("allocation", "db-0")];
   evidence EvidenceAllocationRunning "db-0" 4 [];
   evidence EvidenceAllocationReady "db-0" 5 [("ready", "true")]].
Definition run (w : World) (l : list Evidence) : World :=
  match projectAll w l with Ok w' => w' | Err _ => w end.
Definition serving_world : World := Eval vm_compute in run empty_world serving_history.

Lemma empty_allocations id : Allocations empty_world !! id = None.
Proof. apply lookup_empty. Qed.
Lemma empty_volumes id : Volumes empty_world !! id = None.
Proof. apply lookup_empty. Qed.

Lemma empty_fence_state : fence_state 0 empty_world.
Proof.
  split; [intros id a vol gen Ha Hg|intros vol v Ha]; by rewrite ?empty_allocations, ?empty_volumes in Ha.
Qed.

Lemma history_ready_running_witness : ready_running serving_world.
Proof.
  refine (history_ready_running empty_world serving_history serving_world _ ltac:(vm_compute; reflexivity)).
  intros id a Ha. rewrite empty_allocations in Ha. discriminate.
Defined.

Lemma history_single_writer_witness :
  "db-0" = "db-0" ∧ Vol_Owner <$> Volumes serving_world !! "data" = Some "db-0".
Proof.
  refine (history_single_writer empty_world serving_history serving_world "data" "db-0" "db-0"
    empty_fence_state _ _ _ _); [reflexivity|vm_compute; reflexivity|..];
    (do 2 eexists; split; [vm_compute; reflexivity|]; split; vm_compute; reflexivity).
Defined.

Definition move_history : list Evidence :=
  [evidence EvidenceAllocationStopped "db-0" 6 [];
   evidence EvidenceVolumeDetached "data" 7 [("allocation", "db-0")];
   evidence EvidenceVolumeQuiesced "data" 8 [("to", "n2")];
   evidence EvidenceVolumeSnapshotted "data" 9 [("snapshot", "s1"); ("checksum", "c1")];
   evidence EvidenceVolumeTransferred "data" 10 [("checksum", "c1")];
   evidence EvidenceVolumeAdopted "data" 11 [("node", "n2")]].
Definition moved_world : World := Eval vm_compute in run serving_world move_history.

Lemma history_moves_verified_witness : complete_move move_history "data" "n2".
Proof.
  destruct (Volumes serving_world !! "data") as [v|] eqn:Ev; [|vm_compute in Ev; discriminate Ev].
  destruct (Volumes moved_world !! "data") as [v'|] eqn:Ev'; [|vm_compute in Ev'; discriminate Ev'].
  pose proof Ev as Hv. pose proof Ev' as Hv'.
  vm_compute in Ev, Ev'. injection Ev as <-. injection Ev' as <-.
  exact (history_moves_verified serving_world move_history moved_world "data" _ _ Hv eq_refl
    ltac:(vm_compute; reflexivity) Hv' ltac:(discriminate)).
Defined.

Lemma empty_accounted : accounted (Nodes empty_world) (Allocations empty_world).
Proof.
  split.
  - apply (bool_decide_unpack (map_Forall (λ id n, Node_ID n = id) (Nodes empty_world))). vm_compute. exact I.
  - intros id a Ha. rewrite empty_allocations in Ha. discriminate.
  - apply (bool_decide_unpack (map_Forall (λ id n, CPUMillis (Node_Used n) = load CPUMillis ∅ id)
      (Nodes empty_world))). vm_compute. exact I.
  - apply (bool_decide_unpack (map_Forall (λ id n, MemoryMB (Node_Used n) = load MemoryMB ∅ id)
      (Nodes empty_world))). vm_compute. exact I.
  - by intros.
Qed.

Definition created_world : World := Eval vm_compute in run empty_world [create_evidence "db-0" 1].

Lemma project_accounted_witness : accounted (Nodes created_world) (Allocations created_world).
Proof.
  refine (project_accounted empty_world (create_evidence "db-0" 1) created_world empty_accounted _
    ltac:(vm_compute; reflexivity)).
  intros _ r Hr. vm_compute in Hr. injection Hr as <-. vm_compute. by split.
Defined.
