(* ===== verification/Replay.v ===== *)
(** * Replaying evidence

    Crash recovery replays actions, so evidence can arrive twice.  This file proves
    which kinds are idempotent, exhibits the ones that are not, and states what a step
    does to the revision and the clock that proposals and freshness are judged by. *)

From S2P Require Import Prelude Types Text Spread Snapshots Policy Simulate Clone Capacity Fencing Disruption Projection History.
Open Scope Z_scope.

(** ** Repeated writes *)

Lemma world_eq (w w' : World) :
  Revision w = Revision w' → ObservedAt w = ObservedAt w' → Nodes w = Nodes w' →
  Allocations w = Allocations w' → Routes w = Routes w' → Volumes w = Volumes w' → Queues w = Queues w' →
  Approvals w = Approvals w' → KnownGood w = KnownGood w' → Disruptions w = Disruptions w' →
  BackoffState w = BackoffState w' → w = w'.
Proof. destruct w, w'. cbn. congruence. Qed.

Lemma put_node_put w k n m : put_node (put_node w k n) k m = put_node w k m.
Proof. destruct w. unfold put_node, set. cbn. by rewrite insert_insert_eq. Qed.
Lemma put_alloc_put w k n m : put_alloc (put_alloc w k n) k m = put_alloc w k m.
Proof. destruct w. unfold put_alloc, set. cbn. by rewrite insert_insert_eq. Qed.
Lemma put_volume_put w k n m : put_volume (put_volume w k n) k m = put_volume w k m.
Proof. destruct w. unfold put_volume, set. cbn. by rewrite insert_insert_eq. Qed.
Lemma put_node_lookup w k n : Nodes (put_node w k n) !! k = Some n.
Proof. unfold put_node. simpl_set. by rewrite lookup_insert_eq. Qed.
Lemma put_alloc_lookup w k n : Allocations (put_alloc w k n) !! k = Some n.
Proof. unfold put_alloc. simpl_set. by rewrite lookup_insert_eq. Qed.
Lemma put_volume_lookup w k n : Volumes (put_volume w k n) !! k = Some n.
Proof. unfold put_volume. simpl_set. by rewrite lookup_insert_eq. Qed.

Lemma put_node_id w k n : Nodes w !! k = Some n → put_node w k n = w.
Proof. intros H. destruct w. unfold put_node, set. cbn in *. by rewrite insert_id. Qed.
Lemma put_alloc_id w k n : Allocations w !! k = Some n → put_alloc w k n = w.
Proof. intros H. destruct w. unfold put_alloc, set. cbn in *. by rewrite insert_id. Qed.
Lemma put_volume_id w k n : Volumes w !! k = Some n → put_volume w k n = w.
Proof. intros H. destruct w. unfold put_volume, set. cbn in *. by rewrite insert_id. Qed.

Lemma put_volume_Nodes w k v : Nodes (put_volume w k v) = Nodes w. Proof. done. Qed.
Lemma put_node_Allocations w k v : Allocations (put_node w k v) = Allocations w. Proof. done. Qed.

Create Rewrite HintDb writes.
#[export] Hint Rewrite put_node_put put_alloc_put put_volume_put put_node_lookup put_alloc_lookup
  put_volume_lookup put_volume_Nodes put_node_Allocations @lookup_insert_eq @insert_insert_eq : writes.

(** ** Which evidence may be replayed *)

(** Every kind but those whose handlers count, advance or consume something; a prune
    consumes one entry of the snapshot order per name it lists. *)
Definition replay_safe (k : EvidenceKind) : bool :=
  match k with
  | EvidenceVolumeDetached | EvidenceVolumeTransferred | EvidenceVolumeAdopted
  | EvidenceAllocationFailed | EvidenceAllocationDrained | EvidenceSnapshotsPruned => false
  | _ => true
  end.

(** Readiness evidence that was still good when it was made. *)
Definition fresh_when_made (e : Evidence) : bool := Evidence_Fresh e (Ev_ObservedAt e).

(** Read back what was just written, and write it again. *)
Ltac rewrite_known :=
  repeat match goal with
  | H : ?b = true |- context [?b] => rewrite H
  | H : ?b = false |- context [?b] => rewrite H
  | H : ?m = Ok _ |- context [?m] => rewrite H
  | H : ?m = Some _ |- context [?m] => rewrite H
  | H : ?m = None |- context [?m] => rewrite H
  end.
Ltac replay :=
  autorewrite with writes; simpl_set; rewrite_known; try done; do 2 f_equal;
  unfold set; cbn; by rewrite ?insert_insert_eq.

Lemma take_ownership_twice v o : take_ownership (take_ownership v o) o = take_ownership v o.
Proof.
  unfold take_ownership at 1. rewrite bool_decide_false; [done|]. intros H. apply H.
  unfold take_ownership. by case_bool_decide.
Qed.

Lemma take_ownership_owner v o : Vol_Owner (take_ownership v o) = o.
Proof. unfold take_ownership. by case_bool_decide. Qed.

Lemma replay_attached w e w' : projectVolumeAttached w e = Ok w' → projectVolumeAttached w' e = Ok w'.
Proof.
  unfold projectVolumeAttached. intros H. inv_ok H. subst. 
  unfold put_volume, put_alloc. simpl_set. rewrite lookup_insert_eq. rewrite_known.
  rewrite lookup_insert_eq. rewrite take_ownership_owner, take_ownership_twice.
  rewrite (bool_decide_false (_ ≠ observed e "allocation")) by auto. rewrite andb_false_r. f_equal.
  destruct w. unfold set. cbn. by rewrite !insert_insert_eq.
Qed.

Lemma record_snapshot_recorded v label sum :
  Vol_Snapshots (record_snapshot v label sum) !! label = Some sum ∧
  Vol_LastSnapshot (record_snapshot v label sum) = label.
Proof. unfold record_snapshot. simpl_set. by rewrite lookup_insert_eq. Qed.

(** Recording a snapshot again under its own checksum changes nothing. *)
Lemma record_snapshot_known v label sum :
  Vol_Snapshots v !! label = Some sum → Vol_LastSnapshot v = label → record_snapshot v label sum = v.
Proof.
  intros Hs Hl. unfold record_snapshot. rewrite bool_decide_true by (rewrite Hs; eauto).
  destruct v. unfold set. cbn in *. subst. by rewrite insert_id.
Qed.

Lemma record_snapshot_twice v label sum :
  record_snapshot (record_snapshot v label sum) label sum = record_snapshot v label sum.
Proof.
  destruct (record_snapshot_recorded v label sum) as [Hs Hl]. by apply record_snapshot_known.
Qed.

Lemma replay_snapshotted w e w' : projectVolumeSnapshotted w e = Ok w' → projectVolumeSnapshotted w' e = Ok w'.
Proof.
  unfold projectVolumeSnapshotted. intros H. inv_ok H. subst. autorewrite with writes. rewrite_known.
  destruct (record_snapshot_recorded v (observed e "snapshot") (observed e "checksum")) as [Hs Hl].
  set (v1 := record_snapshot v (observed e "snapshot") (observed e "checksum")) in *.
  set (v2 := match Vol_Handoff v1 with Some h => _ | None => v1 end).
  assert (Vol_Snapshots v2 = Vol_Snapshots v1 ∧ Vol_LastSnapshot v2 = Vol_LastSnapshot v1) as [Es El]
    by (unfold v2; by repeat case_match).
  rewrite Es, Hs, bool_decide_false by auto. rewrite record_snapshot_known by congruence. do 2 f_equal.
  destruct (Vol_Handoff v2) as [h|] eqn:E; [|done]. rewrite bool_decide_false; [done|]. intros Hp.
  unfold v2 in E. destruct (Vol_Handoff v1) as [h1|] eqn:E1; [|congruence].
  destruct (bool_decide (Handoff_Phase h1 = HandoffQuiesced)) eqn:Ep.
  - simpl_set. injection E as <-. done.
  - bool_simpl. congruence.
Qed.

Lemma replay_database w e w' : projectDatabaseBackedUp w e = Ok w' → projectDatabaseBackedUp w' e = Ok w'.
Proof.
  unfold projectDatabaseBackedUp. intros H. inv_ok H. subst. autorewrite with writes. rewrite_known.
  by rewrite record_snapshot_twice.
Qed.

Lemma replay_verified w e w' : projectBackupVerified w e = Ok w' → projectBackupVerified w' e = Ok w'.
Proof.
  unfold projectBackupVerified. intros H. destruct (Volumes w !! Ev_Target e) as [v|] eqn:Ev; [|done].
  inv_ok H; subst; [by rewrite Ev; rewrite_known|]. autorewrite with writes. rewrite_known.
  by destruct (negb _); simpl_set; rewrite_known.
Qed.

Lemma replay_stopped w e w' : projectAllocationStopped w e = Ok w' → projectAllocationStopped w' e = Ok w'.
Proof.
  unfold projectAllocationStopped. intros H. inv_ok H. subst. autorewrite with writes.
  rewrite recordDisruption_stopped by done. by autorewrite with writes.
Qed.

Lemma replay_deleted w e w' : projectAllocationDeleted w e = Ok w' → projectAllocationDeleted w' e = Ok w'.
Proof.
  unfold projectAllocationDeleted. intros H. destruct (Allocations w !! Ev_Target e) as [a|] eqn:Ea; inv_ok H; subst.
  - simpl_set. by rewrite lookup_delete_eq.
  - by rewrite Ea.
Qed.

Lemma Budget_ltb_irrefl b : (Tokens b <? Tokens b) || (CostMillis b <? CostMillis b) = false.
Proof. by rewrite !Z.ltb_irrefl. Qed.

Lemma replay_spent w e w' : projectAgentSpent w e = Ok w' → projectAgentSpent w' e = Ok w'.
Proof.
  unfold projectAgentSpent. intros H. destruct (Allocations w !! Ev_Target e) as [a|] eqn:Ea; [|done].
  inv_ok H; subst; [by rewrite Ea; rewrite_known|]. autorewrite with writes.
  set (a1 := a <| Alloc_Spent := observedBudget e |>).
  destruct (Exhausted a1) eqn:Ex; simpl_set; rewrite Budget_ltb_irrefl.
  - change (Exhausted _) with (Exhausted a1). by rewrite Ex.
  - change (Exhausted _) with (Exhausted a1). by rewrite Ex.
Qed.

Lemma replay_draining w e w' : projectAgentDraining w e = Ok w' → projectAgentDraining w' e = Ok w'.
Proof.
  unfold projectAgentDraining. intros H. inv_ok H. subst. autorewrite with writes. by case_match.
Qed.

Lemma replay_provider w e w' : projectProviderReachable w e = Ok w' → projectProviderReachable w' e = Ok w'.
Proof.
  unfold projectProviderReachable. intros H. destruct (Nodes w !! observed e "node") as [n|] eqn:En; [|done].
  inv_ok H; subst; [by rewrite En; rewrite_known|]. autorewrite with writes. rewrite_known. simpl_set.
  rewrite lookup_insert_eq. cbn [Reach_ObservedAt]. unfold Before. rewrite Z.ltb_irrefl, andb_false_r.
  do 2 f_equal. unfold set. cbn. by rewrite insert_insert_eq.
Qed.

Lemma collect_images n l :
  foldl (λ n image, n <| Node_Images ::= delete image |>) n l =
  n <| Node_Images := foldl (λ m image, delete image m) (Node_Images n) l |>.
Proof.
  revert n. induction l as [|i l IH]; intros n; [by destruct n|]. simpl. rewrite IH. by destruct n.
Qed.

Lemma foldl_delete_lookup {A} (m : gmap string A) l k :
  foldl (λ m i, delete i m) m l !! k = if bool_decide (k ∈ l) then None else m !! k.
Proof.
  revert m. induction l as [|i l IH]; intros m; [done|]. simpl. rewrite IH.
  destruct (decide (k ∈ l)) as [Hk|Hk]; [rewrite !bool_decide_true; [done|by right|done]|].
  rewrite (bool_decide_false (k ∈ l)) by done. destruct (decide (i = k)) as [->|Hd].
  - rewrite lookup_delete_eq, bool_decide_true; [done|by left].
  - rewrite lookup_delete_ne, bool_decide_false; [done| |done]. rewrite elem_of_cons. naive_solver.
Qed.

Lemma replay_collected w e w' : projectImagesCollected w e = Ok w' → projectImagesCollected w' e = Ok w'.
Proof.
  unfold projectImagesCollected. intros H. inv_ok H. subst. autorewrite with writes. do 2 f_equal.
  rewrite !collect_images. simpl_set. unfold set. cbn. f_equal. apply map_eq. intros k.
  rewrite !foldl_delete_lookup. by destruct (bool_decide _).
Qed.

(** The record a readiness observation leaves. *)
Definition readied (a : Allocation) (e : Evidence) : Allocation :=
  let ready := bool_decide (observed e "ready" = "true") in
  let lapsed := negb (Alloc_Ready a) ||
                (negb (IsZero (Alloc_ReadyExpiresAt a)) &&
                 negb (Before (Ev_ObservedAt e) (Alloc_ReadyExpiresAt a))) in
  let a := if negb ready then a <| Alloc_ReadySince := time_zero |>
           else if lapsed || IsZero (Alloc_ReadySince a) then a <| Alloc_ReadySince := Ev_ObservedAt e |> else a in
  a <| Alloc_Ready := ready |> <| Alloc_ReadyExpiresAt := Ev_ExpiresAt e |>.

Lemma readied_twice a e : fresh_when_made e = true → readied (readied a e) e = readied a e.
Proof.
  unfold fresh_when_made, Evidence_Fresh. intros Hf. unfold readied at 1 3.
  destruct (bool_decide (observed e "ready" = "true")) eqn:Er.
  2:{ cbn [negb]. unfold readied. rewrite Er. cbn [negb]. by destruct a. }
  cbn [negb]. unfold readied. rewrite Er. cbn [negb]. simpl_set. cbn [negb orb].
  assert (negb (IsZero (Ev_ExpiresAt e)) && negb (Before (Ev_ObservedAt e) (Ev_ExpiresAt e)) = false) as ->.
  { destruct (IsZero (Ev_ExpiresAt e)); [done|]. simpl in *. by rewrite Hf. }
  cbn [orb]. destruct (_ || IsZero (Alloc_ReadySince a)) eqn:El.
  - simpl_set. destruct (IsZero (Ev_ObservedAt e)); by destruct a.
  - simpl_set. apply orb_false_iff in El as [_ ->]. by destruct a.
Qed.

Lemma applyReadiness_readied w key a e :
  applyReadiness w key a e =
  let w := put_alloc w key (readied a e) in
  if bool_decide (observed e "ready" = "true")
  then (clearBackoff w (Alloc_ID a)) <| KnownGood ::= <[Alloc_Workload a := Alloc_Image a]> |> else w.
Proof.
  unfold applyReadiness, readied. destruct (bool_decide _); cbn [negb]; [|done]. by destruct (_ || _).
Qed.

Lemma readied_frame a e :
  Alloc_ID (readied a e) = Alloc_ID a ∧ Alloc_Workload (readied a e) = Alloc_Workload a ∧
  Alloc_Image (readied a e) = Alloc_Image a ∧ Alloc_Phase (readied a e) = Alloc_Phase a.
Proof. unfold readied. destruct (bool_decide _); cbn [negb]; [|done]. by destruct (_ || _). Qed.

Lemma replay_ready w e w' :
  fresh_when_made e = true → projectReady w e = Ok w' → projectReady w' e = Ok w'.
Proof.
  intros Hf. unfold projectReady. intros H. inv_ok H. subst. rewrite applyReadiness_readied.
  destruct (readied_frame a e) as (Hid & Hw & Hi & Hp).
  set (w1 := put_alloc w (Ev_Target e) (readied a e)). cbv zeta.
  assert (∀ f, Allocations (if bool_decide (observed e "ready" = "true")
     then (clearBackoff w1 (Alloc_ID a)) <| KnownGood ::= f |> else w1) !! Ev_Target e
     = Some (readied a e)) as ->.
  { intros f. unfold w1, clearBackoff. destruct (bool_decide (observed e "ready" = "true")); apply (put_alloc_lookup w). }
  rewrite Hp, Hb. rewrite applyReadiness_readied, readied_twice, Hid, Hw, Hi by done. cbv zeta.
  destruct (bool_decide (observed e "ready" = "true")); unfold w1.
  - f_equal. generalize (readied a e) (Alloc_ID a) (Alloc_Workload a) (Alloc_Image a) (Ev_Target e). clear.
    intros b id wl image k. apply world_eq; try done; cbn.
    + by rewrite insert_insert_eq.
    + by rewrite insert_insert_eq.
    + by rewrite delete_delete_eq.
  - by autorewrite with writes.
Qed.

Lemma project_replay w e w' :
  projectInto w e = Ok w' → replay_safe (Ev_Kind e) = true → fresh_when_made e = true →
  projectInto w' e = Ok w'.
Proof.
  intros H Hs Hfresh. unfold projectInto in *.
  destruct (Ev_Kind e) eqn:Ek; try discriminate Hs;
    lazymatch goal with
    | |- projectVolumeAttached _ _ = _ => by eapply replay_attached
    | |- projectVolumeSnapshotted _ _ = _ => by eapply replay_snapshotted
    | |- projectDatabaseBackedUp _ _ = _ => by eapply replay_database
    | |- projectBackupVerified _ _ = _ => by eapply replay_verified
    | |- projectAllocationStopped _ _ = _ => by eapply replay_stopped
    | |- projectAllocationDeleted _ _ = _ => by eapply replay_deleted
    | |- projectAgentSpent _ _ = _ => by eapply replay_spent
    | |- projectAgentDraining _ _ = _ => by eapply replay_draining
    | |- projectProviderReachable _ _ = _ => by eapply replay_provider
    | |- projectImagesCollected _ _ = _ => by eapply replay_collected
    | |- projectReady _ _ = _ => by eapply replay_ready
    | |- _ => idtac
    end;
    pose proof H as H0; autounfold with project in *;
    try (match type of H with match ?o with _ => _ end = _ => destruct o eqn:? end);
    inv_ok H; subst; try exact H0; clear H0; try replay.
  all: rewrite_known; try done; destruct w; unfold set; cbn; rewrite ?lookup_insert_eq; cbn;
    by rewrite ?insert_insert_eq, ?delete_delete_eq.
Qed.

(** The revision and the clock are set after the handlers run, and no handler reads
    either. *)
Definition stamp (r : Z) (t : time) (w : World) : World := w <| Revision := r |> <| ObservedAt := t |>.

Lemma recordDisruption_stamp r t w a k u :
  recordDisruption (stamp r t w) a k u = stamp r t (recordDisruption w a k u).
Proof. unfold recordDisruption, stamp. simpl_set. by repeat case_match. Qed.

Lemma deleted_stamp r t w e :
  projectAllocationDeleted (stamp r t w) e = let* n := projectAllocationDeleted w e in Ok (stamp r t n).
Proof.
  unfold projectAllocationDeleted. change (Allocations (stamp r t w)) with (Allocations w).
  change (Nodes (stamp r t w)) with (Nodes w).
  destruct (Allocations w !! Ev_Target e) as [a|]; [|done]. destruct (Nodes w !! Alloc_Node a) as [n|].
  - change (put_node (stamp r t w) ?k ?m) with (stamp r t (put_node w k m)). by rewrite recordDisruption_stamp.
  - by rewrite recordDisruption_stamp.
Qed.

Lemma failed_stamp r t w e :
  projectAllocationFailed (stamp r t w) e = let* n := projectAllocationFailed w e in Ok (stamp r t n).
Proof.
  unfold projectAllocationFailed. change (Allocations (stamp r t w)) with (Allocations w).
  by destruct (Allocations w !! Ev_Target e).
Qed.

Lemma drained_stamp r t w e :
  projectAllocationDrained (stamp r t w) e = let* n := projectAllocationDrained w e in Ok (stamp r t n).
Proof.
  unfold projectAllocationDrained. change (Allocations (stamp r t w)) with (Allocations w).
  destruct (Allocations w !! Ev_Target e) as [a|]; [|done].
  change (put_alloc (stamp r t w) ?k ?m) with (stamp r t (put_alloc w k m)). by rewrite recordDisruption_stamp.
Qed.

Lemma projectInto_stamp r t w e :
  projectInto (stamp r t w) e = let* n := projectInto w e in Ok (stamp r t n).
Proof.
  unfold projectInto. destruct (Ev_Kind e);
    try first [apply deleted_stamp | apply failed_stamp | apply drained_stamp];
    autounfold with project; unfold stamp; simpl_set.
  all: unfold detach_volume, recordFailure, applyReadiness, recordDisruption, clearBackoff; simpl_set.
  all: repeat case_match; cbn [rbind]; try done.
  by destruct (observedResources e).
Qed.

(** What [Project] stamps on the handlers' result. *)
Definition next_revision (w : World) (e : Evidence) : Z :=
  if observesNothing (Ev_Kind e) then Revision w else u64 (Revision w + 1).
Definition next_clock (w : World) (e : Evidence) : time :=
  if observesNothing (Ev_Kind e) then ObservedAt w else Z.max (ObservedAt w) (if IsZero (Ev_ObservedAt e) then ObservedAt w else Ev_ObservedAt e).

Lemma stamp_id w : stamp (Revision w) (ObservedAt w) w = w.
Proof. by destruct w. Qed.

Lemma Project_stamp w e :
  Project w e = let* n := projectInto w e in Ok (stamp (next_revision w e) (next_clock w e) n).
Proof.
  assert (∀ n, projectInto w e = Ok n → Revision n = Revision w ∧ ObservedAt n = ObservedAt w) as Hfr.
  { intros n Hn. pose proof (projectInto_stamp (Revision w) (ObservedAt w) w e) as Hs.
    rewrite stamp_id, Hn in Hs. cbn [rbind] in Hs. injection Hs as Hs. rewrite Hs. done. }
  unfold Project. rewrite cloneWorld_id. destruct (projectInto w e) as [n|]; [|done].
  destruct (Hfr n eq_refl) as [Hr Ho]. cbn [rbind]. unfold next_revision, next_clock.
  destruct (observesNothing (Ev_Kind e)); [by rewrite <-Hr, <-Ho, stamp_id|].
  unfold stamp, IsZero, After. simpl_set. rewrite Ho.
  destruct (Z.eqb_spec (Ev_ObservedAt e) 0); simpl.
  - rewrite Z.max_id. destruct n. unfold set. cbn in *. by subst.
  - destruct (Z.ltb_spec (ObservedAt w) (Ev_ObservedAt e)); [by rewrite Z.max_r by lia|].
    rewrite Z.max_l by lia. destruct n. unfold set. cbn in *. by subst.
Qed.

(** Every accepted observation advances the revision by exactly one and never
    turns the clock back, so a proposal made before it is recognizably stale; a
    diagnosis, which observes nothing, changes nothing at all. *)
Theorem project_revision_clock w e w' (H : Project w e = Ok w') :
  (Ev_Kind e = EvidenceDiagnosisRecorded → w' = w) ∧
  (Ev_Kind e ≠ EvidenceDiagnosisRecorded → Revision w' = u64 (Revision w + 1)) ∧
  ObservedAt w <= ObservedAt w' ∧ (Ev_ObservedAt e ≠ 0 → Ev_Kind e ≠ EvidenceDiagnosisRecorded →
    Ev_ObservedAt e <= ObservedAt w').
Proof.
  rewrite Project_stamp in H. destruct (projectInto w e) as [n|] eqn:E; [|done]. injection H as <-.
  unfold stamp, next_revision, next_clock, observesNothing. simpl_set. split_and!.
  - intros Hk. rewrite !bool_decide_true by done. unfold projectInto in E. rewrite Hk in E.
    injection E as <-. apply stamp_id.
  - intros Hk. by rewrite bool_decide_false.
  - case_bool_decide; lia.
  - intros Ht Hk. rewrite bool_decide_false by done. unfold IsZero.
    rewrite (proj2 (Z.eqb_neq _ _)) by done. lia.
Qed.

(** Replaying evidence is harmless for every kind but the six listed in
    [replay_safe]: projecting the same evidence a second time succeeds and changes
    nothing but the revision number.  (For readiness evidence, provided it had not
    already expired when it was made.) *)
Theorem project_idempotent w e w'
    (H : Project w e = Ok w') (Hs : replay_safe (Ev_Kind e) = true) (Hf : fresh_when_made e = true) :
  Project w' e = Ok (w' <| Revision := next_revision w' e |>).
Proof.
  rewrite Project_stamp in H. destruct (projectInto w e) as [n|] eqn:E; [|done]. injection H as <-.
  apply project_replay in E; [|done..]. rewrite Project_stamp, projectInto_stamp, E. cbn [rbind].
  f_equal. unfold stamp, next_clock, next_revision. simpl_set. destruct n. unfold set. cbn.
  f_equal. destruct (observesNothing (Ev_Kind e)); [done|]. destruct (IsZero _); lia.
Qed.

Lemma project_revision_clock_witness : Revision created_world = u64 (Revision empty_world + 1).
Proof.
  exact (proj1 (proj2 (project_revision_clock empty_world (create_evidence "db-0" 1) created_world
    ltac:(vm_compute; reflexivity))) ltac:(discriminate)).
Defined.

(** Witness: creation evidence seen twice does not count the capacity twice. *)
Lemma project_idempotent_witness :
  Project created_world (create_evidence "db-0" 1) = Ok (created_world <| Revision := 2 |>).
Proof.
  exact (project_idempotent empty_world (create_evidence "db-0" 1) created_world
    ltac:(vm_compute; reflexivity) eq_refl eq_refl).
Defined.
