(* ===== verification/Recovery.v ===== *)
(** * Snapshot records over histories

    The records a volume keeps of its snapshots (the recorded checksums, their order,
    the off-host copies and the last-known recovery point) stay consistent under every
    evidence kind, prunes included. *)

From S2P Require Import Prelude Types Text Spread Snapshots Policy Simulate Clone Fencing Disruption Projection History.
Open Scope Z_scope.

Lemma new_volume_ok name node size : snapshots_ok (new_Volume name node size).
Proof.
  split; cbn.
  - constructor.
  - intros id. rewrite lookup_empty. split; [by intros ?%not_elem_of_nil|by intros [? ?]].
  - intros id. rewrite lookup_empty. by intros [? ?].
  - apply not_elem_of_nil.
  - done.
Qed.

(** Rewriting a volume without touching its snapshot records. *)
Lemma records_frame v v' :
  Vol_Snapshots v' = Vol_Snapshots v → Vol_SnapshotOrder v' = Vol_SnapshotOrder v →
  Vol_Backups v' = Vol_Backups v → Vol_LastSnapshot v' = Vol_LastSnapshot v →
  snapshots_ok v → snapshots_ok v'.
Proof. intros Hs Ho Hb Hl [? ? ? ? ?]. split; rewrite ?Hs, ?Ho, ?Hb, ?Hl; done. Qed.

Lemma record_snapshot_ok v label sum : label ≠ "" → snapshots_ok v → snapshots_ok (record_snapshot v label sum).
Proof.
  intros Hne [Hnd Ho Hb Hn Hl]. unfold record_snapshot. case_bool_decide as Hk.
  - split; simpl_set.
    + done.
    + intros id. rewrite Ho, lookup_insert. case_decide; subst; naive_solver.
    + intros id Hid. rewrite lookup_insert. case_decide; [by eexists|]. by apply Hb.
    + done.
    + intros _. by apply Ho.
  - split; simpl_set.
    + apply NoDup_app. split; [done|]. split; [|apply NoDup_singleton].
      intros x Hx ->%list_elem_of_singleton. by apply Hk, Ho.
    + intros id. rewrite elem_of_app, list_elem_of_singleton, Ho, lookup_insert.
      case_decide; subst; naive_solver.
    + intros id Hid. rewrite lookup_insert. case_decide; [by eexists|]. by apply Hb.
    + rewrite elem_of_app, list_elem_of_singleton. naive_solver.
    + intros _. apply elem_of_app. right. by apply list_elem_of_singleton.
Qed.

Lemma repair_last_ok v : snapshots_listed v → snapshots_ok (repair_last v).
Proof.
  intros [Hnd Ho Hb Hn]. unfold repair_last. case_bool_decide as Hk.
  - split; try done. intros _. by apply Ho.
  - split; simpl_set; try done. intros Hne.
    destruct (last (Vol_SnapshotOrder v)) as [x|] eqn:E; [|by apply last_None in E].
    simpl. apply last_Some in E as [l ->]. apply elem_of_app. right. by apply list_elem_of_singleton.
Qed.

Lemma backup_ok v snapshot location sum :
  Vol_Snapshots v !! snapshot = Some sum → snapshots_ok v →
  snapshots_ok (v <| Vol_Backups ::= <[snapshot := location]> |>).
Proof.
  intros Hs [Hnd Ho Hb Hn Hl]. split; simpl_set; try done.
  intros id. rewrite lookup_insert. case_decide; subst; [intros _; by eexists|]. apply Hb.
Qed.

Definition all_records_ok (w : World) : Prop := ∀ vol v, Volumes w !! vol = Some v → snapshots_ok v.

Lemma put_volume_ok w k v : all_records_ok w → snapshots_ok v → all_records_ok (put_volume w k v).
Proof.
  intros Hw Hv vol x. unfold put_volume. simpl_set.
  intros [[_ <-]|[_ Hx]]%lookup_insert_Some; [done|eapply Hw; eassumption].
Qed.

Lemma records_project w e w' : all_records_ok w → projectInto w e = Ok w' → all_records_ok w'.
Proof.
  intros Hw H. unfold projectInto in H.
  destruct (Ev_Kind e); try done; autounfold with project in H;
    try (match type of H with match ?o with _ => _ end = _ => destruct o eqn:? end);
    inv_ok H; subst; try done;
    try (match goal with
         | |- all_records_ok (put_alloc (put_volume ?w ?k ?v) _ _) => change (all_records_ok (put_volume w k v))
         | |- all_records_ok (detach_volume _ _ _) => idtac
         | Hv : Volumes w !! _ = Some ?v |- all_records_ok (put_volume w _ _) => pose proof (Hw _ _ Hv)
         | |- _ => intros vol v Hv; apply (Hw vol); revert Hv; simpl_set; autorewrite with frame;
                   repeat case_match; simpl_set; done
         end).
  all: try by apply put_volume_ok; [done|]; apply new_volume_ok.
  all: try by apply put_volume_ok; [done|]; eapply (records_frame v); [reflexivity..|eapply Hw; eassumption].
  - apply put_volume_ok; [done|]. unfold take_ownership.
    destruct (bool_decide (Vol_Owner v ≠ observed e "allocation")); [|by eapply (Hw (Ev_Target e))].
    by eapply (records_frame v), (Hw (Ev_Target e)).
  - unfold detach_volume. apply put_volume_ok.
    + case_match; [|done]. intros vol x Hx. eapply Hw; eassumption.
    + eapply (records_frame v); [reflexivity..|eapply Hw; eassumption].
  - apply put_volume_ok; [done|]. bool_simpl.
    assert (snapshots_ok (record_snapshot v (observed e "snapshot") (observed e "checksum"))) as Hr
      by (apply record_snapshot_ok; [done|eapply Hw; eassumption]).
    set (v1 := record_snapshot _ _ _) in *. destruct (Vol_Handoff v1) as [h|]; [|done].
    destruct (bool_decide _); [|done]. by eapply (records_frame v1).
  - apply put_volume_ok; [done|]. eapply backup_ok; [done|eapply Hw; eassumption].
  - apply put_volume_ok; [done|]. apply repair_last_ok, forget_snapshots_listed, snapshots_ok_listed.
    eapply Hw; eassumption.
  - apply put_volume_ok; [done|]. case_match; (eapply (records_frame v); [reflexivity..|eapply Hw; eassumption]).
  - apply put_volume_ok; [done|]. bool_simpl. apply record_snapshot_ok; [done|eapply Hw; eassumption].
  - intros vol x. destruct (applyReadiness_frame w (Ev_Target e) a e) as (_ & -> & _). apply Hw.
  - intros vol x. unfold put_alloc. simpl_set. autorewrite with frame. apply Hw.
  - intros vol x. destruct (applyReadiness_frame w (Ev_Target e) a e) as (_ & -> & _). apply Hw.
Qed.

(** Recovery points stay trustworthy.  After any history the records of every
    volume are consistent: each recorded snapshot is listed exactly once, every
    off-host copy is of a recorded snapshot, and the last-known recovery point is a
    recorded snapshot whenever one exists, whatever a node reported as removed. *)
Theorem history_recovery_points w evidence w'
    (Hw : all_records_ok w) (H : projectAll w evidence = Ok w') : all_records_ok w'.
Proof.
  eapply (for_each_inv all_records_ok); [|exact Hw|exact H]. intros u e u' _ Hu Hp.
  apply Project_inv in Hp as (n & Hn & _ & _ & HV & _). intros vol v. rewrite HV. by eapply records_project.
Qed.

Lemma history_recovery_points_witness : all_records_ok moved_world.
Proof.
  refine (history_recovery_points empty_world (serving_history ++ move_history) moved_world _
    ltac:(vm_compute; reflexivity)).
  intros vol v Hv. rewrite empty_volumes in Hv. discriminate.
Defined.
