(* ===== verification/Divergence.v ===== *)
(** * Where the projection departs from what is written about it

    Each theorem here exhibits or proves a behaviour of the projection that a comment,
    the documentation or the plan simulation says otherwise. *)

From S2P Require Import Prelude Types Text Spread Snapshots Policy Simulate Clone Capacity Fencing Disruption Projection History Replay.
Open Scope Z_scope.

(** ** Evidence that is not idempotent *)

Definition detach_evidence : Evidence := evidence EvidenceVolumeDetached "data" 7 [("allocation", "db-0")].
Definition fail_evidence : Evidence := evidence EvidenceAllocationFailed "db-0" 8 [("exit_code", "1")].
Definition drain_evidence : Evidence := evidence EvidenceAllocationDrained "db-0" 9 [].
Definition transfer_evidence : Evidence := evidence EvidenceVolumeTransferred "data" 10 [("checksum", "c1")].

(** One number to watch per kind. *)
Definition generation_of (w : World) : option Z := Vol_Generation <$> Volumes w !! "data".
Definition failures_of (w : World) : option Z := Backoff_Failures <$> BackoffState w !! "db-0".
Definition ledger_length (w : World) : Z := len (Disruptions w).

(** Five kinds of evidence are not idempotent, although the projection is
    documented to be.  Seen twice, a detach advances the volume's generation twice, a
    failure counts twice towards the backoff, a drain is charged twice to the
    disruption budget, and a transfer (like an adoption) is refused the second time. *)
Theorem projection_not_idempotent :
  (generation_of (run serving_world [detach_evidence]) = Some 2 ∧
   generation_of (run serving_world [detach_evidence; detach_evidence]) = Some 3) ∧
  (failures_of (run serving_world [fail_evidence]) = Some 1 ∧
   failures_of (run serving_world [fail_evidence; fail_evidence]) = Some 2) ∧
  (ledger_length (run serving_world [drain_evidence]) = 1 ∧
   ledger_length (run serving_world [drain_evidence; drain_evidence]) = 2) ∧
  (let w := run serving_world (take 4 move_history) in
   is_Ok (projectAll w [transfer_evidence]) ∧
   projectAll w [transfer_evidence; transfer_evidence] =
     Err (Errorf "volume %q must be snapshotted before transfer, not %q")).
Proof. by vm_compute. Qed.

(** ** Agent budget is never given back *)

Lemma released_budget ns a f k :
  (∀ n, Node_BudgetUsed (f n) = Node_BudgetUsed n) →
  Node_BudgetUsed <$> released ns a f !! k = Node_BudgetUsed <$> ns !! k.
Proof.
  intros Hf. unfold released. destruct (ns !! Alloc_Node a) as [n|] eqn:E; [|done].
  rewrite lookup_insert. case_decide; [|done]. subst. rewrite E. simpl. by rewrite Hf.
Qed.

(** Deleting an allocation releases its CPU and memory but not its agent budget:
    the projection leaves every node's committed budget as it was, while the plan
    simulation, by which the kernel judges what will fit, subtracts it.  A node that
    hosts agents one after another runs out of budget it no longer uses. *)
Theorem deletion_keeps_budget w e w' a x id n
    (Hk : Ev_Kind e = EvidenceAllocationDeleted) (H : Project w e = Ok w')
    (Ha : Action_Kind a = ActionDeleteAllocation) (Ht : Action_Target a = Ev_Target e)
    (Hx : Allocations w !! Ev_Target e = Some x) (Hid : id = Alloc_Node x)
    (Hn : Nodes w !! id = Some n) :
  Node_BudgetUsed <$> Nodes w' !! id = Some (Node_BudgetUsed n) ∧
  ∃ sim, simulateAction w a = Ok sim ∧
    Node_BudgetUsed <$> Nodes sim !! id = Some (Budget_Subtract (Node_BudgetUsed n) (Alloc_Budget x)).
Proof.
  split.
  - apply Project_inv in H as (m & H & -> & _).
    destruct (project_deleted_inv _ _ _ H Hk) as [[_ Hnone]|(y & _ & _ & _ & ->)]; [congruence|].
    rewrite released_budget by done. by rewrite Hn.
  - unfold simulateAction. rewrite Ha. unfold simulateDeleteAllocation. rewrite Ht, Hx. subst id. rewrite Hn.
    eexists. split; [reflexivity|]. unfold put_node. simpl_set. by rewrite lookup_insert_eq.
Qed.

Definition agent_evidence : Evidence :=
  evidence EvidenceAllocationCreated "bot-0" 1
    [("node", "n1"); ("workload", "bot"); ("replica", "0"); ("image", "bot@sha256:00");
     ("cpu_millis", "500"); ("memory_mb", "256"); ("tokens", "1000"); ("cost_millis", "10");
     ("wall_seconds", "60"); ("tool_calls", "5")].
Definition agent_world : World := Eval vm_compute in run empty_world [agent_evidence].
Definition agent_gone : Evidence := evidence EvidenceAllocationDeleted "bot-0" 2 [].
Definition after_agent : World := Eval vm_compute in run agent_world [agent_gone].
Definition delete_agent : Action :=
  Action_zero <| Action_Kind := ActionDeleteAllocation |> <| Action_Target := "bot-0" |>.

Lemma deletion_keeps_budget_witness :
  Node_BudgetUsed <$> Nodes after_agent !! "n1" = Some (mkBudget 1000 10 60 5).
Proof.
  destruct (Allocations agent_world !! "bot-0") as [x|] eqn:Ex; [|vm_compute in Ex; discriminate Ex].
  destruct (Nodes agent_world !! "n1") as [n|] eqn:En; [|vm_compute in En; discriminate En].
  pose proof Ex as Hx. pose proof En as Hn. vm_compute in Ex, En. injection Ex as <-. injection En as <-.
  exact (proj1 (deletion_keeps_budget agent_world agent_gone after_agent delete_agent _ "n1" _ eq_refl
    ltac:(vm_compute; reflexivity) eq_refl eq_refl Hx eq_refl Hn)).
Defined.

(** ** Nothing is ever stateful *)

Definition none_stateful (w : World) : Prop :=
  ∀ id a, Allocations w !! id = Some a → Alloc_Stateful a = false.

Lemma none_stateful_project w e w' : none_stateful w → Project w e = Ok w' → none_stateful w'.
Proof.
  intros Hw H. apply Project_inv in H as (n & H & _ & HA & _). intros id b Hb. rewrite HA in Hb.
  destruct (decide (Ev_Kind e = EvidenceAllocationCreated)) as [Hk|Hc].
  { apply (project_created_inv _ _ _ H) in Hk as [->|(? & ? & _ & _ & _ & _ & Hal & _)]; [eauto|].
    rewrite Hal in Hb. apply lookup_insert_Some in Hb as [[_ <-]|[_ Hb]]; [done|eauto]. }
  destruct (decide (Ev_Kind e = EvidenceAllocationDeleted)) as [Hk|Hd].
  { apply (project_deleted_inv _ _ _ H) in Hk as [[-> _]|(? & _ & _ & Hal & _)]; [eauto|].
    rewrite Hal in Hb. apply lookup_delete_Some in Hb as [_ Hb]. eauto. }
  pose proof (project_allocations_shape _ _ _ H Hc Hd id) as Hs. rewrite Hb in Hs.
  inversion Hs as [a ? Hsi Ha|]; subst. rewrite (si_stateful _ _ Hsi). eauto.
Qed.

(** No history ever marks an allocation stateful.  The flag that makes deletion
    require the destroy-stateful approval is written by no evidence, so in a world
    built by projection that gate never closes, whatever the goal declares. *)
Theorem history_never_stateful w evidence w'
    (Hw : none_stateful w) (H : projectAll w evidence = Ok w') : none_stateful w'.
Proof. eapply (for_each_inv none_stateful); [|exact Hw|exact H]. intros. by eapply none_stateful_project. Qed.

Lemma history_never_stateful_witness : none_stateful serving_world.
Proof.
  refine (history_never_stateful empty_world serving_history serving_world _ ltac:(vm_compute; reflexivity)).
  intros id a Ha. rewrite empty_allocations in Ha. discriminate.
Defined.

(** ** Reports a node controls *)

Definition spend (tokens wall : string) : Evidence :=
  evidence EvidenceAgentSpent "bot-0" 3
    [("tokens", tokens); ("cost_millis", "1"); ("wall_seconds", wall); ("tool_calls", "0")].
Definition grant_count (count : string) : Evidence :=
  evidence EvidenceToolsGranted "bot-0" 3 [("count", count)].

(** Two readings the projection takes as the node reports them.  Spend is said
    only ever to increase, but only tokens and cost are compared, so wall-clock
    seconds and tool calls can be lowered by a later report; and a negative tool count
    makes the projection panic instead of refusing the evidence. *)
Theorem node_reports_unchecked :
  (let w := run agent_world [spend "10" "50"; spend "10" "1"] in
   Alloc_Spent <$> Allocations w !! "bot-0" = Some (mkBudget 10 1 1 0)) ∧
  projectAll agent_world [grant_count "-1"] = Err (Panic "makeslice: cap out of range").
Proof. by vm_compute. Qed.
