(* ===== verification/Executor.v ===== *)
(** * The in-memory data plane (src/control/executor.go: MemoryExecutor)

    [Execute] maps a typed action to the evidence a host would report, [Project]
    advances the executor's world from evidence, and [ObserveReadiness] is its probe.
    The refinement theorem says the kernel's plan simulation predicts what executing
    an authorized action and projecting its evidence really yields. *)

From S2P Require Import Prelude Types Text Spread Snapshots Policy Simulate Clone Capacity Fencing Disruption Projection History Replay.
Open Scope Z_scope.

(** [hex.EncodeToString(sha256.Sum256(content))], from the Go standard library. *)
Class Digest := digestOf : string → string.

(** [net.JoinHostPort]: a host with a colon is an IPv6 literal and is bracketed. *)
Definition JoinHostPort (host port : string) : string :=
  if strings_Contains host ":" then "[" +:+ host +:+ "]:" +:+ port else host +:+ ":" +:+ port.

(** src/control/resolve.go *)
Definition HostPort (e : ResolvedEndpoint) : string := JoinHostPort (Resolved_Address e) (Sprint (Resolved_Port e)).

Definition line (s : string) : string := s +:+ String newline "".

Section Fingerprints.
Context {digest : Digest}.

(** src/control/netpolicy.go *)
Definition Script (c : CompiledPolicy) : string := line (Join_lines (Compiled_Rules c)).
Definition CompiledPolicy_Fingerprint (c : CompiledPolicy) : string := digestOf (Script c).

(** src/control/resolve.go *)
Definition ServiceZone_Fingerprint (z : ServiceZone) : string :=
  let names := sort_Strings (map_to_list (Zone_Records z)).*1 in
  digestOf (line ("node=" +:+ Zone_Node z) +:+
    foldr (λ name rest,
      line name +:+
      foldr (λ e rest, line ("  " +:+ HostPort e +:+ " " +:+ Resolved_Allocation e +:+ " " +:+ Resolved_Node e) +:+ rest)
        "" (default [] (Zone_Records z !! name)) +:+ rest) "" names).
End Fingerprints.

(** ** MemoryExecutor *)

(** An [Evidence] literal: source and times are left zero. *)
Definition report (kind : EvidenceKind) (target : string) (fields : gmap string string) : Evidence :=
  mkEvidence kind target "" time_zero time_zero fields.

Definition ObserveReadiness (w : World) (target : ProbeTarget) : result (bool * gmap string string) :=
  need allocation := Allocations w !! Probe_Allocation target else "allocation %q does not exist";
  let reachable := match Nodes w !! Alloc_Node allocation with
                   | Some node => Node_Healthy node
                   | None => false
                   end in
  let phase := match Alloc_Phase allocation with
               | AllocationCreated => "created" | AllocationRunning => "running"
               | AllocationStopped => "stopped" | AllocationOther text => text
               end in
  Ok (reachable && bool_decide (Alloc_Phase allocation = AllocationRunning),
      <["phase" := phase]> (<["observer" := "memory-executor"]> ∅)).

Section Execute.
Context {digest : Digest}.

Definition execute_pull (w : World) (a : Action) : result Evidence :=
  need _n := Nodes w !! Action_Node a else "node %q does not exist";
  Ok (report EvidenceImagePresent (Action_Image a)
        (<["node" := Action_Node a]> (<["image" := Action_Image a]> ∅))).

Definition create_fields (a : Action) : gmap string string :=
  let observed :=
    <["node" := Action_Node a]> (<["workload" := Action_Workload a]> (<["image" := Action_Image a]>
    (<["replica" := Sprint (Action_Replica a)]> (<["cpu_millis" := Sprint (CPUMillis (Action_Resources a))]>
    (<["memory_mb" := Sprint (MemoryMB (Action_Resources a))]> ∅))))) in
  let b := Action_Budget a in
  if negb (Budget_IsZero b) then
    <["tokens" := Sprint (Tokens b)]> (<["cost_millis" := Sprint (CostMillis b)]>
    (<["wall_seconds" := Sprint (WallSeconds b)]> (<["tool_calls" := Sprint (ToolCalls b)]> observed)))
  else observed.

Definition execute_create (w : World) (a : Action) : result Evidence :=
  need _n := Nodes w !! Action_Node a else "node %q does not exist";
  Ok (report EvidenceAllocationCreated (Action_Target a) (create_fields a)).

Definition execute_volume (w : World) (a : Action) : result Evidence :=
  match Action_Kind a with
  | ActionCreateVolume =>
      need ref := Action_Volume a else "create volume requires a volume reference";
      need _n := Nodes w !! Action_Node a else "node %q does not exist";
      Ok (report EvidenceVolumeCreated (VolumeRef_Name ref) (<["node" := Action_Node a]> ∅))
  | ActionAttachVolume =>
      need ref := Action_Volume a else "attach volume requires a volume reference";
      need _a := Allocations w !! Action_Target a else "allocation %q does not exist";
      Ok (report EvidenceVolumeAttached (VolumeRef_Name ref)
            (<["allocation" := Action_Target a]> (<["mount_path" := VolumeRef_MountPath ref]> ∅)))
  | ActionDetachVolume =>
      need ref := Action_Volume a else "detach volume requires a volume reference";
      Ok (report EvidenceVolumeDetached (VolumeRef_Name ref) (<["allocation" := Action_Target a]> ∅))
  | ActionSnapshotVolume =>
      need ref := Action_Volume a else "snapshot volume requires a volume reference";
      Ok (report EvidenceVolumeSnapshotted (VolumeRef_Name ref)
            (<["snapshot" := VolumeRef_Name ref +:+ "-simulated"]> (<["checksum" := "simulated"]> ∅)))
  | ActionQuiesceVolume =>
      need ref := Action_Volume a else "quiesce volume requires a volume reference";
      Ok (report EvidenceVolumeQuiesced (VolumeRef_Name ref) (<["to" := Action_Node a]> ∅))
  | ActionTransferVolume =>
      need ref := Action_Volume a else "transfer volume requires a volume reference";
      need volume := Volumes w !! VolumeRef_Name ref else "volume %q has no handoff in progress";
      need handoff := Vol_Handoff volume else "volume %q has no handoff in progress";
      Ok (report EvidenceVolumeTransferred (VolumeRef_Name ref)
            (<["node" := Action_Node a]> (<["checksum" := Handoff_Checksum handoff]> ∅)))
  | ActionAdoptVolume =>
      need ref := Action_Volume a else "adopt volume requires a volume reference";
      Ok (report EvidenceVolumeAdopted (VolumeRef_Name ref) (<["node" := Action_Node a]> ∅))
  | _ => Err (Errorf "unsupported action %q")
  end.

Definition execute_backup (w : World) (a : Action) : result Evidence :=
  match Action_Kind a with
  | ActionDatabaseBackup =>
      need ref := Action_Volume a else "database backup requires a volume reference and label";
      refuse (bool_decide (Action_Snapshot a = "")) "database backup requires a volume reference and label";
      Ok (report EvidenceDatabaseBackedUp (VolumeRef_Name ref)
            (<["label" := Action_Snapshot a]> (<["checksum" := "simulated"]> ∅)))
  | ActionVerifyBackup =>
      need ref := Action_Volume a else "verify backup requires a volume reference and snapshot id";
      refuse (bool_decide (Action_Snapshot a = "")) "verify backup requires a volume reference and snapshot id";
      need _v := Volumes w !! VolumeRef_Name ref else "volume %q does not exist";
      Ok (report EvidenceBackupVerified (VolumeRef_Name ref)
            (<["snapshot" := Action_Snapshot a]> (<["verified" := "true"]> ∅)))
  | ActionPruneSnapshots =>
      need ref := Action_Volume a else "prune snapshots requires a volume reference";
      need volume := Volumes w !! VolumeRef_Name ref else "volume %q does not exist";
      let removable := prunableSnapshots volume (Action_Retain a) in
      let observed :=
        <["removed" := Join_lines removable]>
        (<["retained" := Sprint (i64 (len (Vol_SnapshotOrder volume) - len removable))]>
        (<["dry_run" := Sprint_bool (Action_DryRun a)]> ∅)) in
      let observed := if Action_DryRun a then <["removed" := Join_lines removable]> observed else observed in
      Ok (report EvidenceSnapshotsPruned (VolumeRef_Name ref) observed)
  | ActionBackupSnapshot =>
      need ref := Action_Volume a else "backup snapshot requires a volume reference and snapshot id";
      refuse (bool_decide (Action_Snapshot a = "")) "backup snapshot requires a volume reference and snapshot id";
      Ok (report EvidenceVolumeBackedUp (VolumeRef_Name ref)
            (<["snapshot" := Action_Snapshot a]> (<["location" := "simulated"]> ∅)))
  | ActionRestoreSnapshot =>
      need ref := Action_Volume a else "restore snapshot requires a volume reference and snapshot id";
      refuse (bool_decide (Action_Snapshot a = "")) "restore snapshot requires a volume reference and snapshot id";
      Ok (report EvidenceVolumeRestored (VolumeRef_Name ref) (<["snapshot" := Action_Snapshot a]> ∅))
  | _ => Err (Errorf "unsupported action %q")
  end.

Definition execute_node (w : World) (a : Action) : result Evidence :=
  match Action_Kind a with
  | ActionCordonNode | ActionUncordonNode =>
      need _n := Nodes w !! Action_Target a else "node %q does not exist";
      CordonEvidence a
  | ActionApplyPolicy =>
      need policy := Action_Policy a else "apply policy requires a compiled ruleset";
      Ok (report EvidencePolicyApplied (Action_Node a)
            (<["fingerprint" := CompiledPolicy_Fingerprint policy]>
            (<["rules" := Sprint (len (Compiled_Rules policy))]> ∅)))
  | ActionPublishZone =>
      need zone := Action_Zone a else "publish zone requires a zone";
      Ok (report EvidenceZonePublished (Action_Node a)
            (<["names" := Sprint (Z.of_nat (size (Zone_Records zone)))]>
            (<["fingerprint" := ServiceZone_Fingerprint zone]> ∅)))
  | ActionCollectImages =>
      Ok (report EvidenceImagesCollected (Action_Node a)
            (<["reclaimed" := ""]> (<["protected" := Join_lines (ProtectedImages w)]>
            (<["dry_run" := Sprint_bool (Action_DryRun a)]> ∅))))
  | _ => Err (Errorf "unsupported action %q")
  end.

Definition network_address (replica : Z) : string :=
  "10.42." +:+ Sprint (i64 (Z.quot replica 256 + 1)) +:+ "." +:+ Sprint (i64 (Z.rem replica 256 + 2)).

Definition execute_allocation (w : World) (a : Action) : result Evidence :=
  need allocation := Allocations w !! Action_Target a else "allocation %q does not exist";
  match Action_Kind a with
  | ActionMountSecret =>
      need secret := Action_Secret a else "mount secret requires a secret reference";
      Ok (report EvidenceSecretMounted (Action_Target a)
            (<["secret" := Secret_Name secret]> (<["version" := Secret_Version secret]>
            (<["mount_path" := Secret_MountPath secret]> ∅))))
  | ActionAttachNetwork =>
      Ok (report EvidenceNetworkAttached (Action_Target a)
            (<["node" := Alloc_Node allocation]>
            (<["address" := network_address (Alloc_Replica allocation)]> ∅)))
  | ActionStartAllocation =>
      Ok (report EvidenceAllocationRunning (Action_Target a)
            (<["node" := Alloc_Node allocation]> (<["phase" := "running"]> ∅)))
  | ActionStopAllocation =>
      Ok (report EvidenceAllocationStopped (Action_Target a) (<["phase" := "stopped"]> ∅))
  | ActionDeleteAllocation =>
      Ok (report EvidenceAllocationDeleted (Action_Target a) (<["deleted" := "true"]> ∅))
  | ActionGrantTools =>
      Ok (report EvidenceToolsGranted (Action_Target a) (<["count" := Sprint (len (Action_Tools a))]> ∅))
  | ActionDrainAllocation =>
      Ok (report EvidenceAllocationDrained (Action_Target a) (<["drained" := "true"]> ∅))
  | _ => Err (Errorf "unsupported action %q")
  end.

Definition Execute (w : World) (a : Action) : result Evidence :=
  match Action_Kind a with
  | ActionPullImage => execute_pull w a
  | ActionCreateAllocation => execute_create w a
  | ActionCreateVolume | ActionAttachVolume | ActionDetachVolume | ActionSnapshotVolume
  | ActionQuiesceVolume | ActionTransferVolume | ActionAdoptVolume => execute_volume w a
  | ActionCordonNode | ActionUncordonNode | ActionApplyPolicy | ActionPublishZone
  | ActionCollectImages => execute_node w a
  | ActionDatabaseBackup | ActionVerifyBackup | ActionPruneSnapshots | ActionBackupSnapshot
  | ActionRestoreSnapshot => execute_backup w a
  | ActionMountSecret | ActionAttachNetwork | ActionStartAllocation | ActionStopAllocation
  | ActionDeleteAllocation | ActionGrantTools | ActionDrainAllocation => execute_allocation w a
  | ActionPublishRoute =>
      Ok (report EvidenceRouteReachable (Action_Target a)
            (<["workload" := Action_Workload a]> (<["exposure" := Action_Exposure a]>
            (<["port" := Sprint (Action_Port a)]> ∅))))
  | ActionProbeReadiness | ActionOther _ => Err (Errorf "unsupported action %q")
  end.
End Execute.

(** [(e *MemoryExecutor).Project]: on error the executor keeps its world. *)
Definition MemoryExecutor_Project (w : World) (e : Evidence) : World * result unit :=
  match Project w e with
  | Ok next => (next, Ok tt)
  | Err err => (w, Err err)
  end.

(** ** The plan simulation predicts execution

    Simulation and execution describe the same action at different levels: the
    simulation supposes a start is ready at once, hands out a placeholder address and
    installs the tool grants themselves, where execution reports a running process, a
    real address and a count.  [view] keeps what the two must agree on. *)

Definition erase (a : Allocation) : Allocation :=
  a <| Alloc_Ready := false |> <| Alloc_ReadySince := time_zero |>
    <| Alloc_Address := if bool_decide (Alloc_Address a = "") then "" else "assigned" |>
    <| Alloc_Tools := replicate (length (Alloc_Tools a)) ToolGrant_zero |>.

Record View := mkView {
  view_nodes : gmap string Node; view_allocations : gmap string Allocation;
  view_routes : gmap string Route; view_volumes : gmap string Volume;
  view_queues : gmap string Queue; view_approvals : gmap string Approval }.

Definition view (w : World) : View :=
  mkView (Nodes w) (erase <$> Allocations w) (Routes w) (Volumes w) (Queues w) (Approvals w).

(** What an action must satisfy for its quantities and names to survive the text
    evidence carries them in.  Four kinds are left out because their evidence carries
    facts only a host can know: a snapshot's id, a verification, a fingerprint. *)
Definition budget_in_int (b : Budget) : Prop :=
  in_int (Tokens b) ∧ in_int (CostMillis b) ∧ in_int (WallSeconds b) ∧ in_int (ToolCalls b).

Definition predictable (w : World) (a : Action) : Prop :=
  match Action_Kind a with
  | ActionCreateAllocation =>
      Action_Target a ≠ "" ∧ in_int (Action_Replica a) ∧
      1 <= CPUMillis (Action_Resources a) <= int_max ∧ 1 <= MemoryMB (Action_Resources a) <= int_max ∧
      budget_in_int (Action_Budget a) ∧ (∀ n, Nodes w !! Action_Node a = Some n → Node_ID n = Action_Node a)
  | ActionCreateVolume => ∀ ref, Action_Volume a = Some ref → VolumeRef_Name ref ≠ ""
  | ActionAttachVolume => Action_Target a ≠ ""
  | ActionQuiesceVolume => Action_Node a ≠ ""
  | ActionTransferVolume =>
      ∀ ref v h, Action_Volume a = Some ref → Volumes w !! VolumeRef_Name ref = Some v →
        Vol_Handoff v = Some h → Handoff_Checksum h ≠ ""
  | ActionPruneSnapshots =>
      Action_DryRun a = false ∧
      ∀ ref v, Action_Volume a = Some ref → Volumes w !! VolumeRef_Name ref = Some v →
        snapshots_ok v ∧ Forall is_line (Vol_SnapshotOrder v) ∧ Vol_SnapshotOrder v ≠ []
  | ActionMountSecret => ∀ s, Action_Secret a = Some s → Secret_Name s ≠ "" ∧ Secret_Version s ≠ ""
  | ActionGrantTools => len (Action_Tools a) <= int_max
  | ActionPublishRoute => Action_Target a ≠ "" ∧ in_int (Action_Port a)
  | ActionDeleteAllocation =>
      ∀ x n, Allocations w !! Action_Target a = Some x → Nodes w !! Alloc_Node x = Some n →
        Alloc_Budget x = Budget_zero ∧ budget_in_int (Node_BudgetUsed n) ∧
        0 <= Tokens (Node_BudgetUsed n) ∧ 0 <= CostMillis (Node_BudgetUsed n) ∧
        0 <= WallSeconds (Node_BudgetUsed n) ∧ 0 <= ToolCalls (Node_BudgetUsed n)
  | ActionSnapshotVolume | ActionVerifyBackup | ActionApplyPolicy | ActionPublishZone => False
  | _ => True
  end.

(** Read a field of reported evidence. *)
Ltac read_fields :=
  unfold observed, report; cbn [Ev_Observed Ev_Kind Ev_Target Ev_ObservedAt Ev_ExpiresAt];
  repeat (rewrite lookup_insert_eq || rewrite lookup_insert_ne by done); rewrite ?lookup_empty;
  cbn [default from_option id].

Lemma observedInt_field e key z : in_int z → Ev_Observed e !! key = Some (Sprint z) → observedInt e key = z.
Proof. intros Hz He. unfold observedInt, observed. rewrite He. simpl. by rewrite Sscanf_Sprint. Qed.

Lemma observedInt_absent e key : Ev_Observed e !! key = None → observedInt e key = 0.
Proof. intros He. unfold observedInt, observed. by rewrite He. Qed.

Lemma create_fields_budget a k t :
  budget_in_int (Action_Budget a) → observedBudget (report k t (create_fields a)) = Action_Budget a.
Proof.
  intros (H1 & H2 & H3 & H4). unfold observedBudget, create_fields.
  destruct (Budget_IsZero (Action_Budget a)) eqn:Ez; cbn [negb].
  - unfold Budget_IsZero in Ez. bool_simpl. rewrite Ez.
    rewrite !observedInt_absent; [done|..]; unfold report; cbn [Ev_Observed];
      by rewrite !lookup_insert_ne, lookup_empty by done.
  - destruct (Action_Budget a) as [t1 t2 t3 t4]. cbn in *.
    rewrite (observedInt_field _ _ t1), (observedInt_field _ _ t2), (observedInt_field _ _ t3),
      (observedInt_field _ _ t4); try done; unfold report; cbn [Ev_Observed];
      by repeat (rewrite lookup_insert_eq || rewrite lookup_insert_ne by done).
Qed.

Lemma create_fields_lookup a key v :
  key ∈ ["node"; "workload"; "image"; "replica"; "cpu_millis"; "memory_mb"] →
  (<["node" := Action_Node a]> (<["workload" := Action_Workload a]> (<["image" := Action_Image a]>
    (<["replica" := Sprint (Action_Replica a)]> (<["cpu_millis" := Sprint (CPUMillis (Action_Resources a))]>
    (<["memory_mb" := Sprint (MemoryMB (Action_Resources a))]> (∅ : gmap string string))))))) !! key = Some v →
  create_fields a !! key = Some v.
Proof.
  intros Hk Hv. unfold create_fields. destruct (negb _); [|done].
  repeat (apply elem_of_cons in Hk as [->|Hk]; [by rewrite !lookup_insert_ne by done|]).
  by apply not_elem_of_nil in Hk.
Qed.

Section Prediction.
Context {digest : Digest} {clock : WallClock}.
Implicit Types (g : Goal) (w : World) (a : Action).

(** Executing [a], projecting its evidence, and simulating it agree. *)
Definition predicted w a : Prop :=
  ∃ e w1 w2, Execute w a = Ok e ∧ projectInto w e = Ok w1 ∧ simulateAction w a = Ok w2 ∧ view w1 = view w2.

Lemma predicted_exact w a e w1 :
  Execute w a = Ok e → projectInto w e = Ok w1 → simulateAction w a = Ok w1 → predicted w a.
Proof. intros. by exists e, w1, w1. Qed.

(** The two steps differ at most in one allocation, and there only in what is erased. *)
Lemma predicted_alloc w a e x y1 y2 :
  Execute w a = Ok e → projectInto w e = Ok (put_alloc w x y1) →
  simulateAction w a = Ok (put_alloc w x y2) → erase y1 = erase y2 → predicted w a.
Proof.
  intros He Hp Hs Hy. do 3 eexists. split; [done|]. split; [done|]. split; [done|].
  unfold view, put_alloc. simpl_set. by rewrite !fmap_insert, Hy.
Qed.

Lemma predict_create g w a :
  Action_Kind a = ActionCreateAllocation → validateAction g w a = Ok tt → predictable w a → predicted w a.
Proof.
  unfold predictable. intros Hk Hv Hp. rewrite Hk in Hp. destruct Hp as (Ht & Hr & [Hc Hc'] & [Hm Hm'] & Hb & Hid).
  unfold validateAction in Hv. rewrite Hk in Hv. simpl in Hv. unfold validateCreateAllocation in Hv.
  inv_ok Hv. bool_simpl. specialize (Hid _ eq_refl).
  set (e := report EvidenceAllocationCreated (Action_Target a) (create_fields a)).
  pose proof (create_fields_lookup a) as Hf. change (create_fields a) with (Ev_Observed e) in Hf.
  assert (observed e "node" = Action_Node a ∧ observed e "workload" = Action_Workload a ∧
    observed e "image" = Action_Image a) as (En & Ew & Ei).
  { unfold observed. rewrite (Hf "node" (Action_Node a)), (Hf "workload" (Action_Workload a)),
      (Hf "image" (Action_Image a)); [done|..]; rewrite ?elem_of_cons; auto 10;
      by repeat (rewrite lookup_insert_eq || rewrite lookup_insert_ne by done). }
  assert (observedInt e "replica" = Action_Replica a ∧ observedInt e "cpu_millis" = CPUMillis (Action_Resources a) ∧
    observedInt e "memory_mb" = MemoryMB (Action_Resources a)) as (Er & Ec & Em).
  { split_and!; (apply observedInt_field; [done || (unfold in_int, int_min; lia)|]; apply Hf;
      [rewrite ?elem_of_cons; auto 10|by repeat (rewrite lookup_insert_eq || rewrite lookup_insert_ne by done)]). }
  eapply (predicted_exact w a e).
  - unfold Execute. rewrite Hk. unfold execute_create. by rewrite Ho.
  - unfold projectInto. cbn [e report Ev_Kind]. unfold projectAllocationCreated.
    rewrite En, Ho. cbn [e report Ev_Target]. rewrite bool_decide_false by done.
    rewrite bool_decide_false by done. unfold observedResources. fold e. rewrite Ec, Em.
    cbn [CPUMillis MemoryMB]. rewrite !(proj2 (Z.ltb_ge _ _)) by lia. cbn [orb rbind].
    rewrite Ew, Ei, Er. unfold e at 1 2 3. rewrite create_fields_budget by done. rewrite Hid. reflexivity.
  - unfold simulateAction. rewrite Hk. unfold simulateCreateAllocation. rewrite Ho.
    destruct (Action_Resources a) as [rc rm]. done.
Qed.

(** Open an action's validator and its three interpretations. *)
Ltac open_action Hk Hv :=
  unfold validateAction in Hv; rewrite Hk in Hv; simpl in Hv;
  autounfold with validate in Hv; inv_ok Hv; bool_simpl.
Ltac run_execute Hk :=
  unfold Execute; rewrite Hk;
  unfold execute_pull, execute_volume, execute_node, execute_backup, execute_allocation, CordonEvidence;
  rewrite ?Hk; rewrite_known; rewrite ?bool_decide_false by done; reflexivity.
Ltac run_simulate Hk :=
  unfold simulateAction; rewrite Hk; autounfold with simulate; unfold on_volume; rewrite_known;
  rewrite ?bool_decide_false by done; try reflexivity.
Ltac run_project :=
  unfold projectInto; cbn [report Ev_Kind]; autounfold with project; read_fields; rewrite_known;
  rewrite ?bool_decide_false by done; try reflexivity.

Lemma predict_node g w a :
  Action_Kind a = ActionPullImage ∨ Action_Kind a = ActionCordonNode ∨ Action_Kind a = ActionUncordonNode ∨
  Action_Kind a = ActionCollectImages →
  validateAction g w a = Ok tt → predicted w a.
Proof.
  intros [Hk|[Hk|[Hk|Hk]]] Hv; open_action Hk Hv.
  - eapply predicted_exact; [run_execute Hk|run_project|run_simulate Hk].
    rewrite bool_decide_false; [done|]. intros He. rewrite He in *. done.
  - eapply predicted_exact; [run_execute Hk| |run_simulate Hk].
    rewrite decide_False by done. run_project.
  - eapply predicted_exact; [run_execute Hk| |run_simulate Hk].
    rewrite decide_True by done. run_project.
  - eapply predicted_exact; [run_execute Hk|run_project|run_simulate Hk].
    f_equal. symmetry. by apply put_node_id.
Qed.
Lemma prune_repaired v retain :
  snapshots_ok v → Vol_SnapshotOrder v ≠ [] →
  repair_last (forget_snapshots v (prunableSnapshots v retain)) =
  forget_snapshots v (prunableSnapshots v retain).
Proof.
  intros Hok Hne. unfold repair_last. rewrite bool_decide_true; [done|].
  apply (so_order _ (prune_snapshots_ok v retain Hok)).
  destruct (forget_snapshots_frame v (prunableSnapshots v retain)) as (_ & _ & _ & _ & ->).
  pose proof (so_last v Hok Hne) as Hl. apply prune_keeps; [by apply snapshots_ok_listed|done|].
  left. split; [done|]. intros He. apply (so_named v Hok). by rewrite <-He.
Qed.

Lemma predict_volume g w a :
  Action_Kind a ∈ [ActionCreateVolume; ActionAttachVolume; ActionDetachVolume; ActionQuiesceVolume;
                   ActionTransferVolume; ActionAdoptVolume] →
  validateAction g w a = Ok tt → predictable w a → predicted w a.
Proof.
  intros Hin Hv Hp. unfold predictable in Hp.
  rewrite !elem_of_cons in Hin. destruct Hin as [Hk|[Hk|[Hk|[Hk|[Hk|[Hk|Hin]]]]]];
    [..|by apply not_elem_of_nil in Hin]; rewrite Hk in Hp; open_action Hk Hv.
  all: try (eapply predicted_exact; [run_execute Hk|run_project|run_simulate Hk]).
  - rewrite !bool_decide_false by (done || by apply Hp). by rewrite bool_decide_true by eauto.
  - rewrite !bool_decide_false by (done || by apply Hp || by intros [? ?]).
    by rewrite observedInt_absent by (cbn; by rewrite lookup_insert_ne, lookup_empty by done).
  - by rewrite <-andb_assoc, (andb_comm (bool_decide (Action_Target a ≠ ""))), andb_assoc, Hb.
  - by rewrite <-andb_assoc, (andb_comm (bool_decide (Action_Target a ≠ ""))), andb_assoc, Hb.
  - by rewrite bool_decide_false by auto.
  - rewrite !bool_decide_false by (auto || by eapply Hp). done.
  - rewrite !bool_decide_false by auto. done.
Qed.

Lemma elem_of_filtered_lines (l : list string) (P : string → Prop) `{!∀ x, Decision (P x)} :
  Forall is_line l → Forall is_line (filter P l).
Proof. rewrite !Forall_forall. intros Hl x [_ Hx]%list_elem_of_filter. auto. Qed.

Lemma predict_backup g w a :
  Action_Kind a ∈ [ActionDatabaseBackup; ActionPruneSnapshots; ActionBackupSnapshot; ActionRestoreSnapshot] →
  validateAction g w a = Ok tt → predictable w a → predicted w a.
Proof.
  intros Hin Hv Hp. unfold predictable in Hp. rewrite !elem_of_cons in Hin.
  destruct Hin as [Hk|[Hk|[Hk|[Hk|Hin]]]]; [..|by apply not_elem_of_nil in Hin]; rewrite Hk in Hp; open_action Hk Hv.
  2:{ destruct Hp as [Hdry Hp]. destruct (Hp _ _ eq_refl Ho0) as (Hok & Hlines & Hne).
      eapply predicted_exact; [run_execute Hk|run_project|run_simulate Hk].
      rewrite splitLines_Join by (by apply elem_of_filtered_lines).
      by rewrite prune_repaired. }
  all: try (eapply predicted_exact; [run_execute Hk|run_project|run_simulate Hk]).
  match goal with H : _ ≠ None |- _ => apply not_eq_None_Some in H as [sum ->] end.
  by rewrite (bool_decide_false ("" ≠ "")) by auto.
Qed.

Lemma predict_allocation g w a :
  Action_Kind a ∈ [ActionMountSecret; ActionAttachNetwork; ActionStartAllocation; ActionStopAllocation;
                   ActionDrainAllocation] →
  validateAction g w a = Ok tt → predictable w a → predicted w a.
Proof.
  intros Hin Hv Hp. unfold predictable in Hp. rewrite !elem_of_cons in Hin.
  destruct Hin as [Hk|[Hk|[Hk|[Hk|[Hk|Hin]]]]]; [..|by apply not_elem_of_nil in Hin];
    rewrite Hk in Hp; open_action Hk Hv.
  1:{ eapply predicted_exact; [run_execute Hk|run_project|run_simulate Hk].
      destruct (Hp _ eq_refl). by rewrite !bool_decide_false by done. }
  all: eapply predicted_alloc; [run_execute Hk|run_project|run_simulate Hk|]; by destruct a0.
Qed.

Lemma predict_tools g w a :
  Action_Kind a = ActionGrantTools → validateAction g w a = Ok tt → predictable w a → predicted w a.
Proof.
  intros Hk Hv Hp. unfold predictable in Hp. rewrite Hk in Hp. open_action Hk Hv.
  eapply predicted_alloc; [run_execute Hk|run_project|run_simulate Hk|].
  - assert (in_int (len (Action_Tools a))) as Hr by (unfold in_int, int_min, len in *; lia).
    rewrite (bool_decide_false (Alloc_Phase _ ≠ _)) by auto.
    rewrite (observedInt_field _ _ (len (Action_Tools a))) by (done || (cbn; by rewrite lookup_insert_eq)).
    rewrite (proj2 (Z.ltb_ge _ _)) by (unfold len; lia). reflexivity.
  - unfold erase. simpl_set. rewrite length_replicate. unfold len. rewrite Nat2Z.id. by destruct a0.
Qed.

Lemma predict_route g w a :
  Action_Kind a = ActionPublishRoute → validateAction g w a = Ok tt → predictable w a → predicted w a.
Proof.
  intros Hk Hv Hp. unfold predictable in Hp. rewrite Hk in Hp. destruct Hp as [Ht Hport]. open_action Hk Hv.
  eapply predicted_exact; [run_execute Hk|run_project|run_simulate Hk].
  by rewrite (observedInt_field _ _ (Action_Port a))
    by (done || (cbn; by repeat (rewrite lookup_insert_eq || rewrite lookup_insert_ne by done))).
Qed.

Lemma Budget_Subtract_zero b :
  budget_in_int b → 0 <= Tokens b → 0 <= CostMillis b → 0 <= WallSeconds b → 0 <= ToolCalls b →
  Budget_Subtract b Budget_zero = b.
Proof.
  intros (? & ? & ? & ?) ? ? ? ?. unfold Budget_Subtract, Budget_zero. cbn.
  rewrite !clamp_sub_exact by (done || lia). destruct b. cbn. f_equal; lia.
Qed.

Lemma predict_delete g w a :
  Action_Kind a = ActionDeleteAllocation → validateAction g w a = Ok tt → predictable w a → predicted w a.
Proof.
  intros Hk Hv Hp. unfold predictable in Hp. rewrite Hk in Hp. open_action Hk Hv.
  eapply predicted_exact; [run_execute Hk|run_project|run_simulate Hk].
  destruct (Nodes w !! Alloc_Node a0) as [n|] eqn:En; [|done].
  destruct (Hp _ _ eq_refl En) as (Hz & Hr & ? & ? & ? & ?). rewrite Hz.
  unfold recordDisruption. cbn [IsZero time_zero Z.eqb].
  replace (n <| Node_Used ::= λ u, Resources_Subtract u (Alloc_Resources a0) |>
             <| Node_BudgetUsed ::= λ u, Budget_Subtract u Budget_zero |>)
    with (n <| Node_Used ::= λ u, Resources_Subtract u (Alloc_Resources a0) |>); [done|].
  unfold set at 2. cbn. rewrite Budget_Subtract_zero by done. by destruct n.
Qed.

(** C5: the plan the kernel checked is the plan that runs.  For a predictable action its
    validator accepts, executing it on the data plane and projecting the evidence it
    reports succeeds and leads to the world the simulation predicted: the same nodes,
    routes, volumes, queues and approvals, and the same allocations up to readiness, the
    text of an address and the content of tool grants, which only a host can settle.
    Predictable is every action except snapshots, backup verifications, and the
    publication of policies and zones, whose evidence carries what only a host knows; dry
    runs of pruning (see [dry_run_prune_forgets]); and deletions of an allocation that
    holds an agent's budget (see [deletion_keeps_budget]); with non-empty names and
    quantities that fit the integers evidence is read into. *)
Theorem simulation_predicts_execution g w a
    (Hv : validateAction g w a = Ok tt) (Hp : predictable w a) :
  ∃ e w1 w2, Execute w a = Ok e ∧ projectInto w e = Ok w1 ∧ simulateAction w a = Ok w2 ∧ view w1 = view w2.
Proof.
  change (predicted w a). destruct (Action_Kind a) eqn:Hk;
    try (unfold predictable in Hp; rewrite Hk in Hp; done);
    try (unfold validateAction in Hv; rewrite Hk in Hv; discriminate Hv).
  all: first
    [ by eapply predict_create | by eapply predict_delete | by eapply predict_route | by eapply predict_tools
    | eapply predict_node; [|done]; by auto
    | eapply predict_volume; [|done..]; rewrite Hk, ?elem_of_cons; by auto 10
    | eapply predict_backup; [|done..]; rewrite Hk, ?elem_of_cons; by auto 10
    | eapply predict_allocation; [|done..]; rewrite Hk, ?elem_of_cons; by auto 10 ].
Qed.
End Prediction.

(** ** Concrete runs *)

#[local] Instance sample_digest : Digest := λ s, s.
#[local] Instance sample_clock : WallClock := 100.

Definition db_image : string := "db@sha256:00".
Definition one_db : Goal :=
  mkGoal "a4s.io/v1alpha1" "g1" "keep the data"
    (mkWorkloadSpec "db" db_image 1 0 (mkResources 500 256) false false [] [] "" None None None None None)
    None (mkConstraints ∅ []) None.
Definition ready_world : World :=
  empty_world <| Nodes ::= <["n1" := (plain_node "n1") <| Node_Images := <[db_image := true]> ∅ |>]> |>.
Definition create_db : Action :=
  Action_zero <| Action_ID := "a" |> <| Action_Kind := ActionCreateAllocation |> <| Action_Target := "db-0" |>
    <| Action_Workload := "db" |> <| Action_Node := "n1" |> <| Action_Image := db_image |>
    <| Action_Resources := mkResources 500 256 |>.

Lemma simulation_predicts_execution_witness : predicted ready_world create_db.
Proof.
  refine (simulation_predicts_execution one_db ready_world create_db ltac:(vm_compute; reflexivity) _).
  unfold predictable. simpl. unfold budget_in_int, in_int, int_min, int_max. simpl.
  repeat split; try discriminate; try lia.
  intros n Hn. vm_compute in Hn. injection Hn as <-. reflexivity.
Defined.

Definition dry_prune : Action :=
  Action_zero <| Action_Kind := ActionPruneSnapshots |> <| Action_Retain := 1 |> <| Action_DryRun := true |>
    <| Action_Volume := Some (mkVolumeRef "data" "" false "") |>.
Definition snapshot_world : World := empty_world <| Volumes := <["data" := sample_volume]> ∅ |>.

(** A dry run is not dry.  A dry-run prune is said to report the plan and change
    nothing, and the simulation changes nothing; but its evidence is the same as that
    of a real prune, and projecting it forgets the snapshot [s2] that is still there. *)
Theorem dry_run_prune_forgets :
  simulateAction snapshot_world dry_prune = Ok snapshot_world ∧
  ∃ e, Execute snapshot_world dry_prune = Ok e ∧ observed e "dry_run" = "true" ∧
    ∃ w', projectInto snapshot_world e = Ok w' ∧
      Vol_SnapshotOrder <$> Volumes snapshot_world !! "data" = Some ["s1"; "s2"; "s3"] ∧
      Vol_SnapshotOrder <$> Volumes w' !! "data" = Some ["s1"; "s3"].
Proof.
  split; [vm_compute; reflexivity|]. apply ok_such_that. vm_compute. split; [reflexivity|].
  eexists. by repeat split.
Qed.
