(* ===== verification/EventLog.v ===== *)
(** * The hash-chained event log (src/eventlog/chain.go, store.go, schema.go)

    The durable history of the control plane: SQLite rows linked by hashes, a
    single-row table naming the head of the chain, and the in-memory mirror of that
    head an open log keeps.  The JSON codec and SHA-256 are parameters; SQLite is
    modelled by the two tables, their constraints and the atomicity of a transaction,
    whose commit may fail. *)

From S2P Require Import Prelude Types Text Executor.
Open Scope Z_scope.

(** [json.Marshal] and [json.Unmarshal] of an event. *)
Class EventCodec := {
  marshal : Event → option string;
  unmarshal : string → option Event }.

(** What is stored can be read back: the canonical encoding of an event decodes to it.  The
    texts of an event are UTF-8, as [encoding/json] replaces what is not. *)
Class EventCodecLaws (codec : EventCodec) : Prop :=
  unmarshal_marshal : ∀ e s, marshal e = Some s → unmarshal s = Some e.

(** [hex.EncodeToString] of a SHA-256 sum: 64 characters, none of them a zero byte. *)
Definition zero_byte : Ascii.ascii := Ascii.ascii_of_N 0.
Fixpoint no_zero_byte (s : string) : bool :=
  match s with "" => true | String c s' => negb (bool_decide (c = zero_byte)) && no_zero_byte s' end.
Class DigestLaws (digest : Digest) : Prop := {
  digest_length : ∀ s, String.length (digestOf s) = 64%nat;
  digest_text : ∀ s, no_zero_byte (digestOf s) = true }.

(** ** Tables *)

Record Row := mkRow {
  Row_Sequence : Z; Row_PreviousHash : string; Row_Hash : string; Row_Payload : string }.

(** [eventlog.Record] *)
Record LogRecord := mkLogRecord {
  Rec_Sequence : Z; Rec_PreviousHash : string; Rec_Hash : string; Rec_Event : Event }.

Definition Event_zero : Event := mkEvent 0 0 (EventOther "") "" "" "" "" "" "" 0 "" None.
Definition LogRecord_zero : LogRecord := mkLogRecord 0 "" "" Event_zero.

(** The database: [records] in key order, and the [chain_head] row. *)
Record Database := mkDatabase { db_records : list Row; db_head : Z * string }.
Definition fresh_database : Database := mkDatabase [] (0, "").

(** The constraints of the [records] table (schema.go), and its primary key. *)
Definition row_admissible (rows : list Row) (r : Row) : bool :=
  (0 <? Row_Sequence r) &&
  (((Row_Sequence r =? 1) && bool_decide (Row_PreviousHash r = "")) ||
   ((1 <? Row_Sequence r) && (String.length (Row_PreviousHash r) =? 64)%nat)) &&
  (String.length (Row_Hash r) =? 64)%nat &&
  bool_decide (Row_Hash r ∉ Row_Hash <$> rows) && bool_decide (Row_Sequence r ∉ Row_Sequence <$> rows).

Fixpoint insert_row (rows : list Row) (r : Row) : list Row :=
  match rows with
  | [] => [r]
  | x :: rest => if Row_Sequence r <? Row_Sequence x then r :: rows else x :: insert_row rest r
  end.

(** ** The open log *)

(** [File]: [file_db] is [None] once closed. *)
Record File := mkFile { file_db : option Database; file_head : LogRecord; file_count : Z }.

Section Log.
Context {codec : EventCodec} {digest : Digest}.

Definition eventHash (previous : string) (event : Event) : result string :=
  need payload := marshal event else "encode event hash payload: %w";
  Ok (digestOf (previous +:+ String zero_byte payload)).

Fixpoint verify_from (index : nat) (previous : string) (records : list LogRecord) : result unit :=
  match records with
  | [] => Ok tt
  | record :: rest =>
      let sequence := u64 (Z.of_nat index + 1) in
      refuse (negb (Rec_Sequence record =? sequence) ||
              negb (Event_Sequence (Rec_Event record) =? Rec_Sequence record)) "record %d has invalid sequence";
      refuse (bool_decide (Rec_PreviousHash record ≠ previous)) "record %d breaks the hash chain";
      let* hash := eventHash previous (Rec_Event record) in
      refuse (bool_decide (hash ≠ Rec_Hash record)) "record %d has invalid hash";
      verify_from (S index) (Rec_Hash record) rest
  end.

Definition verifyChain (records : list LogRecord) : result unit := verify_from 0 "" records.

(** One row scanned and decoded. *)
Definition scan_row (r : Row) : result LogRecord :=
  need event := unmarshal (Row_Payload r) else "decode event %d: %w";
  Ok (mkLogRecord (Row_Sequence r) (Row_PreviousHash r) (Row_Hash r) event).

Definition scan_rows (rows : list Row) : result (list LogRecord) :=
  for_each (λ records r, let* record := scan_row r in Ok (records ++ [record])) [] rows.

Definition readRecords (f : File) : result (list LogRecord) :=
  need db := file_db f else "event log is closed";
  scan_rows (db_records db).

Definition loadHead (db : Database) : result File :=
  let '(sequence, hash) := db_head db in
  let count := u64 (len (db_records db)) in
  refuse (negb (count =? sequence))
    "event log holds %d records but its chain head is at %d: history was modified outside a4s";
  Ok (mkFile (Some db) (mkLogRecord sequence "" hash Event_zero) count).

Definition Verify (f : File) : result unit :=
  let* records := readRecords f in
  verifyChain records.

(** [Open] past the file-system checks and the migration. *)
Definition Open (db : Database) : result File :=
  let* store := loadHead db in
  let* _ := wrap_err "event log failed verification: %w" (Verify store) in
  Ok store.

Definition Close (f : File) : File := mkFile None (file_head f) (file_count f).

Definition NextSequence (f : File) : Z := u64 (file_count f + 1).
Definition Head (f : File) : LogRecord := file_head f.

(** The transaction of an append: the row inserted, the head advanced if it is where
    this log believes it to be, both or neither. *)
Definition append_transaction (commits : bool) (db : Database) (f : File) (r : Row) : result Database :=
  refuse (negb (row_admissible (db_records db) r)) "append event record: %w";
  refuse (negb (fst (db_head db) =? Rec_Sequence (file_head f)))
    "event log chain head moved underneath this append";
  refuse (negb commits) "commit event record: %w";
  Ok (mkDatabase (insert_row (db_records db) r) (Row_Sequence r, Row_Hash r)).

Definition Append (commits : bool) (f : File) (event : Event) : File * result unit :=
  match file_db f with
  | None => (f, Err (Errorf "event log is closed"))
  | Some db =>
      let expected := u64 (file_count f + 1) in
      if negb (Event_Sequence event =? expected) then (f, Err (Errorf "event sequence %d, want %d"))
      else match eventHash (Rec_Hash (file_head f)) event with
           | Err e => (f, Err e)
           | Ok hash =>
               match marshal event with
               | None => (f, Err (Errorf "encode event: %w"))
               | Some payload =>
                   match append_transaction commits db f
                           (mkRow expected (Rec_Hash (file_head f)) hash payload) with
                   | Err e => (f, Err e)
                   | Ok db =>
                       (mkFile (Some db) (mkLogRecord expected (Rec_Hash (file_head f)) hash event) expected,
                        Ok tt)
                   end
               end
           end
  end.

Definition confirmRecord (f : File) (record : LogRecord) : result unit :=
  let* held := readRecords f in
  if (Rec_Sequence record =? 0) || (u64 (len held) <? Rec_Sequence record) then Ok tt
  else match held !! Z.to_nat (Rec_Sequence record - 1) with
       | None => Ok tt
       | Some mine =>
           refuse (bool_decide (Rec_Hash mine ≠ Rec_Hash record))
             "record %d differs from the primary: histories have diverged";
           Ok tt
       end.

(** [Ingest]: the log, the number of records appended, and the error if one stopped it. *)
Fixpoint Ingest (commits : bool) (f : File) (appended : Z) (records : list LogRecord) : File * Z * result unit :=
  match records with
  | [] => (f, appended, Ok tt)
  | record :: rest =>
      if Rec_Sequence record <=? u64 (NextSequence f - 1) then
        match confirmRecord f record with
        | Err e => (f, appended, Err e)
        | Ok _ => Ingest commits f appended rest
        end
      else
        let '(f', r) := Append commits f (Rec_Event record) in
        match r with
        | Err e => (f', appended, Err (Wrapf "ingest record %d: %w" e))
        | Ok _ =>
            if bool_decide (Rec_Hash (Head f') ≠ Rec_Hash record)
            then (f', appended, Err (Errorf "ingested record %d derives hash %s but the primary recorded %s: histories have diverged"))
            else Ingest commits f' (i64 (appended + 1)) rest
        end
  end.

Definition Records (f : File) : list LogRecord :=
  match readRecords f with Ok records => records | Err _ => [] end.

Definition ReplayEvents (f : File) : result (list Event) :=
  let* records := readRecords f in
  Ok (Rec_Event <$> records).

Definition ReplayEvidence (f : File) : result (list Evidence) :=
  let* records := readRecords f in
  Ok (omap (λ r, Event_Evidence (Rec_Event r)) records).

End Log.

(** ** The log as a list of events *)

Section Chain.
Context {codec : EventCodec} {digest : Digest} {claws : EventCodecLaws codec} {dlaws : DigestLaws digest}.

Definition link (previous payload : string) : string := digestOf (previous +:+ String zero_byte payload).

(** The rows that record [events] from sequence [seq] on, after hash [previous]. *)
Fixpoint chained (previous : string) (seq : Z) (events : list Event) (rows : list Row) : Prop :=
  match events, rows with
  | [], [] => True
  | e :: events, r :: rows =>
      Row_Sequence r = seq ∧ Event_Sequence e = seq ∧ Row_PreviousHash r = previous ∧
      marshal e = Some (Row_Payload r) ∧ Row_Hash r = link previous (Row_Payload r) ∧
      chained (Row_Hash r) (seq + 1) events rows
  | _, _ => False
  end.

Definition tip (previous : string) (rows : list Row) : string :=
  match last rows with Some r => Row_Hash r | None => previous end.

Lemma tip_cons previous r rows : tip previous (r :: rows) = tip (Row_Hash r) rows.
Proof.
  unfold tip. destruct rows as [|x rows]; [done|]. rewrite last_cons_cons.
  destruct (last (x :: rows)) eqn:E; [done|]. by apply last_None in E.
Qed.

Lemma chained_length p n evs rows : chained p n evs rows → length evs = length rows.
Proof.
  revert p n rows. induction evs as [|e evs IH]; intros p n [|r rows]; simpl; try done.
  intros (_ & _ & _ & _ & _ & H). f_equal. eauto.
Qed.

Lemma chained_snoc p n evs rows e r :
  chained p n evs rows →
  Row_Sequence r = n + len evs → Event_Sequence e = n + len evs → Row_PreviousHash r = tip p rows →
  marshal e = Some (Row_Payload r) → Row_Hash r = link (tip p rows) (Row_Payload r) →
  chained p n (evs ++ [e]) (rows ++ [r]).
Proof.
  unfold len. revert p n rows. induction evs as [|x evs IH]; intros p n [|y rows] Hc Hs He Hp Hm Hh; try done.
  - simpl in *. repeat split; try done; lia.
  - destruct Hc as (H1 & H2 & H3 & H4 & H5 & Hc). simpl app. simpl chained.
    do 5 (split; [done|]). cbn [length] in *. rewrite tip_cons in Hp, Hh. apply IH; try done; lia.
Qed.

(** What the chain records of [events] are read back as. *)
Lemma chained_scan p i evs rows acc :
  chained p (Z.of_nat i + 1) evs rows → Z.of_nat i + len evs < two64 →
  ∃ records, for_each (λ rs r, let* x := scan_row r in Ok (rs ++ [x])) acc rows = Ok (acc ++ records) ∧
    Rec_Event <$> records = evs ∧ Rec_Hash <$> records = Row_Hash <$> rows ∧ verify_from i p records = Ok tt.
Proof.
  unfold len. revert p i rows acc. induction evs as [|e evs IH]; intros p i [|r rows] acc Hc Hn; try done.
  - exists []. by rewrite app_nil_r.
  - destruct Hc as (H1 & H2 & H3 & H4 & H5 & Hc). cbn [length] in Hn.
    replace (Z.of_nat i + 1 + 1) with (Z.of_nat (S i) + 1) in Hc by lia.
    set (x := mkLogRecord (Row_Sequence r) (Row_PreviousHash r) (Row_Hash r) e).
    destruct (IH _ _ _ (acc ++ [x]) Hc ltac:(lia)) as (records & Hrun & Hev & Hh & Hver).
    exists (x :: records). split_and!.
    + assert (scan_row r = Ok x) as Hx by (unfold scan_row; by rewrite (unmarshal_marshal _ _ H4)).
      cbn [for_each]. rewrite Hx. cbn [rbind]. rewrite Hrun. by rewrite <-app_assoc.
    + rewrite fmap_cons. by rewrite Hev.
    + rewrite !fmap_cons. by rewrite Hh.
    + cbn [verify_from]. rewrite u64_id by (unfold two64 in *; lia). cbn [x Rec_Sequence Rec_Event].
      rewrite H1, H2, !Z.eqb_refl. cbn [negb orb]. cbn [x Rec_PreviousHash Rec_Hash].
      rewrite (bool_decide_false (_ ≠ p)) by auto. unfold eventHash. rewrite H4. cbn [rbind].
      rewrite bool_decide_false by (unfold link in H5; auto). exact Hver.
Qed.

(** An open log holds exactly [events]. *)
Definition represents (f : File) (events : list Event) : Prop :=
  ∃ db, file_db f = Some db ∧ chained "" 1 events (db_records db) ∧
    db_head db = (len events, tip "" (db_records db)) ∧
    Rec_Sequence (file_head f) = len events ∧ Rec_Hash (file_head f) = tip "" (db_records db) ∧
    file_count f = len events.

Lemma represents_read f evs :
  represents f evs → len evs < two64 →
  ∃ records, readRecords f = Ok records ∧ Rec_Event <$> records = evs ∧ verifyChain records = Ok tt.
Proof.
  intros (db & Hdb & Hc & _) Hn.
  destruct (chained_scan "" 0 evs (db_records db) [] Hc Hn) as (records & Hrun & Hev & _ & Hver).
  exists records. unfold readRecords, scan_rows. by rewrite Hdb.
Qed.

Lemma insert_row_last rows r :
  (∀ x, x ∈ rows → Row_Sequence x < Row_Sequence r) → insert_row rows r = rows ++ [r].
Proof.
  induction rows as [|x rows IH]; intros H; [done|]. simpl.
  rewrite (proj2 (Z.ltb_ge _ _)) by (specialize (H x (list_elem_of_here _ _)); lia).
  f_equal. apply IH. intros y Hy. apply H. by right.
Qed.

Lemma chained_sequences p n evs rows x :
  chained p n evs rows → x ∈ rows → n <= Row_Sequence x < n + len evs.
Proof.
  unfold len. revert p n rows. induction evs as [|e evs IH]; intros p n [|r rows] Hc Hx; try done;
    try (by apply not_elem_of_nil in Hx).
  destruct Hc as (H1 & _ & _ & _ & _ & Hc). cbn [length]. apply elem_of_cons in Hx as [->|Hx]; [lia|].
  specialize (IH _ _ _ Hc Hx). lia.
Qed.

(** ** What an append does *)

Lemma Append_error commits f e f' err : Append commits f e = (f', Err err) → f' = f.
Proof.
  unfold Append. intros H. destruct (file_db f); [|by injection H as <-].
  destruct (negb _); [by injection H as <-|]. destruct (eventHash _ _); [|by injection H as <-].
  destruct (marshal e); [|by injection H as <-]. destruct (append_transaction _ _ _ _); [|by injection H as <-].
  done.
Qed.

Lemma Append_ok commits f e f' evs :
  represents f evs → len evs + 1 < two64 → Append commits f e = (f', Ok tt) → represents f' (evs ++ [e]).
Proof.
  intros (db & Hdb & Hc & Hhead & Hs & Hh & Hn) Hlen H. unfold Append in H. rewrite Hdb in H.
  rewrite Hn, u64_id in H by (unfold two64, len in *; lia).
  destruct (negb (Event_Sequence e =? len evs + 1)) eqn:Eseq; [done|]. bool_simpl.
  unfold eventHash in H. destruct (marshal e) as [payload|] eqn:Em; [|done]. cbn [rbind] in H.
  destruct (append_transaction _ _ _ _) as [db'|] eqn:Et; [|done]. injection H as <-.
  unfold append_transaction in Et. inv_ok Et. subst db'.
  assert (insert_row (db_records db) (mkRow (len evs + 1) (Rec_Hash (file_head f))
            (link (Rec_Hash (file_head f)) payload) payload) = db_records db ++ [mkRow (len evs + 1)
            (Rec_Hash (file_head f)) (link (Rec_Hash (file_head f)) payload) payload]) as Hins.
  { apply insert_row_last. intros x Hx. pose proof (chained_sequences _ _ _ _ _ Hc Hx). cbn. lia. }
  unfold link in Hins. eexists. split; [reflexivity|].
  cbn [file_head file_count db_records db_head Rec_Sequence Rec_Hash Row_Sequence Row_Hash]. rewrite Hins. rewrite Hh in *.
  assert (len (evs ++ [e]) = len evs + 1) as Hlen' by (unfold len; rewrite length_app; simpl; lia).
  split_and!.
  - apply chained_snoc; cbn; try done; lia.
  - rewrite Hlen'. unfold tip. by rewrite last_snoc.
  - by rewrite Hlen'.
  - unfold tip. by rewrite last_snoc.
  - by rewrite Hlen'.
Qed.

Lemma Open_fresh f : Open fresh_database = Ok f → represents f [].
Proof. intros [= <-]. exists fresh_database. done. Qed.

Lemma Open_again f evs db :
  represents f evs → len evs < two64 → file_db f = Some db → ∃ f', Open db = Ok f' ∧ represents f' evs.
Proof.
  intros Hr Hn Hdb. destruct (represents_read f evs Hr Hn) as (records & Hread & _ & Hver).
  destruct Hr as (db' & Hdb' & Hc & Hhead & Hs & Hh & Hcount). rewrite Hdb in Hdb'. injection Hdb' as <-.
  unfold Open, loadHead. rewrite Hhead. pose proof (chained_length _ _ _ _ Hc) as Hl.
  assert (u64 (len (db_records db)) = len evs) as Hu.
  { unfold len in *. rewrite <-Hl. apply u64_id. lia. }
  rewrite Hu, Z.eqb_refl. cbn [negb rbind]. unfold Verify, readRecords in *. cbn [file_db].
  rewrite Hdb in Hread. rewrite Hread. cbn [rbind]. rewrite Hver. cbn [wrap_err rbind].
  eexists. split; [reflexivity|]. exists db. done.
Qed.

(** ** Histories of a log *)

(** What can happen to a log: it is created, events are appended (or refused, or lost
    with their transaction), and the process restarts on the database it left. *)
Inductive logged : File → list Event → Prop :=
  | logged_open f : Open fresh_database = Ok f → logged f []
  | logged_append f evs commits e f' :
      logged f evs → Append commits f e = (f', Ok tt) → logged f' (evs ++ [e])
  | logged_refused f evs commits e f' err :
      logged f evs → Append commits f e = (f', Err err) → logged f' evs
  | logged_restart f evs db f' :
      logged f evs → file_db f = Some db → Open db = Ok f' → logged f' evs.

Lemma logged_represents f evs : logged f evs → len evs < two64 → represents f evs.
Proof.
  induction 1 as [f Hf|f evs commits e f' _ IH Ha|f evs commits e f' err _ IH Ha|f evs db f' _ IH Hdb Ho]; intros Hn.
  - by apply Open_fresh.
  - assert (len (evs ++ [e]) = len evs + 1) as Hl by (unfold len; rewrite length_app; simpl; lia).
    eapply Append_ok; [apply IH; lia|lia|exact Ha].
  - apply Append_error in Ha as ->. auto.
  - destruct (Open_again f evs db (IH Hn) Hn Hdb) as (f2 & Ho2 & Hr). congruence.
Qed.

(** A reachable log verifies and reads back as the events it was given. *)
Lemma log_reads f evs :
  logged f evs → len evs < two64 →
  Verify f = Ok tt ∧ ReplayEvents f = Ok evs ∧ ReplayEvidence f = Ok (omap Event_Evidence evs).
Proof.
  intros H Hn. destruct (represents_read f evs (logged_represents f evs H Hn) Hn) as (records & Hr & Hev & Hver).
  unfold Verify, ReplayEvents, ReplayEvidence. rewrite Hr. cbn [rbind]. rewrite Hver, Hev.
  split; [done|]. split; [done|]. f_equal. rewrite <-Hev. clear.
  induction records as [|r rs IH]; [done|]. cbn. by rewrite IH.
Qed.

Lemma log_reopens f evs :
  logged f evs → len evs < two64 → ∃ db f', file_db f = Some db ∧ Open db = Ok f'.
Proof.
  intros H Hn. pose proof (logged_represents f evs H Hn) as Hr. destruct Hr as (db & Hdb & Hrest).
  destruct (Open_again f evs db) as (f' & Ho & _); [by exists db|done..|]. eauto.
Qed.

(** C12: the event log is an append-only list that survives restarts.  Whatever
    appends are accepted, refused or lost in a failed commit, and however often the
    process restarts, the log verifies, opens again, and replays exactly the accepted
    events in the order they were accepted. *)
Theorem log_replays_accepted_events f evs (H : logged f evs) (Hn : len evs < two64) :
  Verify f = Ok tt ∧ ReplayEvents f = Ok evs ∧
  ReplayEvidence f = Ok (omap Event_Evidence evs) ∧
  ∃ db f', file_db f = Some db ∧ Open db = Ok f' ∧ ReplayEvents f' = Ok evs.
Proof.
  destruct (log_reads f evs H Hn) as (Hv & He & Hevd). destruct (log_reopens f evs H Hn) as (db & f' & Hdb & Ho).
  do 3 (split; [done|]). exists db, f'. split; [done|]. split; [done|].
  apply log_reads; [by eapply logged_restart|done].
Qed.
End Chain.

(** ** Tamper evidence *)

Section Tamper.
Context {codec : EventCodec} {digest : Digest} {claws : EventCodecLaws codec} {dlaws : DigestLaws digest}.

(** Two different texts among the given ones that have the same digest. *)
Definition collision (texts : list string) : Prop :=
  ∃ x y, x ∈ texts ∧ y ∈ texts ∧ x ≠ y ∧ digestOf x = digestOf y.

Lemma collision_Exists texts :
  Exists (λ x, Exists (λ y, x ≠ y ∧ digestOf x = digestOf y) texts) texts ↔ collision texts.
Proof.
  unfold collision. rewrite Exists_exists. split.
  - intros (x & Hx & (y & Hy & H)%Exists_exists). by exists x, y.
  - intros (x & y & Hx & Hy & H). exists x. split; [done|]. apply Exists_exists. by exists y.
Qed.

#[global] Instance collision_decision texts : Decision (collision texts).
Proof. refine (cast_if (decide (Exists (λ x, Exists (λ y, x ≠ y ∧ digestOf x = digestOf y) texts) texts))); by rewrite <-collision_Exists. Defined.

Lemma collision_mono texts texts' : texts ⊆ texts' → collision texts → collision texts'.
Proof. intros Hs (x & y & Hx & Hy & H). exists x, y. split; [by apply Hs|]. split; [by apply Hs|done]. Qed.

(** The texts whose digests link a chain of records: the previous hash, a zero byte and
    the encoded event of each. *)
Definition chain_texts (l : list LogRecord) : list string :=
  omap (λ r, (λ payload, Rec_PreviousHash r +:+ String zero_byte payload) <$> marshal (Rec_Event r)) l.

Lemma chain_texts_app l l' : chain_texts (l ++ l') = chain_texts l ++ chain_texts l'.
Proof. apply omap_app. Qed.

Lemma chain_texts_snoc l r payload :
  marshal (Rec_Event r) = Some payload → Rec_PreviousHash r +:+ String zero_byte payload ∈ chain_texts (l ++ [r]).
Proof. intros H. rewrite chain_texts_app. apply elem_of_app. right. unfold chain_texts. cbn. rewrite H. cbn. by left. Qed.

Lemma chain_texts_prefix l l' : l `prefix_of` l' → chain_texts l ⊆ chain_texts l'.
Proof. intros [k ->]. rewrite chain_texts_app. set_solver. Qed.

Lemma zero_split s s' t t' :
  no_zero_byte s = true → no_zero_byte s' = true →
  s +:+ String zero_byte t = s' +:+ String zero_byte t' → s = s' ∧ t = t'.
Proof.
  revert s'. induction s as [|c s IH]; intros [|c' s'] Hs Hs' H; simpl in *.
  - by injection H as ->.
  - injection H as <- _. apply andb_true_iff in Hs' as [Hz _]. by rewrite bool_decide_true in Hz.
  - injection H as -> _. apply andb_true_iff in Hs as [Hz _]. by rewrite bool_decide_true in Hz.
  - injection H as -> H. apply andb_true_iff in Hs as [_ Hs]. apply andb_true_iff in Hs' as [_ Hs'].
    destruct (IH s' Hs Hs' H) as [-> ->]. done.
Qed.

Definition record_tip (previous : string) (l : list LogRecord) : string :=
  match last l with Some r => Rec_Hash r | None => previous end.

Lemma record_tip_cons previous r l : record_tip previous (r :: l) = record_tip (Rec_Hash r) l.
Proof.
  unfold record_tip. destruct l as [|x l]; [done|]. rewrite last_cons_cons.
  destruct (last (x :: l)) eqn:E; [done|]. by apply last_None in E.
Qed.

(** A verified chain, taken apart at its last record. *)
Lemma verify_snoc i p l r :
  verify_from i p (l ++ [r]) = Ok tt →
  verify_from i p l = Ok tt ∧ Rec_PreviousHash r = record_tip p l ∧
  Rec_Sequence r = u64 (Z.of_nat (i + length l) + 1) ∧
  ∃ payload, marshal (Rec_Event r) = Some payload ∧ Rec_Hash r = link (record_tip p l) payload.
Proof.
  revert i p. induction l as [|x l IH]; intros i p H; cbn [app verify_from] in H; inv_ok H.
  - apply orb_false_iff in Hb as [Hs _]. bool_simpl. unfold eventHash in Hm. inv_ok Hm. subst.
    cbn [length]. rewrite Nat.add_0_r. split; [done|]. split; [done|]. split; [done|].
    eexists. split; [done|]. by rewrite <-Hb1.
  - destruct (IH _ _ H) as (Hv & Hp & Hs & Hh). cbn [verify_from length]. rewrite record_tip_cons.
    rewrite Hb, Hb0, Hm, Hv. cbn [rbind]. rewrite Hb1. split; [done|]. split; [done|].
    split; [|done]. rewrite Hs. do 3 f_equal. lia.
Qed.

(** The digest a verified chain ends in has no zero byte. *)
Lemma record_tip_text l : verifyChain l = Ok tt → no_zero_byte (record_tip "" l) = true.
Proof.
  destruct l as [|r l _] using rev_ind; [done|]. intros H.
  apply verify_snoc in H as (_ & _ & _ & payload & _ & Hh).
  unfold record_tip. rewrite last_snoc, Hh. apply digest_text.
Qed.

Lemma chain_unique l l' :
  verifyChain l = Ok tt → verifyChain l' = Ok tt → length l = length l' → record_tip "" l = record_tip "" l' →
  l = l' ∨ collision (chain_texts l ++ chain_texts l').
Proof.
  revert l'. induction l as [|r l IH] using rev_ind; intros l' H H' Hlen Htip.
  { left. destruct l'; [done|discriminate]. }
  destruct l' as [|r' l' _] using rev_ind; [rewrite length_app in Hlen; simpl in Hlen; lia|].
  rewrite !length_app in Hlen. simpl in Hlen. assert (length l = length l') as Hl by lia.
  apply verify_snoc in H as (Hv & Hp & Hs & payload & Hm & Hh).
  apply verify_snoc in H' as (Hv' & Hp' & Hs' & payload' & Hm' & Hh').
  unfold record_tip in Htip. rewrite !last_snoc in Htip.
  destruct (decide (record_tip "" l +:+ String zero_byte payload = record_tip "" l' +:+ String zero_byte payload'))
    as [Heq|Hne]; [|right; exists (record_tip "" l +:+ String zero_byte payload),
                              (record_tip "" l' +:+ String zero_byte payload');
                    rewrite <-Hp at 1; rewrite <-Hp' at 1; split_and!;
                    [apply elem_of_app; left; by apply chain_texts_snoc
                    |apply elem_of_app; right; by apply chain_texts_snoc|done|unfold link in *; congruence]].
  apply zero_split in Heq as [Ht ->]; [|by apply record_tip_text..].
  destruct (IH l' Hv Hv' Hl Ht) as [->|Hc];
    [left|right; eapply collision_mono; [|done]; rewrite !chain_texts_app; set_solver]. f_equal. f_equal.
  apply unmarshal_marshal in Hm. apply unmarshal_marshal in Hm'.
  destruct r as [s p h e], r' as [s' p' h' e']. cbn in *. simplify_eq. f_equal; congruence.
Qed.

(** C13: history cannot be rewritten under its head.  Two chains of the same length
    that both verify and end in the same hash are the same chain, record by record
    and event by event; an edit that keeps the head hash therefore exhibits a
    collision of the digest among the very texts the two chains link. *)
Theorem chain_tamper_evident l l'
    (H : verifyChain l = Ok tt) (H' : verifyChain l' = Ok tt) (Hlen : length l = length l')
    (Htip : record_tip "" l = record_tip "" l') :
  l = l' ∨ collision (chain_texts l ++ chain_texts l').
Proof. by apply chain_unique. Qed.
End Tamper.

(** ** Following a primary *)

Section Follow.
Context {codec : EventCodec} {digest : Digest} {claws : EventCodecLaws codec} {dlaws : DigestLaws digest}.

(** The hashes a log holds, in order. *)
Definition held_hashes (f : File) : list string :=
  match file_db f with Some db => Row_Hash <$> db_records db | None => [] end.

Lemma read_hashes f evs :
  represents f evs → len evs < two64 →
  ∃ records, readRecords f = Ok records ∧ Rec_Hash <$> records = held_hashes f ∧ length records = length evs.
Proof.
  intros (db & Hdb & Hc & _) Hn.
  destruct (chained_scan "" 0 evs (db_records db) [] Hc Hn) as (records & Hrun & Hev & Hh & _).
  exists records. unfold readRecords, scan_rows, held_hashes. rewrite Hdb. split; [done|]. split; [done|].
  by rewrite <-Hev, length_fmap.
Qed.

Lemma Append_held commits f e f' evs :
  represents f evs → len evs + 1 < two64 → Append commits f e = (f', Ok tt) →
  held_hashes f' = held_hashes f ++ [Rec_Hash (Head f')] ∧ Event_Sequence e = len evs + 1.
Proof.
  intros Hr Hn H. pose proof (Append_ok commits f e f' evs Hr Hn H) as (db' & Hdb' & Hc' & _ & _ & Hh' & _).
  destruct Hr as (db & Hdb & Hc & _ & _ & _ & Hcount). unfold Append in H. rewrite Hdb in H.
  rewrite Hcount, u64_id in H by (unfold two64, len in *; lia).
  destruct (negb (Event_Sequence e =? len evs + 1)) eqn:Eseq; [done|]. bool_simpl.
  destruct (eventHash _ _) as [hash|]; [|done]. destruct (marshal e) as [payload|]; [|done].
  destruct (append_transaction _ _ _ _) as [db2|] eqn:Et; [|done]. injection H as <-.
  unfold append_transaction in Et. inv_ok Et. subst. split; [|done].
  unfold held_hashes, Head. rewrite Hdb. cbn [file_db file_head Rec_Hash db_records].
  rewrite insert_row_last, fmap_app; [done|]. intros x Hx. cbn.
  pose proof (chained_sequences _ _ _ _ _ Hc Hx). lia.
Qed.

Lemma confirm_held f evs r :
  represents f evs → len evs < two64 → confirmRecord f r = Ok tt → 1 <= Rec_Sequence r <= len evs →
  held_hashes f !! Z.to_nat (Rec_Sequence r - 1) = Some (Rec_Hash r).
Proof.
  intros Hr Hn Hc Hs. destruct (read_hashes f evs Hr Hn) as (records & Hread & Hh & Hl).
  unfold confirmRecord in Hc. rewrite Hread in Hc. cbn [rbind] in Hc.
  rewrite (proj2 (Z.eqb_neq _ _)) in Hc by lia. unfold len in *.
  rewrite u64_id, (proj2 (Z.ltb_ge _ _)) in Hc by lia. cbn [orb] in Hc.
  rewrite <-Hh, list_lookup_fmap.
  destruct (records !! Z.to_nat (Rec_Sequence r - 1)) as [mine|] eqn:E.
  - simpl. destruct (bool_decide _) eqn:Eb; [done|]. bool_simpl. by rewrite Eb.
  - apply lookup_ge_None in E. lia.
Qed.

Lemma represents_length f evs : represents f evs → length (held_hashes f) = length evs.
Proof.
  intros (db & Hdb & Hc & _). unfold held_hashes. rewrite Hdb, length_fmap.
  symmetry. by eapply chained_length.
Qed.

Lemma ingest_held commits records f n evs f' n' :
  represents f evs → len evs + len records < two64 →
  (∀ r, r ∈ records → 1 <= Rec_Sequence r ∧ Event_Sequence (Rec_Event r) = Rec_Sequence r) →
  Ingest commits f n records = (f', n', Ok tt) →
  held_hashes f `prefix_of` held_hashes f' ∧
  ∀ r, r ∈ records → held_hashes f' !! Z.to_nat (Rec_Sequence r - 1) = Some (Rec_Hash r).
Proof.
  unfold len. revert f n evs. induction records as [|r rest IH]; intros f n evs Hr Hn Hseq H.
  { injection H as <- <-. split; [done|]. intros r Hr'. by apply not_elem_of_nil in Hr'. }
  cbn [length] in Hn. cbn [Ingest] in H. destruct (Hseq r (list_elem_of_here _ _)) as [Hpos Hev].
  assert (∀ x, x ∈ rest → 1 <= Rec_Sequence x ∧ Event_Sequence (Rec_Event x) = Rec_Sequence x) as Hrest.
  { intros x Hx. apply Hseq. by right. }
  assert (file_count f = len evs) as Hcount by (by destruct Hr as (? & _ & _ & _ & _ & _ & ?)).
  unfold NextSequence in H. rewrite Hcount in H. unfold len in *.
  rewrite (u64_id (Z.of_nat (length evs) + 1)), Z.add_simpl_r, u64_id in H by (unfold two64 in *; lia).
  destruct (Rec_Sequence r <=? Z.of_nat (length evs)) eqn:Es.
  - bool_simpl. destruct (confirmRecord f r) as [[]|] eqn:Ec; [|done].
    destruct (IH f n evs Hr ltac:(lia) Hrest H) as [Hpre Hall]. split; [done|].
    intros x [->|Hx]%elem_of_cons; [|auto].
    eapply prefix_lookup_Some; [|exact Hpre]. apply (confirm_held f evs); unfold len; done || lia.
  - bool_simpl. destruct (Append commits f (Rec_Event r)) as [f1 [[]|]] eqn:Ea; [|done].
    destruct (bool_decide _) eqn:Eb; [done|]. bool_simpl.
    pose proof (Append_ok _ _ _ _ _ Hr ltac:(unfold len; lia) Ea) as Hr1.
    destruct (Append_held _ _ _ _ _ Hr ltac:(unfold len; lia) Ea) as [Hh Hes]. unfold len in Hes.
    assert (length (evs ++ [Rec_Event r]) = S (length evs)) as Hl by (rewrite length_app; simpl; lia).
    destruct (IH f1 _ _ Hr1 ltac:(rewrite Hl; lia) Hrest H) as [Hpre Hall].
    split; [etransitivity; [|exact Hpre]; rewrite Hh; by apply prefix_app_r|].
    intros x [->|Hx]%elem_of_cons; [|auto].
    eapply prefix_lookup_Some; [|exact Hpre]. rewrite Hh, lookup_app_r; rewrite (represents_length f evs Hr); [|lia].
    replace (Z.to_nat (Rec_Sequence r - 1) - length evs)%nat with 0%nat by lia. by rewrite <-Eb.
Qed.

(** A follower that ingests a batch without error holds it.  Every record of the
    batch, whether already held or appended by re-deriving its hash locally, stands in
    the follower's log at its sequence number under exactly the primary's hash, and
    nothing the follower held before was touched. *)
Theorem ingest_agrees commits f n evs records f' n' (H : logged f evs)
    (Hn : len evs + len records < two64)
    (Hseq : ∀ r, r ∈ records → 1 <= Rec_Sequence r ∧ Event_Sequence (Rec_Event r) = Rec_Sequence r)
    (Hi : Ingest commits f n records = (f', n', Ok tt)) :
  held_hashes f `prefix_of` held_hashes f' ∧
  ∀ r, r ∈ records → held_hashes f' !! Z.to_nat (Rec_Sequence r - 1) = Some (Rec_Hash r).
Proof.
  eapply (ingest_held commits records f n evs); try done. apply logged_represents; [done|]. unfold len in *. lia.
Qed.
End Follow.

(** ** What opening does not check *)

(** The hash in the chain-head row is never compared with the last record.
    Opening a database succeeds or fails independently of it, so rewriting the last
    event together with its own hash, leaving the head row as it was, is not noticed. *)
Theorem open_ignores_head_hash {codec : EventCodec} {digest : Digest} rows n h h' :
  is_Ok (Open (mkDatabase rows (n, h))) ↔ is_Ok (Open (mkDatabase rows (n, h'))).
Proof.
  unfold Open, loadHead. cbn [db_head db_records]. destruct (negb _); [done|].
  unfold Verify, readRecords. cbn [rbind file_db]. cbn [db_records]. destruct (scan_rows rows); [|done].
  cbn [rbind]. by destruct (verifyChain _).
Qed.

(** ** A concrete log

    A codec that encodes the events of a two-event history, and a digest of the right
    shape that depends on the length of its input. *)

#[export] Instance Evidence_eq_dec : EqDecision Evidence. Proof. solve_decision. Defined.
#[export] Instance Event_eq_dec : EqDecision Event. Proof. solve_decision. Defined.

Definition note (n : Z) : Event := mkEvent n 5 EventGoalAccepted "op" "g1" "" "" "" "" 0 "" None.
Definition toy_codec : EventCodec := {|
  marshal e := if decide (e = note 1) then Some "1" else if decide (e = note 2) then Some "2" else None;
  unmarshal s := if decide (s = "1") then Some (note 1) else if decide (s = "2") then Some (note 2) else None |}.
Definition toy_digest : Digest := λ s,
  "aaaaaaaaaaaaaaaaaaaaaaaaaaaaaaaaaaaaaaaaaaaaaaaaaaaaaaaaaaaaaaa"
    +:+ (if (String.length s <? 10)%nat then "b" else "c").

Lemma toy_codec_laws : EventCodecLaws toy_codec.
Proof.
  intros e s. unfold toy_codec. cbn [marshal unmarshal].
  destruct (decide (e = note 1)) as [->|]; [by intros [= <-]|].
  destruct (decide (e = note 2)) as [->|]; [by intros [= <-]|]. done.
Qed.
Lemma toy_digest_laws : DigestLaws toy_digest.
Proof. split; intros s; unfold digestOf, toy_digest; by destruct (_ <? _)%nat. Qed.

#[local] Existing Instances toy_codec toy_digest toy_codec_laws toy_digest_laws.

Definition log0 : File := mkFile (Some fresh_database) (mkLogRecord 0 "" "" Event_zero) 0.
Definition log1 : File := Eval vm_compute in (Append true log0 (note 1)).1.
Definition log2 : File := Eval vm_compute in (Append true log1 (note 2)).1.

Lemma log2_logged : logged log2 [note 1; note 2].
Proof.
  apply (logged_append log1 [note 1] true (note 2)); [|vm_compute; reflexivity].
  apply (logged_append log0 [] true (note 1)); [|vm_compute; reflexivity].
  apply logged_open. vm_compute. reflexivity.
Qed.

Lemma log_replays_accepted_events_witness : Verify log2 = Ok tt ∧ ReplayEvents log2 = Ok [note 1; note 2].
Proof.
  destruct (log_replays_accepted_events log2 [note 1; note 2] log2_logged ltac:(reflexivity)) as (Hv & Hr & _).
  exact (conj Hv Hr).
Defined.

Lemma chain_tamper_evident_witness : Records log2 = Records log2 ∨ collision (chain_texts (Records log2) ++ chain_texts (Records log2)).
Proof.
  refine (chain_tamper_evident (Records log2) (Records log2) _ _ eq_refl eq_refl); vm_compute; reflexivity.
Defined.

Definition primary_records : list LogRecord := Eval vm_compute in Records log2.
Definition follower : File := Eval vm_compute in (Ingest true log0 0 primary_records).1.1.

Lemma primary_sequences r :
  r ∈ primary_records → 1 <= Rec_Sequence r ∧ Event_Sequence (Rec_Event r) = Rec_Sequence r.
Proof.
  unfold primary_records. rewrite !elem_of_cons. intros [->|[->|Hr]]; [done..|]. by apply not_elem_of_nil in Hr.
Qed.

(** Witness: an empty follower ingests the two records of the primary. *)
Lemma ingest_agrees_witness : held_hashes log0 `prefix_of` held_hashes follower.
Proof.
  assert (logged log0 []) as Hl by (apply logged_open; vm_compute; reflexivity).
  assert (Ingest true log0 0 primary_records = (follower, 2, Ok tt)) as Hi by (vm_compute; reflexivity).
  exact (proj1 (ingest_agrees true log0 0 [] primary_records follower 2 Hl ltac:(vm_compute; reflexivity)
    primary_sequences Hi)).
Defined.
