(* ===== verification/Durable.v ===== *)
(** * Rebuilding the world from the log (src/control/durable.go)

    The server-side projection: a base world of facts not derived from evidence, and
    the world obtained by replaying every recorded observation over it.  The engine
    (src/control/engine.go) projects an observation first and records it second, and the
    server goes on when a record could not be written; the theorem says what a restart
    then finds in the log, and that it finds the world it had when no record was lost. *)

From S2P Require Import Prelude Types Text Clone Projection History Executor EventLog.
Open Scope Z_scope.

Record DurableProjector := mkProjector { Projector_base : World; Projector_world : World }.

(** The replay loop shared by [NewDurableProjector] and [Rebuild]. *)
Definition replay_over (w : World) (evidence : list Evidence) : result World :=
  for_each (λ w item, wrap_err "replay evidence %d (%s for %q): %w" (Project w item)) w evidence.

(** A nil source is [None]; a source may itself fail. *)
Definition NewDurableProjector (base : World) (source : option (result (list Evidence)))
    : result DurableProjector :=
  let projector := mkProjector (cloneWorld base) (cloneWorld base) in
  match source with
  | None => Ok projector
  | Some replayed =>
      let* evidence := wrap_err "replay evidence: %w" replayed in
      let* world := replay_over (Projector_world projector) evidence in
      Ok (mkProjector (Projector_base projector) world)
  end.

Definition Projector_World (p : DurableProjector) : World := cloneWorld (Projector_world p).

Definition Projector_Project (p : DurableProjector) (e : Evidence) : DurableProjector * result unit :=
  match Project (Projector_world p) e with
  | Err err => (p, Err err)
  | Ok next => (mkProjector (Projector_base p) next, Ok tt)
  end.

Definition Rebuild (p : DurableProjector) (source : option (result (list Evidence)))
    : DurableProjector * result unit :=
  match source with
  | None => (mkProjector (Projector_base p) (cloneWorld (Projector_base p)), Ok tt)
  | Some replayed =>
      match (let* evidence := wrap_err "replay evidence: %w" replayed in
             replay_over (cloneWorld (Projector_base p)) evidence) with
      | Err err => (p, Err err)
      | Ok rebuilt => (mkProjector (Projector_base p) rebuilt, Ok tt)
      end
  end.

(** ** Replay is projection *)

Lemma replay_over_ok w evidence w' : replay_over w evidence = Ok w' ↔ projectAll w evidence = Ok w'.
Proof.
  unfold replay_over, projectAll. revert w. induction evidence as [|e l IH]; intros w; [done|].
  cbn [for_each]. destruct (Project w e); cbn [wrap_err rbind]; [apply IH|done].
Qed.

Lemma projectAll_snoc w evidence w1 e w2 :
  projectAll w evidence = Ok w1 → Project w1 e = Ok w2 → projectAll w (evidence ++ [e]) = Ok w2.
Proof.
  unfold projectAll. intros H1 H2. rewrite for_each_app, H1. cbn [rbind for_each]. by rewrite H2.
Qed.

(** ** A server and its log *)

Section Server.
Context {codec : EventCodec} {digest : Digest} {claws : EventCodecLaws codec} {dlaws : DigestLaws digest}.

(** The lives of a server over [base]: the flag says whether, since the last start, an
    observation was projected whose recording then failed, so that the world and the log
    have parted.  The server goes on observing and recording all the same. *)
Inductive serving (base : World) : bool → DurableProjector → File → list Event → Prop :=
  | serving_start f p :
      Open fresh_database = Ok f → NewDurableProjector base None = Ok p → serving base false p f []
  | serving_observed lost p f evs e evidence p' commits f' :
      serving base lost p f evs → Event_Evidence e = Some evidence →
      Projector_Project p evidence = (p', Ok tt) → Append commits f e = (f', Ok tt) →
      serving base lost p' f' (evs ++ [e])
  | serving_refused lost p f evs evidence p' err :
      serving base lost p f evs → Projector_Project p evidence = (p', Err err) → serving base lost p' f evs
  | serving_lost lost p f evs e evidence p' commits f' err :
      serving base lost p f evs → Event_Evidence e = Some evidence →
      Projector_Project p evidence = (p', Ok tt) → Append commits f e = (f', Err err) →
      serving base true p' f' evs
  | serving_noted lost p f evs e commits f' :
      serving base lost p f evs → Event_Evidence e = None → Append commits f e = (f', Ok tt) →
      serving base lost p f' (evs ++ [e])
  | serving_unnoted lost p f evs e commits f' err :
      serving base lost p f evs → Event_Evidence e = None → Append commits f e = (f', Err err) →
      serving base lost p f' evs
  | serving_restart lost p f evs db f' p' :
      serving base lost p f evs → file_db f = Some db → Open db = Ok f' →
      NewDurableProjector base (Some (ReplayEvidence f')) = Ok p' → serving base false p' f' evs.

Lemma serving_logged base lost p f evs : serving base lost p f evs → logged f evs.
Proof.
  induction 1; try done.
  - by constructor.
  - by eapply logged_append.
  - by eapply logged_refused.
  - by eapply logged_append.
  - by eapply logged_refused.
  - by eapply logged_restart.
Qed.

Definition evidence_of (evs : list Event) : list Evidence := omap Event_Evidence evs.

Lemma evidence_snoc evs e :
  evidence_of (evs ++ [e]) = evidence_of evs ++ match Event_Evidence e with Some x => [x] | None => [] end.
Proof. unfold evidence_of. rewrite omap_app. cbn. by destruct (Event_Evidence e). Qed.

(** What a projector built from a log holds is the projection of the recorded evidence. *)
Lemma NewDurableProjector_replays base f evs p :
  logged f evs → len evs < two64 →
  NewDurableProjector base (Some (ReplayEvidence f)) = Ok p ↔
  Projector_base p = base ∧ projectAll base (evidence_of evs) = Ok (Projector_world p).
Proof.
  intros Hl Hn. destruct (log_reads f evs Hl Hn) as (_ & _ & Hre). unfold NewDurableProjector.
  rewrite Hre, cloneWorld_id. cbn [wrap_err rbind Projector_world Projector_base]. fold (evidence_of evs).
  rewrite <-replay_over_ok. destruct (replay_over base (evidence_of evs)) as [w|]; cbn [rbind]; [|naive_solver].
  destruct p as [b pw]. cbn. naive_solver.
Qed.

(** Until a record is lost, the world is the projection of what is recorded. *)
Lemma serving_replays base lost p f evs :
  serving base lost p f evs → len evs < two64 →
  Projector_base p = base ∧ (lost = false → projectAll base (evidence_of evs) = Ok (Projector_world p)).
Proof.
  assert (∀ (l : list Event) e, len (l ++ [e]) = len l + 1) as Hlen
    by (intros; unfold len; rewrite length_app; simpl; lia).
  induction 1 as [f p Ho Hp|lost p f evs e ev p' commits f' _ IH Hev Hp Ha|lost p f evs ev p' err _ IH Hp
    |lost p f evs e ev p' commits f' err _ IH Hev Hp Ha|lost p f evs e commits f' _ IH Hev Ha
    |lost p f evs e commits f' err _ IH Hev Ha|lost p f evs db f' p' Hs IH Hdb Ho Hp]; intros Hn.
  - unfold NewDurableProjector in Hp. injection Hp as <-. cbn. by rewrite cloneWorld_id.
  - rewrite Hlen in Hn. destruct (IH ltac:(lia)) as [Hb Hsync].
    unfold Projector_Project in Hp. destruct (Project (Projector_world p) ev) as [w'|] eqn:E; [|done].
    injection Hp as <-. split; [done|]. intros Hlost. rewrite evidence_snoc, Hev. eapply projectAll_snoc; [by apply Hsync|done].
  - unfold Projector_Project in Hp. destruct (Project _ _); [done|]. injection Hp as <-. auto.
  - unfold Projector_Project in Hp. destruct (Project _ _); [|done]. injection Hp as <-. split; [by apply IH|done].
  - rewrite Hlen in Hn. destruct (IH ltac:(lia)) as [Hb Hsync]. split; [done|]. by rewrite evidence_snoc, Hev, app_nil_r.
  - by apply IH.
  - apply (NewDurableProjector_replays base f' evs) in Hp as [Hb Hw]; [done| |done].
    eapply logged_restart; [by eapply serving_logged|done..].
Qed.

(** C7: a restart finds what was recorded.  However a server over a base world lived, with
    observations accepted, refused or lost on the way to the log, records that went
    through after one was lost, and earlier restarts: its database opens and gives back
    exactly the recorded observations in order; a projector built from it holds their
    projection, and there is one exactly when they project; and when no observation that
    was projected since the last start failed to be recorded, there is one, it is the one
    the server had, and rebuilding changes nothing. *)
Theorem server_recovers base lost p f evs (H : serving base lost p f evs) (Hn : len evs < two64) :
  ∃ db f', file_db f = Some db ∧ Open db = Ok f' ∧ ReplayEvidence f' = Ok (evidence_of evs) ∧
    (∀ p', NewDurableProjector base (Some (ReplayEvidence f')) = Ok p' ↔
       Projector_base p' = base ∧ projectAll base (evidence_of evs) = Ok (Projector_world p')) ∧
    (lost = false → NewDurableProjector base (Some (ReplayEvidence f')) = Ok p ∧
                    Rebuild p (Some (ReplayEvidence f')) = (p, Ok tt)).
Proof.
  pose proof (serving_logged _ _ _ _ _ H) as Hl. destruct (serving_replays _ _ _ _ _ H Hn) as [Hb Hsync].
  destruct (log_reopens f evs Hl Hn) as (db & f' & Hdb & Ho).
  assert (logged f' evs) as Hl' by by eapply logged_restart.
  destruct (log_reads f' evs Hl' Hn) as (_ & _ & Hre). exists db, f'. do 3 (split; [done|]).
  split; [intros p'; by apply NewDurableProjector_replays|]. intros Hlost. specialize (Hsync Hlost).
  split; [by apply (NewDurableProjector_replays base f' evs)|].
  unfold Rebuild. rewrite Hre, Hb, cloneWorld_id. cbn [wrap_err rbind]. apply replay_over_ok in Hsync.
  fold (evidence_of evs). rewrite Hsync. destruct p as [b w]. cbn in *. by subst b.
Qed.
End Server.

(** ** A concrete server: one observation recorded, or the first of two lost *)

Definition created_event : Event :=
  mkEvent 1 5 EventActionCompleted "node-executor" "g1" "p1" "a" "db-0" "create_allocation" 0 ""
    (Some (create_evidence "db-0" 1)).
Definition running_evidence : Evidence := evidence EvidenceAllocationRunning "db-0" 4 [].
(** The first record of a log from which the creation is missing. *)
Definition running_event : Event :=
  mkEvent 1 6 EventActionCompleted "node-executor" "g1" "p1" "b" "db-0" "start_allocation" 0 "" (Some running_evidence).
Definition one_event_codec : EventCodec := {|
  marshal e := if decide (e = created_event) then Some "1" else if decide (e = running_event) then Some "2" else None;
  unmarshal s := if decide (s = "1") then Some created_event else if decide (s = "2") then Some running_event else None |}.
Lemma one_event_laws : EventCodecLaws one_event_codec.
Proof.
  intros e s. unfold one_event_codec. cbn [marshal unmarshal].
  destruct (decide (e = created_event)) as [->|]; [by intros [= <-]|].
  destruct (decide (e = running_event)) as [->|]; [by intros [= <-]|done].
Qed.

#[local] Existing Instances one_event_codec toy_digest one_event_laws toy_digest_laws.

Definition created_log : File := Eval vm_compute in (Append true log0 created_event).1.

Lemma server_recovers_witness :
  ∃ db f', file_db created_log = Some db ∧ Open db = Ok f' ∧ ReplayEvidence f' = Ok [create_evidence "db-0" 1] ∧
    (∀ p', NewDurableProjector empty_world (Some (ReplayEvidence f')) = Ok p' ↔
       Projector_base p' = empty_world ∧ projectAll empty_world [create_evidence "db-0" 1] = Ok (Projector_world p')) ∧
    (false = false → NewDurableProjector empty_world (Some (ReplayEvidence f')) = Ok (mkProjector empty_world created_world) ∧
       Rebuild (mkProjector empty_world created_world) (Some (ReplayEvidence f')) = (mkProjector empty_world created_world, Ok tt)).
Proof.
  refine (server_recovers empty_world false (mkProjector empty_world created_world) created_log [created_event]
    _ ltac:(vm_compute; reflexivity)).
  refine (serving_observed empty_world false (mkProjector empty_world empty_world) log0 [] created_event
    (create_evidence "db-0" 1) (mkProjector empty_world created_world) true created_log _ eq_refl _ _).
  - apply serving_start; vm_compute; reflexivity.
  - vm_compute. reflexivity.
  - vm_compute. reflexivity.
Defined.

(** The creation is projected and its record lost; the start is projected and recorded. *)
Definition unrecorded : File := Eval vm_compute in (Append false log0 created_event).1.
Definition parted_log : File := Eval vm_compute in (Append true unrecorded running_event).1.
Definition parted_world : World := Eval vm_compute in run created_world [running_evidence].
Definition commit_error : error := Eval vm_compute in match (Append false log0 created_event).2 with Err e => e | Ok _ => Errorf "" end.
Definition reopened (f : File) : result DurableProjector :=
  match file_db f with
  | Some db => let* f := Open db in NewDurableProjector empty_world (Some (ReplayEvidence f))
  | None => Err (Errorf "closed")
  end.

(** A server that goes on after a lost record can leave a log that opens but that no server
    starts from. *)
Lemma lost_record_blocks_restart :
  serving empty_world true (mkProjector empty_world parted_world) parted_log [running_event] ∧
  (is_Some (file_db parted_log) ∧ is_Ok (Open (default fresh_database (file_db parted_log)))) ∧ ¬ is_Ok (reopened parted_log).
Proof.
  split; [|split; [vm_compute; split; [by eexists|exact I]|vm_compute; by intros []]].
  refine (serving_observed empty_world true (mkProjector empty_world created_world) unrecorded [] running_event running_evidence
    (mkProjector empty_world parted_world) true parted_log _ eq_refl _ _); [|vm_compute; reflexivity..].
  refine (serving_lost empty_world false (mkProjector empty_world empty_world) log0 [] created_event (create_evidence "db-0" 1)
    (mkProjector empty_world created_world) false unrecorded commit_error _ eq_refl _ _); [|vm_compute; reflexivity..].
  apply serving_start; vm_compute; reflexivity.
Qed.
