(* ===== verification/Lease.v ===== *)
(** * Exclusive claims on mutation targets (src/control/lease.go)

    A lease manager grants a proposal every target it intends to mutate, or nothing,
    until a time; the clock is read once per call and is an argument here. *)

From S2P Require Import Prelude Types Text.
Open Scope Z_scope.

Definition DefaultLeaseTTL : duration := 5 * Minute.

Record Lease := mkLease {
  Lease_Target : string; Lease_ProposalID : string; Lease_GoalID : string; Lease_ID : string;
  Lease_ExpiresAt : time }.

(** [LeaseManager]: the leases by target, and the lifetime of a grant. *)
Record LeaseManager := mkLeaseManager { leases : gmap string Lease; ttl : duration }.

Definition NewLeaseManager : LeaseManager := mkLeaseManager ∅ DefaultLeaseTTL.
Definition WithTTL (m : LeaseManager) (t : duration) : LeaseManager := mkLeaseManager (leases m) t.

(** [fmt.Sprintf("lease-%s-%d", proposalID, now.UnixNano())] *)
Definition lease_id (proposalID : string) (now : time) : string :=
  "lease-" +:+ proposalID +:+ "-" +:+ Sprint now.

(** The check of one target: free, expired, or already this proposal's. *)
Definition available_to (m : LeaseManager) (now : time) (proposalID target : string) : result unit :=
  match leases m !! target with
  | None => Ok tt
  | Some existing =>
      if negb (Before now (Lease_ExpiresAt existing)) then Ok tt
      else
        refuse (negb (bool_decide (Lease_ProposalID existing = proposalID)))
          "target %q is leased by proposal %q until %s";
        Ok tt
  end.

Definition Acquire (m : LeaseManager) (now : time) (goalID proposalID : string) (targets : list string)
    : LeaseManager * result string :=
  let ordered := sort_Strings ([] ++ targets) in
  match for_all (available_to m now proposalID) ordered with
  | Err e => (m, Err e)
  | Ok _ =>
      let leaseID := lease_id proposalID now in
      let expiry := time_Add now (ttl m) in
      (mkLeaseManager
         (foldl (λ l target, <[target := mkLease target proposalID goalID leaseID expiry]> l)
            (leases m) ordered) (ttl m), Ok leaseID)
  end.

Definition Release (m : LeaseManager) (leaseID : string) : LeaseManager :=
  mkLeaseManager (filter (λ '(_, lease), Lease_ID lease ≠ leaseID) (leases m)) (ttl m).

Definition Holder (m : LeaseManager) (now : time) (target : string) : option Lease :=
  match leases m !! target with
  | None => None
  | Some lease => if negb (Before now (Lease_ExpiresAt lease)) then None else Some lease
  end.

(** The kinds whose targets are claimed. *)
Definition leased_kind (k : ActionKind) : bool :=
  match k with
  | ActionCreateAllocation | ActionStartAllocation | ActionStopAllocation | ActionDeleteAllocation
  | ActionPublishRoute => true
  | _ => false
  end.

Definition LeaseTargets (p : Proposal) : list string :=
  let targets := foldl (λ targets a,
    if negb (leased_kind (Action_Kind a)) then targets
    else if bool_decide (Action_Target a = "") || bool_decide (Action_Target a ∈ targets) then targets
    else targets ++ [Action_Target a]) [] (Proposal_Actions p) in
  sort_Strings targets.

(** ** What is claimed *)

Lemma lease_targets_loop l acc :
  NoDup acc →
  let out := foldl (λ targets a,
    if negb (leased_kind (Action_Kind a)) then targets
    else if bool_decide (Action_Target a = "") || bool_decide (Action_Target a ∈ targets) then targets
    else targets ++ [Action_Target a]) acc l in
  NoDup out ∧ ∀ t, t ∈ out ↔ t ∈ acc ∨
    (t ≠ "" ∧ ∃ a, a ∈ l ∧ leased_kind (Action_Kind a) = true ∧ Action_Target a = t).
Proof.
  revert acc. induction l as [|a l IH]; intros acc Hnd; cbn [foldl].
  { split; [done|]. intros t. split; [auto|]. intros [?|(_ & a & Ha & _)]; [done|]. by apply not_elem_of_nil in Ha. }
  assert (∀ acc', NoDup acc' → (∀ t, t ∈ acc' ↔ t ∈ acc ∨
    (t ≠ "" ∧ leased_kind (Action_Kind a) = true ∧ Action_Target a = t)) →
    let out := foldl (λ targets a,
      if negb (leased_kind (Action_Kind a)) then targets
      else if bool_decide (Action_Target a = "") || bool_decide (Action_Target a ∈ targets) then targets
      else targets ++ [Action_Target a]) acc' l in
    NoDup out ∧ ∀ t, t ∈ out ↔ t ∈ acc ∨
      (t ≠ "" ∧ ∃ b, b ∈ a :: l ∧ leased_kind (Action_Kind b) = true ∧ Action_Target b = t)) as Hstep.
  { intros acc' Hnd' Hacc'. destruct (IH acc' Hnd') as [H1 H2]. split; [done|]. intros t. rewrite H2, Hacc'.
    setoid_rewrite elem_of_cons. naive_solver. }
  apply Hstep.
  - destruct (leased_kind (Action_Kind a)); [|done]. cbn [negb].
    destruct (bool_decide (Action_Target a = "") || _) eqn:E; [done|]. bool_simpl.
    apply NoDup_app. split; [done|]. split; [|apply NoDup_singleton]. intros x Hx ->%list_elem_of_singleton. done.
  - intros t. destruct (leased_kind (Action_Kind a)); cbn [negb]; [|naive_solver].
    destruct (bool_decide (Action_Target a = "") || bool_decide _) eqn:E.
    + split; [auto|]. intros [?|(Hne & _ & <-)]; [done|]. rewrite bool_decide_false in E by done.
      simpl in E. by bool_simpl.
    + bool_simpl. rewrite elem_of_app, list_elem_of_singleton. naive_solver.
Qed.

(** ** Exclusion *)

Section Exclusion.
Implicit Types (m : LeaseManager) (now : time).

Lemma acquire_lookup (l : gmap string Lease) ordered p g i x t :
  foldl (λ l target, <[target := mkLease target p g i x]> l) l ordered !! t =
  if bool_decide (t ∈ ordered) then Some (mkLease t p g i x) else l !! t.
Proof.
  revert l. induction ordered as [|o ordered IH]; intros l; [done|]. cbn [foldl]. rewrite IH.
  destruct (decide (t ∈ ordered)) as [Ht|Ht].
  { rewrite !bool_decide_true; [done|by right|done]. }
  rewrite (bool_decide_false (t ∈ ordered)) by done. destruct (decide (o = t)) as [->|Hne].
  - rewrite lookup_insert_eq, bool_decide_true; [done|by left].
  - rewrite lookup_insert_ne, bool_decide_false; [done| |done]. rewrite elem_of_cons. naive_solver.
Qed.

Lemma Acquire_ok m now g p targets m' id :
  Acquire m now g p targets = (m', Ok id) →
  ttl m' = ttl m ∧ (∀ t, t ∈ targets → available_to m now p t = Ok tt) ∧
  ∀ t, leases m' !! t = if bool_decide (t ∈ targets)
                        then Some (mkLease t p g id (now + ttl m)) else leases m !! t.
Proof.
  unfold Acquire. cbn [app]. destruct (for_all _ _) as [[]|] eqn:E; [|done]. intros [= <- <-].
  split; [done|]. rewrite for_all_ok in E. split.
  - intros t Ht. apply E. by apply elem_of_sort_Strings.
  - intros t. cbn [leases]. rewrite acquire_lookup. unfold time_Add.
    by rewrite (bool_decide_ext _ _ (elem_of_sort_Strings targets t)).
Qed.

Lemma Acquire_error m now g p targets m' e : Acquire m now g p targets = (m', Err e) → m' = m.
Proof. unfold Acquire. destruct (for_all _ _); [done|]. by intros [= <- _]. Qed.

(** The live holder of a target. *)
Lemma Holder_Some m now t l :
  Holder m now t = Some l ↔ leases m !! t = Some l ∧ now < Lease_ExpiresAt l.
Proof.
  unfold Holder, Before. destruct (leases m !! t) as [x|]; [|naive_solver].
  destruct (Z.ltb_spec now (Lease_ExpiresAt x)); simpl; naive_solver lia.
Qed.

(** A refusal names a target another proposal really holds. *)
Lemma refused_conflict m now p targets e :
  for_all (available_to m now p) targets = Err e →
  ∃ t l, t ∈ targets ∧ Holder m now t = Some l ∧ Lease_ProposalID l ≠ p.
Proof.
  unfold for_all. induction targets as [|t l IH]; cbn [for_each]; [done|].
  destruct (available_to m now p t) as [[]|] eqn:E; cbn [rbind].
  - intros H. destruct (IH H) as (t' & x & Hin & Hx). exists t', x. split; [by right|done].
  - intros _. unfold available_to in E. destruct (leases m !! t) as [x|] eqn:Ex; [|done].
    destruct (negb (Before now _)) eqn:Eb; [done|]. destruct (bool_decide _) eqn:Ep; [done|]. bool_simpl.
    exists t, x. split; [by left|]. split; [|done]. apply Holder_Some. unfold Before in Eb. by bool_simpl.
Qed.

Lemma available_holder m now p t l :
  available_to m now p t = Ok tt → Holder m now t = Some l → Lease_ProposalID l = p.
Proof.
  intros Ha [Hl Hn]%Holder_Some. unfold available_to in Ha. rewrite Hl in Ha. unfold Before in Ha.
  rewrite (proj2 (Z.ltb_lt _ _)) in Ha by done. cbn [negb] in Ha.
  destruct (bool_decide _) eqn:E; [|done]. by bool_simpl.
Qed.

(** Acquisition is exclusive and all-or-nothing.  A grant is given only when no
    target has another live holder, and then covers exactly the targets asked for,
    until the same time and under one id, leaving every other lease alone.  A refusal
    changes nothing, and is given only when some target really is held by another
    proposal. *)
Theorem acquire_exclusive m now g p targets :
  match Acquire m now g p targets with
  | (m', Ok id) =>
      (∀ t l, t ∈ targets → Holder m now t = Some l → Lease_ProposalID l = p) ∧
      (∀ t, t ∈ targets → leases m' !! t = Some (mkLease t p g id (now + ttl m))) ∧
      (∀ t, t ∉ targets → leases m' !! t = leases m !! t)
  | (m', Err _) => m' = m ∧ ∃ t l, t ∈ targets ∧ Holder m now t = Some l ∧ Lease_ProposalID l ≠ p
  end.
Proof.
  destruct (Acquire m now g p targets) as [m' [id|e]] eqn:E.
  - destruct (Acquire_ok _ _ _ _ _ _ _ E) as (_ & Ha & Hl). split_and!.
    + intros t l Ht. by apply available_holder, Ha.
    + intros t Ht. by rewrite Hl, bool_decide_true.
    + intros t Ht. by rewrite Hl, bool_decide_false.
  - split; [by eapply Acquire_error|]. unfold Acquire in E. cbn [app] in E.
    destruct (for_all _ _) eqn:Ef; [done|]. destruct (refused_conflict _ _ _ _ _ Ef) as (t & l & Ht & Hx).
    exists t, l. by rewrite <-elem_of_sort_Strings.
Qed.

(** ** Over time *)

(** What may happen while proposal [p] holds its grant: calls of [Acquire] by anyone,
    and releases of leases that are not [p]'s, at times that never go back. *)
Inductive lease_steps (p : string) : LeaseManager → time → LeaseManager → time → Prop :=
  | steps_none m t : lease_steps p m t m t
  | steps_acquire m t m1 t1 now g q targets m2 r :
      lease_steps p m t m1 t1 → t1 <= now → Acquire m1 now g q targets = (m2, r) →
      lease_steps p m t m2 now
  | steps_release m t m1 t1 id :
      lease_steps p m t m1 t1 →
      (∀ t l, leases m1 !! t = Some l → Lease_ID l = id → Lease_ProposalID l ≠ p) →
      lease_steps p m t (Release m1 id) t1.

(** [target] stays with [p] at least until [until]. *)
Definition held_until m (target p : string) (until : time) : Prop :=
  ∃ l, leases m !! target = Some l ∧ Lease_ProposalID l = p ∧ until <= Lease_ExpiresAt l.

Lemma Release_lookup m id t :
  leases (Release m id) !! t =
  match leases m !! t with
  | Some l => if bool_decide (Lease_ID l = id) then None else Some l
  | None => None
  end.
Proof.
  unfold Release. cbn [leases]. rewrite map_lookup_filter. destruct (leases m !! t) as [l|]; [|done].
  cbn. case_bool_decide; [|by rewrite option_guard_True]. by rewrite option_guard_False by auto.
Qed.

Lemma held_until_acquire m target p until now g q targets m' r :
  held_until m target p until → now < until → until <= now + ttl m →
  Acquire m now g q targets = (m', r) → held_until m' target p until.
Proof.
  intros (l & Hl & Hp & Hu) Hnow Hq Ha. destruct r as [id|e].
  2:{ apply Acquire_error in Ha as ->. by exists l. }
  destruct (Acquire_ok _ _ _ _ _ _ _ Ha) as (_ & Hav & Hlk).
  destruct (decide (target ∈ targets)) as [Hin|Hin]; [|exists l; by rewrite Hlk, bool_decide_false].
  assert (q = p) as ->.
  { rewrite <-Hp. symmetry. eapply available_holder; [by apply Hav|]. apply Holder_Some. split; [done|lia]. }
  eexists. rewrite Hlk, bool_decide_true by done. split; [done|]. split; [done|]. cbn. lia.
Qed.

Lemma held_until_release m target p until id :
  held_until m target p until →
  (∀ t l, leases m !! t = Some l → Lease_ID l = id → Lease_ProposalID l ≠ p) →
  held_until (Release m id) target p until.
Proof.
  intros (l & Hl & Hp & Hu) Hid. exists l. rewrite Release_lookup, Hl.
  rewrite bool_decide_false; [done|]. intros E. by apply (Hid target l).
Qed.

Lemma Acquire_ttl m now g p targets m' r : Acquire m now g p targets = (m', r) → ttl m' = ttl m.
Proof.
  destruct r; intros Ha; [by destruct (Acquire_ok _ _ _ _ _ _ _ Ha) as [-> _]|].
  by apply Acquire_error in Ha as ->.
Qed.

Lemma lease_steps_ttl p m t m' t' : lease_steps p m t m' t' → ttl m' = ttl m ∧ t <= t'.
Proof.
  induction 1 as [|m t m1 t1 now g q targets m2 r _ [IH1 IH2] Hle Ha|]; [split; [done|lia]| |done].
  split; [|lia]. by rewrite (Acquire_ttl _ _ _ _ _ _ _ Ha).
Qed.

Lemma lease_steps_held p m t m' t' target until :
  lease_steps p m t m' t' → held_until m target p until → until <= t + ttl m → t' < until →
  held_until m' target p until.
Proof.
  induction 1 as [|m t m1 t1 now g q targets m2 r Hst IH Hle Ha|m t m1 t1 id Hst IH Hid];
    intros Hh Hu Hlt; [done| |].
  - destruct (lease_steps_ttl _ _ _ _ _ Hst) as [Ht Hge].
    eapply held_until_acquire; [apply IH; [done|done|lia]|done|lia|exact Ha].
  - apply held_until_release; [|done]. by apply IH.
Qed.

(** The lease targets of a proposal are those of its leased actions, once each. *)
Lemma elem_of_LeaseTargets P t :
  t ∈ LeaseTargets P ↔
  t ≠ "" ∧ ∃ a, a ∈ Proposal_Actions P ∧ leased_kind (Action_Kind a) = true ∧ Action_Target a = t.
Proof.
  unfold LeaseTargets. rewrite elem_of_sort_Strings.
  destruct (lease_targets_loop (Proposal_Actions P) [] (NoDup_nil_2)) as [_ ->].
  rewrite elem_of_nil. naive_solver.
Qed.

(** C37: concurrent proposals never claim one target.  Once a proposal [P] is granted
    its lease targets, then until the grant expires, and whatever anyone else acquires
    or releases meanwhile, each target one of its leased actions names still has [P] as
    its live holder, and the acquisition of any other proposal [Q] with a leased action
    on that target is refused without changing a lease. *)
Theorem lease_mutual_exclusion m now g P m1 id m2 t2 now2 g2 Q a b
    (HP : Acquire m now g (Proposal_ID P) (LeaseTargets P) = (m1, Ok id))
    (Hsteps : lease_steps (Proposal_ID P) m1 now m2 t2)
    (Hmono : t2 <= now2) (Hlive : now2 < now + ttl m)
    (HQ : Proposal_ID Q ≠ Proposal_ID P)
    (Ha : a ∈ Proposal_Actions P) (Hak : leased_kind (Action_Kind a) = true)
    (Hb : b ∈ Proposal_Actions Q) (Hbk : leased_kind (Action_Kind b) = true)
    (Hab : Action_Target b = Action_Target a) (Hne : Action_Target a ≠ "") :
  (∃ l, Holder m2 now2 (Action_Target a) = Some l ∧ Lease_ProposalID l = Proposal_ID P) ∧
  ∃ e, Acquire m2 now2 g2 (Proposal_ID Q) (LeaseTargets Q) = (m2, Err e).
Proof.
  assert (Action_Target a ∈ LeaseTargets P) as HtP by (apply elem_of_LeaseTargets; eauto).
  assert (Action_Target a ∈ LeaseTargets Q) as HtQ by (rewrite <-Hab in *; apply elem_of_LeaseTargets; eauto).
  destruct (Acquire_ok _ _ _ _ _ _ _ HP) as (Ht & _ & Hl).
  assert (held_until m2 (Action_Target a) (Proposal_ID P) (now + ttl m)) as (l & Hlk & Hp & Hu).
  { eapply lease_steps_held; [exact Hsteps| |lia|lia]. eexists. rewrite Hl, bool_decide_true by done.
    split; [done|]. split; [done|]. cbn. lia. }
  assert (Holder m2 now2 (Action_Target a) = Some l) as Hh by (apply Holder_Some; split; [done|lia]).
  split; [by exists l|].
  destruct (Acquire m2 now2 g2 (Proposal_ID Q) (LeaseTargets Q)) as [m3 [i|e]] eqn:E.
  - destruct (Acquire_ok _ _ _ _ _ _ _ E) as (_ & Hav & _). destruct HQ. rewrite <-Hp. symmetry.
    eapply available_holder; [by apply Hav|exact Hh].
  - apply Acquire_error in E as ->. by exists e.
Qed.
End Exclusion.

Definition lease_action (kind : ActionKind) (target : string) : Action :=
  Action_zero <| Action_Kind := kind |> <| Action_Target := target |>.
Definition lease_p1 : Proposal := mkProposal "p1" "agent" "g1" 7 ""
  [lease_action ActionPullImage "node-a"; lease_action ActionStopAllocation "web-0"] [].
Definition lease_p2 : Proposal := mkProposal "p2" "agent" "g2" 7 ""
  [lease_action ActionDeleteAllocation "web-0"; lease_action ActionStartAllocation "web-2"] [].
Definition lease_p3 : Proposal := mkProposal "p3" "agent" "g3" 7 ""
  [lease_action ActionStartAllocation "web-3"] [].
Definition lease_m1 : LeaseManager := (Acquire NewLeaseManager 10 "g1" "p1" (LeaseTargets lease_p1)).1.
Definition lease_m2 : LeaseManager := (Acquire lease_m1 12 "g3" "p3" (LeaseTargets lease_p3)).1.

Lemma lease_mutual_exclusion_witness :
  (∃ l, Holder lease_m2 20 "web-0" = Some l ∧ Lease_ProposalID l = "p1") ∧
  ∃ e, Acquire lease_m2 20 "g2" "p2" (LeaseTargets lease_p2) = (lease_m2, Err e).
Proof.
  refine (lease_mutual_exclusion NewLeaseManager 10 "g1" lease_p1 lease_m1 "lease-p1-10"
    lease_m2 12 20 "g2" lease_p2 (lease_action ActionStopAllocation "web-0")
    (lease_action ActionDeleteAllocation "web-0") _ _ _ _ _ _ _ _ _ _ _).
  - vm_compute. reflexivity.
  - eapply (steps_acquire _ _ _ lease_m1 10 12 "g3" "p3" (LeaseTargets lease_p3) _ (Ok "lease-p3-12"));
      [apply steps_none|discriminate|vm_compute; reflexivity].
  - discriminate.
  - reflexivity.
  - discriminate.
  - right. left.
  - reflexivity.
  - left.
  - reflexivity.
  - reflexivity.
  - discriminate.
Defined.
