(* ===== verification/Provenance.v ===== *)
(** * Image provenance (src/control/provenance.go)

    A builder's signed statement about one image and its verification.  The
    signature scheme, base64 and the JSON decoder are library code: they are the
    operations of the class [Attest], and nothing below relies on more than their
    types. *)

From S2P Require Import Prelude Types.
Open Scope Z_scope.

Definition AttestationVersion : Z := 1.

Record ImageStatement := mkImageStatement {
  Statement_Version : Z; Statement_Image : string; Statement_Builder : string;
  Statement_KeyID : string; Statement_BuiltAt : time; Statement_ExpiresAt : time }.

(** A public key is its bytes. *)
Definition PublicKeySize : nat := 32.

(** Outcome of strict decoding: malformed, decoded with trailing content, decoded. *)
Inductive decoded (A : Type) := Malformed | Trailing (a : A) | Decoded (a : A).
Arguments Malformed {A}.
Arguments Trailing {A} a.
Arguments Decoded {A} a.

Class Attest := {
  base64_Decode : string → option string;
  ed25519_Verify : string → string → string → bool;
  decode_statement : string → decoded ImageStatement;
}.

(** [digestPattern]: [@sha256:[a-f0-9]{64}$] *)
Definition is_hex (c : Ascii.ascii) : bool :=
  let n := Ascii.N_of_ascii c in ((48 <=? n) && (n <=? 57) || (97 <=? n) && (n <=? 102))%N.
Fixpoint all_hex (s : string) : bool :=
  match s with "" => true | String c s' => is_hex c && all_hex s' end.
Definition digestPattern (s : string) : bool :=
  let n := String.length s in
  (72 <=? n)%nat && String.eqb (String.substring (n - 72) 8 s) "@sha256:"
  && all_hex (String.substring (n - 64) 64 s).

Definition validateStatement (s : ImageStatement) : result unit :=
  refuse (negb (Statement_Version s =? AttestationVersion)) "unsupported image attestation version %d";
  refuse (negb (digestPattern (Statement_Image s))) "image attestation must name a digest-pinned image";
  refuse (bool_decide (Statement_Builder s = "")) "image attestation must name a builder";
  refuse (IsZero (Statement_BuiltAt s)) "image attestation requires a build time";
  refuse (negb (IsZero (Statement_ExpiresAt s)) &&
          negb (After (Statement_ExpiresAt s) (Statement_BuiltAt s)))
    "image attestation expiry must follow its build time";
  Ok tt.

Section Verify.
Context `{att : Attest} {clock : WallClock}.

Definition VerifyImageAttestation (signed : SignedAttestation) (image : string)
    (signers : gmap string string) (now : time) : result ImageStatement :=
  refuse (bool_decide (signers = ∅)) "no image signers are configured";
  refuse (bool_decide (Attested_Bytes signed = "")) "image attestation carries no statement";
  need public := signers !! Attested_KeyID signed else "image is not attested by a trusted signer";
  refuse (negb (String.length public =? PublicKeySize)%nat) "image is not attested by a trusted signer";
  need signature := base64_Decode (Attested_Signature signed)
    else "image attestation signature is malformed";
  refuse (negb (ed25519_Verify public (Attested_Bytes signed) signature))
    "image is not attested by a trusted signer";
  match decode_statement (Attested_Bytes signed) with
  | Malformed => Err (Errorf "image attestation is malformed")
  | Trailing _ => Err (Errorf "image attestation has trailing content")
  | Decoded statement =>
      let* _ := validateStatement statement in
      refuse (bool_decide (Statement_KeyID statement ≠ Attested_KeyID signed))
        "image attestation key id does not match its signature";
      refuse (bool_decide (Statement_Image statement ≠ image)) "image attestation covers %q, not %q";
      refuse (negb (IsZero (Statement_ExpiresAt statement)) &&
              negb (Before now (Statement_ExpiresAt statement))) "image attestation expired at %s";
      Ok statement
  end.

(** Does a proposal run an image at all? *)
Definition runs_image (p : Proposal) : bool :=
  existsb (λ a, match Action_Kind a with
                | ActionPullImage | ActionCreateAllocation | ActionStartAllocation => true
                | _ => false
                end) (Proposal_Actions p).

Definition checkImageProvenance (ImageSigners : gmap string string) (RequireSignedImages : bool)
    (g : Goal) (w : World) (p : Proposal) : result unit :=
  if negb (runs_image p) then Ok tt
  else match Workload_Attestation (Goal_Workload g) with
       | None =>
           refuse RequireSignedImages "image %q carries no provenance attestation and policy requires one";
           Ok tt
       | Some attestation =>
           let* _ := wrap_err "image provenance: %w"
             (VerifyImageAttestation attestation (Workload_Image (Goal_Workload g)) ImageSigners (Now w)) in
           Ok tt
       end.

(** ** What verification establishes *)

(** A verified statement: signed by a configured key over exactly the carried
    bytes, about exactly this image, naming the key that signed, and unexpired. *)
Record attested_by (signed : SignedAttestation) (image : string) (signers : gmap string string)
    (now : time) (s : ImageStatement) : Prop := {
  ab_key : ∃ public signature,
    signers !! Attested_KeyID signed = Some public ∧ String.length public = PublicKeySize ∧
    base64_Decode (Attested_Signature signed) = Some signature ∧
    ed25519_Verify public (Attested_Bytes signed) signature = true;
  ab_statement : decode_statement (Attested_Bytes signed) = Decoded s;
  ab_image : Statement_Image s = image;
  ab_signer : Statement_KeyID s = Attested_KeyID signed;
  ab_fresh : Statement_ExpiresAt s = 0 ∨ now < Statement_ExpiresAt s;
  ab_pinned : digestPattern image = true;
}.

Lemma VerifyImageAttestation_sound signed image signers now s :
  VerifyImageAttestation signed image signers now = Ok s → attested_by signed image signers now s.
Proof.
  unfold VerifyImageAttestation. intros H. inv_ok H.
  destruct (decode_statement (Attested_Bytes signed)) as [|st|st] eqn:Ed; [done|done|].
  inv_ok H. subst. bool_simpl. unfold validateStatement in Hm. inv_ok Hm. bool_simpl.
  split; [| done | done | done | | by subst].
  - do 2 eexists. repeat split; try done. by apply Nat.eqb_eq.
  - unfold IsZero, Before in *.
    match goal with H : negb _ && negb (now <? _) = false |- _ => apply andb_false_iff in H as [H|H]; bool_simpl end;
      [left|right]; lia.
Qed.
End Verify.
