(* ===== verification/Kernel.v ===== *)
(** * The policy kernel (src/control/policy.go: Policy, DefaultPolicy, Authorize)

    [Authorize] checks a whole proposal against a cloned world: identity and
    revision, capability grants, dependency order, one validator and one simulated
    step per action, the declared evidence, and the four cluster-wide governors.

    The theorems state what an authorized proposal guarantees. *)

From S2P Require Import Prelude Types Text Spread Snapshots Policy Simulate Clone Disruption ClusterBudget Provenance.
Open Scope Z_scope.

Record Policy := mkPolicy {
  MaxActionsPerProposal : Z;
  Grants : gmap string (list (ActionKind * bool));
  MaxDisruptionsPerWindow : Z; DisruptionWindow : duration; DisruptionCooldown : duration;
  ImageSigners : gmap string string; RequireSignedImages : bool;
  ClusterCeiling : Resources; MaxAllocations : Z; ClusterBudget : Budget }.

Definition granted_kinds (ks : list ActionKind) : list (ActionKind * bool) := (λ k, (k, true)) <$> ks.

Definition DefaultPolicy : Policy :=
  mkPolicy 8
    (<["placement-agent" := granted_kinds
         [ActionPullImage; ActionCreateAllocation; ActionAttachNetwork; ActionMountSecret;
          ActionCreateVolume; ActionAttachVolume; ActionStartAllocation; ActionGrantTools]]>
     (<["network-agent" := granted_kinds [ActionPublishRoute; ActionApplyPolicy; ActionPublishZone]]>
     (<["remediation-agent" := granted_kinds
          [ActionCordonNode; ActionStopAllocation; ActionDeleteAllocation]]>
     (<["rollout-agent" := granted_kinds
          [ActionStopAllocation; ActionDeleteAllocation; ActionDrainAllocation; ActionDetachVolume]]>
     (<["storage-agent" := granted_kinds
          [ActionSnapshotVolume; ActionDatabaseBackup; ActionBackupSnapshot; ActionRestoreSnapshot;
           ActionQuiesceVolume; ActionTransferVolume; ActionAdoptVolume; ActionPruneSnapshots;
           ActionCollectImages; ActionVerifyBackup]]> ∅)))))
    DefaultMaxDisruptions DefaultDisruptionWindow DefaultDisruptionCooldown
    ∅ false Resources_zero 0 Budget_zero.

(** [grants[kind]] *)
Definition is_granted (grants : list (ActionKind * bool)) (kind : ActionKind) : bool :=
  existsb (λ '(k, b), bool_decide (k = kind) && b) grants.

(** ** Authorize *)

Definition required_check (g : Goal) (k : ActionKind) : option CheckKind :=
  match k with
  | ActionStartAllocation =>
      if bool_decide (is_Some (Workload_Runtime (Goal_Workload g)))
      then Some CheckAgentReady else Some CheckAllocationReady
  | ActionPublishRoute => Some CheckRouteReachable
  | ActionDrainAllocation => Some CheckAllocationDrained
  | _ => None
  end.

Definition requireEvidenceChecks (g : Goal) (p : Proposal) : result unit :=
  for_all (λ a,
    match required_check g (Action_Kind a) with
    | None => Ok tt
    | Some kind =>
        refuse (negb (existsb (λ c, bool_decide (Check_Kind c = kind) &&
                                    bool_decide (Check_Target c = Action_Target a) &&
                                    bool_decide (Check_Want c = "true"))
                        (Proposal_ExpectedEvidence p))) "action %q requires %s evidence";
        Ok tt
    end) (Proposal_Actions p).

Section Authorize.
Context `{att : Attest} {clock : WallClock}.

(** One iteration of the loop over the plan: the simulated world and the ids of the
    actions completed so far. *)
Definition plan_step (grants : list (ActionKind * bool)) (g : Goal)
    (s : World * gset string) (a : Action) : result (World * gset string) :=
  let '(sim, completed) := s in
  refuse (bool_decide (Action_ID a = "") || bool_decide (Action_ID a ∈ completed))
    "action ids must be non-empty and unique";
  refuse (negb (is_granted grants (Action_Kind a))) "agent %q is not granted %s";
  let* _ := for_all (λ dependency,
    refuse (bool_decide (dependency ∉ completed)) "action %q has unsatisfied dependency %q";
    Ok tt) (Action_DependsOn a) in
  let* _ := wrap_err "action %q: %w" (validateAction g sim a) in
  let* sim := wrap_err "simulate action %q: %w" (simulateAction sim a) in
  Ok (sim, {[Action_ID a]} ∪ completed).

Definition Authorize (k : Policy) (actor : AgentDescriptor) (g : Goal) (w : World) (p : Proposal)
    : result unit :=
  refuse (bool_decide (Proposal_AgentID p ≠ Agent_ID actor))
    "proposal agent %q does not match authenticated actor %q";
  refuse (bool_decide (Proposal_AgentID p = "") || bool_decide (Proposal_GoalID p ≠ Goal_ID g))
    "proposal identity does not match goal";
  refuse (negb (Proposal_BasedOnRevision p =? Revision w))
    "stale proposal: based on revision %d, current revision is %d";
  refuse (len (Proposal_Actions p) =? 0) "proposal contains no actions";
  refuse (MaxActionsPerProposal k <? len (Proposal_Actions p)) "proposal exceeds %d action limit";
  let grants := default [] (Grants k !! Proposal_AgentID p) in
  refuse (len grants =? 0) "agent %q has no capability grants";
  let* _ := for_each (plan_step grants g) (cloneWorld w, ∅) (Proposal_Actions p) in
  let* _ := requireEvidenceChecks g p in
  let* _ := checkDisruptionBudget (MaxDisruptionsPerWindow k) (DisruptionWindow k)
              (DisruptionCooldown k) w p in
  let* _ := checkBackoff w p in
  let* _ := checkImageProvenance (ImageSigners k) (RequireSignedImages k) g w p in
  checkClusterBudget (MaxAllocations k) (ClusterCeiling k) (ClusterBudget k) w p.

End Authorize.

(** ** Taking an authorization apart *)

(** The plan run without the checks. *)
Definition simulatePlan (w : World) (l : list Action) : result World := for_each simulateAction w l.

Section Facts.
Context `{att : Attest} {clock : WallClock}.
Implicit Types (w sim : World) (g : Goal) (p : Proposal) (a : Action) (k : Policy).

Lemma plan_step_inv grants g sim c a sim' c' :
  plan_step grants g (sim, c) a = Ok (sim', c') →
  Action_ID a ≠ "" ∧ (Action_ID a ∉ c) ∧ is_granted grants (Action_Kind a) = true ∧
  (∀ d, d ∈ Action_DependsOn a → d ∈ c) ∧
  validateAction g sim a = Ok tt ∧ simulateAction sim a = Ok sim' ∧ c' = {[Action_ID a]} ∪ c.
Proof.
  intros H. unfold plan_step in H. cbv beta iota in H. inv_ok H. injection H as <- <-.
  apply orb_false_iff in Hb as [H1 H2]. bool_simpl.
  repeat match goal with u : unit |- _ => destruct u end.
  repeat match goal with Hw : wrap_err _ _ = Ok _ |- _ => inv_ok Hw; subst end.
  repeat match goal with u : unit |- _ => destruct u end.
  repeat split; try done.
  rewrite for_all_refuse in Hm. intros d Hd. specialize (Hm d Hd). bool_simpl.
  by apply dec_stable.
Qed.

(** Running the checked plan from a state is running the plain plan, and every
    action was checked in the state its predecessors produced. *)
Lemma plan_run grants g sim c l sim' c' :
  for_each (plan_step grants g) (sim, c) l = Ok (sim', c') →
  simulatePlan sim l = Ok sim' ∧ c' = list_to_set (Action_ID <$> l) ∪ c ∧
  NoDup (Action_ID <$> l) ∧ (∀ i, i ∈ Action_ID <$> l → i ≠ "" ∧ (i ∉ c)) ∧
  ∀ pre a post, l = pre ++ a :: post →
    is_granted grants (Action_Kind a) = true ∧
    (∀ d, d ∈ Action_DependsOn a → d ∈ Action_ID <$> pre ∨ d ∈ c) ∧
    ∃ mid mid', simulatePlan sim pre = Ok mid ∧ validateAction g mid a = Ok tt ∧
                simulateAction mid a = Ok mid'.
Proof.
  revert sim c. induction l as [|x l IH]; intros sim c H.
  - injection H as <- <-. split; [done|]. split; [simpl; by rewrite union_empty_l_L|]. split; [constructor|].
    split; [intros i Hi; by apply not_elem_of_nil in Hi|]. intros [|? ?] ? ?; discriminate.
  - cbn [for_each] in H. destruct (plan_step grants g (sim, c) x) as [[sim1 c1]|] eqn:E; [|done].
    cbn [rbind] in H. apply plan_step_inv in E as (Hid & Hfresh & Hg & Hd & Hv & Hs & ->).
    apply IH in H as (Hrun & -> & Hnd & Hids & Hpre).
    split; [unfold simulatePlan; cbn [for_each]; rewrite Hs; exact Hrun|].
    split; [rewrite fmap_cons; cbn [list_to_set]; by rewrite (assoc_L (∪)), (comm_L (∪) _ {[_]})|].
    split; [|split].
    + rewrite fmap_cons. constructor; [|done]. intros Hin. apply Hids in Hin as [_ []].
      by apply elem_of_union_l, elem_of_singleton.
    + intros i. rewrite fmap_cons, elem_of_cons. intros [->|Hin]; [done|].
      apply Hids in Hin as [? Hin]. split; [done|]. intros Hc. by apply Hin, elem_of_union_r.
    + intros pre a post Hl. destruct pre as [|y pre]; injection Hl as -> ->.
      * split; [done|]. split; [intros d ?; right; auto|]. exists sim, sim1. done.
      * destruct (Hpre pre a post eq_refl) as (Hga & Hda & mid & mid' & Hmid & Hva & Hsa).
        split; [done|]. split; [|exists mid, mid'].
        { intros d Hd'. rewrite fmap_cons, elem_of_cons. apply Hda in Hd' as [?|[->%elem_of_singleton|?]%elem_of_union]; auto. }
        unfold simulatePlan. cbn [for_each]. rewrite Hs. done.
Qed.

(** The stages of a successful authorization. *)
Lemma Authorize_inv k actor g w p :
  Authorize k actor g w p = Ok tt →
  (Proposal_AgentID p = Agent_ID actor ∧ Proposal_AgentID p ≠ "" ∧ Proposal_GoalID p = Goal_ID g ∧
   Proposal_BasedOnRevision p = Revision w ∧
   0 < len (Proposal_Actions p) <= MaxActionsPerProposal k) ∧
  (∃ s, for_each (plan_step (default [] (Grants k !! Proposal_AgentID p)) g) (w, ∅)
          (Proposal_Actions p) = Ok s) ∧
  requireEvidenceChecks g p = Ok tt ∧
  checkDisruptionBudget (MaxDisruptionsPerWindow k) (DisruptionWindow k) (DisruptionCooldown k) w p
    = Ok tt ∧
  checkBackoff w p = Ok tt ∧
  checkImageProvenance (ImageSigners k) (RequireSignedImages k) g w p = Ok tt ∧
  checkClusterBudget (MaxAllocations k) (ClusterCeiling k) (ClusterBudget k) w p = Ok tt.
Proof.
  unfold Authorize. rewrite cloneWorld_id. intros H. inv_ok H.
  repeat match goal with u : unit |- _ => destruct u end.
  apply orb_false_iff in Hb0 as [? ?]. bool_simpl. unfold len in *.
  repeat split; try done; try lia. by eexists.
Qed.

(** The rule by which the plan theorems are proved: what every validated step
    preserves holds of every world the authorized plan passes through. *)
Lemma plan_prefix_invariant (P : World → Prop) k actor g w p pre post :
  (∀ sim a sim', a ∈ Proposal_Actions p → P sim → validateAction g sim a = Ok tt →
     simulateAction sim a = Ok sim' → P sim') →
  P w → Authorize k actor g w p = Ok tt → Proposal_Actions p = pre ++ post →
  ∃ mid, simulatePlan w pre = Ok mid ∧ P mid.
Proof.
  intros Hstep Hw H Hsplit. apply Authorize_inv in H as (_ & [s Hrun] & _).
  rewrite Hsplit, for_each_app in Hrun.
  destruct (for_each (plan_step _ g) (w, ∅) pre) as [[mid c]|] eqn:Hpre; [|done].
  exists mid. split; [by apply plan_run in Hpre as [? _]|].
  assert ((λ s, P s.1) (mid, c)) as HP; [|exact HP].
  eapply (for_each_inv (λ s : World * gset string, P s.1) _ (w, ∅)); [|exact Hw|exact Hpre].
  intros [sim c1] a [sim' c2] Ha Hs Hp. apply plan_step_inv in Hp as (_ & _ & _ & _ & Hv & Hsim & _).
  eapply Hstep; [rewrite Hsplit; apply elem_of_app; by left|done..].
Qed.

Lemma plan_invariant (P : World → Prop) k actor g w p :
  (∀ sim a sim', a ∈ Proposal_Actions p → P sim → validateAction g sim a = Ok tt →
     simulateAction sim a = Ok sim' → P sim') →
  P w → Authorize k actor g w p = Ok tt →
  ∃ w', simulatePlan w (Proposal_Actions p) = Ok w' ∧ P w'.
Proof. intros. eapply plan_prefix_invariant with (post := []); [done..|]. by rewrite app_nil_r. Qed.
End Facts.
