(* ===== verification/Guarantees.v ===== *)
(** * What an authorized proposal guarantees

    Theorems about [Authorize] (Kernel.v): each one says what holds of every
    proposal the kernel approves, for every world, goal and policy, with a concrete
    approval that meets its hypotheses. *)

From S2P Require Import Prelude Types Text Spread Policy Simulate Capacity Disruption ClusterBudget Provenance Kernel.
Open Scope Z_scope.

(** ** A concrete cluster

    Two nodes, a two-replica web workload behind a public route. *)

Definition sample_image : string :=
  "web@sha256:0123456789abcdef0123456789abcdef0123456789abcdef0123456789abcdef".
Definition sample_spec : WorkloadSpec :=
  mkWorkloadSpec "web" sample_image 2 8080 (mkResources 500 256) false false [] [] "" None None None
    (Some (mkPlacement 1)) None.
Definition sample_goal : Goal :=
  mkGoal "a4s.io/v1alpha1" "g1" "serve the site" sample_spec
    (Some (mkRouteSpec "web.example" 8080 "public")) (mkConstraints ∅ []) None.
Definition sample_node (id : string) (used : Resources) : Node :=
  mkNode id ∅ (mkResources 4000 8192) used (<[sample_image := true]> ∅) true "" false "" "" 0 "" "" ∅
    Budget_zero Budget_zero.
Definition sample_alloc (id node : string) (phase : AllocationPhase) (ready : bool) : Allocation :=
  (new_Allocation id "web" 0 node sample_image (mkResources 500 256) Budget_zero)
    <| Alloc_Phase := phase |> <| Alloc_Ready := ready |> <| Alloc_Address := "10.42.1.2" |>.
Definition sample_approval : Approval := mkApproval "ap1" "g1" "public-route" "op" true 50 0 0 "" "" "".
Definition sample_world : World :=
  mkWorld 7 100
    (<["n1" := sample_node "n1" (mkResources 500 256)]> (<["n2" := sample_node "n2" Resources_zero]> ∅))
    (<["web-0" := sample_alloc "web-0" "n1" AllocationRunning true]> ∅)
    ∅ ∅ ∅ (<["ap1" := sample_approval]> ∅) ∅ [] ∅.
Definition sample_actor (id : string) : AgentDescriptor := mkAgentDescriptor id "" [].
Definition sample_proposal (agent : string) (actions : list Action) (checks : list Check_) : Proposal :=
  mkProposal "p1" agent "g1" 7 "" actions checks.

Definition create_web1 : Action :=
  Action_zero <| Action_ID := "create" |> <| Action_Kind := ActionCreateAllocation |>
    <| Action_Target := "web-1" |> <| Action_Workload := "web" |> <| Action_Node := "n2" |>
    <| Action_Image := sample_image |> <| Action_Replica := 1 |>
    <| Action_Resources := mkResources 500 256 |>.
Definition attach_web1 : Action :=
  Action_zero <| Action_ID := "net" |> <| Action_Kind := ActionAttachNetwork |>
    <| Action_Target := "web-1" |> <| Action_Workload := "web" |> <| Action_DependsOn := ["create"] |>.
Definition start_web1 : Action :=
  Action_zero <| Action_ID := "start" |> <| Action_Kind := ActionStartAllocation |>
    <| Action_Target := "web-1" |> <| Action_Workload := "web" |> <| Action_DependsOn := ["net"] |>.
Definition placement_proposal : Proposal :=
  sample_proposal "placement-agent" [create_web1; attach_web1; start_web1]
    [mkCheck CheckAllocationReady "web-1" "true"].

#[local] Instance sample_attest : Attest := Build_Attest (λ _, None) (λ _ _ _, false) (λ _, Malformed).
#[local] Instance sample_clock : WallClock := 100.

Example placement_approved :
  Authorize DefaultPolicy (sample_actor "placement-agent") sample_goal sample_world placement_proposal
  = Ok tt.
Proof. vm_compute. reflexivity. Qed.

(** ** Identity, order and simulation *)

Section Theorems.
Context `{att : Attest} {clock : WallClock}.
Implicit Types (w sim : World) (g : Goal) (p : Proposal) (a : Action) (k : Policy).

(** C1: an approved proposal is the actor's own, for this goal, built on the current
    revision and within the action limit; its action ids are unique; the whole plan
    simulates without error; and every action is of a granted kind, depends only on
    earlier actions of the plan, and passed its validator in exactly the world the
    actions before it produce. *)
Theorem authorize_end_to_end k actor g w p (H : Authorize k actor g w p = Ok tt) :
  Proposal_AgentID p = Agent_ID actor ∧ Proposal_GoalID p = Goal_ID g ∧
  Proposal_BasedOnRevision p = Revision w ∧
  0 < len (Proposal_Actions p) <= MaxActionsPerProposal k ∧
  NoDup (Action_ID <$> Proposal_Actions p) ∧
  is_Ok (simulatePlan w (Proposal_Actions p)) ∧
  ∀ pre a post, Proposal_Actions p = pre ++ a :: post →
    is_granted (default [] (Grants k !! Proposal_AgentID p)) (Action_Kind a) = true ∧
    (∀ d, d ∈ Action_DependsOn a → d ∈ Action_ID <$> pre) ∧
    ∃ mid, simulatePlan w pre = Ok mid ∧ validateAction g mid a = Ok tt.
Proof.
  apply Authorize_inv in H as ((H1 & _ & H2 & H3 & H4) & [[w' c'] Hrun] & _).
  apply plan_run in Hrun as (Hsim & _ & Hnd & _ & Hpre).
  do 5 (split; [done|]). split; [by rewrite Hsim|].
  intros pre a post Hl. destruct (Hpre pre a post Hl) as (Hg & Hd & mid & _ & Hmid & Hv & _).
  split; [done|]. split; [|eauto]. intros d Hin. apply Hd in Hin as [?|?]; [done|set_solver].
Qed.
End Theorems.

Lemma authorize_end_to_end_witness :
  NoDup (Action_ID <$> Proposal_Actions placement_proposal) ∧
  Proposal_BasedOnRevision placement_proposal = Revision sample_world.
Proof.
  destruct (authorize_end_to_end DefaultPolicy (sample_actor "placement-agent") sample_goal sample_world
    placement_proposal ltac:(vm_compute; reflexivity)) as (_ & _ & Hr & _ & Hnd & _).
  split; [exact Hnd | exact Hr].
Defined.

(** ** Capacity *)

Section Capacity.
Context `{att : Attest} {clock : WallClock}.
Implicit Types (w sim : World) (g : Goal) (p : Proposal) (a : Action).

(** What a validated creation satisfies. *)
Lemma validate_create_inv g w a :
  Action_Kind a = ActionCreateAllocation → validateAction g w a = Ok tt →
  Allocations w !! Action_Target a = None ∧
  ∃ n, Nodes w !! Action_Node a = Some n ∧ Schedulable n = true ∧
    nodeAllowed (Goal_Constraints g) n = true ∧
    Action_Workload a = Workload_Name (Goal_Workload g) ∧
    Action_Image a = Workload_Image (Goal_Workload g) ∧ image_present n (Action_Image a) = true ∧
    Action_Resources a = Workload_Resources (Goal_Workload g) ∧
    Resources_Fits (Resources_Add (Node_Used n) (Action_Resources a)) (Node_Capacity n) = true ∧
    0 <= Action_Replica a < authorizedReplicas g w ∧ checkSpread g w a = Ok tt.
Proof.
  intros Hk H. unfold validateAction in H. rewrite Hk in H. simpl in H.
  unfold validateCreateAllocation in H. inv_ok H. bool_simpl.
  repeat match goal with u : unit |- _ => destruct u end.
  split; [by apply eq_None_not_Some|]. eexists. split; [done|]. unfold Schedulable.
  repeat split; try done. by rewrite Hb0, Hb1.
Qed.

Lemma same_core_load x y : same_core x y → same_load x y.
Proof. intros []. by split. Qed.
Lemma same_place_use n m : same_place n m → same_use n m.
Proof. intros []. by repeat split. Qed.

(** Capacity plus one more replica still fits an [int] on every node. *)
Definition headroom g (ns : gmap string Node) : Prop :=
  Resources_nonneg (Workload_Resources (Goal_Workload g)) ∧
  ∀ id n, ns !! id = Some n →
    CPUMillis (Node_Capacity n) + CPUMillis (Workload_Resources (Goal_Workload g)) <= int_max ∧
    MemoryMB (Node_Capacity n) + MemoryMB (Workload_Resources (Goal_Workload g)) <= int_max.

Definition capacity_ok g w : Prop :=
  accounted (Nodes w) (Allocations w) ∧ within_capacity (Nodes w) ∧ headroom g (Nodes w).

Lemma headroom_frame g (ns ns' : gmap string Node) :
  (∀ k m, ns' !! k = Some m → ∃ n, ns !! k = Some n ∧ Node_Capacity m = Node_Capacity n) →
  headroom g ns → headroom g ns'.
Proof. intros H [Hr Hh]. split; [done|]. intros k m (n & Hn & ->)%H. by eapply Hh. Qed.

Lemma capacity_quiet g w w' :
  (∀ k, option_Forall2 same_place (Nodes w !! k) (Nodes w' !! k)) →
  (∀ k, option_Forall2 same_load (Allocations w !! k) (Allocations w' !! k)) →
  capacity_ok g w → capacity_ok g w'.
Proof.
  intros Hn Ha (Hac & Hw & Hh).
  assert (∀ k, option_Forall2 same_use (Nodes w !! k) (Nodes w' !! k)) as Hu.
  { intros k. eapply option_Forall2_impl; [apply Hn|]. intros ??. apply same_place_use. }
  split; [by eapply accounted_frame|]. split; [by eapply within_frame|].
  eapply headroom_frame; [|done]. intros k m Hm. specialize (Hu k). rewrite Hm in Hu.
  inversion Hu as [n ? (_ & _ & Hc) Hk|]; subst. eauto.
Qed.

Lemma capacity_create g w a w' :
  Action_Kind a = ActionCreateAllocation → capacity_ok g w →
  validateAction g w a = Ok tt → simulateAction w a = Ok w' → capacity_ok g w'.
Proof.
  intros Hk (Hac & Hw & Hh) Hv Hs.
  apply (validate_create_inv _ _ _ Hk) in Hv as (Hfresh & n & Hn & _ & _ & _ & _ & _ & Hres & Hfit & _).
  apply (simulate_create_inv _ _ _ Hk) in Hs as (n' & Hn' & HN & HA). simplify_eq.
  destruct Hh as [Hnn Hh]. pose proof (Hh _ _ Hn) as Hcap. pose proof (Hw _ _ Hn) as Hwn.
  rewrite Resources_Fits_spec in Hwn. rewrite Hres in *.
  set (x := new_Allocation _ _ _ _ _ _ _) in HA. set (m := set _ _ _) in HN.
  destruct (accounted_create (Nodes w) (Allocations w) (Action_Target a) x n m) as (Hac' & Hc & Hm);
    [done..| | |done|].
  - unfold room_for. simpl. rewrite <-(ac_cpu _ _ Hac _ _ Hn), <-(ac_memory _ _ Hac _ _ Hn). lia.
  - done.
  - split; [rewrite HN, HA; exact Hac'|]. split.
    + intros j y. rewrite HN. intros [[<- <-]|[_ Hy]]%lookup_insert_Some; [|by eapply Hw].
      exact Hfit.
    + eapply headroom_frame; [|by split]. intros j y. rewrite HN.
      intros [[<- <-]|[_ Hy]]%lookup_insert_Some; eauto.
Qed.

Lemma capacity_delete g w a w' :
  Action_Kind a = ActionDeleteAllocation → capacity_ok g w → simulateAction w a = Ok w' →
  capacity_ok g w'.
Proof.
  intros Hk (Hac & Hw & Hh) Hs. apply (simulate_delete_inv _ _ _ Hk) in Hs as (x & Hx & HA & HN).
  change (Nodes w' = released (Nodes w) x (λ n,
    n <| Node_Used ::= λ u, Resources_Subtract u (Alloc_Resources x) |>
      <| Node_BudgetUsed ::= λ u, Budget_Subtract u (Alloc_Budget x) |>)) in HN.
  unfold capacity_ok. rewrite HN, HA. split; [by apply accounted_delete|].
  split; [by eapply within_delete|]. eapply headroom_frame; [|done].
  intros j m (n & Hn & [[-> ->]|[_ ->]])%released_lookup; eauto.
Qed.

Lemma lifecycle_load w a w' :
  Action_Kind a = ActionStartAllocation ∨ Action_Kind a = ActionStopAllocation →
  simulateAction w a = Ok w' →
  ∀ k, option_Forall2 same_load (Allocations w !! k) (Allocations w' !! k).
Proof.
  intros [Hk|Hk] Hs;
    [apply (simulate_start_inv _ _ _ Hk) in Hs | apply (simulate_stop_inv _ _ _ Hk) in Hs];
    destruct Hs as (x & Hx & _ & ->); (eapply insert_related; [by split|exact Hx|by split]).
Qed.

Lemma capacity_step g w a w' :
  capacity_ok g w → validateAction g w a = Ok tt → simulateAction w a = Ok w' → capacity_ok g w'.
Proof.
  intros Hc Hv Hs.
  destruct (decide (Action_Kind a = ActionCreateAllocation)); [by eapply capacity_create|].
  destruct (decide (Action_Kind a = ActionDeleteAllocation)); [by eapply capacity_delete|].
  eapply capacity_quiet; [by eapply simulate_nodes_frame | | exact Hc]. intros i.
  destruct (lifecycle_kind (Action_Kind a)) eqn:El.
  - eapply lifecycle_load; [|done]. destruct (Action_Kind a); naive_solver.
  - eapply option_Forall2_impl; [by eapply simulate_allocations_frame|]. intros ??. apply same_core_load.
Qed.

(** C2: no approved plan overcommits a node, as long as the sums stay within an [int].
    From a world whose nodes account exactly for their allocations (a sum that fits an
    [int]) and are within capacity, when the goal asks for no negative quantity and the
    capacity of each node plus one more replica still fits an [int], the whole authorized
    plan leads to such a world: on every node the used capacity is still the sum of what
    its allocations hold, and still no more than the node has.  Without that headroom the
    check wraps around (see [capacity_check_wraps]). *)
Theorem authorize_capacity k actor g w p
    (Haccounted : accounted (Nodes w) (Allocations w)) (Hwithin : within_capacity (Nodes w)) (Hroom : headroom g (Nodes w))
    (H : Authorize k actor g w p = Ok tt) :
  ∃ w', simulatePlan w (Proposal_Actions p) = Ok w' ∧
    ∀ id n, Nodes w' !! id = Some n →
      CPUMillis (Node_Used n) = load CPUMillis (Allocations w') id ∧
      MemoryMB (Node_Used n) = load MemoryMB (Allocations w') id ∧
      load CPUMillis (Allocations w') id <= CPUMillis (Node_Capacity n) ∧
      load MemoryMB (Allocations w') id <= MemoryMB (Node_Capacity n).
Proof.
  destruct (plan_invariant (capacity_ok g) k actor g w p) as (w' & Hrun & Hac & Hwi & _); [|by split_and!|done|].
  { intros sim a sim' _. apply capacity_step. }
  exists w'. split; [done|]. intros id n Hn. specialize (Hwi _ _ Hn).
  rewrite Resources_Fits_spec in Hwi.
  rewrite <-(ac_cpu _ _ Hac _ _ Hn), <-(ac_memory _ _ Hac _ _ Hn). tauto.
Qed.
End Capacity.

(** The sample cluster accounts for its one replica. *)
Lemma sample_capacity_ok : capacity_ok sample_goal sample_world.
Proof.
  split; [split|split; [|split]].
  - apply (bool_decide_unpack (map_Forall (λ id n, Node_ID n = id) _)). vm_compute. exact I.
  - apply (bool_decide_unpack (map_Forall (λ _ a, 0 <= CPUMillis (Alloc_Resources a) ∧
      0 <= MemoryMB (Alloc_Resources a)) _)). vm_compute. exact I.
  - apply (bool_decide_unpack (map_Forall (λ id n, CPUMillis (Node_Used n) =
      load CPUMillis (Allocations sample_world) id) _)). vm_compute. exact I.
  - apply (bool_decide_unpack (map_Forall (λ id n, MemoryMB (Node_Used n) =
      load MemoryMB (Allocations sample_world) id) _)). vm_compute. exact I.
  - apply (bool_decide_unpack (map_Forall (λ id _, load CPUMillis (Allocations sample_world) id <= int_max ∧
      load MemoryMB (Allocations sample_world) id <= int_max) (Nodes sample_world))). vm_compute. exact I.
  - apply (bool_decide_unpack (map_Forall (λ id n,
      Resources_Fits (Node_Used n) (Node_Capacity n) = true) _)). vm_compute. exact I.
  - by split.
  - apply (bool_decide_unpack (map_Forall (λ id n,
      CPUMillis (Node_Capacity n) + CPUMillis (Workload_Resources (Goal_Workload sample_goal)) <= int_max ∧
      MemoryMB (Node_Capacity n) + MemoryMB (Workload_Resources (Goal_Workload sample_goal)) <= int_max) _)).
    vm_compute. exact I.
Qed.

(** Witness: placing the second replica. *)
Lemma authorize_capacity_witness :
  is_Ok (simulatePlan sample_world (Proposal_Actions placement_proposal)).
Proof.
  destruct (authorize_capacity DefaultPolicy (sample_actor "placement-agent") sample_goal sample_world
    placement_proposal (proj1 sample_capacity_ok) (proj1 (proj2 sample_capacity_ok)) (proj2 (proj2 sample_capacity_ok))
    ltac:(vm_compute; reflexivity)) as (w' & Hrun & _).
  rewrite Hrun. exact I.
Defined.

(** ** Availability *)

Section Availability.
Context `{att : Attest} {clock : WallClock}.
Implicit Types (w sim : World) (g : Goal) (p : Proposal) (a : Action).

Lemma Now_frame w a w' : simulateAction w a = Ok w' → Now w' = Now w.
Proof. intros H. apply simulate_frame in H as (_ & Ho & _). unfold Now. by rewrite Ho. Qed.

Lemma ready_running_step g w a w' :
  ready_running w → simulateAction w a = Ok w' → ready_running w'.
Proof.
  intros Hr Hs id y Hy Hready.
  destruct (lifecycle_kind (Action_Kind a)) eqn:El.
  2:{ pose proof (simulate_allocations_frame _ _ _ El Hs id) as Hf. rewrite Hy in Hf.
      inversion Hf as [x ? Hc Hx|]; subst. destruct Hc. rewrite sc_ready in Hready.
      rewrite sc_phase. eauto. }
  destruct (Action_Kind a) eqn:Hk; try discriminate El.
  - apply (simulate_create_inv _ _ _ Hk) in Hs as (n & _ & _ & HA). rewrite HA in Hy.
    apply lookup_insert_Some in Hy as [[_ <-]|[_ Hy]]; [done|eauto].
  - apply (simulate_start_inv _ _ _ Hk) in Hs as (x & _ & _ & HA). rewrite HA in Hy.
    apply lookup_insert_Some in Hy as [[_ <-]|[_ Hy]]; [done|eauto].
  - apply (simulate_stop_inv _ _ _ Hk) in Hs as (x & _ & _ & HA). rewrite HA in Hy.
    apply lookup_insert_Some in Hy as [[_ <-]|[_ Hy]]; [done|eauto].
  - apply (simulate_delete_inv _ _ _ Hk) in Hs as (x & _ & HA & _). rewrite HA in Hy.
    apply lookup_delete_Some in Hy as [_ Hy]. eauto.
Qed.

Definition serve_weight g now (x : Allocation) : Z := if serves g now x then 1 else 0.

Lemma serving_ge_floor g w :
  (i64 (servingAllocations g w - 1) <? disruptionFloor g) = false →
  disruptionFloor g <= servingAllocations g w - 1.
Proof.
  intros H. bool_simpl. assert (disruptionFloor g <= int_max) as Hf.
  { unfold disruptionFloor. destruct (_ <=? 1); [done|]. apply i64_range. }
  assert (0 <= servingAllocations g w) as Hs.
  { apply map_sum_nonneg. intros. by destruct (serves _ _ _). }
  destruct (decide (servingAllocations g w - 1 <= int_max)); [|lia].
  rewrite i64_id in H; [done|]. unfold in_int, int_min. lia.
Qed.

Lemma validate_stop_floor g w a x :
  Action_Kind a = ActionStopAllocation → validateAction g w a = Ok tt →
  Allocations w !! Action_Target a = Some x → ReadyAt x (Now w) = true →
  disruptionFloor g <= servingAllocations g w - 1.
Proof.
  intros Hk H Hx Hr. unfold validateAction in H. rewrite Hk in H. simpl in H.
  unfold validateStopAllocation in H. rewrite Hx in H.
  destruct (bool_decide _); [done|]. destruct (bool_decide _); [done|].
  destruct (_ && _ && _); [by destruct (negb _)|]. rewrite Hr in H.
  destruct (_ <? _) eqn:E; [done|]. by apply serving_ge_floor.
Qed.

Definition available g w0 w : Prop :=
  ready_running w ∧ Now w = Now w0 ∧
  Z.min (servingAllocations g w0) (disruptionFloor g) <= servingAllocations g w.

(** A step that takes no serving replica away. *)
Lemma serving_mono g w w' :
  Now w' = Now w → map_sum (serve_weight g (Now w)) (Allocations w) <=
                   map_sum (serve_weight g (Now w)) (Allocations w') →
  servingAllocations g w <= servingAllocations g w'.
Proof. unfold servingAllocations, map_count, serve_weight. by intros ->. Qed.

Lemma not_ready_not_serving g now x : Alloc_Ready x = false → serves g now x = false.
Proof. intros H. unfold serves, ReadyAt. rewrite H. simpl. by rewrite andb_false_r. Qed.

Lemma available_stop g w0 w a w' :
  Action_Kind a = ActionStopAllocation → available g w0 w → validateAction g w a = Ok tt →
  simulateAction w a = Ok w' →
  Z.min (servingAllocations g w0) (disruptionFloor g) <= servingAllocations g w'.
Proof.
  intros Hk (_ & _ & Hmin) Hv Hs. pose proof (Now_frame _ _ _ Hs) as HN.
  apply (simulate_stop_inv _ _ _ Hk) in Hs as (x & Hx & _ & HA).
  assert (servingAllocations g w' = servingAllocations g w - serve_weight g (Now w) x) as Heq.
  { unfold servingAllocations, map_count. rewrite HN, HA, (map_sum_update _ _ _ _ _ Hx).
    rewrite (not_ready_not_serving _ _ (set _ _ _)) by done. unfold serve_weight. lia. }
  unfold serve_weight in Heq. destruct (serves g (Now w) x) eqn:E; [|lia].
  unfold serves in E. bool_simpl. pose proof (validate_stop_floor g w a x Hk Hv Hx ltac:(done)). lia.
Qed.

Lemma validate_start_created g w a x :
  Action_Kind a = ActionStartAllocation → validateAction g w a = Ok tt →
  Allocations w !! Action_Target a = Some x → Alloc_Phase x = AllocationCreated.
Proof.
  intros Hk H Hx. unfold validateAction in H. rewrite Hk in H. simpl in H.
  unfold validateStartAllocation in H. rewrite Hx in H.
  destruct (bool_decide _) eqn:E; [done|]. by bool_simpl.
Qed.

Lemma validate_delete_not_running g w a x :
  Action_Kind a = ActionDeleteAllocation → validateAction g w a = Ok tt →
  Allocations w !! Action_Target a = Some x → Alloc_Phase x ≠ AllocationRunning.
Proof.
  intros Hk H Hx. unfold validateAction in H. rewrite Hk in H. simpl in H.
  unfold validateDeleteAllocation in H. rewrite Hx in H.
  destruct (bool_decide _) eqn:E; [done|]. by bool_simpl.
Qed.

Lemma ready_running_weight g w id x :
  ready_running w → Allocations w !! id = Some x → Alloc_Phase x ≠ AllocationRunning →
  serve_weight g (Now w) x = 0.
Proof.
  intros Hr Hx Hp. unfold serve_weight. rewrite not_ready_not_serving; [done|].
  destruct (Alloc_Ready x) eqn:E; [|done]. by destruct Hp; eapply Hr.
Qed.

Lemma serve_weight_nonneg g now x : 0 <= serve_weight g now x.
Proof. unfold serve_weight. by destruct (serves _ _ _). Qed.

(** Every kind but a stop leaves at least as many replicas serving. *)
Lemma serving_step g w a w' :
  ready_running w → Action_Kind a ≠ ActionStopAllocation →
  validateAction g w a = Ok tt → simulateAction w a = Ok w' →
  map_sum (serve_weight g (Now w)) (Allocations w) <= map_sum (serve_weight g (Now w)) (Allocations w').
Proof.
  intros Hr Hne Hv Hs. destruct (lifecycle_kind (Action_Kind a)) eqn:El.
  2:{ apply Z.eq_le_incl, map_sum_rel. intros id.
      eapply option_Forall2_impl; [by eapply simulate_allocations_frame|].
      intros x y []. unfold serve_weight, serves, ReadyAt. by rewrite sc_workload, sc_ready, sc_expires. }
  destruct (Action_Kind a) eqn:Hk; try done.
  - destruct (validate_create_inv g w a Hk Hv) as [Hfresh _].
    apply (simulate_create_inv _ _ _ Hk) in Hs as (n & _ & _ & ->).
    rewrite map_sum_insert by done. set (x := new_Allocation _ _ _ _ _ _ _).
    pose proof (serve_weight_nonneg g (Now w) x). lia.
  - apply (simulate_start_inv _ _ _ Hk) in Hs as (x & Hx & _ & ->).
    rewrite (map_sum_update _ _ _ _ _ Hx). set (y := set _ _ _).
    pose proof (serve_weight_nonneg g (Now w) y).
    rewrite (ready_running_weight g w _ x Hr Hx); [lia|].
    by rewrite (validate_start_created g w a x Hk Hv Hx).
  - apply (simulate_delete_inv _ _ _ Hk) in Hs as (x & Hx & -> & _).
    rewrite (map_sum_delete _ _ _ _ Hx), (ready_running_weight g w _ x Hr Hx); [lia|].
    by eapply validate_delete_not_running.
Qed.

Lemma available_step g w0 w a w' :
  available g w0 w → validateAction g w a = Ok tt → simulateAction w a = Ok w' → available g w0 w'.
Proof.
  intros (Hr & Hnow & Hmin) Hv Hs. pose proof (Now_frame _ _ _ Hs) as HN.
  split; [by eapply ready_running_step|]. split; [congruence|].
  destruct (decide (Action_Kind a = ActionStopAllocation)); [by eapply available_stop|].
  transitivity (servingAllocations g w); [done|]. apply serving_mono; [done|]. by eapply serving_step.
Qed.

(** C4: an approved plan never takes the goal's own workload below its availability
    floor (all replicas but one, or zero for a single replica): after every prefix of
    the plan at least that many replicas serve, or as many as served to begin with. *)
Theorem authorize_availability_floor k actor g w p pre post
    (Hw : ready_running w) (H : Authorize k actor g w p = Ok tt)
    (Hpre : Proposal_Actions p = pre ++ post) :
  ∃ mid, simulatePlan w pre = Ok mid ∧
    Z.min (servingAllocations g w) (disruptionFloor g) <= servingAllocations g mid.
Proof.
  destruct (plan_prefix_invariant (available g w) k actor g w p pre post)
    as (mid & Hrun & _ & _ & Hmin); [|by split; [|split; [done|lia]]|done..|].
  { intros sim a sim' _. apply available_step. }
  eauto.
Qed.
End Availability.

(** A cluster with both replicas serving, and a second workload beside them. *)
Definition db_alloc (id : string) : Allocation :=
  (sample_alloc id "n1" AllocationRunning true) <| Alloc_Workload := "db" |>.
Definition busy_world : World :=
  sample_world <| Allocations := <["web-0" := sample_alloc "web-0" "n1" AllocationRunning true]>
    (<["web-1" := sample_alloc "web-1" "n2" AllocationRunning true]>
    (<["db-0" := db_alloc "db-0"]> (<["db-1" := db_alloc "db-1"]> ∅))) |>.
Definition stop_action (id target workload : string) : Action :=
  Action_zero <| Action_ID := id |> <| Action_Kind := ActionStopAllocation |>
    <| Action_Target := target |> <| Action_Workload := workload |>.
Definition retire_proposal : Proposal :=
  sample_proposal "rollout-agent" [stop_action "s0" "web-0" "web"] [].

(** Witness: with two of two replicas serving, one may be retired. *)
Lemma authorize_availability_floor_witness :
  ∃ mid, simulatePlan busy_world (Proposal_Actions retire_proposal) = Ok mid ∧
    1 <= servingAllocations sample_goal mid.
Proof.
  refine (authorize_availability_floor DefaultPolicy (sample_actor "rollout-agent") sample_goal busy_world
    retire_proposal (Proposal_Actions retire_proposal) [] _ _ eq_refl).
  - apply (bool_decide_unpack (map_Forall (λ _ x,
      Alloc_Ready x = true → Alloc_Phase x = AllocationRunning) (Allocations busy_world))). vm_compute. exact I.
  - vm_compute. reflexivity.
Defined.

Definition db_goal : Goal :=
  mkGoal "a4s.io/v1alpha1" "g2" "keep the data"
    (mkWorkloadSpec "db" sample_image 2 5432 (mkResources 500 256) false false [] [] "" None None None None None)
    None (mkConstraints ∅ []) None.
Definition foreign_stop_proposal : Proposal :=
  sample_proposal "rollout-agent" [stop_action "s0" "db-0" "db"; stop_action "s1" "db-1" "db"] [].

(** The floor guards only the goal's own workload, because nothing ties the
    target of a stop to it.  Here a proposal for the goal of [web] is approved, stops
    both replicas of [db], and leaves [db], whose own floor would be one, with none
    serving. *)
Theorem stop_ignores_other_floors :
  Authorize DefaultPolicy (sample_actor "rollout-agent") sample_goal busy_world foreign_stop_proposal = Ok tt ∧
  servingAllocations db_goal busy_world = 2 ∧ disruptionFloor db_goal = 1 ∧
  ∃ w', simulatePlan busy_world (Proposal_Actions foreign_stop_proposal) = Ok w' ∧
    servingAllocations db_goal w' = 0.
Proof.
  split; [vm_compute; reflexivity|]. split; [vm_compute; reflexivity|]. split; [vm_compute; reflexivity|].
  apply ok_such_that. vm_compute. reflexivity.
Qed.
