(* ===== verification/Governance.v ===== *)
(** * The governors around an approved plan

    Theorems about the parts of [Authorize] (Kernel.v) that look beyond a single
    action: the failure-domain ceiling, the operator approvals, the disruption
    governor, image provenance, the declared evidence, the cluster-wide ceilings
    and the separation of duties in the default grants. *)

From S2P Require Import Prelude Types Text Spread Policy Simulate Capacity Disruption ClusterBudget Provenance Kernel Guarantees.
Open Scope Z_scope.

#[local] Existing Instance sample_attest.
#[local] Existing Instance sample_clock.

(** ** Spread *)

Section Spread.
Context `{att : Attest} {clock : WallClock}.
Implicit Types (w sim : World) (g : Goal) (p : Proposal) (a : Action).

(** Where an allocation counts depends only on its core and on where its node is. *)
Lemma occupies_frame w w' wl x y :
  (∀ id, option_Forall2 same_place (Nodes w !! id) (Nodes w' !! id)) →
  Alloc_Workload y = Alloc_Workload x → Alloc_Phase y = Alloc_Phase x → Alloc_Node y = Alloc_Node x →
  occupies w' wl y = occupies w wl x.
Proof.
  intros Hn Hw Hp Hnode. unfold occupies. rewrite Hw, Hp, Hnode.
  destruct (bool_decide _ || bool_decide _); [done|].
  destruct (Hn (Alloc_Node x)) as [n m []|]; [|done]. unfold FailureDomain. by rewrite sp_domain, sp_id.
Qed.

Definition domain_weight w wl d (x : Allocation) : Z := if counts_in w wl d x then 1 else 0.

Lemma domain_weight_bounds w wl d x : 0 <= domain_weight w wl d x <= 1.
Proof. unfold domain_weight. destruct (counts_in _ _ _ _); lia. Qed.

(** The same allocations, measured in a world whose nodes stand in the same places. *)
Lemma occupancy_moved w w' wl d :
  (∀ id, option_Forall2 (λ n m, Node_ID m = Node_ID n ∧ Node_Domain m = Node_Domain n)
           (Nodes w !! id) (Nodes w' !! id)) →
  occupancy w' wl d = map_sum (domain_weight w wl d) (Allocations w').
Proof.
  intros Hn. rewrite occupancy_count. apply map_sum_ext. intros k x _.
  unfold domain_weight, counts_in, occupies. destruct (bool_decide _ || bool_decide _); [done|].
  destruct (Hn (Alloc_Node x)) as [n m [Hi Hd]|]; [|done]. unfold FailureDomain. by rewrite Hi, Hd.
Qed.

Lemma places_kept w a w' :
  simulateAction w a = Ok w' →
  ∀ id, option_Forall2 (λ n m, Node_ID m = Node_ID n ∧ Node_Domain m = Node_Domain n)
          (Nodes w !! id) (Nodes w' !! id).
Proof.
  intros Hs id.
  destruct (decide (Action_Kind a = ActionCreateAllocation)) as [Hk|].
  { apply (simulate_create_inv _ _ _ Hk) in Hs as (nd & Hnd & -> & _).
    by apply (insert_related _ _ _ nd). }
  destruct (decide (Action_Kind a = ActionDeleteAllocation)) as [Hk|].
  { apply (simulate_delete_inv _ _ _ Hk) in Hs as (x & _ & _ & ->).
    destruct (Nodes w !! Alloc_Node x) as [nd|] eqn:E; [by apply (insert_related _ _ _ nd)|].
    by apply option_Forall2_refl. }
  eapply option_Forall2_impl; [by eapply simulate_nodes_frame|]. by intros ? ? [].
Qed.

(** A validated creation goes where there is room. *)
Lemma create_spread g w a n :
  Action_Kind a = ActionCreateAllocation → validateAction g w a = Ok tt →
  Nodes w !! Action_Node a = Some n → 0 < MaxPerDomain g →
  occupancy w (Workload_Name (Goal_Workload g)) (FailureDomain (Some n)) < MaxPerDomain g.
Proof.
  intros Hk Hv Hn Hc.
  apply (validate_create_inv _ _ _ Hk) in Hv
    as (_ & m & Hm & _ & _ & _ & _ & _ & _ & _ & _ & Hs).
  unfold checkSpread in Hs. rewrite (proj2 (Z.leb_gt _ _)), Hn in Hs by done.
  destruct (_ <=? _) eqn:E; [done|]. by bool_simpl.
Qed.

Lemma spread_step g w a w' d :
  0 < MaxPerDomain g → validateAction g w a = Ok tt → simulateAction w a = Ok w' →
  let occ u := occupancy u (Workload_Name (Goal_Workload g)) d in
  occ w' <= Z.max (occ w) (MaxPerDomain g).
Proof.
  intros Hc Hv Hs. cbv beta zeta. set (wl := Workload_Name (Goal_Workload g)).
  rewrite (occupancy_moved w w') by (by eapply places_kept). rewrite occupancy_count.
  change (map_count (counts_in w wl d) (Allocations w)) with (map_sum (domain_weight w wl d) (Allocations w)).
  destruct (lifecycle_kind (Action_Kind a)) eqn:El.
  2:{ apply Z.max_le_iff. left. apply Z.eq_le_incl. symmetry. apply map_sum_rel. intros id.
      eapply option_Forall2_impl; [by eapply simulate_allocations_frame|].
      intros x y []. unfold domain_weight, counts_in.
      rewrite (occupies_frame w w wl x y); [done| |done..]. intros. by apply option_Forall2_refl. }
  destruct (Action_Kind a) eqn:Hk; try done.
  - pose proof (validate_create_inv g w a Hk Hv) as (Hfresh & n & Hn & _).
    pose proof (create_spread g w a n Hk Hv Hn Hc) as Hroom.
    apply (simulate_create_inv _ _ _ Hk) in Hs as (n' & Hn' & _ & ->).
    rewrite map_sum_insert by done. set (x := new_Allocation _ _ _ _ _ _ _).
    destruct (counts_in w wl d x) eqn:E; unfold domain_weight at 1; rewrite E; [|lia].
    unfold counts_in in E. bool_simpl. apply occupies_Some in E as (_ & _ & m & Hm & ->).
    simpl in Hm. rewrite Hn in Hm. injection Hm as <-.
    rewrite occupancy_count in Hroom. fold wl in Hroom.
    change (map_count (counts_in w wl (FailureDomain (Some n))) (Allocations w)) with
      (map_sum (domain_weight w wl (FailureDomain (Some n))) (Allocations w)) in Hroom. lia.
  - pose proof Hs as Hs'. apply (simulate_start_inv _ _ _ Hk) in Hs as (x & Hx & _ & ->).
    rewrite (map_sum_update _ _ _ _ _ Hx). set (y := set _ _ _).
    enough (domain_weight w wl d y = domain_weight w wl d x) by lia.
    unfold domain_weight, counts_in, occupies.
    rewrite (validate_start_created g w a x Hk Hv Hx). by rewrite !(bool_decide_false (_ = AllocationStopped)).
  - apply (simulate_stop_inv _ _ _ Hk) in Hs as (x & Hx & _ & ->).
    rewrite (map_sum_update _ _ _ _ _ Hx). set (y := set _ _ _).
    enough (domain_weight w wl d y = 0) by (pose proof (domain_weight_bounds w wl d x); lia).
    unfold domain_weight, counts_in, occupies, y. simpl_set.
    rewrite (bool_decide_true (AllocationStopped = AllocationStopped)) by done.
    by rewrite orb_true_r, bool_decide_false.
  - apply (simulate_delete_inv _ _ _ Hk) in Hs as (x & Hx & -> & _).
    rewrite (map_sum_delete _ _ _ _ Hx). pose proof (domain_weight_bounds w wl d x). lia.
Qed.

(** An approved plan never concentrates the goal's workload.  With a declared
    ceiling per failure domain, the plan leaves no domain holding more live replicas
    than the ceiling, or than it already held. *)
Theorem authorize_spread k actor g w p d
    (Hc : 0 < MaxPerDomain g) (H : Authorize k actor g w p = Ok tt) :
  let occ u := occupancy u (Workload_Name (Goal_Workload g)) d in
  ∃ w', simulatePlan w (Proposal_Actions p) = Ok w' ∧ occ w' <= Z.max (occ w) (MaxPerDomain g).
Proof.
  intros occ. apply (plan_invariant (λ u, occ u <= Z.max (occ w) (MaxPerDomain g)) k actor g w p);
    [|lia|done].
  intros sim a sim' _ Hle Hv Hs. pose proof (spread_step g sim a sim' d Hc Hv Hs). unfold occ in *. lia.
Qed.
End Spread.

(** Witness: at most one replica of [web] per domain, the second one placed on [n2]. *)
Lemma authorize_spread_witness :
  ∃ w', simulatePlan sample_world (Proposal_Actions placement_proposal) = Ok w' ∧
    occupancy w' "web" "n2" <= 1.
Proof.
  exact (authorize_spread DefaultPolicy (sample_actor "placement-agent") sample_goal sample_world
    placement_proposal "n2" ltac:(reflexivity) ltac:(vm_compute; reflexivity)).
Defined.

(** ** Operator approvals *)

(** The approval scope an action needs in the world it runs in, if any. *)
Definition gate (w : World) (a : Action) : option string :=
  match Action_Kind a with
  | ActionPublishRoute => if bool_decide (Action_Exposure a = "public") then Some "public-route" else None
  | ActionQuiesceVolume => Some "move-volume"
  | ActionRestoreSnapshot => Some "restore-volume"
  | ActionGrantTools => if actionGrantsMutatingTool a then Some "agent-mutating-tools" else None
  | ActionDeleteAllocation =>
      match Allocations w !! Action_Target a with
      | Some x => if Alloc_Stateful x then Some "destroy-stateful" else None
      | None => None
      end
  | _ => None
  end.

Section Gates.
Context `{att : Attest} {clock : WallClock}.
Implicit Types (w sim : World) (g : Goal) (p : Proposal) (a : Action).

Lemma gated_validation g w a scope :
  validateAction g w a = Ok tt → gate w a = Some scope → hasApproval w (Goal_ID g) scope = true.
Proof.
  unfold gate, validateAction. intros Hv Hg. destruct (Action_Kind a); try discriminate Hg; simpl in Hv.
  - unfold validateRestoreSnapshot in Hv. inv_ok Hv. bool_simpl. congruence.
  - unfold validateQuiesceVolume in Hv. inv_ok Hv. bool_simpl. congruence.
  - unfold validateDeleteAllocation in Hv. inv_ok Hv. destruct (Alloc_Stateful _); [|done].
    injection Hg as <-. by destruct (hasApproval _ _ _).
  - unfold validatePublishRoute in Hv. inv_ok Hv. destruct (bool_decide (Action_Exposure a = "public")); [|done].
    injection Hg as <-. by destruct (hasApproval _ _ _).
  - unfold validateGrantTools in Hv. inv_ok Hv. destruct (actionGrantsMutatingTool a); [|done].
    injection Hg as <-. by destruct (hasApproval _ _ _).
Qed.

(** C33: every destructive or exposing step of an approved plan was signed off.  An
    action that publishes a public route, moves a volume, restores over one, hands
    out a mutating tool or deletes a stateful allocation is covered by an approval
    in the world the proposal was made in: for this goal and this scope, granted,
    and unexpired at the world's time. *)
Theorem authorize_gated k actor g w p pre a post mid scope
    (H : Authorize k actor g w p = Ok tt) (Hp : Proposal_Actions p = pre ++ a :: post)
    (Hmid : simulatePlan w pre = Ok mid) (Hgate : gate mid a = Some scope) :
  ∃ id ap, Approvals w !! id = Some ap ∧ Approval_GoalID ap = Goal_ID g ∧
    Approval_Scope ap = scope ∧ Approval_Valid ap (Now w) = true.
Proof.
  destruct (plan_prefix_invariant (λ u, Approvals u = Approvals w ∧ Now u = Now w) k actor g w p pre (a :: post))
    as (mid' & Hmid' & Ha & Hn); [|done..|].
  { intros sim b sim' _ [Ha Hn] _ Hs. rewrite (Now_frame _ _ _ Hs).
    apply simulate_frame in Hs as (_ & _ & _ & -> & _). done. }
  rewrite Hmid in Hmid'. injection Hmid' as <-.
  apply Authorize_inv in H as (_ & [[w' c'] Hrun] & _). apply plan_run in Hrun as (_ & _ & _ & _ & Hpre).
  destruct (Hpre pre a post Hp) as (_ & _ & m & _ & Hm & Hv & _). rewrite Hmid in Hm. injection Hm as <-.
  pose proof (gated_validation g mid a scope Hv Hgate) as Hap.
  unfold hasApproval in Hap. rewrite Ha, Hn in Hap. apply map_any_true in Hap as (id & ap & Hid & Hap).
  bool_simpl. eauto 6.
Qed.
End Gates.

Definition publish_web : Action :=
  Action_zero <| Action_ID := "route" |> <| Action_Kind := ActionPublishRoute |>
    <| Action_Target := "web.example" |> <| Action_Workload := "web" |> <| Action_Port := 8080 |>
    <| Action_Exposure := "public" |>.
Definition publish_proposal : Proposal :=
  sample_proposal "network-agent" [publish_web] [mkCheck CheckRouteReachable "web.example" "true"].

(** Witness: publishing the public route of a serving workload. *)
Lemma authorize_gated_witness :
  ∃ id ap, Approvals busy_world !! id = Some ap ∧ Approval_GoalID ap = "g1" ∧
    Approval_Scope ap = "public-route" ∧ Approval_Valid ap (Now busy_world) = true.
Proof.
  exact (authorize_gated DefaultPolicy (sample_actor "network-agent") sample_goal busy_world
    publish_proposal [] publish_web [] busy_world "public-route" ltac:(vm_compute; reflexivity)
    eq_refl eq_refl eq_refl).
Defined.

(** ** The four governors *)

Section Governors.
Context `{att : Attest} {clock : WallClock}.
Implicit Types (w sim : World) (g : Goal) (p : Proposal) (a : Action).

Lemma requireEvidenceChecks_sound g p a kind :
  requireEvidenceChecks g p = Ok tt → a ∈ Proposal_Actions p →
  required_check g (Action_Kind a) = Some kind →
  mkCheck kind (Action_Target a) "true" ∈ Proposal_ExpectedEvidence p.
Proof.
  unfold requireEvidenceChecks. rewrite for_all_ok. intros H Ha Hk. specialize (H a Ha). rewrite Hk in H.
  destruct (negb _) eqn:E; [done|]. bool_simpl. apply existsb_exists in E as ([k' t w'] & Hin & Hc).
  bool_simpl. simpl in *. subst. by apply list_elem_of_In.
Qed.

Lemma checkImageProvenance_sound signers required g w p :
  checkImageProvenance signers required g w p = Ok tt → runs_image p = true →
  (required = true → is_Some (Workload_Attestation (Goal_Workload g))) ∧
  ∀ signed, Workload_Attestation (Goal_Workload g) = Some signed →
    ∃ s, attested_by signed (Workload_Image (Goal_Workload g)) signers (Now w) s.
Proof.
  unfold checkImageProvenance. intros H Hr. rewrite Hr in H. simpl in H.
  destruct (Workload_Attestation (Goal_Workload g)) as [signed|]; [|by destruct required].
  split; [done|]. intros ? [= <-]. inv_ok H. unfold wrap_err in Hm.
  destruct (VerifyImageAttestation _ _ _ _) as [s|] eqn:E; [|done].
  exists s. by apply VerifyImageAttestation_sound.
Qed.

(** An approved proposal passed every governor.  Its disruptions fit the budget
    and touch one failure domain, no other than those still cooling down; nothing it
    creates or starts is in failure backoff; if it runs an image under a policy that
    demands provenance the image is attested by a configured signer; and it declared
    the evidence by which each start, route and drain will be judged. *)
Theorem authorize_governed k actor g w p (H : Authorize k actor g w p = Ok tt) :
  (disruptive_actions p = [] ∨
   disruption_admitted (MaxDisruptionsPerWindow k) (DisruptionWindow k) (DisruptionCooldown k) w p) ∧
  (∀ a, a ∈ Proposal_Actions p →
     Action_Kind a = ActionCreateAllocation ∨ Action_Kind a = ActionStartAllocation →
     Backoff_Active (BackoffState w !! Action_Target a) (Now w) = false) ∧
  (RequireSignedImages k = true → runs_image p = true →
     ∃ signed s, Workload_Attestation (Goal_Workload g) = Some signed ∧
       attested_by signed (Workload_Image (Goal_Workload g)) (ImageSigners k) (Now w) s) ∧
  (∀ a kind, a ∈ Proposal_Actions p → required_check g (Action_Kind a) = Some kind →
     mkCheck kind (Action_Target a) "true" ∈ Proposal_ExpectedEvidence p).
Proof.
  apply Authorize_inv in H as (_ & _ & He & Hd & Hb & Hp & _).
  split; [by apply checkDisruptionBudget_sound|]. split; [intros a; by apply checkBackoff_sound|].
  split; [|intros a kind; by apply requireEvidenceChecks_sound].
  intros Hreq Hrun. apply checkImageProvenance_sound in Hp as [Hs Ha]; [|done].
  destruct (Hs Hreq) as [signed Hsigned]. destruct (Ha signed Hsigned) as [s Hat]. eauto.
Qed.
End Governors.

(** Witness: retiring one replica under the default policy. *)
Lemma authorize_governed_witness :
  disruptive_actions retire_proposal = [] ∨
  disruption_admitted 12 DefaultDisruptionWindow DefaultDisruptionCooldown busy_world retire_proposal.
Proof.
  exact (proj1 (authorize_governed DefaultPolicy (sample_actor "rollout-agent") sample_goal busy_world
    retire_proposal ltac:(vm_compute; reflexivity))).
Defined.

(** ** Separation of duties *)

(** Under the default grants no approved proposal both brings capacity up and
    takes capacity away, no agent may return a cordoned node to service, and nothing
    but the network agent exposes a workload. *)
Theorem default_separation_of_duties `{att : Attest} {clock : WallClock} actor g w p
    (H : Authorize DefaultPolicy actor g w p = Ok tt) a b
    (Ha : a ∈ Proposal_Actions p) (Hb : b ∈ Proposal_Actions p) :
  ¬ (Action_Kind a = ActionCreateAllocation ∧
     (Action_Kind b = ActionStopAllocation ∨ Action_Kind b = ActionDeleteAllocation)) ∧
  Action_Kind a ≠ ActionUncordonNode ∧
  (Action_Kind a = ActionPublishRoute → Agent_ID actor = "network-agent").
Proof.
  apply Authorize_inv in H as ((Hid & _) & [s Hrun] & _). destruct s as [w' c'].
  apply plan_run in Hrun as (_ & _ & _ & _ & Hpre).
  assert (∀ x, x ∈ Proposal_Actions p →
    is_granted (default [] (Grants DefaultPolicy !! Agent_ID actor)) (Action_Kind x) = true) as Hg.
  { intros x Hx. apply list_elem_of_split in Hx as (l1 & l2 & Hx). rewrite <-Hid. by eapply Hpre. }
  pose proof (Hg a Ha) as Hga. pose proof (Hg b Hb) as Hgb. clear -Hga Hgb.
  revert Hga Hgb. generalize (Agent_ID actor). intros id. unfold DefaultPolicy. cbn [Grants].
  rewrite !lookup_insert. repeat case_decide; rewrite ?lookup_empty; intros Hga Hgb.
  all: split_and!; [intros [Ea [Eb|Eb]]; rewrite Ea in Hga; rewrite Eb in Hgb
                   |intros Ea; rewrite Ea in Hga
                   |intros Ea; rewrite Ea in Hga]; by vm_compute in Hga, Hgb.
Qed.

Lemma default_separation_of_duties_witness :
  Action_Kind publish_web = ActionPublishRoute ∧ Agent_ID (sample_actor "network-agent") = "network-agent".
Proof.
  split; [reflexivity|].
  refine (proj2 (proj2 (default_separation_of_duties (sample_actor "network-agent") sample_goal busy_world
    publish_proposal ltac:(vm_compute; reflexivity) publish_web publish_web _ _)) eq_refl);
    apply list_elem_of_here.
Defined.

(** ** Cluster-wide ceilings *)

(** The seven quantities the cluster check bounds: how a commitment reports each,
    and what one allocation contributes to it. *)
Record Quantity := mkQuantity {
  of_commitment : ClusterCommitment → Z; weight : Resources → Budget → Z;
  ceiling_of : Policy → Z }.

Definition quantities : list Quantity :=
  [mkQuantity Commit_Allocations (λ _ _, 1) MaxAllocations;
   mkQuantity (λ c, CPUMillis (Commit_Resources c)) (λ r _, CPUMillis r) (λ k, CPUMillis (ClusterCeiling k));
   mkQuantity (λ c, MemoryMB (Commit_Resources c)) (λ r _, MemoryMB r) (λ k, MemoryMB (ClusterCeiling k));
   mkQuantity (λ c, Tokens (Commit_Budget c)) (λ _ b, Tokens b) (λ k, Tokens (ClusterBudget k));
   mkQuantity (λ c, CostMillis (Commit_Budget c)) (λ _ b, CostMillis b) (λ k, CostMillis (ClusterBudget k));
   mkQuantity (λ c, WallSeconds (Commit_Budget c)) (λ _ b, WallSeconds b) (λ k, WallSeconds (ClusterBudget k));
   mkQuantity (λ c, ToolCalls (Commit_Budget c)) (λ _ b, ToolCalls b) (λ k, ToolCalls (ClusterBudget k))].

(** What the live allocations of a world hold, and what a plan's creations add. *)
Definition live_weight (f : Resources → Budget → Z) (x : Allocation) : Z :=
  if bool_decide (Alloc_Phase x = AllocationStopped) then 0 else f (Alloc_Resources x) (Alloc_Budget x).
Definition held (f : Resources → Budget → Z) (w : World) : Z := map_sum (live_weight f) (Allocations w).
Definition create_weight (f : Resources → Budget → Z) (a : Action) : Z :=
  if bool_decide (Action_Kind a = ActionCreateAllocation) then f (Action_Resources a) (Action_Budget a) else 0.
Definition adding (f : Resources → Budget → Z) (l : list Action) : Z :=
  foldr (λ a n, create_weight f a + n) 0 l.

Lemma i64_i64_add x y : i64 (i64 x + y) = i64 (x + y).
Proof.
  unfold i64, two64. f_equal.
  replace ((x + 9223372036854775808) mod 18446744073709551616 - 9223372036854775808 + y + 9223372036854775808)
    with ((x + 9223372036854775808) mod 18446744073709551616 + y) by lia.
  rewrite Zplus_mod_idemp_l. f_equal. lia.
Qed.

Lemma commit_quantity q t r b :
  q ∈ quantities → of_commitment q (commit t r b) = i64 (of_commitment q t + weight q r b).
Proof. intros Hq. unfold quantities in Hq. repeat (apply elem_of_cons in Hq as [->|Hq]; [done|]). by apply not_elem_of_nil in Hq. Qed.

Lemma zero_quantity q : q ∈ quantities → of_commitment q Commitment_zero = 0.
Proof. intros Hq. unfold quantities in Hq. repeat (apply elem_of_cons in Hq as [->|Hq]; [done|]). by apply not_elem_of_nil in Hq. Qed.

(** A counting loop that wraps at every step computes the wrapped sum. *)
Lemma commit_loop {A} q (skip : A → bool) (res : A → Resources) (bud : A → Budget) (l : list A) t :
  q ∈ quantities → in_int (of_commitment q t) →
  of_commitment q (foldl (λ t x, if skip x then t else commit t (res x) (bud x)) t l) =
  i64 (of_commitment q t + foldr (λ x n, (if skip x then 0 else weight q (res x) (bud x)) + n) 0 l).
Proof.
  intros Hq. revert t. induction l as [|x l IH]; intros t Ht; simpl.
  - rewrite Z.add_0_r. by rewrite i64_id.
  - destruct (skip x).
    + rewrite IH by done. f_equal.
    + rewrite IH; rewrite commit_quantity by done; [|apply i64_range].
      rewrite i64_i64_add. f_equal. lia.
Qed.

Lemma Commitment_held q w : q ∈ quantities → of_commitment q (Commitment w) = i64 (held (weight q) w).
Proof.
  intros Hq. unfold Commitment. rewrite commit_loop, zero_quantity; [|done..|].
  - f_equal.
  - by rewrite zero_quantity.
Qed.

Lemma proposed_adding q p :
  q ∈ quantities → of_commitment q (proposed_commitment p) = i64 (adding (weight q) (Proposal_Actions p)).
Proof.
  intros Hq. unfold proposed_commitment. rewrite commit_loop, zero_quantity; [|done..|by rewrite zero_quantity].
  rewrite Z.add_0_l. f_equal. unfold adding, create_weight.
  induction (Proposal_Actions p) as [|a l IH]; [done|]. cbn [foldr]. rewrite <-IH.
  by repeat case_bool_decide.
Qed.

(** A proposal with a creation that passes the check respects every ceiling. *)
Lemma checkClusterBudget_sound k w p q :
  checkClusterBudget (MaxAllocations k) (ClusterCeiling k) (ClusterBudget k) w p = Ok tt →
  Commit_Allocations (proposed_commitment p) ≠ 0 → q ∈ quantities → 0 < ceiling_of q k →
  i64 (of_commitment q (Commitment w) + of_commitment q (proposed_commitment p)) <= ceiling_of q k.
Proof.
  unfold checkClusterBudget. intros H Hn Hq Hc. rewrite (proj2 (Z.eqb_neq _ _)) in H by done.
  inv_ok H. rewrite for_all_ok in H.
  assert (∀ t c, exceeds t c = false → 0 < c → t <= c) as Hex.
  { unfold exceeds. intros t c He Hpos. apply andb_false_iff in He as [He|He]; bool_simpl; lia. }
  assert (∀ t c msg, (if exceeds t c then Err (Errorf msg) else Ok tt) = Ok tt → 0 < c → t <= c) as Hex'.
  { intros t c msg He. apply Hex. by destruct (exceeds t c). }
  unfold quantities in Hq.
  repeat (apply elem_of_cons in Hq as [->|Hq]; [first
    [ by apply Hex | by eapply Hex'; [refine (H (_, _) _); rewrite !elem_of_cons; naive_solver|] ]|]).
  by apply not_elem_of_nil in Hq.
Qed.

Section Ceilings.
Context `{att : Attest} {clock : WallClock} (f : Resources → Budget → Z).
Implicit Types (w sim : World) (g : Goal) (p : Proposal) (a : Action).

Definition goal_budget g : Budget :=
  match Workload_Runtime (Goal_Workload g) with None => Budget_zero | Some r => Runtime_Budget r end.

(** The quantity is non-negative for every allocation and for the goal's replicas. *)
Definition weights_ok g w : Prop :=
  0 <= f (Workload_Resources (Goal_Workload g)) (goal_budget g) ∧
  ∀ id x, Allocations w !! id = Some x → 0 <= f (Alloc_Resources x) (Alloc_Budget x).

Lemma validate_create_budget g w a :
  Action_Kind a = ActionCreateAllocation → validateAction g w a = Ok tt → Action_Budget a = goal_budget g.
Proof.
  intros Hk H. unfold validateAction in H. rewrite Hk in H. simpl in H.
  unfold validateCreateAllocation in H. inv_ok H. unfold validateAgentPlacement, goal_budget in *.
  destruct (Workload_Runtime (Goal_Workload g)); inv_ok H; bool_simpl; [done|].
  unfold Budget_IsZero in *. by bool_simpl.
Qed.

Lemma live_weight_nonneg x : 0 <= f (Alloc_Resources x) (Alloc_Budget x) → 0 <= live_weight f x.
Proof. unfold live_weight. by case_bool_decide. Qed.

(** Only a creation adds to what is held, and by what it asks for. *)
Lemma held_step g w a w' :
  weights_ok g w → validateAction g w a = Ok tt → simulateAction w a = Ok w' →
  weights_ok g w' ∧ held f w' <= held f w + create_weight f a.
Proof.
  intros [Hg Hw] Hv Hs. unfold create_weight, held. destruct (lifecycle_kind (Action_Kind a)) eqn:El.
  2:{ pose proof (simulate_allocations_frame _ _ _ El Hs) as Hf. split; [split; [done|]|].
      - intros id y Hy. specialize (Hf id). rewrite Hy in Hf. inversion Hf as [x ? [] Hx|]; subst.
        rewrite sc_resources, sc_budget. eauto.
      - rewrite bool_decide_false by (intros E; by rewrite E in El). rewrite Z.add_0_r.
        apply Z.eq_le_incl. symmetry. apply map_sum_rel. intros id.
        eapply option_Forall2_impl; [apply Hf|]. intros x y []. unfold live_weight.
        by rewrite sc_phase, sc_resources, sc_budget. }
  destruct (Action_Kind a) eqn:Hk; try done.
  - pose proof (validate_create_inv g w a Hk Hv) as (Hfresh & n & _ & _ & _ & _ & _ & _ & Hres & _).
    pose proof (validate_create_budget g w a Hk Hv) as Hb.
    apply (simulate_create_inv _ _ _ Hk) in Hs as (m & _ & _ & HA). rewrite HA, Hres, Hb.
    rewrite bool_decide_true by done. split; [split; [done|]|].
    + intros id x. rewrite HA. intros [[_ <-]|[_ Hx]]%lookup_insert_Some; [by simpl; rewrite Hres, Hb|eauto].
    + rewrite map_sum_insert by done. unfold live_weight at 1. simpl. rewrite ?Hres, ?Hb. lia.
  - apply (simulate_start_inv _ _ _ Hk) in Hs as (x & Hx & _ & HA). rewrite HA. split; [split; [done|]|].
    + intros id y. rewrite HA. intros [[_ <-]|[_ Hy]]%lookup_insert_Some; simpl; eauto.
    + rewrite (map_sum_update _ _ _ _ _ Hx). unfold live_weight at 2 3. simpl_set.
      rewrite (validate_start_created g w a x Hk Hv Hx). simpl. lia.
  - apply (simulate_stop_inv _ _ _ Hk) in Hs as (x & Hx & _ & HA). rewrite HA. split; [split; [done|]|].
    + intros id y. rewrite HA. intros [[_ <-]|[_ Hy]]%lookup_insert_Some; simpl; eauto.
    + rewrite (map_sum_update _ _ _ _ _ Hx). pose proof (live_weight_nonneg x (Hw _ _ Hx)).
      rewrite (bool_decide_false (ActionStopAllocation = _)) by done.
      unfold live_weight at 3. simpl_set. rewrite (bool_decide_true (AllocationStopped = _)) by done. lia.
  - apply (simulate_delete_inv _ _ _ Hk) in Hs as (x & Hx & HA & _). rewrite HA. split; [split; [done|]|].
    + intros id y. rewrite HA. intros [_ Hy]%lookup_delete_Some. eauto.
    + rewrite (map_sum_delete _ _ _ _ Hx). pose proof (live_weight_nonneg x (Hw _ _ Hx)).
      rewrite (bool_decide_false (ActionDeleteAllocation = _)) by done. lia.
Qed.

Lemma held_run grants g w c l w' c' :
  weights_ok g w → for_each (plan_step grants g) (w, c) l = Ok (w', c') →
  held f w' <= held f w + adding f l ∧ 0 <= held f w ∧ 0 <= adding f l.
Proof.
  intros Hok Hrun. split_and!.
  - revert w c Hok Hrun. induction l as [|a l IH]; intros w c Hok Hrun.
    + injection Hrun as <- <-. simpl. lia.
    + cbn [for_each] in Hrun. destruct (plan_step grants g (w, c) a) as [[w1 c1]|] eqn:E; [|done].
      apply plan_step_inv in E as (_ & _ & _ & _ & Hv & Hs & _).
      destruct (held_step g w a w1 Hok Hv Hs) as [Hok' Hle]. specialize (IH w1 c1 Hok' Hrun).
      cbn [adding foldr]. unfold adding in IH. lia.
  - apply map_sum_nonneg. intros k x Hx. apply live_weight_nonneg, (proj2 Hok _ _ Hx).
  - revert w c Hok Hrun. induction l as [|a l IH]; intros w c Hok Hrun; [done|].
    cbn [for_each] in Hrun. destruct (plan_step grants g (w, c) a) as [[w1 c1]|] eqn:E; [|done].
    apply plan_step_inv in E as (_ & _ & _ & _ & Hv & Hs & _).
    destruct (held_step g w a w1 Hok Hv Hs) as [Hok' _]. specialize (IH w1 c1 Hok' Hrun).
    cbn [adding foldr]. unfold adding in IH. unfold create_weight at 1. case_bool_decide as Hk; [|lia].
    pose proof (validate_create_inv g w a Hk Hv) as (_ & n & _ & _ & _ & _ & _ & _ & -> & _).
    rewrite (validate_create_budget g w a Hk Hv). destruct Hok as [? _]. lia.
Qed.
End Ceilings.

(** C34: an approved plan that creates anything leaves the whole cluster under every
    declared ceiling: for each of the seven bounded quantities (allocations, CPU,
    memory, and the four agent budgets) what the live allocations hold after the plan
    is at most the ceiling, provided the exact totals fit an [int]. *)
Theorem authorize_cluster_ceilings `{att : Attest} {clock : WallClock} k actor g w p q
    (H : Authorize k actor g w p = Ok tt) (Hq : q ∈ quantities) (Hc : 0 < ceiling_of q k)
    (Hcreate : ∃ a, a ∈ Proposal_Actions p ∧ Action_Kind a = ActionCreateAllocation)
    (Hok : weights_ok (weight q) g w)
    (Hfew : len (Proposal_Actions p) <= int_max)
    (Hrange : held (weight q) w + adding (weight q) (Proposal_Actions p) <= int_max) :
  ∃ w', simulatePlan w (Proposal_Actions p) = Ok w' ∧ held (weight q) w' <= ceiling_of q k.
Proof.
  apply Authorize_inv in H as (_ & [[w' c'] Hrun] & _ & _ & _ & _ & Hcb).
  exists w'. split; [by apply plan_run in Hrun as [? _]|].
  destruct (held_run (weight q) _ g w _ _ w' c' Hok Hrun) as (Hle & Hh & Ha).
  set (count := mkQuantity Commit_Allocations (λ _ _, 1) MaxAllocations).
  assert (0 < adding (weight count) (Proposal_Actions p) <= len (Proposal_Actions p)) as Hn.
  { clear -Hcreate. destruct Hcreate as (a & Hin & Hk). unfold len, adding, create_weight.
    induction (Proposal_Actions p) as [|b l IH]; [by apply not_elem_of_nil in Hin|].
    assert (0 <= foldr (λ a n, (if bool_decide (Action_Kind a = ActionCreateAllocation) then
        weight count (Action_Resources a) (Action_Budget a) else 0) + n) 0 l <= Z.of_nat (length l)) as Hb.
    { clear. induction l as [|b l IH]; [done|]. cbn [foldr length]. case_bool_decide; simpl in *; lia. }
    cbn [foldr length]. apply elem_of_cons in Hin as [->|Hin].
    - rewrite bool_decide_true by done. simpl in *. lia.
    - specialize (IH Hin). case_bool_decide; simpl in *; lia. }
  apply (checkClusterBudget_sound k w p q) in Hcb; [|..|done|done].
  - rewrite Commitment_held, proposed_adding in Hcb by done. rewrite !i64_id in Hcb; try lia.
    all: unfold in_int, int_min; rewrite ?i64_id; unfold in_int, int_min; lia.
  - change (of_commitment count (proposed_commitment p) ≠ 0). rewrite proposed_adding by by left.
    rewrite i64_id; [lia|]. unfold in_int, int_min. lia.
Qed.

Definition capped_policy : Policy :=
  mkPolicy 8 (Grants DefaultPolicy) DefaultMaxDisruptions DefaultDisruptionWindow DefaultDisruptionCooldown
    ∅ false (mkResources 1000 1024) 2 Budget_zero.

(** Witness: one live replica, one created, under a ceiling of 1000 CPU millis. *)
Lemma authorize_cluster_ceilings_witness :
  ∃ w', simulatePlan sample_world (Proposal_Actions placement_proposal) = Ok w' ∧
    held (λ r _, CPUMillis r) w' <= 1000.
Proof.
  refine (authorize_cluster_ceilings capped_policy (sample_actor "placement-agent") sample_goal sample_world
    placement_proposal (mkQuantity (λ c, CPUMillis (Commit_Resources c)) (λ r _, CPUMillis r)
      (λ k, CPUMillis (ClusterCeiling k))) ltac:(vm_compute; reflexivity) _ eq_refl _ _ _ _).
  - apply elem_of_cons. right. apply list_elem_of_here.
  - exists create_web1. split; [apply list_elem_of_here | reflexivity].
  - split; [by vm_compute|].
    apply (bool_decide_unpack (map_Forall (λ _ x, 0 <= CPUMillis (Alloc_Resources x))
      (Allocations sample_world))). vm_compute. exact I.
  - by vm_compute.
  - by vm_compute.
Defined.

(** ** Where the arithmetic wraps *)

(** A goal whose CPU request is the largest [int]. *)
Definition huge_goal : Goal :=
  mkGoal "a4s.io/v1alpha1" "g1" "serve the site"
    (mkWorkloadSpec "web" sample_image 2 8080 (mkResources int_max 256) false false [] [] "" None None None
       None None)
    None (mkConstraints ∅ []) None.
Definition create_huge : Action := create_web1 <| Action_Node := "n1" |>
  <| Action_Resources := mkResources int_max 256 |>.

(** The capacity theorem needs its headroom hypothesis.  Request plus usage is
    computed in 64 bits, so on a node with 500 of 4000 millis in use a request for
    2^63 - 1 more wraps to a negative total, fits, and is approved; the node then
    holds more than two thousand trillion times its capacity. *)
Theorem capacity_check_wraps :
  Authorize DefaultPolicy (sample_actor "placement-agent") huge_goal sample_world
    (sample_proposal "placement-agent" [create_huge] []) = Ok tt ∧
  ∃ w', simulatePlan sample_world [create_huge] = Ok w' ∧
    load CPUMillis (Allocations w') "n1" = int_max + 500 ∧
    (Node_Capacity <$> Nodes w' !! "n1") = Some (mkResources 4000 8192).
Proof.
  split; [vm_compute; reflexivity|]. apply ok_such_that. vm_compute. split; reflexivity.
Qed.
