(* ===== verification/Rollout.v ===== *)
(** * Rollouts and operator-approved rollbacks (src/control/rollout.go)

    The agent that retires allocations which no longer match their goal, one at a
    time and within an availability floor, and the rule by which an approved rollback
    changes the image a goal means. *)

From S2P Require Import Prelude Types Text Spread Policy Simulate Clone Disruption ClusterBudget Provenance Kernel Guarantees.
Open Scope Z_scope.

#[export] Instance eta_WorkloadSpec : Eta WorkloadSpec := λ r,
  mkWorkloadSpec (Workload_Name r) (Workload_Image r) (Workload_Replicas r) (Workload_Port r)
    (Workload_Resources r) (Workload_Privileged r) (Workload_Stateful r) (Workload_Secrets r)
    (Workload_Volumes r) (Workload_Engine r) (Workload_Runtime r) (Workload_Policy r)
    (Workload_Schedule r) (Workload_Placement r) (Workload_Attestation r).
#[export] Instance eta_Goal : Eta Goal := λ r,
  mkGoal (Goal_APIVersion r) (Goal_ID r) (Goal_Objective r) (Goal_Workload r) (Goal_Route r)
    (Goal_Constraints r) (Goal_Canary r).

(** The order in which the run-time visits the approvals: some enumeration of them. *)
Class ApprovalOrder := approvals_in_order : gmap string Approval → list Approval.
Class ApprovalOrderLaws (order : ApprovalOrder) : Prop :=
  approvals_visited m : approvals_in_order m ≡ₚ values m.

Section Rollback.
Context {clock : WallClock} {order : ApprovalOrder}.

(** [RollbackTarget]; the second result is whether there is a first. *)
Definition RollbackTarget (g : Goal) (w : World) : option string :=
  match KnownGood w !! Workload_Name (Goal_Workload g) with
  | None => None
  | Some knownGood =>
      if bool_decide (knownGood = Workload_Image (Goal_Workload g)) then None
      else if map_any (λ a,
                bool_decide (Alloc_Workload a = Workload_Name (Goal_Workload g)) &&
                bool_decide (Alloc_Image a = Workload_Image (Goal_Workload g)) &&
                bool_decide (Alloc_Phase a = AllocationStopped) &&
                (negb (Alloc_ExitCode a =? 0) || (0 <? Alloc_Restarts a))) (Allocations w)
           then Some knownGood else None
  end.

Definition rollbackApproval (w : World) (goalID : string) : option Approval :=
  snd <$> list_find (λ a, Approval_GoalID a = goalID ∧ Approval_Scope a = "rollback" ∧
                          Approval_Valid a (Now w) = true) (approvals_in_order (Approvals w)).

(** [goal.Workload.Image = target] *)
Definition with_image (g : Goal) (image : string) : Goal :=
  g <| Goal_Workload ::= set Workload_Image (λ _, image) |>.

Definition CompensatedGoal (g : Goal) (w : World) : Goal * string * bool :=
  match rollbackApproval w (Goal_ID g) with
  | None => (g, "", false)
  | Some approval =>
      if bool_decide (Approval_Subject approval ≠ "") &&
         bool_decide (Approval_Subject approval ≠ Workload_Image (Goal_Workload g)) then (g, "", false)
      else
        match (if bool_decide (Approval_Rollback approval = "") then RollbackTarget g w
               else Some (Approval_Rollback approval)) with
        | None => (g, "", false)
        | Some target =>
            if bool_decide (target = Workload_Image (Goal_Workload g)) then (g, "", false)
            else (with_image g target, Workload_Image (Goal_Workload g), true)
        end
  end.
End Rollback.

(** ** The rollout agent *)

Record RolloutAgent := mkRolloutAgent { MinAvailable : Z }.

Definition rollout_Descriptor : AgentDescriptor :=
  mkAgentDescriptor "rollout-agent" "replace drifted allocations within an availability budget"
    [ActionStopAllocation; ActionDeleteAllocation].

Definition floor (r : RolloutAgent) (g : Goal) : Z :=
  if 0 <? MinAvailable r then MinAvailable r
  else if Workload_Replicas (Goal_Workload g) <=? 1 then 0
  else i64 (Workload_Replicas (Goal_Workload g) - 1).

Definition drifted (g : Goal) (w : World) (a : Allocation) : bool :=
  let matches := match Nodes w !! Alloc_Node a with
                 | None => false
                 | Some node =>
                     bool_decide (Alloc_Image a = Workload_Image (Goal_Workload g)) &&
                     bool_decide (Alloc_Resources a = Workload_Resources (Goal_Workload g)) &&
                     nodeAllowed (Goal_Constraints g) node
                 end in
  negb (if matches && Exhausted a then false else matches).

Definition ID_le (a b : Allocation) : Prop := string_le (Alloc_ID a) (Alloc_ID b).
#[export] Instance ID_le_dec : RelDecision ID_le.
Proof. intros a b. unfold ID_le. apply _. Defined.

Definition driftedAllocations (g : Goal) (w : World) : list Allocation :=
  merge_sort ID_le (filter (λ a, Alloc_Workload a = Workload_Name (Goal_Workload g) ∧ drifted g w a = true)
    (values (Allocations w))).

Definition retire_action (prefix : string) (kind : ActionKind) (a : Allocation) (deps : list string) : Action :=
  Action_zero <| Action_ID := prefix +:+ Alloc_ID a |> <| Action_Kind := kind |>
    <| Action_Target := Alloc_ID a |> <| Action_Workload := Alloc_Workload a |>
    <| Action_Node := Alloc_Node a |> <| Action_DependsOn := deps |>.

Section Propose.
Context {clock : WallClock}.

Definition rollout_Propose (r : RolloutAgent) (g : Goal) (w : World) : result Proposal :=
  let id := Agent_ID rollout_Descriptor in
  let proposal reasoning actions checks :=
    mkProposal (id +:+ "-r" +:+ Sprint (Revision w)) id (Goal_ID g) (Revision w) reasoning actions checks in
  let reasoning := "retire one allocation that no longer matches the goal, within the availability budget" in
  match RollbackTarget g w with
  | Some knownGood =>
      Err (RollbackRequired (Workload_Name (Goal_Workload g)) (Workload_Image (Goal_Workload g)) knownGood)
  | None =>
      match driftedAllocations g w with
      | [] => Ok (proposal reasoning [] [])
      | (candidate :: _) as drifted =>
          match list_find (λ a, Alloc_Phase a = AllocationStopped) drifted with
          | Some (_, a) => Ok (proposal reasoning [retire_action "delete-" ActionDeleteAllocation a []] [])
          | None =>
              let available := servingAllocations g w in
              let cost := if ReadyAt candidate (Now w) then 1 else 0 in
              refuse (i64 (available - cost) <? floor r g)
                "stopping %q would leave %d ready replicas, below the availability floor of %d";
              if bool_decide (is_Some (Workload_Runtime (Goal_Workload g))) &&
                 bool_decide (Alloc_Task candidate ≠ "") && negb (Alloc_Draining candidate) &&
                 negb (Exhausted candidate)
              then Ok (proposal "drain one agent instance so it finishes its task before being retired"
                         [retire_action "drain-" ActionDrainAllocation candidate []]
                         [mkCheck CheckAllocationDrained (Alloc_ID candidate) "true"])
              else
                Ok (proposal reasoning
                      [retire_action "stop-" ActionStopAllocation candidate [];
                       retire_action "delete-" ActionDeleteAllocation candidate
                         ["stop-" +:+ Alloc_ID candidate]] [])
          end
      end
  end.
End Propose.

(** ** What an approved rollback may change *)

Section Compensation.
Context {clock : WallClock} {order : ApprovalOrder} {laws : ApprovalOrderLaws order}.
Implicit Types (g : Goal) (w : World).

Lemma rollbackApproval_live w id a :
  rollbackApproval w id = Some a →
  ∃ key, Approvals w !! key = Some a ∧ Approval_GoalID a = id ∧ Approval_Scope a = "rollback" ∧
    Approval_Valid a (Now w) = true.
Proof.
  unfold rollbackApproval. intros H. apply fmap_Some in H as ([i x] & Hf & ->).
  apply list_find_Some in Hf as (Hi & Hp & _). apply list_elem_of_lookup_2 in Hi.
  rewrite approvals_visited in Hi. apply elem_of_values in Hi as [key Hk]. by exists key.
Qed.

(** An agent never redefines a goal.  The goal every agent and validator of a
    round works from is the operator's own, unless a live approval of scope [rollback]
    for this very goal stands in the world; then only the image differs, it is the
    version the approval names or, when it names none, the recorded known-good one,
    and an approval issued against another version than the goal now asks for changes
    nothing. *)
Theorem compensation_needs_approval g w :
  match CompensatedGoal g w with
  | (g', _, false) => g' = g
  | (g', failed, true) =>
      failed = Workload_Image (Goal_Workload g) ∧
      ∃ key a target, Approvals w !! key = Some a ∧ Approval_GoalID a = Goal_ID g ∧
        Approval_Scope a = "rollback" ∧ Approval_Valid a (Now w) = true ∧
        (Approval_Subject a = "" ∨ Approval_Subject a = failed) ∧
        (target = Approval_Rollback a ∧ target ≠ "" ∨
         Approval_Rollback a = "" ∧ KnownGood w !! Workload_Name (Goal_Workload g) = Some target) ∧
        target ≠ failed ∧ g' = with_image g target
  end.
Proof.
  unfold CompensatedGoal. destruct (rollbackApproval w (Goal_ID g)) as [a|] eqn:Ha; [|done].
  destruct (bool_decide (Approval_Subject a ≠ "") && _) eqn:Es; [done|].
  destruct (if bool_decide (Approval_Rollback a = "") then _ else _) as [target|] eqn:Et; [|done].
  destruct (bool_decide (target = _)) eqn:Ei; [done|]. bool_simpl. split; [done|].
  apply rollbackApproval_live in Ha as (key & Hk & Hg & Hs & Hv). exists key, a, target.
  repeat split; try done.
  - apply andb_false_iff in Es as [E|E]; bool_simpl; auto.
  - destruct (bool_decide (Approval_Rollback a = "")) eqn:Er; bool_simpl.
    + right. split; [done|]. unfold RollbackTarget in Et.
      destruct (KnownGood w !! _); [|done]. repeat case_match; congruence.
    + left. injection Et as <-. done.
Qed.
End Compensation.

(** ** The agent proposes what the kernel accepts *)

Section Agreement.
Context `{att : Attest} {clock : WallClock}.
Implicit Types (g : Goal) (w : World) (x : Allocation).

(** A plan that neither creates nor starts anything is judged by the plan loop and
    the disruption governor only. *)
Lemma Authorize_retiring k actor g w p s :
  Proposal_AgentID p = Agent_ID actor → Proposal_AgentID p ≠ "" → Proposal_GoalID p = Goal_ID g →
  Proposal_BasedOnRevision p = Revision w → 0 < len (Proposal_Actions p) <= MaxActionsPerProposal k →
  for_each (plan_step (default [] (Grants k !! Proposal_AgentID p)) g) (w, ∅) (Proposal_Actions p) = Ok s →
  requireEvidenceChecks g p = Ok tt →
  (∀ a, a ∈ Proposal_Actions p → disruptiveKinds (Action_Kind a) = true) →
  Authorize k actor g w p =
  checkDisruptionBudget (MaxDisruptionsPerWindow k) (DisruptionWindow k) (DisruptionCooldown k) w p.
Proof.
  intros Ha Hne Hg Hr [Hpos Hmax] Hplan Hev Hk.
  assert (checkBackoff w p = Ok tt) as Hb.
  { apply for_all_ok. intros a Hin. specialize (Hk a Hin). by destruct (Action_Kind a). }
  assert (runs_image p = false) as Hi.
  { unfold runs_image. apply not_true_is_false. intros (a & Hin & Hk')%existsb_exists.
    apply list_elem_of_In in Hin. specialize (Hk a Hin). by destruct (Action_Kind a). }
  assert (∀ l t, (∀ a, a ∈ l → disruptiveKinds (Action_Kind a) = true) →
    foldl (λ total a, if bool_decide (Action_Kind a ≠ ActionCreateAllocation) then total
                      else commit total (Action_Resources a) (Action_Budget a)) t l = t) as Hc.
  { clear. induction l as [|a l IH]; intros t Hl; [done|]. cbn [foldl]. rewrite IH.
    - rewrite bool_decide_true; [done|]. intros E. specialize (Hl a (list_elem_of_here _ _)). by rewrite E in Hl.
    - intros b Hb. apply Hl. by right. }
  assert (len (default [] (Grants k !! Proposal_AgentID p)) ≠ 0) as Hgr.
  { destruct (default [] _) as [|x l]; [|done]. destruct (Proposal_Actions p) as [|a l]; [done|].
    cbn [for_each plan_step] in Hplan. destruct (_ || _); [done|]. done. }
  unfold Authorize. rewrite cloneWorld_id, (bool_decide_false (_ ≠ Agent_ID actor)) by auto.
  rewrite (bool_decide_false (Proposal_AgentID p = "")), (bool_decide_false (Proposal_GoalID p ≠ _)) by auto.
  rewrite (proj2 (Z.eqb_eq _ _) Hr), (proj2 (Z.eqb_neq (len (Proposal_Actions p)) 0)) by lia.
  rewrite (proj2 (Z.ltb_ge _ _) Hmax), (proj2 (Z.eqb_neq _ 0) Hgr), Hplan, Hev, Hb. cbn [orb negb rbind].
  unfold checkImageProvenance, checkClusterBudget, proposed_commitment. rewrite Hi, Hc by done. cbn.
  by destruct (checkDisruptionBudget _ _ _ _ _) as [[]|].
Qed.

Lemma plan_step_accepts grants g w c a w' :
  Action_ID a ≠ "" → Action_ID a ∉ c → is_granted grants (Action_Kind a) = true →
  (∀ d, d ∈ Action_DependsOn a → d ∈ c) → validateAction g w a = Ok tt → simulateAction w a = Ok w' →
  plan_step grants g (w, c) a = Ok (w', {[Action_ID a]} ∪ c).
Proof.
  intros Hid Hc Hg Hd Hv Hs. unfold plan_step. rewrite !bool_decide_false, Hg by done. cbn [orb negb].
  rewrite (proj2 (for_all_refuse _ _ _)).
  - cbn [rbind]. rewrite Hv. cbn [wrap_err rbind]. by rewrite Hs.
  - intros d Hin. rewrite bool_decide_false; [done|]. intros Hn. by apply Hn, Hd.
Qed.

Lemma elem_of_drifted g w x :
  x ∈ driftedAllocations g w →
  Alloc_Workload x = Workload_Name (Goal_Workload g) ∧ ∃ id, Allocations w !! id = Some x.
Proof.
  unfold driftedAllocations. rewrite merge_sort_Permutation, list_elem_of_filter.
  intros [[Hw _] Hv]. split; [done|]. by apply elem_of_values.
Qed.

(** What the kernel's validators ask of an allocation the agent wants to retire and
    the agent does not look at: it is running or stopped rather than created, its
    volumes are detached, it is not marked stateful, and if it was asked to drain it
    has let go of its task. *)
Definition retirable g x : Prop :=
  (Alloc_Phase x = AllocationRunning ∨ Alloc_Phase x = AllocationStopped) ∧
  Alloc_Volumes x = ∅ ∧ Alloc_Stateful x = false ∧
  (Workload_Runtime (Goal_Workload g) = None ∨ Alloc_Task x = "" ∨ Alloc_Draining x = false ∨ Exhausted x = true).

Lemma delete_validates g w x prefix deps :
  Allocations w !! Alloc_ID x = Some x → Alloc_Phase x ≠ AllocationRunning →
  Alloc_Volumes x = ∅ → Alloc_Stateful x = false →
  validateAction g w (retire_action prefix ActionDeleteAllocation x deps) = Ok tt.
Proof.
  intros Hx Hp Hv Hs. unfold validateAction. cbn. unfold validateDeleteAllocation. cbn.
  rewrite Hx, Hv, Hs. rewrite (bool_decide_false (_ = AllocationRunning)) by done.
  rewrite !bool_decide_false by auto. done.
Qed.

Lemma delete_simulates w x prefix deps :
  Allocations w !! Alloc_ID x = Some x →
  ∃ w', simulateAction w (retire_action prefix ActionDeleteAllocation x deps) = Ok w'.
Proof.
  intros Hx. unfold simulateAction. cbn. unfold simulateDeleteAllocation. cbn. rewrite Hx. by eexists.
Qed.

Lemma drain_validates g w x prefix :
  Allocations w !! Alloc_ID x = Some x → Alloc_Phase x = AllocationRunning →
  is_Some (Workload_Runtime (Goal_Workload g)) →
  validateAction g w (retire_action prefix ActionDrainAllocation x []) = Ok tt ∧
  ∃ w', simulateAction w (retire_action prefix ActionDrainAllocation x []) = Ok w'.
Proof.
  intros Hx Hp Hr. unfold validateAction, simulateAction. cbn.
  unfold validateDrainAllocation, simulateDrainAllocation. cbn. rewrite Hx, Hp.
  rewrite !bool_decide_false by auto. split; [done|by eexists].
Qed.

Lemma stop_validates g w x prefix :
  Allocations w !! Alloc_ID x = Some x → Alloc_Phase x = AllocationRunning →
  (bool_decide (is_Some (Workload_Runtime (Goal_Workload g))) && bool_decide (Alloc_Task x ≠ "") &&
   negb (Exhausted x)) = false →
  (i64 (servingAllocations g w - (if ReadyAt x (Now w) then 1 else 0)) <? disruptionFloor g) = false →
  validateAction g w (retire_action prefix ActionStopAllocation x []) = Ok tt ∧
  simulateAction w (retire_action prefix ActionStopAllocation x []) =
    Ok (put_alloc w (Alloc_ID x) (x <| Alloc_Phase := AllocationStopped |> <| Alloc_Ready := false |>)).
Proof.
  intros Hx Hp Ht Hf. unfold validateAction, simulateAction. cbn.
  unfold validateStopAllocation, simulateStopAllocation. cbn. rewrite Hx, Hp, Ht.
  rewrite !bool_decide_false by auto. split; [|done].
  destruct (ReadyAt x (Now w)); [by rewrite Hf|done].
Qed.

Lemma stop_then_delete_accepted g w x :
  Allocations w !! Alloc_ID x = Some x → Alloc_Phase x = AllocationRunning →
  Alloc_Volumes x = ∅ → Alloc_Stateful x = false →
  (bool_decide (is_Some (Workload_Runtime (Goal_Workload g))) && bool_decide (Alloc_Task x ≠ "") &&
   negb (Exhausted x)) = false →
  (i64 (servingAllocations g w - (if ReadyAt x (Now w) then 1 else 0)) <? disruptionFloor g) = false →
  ∃ s, for_each (plan_step (default [] (Grants DefaultPolicy !! "rollout-agent")) g) (w, ∅)
    [retire_action "stop-" ActionStopAllocation x [];
     retire_action "delete-" ActionDeleteAllocation x ["stop-" +:+ Alloc_ID x]] = Ok s.
Proof.
  intros Hx Hp Hv Hs Ht Hf. destruct (stop_validates g w x "stop-" Hx Hp Ht Hf) as [Hv1 Hs1].
  set (y := x <| Alloc_Phase := AllocationStopped |> <| Alloc_Ready := false |>) in *.
  set (w1 := put_alloc w (Alloc_ID x) y) in *.
  assert (Allocations w1 !! Alloc_ID y = Some y) as Hy by apply lookup_insert_eq.
  destruct (delete_simulates w1 y "delete-" ["stop-" +:+ Alloc_ID x] Hy) as [w2 Hs2].
  cbn [for_each]. erewrite plan_step_accepts; [| | | | |exact Hv1|exact Hs1].
  2: discriminate. 2: set_solver. 2: by vm_compute. 2: by intros d Hd%not_elem_of_nil.
  cbn [rbind]. change (retire_action "delete-" ActionDeleteAllocation x ["stop-" +:+ Alloc_ID x])
    with (retire_action "delete-" ActionDeleteAllocation y ["stop-" +:+ Alloc_ID x]).
  erewrite plan_step_accepts; [| | | | |by apply delete_validates|exact Hs2].
  - by eexists.
  - discriminate.
  - rewrite union_empty_r_L, elem_of_singleton. discriminate.
  - by vm_compute.
  - intros d ->%list_elem_of_singleton. rewrite union_empty_r_L. by apply elem_of_singleton.
Qed.

(** The rollout agent and the kernel agree.  When every allocation of the workload
    is one the validators let go of, whatever the agent proposes under its default
    floor is denied by nothing but the disruption governor: the kernel's verdict on a
    non-empty rollout proposal is exactly that of the disruption budget. *)
Theorem rollout_judged_by_governor r g w p
    (Hmin : MinAvailable r <= 0)
    (Hids : ∀ id x, Allocations w !! id = Some x → Alloc_ID x = id)
    (Hret : ∀ id x, Allocations w !! id = Some x →
              Alloc_Workload x = Workload_Name (Goal_Workload g) → retirable g x)
    (H : rollout_Propose r g w = Ok p) :
  Proposal_Actions p = [] ∨
  Authorize DefaultPolicy rollout_Descriptor g w p =
  checkDisruptionBudget DefaultMaxDisruptions DefaultDisruptionWindow DefaultDisruptionCooldown w p.
Proof.
  assert (∀ x, x ∈ driftedAllocations g w → Allocations w !! Alloc_ID x = Some x ∧ retirable g x) as Hdr.
  { intros x (Hw & id & Hx)%elem_of_drifted. rewrite (Hids id x Hx). eauto. }
  unfold rollout_Propose in H. destruct (RollbackTarget g w); [done|].
  destruct (driftedAllocations g w) as [|c l]; [injection H as <-; by left|]. right.
  destruct (list_find _ _) as [[i x]|] eqn:Ef.
  - injection H as <-. apply list_find_Some in Ef as (Hi & Hp & _). apply list_elem_of_lookup_2 in Hi.
    destruct (Hdr x Hi) as [Hx (_ & Hv & Hs & _)].
    destruct (delete_simulates w x "delete-" [] Hx) as [w' Hsim].
    eapply Authorize_retiring; try done.
    + cbn [Proposal_Actions for_each]. erewrite plan_step_accepts; [done|discriminate|set_solver|by vm_compute| |
        by apply delete_validates; [|rewrite Hp| |]|exact Hsim]. by intros d Hd%not_elem_of_nil.
    + by intros a ->%list_elem_of_singleton.
  - destruct (Hdr c (list_elem_of_here _ _)) as [Hx (Hph & Hv & Hs & Ht)].
    assert (Alloc_Phase c = AllocationRunning) as Hp.
    { destruct Hph as [|Hph]; [done|]. apply list_find_None in Ef. by apply Forall_inv in Ef. }
    destruct (_ <? floor r g) eqn:Efl; [done|]. unfold floor in Efl.
    rewrite (proj2 (Z.ltb_ge _ _) Hmin) in Efl. fold (disruptionFloor g) in Efl.
    destruct (_ && negb (Exhausted c)) eqn:Ed; injection H as <-.
    + bool_simpl. destruct (drain_validates g w c "drain-" Hx Hp) as (Hva & w' & Hsim); [done|].
      eapply Authorize_retiring; try done.
      * cbn [Proposal_Actions for_each]. erewrite plan_step_accepts; [done|discriminate|set_solver|by vm_compute| |
          exact Hva|exact Hsim]. by intros d Hd%not_elem_of_nil.
      * unfold requireEvidenceChecks, for_all. cbn. by rewrite !bool_decide_true by done.
      * by intros a ->%list_elem_of_singleton.
    + destruct (stop_then_delete_accepted g w c) as [s Hplan]; try done.
      { destruct Ht as [E|[E|[E|E]]]; rewrite E in *; cbn in *; rewrite ?andb_false_r, ?andb_true_r in *; done. }
      eapply Authorize_retiring; [done..|exact Hplan|done|].
      intros a [->|[->|[]%elem_of_nil]%elem_of_cons]%elem_of_cons; done.
Qed.
End Agreement.

(** ** Concrete rollouts *)

#[local] Instance rollout_attest : Attest := Build_Attest (λ _, None) (λ _ _ _, false) (λ _, Malformed).
#[local] Instance rollout_clock : WallClock := 100.
#[local] Instance key_order : ApprovalOrder := values.
#[local] Instance key_order_laws : ApprovalOrderLaws key_order.
Proof. by intros m. Qed.

(** Both replicas of [web] run an older image than the goal names. *)
Definition old_image : string := "web@sha256:old".
Definition drifting_world : World :=
  busy_world <| Allocations := <["web-0" := (sample_alloc "web-0" "n1" AllocationRunning true) <| Alloc_Image := old_image |>]>
    (<["web-1" := (sample_alloc "web-1" "n2" AllocationRunning true) <| Alloc_Image := old_image |>]> ∅) |>.
Definition default_rollout : RolloutAgent := mkRolloutAgent 0.
Definition drifting_proposal : Proposal :=
  Eval vm_compute in
    match rollout_Propose default_rollout sample_goal drifting_world with
    | Ok p => p | Err _ => sample_proposal "" [] []
    end.

Lemma rollout_judged_by_governor_witness :
  Authorize DefaultPolicy rollout_Descriptor sample_goal drifting_world drifting_proposal =
  checkDisruptionBudget DefaultMaxDisruptions DefaultDisruptionWindow DefaultDisruptionCooldown
    drifting_world drifting_proposal.
Proof.
  refine (match rollout_judged_by_governor default_rollout sample_goal drifting_world drifting_proposal
                  _ _ _ _ with or_introl H => _ | or_intror H => H end).
  - discriminate.
  - apply (bool_decide_unpack (map_Forall (λ id x, Alloc_ID x = id) (Allocations drifting_world))).
    vm_compute. exact I.
  - assert (map_Forall (λ _ x, Alloc_Phase x = AllocationRunning ∧ Alloc_Volumes x = ∅ ∧
      Alloc_Stateful x = false) (Allocations drifting_world)) as Hw
      by (apply (bool_decide_unpack _); vm_compute; exact I).
    intros id x Hx _. destruct (Hw id x Hx) as (? & ? & ?). split; [auto|]. split; [done|]. split; [done|]. auto.
  - vm_compute. reflexivity.
  - discriminate H.
Defined.

Definition rollback_approval : Approval := mkApproval "ap2" "g1" "rollback" "op" true 50 0 0 sample_image old_image "".
Definition rolled_world : World := sample_world <| Approvals := <["ap2" := rollback_approval]> ∅ |>.

Lemma compensation_needs_approval_witness :
  CompensatedGoal sample_goal rolled_world = (with_image sample_goal old_image, sample_image, true) ∧
  ∃ key a target, Approvals rolled_world !! key = Some a ∧ Approval_GoalID a = "g1" ∧
    Approval_Scope a = "rollback" ∧ Approval_Valid a (Now rolled_world) = true ∧
    (Approval_Subject a = "" ∨ Approval_Subject a = sample_image) ∧
    (target = Approval_Rollback a ∧ target ≠ "" ∨
     Approval_Rollback a = "" ∧ KnownGood rolled_world !! "web" = Some target) ∧
    target ≠ sample_image ∧ with_image sample_goal old_image = with_image sample_goal target.
Proof. split; [vm_compute; reflexivity|]. exact (proj2 (compensation_needs_approval sample_goal rolled_world)). Defined.

(** One replica serves; the other was created from the old image and never started. *)
Definition stuck_world : World :=
  busy_world <| Allocations := <["web-0" := (sample_alloc "web-0" "n1" AllocationCreated false) <| Alloc_Image := old_image |>]>
    (<["web-1" := sample_alloc "web-1" "n2" AllocationRunning true]> ∅) |>.

(** A half-made allocation wedges a rollout.  An allocation that was created but
    never started counts as drifted once the goal's image moves on; the agent does not
    look at its phase and proposes to stop it, which the kernel refuses because it is
    not running, while deleting it, which the kernel would allow, is never proposed. *)
Theorem rollout_wedged_by_created :
  ∃ p, rollout_Propose default_rollout sample_goal stuck_world = Ok p ∧
    Authorize DefaultPolicy rollout_Descriptor sample_goal stuck_world p =
      Err (Wrapf "action %q: %w" (Errorf "allocation %q is not running")) ∧
    validateAction sample_goal stuck_world
      (retire_action "delete-" ActionDeleteAllocation
         ((sample_alloc "web-0" "n1" AllocationCreated false) <| Alloc_Image := old_image |>) []) = Ok tt.
Proof. apply ok_such_that. vm_compute. done. Qed.
