(* ===== verification/Engine.v ===== *)
(** * The reconciliation engine (src/control/engine.go, src/control/probe.go)

    The loop that turns a goal into authorized, executed and recorded change.  What it
    drives (an executor, a projection, probers, an event sink, agents) is given by the
    interfaces below, as the source gives them by Go interfaces; the theorems are in
    [Reconcile]. *)

From S2P Require Import Prelude Types Text Policy Disruption Projection Provenance Kernel Lease Rollout.
Open Scope Z_scope.

(** ** Texts carried by events *)

Definition ActionKind_String (k : ActionKind) : string :=
  match k with
  | ActionPullImage => "pull_image" | ActionCreateAllocation => "create_allocation"
  | ActionAttachNetwork => "attach_network" | ActionMountSecret => "mount_secret"
  | ActionCreateVolume => "create_volume" | ActionAttachVolume => "attach_volume"
  | ActionDetachVolume => "detach_volume" | ActionSnapshotVolume => "snapshot_volume"
  | ActionRestoreSnapshot => "restore_snapshot" | ActionBackupSnapshot => "backup_snapshot"
  | ActionQuiesceVolume => "quiesce_volume" | ActionTransferVolume => "transfer_volume"
  | ActionAdoptVolume => "adopt_volume" | ActionPruneSnapshots => "prune_snapshots"
  | ActionCollectImages => "collect_images" | ActionVerifyBackup => "verify_backup"
  | ActionDatabaseBackup => "database_backup" | ActionStartAllocation => "start_allocation"
  | ActionStopAllocation => "stop_allocation" | ActionDeleteAllocation => "delete_allocation"
  | ActionPublishRoute => "publish_route" | ActionApplyPolicy => "apply_policy"
  | ActionPublishZone => "publish_zone" | ActionGrantTools => "grant_tools"
  | ActionDrainAllocation => "drain_allocation" | ActionCordonNode => "cordon_node"
  | ActionUncordonNode => "uncordon_node" | ActionProbeReadiness => "probe_readiness"
  | ActionOther text => text
  end.

Definition EvidenceKind_String (k : EvidenceKind) : string :=
  match k with
  | EvidenceImagePresent => "image.present" | EvidenceAllocationCreated => "allocation.created"
  | EvidenceSecretMounted => "secret.mounted" | EvidenceVolumeCreated => "volume.created"
  | EvidenceVolumeAttached => "volume.attached" | EvidenceVolumeDetached => "volume.detached"
  | EvidenceVolumeSnapshotted => "volume.snapshotted" | EvidenceVolumeRestored => "volume.restored"
  | EvidenceVolumeBackedUp => "volume.backed_up" | EvidenceVolumeQuiesced => "volume.quiesced"
  | EvidenceVolumeTransferred => "volume.transferred" | EvidenceVolumeAdopted => "volume.adopted"
  | EvidenceSnapshotsPruned => "volume.snapshots_pruned"
  | EvidenceBackupVerified => "volume.backup_verified"
  | EvidenceDatabaseBackedUp => "database.backed_up" | EvidenceNetworkAttached => "network.attached"
  | EvidenceNetworkDetached => "network.detached" | EvidenceAllocationRunning => "allocation.running"
  | EvidenceAllocationReady => "allocation.ready" | EvidenceNodeCordoned => "node.cordoned"
  | EvidenceNodeUncordoned => "node.uncordoned" | EvidenceNodeReachable => "node.reachable"
  | EvidenceNodeUnreachable => "node.unreachable" | EvidenceAllocationStopped => "allocation.stopped"
  | EvidenceAllocationDeleted => "allocation.deleted" | EvidenceAllocationFailed => "allocation.failed"
  | EvidenceRouteReachable => "route.reachable" | EvidenceRouteRemoved => "route.removed"
  | EvidenceToolsGranted => "agent.tools_granted" | EvidenceAgentReady => "agent.ready"
  | EvidenceAgentSpent => "agent.spent" | EvidenceAgentDraining => "agent.draining"
  | EvidenceAllocationDrained => "allocation.drained" | EvidenceQueueObserved => "queue.observed"
  | EvidenceProviderReachable => "provider.reachable" | EvidencePolicyApplied => "policy.applied"
  | EvidenceZonePublished => "zone.published" | EvidenceImagesCollected => "images.collected"
  | EvidenceApprovalGranted => "approval.granted" | EvidenceApprovalRevoked => "approval.revoked"
  | EvidenceDiagnosisRecorded => "diagnosis.recorded"
  | EvidenceOther text => text
  end.

(** [err.Error()], without the interpolated values. *)
Definition error_text (e : error) : string :=
  match e with
  | Errorf format | Wrapf format _ => format
  | RollbackRequired _ _ _ => "workload %q failed on %s; last known-good image is %s"
  | Pacing_error _ _ => "held back until %s: %s"
  | Panic reason => reason
  end.

Definition pacing_text (r : PacingReason) : string :=
  match r with
  | NotPaced => ""
  | BackoffOn _ _ => "%s is in a failure backoff after %d consecutive failures"
  | DomainCooldown _ => "failure domain %q is inside its disruption cooldown"
  | BudgetFull _ => "the disruption budget is full at %d in %s"
  end.

(** ** Interfaces *)

(** What an engine acts on: the executor and the projection, which may be one object
    (as with the in-memory executor), with whatever state they keep. *)
Class Plant (T : Type) := {
  plant_World : T → World;
  plant_Project : T → Evidence → T * result unit;
  plant_Bind : T → string → string → Z → string → T;
  plant_Execute : T → Action → T * result Evidence }.

(** What the engine relies on: the world moves by projecting evidence and by nothing
    else, and a refused observation leaves it alone. *)
Class PlantLaws {T} (plant : Plant T) : Prop := {
  project_advances t e :
    match Project (plant_World t) e, plant_Project t e with
    | Ok w, (t', r) => r = Ok tt ∧ plant_World t' = w
    | Err err, (t', r) => r = Err err ∧ plant_World t' = plant_World t
    end;
  bind_keeps t goal proposal revision lease : plant_World (plant_Bind t goal proposal revision lease) = plant_World t;
  execute_keeps t a : plant_World (plant_Execute t a).1 = plant_World t }.

Class EventSink (S : Type) := {
  sink_Append : S → Event → S * result unit;
  sink_NextSequence : S → Z }.

(** A sink holds the events it accepted, in order. *)
Class EventSinkLaws {S} (sink : EventSink S) (holds : S → list Event → Prop) : Prop :=
  append_holds s l e :
    holds s l → match sink_Append s e with
                | (s', Ok _) => holds s' (l ++ [e])
                | (s', Err _) => holds s' l
                end.

(** An agent may answer differently each time it is asked. *)
Record Agent := mkAgent {
  Descriptor : AgentDescriptor; Propose : nat → Goal → World → result Proposal }.

(** A prober reads the clock and the declared targets; measuring may touch the hosts. *)
Definition Prober (T : Type) : Type :=
  T → gmap string ProbeTarget → time → World → Check_ → T * option Evidence.

(** ** Measured readiness (src/control/probe.go) *)

Definition DefaultReadinessTTL : duration := 30 * Second.
Definition ProbeProcess : string := "process".
Definition ProbeTCP : string := "tcp".
Definition ProbeDatabase : string := "database".
Definition ProbeAgent : string := "agent".

Definition ready_kind (k : CheckKind) : option EvidenceKind :=
  match k with
  | CheckAllocationReady => Some EvidenceAllocationReady
  | CheckAgentReady => Some EvidenceAgentReady
  | _ => None
  end.

Definition probe_target (target : ProbeTarget) (a : Allocation) : ProbeTarget :=
  mkProbeTarget (Probe_Allocation target) (Probe_Kind target) (Probe_Port target) (Probe_Path target)
    (Probe_Provider target)
    (if bool_decide (Probe_Address target = "") then Alloc_Address a else Probe_Address target)
    (Probe_Engine target)
    (if bool_decide (Probe_Node target = "") then Alloc_Node a else Probe_Node target).

(** [MeasuredProber.Probe] over an observer of type [observe]. *)
Definition MeasuredProber {T} (observe : T → ProbeTarget → T * result (bool * gmap string string))
    (ttl : duration) : Prober T := λ t targets now w check,
  match ready_kind (Check_Kind check) with
  | None => (t, None)
  | Some evidenceKind =>
      match Allocations w !! Check_Target check with
      | None => (t, None)
      | Some allocation =>
          if bool_decide (Alloc_Phase allocation ≠ AllocationRunning) then (t, None)
          else match targets !! Check_Target check with
               | None => (t, None)
               | Some target =>
                   let target := probe_target target allocation in
                   match observe t target with
                   | (t, Err _) => (t, None)
                   | (t, Ok (ready, observed)) =>
                       let observed := <["probe" := Probe_Kind target]> (<["ready" := Sprint_bool ready]> observed) in
                       let ttl := if ttl <=? 0 then DefaultReadinessTTL else ttl in
                       (t, Some (mkEvidence evidenceKind (Check_Target check)
                                   ("prober:" +:+ Probe_Kind target) now (time_Add now ttl) observed))
                   end
               end
      end
  end.

#[export] Instance eta_Event : Eta Event := λ r,
  mkEvent (Event_Sequence r) (Event_At r) (Event_Type r) (Event_Actor r) (Event_GoalID r) (Event_ProposalID r)
    (Event_ActionID r) (Event_Target r) (Event_Kind r) (Event_WorldRevision r) (Event_Message r) (Event_Evidence r).

(** ** The engine *)

Section Engine.
Context `{att : Attest} {clock : WallClock} {order : ApprovalOrder}.
Context {T S : Type} {plant : Plant T} {sink : EventSink S}.
Context (reading : nat → time) (k : Policy) (agents : list Agent) (probers : list (Prober T)).

(** [ticks] counts the clock readings taken so far; reading [n] is [reading n]. *)
Record Engine := mkEngine {
  Plant_ : T; Leases : LeaseManager; Events : list Event; Sink : option S;
  probeTargets : gmap string ProbeTarget; ticks : nat }.

Definition with_plant (e : Engine) (t : T) : Engine :=
  mkEngine t (Leases e) (Events e) (Sink e) (probeTargets e) (ticks e).
Definition with_leases (e : Engine) (m : LeaseManager) : Engine :=
  mkEngine (Plant_ e) m (Events e) (Sink e) (probeTargets e) (ticks e).
Definition with_targets (e : Engine) (targets : gmap string ProbeTarget) : Engine :=
  mkEngine (Plant_ e) (Leases e) (Events e) (Sink e) targets (ticks e).
Definition tick (e : Engine) : Engine :=
  mkEngine (Plant_ e) (Leases e) (Events e) (Sink e) (probeTargets e) (ticks e + 1)%nat.
Definition now (e : Engine) : time := reading (ticks e).
Definition World_ (e : Engine) : World := plant_World (Plant_ e).

(** Operations that may fail: the engine they leave behind, and their outcome. *)
Definition M (A : Type) : Type := Engine → Engine * result A.
Definition mret {A} (a : A) : M A := λ e, (e, Ok a).
Definition mfail {A} (err : error) : M A := λ e, (e, Err err).
Definition mbind {A B} (m : M A) (f : A → M B) : M B := λ e,
  match m e with (e, Ok a) => f a e | (e, Err err) => (e, Err err) end.
Local Notation "'let!' x ':=' m 'in' f" := (mbind m (λ x, f))
  (at level 10, x pattern, m at level 200, f at level 200).
Local Notation "m '>>' f" := (mbind m (λ _, f)) (at level 60, right associativity).

Definition mfor {A} (f : A → M unit) (l : list A) : M unit :=
  foldr (λ x rest, f x >> rest) (mret tt) l.

(** [observedWorld]: the projection, stamped with the clock if that is later. *)
Definition observedWorld : M World := λ e,
  let w := World_ e in
  (tick e, Ok (if After (now e) (ObservedAt w) then w <| ObservedAt := now e |> else w)).

(** The event with its sequence number, time and world revision. *)
Definition stamped (event : Event) (e : Engine) : Event :=
  let sequence := match Sink e with
                  | None => u64 (len (Events e) + 1)
                  | Some s => sink_NextSequence s
                  end in
  event <| Event_Sequence := sequence |> <| Event_At := now e |>
    <| Event_WorldRevision := Revision (World_ e) |>.

Definition record (event : Event) : M unit := λ e,
  let event := stamped event e in
  let e := tick e in
  let appended s := mkEngine (Plant_ e) (Leases e) (Events e ++ [event]) s (probeTargets e) (ticks e) in
  match Sink e with
  | None => (appended None, Ok tt)
  | Some s =>
      match sink_Append s event with
      | (s, Ok _) => (appended (Some s), Ok tt)
      | (s, Err err) =>
          (mkEngine (Plant_ e) (Leases e) (Events e) (Some s) (probeTargets e) (ticks e),
           Err (Wrapf "persist %s event: %w" err))
      end
  end.

(** An event literal; sequence, time and revision are filled in by [record]. *)
Definition event (type : EventType) (actor goalID proposalID actionID target kind message : string)
    (evidence : option Evidence) : Event :=
  mkEvent 0 time_zero type actor goalID proposalID actionID target kind 0 message evidence.

(** [e.World.Project] *)
Definition project (evidence : Evidence) : M unit := λ e,
  let '(t, r) := plant_Project (Plant_ e) evidence in (with_plant e t, r).

(** A run-time panic unwinds through the handlers of an error. *)
Definition on_error {A} (m : M A) (handle : error → M A) : M A := λ e,
  match m e with
  | (e, Err (Panic reason)) => (e, Err (Panic reason))
  | (e, Err err) => handle err e
  | (e, Ok a) => (e, Ok a)
  end.

(** *** Readiness targets *)

Definition ensureProbeTarget (g : Goal) (allocation : string) : M unit := λ e,
  if bool_decide (allocation = "") then (e, Ok tt)
  else
    let placed := Allocations (World_ e) !! allocation in
    let spec := Goal_Workload g in
    let target :=
      match probeTargets e !! allocation with
      | Some existing =>
          match placed with
          | Some a => mkProbeTarget (Probe_Allocation existing) (Probe_Kind existing) (Probe_Port existing)
                        (Probe_Path existing) (Probe_Provider existing) (Probe_Address existing)
                        (Probe_Engine existing) (Alloc_Node a)
          | None => existing
          end
      | None =>
          let kind := if 0 <? Workload_Port spec then ProbeTCP else ProbeProcess in
          let kind := if bool_decide (Workload_Engine spec ≠ "") then ProbeDatabase else kind in
          let '(kind, provider) := match Workload_Runtime spec with
                                   | Some runtime => (ProbeAgent, Runtime_Provider runtime)
                                   | None => (kind, "")
                                   end in
          mkProbeTarget allocation kind (Workload_Port spec) "" provider "" (Workload_Engine spec)
            (match placed with Some a => Alloc_Node a | None => "" end)
      end in
    (with_targets e (<[allocation := target]> (probeTargets e)), Ok tt).

Definition registerProbeTarget (g : Goal) (a : Action) : M unit :=
  if bool_decide (Action_Kind a ≠ ActionCreateAllocation) then mret tt
  else ensureProbeTarget g (Action_Target a).

(** One call of a prober, with the time it stamps on what it measures. *)
Definition probe (p : Prober T) (w : World) (check : Check_) : M (option Evidence) := λ e,
  let '(t, evidence) := p (Plant_ e) (probeTargets e) (now e) w check in
  (tick (with_plant e t), Ok evidence).

(** *** Observation *)

(** Project evidence a prober produced, then record it. *)
Definition accept (format : string) (ev : Event) (evidence : Evidence) : M unit :=
  on_error (project evidence) (λ err, mfail (Wrapf format err)) >>
  record ev.

Definition refresh_one (g : Goal) (id : string) (check : CheckKind) (p : Prober T) : M unit :=
  let! before := observedWorld in
  let! measured := probe p before (mkCheck check id "true") in
  match measured with
  | None => mret tt
  | Some evidence =>
      let was := match Allocations before !! id with
                 | Some a => ReadyAt a (Now before)
                 | None => false
                 end in
      let willBe := bool_decide (observed evidence "ready" = "true") &&
                    (IsZero (Ev_ExpiresAt evidence) || Before (Now before) (Ev_ExpiresAt evidence)) in
      if Bool.eqb was willBe then mret tt
      else accept "project readiness for %q: %w"
             (event EventObservationRecorded "prober" (Goal_ID g) "" "" id
                (EvidenceKind_String (Ev_Kind evidence)) (EvidenceKind_String (Ev_Kind evidence)) (Some evidence))
             evidence
  end.

(** The goal's running allocations, by id. *)
Definition running_ids (g : Goal) (w : World) : list string :=
  sort_Strings (map_to_list (filter (λ '(_, a),
    Alloc_Workload a = Workload_Name (Goal_Workload g) ∧ Alloc_Phase a = AllocationRunning) (Allocations w))).*1.

Definition refreshReadiness (g : Goal) : M unit :=
  if len probers =? 0 then mret tt
  else
    let! w := observedWorld in
    let check := match Workload_Runtime (Goal_Workload g) with
                 | Some _ => CheckAgentReady
                 | None => CheckAllocationReady
                 end in
    mfor (λ id, ensureProbeTarget g id >> mfor (refresh_one g id check) probers) (running_ids g w).

Definition observe_one (g : Goal) (p : Proposal) (check : Check_) (prober : Prober T) : M unit :=
  let! w := observedWorld in
  let! measured := probe prober w check in
  match measured with
  | None => mret tt
  | Some evidence =>
      accept "project probe evidence for %q: %w"
        (event EventObservationRecorded "prober" (Goal_ID g) (Proposal_ID p) "" (Check_Target check)
           (EvidenceKind_String (Ev_Kind evidence)) (EvidenceKind_String (Ev_Kind evidence)) (Some evidence))
        evidence
  end.

Definition observe (g : Goal) (p : Proposal) : M unit :=
  mfor (λ check, mfor (observe_one g p check) probers) (Proposal_ExpectedEvidence p).

(** What a check asks, read off the world; [None] for a kind nobody knows. *)
Definition check_observes (w : World) (check : Check_) : option bool :=
  let allocation := Allocations w !! Check_Target check in
  match Check_Kind check with
  | CheckAllocationReady => Some (match allocation with Some a => ReadyAt a (Now w) | None => false end)
  | CheckAgentReady =>
      Some (match allocation with
            | Some a => ReadyAt a (Now w) && negb (Alloc_Draining a) && negb (Exhausted a)
            | None => false
            end)
  | CheckAllocationDrained => Some (match allocation with Some a => Drained a | None => false end)
  | CheckRouteReachable => Some (bool_decide (is_Some (Routes w !! Check_Target check)))
  | CheckOther _ => None
  end.

Definition verifyChecks (w : World) (checks : list Check_) : result unit :=
  for_all (λ check,
    need observed := check_observes w check else "unknown evidence check %q";
    refuse (bool_decide (Sprint_bool observed ≠ Check_Want check))
      "check %s for %s: observed %t, want %s";
    Ok tt) checks.

Definition goalAchieved (g : Goal) (w : World) : bool :=
  if negb (matchingReadyAllocations g w =? Workload_Replicas (Goal_Workload g)) then false
  else match Goal_Route g with
       | None => true
       | Some spec =>
           match Routes w !! RouteSpec_Host spec with
           | None => false
           | Some route =>
               bool_decide (Route_Workload route = Workload_Name (Goal_Workload g)) &&
               (Route_Port route =? RouteSpec_Port spec) &&
               bool_decide (Route_Exposure route = RouteSpec_Exposure spec)
           end
       end.

(** *** Executing an authorized proposal *)

Definition action_event (type : EventType) (actor : string) (g : Goal) (p : Proposal) (a : Action)
    (message : string) (evidence : option Evidence) : Event :=
  event type actor (Goal_ID g) (Proposal_ID p) (Action_ID a) (Action_Target a)
    (ActionKind_String (Action_Kind a)) message evidence.

(** [e.Executor.Execute] *)
Definition execute (a : Action) : M Evidence := λ e,
  let '(t, r) := plant_Execute (Plant_ e) a in (with_plant e t, r).

(** Evidence without a time is stamped with the control plane's. *)
Definition stamp_evidence (evidence : Evidence) : M Evidence := λ e,
  if IsZero (Ev_ObservedAt evidence)
  then (tick e, Ok (evidence <| Ev_ObservedAt := now e |>)) else (e, Ok evidence).

Definition execute_action (g : Goal) (p : Proposal) (a : Action) : M unit :=
  let text := ActionKind_String (Action_Kind a) in
  record (action_event EventActionDispatched "coordinator" g p a text None) >>
  let! evidence := on_error (execute a) (λ err,
    on_error (record (action_event EventGoalBlocked "node-executor" g p a (error_text err) None))
      (λ recordErr, mfail (Wrapf "execute action: %v; persist failure: %w" recordErr)) >>
    mfail err) in
  registerProbeTarget g a >>
  let! evidence := stamp_evidence evidence in
  on_error (project evidence) (λ err,
    record (action_event EventGoalBlocked "projection" g p a (error_text err) None) >>
    mfail (Wrapf "project evidence for action %q: %w" err)) >>
  record (action_event EventActionCompleted "node-executor" g p a text (Some evidence)).

(** The loop over the plan, which also reports whether anything was mutated. *)
Fixpoint run_actions (g : Goal) (p : Proposal) (l : list Action) (progress : bool) (e : Engine)
    : Engine * (bool * result unit) :=
  match l with
  | [] => (e, (progress, Ok tt))
  | a :: l =>
      match execute_action g p a e with
      | (e, Ok _) => run_actions g p l true e
      | (e, Err err) => (e, (progress, Err err))
      end
  end.

Definition verify (g : Goal) (p : Proposal) : M unit :=
  let! w := observedWorld in
  match verifyChecks w (Proposal_ExpectedEvidence p) with
  | Ok _ => mret tt
  | Err err =>
      record (event EventGoalBlocked "verifier" (Goal_ID g) (Proposal_ID p) "" "" "" (error_text err) None) >>
      mfail err
  end.

Definition executeProposal (g : Goal) (p : Proposal) (leaseID : string) (e : Engine)
    : Engine * (bool * result unit) :=
  let '(e, (progress, r)) := run_actions g p (Proposal_Actions p) false e in
  let '(e, r) := match r with
                 | Ok _ => (observe g p >> verify g p) e
                 | Err err => (e, Err err)
                 end in
  (with_leases e (Release (Leases e) leaseID), (progress, r)).

(** *** One agent's turn, one round, the loop *)

(** [errors.As(err, &rollback)] *)
Fixpoint is_rollback (err : error) : bool :=
  match err with
  | RollbackRequired _ _ _ => true
  | Wrapf _ wrapped => is_rollback wrapped
  | _ => false
  end.

Definition proposal_event (type : EventType) (actor : string) (g : Goal) (p : Proposal) (message : string) : Event :=
  event type actor (Goal_ID g) (Proposal_ID p) "" "" "" message None.

(** Claim the targets, bind the executor to the authorization, run the plan. *)
Definition run_authorized (g effective : Goal) (p : Proposal) : M bool := λ e,
  let '(m, r) := Acquire (Leases e) (now e) (Goal_ID g) (Proposal_ID p) (LeaseTargets p) in
  let e := tick (with_leases e m) in
  match r with
  | Err err =>
      (record (proposal_event EventProposalDenied "policy-kernel" g p (error_text err)) >> mret false) e
  | Ok leaseID =>
      let e := with_plant e (plant_Bind (Plant_ e) (Goal_ID g) (Proposal_ID p) (Proposal_BasedOnRevision p) leaseID) in
      match executeProposal effective p leaseID e with
      | (e, (executed, Ok _)) => (e, Ok executed)
      | (e, (_, Err err)) => (e, Err err)
      end
  end.

Definition judge (g effective : Goal) (actor : AgentDescriptor) (w : World) (p : Proposal) : M bool :=
  record (proposal_event EventProposalCreated (Proposal_AgentID p) g p (Proposal_Reasoning p)) >>
  match Authorize k actor effective w p with
  | Err err => record (proposal_event EventProposalDenied "policy-kernel" g p (error_text err)) >> mret false
  | Ok _ =>
      record (proposal_event EventProposalApproved "policy-kernel" g p
                "all actions authorized against a simulated world") >>
      run_authorized g effective p
  end.

(** A turn reports whether it made progress. *)
Definition agent_turn (g effective : Goal) (agent : Agent) : M bool :=
  let! w := observedWorld in
  let! n := (λ e, (e, Ok (ticks e))) in
  match Propose agent n effective w with
  | Err err =>
      let id := Agent_ID (Descriptor agent) in
      if is_rollback err
      then record (event EventGoalBlocked id (Goal_ID g) "" "" "" "" (error_text err) None) >> mfail err
      else record (event EventProposalDenied id (Goal_ID g) "" "" "" "" (error_text err) None) >> mret false
  | Ok p => if len (Proposal_Actions p) =? 0 then mret false else judge g effective (Descriptor agent) w p
  end.

Fixpoint turns (g effective : Goal) (l : list Agent) (progress : bool) : M bool :=
  match l with
  | [] => mret progress
  | agent :: l => let! executed := agent_turn g effective agent in turns g effective l (progress || executed)
  end.

(** No agent moved: waiting on a safeguard, or blocked. *)
Definition stalled (g effective : Goal) : M bool :=
  let! w := observedWorld in
  match Paced (MaxDisruptionsPerWindow k) (DisruptionWindow k) (DisruptionCooldown k) effective w with
  | ((reason, until), true) =>
      let pacing := Pacing_error (pacing_text reason) until in
      record (event EventGoalBlocked "coordinator" (Goal_ID g) "" "" "" "" (error_text pacing) None) >> mfail pacing
  | (_, false) =>
      record (event EventGoalBlocked "coordinator" (Goal_ID g) "" "" "" ""
                "no agent produced an authorized action" None) >>
      mfail (Errorf "goal %q is blocked")
  end.

(** One round; [true] once the goal is achieved and recorded as such. *)
Definition round (g : Goal) : M bool :=
  let! w := observedWorld in
  let '(effective, rolledBackFrom, compensating) := CompensatedGoal g w in
  (if compensating : bool
   then record (event EventGoalCompensating "coordinator" (Goal_ID g) "" "" (Workload_Name (Goal_Workload g))
                  (ActionKind_String ActionCreateAllocation) "operator approved rollback from %s to %s" None)
   else mret tt) >>
  refreshReadiness effective >>
  let! w := observedWorld in
  if goalAchieved effective w
  then record (event EventGoalAchieved "verifier" (Goal_ID g) "" "" "" ""
                 "goal conditions verified from current world evidence" None) >> mret true
  else
    let! progress := turns g effective agents false in
    if progress : bool then mret false else stalled g effective.

Fixpoint rounds (n : nat) (g : Goal) : M unit :=
  match n with
  | O =>
      record (event EventGoalBlocked "coordinator" (Goal_ID g) "" "" "" ""
                "reconciliation round limit reached" None) >>
      mfail (Errorf "goal %q did not converge after %d rounds")
  | Datatypes.S n => let! achieved := round g in if achieved : bool then mret tt else rounds n g
  end.

Definition Run (g : Goal) (maxRounds : Z) : M unit :=
  record (event EventGoalAccepted "operator" (Goal_ID g) "" "" "" "" (Goal_Objective g) None) >>
  rounds (Z.to_nat maxRounds) g.
End Engine.
