(* ===== verification/Reconcile.v ===== *)
(** * What a run of the engine guarantees

    Theorems about [Engine.Run]: it drives hosts only with authorized actions, keeps
    the world a function of what it recorded, gives every lease back, and reports
    success only for goals the observed world satisfies. *)

From S2P Require Import Prelude Types Text Policy Simulate Clone Disruption Projection Provenance Kernel.
From S2P Require Import History Executor EventLog Durable Lease Rollout Engine Guarantees.
Open Scope Z_scope.

(** ** Invariants of operations *)

Section Invariants.
Context `{att : Attest} {clock : WallClock} {order : ApprovalOrder}.
Context {T S : Type} {plant : Plant T} {sink : EventSink S}.
Context (reading : nat → time) (k : Policy) (agents : list Agent) (probers : list (Prober T)).
#[local] Abbreviation Engine := (@Engine T S).
#[local] Abbreviation M := (@M T S).
Implicit Types (e : Engine) (I : Engine → Prop) (Q : error → Prop).

(** The invariant survives whatever the outcome ... *)
Definition preserves I {A} (m : M A) : Prop := ∀ e, I e → I (m e).1.

(** ... or the outcome is one of the errors [Q] that excuse losing it. *)
Definition excused Q {A} (r : result A) : Prop := match r with Ok _ => False | Err err => Q err end.
Definition keeps I Q {A} (m : M A) : Prop := ∀ e, I e → I (m e).1 ∨ excused Q (m e).2.

Lemma preserves_keeps I Q {A} (m : M A) : preserves I m → keeps I Q m.
Proof. intros H e He. left. by apply H. Qed.
Lemma keeps_mret I Q {A} (a : A) : keeps I Q (mret a).
Proof. by intros e H; left. Qed.
Lemma keeps_mfail I Q {A} err : keeps I Q (mfail err : M A).
Proof. by intros e H; left. Qed.
Lemma keeps_mbind I Q {A B} (m : M A) (f : A → M B) :
  keeps I Q m → (∀ a, keeps I Q (f a)) → keeps I Q (mbind m f).
Proof.
  intros Hm Hf e He. unfold mbind. specialize (Hm e He).
  destruct (m e) as [e' [a|err]]; [|done]. destruct Hm as [Hm|[]]. by apply Hf.
Qed.
Lemma keeps_on_error I Q {A} (m : M A) h :
  preserves I m → (∀ err, keeps I Q (h err)) → keeps I Q (on_error m h).
Proof.
  intros Hm Hh e He. unfold on_error. specialize (Hm e He). destruct (m e) as [e' [a|err]]; [by left|].
  destruct err; try (by apply Hh). by left.
Qed.
Lemma keeps_mfor I Q {A} (f : A → M unit) l : (∀ x, x ∈ l → keeps I Q (f x)) → keeps I Q (mfor f l).
Proof.
  induction l as [|x l IH]; intros Hf; [apply keeps_mret|].
  apply keeps_mbind; [apply Hf; by left|]. intros _. apply IH. intros y Hy. apply Hf. by right.
Qed.

(** An operation that never succeeds. *)
Definition fails {A} (m : M A) : Prop := ∀ e, ¬ is_Ok (m e).2.
Lemma fails_mfail {A} err : fails (mfail err : M A).
Proof. intros e []. Qed.
Lemma fails_mbind {A B} (m : M A) (f : A → M B) : (∀ a, fails (f a)) → fails (mbind m f).
Proof. intros Hf e. unfold mbind. destruct (m e) as [e' [a|err]]; [apply Hf|intros []]. Qed.

(** What an invariant of the loop must be closed under.  Projecting an observation
    and recording it is one step. *)
Record loop_invariant I Q : Prop := {
  inv_record ev : Event_Evidence ev = None → preserves I (record reading ev);
  inv_accept x h ev : Event_Evidence ev = Some x → (∀ err, keeps I Q (h err)) → (∀ err, fails (h err)) →
    keeps I Q (mbind (on_error (project x) h) (λ _, record reading ev));
  inv_probe p w c : p ∈ probers → preserves I (probe reading p w c);
  inv_tick e : I e → I (tick e);
  inv_targets e ts : I e → I (with_targets e ts) }.

Section Loop.
Context (I : Engine → Prop) (Q : error → Prop) (HI : loop_invariant I Q).

Lemma keeps_record ev : Event_Evidence ev = None → keeps I Q (record reading ev).
Proof. intros H. by apply preserves_keeps, (inv_record I Q HI). Qed.

Lemma keeps_observedWorld : keeps I Q (observedWorld reading).
Proof. intros e He. left. by apply (inv_tick I Q HI). Qed.

Lemma keeps_probe p w c : p ∈ probers → keeps I Q (probe reading p w c).
Proof. intros H. by apply preserves_keeps, (inv_probe I Q HI). Qed.

Lemma keeps_ensure g id : keeps I Q (ensureProbeTarget g id).
Proof. intros e He. left. unfold ensureProbeTarget. case_bool_decide; [done|]. by apply (inv_targets I Q HI). Qed.

Lemma keeps_then_fail ev err {A} :
  Event_Evidence ev = None → keeps I Q (mbind (record reading ev) (λ _, mfail err) : M A).
Proof. intros H. apply keeps_mbind; [by apply keeps_record|]. intros _. apply keeps_mfail. Qed.

Lemma keeps_then_ret ev {A} (a : A) :
  Event_Evidence ev = None → keeps I Q (mbind (record reading ev) (λ _, mret a)).
Proof. intros H. apply keeps_mbind; [by apply keeps_record|]. intros _. apply keeps_mret. Qed.

Lemma keeps_refresh g : keeps I Q (refreshReadiness reading probers g).
Proof.
  unfold refreshReadiness. destruct (_ =? 0); [apply keeps_mret|].
  apply keeps_mbind; [apply keeps_observedWorld|]. intros w. apply keeps_mfor. intros id _.
  apply keeps_mbind; [apply keeps_ensure|]. intros _. apply keeps_mfor. intros p Hp.
  apply keeps_mbind; [apply keeps_observedWorld|]. intros before.
  apply keeps_mbind; [by apply keeps_probe|]. intros [x|]; [|apply keeps_mret].
  cbv zeta. destruct (Bool.eqb _ _); [apply keeps_mret|].
  apply (inv_accept I Q HI); [done| |]; intros err; [apply keeps_mfail|apply fails_mfail].
Qed.

Lemma keeps_observe g p : keeps I Q (observe reading probers g p).
Proof.
  apply keeps_mfor. intros c _. apply keeps_mfor. intros pr Hp.
  apply keeps_mbind; [apply keeps_observedWorld|]. intros w.
  apply keeps_mbind; [by apply keeps_probe|]. intros [x|]; [|apply keeps_mret].
  apply (inv_accept I Q HI); [done| |]; intros err; [apply keeps_mfail|apply fails_mfail].
Qed.

Lemma keeps_verify g p : keeps I Q (verify reading g p).
Proof.
  apply keeps_mbind; [apply keeps_observedWorld|]. intros w.
  destruct (verifyChecks _ _); [apply keeps_mret|by apply keeps_then_fail].
Qed.

(** Executing a plan, given that executing its actions preserves the invariant. *)
Lemma keeps_execute_action g p a :
  preserves I (execute a) → keeps I Q (execute_action reading g p a).
Proof.
  intros Hx. apply keeps_mbind; [by apply keeps_record|]. intros _.
  apply keeps_mbind.
  - apply keeps_on_error; [done|]. intros err. apply keeps_mbind; [|intros _; apply keeps_mfail].
    apply keeps_on_error; [by apply (inv_record I Q HI)|]. intros err'. apply keeps_mfail.
  - intros x. apply keeps_mbind.
    { unfold registerProbeTarget. destruct (bool_decide _); [apply keeps_mret|apply keeps_ensure]. }
    intros _. apply keeps_mbind.
    { intros e He. left. unfold stamp_evidence. destruct (IsZero _); [by apply (inv_tick I Q HI)|done]. }
    intros y. apply (inv_accept I Q HI); [done| |]; intros err; [by apply keeps_then_fail|].
    apply fails_mbind. intros _. apply fails_mfail.
Qed.

Lemma keeps_run_actions g p l b e :
  (∀ a, a ∈ l → preserves I (execute a)) → I e →
  I (run_actions reading g p l b e).1 ∨ excused Q (run_actions reading g p l b e).2.2.
Proof.
  revert b e. induction l as [|a l IH]; intros b e Hx He; [by left|]. cbn [run_actions].
  pose proof (keeps_execute_action g p a (Hx a (list_elem_of_here _ _)) e He) as H.
  destruct (execute_action reading g p a e) as [e' [u|err]]; [|done]. destruct H as [H|[]].
  apply IH; [|done]. intros b' Hb. apply Hx. by right.
Qed.

(** What an executed proposal leaves behind, before its lease is released. *)
Definition before_release g p e : Engine * result unit :=
  let '(e, (_, r)) := run_actions reading g p (Proposal_Actions p) false e in
  match r with Ok _ => mbind (observe reading probers g p) (λ _, verify reading g p) e | Err err => (e, Err err) end.

Lemma executeProposal_release g p id e :
  ∃ progress, executeProposal reading probers g p id e =
    (let '(e', r) := before_release g p e in (with_leases e' (Release (Leases e') id), (progress, r))).
Proof.
  unfold executeProposal, before_release. destruct (run_actions _ _ _ _ _ _) as [e1 [b [u|err]]].
  - exists b. by destruct (mbind _ _ e1).
  - by exists b.
Qed.

Lemma keeps_before_release g p :
  (∀ a, a ∈ Proposal_Actions p → preserves I (execute a)) → keeps I Q (before_release g p).
Proof.
  intros Hx e He. unfold before_release.
  pose proof (keeps_run_actions g p (Proposal_Actions p) false e Hx He) as H.
  destruct (run_actions _ _ _ _ _ _) as [e1 [b [u|err]]]; [|done]. destruct H as [H|[]]. revert e1 H.
  apply keeps_mbind; [apply keeps_observe|]. intros _. apply keeps_verify.
Qed.

(** The whole loop, given that running an authorized proposal keeps it. *)
Context (Hrun : ∀ g effective actor w p,
  Authorize k actor effective w p = Ok tt → keeps I Q (run_authorized reading probers g effective p)).

Lemma keeps_turn g effective agent : keeps I Q (agent_turn reading k probers g effective agent).
Proof.
  apply keeps_mbind; [apply keeps_observedWorld|]. intros w.
  apply keeps_mbind; [by intros e He; left|]. intros n.
  destruct (Propose agent n effective w) as [p|err].
  - destruct (_ =? 0); [apply keeps_mret|].
    apply keeps_mbind; [by apply keeps_record|]. intros _.
    destruct (Authorize k _ effective w p) as [[]|err] eqn:E; [|by apply keeps_then_ret].
    apply keeps_mbind; [by apply keeps_record|]. intros _. by eapply Hrun.
  - cbv zeta. destruct (is_rollback err); [by apply keeps_then_fail|by apply keeps_then_ret].
Qed.

Lemma keeps_round g : keeps I Q (round reading k agents probers g).
Proof.
  apply keeps_mbind; [apply keeps_observedWorld|]. intros w.
  destruct (CompensatedGoal g w) as [[effective from] compensating].
  apply keeps_mbind; [destruct compensating; [by apply keeps_record|apply keeps_mret]|]. intros _.
  apply keeps_mbind; [apply keeps_refresh|]. intros _.
  apply keeps_mbind; [apply keeps_observedWorld|]. intros w'.
  destruct (goalAchieved effective w'); [by apply keeps_then_ret|].
  apply keeps_mbind.
  - generalize false. induction agents as [|a l IH]; intros b; [apply keeps_mret|].
    apply keeps_mbind; [apply keeps_turn|]. intros x. apply IH.
  - intros [|]; [apply keeps_mret|]. apply keeps_mbind; [apply keeps_observedWorld|]. intros w''.
    destruct (Paced _ _ _ _ _) as [[reason until] [|]]; by apply keeps_then_fail.
Qed.

Lemma keeps_Run g n : keeps I Q (Run reading k agents probers g n).
Proof.
  apply keeps_mbind; [by apply keeps_record|]. intros _.
  induction (Z.to_nat n) as [|m IH]; [by apply keeps_then_fail|].
  apply keeps_mbind; [apply keeps_round|]. intros [|]; [apply keeps_mret|done].
Qed.
End Loop.

(** An invariant no operation breaks, needing no excuse. *)
Lemma loop_invariant_of_parts I :
  (∀ ev, preserves I (record reading ev)) → (∀ x, preserves I (project x)) →
  (∀ p w c, p ∈ probers → preserves I (probe reading p w c)) →
  (∀ e, I e → I (tick e)) → (∀ e ts, I e → I (with_targets e ts)) → loop_invariant I (λ _, False).
Proof.
  intros Hr Hp Hb Ht Hts. split; auto. intros x h ev _ Hh _.
  apply keeps_mbind; [by apply keeps_on_error|]. intros _. by apply preserves_keeps.
Qed.

Lemma keeps_preserves I {A} (m : M A) : keeps I (λ _, False) m → preserves I m.
Proof. intros H e He. destruct (H e He) as [|Hx]; [done|]. by destruct (m e).2. Qed.
End Invariants.

(** ** Leases *)

Section Guarantees.
Context `{att : Attest} {clock : WallClock} {order : ApprovalOrder}.
Context {T S : Type} {plant : Plant T} {sink : EventSink S}.
Context (reading : nat → time) (k : Policy) (agents : list Agent) (probers : list (Prober T)).
Implicit Types (e : @Engine T S) (g : Goal).

Lemma record_frame ev e :
  let e' := (record reading ev e).1 in
  Plant_ e' = Plant_ e ∧ Leases e' = Leases e ∧ probeTargets e' = probeTargets e.
Proof.
  unfold record. destruct (Sink e) as [s|] eqn:E; cbn; rewrite E; [|done].
  by destruct (sink_Append s _) as [s' [u|err]].
Qed.

(** Whatever is said of the leases alone is untouched by everything but claims. *)
Lemma leases_loop (P : LeaseManager → Prop) : loop_invariant reading probers (λ e : @Engine T S, P (Leases e)) (λ _, False).
Proof.
  apply loop_invariant_of_parts.
  - intros ev e H. by destruct (record_frame ev e) as (_ & -> & _).
  - intros x e H. unfold project. by destruct (plant_Project _ _).
  - intros p w c _ e H. unfold probe. by destruct (p _ _ _ _ _).
  - done.
  - done.
Qed.

Lemma leases_execute (P : LeaseManager → Prop) a : preserves (λ e : @Engine T S, P (Leases e)) (execute a).
Proof. intros e H. unfold execute. by destruct (plant_Execute _ _). Qed.

Lemma released_subset m now gid pid targets m1 id :
  Acquire m now gid pid targets = (m1, Ok id) → leases (Release m1 id) ⊆ leases m.
Proof.
  intros H. destruct (Acquire_ok _ _ _ _ _ _ _ H) as (_ & _ & Hl). apply map_subseteq_spec. intros t l Ht.
  rewrite Release_lookup, Hl in Ht. destruct (bool_decide (t ∈ targets)).
  - cbn in Ht. by rewrite bool_decide_true in Ht.
  - destruct (leases m !! t) as [x|]; [|done]. by case_bool_decide.
Qed.

Lemma run_authorized_leases g effective p L :
  preserves (λ e : @Engine T S, leases (Leases e) ⊆ L) (run_authorized reading probers g effective p).
Proof.
  intros e He. unfold run_authorized. destruct (Acquire _ _ _ _ _) as [m [id|err]] eqn:E.
  - set (e1 := with_plant _ _). destruct (executeProposal_release reading probers effective p id e1) as [b ->].
    assert (Leases (before_release reading probers effective p e1).1 = m) as Hm.
    { apply (keeps_preserves (λ e : @Engine T S, Leases e = m)); [|done].
      eapply keeps_before_release; [apply (leases_loop (λ l, l = m))|]. intros a _. apply (leases_execute (λ l, l = m)). }
    destruct (before_release _ _ _ _ e1) as [e2 [u|err]]; cbn in *; rewrite Hm;
      (by etrans; [eapply released_subset, E|]).
  - apply Acquire_error in E as ->. revert He.
    apply (keeps_preserves (λ e : @Engine T S, leases (Leases e) ⊆ L)
      _ (keeps_then_ret reading probers _ _ (leases_loop (λ m, leases m ⊆ L))
        (proposal_event EventProposalDenied "policy-kernel" g p (error_text err)) false eq_refl)
      (tick (with_leases e (Leases e)))).
Qed.

(** A run gives back every claim it takes.  However it ends (converged, blocked,
    denied, failed half way, or out of rounds), the lease table holds nothing it did
    not hold before: no target is left claimed by a plan that is no longer running. *)
Theorem run_returns_leases g n e :
  leases (Leases (Run reading k agents probers g n e).1) ⊆ leases (Leases e).
Proof.
  apply (keeps_preserves (λ e' : @Engine T S, leases (Leases e') ⊆ leases (Leases e))); [|done].
  eapply keeps_Run; [apply (leases_loop (λ m, leases m ⊆ leases (Leases e)))|].
  intros. apply preserves_keeps, run_authorized_leases.
Qed.
End Guarantees.

(** ** Only authorized actions reach the hosts *)

(** Any plant, together with the actions it was asked to execute so far. *)
#[export] Instance recording {T} (plant : Plant T) : Plant (T * list Action) := {
  plant_World t := plant_World t.1;
  plant_Project t x := let '(t', r) := plant_Project t.1 x in ((t', t.2), r);
  plant_Bind t goal proposal revision lease := (plant_Bind t.1 goal proposal revision lease, t.2);
  plant_Execute t a := let '(t', r) := plant_Execute t.1 a in ((t', t.2 ++ [a]), r) }.

(** A prober of the plain plant, which executes nothing. *)
Definition recording_prober {T} (p : Prober T) : Prober (T * list Action) := λ t targets now w c,
  let '(t', x) := p t.1 targets now w c in ((t', t.2), x).

Section Authorized.
Context `{att : Attest} {clock : WallClock} {order : ApprovalOrder}.
Context {T S : Type} {plant : Plant T} {sink : EventSink S}.
Context (reading : nat → time) (k : Policy) (agents : list Agent) (probers : list (Prober T)).
Implicit Types (e : @Engine (T * list Action) S) (g : Goal).

(** Approved by the kernel for some actor, as a step of some proposal, in some world. *)
Definition authorized (a : Action) : Prop :=
  ∃ actor g w p, Authorize k actor g w p = Ok tt ∧ a ∈ Proposal_Actions p.

Definition executed e : list Action := (Plant_ e).2.

Lemma executed_loop (P : list Action → Prop) :
  loop_invariant reading (recording_prober <$> probers)
    (λ e : @Engine (T * list Action) S, P (executed e)) (λ _, False).
Proof.
  apply loop_invariant_of_parts.
  - intros ev e H. unfold executed. by destruct (record_frame reading ev e) as (-> & _ & _).
  - intros x e H. unfold project, executed. cbn. by destruct (plant_Project _ _).
  - intros p w c (q & -> & _)%list_elem_of_fmap e H. unfold probe, recording_prober, executed.
    by destruct (q _ _ _ _ _).
  - done.
  - done.
Qed.

Lemma execute_records a e : executed (execute a e).1 = executed e ++ [a].
Proof. unfold execute, executed. cbn. by destruct (plant_Execute _ _). Qed.

(** C8: nothing is done that the kernel did not approve.  Whatever the agents propose
    and however the run ends, every action the executor was asked to perform in it is
    a step of a proposal [Authorize] accepted. *)
Theorem run_executes_only_authorized g n e a
    (Ha : a ∈ executed (Run reading k agents (recording_prober <$> probers) g n e).1) :
  a ∈ executed e ∨ authorized a.
Proof.
  revert a Ha. set (P := λ l : list Action, ∀ a, a ∈ l → a ∈ executed e ∨ authorized a).
  apply (keeps_preserves (λ e' : @Engine (T * list Action) S, P (executed e'))); [|by left].
  eapply keeps_Run; [apply (executed_loop P)|]. intros g' effective actor w p Hauth. apply preserves_keeps.
  intros e' He'. unfold run_authorized. destruct (Acquire _ _ _ _ _) as [m [id|err]].
  2:{ by apply (keeps_preserves _ _ (keeps_then_ret reading _ _ _ (executed_loop P)
        (proposal_event EventProposalDenied "policy-kernel" g' p (error_text err)) false eq_refl)
        (tick (with_leases e' m))). }
  set (e1 := with_plant _ _). destruct (executeProposal_release reading (recording_prober <$> probers) effective p id e1)
    as [b ->].
  assert (P (executed (before_release reading (recording_prober <$> probers) effective p e1).1)) as Hx.
  { apply (keeps_preserves (λ e' : @Engine (T * list Action) S, P (executed e'))); [|exact He'].
    eapply keeps_before_release; [apply (executed_loop P)|]. intros a Hin e2 He2 c. rewrite execute_records.
    intros [Hc|Hc]%elem_of_app; [by apply He2|]. apply list_elem_of_singleton in Hc as ->.
    right. by exists actor, effective, w, p. }
  by destruct (before_release _ _ _ _ e1) as [e2 [u|err]].
Qed.
End Authorized.

(** ** Success is observed *)

Section Achieved.
Context `{att : Attest} {clock : WallClock} {order : ApprovalOrder}.
Context {T S : Type} {plant : Plant T} {sink : EventSink S}.
Context (reading : nat → time) (k : Policy) (agents : list Agent) (probers : list (Prober T)).
Implicit Types (e : @Engine T S) (g : Goal).

Lemma mbind_ok {A B} (m : @M T S A) (f : A → @M T S B) e e' b :
  mbind m f e = (e', Ok b) → ∃ a e1, m e = (e1, Ok a) ∧ f a e1 = (e', Ok b).
Proof. unfold mbind. destruct (m e) as [e1 [a|err]]; [|done]. eauto. Qed.

(** The world of an engine as it stands at [t]. *)
Definition world_at (t : time) e : World :=
  let w := World_ e in if After t (ObservedAt w) then w <| ObservedAt := t |> else w.

Lemma round_achieved g e e' :
  round reading k agents probers g e = (e', Ok true) →
  ∃ w effective from compensating t ev,
    CompensatedGoal g w = (effective, from, compensating) ∧
    goalAchieved effective (world_at t e') = true ∧
    last (Events e') = Some ev ∧ Event_Type ev = EventGoalAchieved ∧ Event_GoalID ev = Goal_ID g.
Proof.
  intros H. apply mbind_ok in H as (w & e1 & _ & H).
  destruct (CompensatedGoal g w) as [[effective from] comp] eqn:Ec.
  apply mbind_ok in H as (? & e2 & _ & H). apply mbind_ok in H as (? & e3 & _ & H).
  apply mbind_ok in H as (w' & e4 & Hw & H). unfold observedWorld in Hw. injection Hw as <- Hw'.
  destruct (goalAchieved effective w') eqn:Ea.
  - apply mbind_ok in H as (? & e5 & Hr & H). injection H as <-. exists w, effective, from, comp, (now reading e3).
    unfold record in Hr. cbn -[u64] in Hr. destruct (Sink e3) as [s|].
    + destruct (sink_Append s _) as [s' [u|err]]; [|done]. injection Hr as <-. eexists. split; [done|].
      split; [rewrite <-Hw' in Ea; exact Ea|]. cbn. by rewrite last_snoc.
    + injection Hr as <-. eexists. split; [done|].
      split; [rewrite <-Hw' in Ea; exact Ea|]. cbn. by rewrite last_snoc.
  - apply mbind_ok in H as ([|] & e5 & _ & H); [done|]. exfalso.
    apply mbind_ok in H as (w2 & e6 & _ & H).
    destruct (Paced _ _ _ _ _) as [[reason until] [|]]; by apply mbind_ok in H as (? & e7 & _ & H).
Qed.

(** Success is never assumed.  When a run reports success the last thing recorded
    is that the goal is achieved, and it is: in the world the engine holds, read at a
    time of its clock, exactly the wanted number of replicas match the goal and are
    ready and unexpired, and the route is as declared. *)
Theorem run_success_observed g n e e'
    (H : Run reading k agents probers g n e = (e', Ok tt)) :
  ∃ w effective from compensating t ev,
    CompensatedGoal g w = (effective, from, compensating) ∧
    last (Events e') = Some ev ∧ Event_Type ev = EventGoalAchieved ∧ Event_GoalID ev = Goal_ID g ∧
    matchingReadyAllocations effective (world_at t e') = Workload_Replicas (Goal_Workload effective) ∧
    ∀ spec, Goal_Route effective = Some spec →
      ∃ route, Routes (World_ e') !! RouteSpec_Host spec = Some route ∧
        Route_Workload route = Workload_Name (Goal_Workload effective) ∧
        Route_Port route = RouteSpec_Port spec ∧ Route_Exposure route = RouteSpec_Exposure spec.
Proof.
  apply mbind_ok in H as (? & e0 & _ & H).
  assert (∃ e1, round reading k agents probers g e1 = (e', Ok true)) as [e1 Hr].
  { revert e0 H. induction (Z.to_nat n) as [|m IH]; intros e0 H; [by apply mbind_ok in H as (? & e1 & _ & H)|].
    apply mbind_ok in H as ([|] & e1 & Hr & H); [injection H as <-; eauto|eauto]. }
  destruct (round_achieved g e1 e' Hr) as (w & effective & from & comp & t & ev & Hc & Ha & Hlast & Hty & Hg).
  exists w, effective, from, comp, t, ev. do 4 (split; [done|]).
  unfold goalAchieved in Ha. destruct (_ =? _) eqn:Em; [|done]. cbn [negb] in Ha. bool_simpl.
  split; [done|]. intros spec Hs. rewrite Hs in Ha.
  assert (Routes (world_at t e') = Routes (World_ e')) as Hro by (unfold world_at; by destruct (After _ _)).
  rewrite Hro in Ha. destruct (Routes (World_ e') !! _) as [route|]; [|done]. bool_simpl. by exists route.
Qed.
End Achieved.

(** ** The world is what was recorded *)

(** The one error after which an observation may be projected but not recorded. *)
Definition persist_error (err : error) : Prop := ∃ cause, err = Wrapf "persist %s event: %w" cause.

Section Synced.
Context `{att : Attest} {clock : WallClock} {order : ApprovalOrder}.
Context {T S : Type} {plant : Plant T} {plaws : PlantLaws plant}.
Context {sink : EventSink S} (holds : S → list Event → Prop) {slaws : EventSinkLaws sink holds}.
Context (reading : nat → time) (k : Policy) (agents : list Agent) (probers : list (Prober T)).
Context (probers_keep : ∀ p t ts now w c, p ∈ probers → plant_World (p t ts now w c).1 = plant_World t).
Context (base : World) (l0 : list Event).
Implicit Types (e : @Engine T S) (g : Goal).

(** Replaying what was recorded, before the run and in it, gives the world. *)
Definition synced e : Prop := projectAll base (evidence_of (l0 ++ Events e)) = Ok (World_ e).

(** The sink holds what was recorded. *)
Definition sunk e : Prop := ∃ s, Sink e = Some s ∧ holds s (l0 ++ Events e).

Lemma record_effect ev e :
  match record reading ev e with
  | (e', Ok _) => Events e' = Events e ++ [stamped reading ev e] ∧ World_ e' = World_ e ∧ (sunk e → sunk e')
  | (e', Err err) => Events e' = Events e ∧ World_ e' = World_ e ∧ persist_error err ∧ (sunk e → sunk e')
  end.
Proof.
  unfold record, World_, sunk. set (ev1 := stamped reading ev e). cbn.
  destruct (Sink e) as [s|] eqn:Es; [|split; [done|]; split; [done|]; by intros (s & [=] & _)].
  assert ((∃ s0, Some s = Some s0 ∧ holds s0 (l0 ++ Events e)) →
    match sink_Append s ev1 with
    | (s', Ok _) => holds s' (l0 ++ Events e ++ [ev1])
    | (s', Err _) => holds s' (l0 ++ Events e)
    end) as Hl.
  { intros (s0 & [= <-] & Hs). rewrite (assoc_L (++)). by apply append_holds. }
  destruct (sink_Append s ev1) as [s' [u|err]].
  - split; [done|]. split; [done|]. intros Hs. exists s'. auto.
  - split; [done|]. split; [done|]. split; [by eexists|]. intros Hs. exists s'. auto.
Qed.

Lemma synced_same e e' : Events e' = Events e → World_ e' = World_ e → synced e → synced e'.
Proof. unfold synced. by intros -> ->. Qed.

Lemma synced_noted e e' ev :
  Event_Evidence ev = None → Events e' = Events e ++ [ev] → World_ e' = World_ e → synced e → synced e'.
Proof. unfold synced. intros Hev -> ->. by rewrite (assoc_L (++)), evidence_snoc, Hev, app_nil_r. Qed.

(** Projecting an observation and then recording it keeps world and record together,
    unless the recording fails. *)
Lemma accept_synced x h ev :
  Event_Evidence ev = Some x → (∀ err, keeps synced persist_error (h err)) → (∀ err, fails (h err)) →
  keeps synced persist_error (mbind (on_error (project x) h) (λ _, record reading ev)).
Proof.
  intros Hev Hh Hf e He. unfold mbind, on_error, project. pose proof (project_advances (Plant_ e) x) as Hp.
  destruct (plant_Project (Plant_ e) x) as [t r]. fold (World_ e) in Hp.
  destruct (Project (World_ e) x) as [w|err] eqn:Ep; destruct Hp as [-> Hw].
  - pose proof (record_effect ev (with_plant e t)) as Hr.
    destruct (record reading ev (with_plant e t)) as [e' [u|err]].
    + left. destruct Hr as (Hevs & Hwo & _). unfold synced. cbn in *. rewrite Hevs, (assoc_L (++)), evidence_snoc.
      rewrite Hwo. cbn. rewrite Hev. eapply projectAll_snoc; [exact He|]. unfold World_. cbn. by rewrite Hw.
    + right. by destruct Hr as (_ & _ & Hr & _).
  - assert (synced (with_plant e t)) as Ht by (by eapply synced_same, He).
    pose proof (Hh err _ Ht) as Hk. pose proof (Hf err (with_plant e t)) as Hno.
    destruct (h err (with_plant e t)) as [e2 [u|err2]] eqn:Eh; [by destruct Hno|].
    destruct err; try exact Hk. by left.
Qed.

Lemma synced_loop : loop_invariant reading probers synced persist_error.
Proof.
  split.
  - intros ev Hev e He. pose proof (record_effect ev e) as Hr.
    destruct (record reading ev e) as [e' [u|err]]; destruct Hr as (Hevs & Hw & _).
    + by eapply (synced_noted e e' (stamped reading ev e)).
    + by eapply synced_same.
  - intros x h ev Hev Hh Hf. by apply accept_synced.
  - intros p w c Hp e He. unfold probe. pose proof (probers_keep p (Plant_ e) (probeTargets e) (now reading e) w c Hp) as Hw.
    destruct (p _ _ _ _ _). by eapply synced_same, He.
  - intros e He. exact He.
  - intros e ts He. exact He.
Qed.

Lemma execute_synced a : preserves synced (execute a).
Proof.
  intros e He. unfold execute. pose proof (execute_keeps (Plant_ e) a) as Hw.
  destruct (plant_Execute (Plant_ e) a). by eapply synced_same, He.
Qed.

Lemma run_authorized_synced g effective p :
  keeps synced persist_error (run_authorized reading probers g effective p).
Proof.
  intros e He. unfold run_authorized. destruct (Acquire _ _ _ _ _) as [m [id|err]].
  - set (e1 := with_plant _ _). destruct (executeProposal_release reading probers effective p id e1) as [b ->].
    assert (synced e1) as H1 by (eapply synced_same, He; [done|]; apply bind_keeps).
    pose proof (keeps_before_release reading probers _ _ synced_loop effective p (λ a _, execute_synced a) e1 H1) as H.
    destruct (before_release _ _ _ _ e1) as [e2 [u|err]]; cbn in *; [|done]. by destruct H as [H|[]]; left.
  - by apply (keeps_then_ret reading probers _ _ synced_loop
      (proposal_event EventProposalDenied "policy-kernel" g p (error_text err)) false eq_refl
      (tick (with_leases e m))).
Qed.

Lemma Run_synced g n : keeps synced persist_error (Run reading k agents probers g n).
Proof. eapply keeps_Run; [exact synced_loop|]. intros. apply run_authorized_synced. Qed.

Lemma sunk_loop : loop_invariant reading probers sunk (λ _, False).
Proof.
  apply loop_invariant_of_parts.
  - intros ev e He. pose proof (record_effect ev e) as Hr.
    destruct (record reading ev e) as [e' [u|err]]; [by apply Hr|by apply Hr].
  - intros x e He. unfold project. by destruct (plant_Project _ _).
  - intros p w c _ e He. unfold probe. by destruct (p _ _ _ _ _).
  - intros e He. exact He.
  - intros e ts He. exact He.
Qed.

Lemma Run_sunk g n : preserves sunk (Run reading k agents probers g n).
Proof.
  apply keeps_preserves. eapply keeps_Run; [exact sunk_loop|]. intros g' effective actor w p _.
  apply preserves_keeps. intros e He. unfold run_authorized. destruct (Acquire _ _ _ _ _) as [m [id|err]].
  - set (e1 := with_plant _ _). destruct (executeProposal_release reading probers effective p id e1) as [b ->].
    assert (sunk (before_release reading probers effective p e1).1) as Hx.
    { apply (keeps_preserves sunk); [|exact He]. eapply keeps_before_release; [exact sunk_loop|].
      intros a _ e2 He2. unfold execute. by destruct (plant_Execute _ _). }
    by destruct (before_release _ _ _ _ e1) as [e2 [u|err]].
  - by apply (keeps_preserves _ _ (keeps_then_ret reading probers _ _ sunk_loop
      (proposal_event EventProposalDenied "policy-kernel" g' p (error_text err)) false eq_refl)
      (tick (with_leases e m))).
Qed.
End Synced.

(** ** The production wiring *)

(** The in-memory executor is its own projection; binding has no effect on it. *)
#[export] Instance memory_plant {digest : Digest} : Plant World := {
  plant_World w := w;
  plant_Project := MemoryExecutor_Project;
  plant_Bind w _ _ _ _ := w;
  plant_Execute w a := (w, Execute w a) }.

#[export] Instance memory_plant_laws {digest : Digest} : PlantLaws memory_plant.
Proof.
  split; [|done|done]. intros w x. cbn. unfold MemoryExecutor_Project. by destruct (Project w x).
Qed.

(** Any executor beside a projection rebuilt from the log. *)
Definition durable_plant {X} (bind : X → string → string → Z → string → X)
    (exec : X → Action → X * result Evidence) : Plant (X * DurableProjector) := {|
  plant_World t := Projector_World t.2;
  plant_Project t x := let '(p, r) := Projector_Project t.2 x in ((t.1, p), r);
  plant_Bind t goal proposal revision lease := (bind t.1 goal proposal revision lease, t.2);
  plant_Execute t a := let '(x, r) := exec t.1 a in ((x, t.2), r) |}.

Lemma durable_plant_laws {X} bind exec : PlantLaws (@durable_plant X bind exec).
Proof.
  split; [|done|].
  - intros [x p] e. cbn. unfold Projector_Project, Projector_World. rewrite !cloneWorld_id.
    destruct (Project (Projector_world p) e); cbn; by rewrite ?cloneWorld_id.
  - intros [x p] a. cbn. by destruct (exec x a).
Qed.

(** The event log as a sink; the list says which of the coming commits succeed. *)
#[export] Instance log_sink {codec : EventCodec} {digest : Digest} : EventSink (File * list bool) := {
  sink_Append s ev := let '(f, r) := Append (hd true s.2) s.1 ev in ((f, tl s.2), r);
  sink_NextSequence s := NextSequence s.1 }.

#[export] Instance log_sink_laws {codec : EventCodec} {digest : Digest} :
  EventSinkLaws log_sink (λ s l, logged s.1 l).
Proof.
  intros [f cs] l ev Hl. cbn in *. destruct (Append (hd true cs) f ev) as [f' [u|err]] eqn:Ea.
  - destruct u. by eapply logged_append.
  - by eapply logged_refused.
Qed.

Section Restart.
Context `{att : Attest} {clock : WallClock} {order : ApprovalOrder}.
Context {codec : EventCodec} {digest : Digest} {claws : EventCodecLaws codec} {dlaws : DigestLaws digest}.
Context {X : Type} (bind : X → string → string → Z → string → X) (exec : X → Action → X * result Evidence).
#[local] Existing Instance durable_plant_laws.
Context (reading : nat → time) (k : Policy) (agents : list Agent).
Context (observers : list (X → ProbeTarget → X * result (bool * gmap string string))).

(** Probers measure through the hosts and do not touch the projection. *)
Definition host_probers : list (Prober (X * DurableProjector)) :=
  (λ obs, MeasuredProber (λ t target, let '(x, r) := obs t.1 target in ((x, t.2), r)) DefaultReadinessTTL) <$> observers.

Lemma host_probers_keep p t ts now w c :
  p ∈ host_probers → (p t ts now w c).1.2 = t.2.
Proof.
  intros (obs & -> & _)%list_elem_of_fmap. unfold MeasuredProber.
  destruct (ready_kind _); [|done]. destruct (Allocations w !! _); [|done]. destruct (bool_decide _); [done|].
  destruct (ts !! _); [|done]. cbv zeta. destruct (obs t.1 _) as [x [[ready o]|err]]; done.
Qed.

(** A run loses nothing.  An engine that starts from the world its log replays to
    ends, whatever its agents proposed, the hosts answered or the disk did, either
    with an error to persist an event or with a log that reopens and replays, over the
    same base, to exactly the world it holds. *)
Theorem run_recoverable base f commits l0 g n (e e' : @Engine (X * DurableProjector) (File * list bool)) r
    (Hlog : logged f l0) (Hsink : Sink e = Some (f, commits)) (Hevents : Events e = [])
    (Hworld : projectAll base (evidence_of l0) = Ok (Projector_World (Plant_ e).2))
    (H : Run (plant := durable_plant bind exec) reading k agents host_probers g n e = (e', r))
    (Hlen : len (l0 ++ Events e') < two64) :
  excused persist_error r ∨
  ∃ f1 cs db f2 p, Sink e' = Some (f1, cs) ∧ file_db f1 = Some db ∧ Open db = Ok f2 ∧
    ReplayEvents f2 = Ok (l0 ++ Events e') ∧
    NewDurableProjector base (Some (ReplayEvidence f2)) = Ok p ∧
    Projector_World p = Projector_World (Plant_ e').2.
Proof.
  pose (plant := durable_plant bind exec).
  assert (synced (plant := plant) base l0 e) as Hs.
  { unfold synced. rewrite Hevents, app_nil_r. exact Hworld. }
  assert (sunk (λ s l, logged s.1 l) l0 e) as Hk.
  { exists (f, commits). split; [done|]. by rewrite Hevents, app_nil_r. }
  pose proof (Run_sunk (plant := plant) _ reading k agents host_probers l0 g n e Hk) as Hk'.
  destruct (Run_synced (plant := plant) (λ s l, logged s.1 l) reading k agents host_probers
    (λ p t ts now w c Hp, f_equal Projector_World (host_probers_keep p t ts now w c Hp)) base l0 g n e Hs) as [Hs'|Hx].
  2:{ left. unfold plant in Hx. by rewrite H in Hx. }
  right. unfold plant in Hs', Hk'. rewrite H in Hs', Hk'. cbn [fst] in Hs', Hk'. destruct Hk' as ([f1 cs] & Hf1 & Hl1). cbn in Hl1.
  destruct (log_reopens f1 _ Hl1 Hlen) as (db & f2 & Hdb & Ho).
  destruct (log_reads f2 (l0 ++ Events e') ltac:(by eapply logged_restart) Hlen) as (_ & Hre & Hev).
  unfold synced, World_ in Hs'. cbn in Hs'. apply replay_over_ok in Hs'.
  exists f1, cs, db, f2, (mkProjector base (Projector_World (Plant_ e').2)). repeat (split; [done|]).
  unfold NewDurableProjector. rewrite Hev, !cloneWorld_id. cbn [wrap_err rbind Projector_world Projector_base].
  fold (evidence_of (l0 ++ Events e')). rewrite Hs'. cbn. split; [done|]. unfold Projector_World. cbn. by rewrite !cloneWorld_id.
Qed.
End Restart.

(** ** A concrete run

    The goal asks for two replicas of [web] and one is running; the only agent places
    the second.  The first round executes the plan and measures readiness, the second
    finds the goal achieved. *)

#[local] Instance run_attest : Attest := Build_Attest (λ _, None) (λ _ _ _, false) (λ _, Malformed).
#[local] Instance run_clock : WallClock := 100.
#[local] Instance run_order : ApprovalOrder := values.
#[local] Instance run_digest : Digest := λ s,
  "aaaaaaaaaaaaaaaaaaaaaaaaaaaaaaaaaaaaaaaaaaaaaaaaaaaaaaaaaaaaaaa" +:+
  match String.get (String.length s - 1) s with
  | Some c => if (97 <=? Ascii.N_of_ascii c)%N then String c "" else "0"
  | None => "0"
  end.

Lemma run_digest_laws : DigestLaws run_digest.
Proof.
  split; intros s; unfold digestOf, run_digest; destruct (String.get _ s) as [c|]; try done;
    destruct (97 <=? Ascii.N_of_ascii c)%N eqn:E; try done.
  destruct c as [[] [] [] [] [] [] [] []]; done.
Qed.

Definition run_goal : Goal := sample_goal <| Goal_Route := None |>.
Definition run_reading (n : nat) : time := 100 + Z.of_nat n.
Definition placing : Agent := mkAgent (sample_actor "placement-agent") (λ _ g w,
  Ok (mkProposal "p1" "placement-agent" (Goal_ID g) (Revision w) "place the missing replica"
    (match Allocations w !! "web-1" with
     | None => [create_web1; attach_web1; start_web1]
     | Some _ => []
     end) [mkCheck CheckAllocationReady "web-1" "true"])).

(** Hosts with a world of their own, behind a projection of the evidence they send. *)
Definition hosts_execute (x : World) (a : Action) : World * result Evidence :=
  match Execute x a with
  | Ok ev => ((MemoryExecutor_Project x ev).1, Ok ev)
  | Err err => (x, Err err)
  end.
Definition hosts_bind (x : World) (_ _ : string) (_ : Z) (_ : string) : World := x.
Definition hosts_observe (x : World) (target : ProbeTarget) : World * result (bool * gmap string string) :=
  (x, ObserveReadiness x target).

Definition start_engine {T S} (t : T) (s : option S) : @Engine T S := mkEngine t NewLeaseManager [] s ∅ 0.

Section Unlogged.
#[local] Instance no_sink : EventSink unit := {| sink_Append s _ := (s, Ok tt); sink_NextSequence _ := 0 |}.

Definition watched_start : @Engine (World * list Action) unit := start_engine (sample_world, []) None.
Definition memory_prober : Prober World := MeasuredProber (λ w target, (w, ObserveReadiness w target)) 0.
Definition watched_run : @Engine (World * list Action) unit * result unit :=
  Eval vm_compute in
    Run run_reading DefaultPolicy [placing] (recording_prober <$> [memory_prober]) run_goal 3 watched_start.


Lemma run_executes_only_authorized_witness :
  executed watched_start = [] ∧ (start_web1 ∈ executed watched_start ∨ authorized DefaultPolicy start_web1).
Proof.
  split; [reflexivity|].
  refine (run_executes_only_authorized run_reading DefaultPolicy [placing] [memory_prober] run_goal 3 watched_start
    start_web1 _).
  assert (executed (Run run_reading DefaultPolicy [placing] (recording_prober <$> [memory_prober]) run_goal 3
    watched_start).1 = [create_web1; attach_web1; start_web1]) as -> by (vm_compute; reflexivity).
  right. right. left.
Defined.

Lemma run_success_observed_witness :
  ∃ w effective from compensating t ev,
    CompensatedGoal run_goal w = (effective, from, compensating) ∧
    last (Events watched_run.1) = Some ev ∧ Event_Type ev = EventGoalAchieved ∧ Event_GoalID ev = "g1" ∧
    matchingReadyAllocations effective (world_at t watched_run.1) = Workload_Replicas (Goal_Workload effective) ∧
    ∀ spec, Goal_Route effective = Some spec →
      ∃ route, Routes (World_ watched_run.1) !! RouteSpec_Host spec = Some route ∧
        Route_Workload route = Workload_Name (Goal_Workload effective) ∧
        Route_Port route = RouteSpec_Port spec ∧ Route_Exposure route = RouteSpec_Exposure spec.
Proof.
  refine (run_success_observed run_reading DefaultPolicy [placing] (recording_prober <$> [memory_prober]) run_goal 3
    watched_start watched_run.1 _).
  vm_compute. reflexivity.
Defined.

(** The same run over a durable projection, for the events it records. *)
Definition durable_start {S} (s : option S) : @Engine (World * DurableProjector) S :=
  start_engine (sample_world, mkProjector sample_world sample_world) s.
Definition run_events : list Event :=
  Eval vm_compute in
    Events (Run (plant := durable_plant hosts_bind hosts_execute) run_reading DefaultPolicy [placing]
      (host_probers [hosts_observe]) run_goal 3 (durable_start (S := unit) None)).1.
End Unlogged.

(** A codec for the events of that run: the letter of an event's place in it. *)
#[local] Instance run_codec : EventCodec := {|
  marshal e := (λ p, String (Ascii.ascii_of_nat (97 + p.1)) "") <$> list_find (λ e', e' = e) run_events;
  unmarshal s := match s with
                 | String c "" => run_events !! (Ascii.nat_of_ascii c - 97)%nat
                 | _ => None
                 end |}.
#[local] Existing Instance run_digest_laws.
#[local] Instance run_codec_laws : EventCodecLaws run_codec.
Proof.
  intros e s H. cbn [marshal unmarshal run_codec] in *. apply fmap_Some in H as ([i x] & Hf & ->).
  apply list_find_Some in Hf as (Hi & -> & _). pose proof (lookup_lt_Some _ _ _ Hi) as Hlt. cbn [fst].
  rewrite Ascii.nat_ascii_embedding.
  - by replace (97 + i - 97)%nat with i by lia.
  - vm_compute in Hlt. lia.
Qed.

Definition logged_run : @Engine (World * DurableProjector) (File * list bool) * result unit :=
  Eval vm_compute in
    Run (plant := durable_plant hosts_bind hosts_execute) run_reading DefaultPolicy [placing]
      (host_probers [hosts_observe]) run_goal 3 (durable_start (Some (log0, []))).

Lemma run_recoverable_witness :
  logged_run.2 = Ok tt ∧
  (excused persist_error logged_run.2 ∨
   ∃ f1 cs db f2 p, Sink logged_run.1 = Some (f1, cs) ∧ file_db f1 = Some db ∧ Open db = Ok f2 ∧
     ReplayEvents f2 = Ok ([] ++ Events logged_run.1) ∧
     NewDurableProjector sample_world (Some (ReplayEvidence f2)) = Ok p ∧
     Projector_World p = Projector_World (Plant_ logged_run.1).2).
Proof.
  split; [reflexivity|].
  refine (run_recoverable hosts_bind hosts_execute run_reading DefaultPolicy [placing] [hosts_observe] sample_world
    log0 [] [] run_goal 3 (durable_start (Some (log0, []))) logged_run.1 logged_run.2 _ _ _ _ _ _).
  - apply logged_open. vm_compute. reflexivity.
  - reflexivity.
  - reflexivity.
  - vm_compute. reflexivity.
  - vm_compute. reflexivity.
  - vm_compute. reflexivity.
Defined.
