(* ===== verification/WorkQueue.v ===== *)
(** * The node-local work queue (src/node/queue.go)

    Agent instances claim tasks from a durable queue: delivery is first come first
    served, a claim is a lease, and the whole queue is rewritten to its file after
    every change.  The file is its lines; whether a rewrite reaches the disk is an
    argument of the operations that attempt one, and the clock reading another. *)

From S2P Require Import Prelude Types Text.
Open Scope Z_scope.

Definition DefaultClaimLease : duration := 15 * Minute.
Definition DefaultMaxAttempts : Z := 3.

Record TaskClaim := mkTaskClaim { Claim_Allocation : string; Claim_ExpiresAt : time }.
Record QueueTask := mkQueueTask {
  Task_ID : string; Task_Payload : string; Task_EnqueuedAt : time; Task_Claim : option TaskClaim;
  Task_Attempts : Z }.

#[export] Instance eta_QueueTask : Eta QueueTask := λ r,
  mkQueueTask (Task_ID r) (Task_Payload r) (Task_EnqueuedAt r) (Task_Claim r) (Task_Attempts r).

(** [json.Marshal] and [json.Unmarshal] of a task, one to a line. *)
Class TaskCodec := { encode_task : QueueTask → string; decode_task : string → option QueueTask }.
(** A task whose texts JSON keeps as they are. *)
Definition text_task (t : QueueTask) : bool :=
  ascii_text (Task_ID t) && ascii_text (Task_Payload t) &&
  match Task_Claim t with Some c => ascii_text (Claim_Allocation c) | None => true end.
Class TaskCodecLaws (codec : TaskCodec) : Prop :=
  decode_encode_task : ∀ t, text_task t = true → decode_task (encode_task t) = Some t.

Record WorkQueue := mkWorkQueue {
  MaxAttempts : Z; Lease_ : duration; tasks : gmap string QueueTask; order : list string;
  disk : list string }.

Definition lease (q : WorkQueue) : duration := if 0 <? Lease_ q then Lease_ q else DefaultClaimLease.
Definition maxAttempts (q : WorkQueue) : Z := if 0 <? MaxAttempts q then MaxAttempts q else DefaultMaxAttempts.

Definition with_tasks (q : WorkQueue) (ts : gmap string QueueTask) (o : list string) : WorkQueue :=
  mkWorkQueue (MaxAttempts q) (Lease_ q) ts o (disk q).

Section Operations.
Context {codec : TaskCodec}.

(** [load]: the lines in turn, a later line for an id replacing an earlier one. *)
Definition load_line (s : gmap string QueueTask * list string) (line : string)
    : result (gmap string QueueTask * list string) :=
  need task := decode_task line else "decode queue task: %w";
  refuse (bool_decide (Task_ID task = "")) "queue holds a task with no id";
  Ok (<[Task_ID task := task]> s.1,
      if bool_decide (is_Some (s.1 !! Task_ID task)) then s.2 else s.2 ++ [Task_ID task]).

Definition OpenQueue (file : list string) : result WorkQueue :=
  let* s := for_each load_line (∅, []) file in
  Ok (mkWorkQueue DefaultMaxAttempts DefaultClaimLease s.1 s.2 file).

(** The lines [persist] writes: the tasks in order. *)
Definition queued (ts : gmap string QueueTask) (o : list string) : list QueueTask := omap (λ id, ts !! id) o.

(** [persist]: the file is replaced as a whole or not at all. *)
Definition persist (written : bool) (q : WorkQueue) : WorkQueue * result unit :=
  if written
  then (mkWorkQueue (MaxAttempts q) (Lease_ q) (tasks q) (order q) (encode_task <$> queued (tasks q) (order q)), Ok tt)
  else (q, Err (Errorf "replace queue: %w")).

Definition Enqueue (written : bool) (q : WorkQueue) (now : time) (id payload : string) : WorkQueue * result unit :=
  if bool_decide (id = "") then (q, Err (Errorf "queue task requires an id"))
  else if bool_decide (is_Some (tasks q !! id)) then (q, Ok tt)
  else persist written (with_tasks q (<[id := mkQueueTask id payload now None 0]> (tasks q)) (order q ++ [id])).

Definition availableLocked (t : QueueTask) (now : time) : bool :=
  match Task_Claim t with
  | None => true
  | Some claim => negb (IsZero (Claim_ExpiresAt claim)) && negb (Before now (Claim_ExpiresAt claim))
  end.

(** May the task of this id be delivered now? *)
Definition deliverable (q : WorkQueue) (now : time) (id : string) : bool :=
  match tasks q !! id with
  | None => false
  | Some t => availableLocked t now && negb (maxAttempts q <=? Task_Attempts t)
  end.

Definition delivered (q : WorkQueue) (now : time) (allocation : string) (t : QueueTask) : QueueTask :=
  t <| Task_Attempts ::= λ n, i64 (n + 1) |>
    <| Task_Claim := Some (mkTaskClaim allocation (time_Add now (lease q))) |>.

Definition Claim (written : bool) (q : WorkQueue) (now : time) (allocation : string)
    : WorkQueue * result (option QueueTask) :=
  if bool_decide (allocation = "") then (q, Err (Errorf "claim requires an allocation"))
  else
    match list_find (λ id, deliverable q now id = true) (order q) with
    | None => (q, Ok None)
    | Some (_, id) =>
        match tasks q !! id with
        | None => (q, Ok None)
        | Some t =>
            let t := delivered q now allocation t in
            match persist written (with_tasks q (<[id := t]> (tasks q)) (order q)) with
            | (q, Ok _) => (q, Ok (Some t))
            | (q, Err err) => (q, Err err)
            end
        end
    end.

Fixpoint removeOrderLocked (o : list string) (id : string) : list string :=
  match o with
  | [] => []
  | x :: o => if bool_decide (x = id) then o else x :: removeOrderLocked o id
  end.

Definition holds_claim (t : QueueTask) (allocation : string) : bool :=
  match Task_Claim t with Some claim => bool_decide (Claim_Allocation claim = allocation) | None => false end.

Definition Ack (written : bool) (q : WorkQueue) (allocation id : string) : WorkQueue * result unit :=
  match tasks q !! id with
  | None => (q, Ok tt)
  | Some t =>
      if negb (holds_claim t allocation) then (q, Err (Errorf "allocation %q does not hold task %q"))
      else persist written (with_tasks q (delete id (tasks q)) (removeOrderLocked (order q) id))
  end.

Definition Requeue (written : bool) (q : WorkQueue) (allocation id : string) : WorkQueue * result unit :=
  match tasks q !! id with
  | None => (q, Err (Errorf "task %q does not exist"))
  | Some t =>
      if negb (holds_claim t allocation) then (q, Err (Errorf "allocation %q does not hold task %q"))
      else persist written (with_tasks q (<[id := t <| Task_Claim := None |>]> (tasks q)) (order q))
  end.

Definition ReleaseAllocation (written : bool) (q : WorkQueue) (allocation : string) : WorkQueue * result unit :=
  if negb (map_any (λ t, holds_claim t allocation) (tasks q)) then (q, Ok tt)
  else persist written (with_tasks q
         ((λ t, if holds_claim t allocation then t <| Task_Claim := None |> else t) <$> tasks q) (order q)).

Definition Depth (q : WorkQueue) (now : time) : Z * Z :=
  (map_count (λ t, availableLocked t now && (Task_Attempts t <? maxAttempts q)) (tasks q),
   map_count (λ t, negb (availableLocked t now) && bool_decide (is_Some (Task_Claim t))) (tasks q)).

Definition stalled_task (q : WorkQueue) (now : time) (id : string) : bool :=
  match tasks q !! id with
  | None => false
  | Some t => availableLocked t now && (maxAttempts q <=? Task_Attempts t)
  end.

Definition Stalled (q : WorkQueue) (now : time) : list string :=
  sort_Strings (filter (λ id, stalled_task q now id = true) (order q)).

(** The clock is read by [Depth], by [Stalled] and for the evidence itself. *)
Definition Queue_Evidence (q : WorkQueue) (name : string) (now1 now2 now3 : time) : Evidence :=
  let '(waiting, inFlight) := Depth q now1 in
  let observed := <["depth" := Sprint waiting]> (<["in_flight" := Sprint inFlight]> ∅) in
  let stalled := Stalled q now2 in
  let observed := if 0 <? len stalled then <["stalled" := Sprint (len stalled)]> observed else observed in
  mkEvidence EvidenceQueueObserved name "" now3 time_zero observed.
End Operations.

(** ** Tables and their file *)

Section Durability.
Context {codec : TaskCodec} {laws : TaskCodecLaws codec}.
Implicit Types (ts : gmap string QueueTask) (o : list string) (q : WorkQueue) (t : QueueTask).

(** The order lists exactly the queued ids, once each, and each task is filed under its
    own non-empty id and has texts JSON keeps. *)
Record wf ts o : Prop := {
  wf_nodup : NoDup o;
  wf_listed id : id ∈ o ↔ is_Some (ts !! id);
  wf_ids id t : ts !! id = Some t → Task_ID t = id ∧ id ≠ "" ∧ text_task t = true }.

Lemma load_lines ts o m acc :
  NoDup (acc ++ o) → (∀ id, id ∈ o → is_Some (ts !! id)) → (∀ id t, ts !! id = Some t → Task_ID t = id ∧ id ≠ "" ∧ text_task t = true) →
  (∀ id, is_Some (m !! id) → id ∈ acc) →
  ∃ m', for_each load_line (m, acc) (encode_task <$> queued ts o) = Ok (m', acc ++ o) ∧
    ∀ id, m' !! id = if bool_decide (id ∈ o) then ts !! id else m !! id.
Proof.
  revert m acc. induction o as [|x o IH]; intros m acc Hnd Hl Hid Hm.
  { exists m. rewrite app_nil_r. done. }
  destruct (Hl x (list_elem_of_here _ _)) as [t Ht]. destruct (Hid x t Ht) as (Hx & Hne & Htext).
  assert (m !! x = None) as Hmx.
  { apply eq_None_not_Some. intros Hs%Hm. apply NoDup_app in Hnd as (_ & Hd & _). apply (Hd x Hs). by left. }
  destruct (IH (<[x := t]> m) (acc ++ [x])) as (m' & Hrun & Hlk).
  - by rewrite <-(assoc_L (++)).
  - intros id Hin. apply Hl. by right.
  - done.
  - intros id. rewrite lookup_insert_is_Some. rewrite elem_of_app, list_elem_of_singleton.
    intros [->|[_ Hs]]; [by right|]. left. auto.
  - exists m'. unfold queued. cbn [omap list_omap]. rewrite Ht. cbn [fmap list_fmap for_each].
    unfold load_line at 1. rewrite (decode_encode_task t Htext), Hx, bool_decide_false by done. cbn [fst snd].
    rewrite Hmx, bool_decide_false by (by intros [? ?]). cbn [rbind]. rewrite <-(assoc_L (++)) in Hrun.
    split; [exact Hrun|]. intros id. rewrite Hlk. destruct (decide (id ∈ o)) as [Hin|Hin].
    + rewrite !bool_decide_true; [done|by right|done].
    + rewrite (bool_decide_false (id ∈ o)) by done. destruct (decide (id = x)) as [->|Hnx].
      * by rewrite lookup_insert_eq, bool_decide_true by (by left).
      * rewrite lookup_insert_ne, bool_decide_false; [done| |done]. rewrite elem_of_cons. naive_solver.
Qed.

(** What was written loads back exactly. *)
Lemma load_written ts o :
  wf ts o → for_each load_line (∅, []) (encode_task <$> queued ts o) = Ok (ts, o).
Proof.
  intros [Hnd Hl Hid]. destruct (load_lines ts o ∅ []) as (m' & -> & Hlk); try done.
  - intros id. apply Hl.
  - intros id [? H]. by rewrite lookup_empty in H.
  - do 2 f_equal. apply map_eq. intros id. rewrite Hlk. destruct (bool_decide (id ∈ o)) eqn:E; [done|].
    bool_simpl. rewrite lookup_empty. symmetry. apply eq_None_not_Some. by rewrite <-Hl.
Qed.

(** ** The life of a queue *)

Inductive queue_op :=
  | OpEnqueue (now : time) (id payload : string)
  | OpClaim (now : time) (allocation : string)
  | OpAck (allocation id : string)
  | OpRequeue (allocation id : string)
  | OpRelease (allocation : string)
  | OpRestart.
#[export] Instance queue_op_eq_dec : EqDecision queue_op. Proof. solve_decision. Defined.

(** One operation, with whether its rewrite of the file succeeds; a restart loads
    whatever the file holds. *)
Definition perform (written : bool) (op : queue_op) q : WorkQueue :=
  match op with
  | OpEnqueue now id payload => (Enqueue written q now id payload).1
  | OpClaim now allocation => (Claim written q now allocation).1
  | OpAck allocation id => (Ack written q allocation id).1
  | OpRequeue allocation id => (Requeue written q allocation id).1
  | OpRelease allocation => (ReleaseAllocation written q allocation).1
  | OpRestart => match OpenQueue (disk q) with Ok q' => q' | Err _ => q end
  end.

(** Sound tables in memory, and a file that sound tables, perhaps older, were written to. *)
Definition sound q : Prop :=
  wf (tasks q) (order q) ∧ ∃ ts o, wf ts o ∧ disk q = encode_task <$> queued ts o.

Lemma persist_cases written q :
  let q' := (persist written q).1 in
  tasks q' = tasks q ∧ order q' = order q ∧ MaxAttempts q' = MaxAttempts q ∧ Lease_ q' = Lease_ q ∧
  (disk q' = disk q ∨ disk q' = encode_task <$> queued (tasks q') (order q')).
Proof. destruct written; cbn; auto 6. Qed.

Lemma elem_of_removeOrder o id x : NoDup o → x ∈ removeOrderLocked o id ↔ x ∈ o ∧ x ≠ id.
Proof.
  induction o as [|y o IH]; intros Hnd; cbn [removeOrderLocked]; [set_solver|].
  apply NoDup_cons in Hnd as [Hy Hnd]. case_bool_decide as E; [set_solver|].
  rewrite !elem_of_cons, (IH Hnd). set_solver.
Qed.

Lemma NoDup_removeOrder o id : NoDup o → NoDup (removeOrderLocked o id).
Proof.
  induction o as [|y o IH]; intros Hnd; cbn [removeOrderLocked]; [done|].
  pose proof Hnd as Hnd'. apply NoDup_cons in Hnd as [Hy Hnd]. case_bool_decide; [done|].
  apply NoDup_cons. split; [|auto]. rewrite elem_of_removeOrder by done. naive_solver.
Qed.

(** The texts of an operation are such that JSON keeps them. *)
Definition text_op (op : queue_op) : bool :=
  match op with
  | OpEnqueue _ id payload => ascii_text id && ascii_text payload
  | OpClaim _ a => ascii_text a
  | OpAck _ _ | OpRequeue _ _ | OpRelease _ | OpRestart => true
  end.

Lemma text_delivered q now a t : text_task t = true → ascii_text a = true → text_task (delivered q now a t) = true.
Proof. unfold text_task. cbn. rewrite !andb_true_iff. tauto. Qed.
Lemma text_released t : text_task t = true → text_task (t <| Task_Claim := None |>) = true.
Proof. unfold text_task. cbn. rewrite !andb_true_iff. tauto. Qed.
Lemma wf_text ts o id t : wf ts o → ts !! id = Some t → text_task t = true.
Proof. intros H Ht. by destruct (wf_ids _ _ H id t Ht) as (_ & _ & ?). Qed.
#[local] Hint Resolve text_delivered text_released wf_text : core.

Lemma wf_update ts o id t t' :
  wf ts o → ts !! id = Some t → Task_ID t' = Task_ID t → text_task t' = true → wf (<[id := t']> ts) o.
Proof.
  intros [Hnd Hl Hid] Ht Heq Htext. split; [done| |].
  - intros x. rewrite Hl, lookup_insert_is_Some. destruct (decide (id = x)) as [->|]; naive_solver.
  - intros x u. rewrite lookup_insert. case_decide as E; [subst|apply Hid]. intros [= <-].
    destruct (Hid _ _ Ht) as (Hx & Hne & _). by rewrite Heq.
Qed.

(** What an operation does to the task filed under [id]. *)
Definition task_effect (op : queue_op) q (id : string) (t : QueueTask) (after : option QueueTask) : Prop :=
  after = Some t ∨
  match op with
  | OpClaim now a => deliverable q now id = true ∧ after = Some (delivered q now a t)
  | OpAck a id' => id' = id ∧ holds_claim t a = true ∧ after = None
  | OpRequeue a id' => id' = id ∧ holds_claim t a = true ∧ after = Some (t <| Task_Claim := None |>)
  | OpRelease a => holds_claim t a = true ∧ after = Some (t <| Task_Claim := None |>)
  | OpEnqueue _ _ _ | OpRestart => False
  end.

(** The in-memory tables an operation leaves, before they are written. *)
Definition tables_after (op : queue_op) q ts o : Prop :=
  wf ts o ∧ ∀ id t, tasks q !! id = Some t → task_effect op q id t (ts !! id).

Lemma tables_same op q : wf (tasks q) (order q) → tables_after op q (tasks q) (order q).
Proof. intros H. split; [done|]. intros id t Ht. by left. Qed.

Lemma persisted_tables op q ts o written :
  tables_after op q ts o →
  let q' := (persist written (with_tasks q ts o)).1 in
  tables_after op q (tasks q') (order q') ∧ MaxAttempts q' = MaxAttempts q ∧
  (disk q' = disk q ∨ disk q' = encode_task <$> queued (tasks q') (order q')).
Proof. intros H. by destruct written; cbn; auto. Qed.

Lemma enqueue_tables q now id payload :
  wf (tasks q) (order q) → id ≠ "" → tasks q !! id = None → text_op (OpEnqueue now id payload) = true →
  tables_after (OpEnqueue now id payload) q (<[id := mkQueueTask id payload now None 0]> (tasks q)) (order q ++ [id]).
Proof.
  intros [Hnd Hl Hid] Hne Hn Htext. split.
  - split.
    + apply NoDup_app. split; [done|]. split; [|apply NoDup_singleton].
      intros x Hx ->%list_elem_of_singleton. apply Hl in Hx as [? Hx]. congruence.
    + intros x. rewrite elem_of_app, list_elem_of_singleton, Hl, lookup_insert_is_Some.
      destruct (decide (id = x)); naive_solver.
    + intros x t. rewrite lookup_insert. case_decide; [subst; intros [= <-]|apply Hid].
      split; [done|]. split; [done|]. unfold text_task. cbn. by rewrite andb_true_r.
  - intros x t Ht. left. rewrite lookup_insert_ne; [done|congruence].
Qed.

Lemma update_tables op q id t t' :
  wf (tasks q) (order q) → tasks q !! id = Some t → Task_ID t' = Task_ID t → text_task t' = true →
  task_effect op q id t (Some t') → tables_after op q (<[id := t']> (tasks q)) (order q).
Proof.
  intros Hwf Ht Heq Htext He. split; [by eapply wf_update|]. intros x u Hu. rewrite lookup_insert.
  case_decide as E; [subst; by simplify_eq|]. by left.
Qed.

Lemma ack_tables q a id t :
  wf (tasks q) (order q) → tasks q !! id = Some t → holds_claim t a = true →
  tables_after (OpAck a id) q (delete id (tasks q)) (removeOrderLocked (order q) id).
Proof.
  intros [Hnd Hl Hid] Ht Hc. split.
  - split; [by apply NoDup_removeOrder| |].
    + intros x. rewrite elem_of_removeOrder by done. rewrite Hl, lookup_delete_is_Some. naive_solver.
    + intros x u [_ Hu]%lookup_delete_Some. by apply Hid.
  - intros x u Hu. destruct (decide (id = x)) as [->|Hne].
    + right. simplify_eq. by rewrite lookup_delete_eq.
    + left. by rewrite lookup_delete_ne.
Qed.

Lemma release_tables q a :
  wf (tasks q) (order q) →
  tables_after (OpRelease a) q
    ((λ t, if holds_claim t a then t <| Task_Claim := None |> else t) <$> tasks q) (order q).
Proof.
  intros [Hnd Hl Hid]. split.
  - split; [done| |].
    + intros x. by rewrite Hl, lookup_fmap, fmap_is_Some.
    + intros x u. rewrite lookup_fmap. intros (t & Ht & ->)%fmap_Some. destruct (Hid x t Ht) as (Hx & Hne & Htext).
      destruct (holds_claim t a); auto.
  - intros x t Ht. rewrite lookup_fmap. unfold task_effect. rewrite Ht. cbn.
    destruct (holds_claim t a) eqn:E; [by right|by left].
Qed.

(** Every operation but a restart edits the tables, and the file afterwards is the old
    one or that of the new tables. *)
Lemma perform_tables written op q :
  op ≠ OpRestart → text_op op = true → wf (tasks q) (order q) →
  let q' := perform written op q in
  tables_after op q (tasks q') (order q') ∧ MaxAttempts q' = MaxAttempts q ∧
  (disk q' = disk q ∨ disk q' = encode_task <$> queued (tasks q') (order q')).
Proof.
  intros Hop Htext Hwf. assert (tables_after op q (tasks q) (order q) ∧ MaxAttempts q = MaxAttempts q ∧
    (disk q = disk q ∨ disk q = encode_task <$> queued (tasks q) (order q))) as Hsame by (split; [by apply tables_same|auto]).
  destruct op as [now id payload|now a|a id|a id|a|]; cbn [perform]; [| | | | |done].
  - unfold Enqueue. case_bool_decide; [done|]. case_bool_decide as Hs; [done|].
    apply persisted_tables, enqueue_tables; [done..| |done]. by apply eq_None_not_Some.
  - unfold Claim. case_bool_decide; [done|]. destruct (list_find _ _) as [[i id]|] eqn:Ef; [|done].
    destruct (tasks q !! id) as [t|] eqn:Ht; [|done]. apply list_find_Some in Ef as (_ & Hd & _).
    pose proof (persisted_tables (OpClaim now a) q (<[id := delivered q now a t]> (tasks q)) (order q) written) as Hp.
    destruct (persist written _) as [q' [u|err]]; (apply Hp; eapply update_tables; [done|exact Ht|done|by eauto|by right]).
  - unfold Ack. destruct (tasks q !! id) as [t|] eqn:Ht; [|done]. destruct (holds_claim t a) eqn:Hc; [|done].
    by eapply persisted_tables, ack_tables.
  - unfold Requeue. destruct (tasks q !! id) as [t|] eqn:Ht; [|done]. destruct (holds_claim t a) eqn:Hc; [|done].
    eapply persisted_tables, update_tables; [done|exact Ht|done|by eauto|by right].
  - unfold ReleaseAllocation. destruct (map_any _ _); [|done]. by apply persisted_tables, release_tables.
Qed.

Lemma restart_loads q ts o :
  wf ts o → disk q = encode_task <$> queued ts o →
  perform true OpRestart q = mkWorkQueue DefaultMaxAttempts DefaultClaimLease ts o (disk q).
Proof. intros Hwf Hd. cbn. unfold OpenQueue. by rewrite Hd, load_written. Qed.

(** ** What every task keeps *)

(** The task of [id], in memory and on disk, satisfies [R]. *)
Record entry (R : QueueTask → Prop) (id : string) q : Prop := {
  entry_wf : wf (tasks q) (order q);
  entry_memory : ∃ t, tasks q !! id = Some t ∧ R t;
  entry_disk : ∃ ts o t, wf ts o ∧ disk q = encode_task <$> queued ts o ∧ ts !! id = Some t ∧ R t }.

(** It survives an operation that keeps it in memory; a restart reads it back. *)
Lemma entry_perform R id written op q :
  text_op op = true → entry R id q →
  (op ≠ OpRestart → ∀ t after, tasks q !! id = Some t → R t → task_effect op q id t after →
     ∃ t', after = Some t' ∧ R t') →
  entry R id (perform written op q).
Proof.
  intros Htext [Hwf (t & Ht & HR) (ts & o & t0 & Hwf0 & Hd & Ht0 & HR0)] Heff.
  destruct (decide (op = OpRestart)) as [->|Hop].
  - assert (perform written OpRestart q = mkWorkQueue DefaultMaxAttempts DefaultClaimLease ts o (disk q)) as ->
      by exact (restart_loads q ts o Hwf0 Hd).
    split; [done|by exists t0|]. by exists ts, o, t0.
  - destruct (perform_tables written op q Hop Htext Hwf) as ([Hwf' Hlk] & _ & Hdisk).
    destruct (Heff Hop t _ Ht HR (Hlk id t Ht)) as (t' & Ht' & HR').
    split; [done|by exists t'|]. destruct Hdisk as [->|Hdisk]; [by exists ts, o, t0|].
    by exists (tasks (perform written op q)), (order (perform written op q)), t'.
Qed.

(** Any number of operations, with texts JSON keeps and each allowed by [ok] in the state it
    meets, with disk failures and restarts among them. *)
Inductive queue_steps (ok : WorkQueue → queue_op → Prop) : WorkQueue → WorkQueue → Prop :=
  | queue_steps_done q : queue_steps ok q q
  | queue_steps_more q written op q' :
      text_op op = true → ok q op → queue_steps ok (perform written op q) q' → queue_steps ok q q'.

Lemma entry_steps R id ok q q' :
  (∀ q op t after, ok q op → op ≠ OpRestart → tasks q !! id = Some t → R t → task_effect op q id t after →
     ∃ t', after = Some t' ∧ R t') →
  queue_steps ok q q' → entry R id q → entry R id q'.
Proof.
  intros Hok. induction 1 as [|q written op q' Htext Ho _ IH]; intros He; [done|].
  apply IH, entry_perform; [done|done|]. intros Hop t after. by apply Hok.
Qed.

(** A successful rewrite puts the entry on disk too. *)
Lemma entry_written R id q ts o t :
  wf ts o → ts !! id = Some t → R t → entry R id (persist true (with_tasks q ts o)).1.
Proof. intros Hwf Ht HR. split; cbn; [done|by exists t|by exists ts, o, t]. Qed.

(** Does this operation acknowledge [id] on behalf of its holder? *)
Definition acknowledges q (op : queue_op) (id : string) : Prop :=
  ∃ a t, op = OpAck a id ∧ tasks q !! id = Some t ∧ holds_claim t a = true.


(** ** Claims *)

Lemma lease_positive q : 0 < lease q.
Proof. unfold lease. destruct (Z.ltb_spec 0 (Lease_ q)); [done|reflexivity]. Qed.

(** What a claim that delivers did: it took the first deliverable id of the order. *)
Lemma Claim_some written q now a q' t' :
  Claim written q now a = (q', Ok (Some t')) →
  ∃ i id t, list_find (λ id, deliverable q now id = true) (order q) = Some (i, id) ∧
    tasks q !! id = Some t ∧ t' = delivered q now a t ∧
    q' = (persist true (with_tasks q (<[id := t']> (tasks q)) (order q))).1.
Proof.
  unfold Claim. case_bool_decide; [done|]. destruct (list_find _ _) as [[i id]|]; [|done].
  destruct (tasks q !! id) as [t|] eqn:Ht; [|done]. destruct written; [|done]. intros [= <- <-].
  by exists i, id, t.
Qed.

Lemma claimed_unavailable (a : string) t (until now' : time) :
  Task_Claim t = Some (mkTaskClaim a until) → now' < until → availableLocked t now' = false.
Proof.
  intros Hc Hn. unfold availableLocked, Before. rewrite Hc. cbn. rewrite (proj2 (Z.ltb_lt now' until)) by done.
  apply andb_false_r.
Qed.

Lemma not_held (a b : string) t (until : time) :
  Task_Claim t = Some (mkTaskClaim a until) → b ≠ a → holds_claim t b = true → False.
Proof. intros Hc Hne. unfold holds_claim. rewrite Hc. cbn. intros H. bool_simpl. congruence. Qed.

Lemma delivered_undeliverable q now a id t ts o q' :
  tasks q' = <[id := delivered q now a t]> ts → order q' = o → deliverable q' now id = false.
Proof.
  intros Hts _. unfold deliverable. rewrite Hts, lookup_insert_eq.
  erewrite (claimed_unavailable a); [done|done|]. unfold time_Add. pose proof (lease_positive q). lia.
Qed.

(** What leaves a claim of [a] standing: nothing [a] does, and no claim made after it
    has lapsed. *)
Definition undisturbed (a : string) (until : time) (op : queue_op) : Prop :=
  match op with
  | OpClaim now _ => now < until
  | OpAck b _ | OpRequeue b _ | OpRelease b => b ≠ a
  | OpEnqueue _ _ _ | OpRestart => True
  end.

(** A claim is exclusive.  From the moment a task is delivered to an instance until
    its lease lapses, and whatever other instances do, whatever writes fail and however
    often the node restarts, it is delivered to nobody else unless that instance gives
    it back. *)
Theorem queue_claims_exclusive q now a q1 t q2 now2 written b q3 t2
    (Hq : sound q) (Htext : ascii_text a = true) (Hclaim : Claim true q now a = (q1, Ok (Some t)))
    (Hsteps : queue_steps (λ _ op, undisturbed a (now + lease q) op) q1 q2)
    (Hlive : now2 < now + lease q) (Hagain : Claim written q2 now2 b = (q3, Ok (Some t2))) :
  Task_ID t2 ≠ Task_ID t.
Proof.
  destruct (Claim_some _ _ _ _ _ _ Hclaim) as (i & id & t0 & Hf & Ht0 & -> & ->). destruct Hq as [Hwf _].
  destruct (wf_ids _ _ Hwf id t0 Ht0) as [Hid _]. cbn [Task_ID delivered set].
  set (R x := Task_ID x = id ∧ ∃ until, Task_Claim x = Some (mkTaskClaim a until) ∧ now + lease q <= until).
  assert (entry R id q2) as [Hwf2 (t' & Ht' & _ & until & Hc & Hu) _].
  { revert Hsteps. intros Hsteps. eapply entry_steps; [|exact Hsteps|].
    2:{ eapply entry_written; [eapply wf_update; by eauto|apply lookup_insert_eq|]. split; [done|].
        eexists. split; [done|]. unfold time_Add. lia. }
    intros q0 op x after Hok Hop Hx (Hxid & until & Hc & Hu) [->|Heff]; [exists x; split; [done|by split; eauto]|].
    exfalso. destruct op; try done.
    - destruct Heff as [Hd _]. unfold deliverable in Hd. rewrite Hx in Hd. cbn in Hok.
      erewrite claimed_unavailable in Hd; [done|exact Hc|lia].
    - destruct Heff as (_ & Hh & _). exact (not_held _ _ _ _ Hc Hok Hh).
    - destruct Heff as (_ & Hh & _). exact (not_held _ _ _ _ Hc Hok Hh).
    - destruct Heff as (Hh & _). exact (not_held _ _ _ _ Hc Hok Hh). }
  destruct (Claim_some _ _ _ _ _ _ Hagain) as (j & id2 & u & Hf2 & Hu2 & -> & _). cbn [Task_ID delivered set].
  apply list_find_Some in Hf2 as (_ & Hd & _). destruct (wf_ids _ _ Hwf2 id2 u Hu2) as [-> _].
  intros Heq. subst id2. simplify_eq. unfold deliverable in Hd. rewrite Ht' in Hd.
  erewrite claimed_unavailable in Hd; [done|exact Hc|lia].
Qed.

(** ** Delivery *)

Section Delivery.
Context (now : time) (a : string) (Ha : a ≠ "") (Htext : ascii_text a = true).

Definition claim_again q : WorkQueue := (Claim true q now a).1.

(** How many ids ahead of a position are deliverable. *)
Definition ahead q (i : nat) : nat :=
  length (filter (λ id, deliverable q now id = true) (take i (order q))).

Lemma claim_first q i id :
  wf (tasks q) (order q) → order q !! i = Some id → deliverable q now id = true →
  ∃ j id1 t, (j <= i)%nat ∧ order q !! j = Some id1 ∧ deliverable q now id1 = true ∧ tasks q !! id1 = Some t ∧
    Claim true q now a = (claim_again q, Ok (Some (delivered q now a t))) ∧
    tasks (claim_again q) = <[id1 := delivered q now a t]> (tasks q) ∧ order (claim_again q) = order q.
Proof.
  intros Hwf Hi Hd. unfold claim_again, Claim. rewrite bool_decide_false by done.
  destruct (list_find _ _) as [[j id1]|] eqn:Ef.
  - apply list_find_Some in Ef as (Hj & Hd1 & Hfirst).
    assert (j <= i)%nat as Hle. { destruct (decide (j <= i)%nat) as [|Hn]; [done|]. by destruct (Hfirst i id); [|lia|]. }
    destruct (proj1 (wf_listed _ _ Hwf id1) (list_elem_of_lookup_2 _ _ _ Hj)) as [t Ht]. rewrite Ht.
    by exists j, id1, t.
  - apply list_find_None in Ef. rewrite Forall_lookup in Ef. by destruct (Ef i id Hi).
Qed.

(** After a delivery further ahead, one id fewer stands before this one. *)
Lemma ahead_decreases q i j id1 t q' :
  NoDup (order q) → order q !! j = Some id1 → (j < i)%nat → deliverable q now id1 = true →
  tasks q' = <[id1 := delivered q now a t]> (tasks q) → order q' = order q →
  MaxAttempts q' = MaxAttempts q → (ahead q' i < ahead q i)%nat.
Proof.
  intros Hnd Hj Hji Hd Hts Ho Hm. unfold ahead. rewrite Ho.
  assert (id1 ∈ take i (order q)) as Hin by (eapply list_elem_of_lookup_2; rewrite lookup_take_lt; done).
  assert (∀ x, deliverable q' now x = true → deliverable q now x = true ∧ x ≠ id1) as Hsub.
  { intros x Hx. destruct (decide (x = id1)) as [->|Hne].
    - by rewrite (delivered_undeliverable q now a id1 t (tasks q) (order q) q') in Hx.
    - split; [|done]. unfold deliverable, maxAttempts in *. by rewrite Hts, lookup_insert_ne, Hm in Hx by done. }
  generalize dependent (take i (order q)). intros l Hin. clear -Hin Hd Hsub.
  assert (∀ l, (length (filter (λ x, deliverable q' now x = true) l) <=
                length (filter (λ x, deliverable q now x = true) l))%nat) as Hle.
  { clear Hin. intros l'. induction l' as [|x l' IH]; [done|]. rewrite !filter_cons.
    destruct (decide (deliverable q' now x = true)) as [H'|H'].
    - rewrite decide_True by (by apply Hsub). cbn. lia.
    - destruct (decide _); cbn; lia. }
  induction l as [|x l IH]; [by apply not_elem_of_nil in Hin|]. rewrite !filter_cons.
  apply elem_of_cons in Hin as [<-|Hin].
  - rewrite decide_False by (intros H; by destruct (Hsub _ H)). rewrite decide_True by done. cbn. specialize (Hle l). lia.
  - specialize (IH Hin). destruct (decide (deliverable q' now x = true)) as [H'|H'].
    + rewrite decide_True by (by apply Hsub). cbn. lia.
    + destruct (decide _); cbn; lia.
Qed.

Lemma delivers_by_ahead k q i id :
  ahead q i = k → wf (tasks q) (order q) → order q !! i = Some id → deliverable q now id = true →
  ∃ n t, (n <= k)%nat ∧ (Claim true (Nat.iter n claim_again q) now a).2 = Ok (Some t) ∧ Task_ID t = id.
Proof.
  revert q. induction (lt_wf k) as [k _ IH]. intros q Hk Hwf Hi Hd.
  destruct (claim_first q i id Hwf Hi Hd) as (j & id1 & t & Hji & Hj & Hd1 & Ht & Hcl & Hts & Ho).
  destruct (wf_ids _ _ Hwf id1 t Ht) as [Hid1 _]. destruct (decide (j = i)) as [->|Hne].
  { exists O, (delivered q now a t). simplify_eq. cbn [Nat.iter nat_rect]. rewrite Hcl. cbn. split; [lia|done]. }
  assert (MaxAttempts (claim_again q) = MaxAttempts q) as Hm.
  { by destruct (perform_tables true (OpClaim now a) q) as (_ & ? & _). }
  assert (id1 ≠ id) as Hx. { intros ->. apply Hne. by eapply NoDup_lookup, Hi; [apply Hwf|]. }
  assert (ahead (claim_again q) i < k)%nat as Hlt.
  { rewrite <-Hk. eapply ahead_decreases; [apply Hwf|exact Hj|lia|done..]. }
  destruct (IH _ Hlt (claim_again q) eq_refl) as (n & t' & Hn & Hcl' & Hid').
  - rewrite Hts, Ho. eapply wf_update; by eauto.
  - by rewrite Ho.
  - unfold deliverable, maxAttempts in *. by rewrite Hts, lookup_insert_ne, Hm.
  - exists (S n), t'. rewrite Nat.iter_succ_r. split; [lia|done].
Qed.

Lemma ahead_bound q i : (ahead q i <= i)%nat.
Proof. unfold ahead. etrans; [apply length_filter|]. rewrite length_take. lia. Qed.
End Delivery.

(** A queue delivers.  A task that may be delivered and stands at position [i] of the
    order is handed out by the time [i + 1] claims have been made: work in front of it
    is delivered first, and never twice. *)
Theorem queue_delivers q now a i id
    (Hq : sound q) (Ha : a ≠ "") (Htext : ascii_text a = true) (Hi : order q !! i = Some id) (Hd : deliverable q now id = true) :
  ∃ n t, (n <= i)%nat ∧ (Claim true (Nat.iter n (claim_again now a) q) now a).2 = Ok (Some t) ∧ Task_ID t = id.
Proof.
  destruct Hq as [Hwf _].
  destruct (delivers_by_ahead now a Ha Htext (ahead now q i) q i id eq_refl Hwf Hi Hd) as (n & t & Hn & H).
  exists n, t. split; [|done]. pose proof (ahead_bound now q i). lia.
Qed.

(** ** How often a task is delivered *)

Definition delivers (written : bool) (op : queue_op) q (id : string) : bool :=
  match op with
  | OpClaim now a => match (Claim written q now a).2 with Ok (Some t) => bool_decide (Task_ID t = id) | _ => false end
  | _ => false
  end.

Fixpoint deliveries (id : string) q (ops : list (bool * queue_op)) : Z :=
  match ops with
  | [] => 0
  | (written, op) :: ops => (if delivers written op q id then 1 else 0) + deliveries id (perform written op q) ops
  end.

Fixpoint unacknowledged (id : string) q (ops : list (bool * queue_op)) : Prop :=
  match ops with
  | [] => True
  | (written, op) :: ops => text_op op = true ∧ ¬ acknowledges q op id ∧ unacknowledged id (perform written op q) ops
  end.

(** At least [n] deliveries are on record, and no more than the limit. *)
Definition on_record (n : Z) t : Prop := 0 <= n <= Task_Attempts t ∧ Task_Attempts t <= DefaultMaxAttempts.

Lemma perform_limit written op q :
  wf (tasks q) (order q) → text_op op = true → MaxAttempts q = DefaultMaxAttempts → MaxAttempts (perform written op q) = DefaultMaxAttempts.
Proof.
  intros Hwf Htext Hm. destruct (decide (op = OpRestart)) as [->|Hop].
  - cbn. unfold OpenQueue. by destruct (for_each _ _ _).
  - destruct (perform_tables written op q Hop Htext Hwf) as (_ & -> & _). done.
Qed.

Lemma deliverable_attempts q now id t :
  deliverable q now id = true → tasks q !! id = Some t → MaxAttempts q = DefaultMaxAttempts →
  Task_Attempts t < DefaultMaxAttempts.
Proof.
  unfold deliverable, maxAttempts. intros Hd Ht Hm. rewrite Ht, Hm in Hd. cbn in Hd. apply andb_true_iff in Hd as [_ Hd].
  apply negb_true_iff, Z.leb_gt in Hd. exact Hd.
Qed.

Lemma delivered_on_record n q now a t :
  on_record n t → Task_Attempts t < DefaultMaxAttempts → on_record (n + 1) (delivered q now a t).
Proof.
  unfold on_record, DefaultMaxAttempts. cbn. intros [? ?] ?. rewrite i64_id; [lia|]. unfold in_int, int_min, int_max. lia.
Qed.

Lemma on_record_perform n id written op q :
  text_op op = true → entry (on_record n) id q → MaxAttempts q = DefaultMaxAttempts → ¬ acknowledges q op id →
  entry (on_record (n + if delivers written op q id then 1 else 0)) id (perform written op q).
Proof.
  intros Htext He Hm Hack. destruct (delivers written op q id) eqn:Hdel.
  - unfold delivers in Hdel. destruct op as [|now a| | | |]; try done. cbn [perform].
    destruct (Claim written q now a) as [q' [[t'|]|]] eqn:Hc; try done. cbn in Hdel. bool_simpl.
    destruct (Claim_some _ _ _ _ _ _ Hc) as (i & id1 & t & Hf & Ht & -> & ->). cbn [fst].
    destruct He as [Hwf (t1 & Ht1 & HR) _]. destruct (wf_ids _ _ Hwf id1 t Ht) as [Hid1 _].
    cbn in Hdel. rewrite Hid1 in Hdel. subst id1. simplify_eq. apply list_find_Some in Hf as (_ & Hd & _).
    eapply entry_written; [eapply wf_update; by eauto|apply lookup_insert_eq|]. apply delivered_on_record; [done|].
    by eapply deliverable_attempts.
  - rewrite Z.add_0_r. apply entry_perform; [done|done|]. intros Hop t after Ht HR [->|Heff]; [by exists t|].
    destruct op; try done; destruct_and?; subst; try (by eexists).
    + eexists. split; [done|]. destruct (delivered_on_record n q now allocation t HR) as [? ?];
        [by eapply deliverable_attempts|]. destruct HR. split; [lia|done].
    + destruct Hack. by eexists _, t.
Qed.

(** Redelivery is bounded.  Between being accepted and being acknowledged a task is
    handed out at most [DefaultMaxAttempts] times, however its holders fail or requeue
    it, whatever writes fail and however often the node restarts in between. *)
Theorem queue_redelivery_bounded q now id payload q1 ops
    (Hq : sound q) (Hm : MaxAttempts q = DefaultMaxAttempts) (Hnew : tasks q !! id = None)
    (Htext : ascii_text id && ascii_text payload = true) (Hin : Enqueue true q now id payload = (q1, Ok tt)) (Hack : unacknowledged id q1 ops) :
  deliveries id q1 ops <= DefaultMaxAttempts.
Proof.
  assert (entry (on_record 0) id q1 ∧ MaxAttempts q1 = DefaultMaxAttempts) as [He Hm1].
  { unfold Enqueue in Hin. case_bool_decide as Hne; [done|].
    rewrite bool_decide_false in Hin by (by rewrite Hnew; intros [? ?]). apply (f_equal fst) in Hin. cbn [fst] in Hin.
    rewrite <-Hin. destruct Hq as [Hwf _]. destruct (enqueue_tables q now id payload Hwf Hne Hnew Htext) as [Hwf' _].
    split; [|done]. eapply entry_written; [exact Hwf'|apply lookup_insert_eq|]. by split. }
  clear -He Hm1 Hack laws. enough (∀ n, entry (on_record n) id q1 → n + deliveries id q1 ops <= DefaultMaxAttempts) as H
    by exact (H 0 He). clear He. revert q1 Hm1 Hack.
  induction ops as [|[written op] ops IH]; intros q1 Hm1 Hack n He; cbn [deliveries].
  - destruct He as [_ (t & _ & HR) _]. unfold on_record in HR. lia.
  - destruct Hack as (Ht & Hno & Hrest). rewrite Z.add_assoc. apply IH; [|done|by apply on_record_perform].
    apply perform_limit; [apply He|done..].
Qed.

(** The queue's file says all there is to say: opening what a queue wrote gives back
    exactly its tasks, their claims and attempts, and their order. *)
Theorem queue_reloads q ts o (Hwf : wf ts o) :
  OpenQueue (disk (persist true (with_tasks q ts o)).1) =
  Ok (mkWorkQueue DefaultMaxAttempts DefaultClaimLease ts o (disk (persist true (with_tasks q ts o)).1)).
Proof. unfold OpenQueue. cbn [persist fst disk tasks order with_tasks]. by rewrite load_written. Qed.

(** The enqueue a producer retries after a failed write reports success and writes
    nothing: the task lives in memory alone, and a restart loses it. *)
Theorem enqueue_retry_not_durable q now now' id payload
    (Hq : sound q) (Hnew : tasks q !! id = None) (Hid : id ≠ "")
    (Hdisk : disk q = encode_task <$> queued (tasks q) (order q)) :
  let q1 := (Enqueue false q now id payload).1 in
  (Enqueue false q now id payload).2 = Err (Errorf "replace queue: %w") ∧
  Enqueue true q1 now' id payload = (q1, Ok tt) ∧
  tasks (perform true OpRestart q1) !! id = None.
Proof.
  unfold Enqueue. rewrite !(bool_decide_false (id = "")) by done. rewrite Hnew.
  rewrite bool_decide_false by (by intros [? ?]). cbn [persist fst snd]. split; [done|].
  cbn [tasks with_tasks]. rewrite lookup_insert_eq, bool_decide_true by done. split; [done|].
  destruct Hq as [Hwf _]. rewrite (restart_loads _ (tasks q) (order q) Hwf); done.
Qed.

(** An acknowledgment is accepted from an instance whose lease has lapsed, as long as
    nobody else has claimed the task since. *)
Theorem ack_after_lapse q a id t until now
    (Ht : tasks q !! id = Some t) (Hc : Task_Claim t = Some (mkTaskClaim a until)) (Hlapsed : until < now) :
  (until ≠ time_zero → availableLocked t now = true) ∧ (Ack true q a id).2 = Ok tt ∧
  tasks (Ack true q a id).1 !! id = None.
Proof.
  split.
  - intros Hz. unfold availableLocked. rewrite Hc. cbn. unfold IsZero, Before.
    rewrite (proj2 (Z.eqb_neq until 0)) by done. rewrite (proj2 (Z.ltb_ge now until)) by lia. done.
  - unfold Ack, holds_claim. rewrite Ht, Hc. cbn. rewrite bool_decide_true by done. cbn. by rewrite lookup_delete_eq.
Qed.
End Durability.

(** ** A queue at work *)

Module QueueSample.
Definition zero : Ascii.ascii := Ascii.ascii_of_nat 48.
Definition one : Ascii.ascii := Ascii.ascii_of_nat 49.
Fixpoint bits (p : positive) : string :=
  match p with xH => "" | xO p => String zero (bits p) | xI p => String one (bits p) end.
Fixpoint unbits (s : string) : option positive :=
  match s with
  | EmptyString => Some xH
  | String c s => p ← unbits s; if Ascii.eqb c one then Some (xI p)
                               else if Ascii.eqb c zero then Some (xO p) else None
  end.

Lemma unbits_bits p : unbits (bits p) = Some p.
Proof. induction p as [p IH|p IH|]; cbn; [by rewrite IH..|done]. Qed.

Definition fields (t : QueueTask) : string * string * Z * option (string * Z) * Z :=
  (Task_ID t, Task_Payload t, Task_EnqueuedAt t,
   (λ c, (Claim_Allocation c, Claim_ExpiresAt c)) <$> Task_Claim t, Task_Attempts t).
Definition of_fields (f : string * string * Z * option (string * Z) * Z) : QueueTask :=
  let '(id, payload, at_, claim, attempts) := f in
  mkQueueTask id payload at_ ((λ c, mkTaskClaim c.1 c.2) <$> claim) attempts.

#[local] Instance sample_codec : TaskCodec := {|
  encode_task t := bits (encode (fields t));
  decode_task s := p ← unbits s; of_fields <$> decode p |}.
#[local] Instance queue_codec_laws : TaskCodecLaws sample_codec.
Proof.
  intros [id payload at_ [[a until]|] attempts] _; cbn -[encode decode]; rewrite unbits_bits; cbn -[encode decode];
    by rewrite decode_encode.
Qed.

Definition empty_queue : WorkQueue := mkWorkQueue DefaultMaxAttempts DefaultClaimLease ∅ [] [].
Definition accepted : WorkQueue := (Enqueue true empty_queue 5 "job" "review").1.
Definition two_jobs : WorkQueue := (Enqueue true accepted 5 "job2" "merge").1.
Definition in_hand : WorkQueue := (Claim true two_jobs 6 "worker-a").1.

Lemma wf_empty : wf ∅ [].
Proof. split; [constructor| |]; intros id; [|intros t; by rewrite lookup_empty]. rewrite lookup_empty. split; [set_solver|by intros [? ?]]. Qed.

Lemma sound_empty : sound empty_queue.
Proof. split; [exact wf_empty|]. exists ∅, []. split; [exact wf_empty|done]. Qed.

Lemma wf_job : wf (tasks accepted) (order accepted).
Proof. apply (enqueue_tables empty_queue 5 "job" "review" wf_empty); done. Qed.
Lemma wf_jobs : wf (tasks two_jobs) (order two_jobs).
Proof. apply (enqueue_tables accepted 5 "job2" "merge" wf_job); done. Qed.
Lemma sound_jobs : sound two_jobs.
Proof. split; [exact wf_jobs|]. exists (tasks two_jobs), (order two_jobs). split; [exact wf_jobs|done]. Qed.


Lemma queue_claims_exclusive_witness :
  (Claim true (perform true OpRestart in_hand) 7 "worker-b").2 = Ok (Some (mkQueueTask "job2" "merge" 5
    (Some (mkTaskClaim "worker-b" (7 + DefaultClaimLease))) 1)) ∧ "job2" ≠ "job".
Proof.
  split; [vm_compute; reflexivity|].
  refine (queue_claims_exclusive two_jobs 6 "worker-a" in_hand
    (mkQueueTask "job" "review" 5 (Some (mkTaskClaim "worker-a" (6 + DefaultClaimLease))) 1)
    (perform true OpRestart in_hand) 7 true "worker-b" (Claim true (perform true OpRestart in_hand) 7 "worker-b").1
    (mkQueueTask "job2" "merge" 5 (Some (mkTaskClaim "worker-b" (7 + DefaultClaimLease))) 1) sound_jobs eq_refl _ _ _ _).
  - vm_compute. reflexivity.
  - eapply (queue_steps_more _ _ true OpRestart); [done|done|constructor].
  - vm_compute. reflexivity.
  - vm_compute. reflexivity.
Defined.

Lemma queue_delivers_witness :
  ∃ n t, (n <= 1)%nat ∧ (Claim true (Nat.iter n (claim_again 6 "worker-a") two_jobs) 6 "worker-a").2 = Ok (Some t) ∧
    Task_ID t = "job2".
Proof. apply (queue_delivers two_jobs 6 "worker-a" 1 "job2" sound_jobs); [done|done|vm_compute; reflexivity..]. Defined.

(** Claimed and given back three times, with a restart between, the task is not offered
    a fourth time. *)
Definition worn_out : list (bool * queue_op) :=
  [(true, OpClaim 6 "a"); (true, OpRequeue "a" "job"); (true, OpRestart); (true, OpClaim 7 "b");
   (true, OpRelease "b"); (true, OpClaim 8 "c"); (true, OpRequeue "c" "job"); (true, OpClaim 9 "d")].

Lemma queue_redelivery_bounded_witness :
  deliveries "job" accepted worn_out = 3 ∧ deliveries "job" accepted worn_out <= DefaultMaxAttempts.
Proof.
  split; [vm_compute; reflexivity|].
  refine (queue_redelivery_bounded empty_queue 5 "job" "review" accepted worn_out sound_empty eq_refl _ _ _ _); [done|done|done|].
  repeat (split; [done|]; split; [by intros (? & ? & [=] & _)|]). exact I.
Defined.

Lemma queue_reloads_witness :
  OpenQueue (disk (persist true (with_tasks empty_queue (tasks two_jobs) (order two_jobs))).1) =
  Ok (mkWorkQueue DefaultMaxAttempts DefaultClaimLease (tasks two_jobs) (order two_jobs)
        (disk (persist true (with_tasks empty_queue (tasks two_jobs) (order two_jobs))).1)).
Proof. exact (queue_reloads empty_queue (tasks two_jobs) (order two_jobs) wf_jobs). Defined.

Lemma enqueue_retry_not_durable_witness :
  tasks (perform true OpRestart (Enqueue false accepted 6 "late" "x").1) !! "late" = None.
Proof.
  refine (proj2 (proj2 (enqueue_retry_not_durable accepted 6 7 "late" "x" _ _ _ _)));
    [split; [exact wf_job|]; exists (tasks accepted), (order accepted); split; [exact wf_job|done]|done|done|done].
Defined.

Lemma ack_after_lapse_witness :
  (Ack true in_hand "worker-a" "job").2 = Ok tt.
Proof.
  refine (proj1 (proj2 (ack_after_lapse in_hand "worker-a" "job"
    (mkQueueTask "job" "review" 5 (Some (mkTaskClaim "worker-a" (6 + DefaultClaimLease))) 1)
    (6 + DefaultClaimLease) (7 + DefaultClaimLease) _ _ _))); vm_compute; reflexivity.
Defined.
End QueueSample.
