(* ===== verification/Calendar.v ===== *)
(** * Civil dates (the parts of package time that schedules use)

    An instant counts nanoseconds from midnight of 1 January of year 1, UTC, which is
    Go's zero time; dates are proleptic Gregorian, as in Go.  [date_of] and
    [days_of_date] convert between a day's number and its year, month and day, and
    are inverse to each other. *)

From S2P Require Import Prelude.
Open Scope Z_scope.

Definition Day : duration := 24 * Hour.

Definition is_leap (y : Z) : bool :=
  (y mod 4 =? 0) && (negb (y mod 100 =? 0) || (y mod 400 =? 0)).

(** The number of 1 January of year [y]. *)
Definition days_before_year (y : Z) : Z :=
  let p := y - 1 in 365 * p + p / 4 - p / 100 + p / 400.

Definition month_lengths (leap : bool) : list Z :=
  [31; if leap then 29 else 28; 31; 30; 31; 30; 31; 31; 30; 31; 30; 31].

Fixpoint total (l : list Z) : Z := match l with [] => 0 | n :: l => n + total l end.

Definition days_before_month (leap : bool) (month : Z) : Z :=
  total (take (Z.to_nat (month - 1)) (month_lengths leap)).

(** The number of a date; a day past the end of its month runs into the next one, as
    in [time.Date]. *)
Definition days_of_date (y m d : Z) : Z := days_before_year y + days_before_month (is_leap y) m + (d - 1).

Fixpoint find_month (lengths : list Z) (m yday : Z) : Z * Z :=
  match lengths with
  | [] => (m, yday + 1)
  | n :: lengths => if yday <? n then (m, yday + 1) else find_month lengths (m + 1) (yday - n)
  end.

(** The year a day falls in, and its index in that year. *)
Definition year_of (n : Z) : Z * Z :=
  let q400 := n / 146097 in
  let r := n mod 146097 in
  let c := Z.min 3 (r / 36524) in
  let r := r - 36524 * c in
  let q4 := r / 1461 in
  let r := r mod 1461 in
  let y := Z.min 3 (r / 365) in
  (400 * q400 + 100 * c + 4 * q4 + y + 1, r - 365 * y).

Definition date_of (n : Z) : Z * Z * Z :=
  let '(y, yday) := year_of n in
  let '(m, d) := find_month (month_lengths (is_leap y)) 1 yday in
  (y, m, d).

(** ** Accessors of [time.Time] *)

Definition Year (t : time) : Z := (date_of (t / Day)).1.1.
Definition Month (t : time) : Z := (date_of (t / Day)).1.2.
Definition DayOfMonth (t : time) : Z := (date_of (t / Day)).2.
Definition Weekday (t : time) : Z := (t / Day + 1) mod 7.
Definition HourOf (t : time) : Z := (t mod Day) / Hour.
Definition MinuteOf (t : time) : Z := (t mod Hour) / Minute.

(** [t.Truncate(time.Minute)], which rounds towards the zero time. *)
Definition Truncate_Minute (t : time) : time := t - t mod Minute.

(** [time.Date(y, m, d, 0, 0, 0, 0, time.UTC)] *)
Definition midnight (y m d : Z) : time := days_of_date y m d * Day.

(** [t.AddDate(years, 0, 0)] *)
Definition AddYears (t : time) (years : Z) : time :=
  midnight (Year t + years) (Month t) (DayOfMonth t) + t mod Day.

(** ** Years *)

(** The years before year [400 q + 100 c + 4 b + a + 1], in closed form. *)
Lemma days_before_year_digits q c b a :
  0 <= c <= 3 → 0 <= b <= 24 → 0 <= a <= 3 →
  days_before_year (400 * q + 100 * c + 4 * b + a + 1) = 146097 * q + 36524 * c + 1461 * b + 365 * a.
Proof.
  intros Hc Hb Ha. unfold days_before_year. set (p := 400 * q + 100 * c + 4 * b + a + 1 - 1).
  assert (p / 4 = 100 * q + 25 * c + b) as -> by (symmetry; apply (Z.div_unique _ _ _ a); unfold p; lia).
  assert (p / 100 = 4 * q + c) as -> by (symmetry; apply (Z.div_unique _ _ _ (4 * b + a)); unfold p; lia).
  assert (p / 400 = q) as -> by (symmetry; apply (Z.div_unique _ _ _ (100 * c + 4 * b + a)); unfold p; lia).
  unfold p. lia.
Qed.

Lemma is_leap_digits q c b a :
  0 <= c <= 3 → 0 <= b <= 24 → 0 <= a <= 3 →
  is_leap (400 * q + 100 * c + 4 * b + a + 1) = (a =? 3) && (negb (b =? 24) || (c =? 3)).
Proof.
  intros Hc Hb Ha. unfold is_leap. set (y := 400 * q + 100 * c + 4 * b + a + 1).
  assert (y mod 4 = if a =? 3 then 0 else a + 1) as ->.
  { destruct (Z.eqb_spec a 3); symmetry; [apply (Z.mod_unique y 4 (100 * q + 25 * c + b + 1))|
      apply (Z.mod_unique y 4 (100 * q + 25 * c + b))]; unfold y; lia. }
  assert (y mod 100 = if (a =? 3) && (b =? 24) then 0 else 4 * b + a + 1) as ->.
  { destruct (Z.eqb_spec a 3), (Z.eqb_spec b 24); cbn [andb]; symmetry;
      [apply (Z.mod_unique y 100 (4 * q + c + 1))|apply (Z.mod_unique y 100 (4 * q + c))..]; unfold y; lia. }
  destruct (Z.eqb_spec a 3) as [->|Ha3]; cbn [andb]; [|by rewrite (proj2 (Z.eqb_neq (a + 1) 0)) by lia].
  destruct (Z.eqb_spec b 24) as [->|Hb24]; cbn [andb negb orb];
    [|by rewrite (proj2 (Z.eqb_neq (4 * b + 3 + 1) 0)) by lia].
  assert (y mod 400 = if c =? 3 then 0 else 100 * c + 100) as ->.
  { destruct (Z.eqb_spec c 3) as [->|]; symmetry;
      [apply (Z.mod_unique y 400 (q + 1))|apply (Z.mod_unique y 400 q)]; unfold y; lia. }
  destruct (Z.eqb_spec c 3) as [->|Hc3]; [done|]. by rewrite (proj2 (Z.eqb_neq (100 * c + 100) 0)) by lia.
Qed.

Definition year_days (y : Z) : Z := if is_leap y then 366 else 365.

(** Every day lies in the year [year_of] says. *)
Lemma year_of_spec n :
  let '(y, yday) := year_of n in days_before_year y + yday = n ∧ 0 <= yday < year_days y.
Proof.
  unfold year_of. set (q := n / 146097). set (r := n mod 146097).
  assert (n = 146097 * q + r ∧ 0 <= r < 146097) as [Hn Hr]
    by (split; [apply Z.div_mod|apply Z.mod_pos_bound]; lia).
  set (c := Z.min 3 (r / 36524)). set (r2 := r - 36524 * c).
  assert (0 <= c <= 3 ∧ 0 <= r2 ∧ (r2 < 36524 ∨ c = 3 ∧ r2 < 36525)) as (Hc & Hr2 & Hr2').
  { pose proof (Z.div_mod r 36524 ltac:(lia)). pose proof (Z.mod_pos_bound r 36524 ltac:(lia)).
    unfold r2, c. lia. }
  set (b := r2 / 1461). set (r3 := r2 mod 1461).
  assert (r2 = 1461 * b + r3 ∧ 0 <= r3 < 1461) as [Hb Hr3]
    by (split; [apply Z.div_mod|apply Z.mod_pos_bound]; lia).
  set (a := Z.min 3 (r3 / 365)).
  assert (0 <= a <= 3 ∧ 0 <= r3 - 365 * a ∧ (r3 - 365 * a < 365 ∨ a = 3 ∧ r3 - 365 * a < 366)) as (Ha & Hy & Hy').
  { pose proof (Z.div_mod r3 365 ltac:(lia)). pose proof (Z.mod_pos_bound r3 365 ltac:(lia)). unfold a. lia. }
  assert (0 <= b <= 24) as Hb' by lia.
  rewrite days_before_year_digits by done. unfold year_days. rewrite is_leap_digits by done.
  split; [lia|]. destruct (Z.eqb_spec a 3), (Z.eqb_spec b 24), (Z.eqb_spec c 3); cbn [andb orb negb]; lia.
Qed.

Lemma days_before_next_year y : days_before_year (y + 1) = days_before_year y + year_days y.
Proof.
  pose proof (Z.div_mod (y - 1) 400 ltac:(lia)) as H. pose proof (Z.mod_pos_bound (y - 1) 400 ltac:(lia)) as Hm.
  set (q := (y - 1) / 400) in *. set (m := (y - 1) mod 400) in *.
  pose proof (Z.div_mod m 100 ltac:(lia)). pose proof (Z.mod_pos_bound m 100 ltac:(lia)).
  set (c := m / 100) in *. set (m1 := m mod 100) in *.
  pose proof (Z.div_mod m1 4 ltac:(lia)). pose proof (Z.mod_pos_bound m1 4 ltac:(lia)).
  set (b := m1 / 4) in *. set (a := m1 mod 4) in *.
  assert (0 <= c <= 3) as Hc by lia. assert (0 <= b <= 24) as Hb by lia. assert (0 <= a <= 3) as Ha by lia.
  replace y with (400 * q + 100 * c + 4 * b + a + 1) by lia. unfold year_days.
  rewrite (is_leap_digits q c b a), (days_before_year_digits q c b a) by done.
  destruct (Z.eqb_spec a 3) as [->|Hne].
  - destruct (Z.eqb_spec b 24) as [->|Hb24]; [destruct (Z.eqb_spec c 3) as [->|Hc3]|]; cbn [andb orb negb].
    + replace (400 * q + 100 * 3 + 4 * 24 + 3 + 1 + 1) with (400 * (q + 1) + 100 * 0 + 4 * 0 + 0 + 1) by lia.
      rewrite days_before_year_digits by lia. lia.
    + replace (400 * q + 100 * c + 4 * 24 + 3 + 1 + 1) with (400 * q + 100 * (c + 1) + 4 * 0 + 0 + 1) by lia.
      rewrite days_before_year_digits by lia. lia.
    + replace (400 * q + 100 * c + 4 * b + 3 + 1 + 1) with (400 * q + 100 * c + 4 * (b + 1) + 0 + 1) by lia.
      rewrite days_before_year_digits by lia. lia.
  - cbn [andb]. replace (400 * q + 100 * c + 4 * b + a + 1 + 1) with (400 * q + 100 * c + 4 * b + (a + 1) + 1) by lia.
    rewrite days_before_year_digits by lia. lia.
Qed.

Lemma days_before_year_mono y z : y <= z → days_before_year y <= days_before_year z.
Proof.
  intros H. replace z with (y + Z.of_nat (Z.to_nat (z - y))) by lia.
  induction (Z.to_nat (z - y)) as [|k IH]; [by rewrite Z.add_0_r|].
  rewrite Nat2Z.inj_succ, <-Z.add_1_r, Z.add_assoc, days_before_next_year.
  unfold year_days. destruct (is_leap _); lia.
Qed.

(** ** Months *)

Lemma find_month_spec lengths m yday :
  0 <= yday < total lengths → Forall (λ n, 0 < n) lengths →
  let '(m', d) := find_month lengths m yday in
  ∃ k, m' = m + Z.of_nat k ∧ (k < length lengths)%nat ∧ yday = total (take k lengths) + (d - 1) ∧
    1 <= d ∧ ∃ n, lengths !! k = Some n ∧ d <= n.
Proof.
  revert m yday. induction lengths as [|n lengths IH]; intros m yday Hy Hpos; cbn [find_month total] in *; [lia|].
  apply Forall_cons in Hpos as [Hn Hpos]. destruct (Z.ltb_spec yday n).
  - exists O. cbn. split_and!; try lia. exists n. split; [done|lia].
  - specialize (IH (m + 1) (yday - n) ltac:(lia) Hpos).
    destruct (find_month lengths (m + 1) (yday - n)) as [m' d]. destruct IH as (k & -> & Hk & Heq & Hd & x & Hx & Hdx).
    exists (S k). cbn. split_and!; try lia. by exists x.
Qed.

Lemma month_lengths_total leap : total (month_lengths leap) = if leap then 366 else 365.
Proof. by destruct leap. Qed.
Lemma month_lengths_pos leap : Forall (λ n, 0 < n) (month_lengths leap).
Proof. destruct leap; repeat constructor. Qed.

Lemma total_take_app l k n : l !! k = Some n → total (take (S k) l) = total (take k l) + n.
Proof.
  revert k. induction l as [|x l IH]; intros [|k] H; try done.
  - injection H as ->. rewrite take_0. destruct l; cbn; lia.
  - specialize (IH k H). change (take (S (S k)) (x :: l)) with (x :: take (S k) l).
    change (take (S k) (x :: l)) with (x :: take k l). cbn [total]. lia.
Qed.

Lemma total_nonneg l : Forall (λ n, 0 < n) l → 0 <= total l.
Proof. induction 1; cbn; lia. Qed.

Lemma total_take_mono l j k : Forall (λ n, 0 < n) l → (j <= k)%nat → total (take j l) <= total (take k l).
Proof.
  intros Hl. revert j k. induction Hl as [|x l Hx Hl IH]; intros [|j] [|k] Hjk; cbn [take total]; try lia.
  - pose proof (total_nonneg (take k l) (Forall_take _ _ _ Hl)). lia.
  - specialize (IH j k ltac:(lia)). lia.
Qed.

(** ** Dates *)

Definition valid_date (y m d : Z) : Prop :=
  1 <= m <= 12 ∧ 1 <= d ∧ ∃ n, month_lengths (is_leap y) !! Z.to_nat (m - 1) = Some n ∧ d <= n.

(** Every day has a valid date, and counting the days of that date gives it back. *)
Lemma days_of_date_of n : let '(y, m, d) := date_of n in days_of_date y m d = n ∧ valid_date y m d.
Proof.
  unfold date_of. pose proof (year_of_spec n) as H. destruct (year_of n) as [y yday]. destruct H as [Hy Hd].
  unfold year_days in Hd. rewrite <-(month_lengths_total (is_leap y)) in Hd.
  pose proof (find_month_spec _ 1 yday Hd (month_lengths_pos _)) as H.
  destruct (find_month _ 1 yday) as [m d]. destruct H as (k & -> & Hk & Heq & Hd1 & x & Hx & Hdx).
  cbn [length month_lengths] in Hk. unfold days_of_date, days_before_month, valid_date.
  replace (Z.to_nat (1 + Z.of_nat k - 1)) with k by lia. split; [lia|]. split; [lia|]. split; [done|]. by exists x.
Qed.

Lemma valid_date_range y m d :
  valid_date y m d → 0 <= days_before_month (is_leap y) m + (d - 1) < year_days y.
Proof.
  intros (Hm & Hd & n & Hn & Hdn). unfold days_before_month, year_days.
  pose proof (total_nonneg (take (Z.to_nat (m - 1)) (month_lengths (is_leap y))) (Forall_take _ _ _ (month_lengths_pos _))).
  split; [lia|]. pose proof (total_take_app _ _ _ Hn) as Ht.
  pose proof (total_take_mono (month_lengths (is_leap y)) (S (Z.to_nat (m - 1))) 12 (month_lengths_pos _) ltac:(lia)) as H12.
  rewrite (take_ge _ 12) in H12 by done. rewrite month_lengths_total in H12. lia.
Qed.

(** Two valid dates with the same day number are the same date. *)
Lemma days_of_date_inj y m d y' m' d' :
  valid_date y m d → valid_date y' m' d' → days_of_date y m d = days_of_date y' m' d' → (y, m, d) = (y', m', d').
Proof.
  intros H H' Heq. pose proof (valid_date_range _ _ _ H). pose proof (valid_date_range _ _ _ H').
  unfold days_of_date in Heq. pose proof (days_before_next_year y). pose proof (days_before_next_year y').
  assert (y = y') as <-.
  { destruct (Z.lt_trichotomy y y') as [Hlt|[?|Hlt]]; [|done|].
    - pose proof (days_before_year_mono (y + 1) y'). lia.
    - pose proof (days_before_year_mono (y' + 1) y). lia. }
  destruct H as (Hm & Hd & n & Hn & Hdn), H' as (Hm' & Hd' & n' & Hn' & Hdn').
  unfold days_before_month in *. pose proof (total_take_app _ _ _ Hn). pose proof (total_take_app _ _ _ Hn').
  assert (m = m') as <-.
  { destruct (Z.lt_trichotomy m m') as [Hlt|[?|Hlt]]; [|done|].
    - pose proof (total_take_mono _ (S (Z.to_nat (m - 1))) (Z.to_nat (m' - 1)) (month_lengths_pos (is_leap y)) ltac:(lia)). lia.
    - pose proof (total_take_mono _ (S (Z.to_nat (m' - 1))) (Z.to_nat (m - 1)) (month_lengths_pos (is_leap y)) ltac:(lia)). lia. }
  do 2 f_equal. lia.
Qed.

Lemma date_of_days y m d : valid_date y m d → date_of (days_of_date y m d) = (y, m, d).
Proof.
  intros H. pose proof (days_of_date_of (days_of_date y m d)) as Hr.
  destruct (date_of (days_of_date y m d)) as [[y' m'] d']. destruct Hr as [Heq Hv]. by apply days_of_date_inj.
Qed.

(** ** The clock within a day *)

Lemma Minute_pos : 0 < Minute. Proof. done. Qed.
Lemma Hour_pos : 0 < Hour. Proof. done. Qed.
Lemma Day_pos : 0 < Day. Proof. done. Qed.

(** Midnight of the day after the one [t] falls in. *)
Lemma next_midnight t : midnight (Year t) (Month t) (DayOfMonth t + 1) = (t / Day + 1) * Day.
Proof.
  unfold Year, Month, DayOfMonth, midnight. pose proof (days_of_date_of (t / Day)) as H.
  destruct (date_of (t / Day)) as [[y m] d]. destruct H as [H _]. cbn [fst snd]. unfold days_of_date in *. f_equal. lia.
Qed.

Definition aligned (t : time) : Prop := t mod Minute = 0.

Lemma aligned_Truncate t : aligned (Truncate_Minute t).
Proof. unfold aligned, Truncate_Minute. rewrite Zminus_mod_idemp_r, Z.sub_diag. done. Qed.

Lemma Truncate_bounds t : Truncate_Minute t <= t < Truncate_Minute t + Minute.
Proof. unfold Truncate_Minute. pose proof (Z.mod_pos_bound t Minute Minute_pos). lia. Qed.

Lemma aligned_add t : aligned t → aligned (t + Minute).
Proof. unfold aligned. intros H. rewrite <-Zplus_mod_idemp_l, H. done. Qed.

(** Between two neighbouring minutes there is no other. *)
Lemma aligned_gap t u : aligned t → aligned u → t < u → t + Minute <= u.
Proof.
  unfold aligned. intros Ht Hu Hlt.
  pose proof (Z.div_mod t Minute ltac:(done)) as Et. pose proof (Z.div_mod u Minute ltac:(done)) as Eu.
  rewrite Ht, Z.add_0_r in Et. rewrite Hu, Z.add_0_r in Eu. rewrite Et, Eu in Hlt |- *.
  apply Z.mul_lt_mono_pos_l in Hlt; [|done]. replace (Minute * (t / Minute) + Minute) with (Minute * (t / Minute + 1)) by ring.
  apply Z.mul_le_mono_nonneg_l; [done|lia].
Qed.

Lemma aligned_midnight n : aligned (n * Day).
Proof. unfold aligned. replace (n * Day) with (n * 1440 * Minute) by (unfold Day, Hour; ring). apply Z_mod_mult. Qed.
