(* ===== verification/Cron.v ===== *)
(** * Schedules (src/control/schedule.go)

    Cron expressions: their parser, with the wrap-around of the step loop, the matching
    rules, and the search for the next run.  The two loops that are not structural
    recursions run on fuel: [field_fuel] for the values of a field and the number of
    minutes left to the limit for [Next]; both are shown to be enough. *)

From S2P Require Import Prelude Types Text Calendar.
Open Scope Z_scope.

(** ** Text *)

Definition ascii_space (n : N) : bool := ((9 <=? n) && (n <=? 13) || (n =? 32))%N.

(** How many bytes of white space start here: the ASCII characters and the UTF-8
    encodings of the others [unicode.IsSpace] knows. *)
Definition space_width (s : list N) : nat :=
  match s with
  | b :: _ => if ascii_space b then 1%nat else
      match s with
      | 194 :: (133 | 160) :: _ => 2%nat
      | 225 :: 154 :: 128 :: _ => 3%nat
      | 226 :: 128 :: c :: _ => if ((128 <=? c) && (c <=? 138) || (c =? 168) || (c =? 169) || (c =? 175))%N then 3%nat else 0%nat
      | 226 :: 129 :: 159 :: _ => 3%nat
      | 227 :: 128 :: 128 :: _ => 3%nat
      | _ => 0%nat
      end%N
  | [] => 0%nat
  end.

Fixpoint bytes_of (s : string) : list N :=
  match s with "" => [] | String c s => Ascii.N_of_ascii c :: bytes_of s end.

(** [strings.Fields]; [skip] counts the bytes of a space still to be stepped over. *)
Fixpoint fields_from (skip : nat) (word : string) (s : string) : list string :=
  let flush := if bool_decide (word = "") then [] else [word] in
  match s with
  | "" => flush
  | String c s' =>
      match skip with
      | S skip => fields_from skip word s'
      | O => match space_width (bytes_of s) with
             | S w => flush ++ fields_from w "" s'
             | O => fields_from 0 (word +:+ String c "") s'
             end
      end
  end.
Definition Fields (s : string) : list string := fields_from 0 "" s.

(** [strings.Index] of one character, with what precedes and follows it. *)
Fixpoint cut (sep : Ascii.ascii) (s : string) : option (string * string) :=
  match s with
  | "" => None
  | String c s =>
      if bool_decide (c = sep) then Some ("", s)
      else match cut sep s with Some (a, b) => Some (String c a, b) | None => None end
  end.

Fixpoint all_digits (s : string) : bool :=
  match s with "" => true | String c s => is_digit c && all_digits s end.

(** [strconv.Atoi] *)
Definition Atoi (s : string) : option Z :=
  let '(neg, digits) := match s with
                        | String c s' => if bool_decide (c = minus_sign) then (true, s')
                                         else if bool_decide (c = plus_sign) then (false, s') else (false, s)
                        | "" => (false, s)
                        end in
  if bool_decide (digits = "") || negb (all_digits digits) then None
  else let n := digits_value 0 digits in
       let v := if neg then - n else n in
       if (int_min <=? v) && (v <=? int_max) then Some v else None.

(** ** Fields of an expression *)

Definition slash : Ascii.ascii := Ascii.ascii_of_N 47.
Definition comma : Ascii.ascii := Ascii.ascii_of_N 44.

(** [for value := low; value <= high; value += step { set[value] = true }], the addition
    wrapping around. *)
Fixpoint field_values (fuel : nat) (value high step : Z) (set : gset Z) : option (gset Z) :=
  match fuel with
  | O => None
  | S fuel => if high <? value then Some set else field_values fuel (i64 (value + step)) high step ({[value]} ∪ set)
  end.
Definition field_fuel : nat := 130.

Definition sort_Ints (l : list Z) : list Z := merge_sort Z.le l.

(** The step of a part and what stands before the slash. *)
Definition field_step (part : string) : result (Z * string) :=
  match cut slash part with
  | None => Ok (1, part)
  | Some (before, after) =>
      match Atoi after with
      | Some parsed => refuse (parsed <=? 0) "invalid step in %q"; Ok (parsed, before)
      | None => Err (Errorf "invalid step in %q")
      end
  end.

Definition field_bounds (min max : Z) (part : string) : result (Z * Z) :=
  if bool_decide (part = "*") then Ok (min, max)
  else match cut minus_sign part with
       | Some (a, b) =>
           need low := Atoi a else "invalid range start in %q";
           need high := Atoi b else "invalid range end in %q";
           Ok (low, high)
       | None => need value := Atoi part else "invalid value %q"; Ok (value, value)
       end.

Definition field_part (min max : Z) (set : gset Z) (part : string) : result (gset Z) :=
  let* (step, part) := field_step part in
  let* (low, high) := field_bounds min max part in
  refuse ((low <? min) || (max <? high) || (high <? low)) "value %q is outside %d-%d";
  match field_values field_fuel low high step set with
  | Some set => Ok set
  | None => Err (Panic "out of fuel")
  end.

Definition parseCronField (field : string) (min max : Z) : result (list Z) :=
  refuse (bool_decide (field = "")) "empty field";
  let* set := for_each (field_part min max) ∅ (split_on comma field) in
  Ok (sort_Ints (elements set)).

Record CronSchedule := mkCronSchedule {
  minutes : list Z; hours : list Z; days : list Z; months : list Z; weekdays : list Z }.

Definition ParseCron (expression : string) : result CronSchedule :=
  match Fields expression with
  | [f0; f1; f2; f3; f4] =>
      let* minutes := wrap_err "cron minute: %w" (parseCronField f0 0 59) in
      let* hours := wrap_err "cron hour: %w" (parseCronField f1 0 23) in
      let* days := wrap_err "cron day of month: %w" (parseCronField f2 1 31) in
      let* months := wrap_err "cron month: %w" (parseCronField f3 1 12) in
      let* weekdays := wrap_err "cron day of week: %w" (parseCronField f4 0 6) in
      Ok (mkCronSchedule minutes hours days months weekdays)
  | _ => Err (Errorf "cron expression needs five fields (minute hour day month weekday), got %d")
  end.

(** ** Matching *)

Definition contains (values : list Z) (want : Z) : bool := existsb (λ value, value =? want) values.

Definition matchesDate (c : CronSchedule) (at_ : time) : bool :=
  if negb (contains (months c) (Month at_)) then false
  else
    let dayRestricted := negb (len (days c) =? 31) in
    let weekdayRestricted := negb (len (weekdays c) =? 7) in
    let dayMatch := contains (days c) (DayOfMonth at_) in
    let weekdayMatch := contains (weekdays c) (Weekday at_) in
    if dayRestricted && weekdayRestricted then dayMatch || weekdayMatch
    else if dayRestricted then dayMatch
    else if weekdayRestricted then weekdayMatch
    else true.

Definition Matches (c : CronSchedule) (at_ : time) : bool :=
  if negb (contains (minutes c) (MinuteOf at_)) || negb (contains (hours c) (HourOf at_)) then false
  else matchesDate c at_.

(** The search of [Next]: a day that does not match is skipped whole. *)
Fixpoint next_loop (fuel : nat) (c : CronSchedule) (limit candidate : time) : option (time * bool) :=
  match fuel with
  | O => None
  | S fuel =>
      if negb (Before candidate limit) then Some (time_zero, false)
      else if negb (matchesDate c candidate)
      then next_loop fuel c limit (midnight (Year candidate) (Month candidate) (DayOfMonth candidate + 1))
      else if Matches c candidate then Some (candidate, true)
      else next_loop fuel c limit (time_Add candidate Minute)
  end.

Definition first_candidate (after : time) : time := time_Add (Truncate_Minute after) Minute.
Definition search_limit (after : time) : time := AddYears (first_candidate after) 4.
Definition search_fuel (after : time) : nat :=
  S (S (Z.to_nat ((search_limit after - first_candidate after) / Minute))).

Definition Next (c : CronSchedule) (after : time) : time * bool :=
  default (time_zero, false) (next_loop (search_fuel after) c (search_limit after) (first_candidate after)).

Definition Due (c : CronSchedule) (now lastRun : time) : bool :=
  let now := Truncate_Minute now in
  if IsZero lastRun then Matches c now
  else let '(next, ok) := Next c lastRun in
       if negb ok then false else negb (After next now).

(** ** Schedules *)

Definition ConcurrencyForbid : string := "forbid".
Definition ConcurrencyAllow : string := "allow".
Definition ConcurrencyReplace : string := "replace".
Definition DefaultRunDeadline : duration := Hour.

Definition Schedule_Validate (s : option Schedule) : result unit :=
  match s with
  | None => Ok tt
  | Some s =>
      let* _ := ParseCron (Schedule_Cron s) in
      refuse (Schedule_Deadline s <? 0) "schedule deadline cannot be negative";
      refuse (Schedule_Completions s <? 0) "schedule completions cannot be negative";
      refuse (Schedule_Retries s <? 0) "schedule retries cannot be negative";
      refuse (negb (bool_decide (Schedule_Concurrency s ∈ [""; ConcurrencyForbid; ConcurrencyAllow; ConcurrencyReplace])))
        "unknown concurrency policy %q";
      Ok tt
  end.

Definition RunDeadline (s : option Schedule) : duration :=
  match s with
  | None => DefaultRunDeadline
  | Some s => if Schedule_Deadline s <=? 0 then DefaultRunDeadline else Schedule_Deadline s
  end.

Definition RequiredCompletions (s : option Schedule) : Z :=
  match s with
  | None => 1
  | Some s => if Schedule_Completions s <=? 0 then 1 else Schedule_Completions s
  end.

Definition ConcurrencyPolicyOrDefault (s : option Schedule) : string :=
  match s with
  | None => ConcurrencyForbid
  | Some s => if bool_decide (Schedule_Concurrency s = "") then ConcurrencyForbid else Schedule_Concurrency s
  end.

(** ** The values of a field *)

Lemma i64_wrap_up z : int_max < z <= int_max + two64 → i64 z = z - two64.
Proof.
  unfold int_max, i64, two64. intros H.
  replace (z + 9223372036854775808) with (z - 9223372036854775808 + 1 * 18446744073709551616) by lia.
  rewrite Z_mod_plus_full, Z.mod_small; lia.
Qed.

(** Below this the sum of a value and a step stays an [int]. *)
Definition tame (step : Z) : Prop := 0 < step <= int_max - 59.

(** Without wrap-around the loop collects [value], [value + step], ... up to [high]. *)
Lemma field_values_tame fuel value high step acc :
  tame step → 0 <= value → high <= 59 → Z.max 0 (high - value + 1) < Z.of_nat fuel →
  ∃ vs, field_values fuel value high step acc = Some vs ∧
    ∀ v, v ∈ vs ↔ v ∈ acc ∨ ∃ k, 0 <= k ∧ v = value + k * step ∧ v <= high.
Proof.
  unfold tame, int_max. intros Hs. revert value acc. induction fuel as [|fuel IH]; intros value acc Hv Hh Hf.
  { lia. }
  cbn [field_values]. destruct (Z.ltb_spec high value) as [Hlt|Hle].
  - exists acc. split; [done|]. intros v. split; [by left|]. intros [H|(k & Hk & -> & Hkh)]; [done|]. nia.
  - rewrite i64_id by (unfold in_int, int_min, int_max; lia).
    destruct (IH (value + step) ({[value]} ∪ acc)) as (vs & -> & Hvs); [lia..|].
    exists vs. split; [done|]. intros v. rewrite Hvs, elem_of_union, elem_of_singleton. split.
    + intros [[->|H]|(k & Hk & -> & Hkh)]; [right; exists 0; lia|by left|]. right. exists (k + 1). lia.
    + intros [H|(k & Hk & -> & Hkh)]; [by left; right|].
      destruct (decide (k = 0)) as [->|Hk0]; [left; left; lia|]. right. exists (k - 1). lia.
Qed.

(** With a step so large that it wraps, two rounds take at least 2 off the value, and a
    value that has become negative leaves the loop on the next round. *)
Lemma field_values_wild fuel value high step acc :
  int_max - 59 < step <= int_max → 0 <= value <= high → high <= 59 → 2 * value + 4 < Z.of_nat fuel →
  is_Some (field_values fuel value high step acc).
Proof.
  unfold int_max. intros Hs. revert fuel acc. induction (Z.lt_wf 0 value) as [value _ IH].
  intros fuel acc Hv Hh Hf. do 4 (destruct fuel as [|fuel]; [lia|]). cbn [field_values].
  destruct (Z.ltb_spec high value); [done|].
  destruct (Z.leb_spec (value + step) 9223372036854775807) as [Hfit|Hwrap].
  { rewrite i64_id by (unfold in_int, int_min, int_max; lia). destruct (Z.ltb_spec high (value + step)); [done|lia]. }
  rewrite i64_wrap_up by (unfold two64, int_max; lia).
  destruct (Z.ltb_spec high (value + step - two64)); [done|].
  rewrite (i64_id (value + step - two64 + step)) by (unfold in_int, int_min, int_max, two64; lia).
  destruct (Z.leb_spec 0 (value + step - two64 + step)) as [Hpos|Hneg].
  - change (is_Some (field_values (S (S fuel)) (value + step - two64 + step) high step
      ({[value + step - two64]} ∪ ({[value]} ∪ acc)))).
    apply IH; unfold two64 in *; lia.
  - destruct (Z.ltb_spec high (value + step - two64 + step)); [done|].
    rewrite (i64_id (value + step - two64 + step + step)) by (unfold in_int, int_min, int_max, two64 in *; lia).
    destruct (Z.ltb_spec high (value + step - two64 + step + step)); [done|unfold two64 in *; lia].
Qed.

Lemma Atoi_range s z : Atoi s = Some z → in_int z.
Proof.
  unfold Atoi, in_int. destruct s as [|c s]; [done|].
  destruct (bool_decide (c = minus_sign)), (bool_decide (c = plus_sign)); (destruct (_ || _); [done|]);
    (destruct (_ && _) eqn:E; [|done]); intros [= <-]; bool_simpl; done.
Qed.

Lemma field_step_pos part step part' : field_step part = Ok (step, part') → 0 < step <= int_max.
Proof.
  unfold field_step. destruct (cut slash part) as [[a b]|]; [|by intros [= <- <-]].
  destruct (Atoi b) as [p|] eqn:Ha; [|done]. destruct (Z.leb_spec p 0); [done|]. intros [= <- <-].
  apply Atoi_range in Ha. unfold in_int in Ha. lia.
Qed.

(** The loop always ends within its fuel. *)
Lemma field_values_total low high step acc :
  0 <= low <= high → high <= 59 → 0 < step <= int_max →
  is_Some (field_values field_fuel low high step acc).
Proof.
  intros Hl Hh Hs. destruct (Z.leb_spec step (int_max - 59)) as [Ht|Hw].
  - destruct (field_values_tame field_fuel low high step acc) as (vs & -> & _); [split; lia|lia|lia| |done].
    unfold field_fuel. lia.
  - apply field_values_wild; [lia|done|done|]. unfold field_fuel. lia.
Qed.

(** ** Parsing *)

(** Did a computation stop for lack of fuel? *)
Fixpoint ran_out (e : error) : bool :=
  match e with Panic _ => true | Wrapf _ e => ran_out e | _ => false end.
Definition finishes {A} (r : result A) : Prop := match r with Ok _ => True | Err e => ran_out e = false end.

Lemma finishes_bind {A B} (m : result A) (k : A → result B) :
  finishes m → (∀ a, m = Ok a → finishes (k a)) → finishes (rbind m k).
Proof. destruct m as [a|e]; cbn; auto. Qed.

Lemma finishes_wrap {A} format (m : result A) : finishes m → finishes (wrap_err format m).
Proof. by destruct m. Qed.

Lemma field_step_finishes part : finishes (field_step part).
Proof. unfold field_step. destruct (cut _ _) as [[? ?]|]; [|done]. destruct (Atoi _); [|done]. by destruct (_ <=? _). Qed.

Lemma field_bounds_finishes min max part : finishes (field_bounds min max part).
Proof.
  unfold field_bounds. case_bool_decide; [done|]. destruct (cut _ _) as [[? ?]|]; [|by destruct (Atoi _)].
  destruct (Atoi _); [|done]. by destruct (Atoi _).
Qed.

Lemma for_each_finishes {A S} (f : S → A → result S) s l :
  (∀ s x, finishes (f s x)) → finishes (for_each f s l).
Proof.
  intros H. revert s. induction l as [|x l IH]; intros s; [done|]. apply finishes_bind; [done|]. intros s' _. apply IH.
Qed.

Lemma field_part_finishes min max acc part : 0 <= min → max <= 59 → finishes (field_part min max acc part).
Proof.
  intros Hmin Hmax. unfold field_part. apply finishes_bind; [apply field_step_finishes|]. intros [step before] Hs.
  apply finishes_bind; [apply field_bounds_finishes|]. intros [low high] _.
  destruct ((low <? min) || (max <? high) || (high <? low)) eqn:E; [done|]. bool_simpl.
  apply field_step_pos in Hs. destruct (field_values_total low high step acc) as [vs ->]; [lia|lia|lia|done].
Qed.

Lemma parseCronField_finishes field min max : 0 <= min → max <= 59 → finishes (parseCronField field min max).
Proof.
  intros Hmin Hmax. unfold parseCronField. case_bool_decide; [done|]. apply finishes_bind; [|done].
  apply for_each_finishes. intros s part. by apply field_part_finishes.
Qed.

(** C39: parsing a cron expression terminates, whatever the text: no field makes the loop
    that collects its values run on, not even a step large enough to wrap around. *)
Theorem cron_parse_terminates expression : finishes (ParseCron expression).
Proof.
  unfold ParseCron. destruct (Fields expression) as [|f0 [|f1 [|f2 [|f3 [|f4 [|f5 l]]]]]]; try done.
  repeat (apply finishes_bind; [apply finishes_wrap, parseCronField_finishes; lia|]; intros ? _). done.
Qed.

(** What one part of a field stands for. *)
Definition part_denotes (min max : Z) (part : string) (v : Z) : Prop :=
  ∃ step before low high, field_step part = Ok (step, before) ∧ field_bounds min max before = Ok (low, high) ∧
    ∃ k, 0 <= k ∧ v = low + k * step ∧ v <= high.

Definition tame_part (part : string) : Prop :=
  ∀ step before, field_step part = Ok (step, before) → tame step.

Lemma field_part_spec min max acc part acc' :
  0 <= min → max <= 59 → tame_part part → field_part min max acc part = Ok acc' →
  ∀ v, (v ∈ acc' ↔ v ∈ acc ∨ part_denotes min max part v) ∧ (part_denotes min max part v → min <= v <= max).
Proof.
  intros Hmin Hmax Ht. unfold field_part. destruct (field_step part) as [[step before]|] eqn:Hs; [cbn [rbind]|done].
  destruct (field_bounds min max before) as [[low high]|] eqn:Hb; [cbn [rbind]|done].
  destruct (_ || _) eqn:E; [done|]. bool_simpl. specialize (Ht _ _ Hs).
  destruct (field_values_tame field_fuel low high step acc) as (vs & Hvs & Hin);
    [done|lia|lia|unfold field_fuel; lia|]. rewrite Hvs. intros [= <-] v. rewrite Hin.
  assert (part_denotes min max part v ↔ ∃ k, 0 <= k ∧ v = low + k * step ∧ v <= high) as Hd.
  { unfold part_denotes. split.
    - intros (st & b & l & h & Hs' & Hb' & Hk). rewrite Hs in Hs'. injection Hs' as <- <-. rewrite Hb in Hb'. injection Hb' as <- <-. done.
    - intros Hk. exists step, before, low, high. done. }
  rewrite Hd. split; [done|]. intros (k & Hk & -> & Hkh). unfold tame in Ht. nia.
Qed.

Lemma field_parts_spec min max acc parts acc' :
  0 <= min → max <= 59 → (∀ part, part ∈ parts → tame_part part) → for_each (field_part min max) acc parts = Ok acc' →
  ∀ v, (v ∈ acc' ↔ v ∈ acc ∨ ∃ part, part ∈ parts ∧ part_denotes min max part v) ∧
    ((∃ part, part ∈ parts ∧ part_denotes min max part v) → min <= v <= max).
Proof.
  intros Hmin Hmax. revert acc. induction parts as [|part parts IH]; intros acc Ht H v; cbn [for_each] in H.
  { injection H as <-. set_solver. }
  destruct (field_part min max acc part) as [acc1|] eqn:H1; [cbn [rbind] in H|done].
  destruct (field_part_spec min max acc part acc1 Hmin Hmax (Ht part (list_elem_of_here _ _)) H1 v) as [Hp Hr].
  destruct (IH acc1) with (v := v) as [Hps Hrs]; [intros p Hp'; apply Ht; by right|done|].
  rewrite Hps, Hp. setoid_rewrite elem_of_cons. split; naive_solver.
Qed.

Lemma strongly_sorted_lt (l : list Z) : StronglySorted Z.le l → NoDup l → StronglySorted Z.lt l.
Proof.
  induction 1 as [|x l Hs IH Hx]; intros Hnd; [constructor|]. apply NoDup_cons in Hnd as [Hnx Hnd].
  constructor; [auto|]. rewrite Forall_forall in *. intros y Hy. specialize (Hx y Hy).
  assert (x ≠ y) by (intros ->; done). lia.
Qed.

(** A parsed field lists, in increasing order and once each, exactly the values its
    parts stand for, all of them inside the field's bounds, unless a step is so large
    that adding it wraps around. *)
Theorem cron_field_values field min max vs
    (Hmin : 0 <= min) (Hmax : max <= 59) (Htame : ∀ part, part ∈ split_on comma field → tame_part part)
    (Hp : parseCronField field min max = Ok vs) :
  StronglySorted Z.lt vs ∧ Forall (λ v, min <= v <= max) vs ∧
  ∀ v, v ∈ vs ↔ ∃ part, part ∈ split_on comma field ∧ part_denotes min max part v.
Proof.
  unfold parseCronField in Hp. case_bool_decide; [done|].
  destruct (for_each _ _ _) as [acc|] eqn:Hf; [cbn [rbind] in Hp|done]. injection Hp as <-.
  assert (∀ v, v ∈ sort_Ints (elements acc) ↔ v ∈ acc) as Hin.
  { intros v. unfold sort_Ints. by rewrite merge_sort_Permutation, elem_of_elements. }
  pose proof (field_parts_spec min max ∅ _ acc Hmin Hmax Htame Hf) as Hspec. split; [|split].
  - apply strongly_sorted_lt; [apply (StronglySorted_merge_sort Z.le)|].
    unfold sort_Ints. rewrite merge_sort_Permutation. apply NoDup_elements.
  - apply Forall_forall. intros v Hv%Hin. destruct (Hspec v) as [Hv' Hr]. apply Hr. set_solver.
  - intros v. rewrite Hin. destruct (Hspec v) as [-> _]. set_solver.
Qed.

(** ** The search for the next run *)

Lemma matchesDate_same_day c t u : t / Day = u / Day → matchesDate c t = matchesDate c u.
Proof. unfold matchesDate, Month, DayOfMonth, Weekday. by intros ->. Qed.

Lemma Matches_date c t : Matches c t = true → matchesDate c t = true.
Proof. unfold Matches. by destruct (_ || _). Qed.

Lemma next_day_after t : aligned t → t + Minute <= (t / Day + 1) * Day.
Proof.
  intros Ht. apply aligned_gap; [done|apply aligned_midnight|].
  pose proof (Z.div_mod t Day ltac:(done)). pose proof (Z.mod_pos_bound t Day Day_pos). lia.
Qed.

Lemma same_day_before t u : t <= u → u < (t / Day + 1) * Day → u / Day = t / Day.
Proof.
  intros Htu Hu. apply Z.le_antisymm.
  - apply Z.lt_succ_r. apply Z.div_lt_upper_bound; [done|]. lia.
  - by apply Z.div_le_mono.
Qed.

(** No run of the schedule between two instants. *)
Definition idle (c : CronSchedule) (from until : time) : Prop :=
  ∀ u, aligned u → from <= u < until → Matches c u = false.

Lemma idle_minute c t : aligned t → Matches c t = false → idle c t (t + Minute).
Proof.
  intros Ht Hm u Hu Hr. destruct (decide (u = t)) as [->|Hne]; [done|].
  pose proof (aligned_gap t u Ht Hu). lia.
Qed.

Lemma idle_day c t : matchesDate c t = false → idle c t ((t / Day + 1) * Day).
Proof.
  intros Hm u _ [Hu1 Hu2]. destruct (Matches c u) eqn:E; [|done].
  apply Matches_date in E. by rewrite (matchesDate_same_day c u t), Hm in E by (by apply same_day_before).
Qed.

Lemma idle_trans c t u v : idle c t u → idle c u v → idle c t v.
Proof. intros H1 H2 x Hx Hr. destruct (Z.lt_ge_cases x u); [apply H1|apply H2]; done || lia. Qed.

(** What the search answers, from a given candidate. *)
Definition search_answer (c : CronSchedule) (from limit : time) (r : time * bool) : Prop :=
  if r.2 then aligned r.1 ∧ from <= r.1 < limit ∧ Matches c r.1 = true ∧ idle c from r.1
  else r.1 = time_zero ∧ idle c from limit.

Lemma search_later c from next limit r :
  from <= next → idle c from next → search_answer c next limit r → search_answer c from limit r.
Proof.
  unfold search_answer. intros Hle Hi. destruct r as [t [|]]; cbn.
  - intros (Ha & Hr & Hm & Hi'). split_and!; [done|lia|lia|done|by eapply idle_trans].
  - intros [-> Hi']. split; [done|by eapply idle_trans].
Qed.

Lemma next_loop_spec fuel c limit candidate :
  aligned candidate → (1 <= fuel)%nat → limit - candidate <= (Z.of_nat fuel - 1) * Minute →
  ∃ r, next_loop fuel c limit candidate = Some r ∧ search_answer c candidate limit r.
Proof.
  revert candidate. induction fuel as [|fuel IH]; intros candidate Ha Hf Hl; [lia|]. cbn [next_loop].
  unfold Before. destruct (Z.ltb_spec candidate limit) as [Hlt|Hge]; cbn [negb].
  2:{ exists (time_zero, false). split; [done|]. split; [done|]. intros u _ Hu. lia. }
  pose proof Minute_pos.
  assert ((1 <= fuel)%nat) as Hf'. { destruct fuel; [|lia]. cbn in Hl. lia. }
  destruct (matchesDate c candidate) eqn:Hd; cbn [negb].
  - destruct (Matches c candidate) eqn:Hm.
    + exists (candidate, true). split; [done|]. split_and!; cbn; [done|lia|lia|done|]. intros u _ Hu. lia.
    + destruct (IH (time_Add candidate Minute)) as (r & Hr & Hans); [by apply aligned_add|done|unfold time_Add; lia|].
      exists r. split; [done|]. eapply search_later, Hans; [unfold time_Add; lia|by apply idle_minute].
  - rewrite next_midnight. pose proof (next_day_after candidate Ha).
    destruct (IH ((candidate / Day + 1) * Day)) as (r & Hr & Hans); [apply aligned_midnight|done|lia|].
    exists r. split; [done|]. eapply search_later, Hans; [lia|by apply idle_day].
Qed.

Lemma search_fuel_enough after :
  search_limit after - first_candidate after <= (Z.of_nat (search_fuel after) - 1) * Minute.
Proof.
  unfold search_fuel. set (x := search_limit after - first_candidate after).
  pose proof (Z.div_mod x Minute ltac:(done)) as Hx. pose proof (Z.mod_pos_bound x Minute Minute_pos) as Hm.
  assert (x / Minute * Minute <= Z.of_nat (Z.to_nat (x / Minute)) * Minute) as H
    by (apply Z.mul_le_mono_nonneg_r; [done|lia]).
  rewrite !Nat2Z.inj_succ. lia.
Qed.

Lemma Next_answer c after : search_answer c (first_candidate after) (search_limit after) (Next c after).
Proof.
  destruct (next_loop_spec (search_fuel after) c (search_limit after) (first_candidate after)) as (r & Hr & Hans).
  - apply aligned_add, aligned_Truncate.
  - unfold search_fuel. lia.
  - apply search_fuel_enough.
  - unfold Next. rewrite Hr. exact Hans.
Qed.

Lemma first_candidate_least after u : aligned u → after < u ↔ first_candidate after <= u.
Proof.
  intros Hu. unfold first_candidate, time_Add. pose proof (Truncate_bounds after). split; [|lia].
  intros H'. apply aligned_gap; [apply aligned_Truncate|done|lia].
Qed.

(** The limit lies four years ahead. *)
Lemma search_limit_far after : first_candidate after + 1460 * Day <= search_limit after.
Proof.
  unfold search_limit, AddYears, midnight, Year, Month, DayOfMonth. set (t := first_candidate after).
  pose proof (days_of_date_of (t / Day)) as H. destruct (date_of (t / Day)) as [[y m] d]. destruct H as [H Hv].
  cbn [fst snd]. pose proof (Z.div_mod t Day ltac:(done)) as Ht.
  enough (t / Day + 1460 <= days_of_date (y + 4) m d) as Hd.
  { pose proof (Z.mul_le_mono_nonneg_r _ _ Day (Z.lt_le_incl _ _ Day_pos) Hd). lia. }
  rewrite <-H. unfold days_of_date.
  replace (y + 4) with (y + 1 + 1 + 1 + 1) by lia. rewrite !days_before_next_year.
  assert (0 <= days_before_month true m - days_before_month false m <= 1) as Hm.
  { unfold days_before_month. destruct (Z.to_nat (m - 1)) as [|[|[|[|[|[|[|[|[|[|[|[|k]]]]]]]]]]]]; cbn; lia. }
  unfold year_days. destruct (is_leap y), (is_leap (y + 1)), (is_leap (y + 1 + 1)), (is_leap (y + 1 + 1 + 1)),
    (is_leap (y + 1 + 1 + 1 + 1)); lia.
Qed.

(** The search for the next run finds the earliest one.  When [Next] names a time it is
    a full minute strictly after the given one that matches, and nothing in between
    does; when it gives up, nothing matches for at least 1460 days. *)
Theorem cron_next_earliest c after :
  match Next c after with
  | (t, true) => after < t ∧ aligned t ∧ Matches c t = true ∧ ∀ u, aligned u → after < u < t → Matches c u = false
  | (t, false) => t = time_zero ∧ ∀ u, aligned u → after < u < after + 1460 * Day → Matches c u = false
  end.
Proof.
  pose proof (Next_answer c after) as H. unfold search_answer in H. destruct (Next c after) as [t [|]]; cbn in H.
  - destruct H as (Ha & Hr & Hm & Hi). split; [apply first_candidate_least; [done|lia]|]. split; [done|]. split; [done|].
    intros u Hu [Hu1 Hu2]. apply Hi; [done|]. split; [apply first_candidate_least; [done|lia]|done].
  - destruct H as [-> Hi]. split; [done|]. intros u Hu [Hu1 Hu2]. apply Hi; [done|].
    split; [apply first_candidate_least; [done|lia]|]. pose proof (search_limit_far after).
    unfold first_candidate, time_Add in *. pose proof (Truncate_bounds after). lia.
Qed.

(** A run is due exactly when a matching minute lies after the last run and not after
    now, as long as the last run is less than four years old; before any run, exactly
    when the current minute matches. *)
Theorem cron_due_exact c now lastRun (Hrecent : now < lastRun + 1460 * Day) :
  Due c now lastRun = true ↔
  if IsZero lastRun then Matches c (Truncate_Minute now) = true
  else ∃ u, aligned u ∧ lastRun < u ∧ u <= now ∧ Matches c u = true.
Proof.
  unfold Due. destruct (IsZero lastRun); [done|]. pose proof (Next_answer c lastRun) as H.
  unfold search_answer in H. pose proof (Truncate_bounds now) as Hb.
  destruct (Next c lastRun) as [t [|]]; cbn [fst snd negb] in *.
  - destruct H as (Ha & Hr & Hm & Hi). unfold After. destruct (Z.ltb_spec (Truncate_Minute now) t) as [Hlt|Hge]; cbn.
    + split; [done|]. intros (u & Hu & Hl & Hn & Hmu). exfalso. rewrite Hi in Hmu; [done|done|].
      split; [apply first_candidate_least; [done|lia]|].
      pose proof (aligned_gap _ _ (aligned_Truncate now) Ha Hlt). lia.
    + split; [|done]. intros _. exists t. split; [done|]. split; [apply first_candidate_least; [done|lia]|]. split; [lia|done].
  - destruct H as [_ Hi]. split; [done|]. intros (u & Hu & Hl & Hn & Hmu). rewrite Hi in Hmu; [done|done|].
    split; [apply first_candidate_least; [done|lia]|]. pose proof (search_limit_far lastRun).
    unfold first_candidate, time_Add in *. pose proof (Truncate_bounds lastRun). lia.
Qed.

(** ** Schedules at work *)

Module CronSample.
Definition parsed (expression : string) : CronSchedule :=
  match ParseCron expression with Ok c => c | Err _ => mkCronSchedule [] [] [] [] [] end.
Definition nightly : CronSchedule := Eval vm_compute in parsed "0 3 * * *".
Definition leap_day : CronSchedule := Eval vm_compute in parsed "0 0 29 2 *".

Lemma cron_field_values_witness :
  parseCronField "1-5,30/10" 0 59 = Ok [1; 2; 3; 4; 5; 30] ∧ StronglySorted Z.lt [1; 2; 3; 4; 5; 30].
Proof.
  split; [vm_compute; reflexivity|].
  refine (proj1 (cron_field_values "1-5,30/10" 0 59 [1; 2; 3; 4; 5; 30] _ _ _ _)); [lia|lia| |vm_compute; reflexivity].
  change (split_on comma "1-5,30/10") with ["1-5"; "30/10"].
  intros part [->|[->|[]%not_elem_of_nil]%elem_of_cons]%elem_of_cons step before.
  - change (field_step "1-5") with (Ok (1, "1-5")). intros [= <- <-]. split; reflexivity || discriminate.
  - change (field_step "30/10") with (Ok (10, "30")). intros [= <- <-]. split; reflexivity || discriminate.
Defined.

Lemma cron_due_exact_witness :
  ∃ u, aligned u ∧ midnight 2024 1 1 + 3 * Hour < u ∧ u <= midnight 2024 1 2 + 4 * Hour ∧ Matches nightly u = true.
Proof.
  refine (proj1 (cron_due_exact nightly (midnight 2024 1 2 + 4 * Hour) (midnight 2024 1 1 + 3 * Hour) _) _);
    vm_compute; reflexivity.
Defined.

(** A step near the top of the [int] range makes a field stand for values that were
    never written: [5/9223372036854775807] also runs in minutes 1 and 3. *)
Theorem cron_step_wraps :
  ∃ vs, parseCronField "5/9223372036854775807" 0 59 = Ok vs ∧ 1 ∈ vs ∧ 3 ∈ vs ∧ -1 ∈ vs.
Proof. eexists. split; [vm_compute; reflexivity|]. set_solver. Qed.

(** A leap-day schedule whose last run was on 29 February 2096 is never due again: the
    next such day is eight years away, the search stops after four, and the last run
    it starts from does not move. *)
Theorem leap_day_schedule_dies now :
  Matches leap_day (midnight 2104 2 29) = true ∧ Due leap_day now (midnight 2096 2 29) = false.
Proof.
  split; [vm_compute; reflexivity|]. unfold Due.
  assert (Next leap_day (midnight 2096 2 29) = (time_zero, false)) as -> by (vm_compute; reflexivity).
  assert (IsZero (midnight 2096 2 29) = false) as -> by (vm_compute; reflexivity). done.
Qed.
End CronSample.
