(* ===== verification/Directory.v ===== *)
(** * Service discovery (src/control/directory.go, resolve.go)

    Which instances serve a workload, derived from readiness evidence alone; what a
    caller on a given node dials to reach them; and the zone of names a node's
    resolver is given.  Names are ASCII text. *)

From S2P Require Import Prelude Types Text Executor.
Open Scope Z_scope.

Record Endpoint := mkEndpoint {
  Endpoint_Allocation : string; Endpoint_Node : string; Endpoint_Address : string; Endpoint_Port : Z }.
#[export] Instance Endpoint_eq_dec : EqDecision Endpoint. Proof. solve_decision. Defined.

Definition Endpoint_HostPort (e : Endpoint) : string := JoinHostPort (Endpoint_Address e) (Sprint (Endpoint_Port e)).

Record Service := mkService { Service_Name : string; Service_Endpoints : list Endpoint }.

(** [services[name]] of an absent service. *)
Definition no_service : Service := mkService "" [].

(** [sort.Slice] by allocation. *)
Definition by_allocation (a b : Endpoint) : Prop := string_le (Endpoint_Allocation a) (Endpoint_Allocation b).
#[export] Instance by_allocation_dec : RelDecision by_allocation.
Proof. intros a b. unfold by_allocation. apply _. Defined.
Definition sort_endpoints : list Endpoint → list Endpoint := merge_sort by_allocation.

Section Directory.
Context {clock : WallClock}.

(** The endpoint an allocation contributes, if it is measured as serving. *)
Definition serving (now : time) (ports : gmap string Z) (a : Allocation) : option Endpoint :=
  if negb (ReadyAt a now) then None
  else if bool_decide (Alloc_Address a = "") then None
  else match ports !! Alloc_Workload a with
       | None => None
       | Some port =>
           if port <=? 0 then None
           else Some (mkEndpoint (Alloc_ID a) (Alloc_Node a) (Alloc_Address a) port)
       end.

Definition add_endpoint (services : gmap string Service) (name : string) (e : Endpoint) : gmap string Service :=
  <[name := mkService name (Service_Endpoints (default no_service (services !! name)) ++ [e])]> services.

Definition collect_endpoints (now : time) (ports : gmap string Z) (services : gmap string Service)
    (allocations : list Allocation) : gmap string Service :=
  foldl (λ services a, match serving now ports a with
                       | Some e => add_endpoint services (Alloc_Workload a) e
                       | None => services
                       end) services allocations.

Definition BuildDirectory (w : World) (ports : gmap string Z) : gmap string Service :=
  (λ s, mkService (Service_Name s) (sort_endpoints (Service_Endpoints s))) <$>
    collect_endpoints (Now w) ports ∅ (values (Allocations w)).

(** [directory[name].Endpoints] *)
Definition endpoints_of (directory : gmap string Service) (name : string) : list Endpoint :=
  Service_Endpoints (default no_service (directory !! name)).

(** [WorkloadPorts] *)
Definition WorkloadPorts (goals : list Goal) : gmap string Z :=
  foldl (λ ports g, if 0 <? Workload_Port (Goal_Workload g)
                    then <[Workload_Name (Goal_Workload g) := Workload_Port (Goal_Workload g)]> ports else ports) ∅ goals.

Definition StaleAfter (w : World) (ports : gmap string Z) (at_ : time) : list string :=
  let live := BuildDirectory (w <| ObservedAt := at_ |>) ports in
  sort_Strings (Route_Host <$> filter (λ r, endpoints_of live (Route_Workload r) = []) (values (Routes w))).

(** ** resolve.go *)

Definition ServiceDomain : string := "a4s.internal".
Definition ServiceName (workload : string) : string := workload +:+ "." +:+ ServiceDomain.

(** [strings.TrimSpace], [strings.ToLower], [strings.HasSuffix] and [strings.TrimSuffix]
    on ASCII text. *)
Definition is_space (c : Ascii.ascii) : bool := is_blank c || bool_decide (c = newline).
Fixpoint trim_left (s : string) : string :=
  match s with String c s' => if is_space c then trim_left s' else s | "" => "" end.
Fixpoint trim_right (s : string) : string :=
  match s with
  | "" => ""
  | String c s => match trim_right s with "" => if is_space c then "" else String c "" | s => String c s end
  end.
Definition TrimSpace (s : string) : string := trim_right (trim_left s).

Definition to_lower (c : Ascii.ascii) : Ascii.ascii :=
  let n := Ascii.N_of_ascii c in
  if ((65 <=? n) && (n <=? 90))%N then Ascii.ascii_of_N (n + 32) else c.
Fixpoint ToLower (s : string) : string :=
  match s with "" => "" | String c s => String (to_lower c) (ToLower s) end.

Fixpoint drop_string (n : nat) (s : string) : string :=
  match n, s with S n, String _ s => drop_string n s | _, _ => s end.
Fixpoint take_string (n : nat) (s : string) : string :=
  match n, s with S n, String c s => String c (take_string n s) | _, _ => "" end.
Definition HasSuffix (s suffix : string) : bool :=
  (String.length suffix <=? String.length s)%nat &&
  bool_decide (drop_string (String.length s - String.length suffix) s = suffix).
Definition TrimSuffix (s suffix : string) : string :=
  if HasSuffix s suffix then take_string (String.length s - String.length suffix) s else s.

Definition ParseServiceName (name : string) : string * bool :=
  let name := TrimSuffix (ToLower (TrimSpace name)) "." in
  if bool_decide (name = "") then ("", false)
  else
    let suffix := "." +:+ ServiceDomain in
    if HasSuffix name suffix then
      let workload := TrimSuffix name suffix in
      if bool_decide (workload = "") || strings_Contains workload "." then ("", false) else (workload, true)
    else if strings_Contains name "." then ("", false) else (name, true).

(** What a caller on [fromNode] dials for one endpoint. *)
Definition resolve_endpoint (w : World) (fromNode : string) (e : Endpoint) : option ResolvedEndpoint :=
  if bool_decide (Endpoint_Node e = fromNode) then
    Some (mkResolvedEndpoint (Endpoint_Address e) (Endpoint_Port e) (Endpoint_Allocation e) (Endpoint_Node e) true)
  else match Nodes w !! Endpoint_Node e with
       | None => None
       | Some node =>
           if bool_decide (Node_Address node = "") || (Node_GatewayPort node <=? 0) then None
           else Some (mkResolvedEndpoint (Node_Address node) (Node_GatewayPort node) (Endpoint_Allocation e)
                        (Endpoint_Node e) false)
       end.

(** Local endpoints first, then by allocation. *)
Definition local_first (a b : ResolvedEndpoint) : Prop :=
  if bool_decide (Resolved_Local a = Resolved_Local b) then string_le (Resolved_Allocation a) (Resolved_Allocation b)
  else Resolved_Local a = true.
#[export] Instance local_first_dec : RelDecision local_first.
Proof. intros a b. unfold local_first. destruct (bool_decide _); apply _. Defined.

Definition Resolve (w : World) (ports : gmap string Z) (workload fromNode : string) : list ResolvedEndpoint :=
  match BuildDirectory w ports !! workload with
  | None => []
  | Some service => merge_sort local_first (omap (resolve_endpoint w fromNode) (Service_Endpoints service))
  end.

Definition ResolveName (w : World) (ports : gmap string Z) (name fromNode : string) : result (list ResolvedEndpoint) :=
  let '(workload, ok) := ParseServiceName name in
  refuse (negb ok) "%q is not an a4s service name";
  Ok (Resolve w ports workload fromNode).

Definition publish_name (w : World) (ports : gmap string Z) (fromNode workload : string)
    (records : gmap string (list ResolvedEndpoint)) : gmap string (list ResolvedEndpoint) :=
  let endpoints := Resolve w ports workload fromNode in
  if len endpoints =? 0 then records else <[ServiceName workload := endpoints]> records.

Definition BuildServiceZone (w : World) (ports : gmap string Z) (fromNode : string) : ServiceZone :=
  mkServiceZone fromNode
    (foldr (publish_name w ports fromNode) ∅ (map_to_list (BuildDirectory w ports)).*1).
End Directory.

(** ** What the directory holds *)

Lemma length_append s t : String.length (s +:+ t) = (String.length s + String.length t)%nat.
Proof. induction s as [|c s IH]; [done|]. exact (f_equal S IH). Qed.

Lemma append_inj_r s t x : s +:+ x = t +:+ x → s = t.
Proof.
  revert t. induction s as [|c s IH]; intros [|d t] H; [done| | |].
  - apply (f_equal String.length) in H. rewrite !length_append in H. cbn in H. lia.
  - apply (f_equal String.length) in H. rewrite !length_append in H. cbn in H. lia.
  - injection H as -> H. f_equal. by apply IH.
Qed.

Section DirectoryFacts.
Context {clock : WallClock}.
Implicit Types (w : World) (ports : gmap string Z) (a : Allocation) (e : Endpoint).

Lemma add_endpoint_lookup services name e x :
  endpoints_of (add_endpoint services name e) x =
  endpoints_of services x ++ (if bool_decide (name = x) then [e] else []).
Proof.
  unfold endpoints_of, add_endpoint. rewrite lookup_insert. case_decide as E; case_bool_decide; try done.
  - by subst.
  - by rewrite app_nil_r.
Qed.

Definition contributes now ports (x : string) a : list Endpoint :=
  match serving now ports a with
  | Some e => if bool_decide (Alloc_Workload a = x) then [e] else []
  | None => []
  end.

Lemma collect_endpoints_of now ports services allocations x :
  endpoints_of (collect_endpoints now ports services allocations) x =
  endpoints_of services x ++ (allocations ≫= contributes now ports x).
Proof.
  revert services. induction allocations as [|a l IH]; intros services; cbn [collect_endpoints foldl].
  { by rewrite app_nil_r. }
  change (foldl _ ?s l) with (collect_endpoints now ports s l). rewrite IH. cbn [mbind list_bind]. unfold contributes at 2.
  destruct (serving now ports a) as [e|]; [|done]. by rewrite add_endpoint_lookup, <-(assoc_L (++)).
Qed.

Lemma sort_endpoints_perm l : sort_endpoints l ≡ₚ l.
Proof. apply merge_sort_Permutation. Qed.

Lemma directory_endpoints w ports x :
  endpoints_of (BuildDirectory w ports) x = sort_endpoints (values (Allocations w) ≫= contributes (Now w) ports x).
Proof.
  unfold endpoints_of at 1, BuildDirectory. rewrite lookup_fmap.
  rewrite <-(app_nil_l (values _ ≫= _)). change [] with (endpoints_of ∅ x). rewrite <-collect_endpoints_of.
  unfold endpoints_of. by destruct (collect_endpoints _ _ _ _ !! x).
Qed.

Lemma contributes_elem now ports x a e :
  e ∈ contributes now ports x a ↔
  Alloc_Workload a = x ∧ ReadyAt a now = true ∧ Alloc_Address a ≠ "" ∧
  ∃ port, ports !! x = Some port ∧ 0 < port ∧ e = mkEndpoint (Alloc_ID a) (Alloc_Node a) (Alloc_Address a) port.
Proof.
  unfold contributes, serving. destruct (ReadyAt a now); cbn; [|set_solver].
  case_bool_decide; [set_solver|]. destruct (decide (Alloc_Workload a = x)) as [<-|Hx].
  - destruct (ports !! Alloc_Workload a) as [port|]; [|set_solver]. destruct (Z.leb_spec port 0).
    + split; [set_solver|]. intros (_ & _ & _ & p & [= <-] & Hp & _). lia.
    + rewrite bool_decide_true, list_elem_of_singleton by done. naive_solver.
  - destruct (ports !! _) as [port|]; [|set_solver]. destruct (port <=? 0); [set_solver|].
    rewrite bool_decide_false by done. set_solver.
Qed.

(** An endpoint is derived, never asserted: the directory lists an endpoint for a
    workload exactly when one of its allocations holds unexpired readiness evidence
    and an address, and the workload declares a port. *)
Theorem directory_exact w ports x e :
  e ∈ endpoints_of (BuildDirectory w ports) x ↔
  ∃ id a port, Allocations w !! id = Some a ∧ Alloc_Workload a = x ∧ ReadyAt a (Now w) = true ∧
    Alloc_Address a ≠ "" ∧ ports !! x = Some port ∧ 0 < port ∧
    e = mkEndpoint (Alloc_ID a) (Alloc_Node a) (Alloc_Address a) port.
Proof.
  rewrite directory_endpoints, sort_endpoints_perm, list_elem_of_bind. setoid_rewrite contributes_elem.
  setoid_rewrite elem_of_values. naive_solver.
Qed.

(** ** Resolution *)

#[local] Instance local_first_total : Total local_first.
Proof.
  intros a b. unfold local_first. repeat case_bool_decide; try congruence; [by apply string_le_total|].
  destruct (Resolved_Local a), (Resolved_Local b); auto.
Qed.

Lemma Resolve_elem w ports x fromNode r :
  r ∈ Resolve w ports x fromNode ↔
  ∃ e, e ∈ endpoints_of (BuildDirectory w ports) x ∧ resolve_endpoint w fromNode e = Some r.
Proof.
  unfold Resolve, endpoints_of. destruct (BuildDirectory w ports !! x) as [s|]; cbn; [|set_solver].
  by rewrite merge_sort_Permutation, list_elem_of_omap.
Qed.

Definition locals_first (l : list ResolvedEndpoint) : Prop :=
  ∃ l1 l2, l = l1 ++ l2 ∧ Forall (λ r, Resolved_Local r = true) l1 ∧ Forall (λ r, Resolved_Local r = false) l2.

Lemma Sorted_locals_first l : Sorted local_first l → locals_first l.
Proof.
  induction 1 as [|r l Hs IH Hr]; [by exists [], []|]. destruct IH as (l1 & l2 & -> & H1 & H2).
  destruct (Resolved_Local r) eqn:E; [exists (r :: l1), l2; split_and!; [done|by constructor|done]|].
  destruct l1 as [|r1 l1].
  - exists [], (r :: l2). split_and!; [done|done|by constructor].
  - exfalso. apply Forall_cons in H1 as [H1 _]. inversion Hr as [|? ? Hlf]; subst. unfold local_first in Hlf.
    rewrite E, H1 in Hlf. by rewrite bool_decide_false in Hlf.
Qed.

(** What a name resolves to is serving and can be dialled: each answer stands for an
    allocation with unexpired readiness; on the caller's own node it is the allocation's
    own address, elsewhere the address and gateway port of the node that runs it; and
    the local answers come first. *)
Theorem resolve_reaches_serving w ports x fromNode :
  locals_first (Resolve w ports x fromNode) ∧
  ∀ r, r ∈ Resolve w ports x fromNode →
    ∃ id a, Allocations w !! id = Some a ∧ Alloc_Workload a = x ∧ Alloc_ID a = Resolved_Allocation r ∧
      Alloc_Node a = Resolved_Node r ∧ ReadyAt a (Now w) = true ∧ 0 < Resolved_Port r ∧ Resolved_Address r ≠ "" ∧
      if Resolved_Local r then Alloc_Node a = fromNode ∧ Resolved_Address r = Alloc_Address a
      else Alloc_Node a ≠ fromNode ∧ ∃ n, Nodes w !! Alloc_Node a = Some n ∧ Resolved_Address r = Node_Address n ∧
             Resolved_Port r = Node_GatewayPort n.
Proof.
  split.
  - unfold Resolve. destruct (_ !! _); [|by exists [], []]. apply Sorted_locals_first, Sorted_merge_sort, _.
  - intros r (e & He & Hr)%Resolve_elem.
    rewrite directory_endpoints, sort_endpoints_perm, list_elem_of_bind in He.
    destruct He as (a & He & (id & Ha)%elem_of_values).
    apply contributes_elem in He as (Hx & Hready & Haddr & port & Hport & Hpos & ->).
    exists id, a. unfold resolve_endpoint in Hr. cbn in Hr. case_bool_decide as Hn.
    + injection Hr as <-. cbn. done.
    + destruct (Nodes w !! Alloc_Node a) as [n|] eqn:Hnode; [|done]. destruct (_ || _) eqn:E; [done|]. bool_simpl.
      injection Hr as <-. cbn. split_and!; try done. by exists n.
Qed.

(** A name is published exactly when it has an endpoint that can be reached from there. *)
Lemma zone_records w ports fromNode x :
  Zone_Records (BuildServiceZone w ports fromNode) !! ServiceName x =
  if decide (Resolve w ports x fromNode = []) then None else Some (Resolve w ports x fromNode).
Proof.
  unfold BuildServiceZone. cbn [Zone_Records].
  assert (∀ s t, ServiceName s = ServiceName t → s = t) as Hinj.
  { intros s t. unfold ServiceName. apply append_inj_r. }
  assert (∀ l, foldr (publish_name w ports fromNode) ∅ l !! ServiceName x =
     if decide (x ∈ l ∧ Resolve w ports x fromNode ≠ []) then Some (Resolve w ports x fromNode) else None) as Hl.
  { induction l as [|y l IH]; cbn [foldr]; [rewrite lookup_empty, decide_False; set_solver|].
    unfold publish_name at 1. destruct (Z.eqb_spec (len (Resolve w ports y fromNode)) 0) as [E|E].
    - apply (f_equal Z.to_nat) in E. unfold len in E. rewrite Nat2Z.id in E. apply nil_length_inv in E.
      rewrite IH. repeat case_decide; try done; set_solver.
    - destruct (decide (x = y)) as [->|Hne].
      + rewrite lookup_insert_eq, decide_True; [done|]. split; [by left|]. intros H. by rewrite H in E.
      + rewrite lookup_insert_ne by (intros ?%Hinj; done). rewrite IH. repeat case_decide; try done; set_solver. }
  rewrite Hl. destruct (decide (Resolve w ports x fromNode = [])) as [->|Hne]; [by rewrite decide_False by naive_solver|].
  rewrite decide_True; [done|]. split; [|done]. unfold Resolve in Hne.
  destruct (BuildDirectory w ports !! x) as [s|] eqn:E; [|done].
  apply list_elem_of_fmap. exists (x, s). split; [done|]. by apply elem_of_map_to_list.
Qed.

(** ** Names *)

(** A DNS label as workload names are: lower-case letters, digits and hyphens. *)
Definition label_char (c : Ascii.ascii) : bool :=
  let n := Ascii.N_of_ascii c in
  ((97 <=? n) && (n <=? 122) || (48 <=? n) && (n <=? 57) || (n =? 45))%N.
Fixpoint is_label (s : string) : bool :=
  match s with "" => true | String c s => label_char c && is_label s end.

Lemma label_char_facts c :
  label_char c = true → is_space c = false ∧ to_lower c = c ∧ c ≠ Ascii.ascii_of_N 46.
Proof.
  unfold label_char, is_space, is_blank, to_lower. intros H.
  assert (97 <= Ascii.N_of_ascii c <= 122 ∨ 48 <= Ascii.N_of_ascii c <= 57 ∨ Ascii.N_of_ascii c = 45)%N as Hn.
  { rewrite !orb_true_iff, !andb_true_iff, !N.leb_le, N.eqb_eq in H. tauto. }
  split_and!.
  - rewrite orb_false_iff, !orb_false_iff, !N.eqb_neq. split; [lia|]. apply bool_decide_eq_false. intros ->. cbn in Hn. lia.
  - case_match eqn:E; [|done]. rewrite andb_true_iff, !N.leb_le in E. lia.
  - intros ->. cbn in Hn. lia.
Qed.

Lemma trim_left_label c s : label_char c = true → trim_left (String c s) = String c s.
Proof. intros H. cbn. by rewrite (proj1 (label_char_facts c H)). Qed.

Lemma trim_right_append s t : trim_right t = t → t ≠ "" → trim_right (s +:+ t) = s +:+ t.
Proof.
  intros Ht Hne. induction s as [|c s IH]; [done|].
  change (trim_right (String c (s +:+ t)) = String c (s +:+ t)). cbn [trim_right]. rewrite IH.
  destruct s; [by destruct t|done].
Qed.

Lemma ToLower_append s t : ToLower (s +:+ t) = ToLower s +:+ ToLower t.
Proof. induction s as [|c s IH]; [done|]. exact (f_equal (String (to_lower c)) IH). Qed.

Lemma ToLower_label s : is_label s = true → ToLower s = s.
Proof.
  induction s as [|c s IH]; [done|]. cbn. intros [Hc Hs]%andb_true_iff.
  rewrite IH by done. by destruct (label_char_facts c Hc) as (_ & -> & _).
Qed.

Lemma drop_append s t k : drop_string (String.length s + k) (s +:+ t) = drop_string k t.
Proof. induction s as [|c s IH]; [done|]. exact IH. Qed.

Lemma take_append s t : take_string (String.length s) (s +:+ t) = s.
Proof. induction s as [|c s IH]; [by destruct t|]. exact (f_equal (String c) IH). Qed.

Lemma HasSuffix_append s t suffix :
  (String.length suffix <= String.length t)%nat → HasSuffix (s +:+ t) suffix = HasSuffix t suffix.
Proof.
  intros H. unfold HasSuffix. rewrite length_append, !(proj2 (Nat.leb_le _ _)) by lia.
  replace (String.length s + String.length t - String.length suffix)%nat
    with (String.length s + (String.length t - String.length suffix))%nat by lia.
  by rewrite drop_append.
Qed.

Lemma label_no_dot s : is_label s = true → strings_Contains s "." = false.
Proof.
  induction s as [|c s IH]; [done|]. cbn [is_label strings_Contains]. intros [Hc Hs]%andb_true_iff.
  rewrite IH by done. rewrite orb_false_r. cbn. destruct (label_char_facts c Hc) as (_ & _ & Hd).
  case_match eqn:E; [|done]. exfalso. by apply Hd.
Qed.

(** A workload's published name reads back as the workload. *)
Lemma name_reads_back workload :
  is_label workload = true → workload ≠ "" → ParseServiceName (ServiceName workload) = (workload, true).
Proof.
  intros Hl Hne.
  set (suffix := "." +:+ ServiceDomain).
  assert (TrimSpace (ServiceName workload) = ServiceName workload) as Htrim.
  { unfold TrimSpace. destruct workload as [|c s]; [done|]. cbn in Hl. apply andb_true_iff in Hl as [Hc _].
    change (ServiceName (String c s)) with (String c (s +:+ suffix)). rewrite trim_left_label by done.
    change (String c (s +:+ suffix)) with (String c s +:+ suffix). by apply trim_right_append. }
  unfold ParseServiceName. rewrite Htrim. unfold ServiceName. change ("." +:+ ServiceDomain) with suffix.
  rewrite ToLower_append, ToLower_label by done. change (ToLower suffix) with suffix.
  assert (TrimSuffix (workload +:+ suffix) "." = workload +:+ suffix) as ->.
  { unfold TrimSuffix. rewrite (HasSuffix_append workload suffix ".") by (vm_compute; lia). done. }
  rewrite bool_decide_false by (by destruct workload). rewrite HasSuffix_append by done.
  change (HasSuffix suffix suffix) with true. cbv iota. unfold TrimSuffix. rewrite HasSuffix_append by done.
  change (HasSuffix suffix suffix) with true. cbv iota.
  replace (String.length (workload +:+ suffix) - String.length suffix)%nat with (String.length workload)
    by (rewrite length_append; lia).
  by rewrite take_append, bool_decide_false, label_no_dot by done.
Qed.
End DirectoryFacts.
