(* ===== verification/Canary.v ===== *)
(** * Canary traffic (src/control/canary.go, the route snapshots of directory.go)

    How much traffic a new version may take, derived from measured readiness, and how
    that share is spread over endpoints.  Indexing a slice out of range panics in the
    source, so the evaluation of a canary is a [result]. *)

From S2P Require Import Prelude Types Directory.
Open Scope Z_scope.

(** ** canary.go *)

Fixpoint check_steps (previous : Z) (steps : list Z) : result Z :=
  match steps with
  | [] => Ok previous
  | step :: steps =>
      refuse ((step <? 1) || (100 <? step)) "canary step %d must be between 1 and 100";
      refuse (step <=? previous) "canary steps must strictly increase, got %d after %d";
      check_steps step steps
  end.

Definition Canary_Validate (c : option Canary) : result unit :=
  match c with
  | None => Ok tt
  | Some c =>
      refuse (len (Canary_Steps c) =? 0) "canary needs at least one step";
      let* _ := check_steps 0 (Canary_Steps c) in
      refuse (negb (bool_decide (last (Canary_Steps c) = Some 100))) "the last canary step must be 100, got %d";
      refuse (Canary_HoldFor c <? 0) "canary hold cannot be negative";
      Ok tt
  end.

Record WeightedEndpoint := mkWeightedEndpoint {
  Weighted_Endpoint : Endpoint; Weight : Z; Version : string }.

Record CanaryState := mkCanaryState {
  State_Target : string; State_Step : Z; TargetReady : Z; PreviousReady : Z; Complete : bool; HeldFor : duration }.

Section Canary.
Context {clock : WallClock}.

(** One round of the counting loop; the state is the two counts and the hold clock. *)
Definition count_ready (g : Goal) (now : time) (s : Z * Z * duration) (a : Allocation) : Z * Z * duration :=
  let '(target, previous, held) := s in
  if bool_decide (Alloc_Workload a ≠ Workload_Name (Goal_Workload g)) then s
  else if negb (ReadyAt a now) then s
  else if bool_decide (Alloc_Image a = Workload_Image (Goal_Workload g)) then
    let ready := ReadyFor a now in
    (i64 (target + 1), previous, if (held <? 0) || (ready <? held) then ready else held)
  else (target, i64 (previous + 1), held).

(** The last position whose step the proportion reaches; zero when none does. *)
Fixpoint reached_step (proportion : Z) (position index : nat) (steps : list Z) : nat :=
  match steps with
  | [] => index
  | step :: steps => reached_step proportion (S position) (if step <=? proportion then position else index) steps
  end.

Definition step_index (c : Canary) (target previous : Z) (heldFor : duration) : Z :=
  let total := i64 (target + previous) in
  let proportion := Z.quot (i64 (target * 100)) total in
  let index := Z.of_nat (reached_step proportion 0 0 (Canary_Steps c)) in
  let hold := Canary_HoldFor c in
  if 0 <? hold then let reached := Z.quot heldFor hold in if reached <? index then reached else index
  else index.

Definition EvaluateCanary (g : Goal) (w : World) : result CanaryState :=
  let image := Workload_Image (Goal_Workload g) in
  match Goal_Canary g with
  | None => Ok (mkCanaryState image 0 0 0 false 0)
  | Some canary =>
      let '(target, previous, held) :=
        foldl (count_ready g (Now w)) (0, 0, -1) (values (Allocations w)) in
      let heldFor := if 0 <? held then held else 0 in
      if previous =? 0 then Ok (mkCanaryState image 100 target previous (0 <? target) heldFor)
      else if target =? 0 then Ok (mkCanaryState image 0 target previous false heldFor)
      else match Canary_Steps canary !! Z.to_nat (step_index canary target previous heldFor) with
           | Some step => Ok (mkCanaryState image step target previous false heldFor)
           | None => Err (Panic "index out of range")
           end
  end.

(** [versions[allocation.ID] = allocation.Image] *)
Definition versions_of (w : World) : gmap string string :=
  foldl (λ versions a, <[Alloc_ID a := Alloc_Image a]> versions) ∅ (values (Allocations w)).

Definition weigh (versions : gmap string string) (weight : Z) (e : Endpoint) : WeightedEndpoint :=
  mkWeightedEndpoint e weight (default "" (versions !! Endpoint_Allocation e)).

Definition by_weighted_allocation (a b : WeightedEndpoint) : Prop := by_allocation (Weighted_Endpoint a) (Weighted_Endpoint b).
#[export] Instance by_weighted_allocation_dec : RelDecision by_weighted_allocation.
Proof. intros a b. unfold by_weighted_allocation. apply _. Defined.
Definition sort_weighted : list WeightedEndpoint → list WeightedEndpoint := merge_sort by_weighted_allocation.

(** The weight of the endpoint at an index of its side. *)
Definition slot_weight (each remainder : Z) (index : nat) : Z :=
  let weight := if Z.of_nat index <? remainder then each + 1 else each in
  if weight <=? 0 then 1 else weight.

Definition shareAcross (endpoints : list Endpoint) (share : Z) (versions : gmap string string) : list WeightedEndpoint :=
  if (len endpoints =? 0) || (share <=? 0) then []
  else imap (λ index e, weigh versions
    (slot_weight (Z.quot share (len endpoints)) (Z.rem share (len endpoints)) index) e) endpoints.

Definition equalWeights (endpoints : list Endpoint) (versions : gmap string string) : list WeightedEndpoint :=
  sort_weighted (weigh versions 1 <$> endpoints).

(** The endpoints that run the target image, and the others. *)
Definition on_target (g : Goal) (versions : gmap string string) (e : Endpoint) : bool :=
  bool_decide (default "" (versions !! Endpoint_Allocation e) = Workload_Image (Goal_Workload g)).

Definition WeightEndpoints (g : Goal) (w : World) (endpoints : list Endpoint) : result (list WeightedEndpoint) :=
  if len endpoints =? 0 then Ok []
  else
    let versions := versions_of w in
    match Goal_Canary g with
    | None => Ok (weigh versions 1 <$> endpoints)
    | Some _ =>
        let* state := EvaluateCanary g w in
        let target := filter (λ e, on_target g versions e = true) endpoints in
        let previous := filter (λ e, on_target g versions e = false) endpoints in
        if len target =? 0 then Ok (equalWeights previous versions)
        else if len previous =? 0 then Ok (equalWeights target versions)
        else Ok (sort_weighted (shareAcross target (State_Step state) versions ++
                                shareAcross previous (100 - State_Step state) versions))
    end.

(** ** Route snapshots (directory.go) *)

Record RouteSnapshot := mkRouteSnapshot {
  Snap_Host : string; Snap_Workload : string; Snap_Port : Z; Snap_Exposure : string;
  Snap_Endpoints : list Endpoint; Snap_Weighted : list WeightedEndpoint }.

Definition splitsTraffic (weighted : list WeightedEndpoint) : bool :=
  match weighted with
  | first :: ((_ :: _) as rest) => existsb (λ e, negb (Weight e =? Weight first)) rest
  | _ => false
  end.

Definition goals_by_workload (goals : list Goal) : gmap string Goal :=
  foldl (λ m g, <[Workload_Name (Goal_Workload g) := g]> m) ∅ goals.

Definition route_snapshot (w : World) (directory : gmap string Service) (byWorkload : gmap string Goal)
    (host : string) : result RouteSnapshot :=
  match Routes w !! host with
  | None => Err (Panic "nil route")
  | Some route =>
      let endpoints := endpoints_of directory (Route_Workload route) in
      let* weighted :=
        match byWorkload !! Route_Workload route with
        | Some g => match Goal_Canary g with
                    | Some _ => let* weighted := WeightEndpoints g w endpoints in
                                Ok (if splitsTraffic weighted then weighted else [])
                    | None => Ok []
                    end
        | None => Ok []
        end in
      Ok (mkRouteSnapshot (Route_Host route) (Route_Workload route) (Route_Port route) (Route_Exposure route)
            endpoints weighted)
  end.

Definition BuildWeightedRouteSnapshots (w : World) (ports : gmap string Z) (goals : list Goal)
    : result (list RouteSnapshot) :=
  let directory := BuildDirectory w ports in
  let byWorkload := goals_by_workload goals in
  let hosts := sort_Strings (map_to_list (Routes w)).*1 in
  for_each (λ snapshots host, let* s := route_snapshot w directory byWorkload host in Ok (snapshots ++ [s])) [] hosts.

Definition BuildRouteSnapshots (w : World) (ports : gmap string Z) : result (list RouteSnapshot) :=
  BuildWeightedRouteSnapshots w ports [].
End Canary.

(** ** The share a version has earned *)

Section Shares.
Context {clock : WallClock}.
Implicit Types (g : Goal) (w : World) (a : Allocation).

(** Ready instances of the goal's workload, on the image it asks for and on others. *)
Definition ready_target g (now : time) a : bool :=
  bool_decide (Alloc_Workload a = Workload_Name (Goal_Workload g)) && ReadyAt a now &&
  bool_decide (Alloc_Image a = Workload_Image (Goal_Workload g)).
Definition ready_previous g (now : time) a : bool :=
  bool_decide (Alloc_Workload a = Workload_Name (Goal_Workload g)) && ReadyAt a now &&
  negb (bool_decide (Alloc_Image a = Workload_Image (Goal_Workload g))).

Lemma ready_exclusive g now a : ready_target g now a = true → ready_previous g now a = false.
Proof. unfold ready_target, ready_previous. intros H. bool_simpl. by rewrite !bool_decide_true, andb_false_r by done. Qed.

Definition count_of (f : Allocation → bool) (l : list Allocation) : Z :=
  foldr (λ a n, (if f a then 1 else 0) + n) 0 l.

Lemma count_of_bounds f l : 0 <= count_of f l <= len l.
Proof. unfold len. induction l as [|a l IH]; cbn [count_of foldr length]; [done|]. change (foldr _ 0 l) with (count_of f l). destruct (f a); lia. Qed.

Lemma ReadyFor_nonneg a now : 0 <= ReadyFor a now.
Proof.
  unfold ReadyFor, Before, time_Sub, int_min, int_max. destruct (negb (ReadyAt a now)); cbn; [done|].
  destruct (IsZero _); cbn; [done|]. destruct (Z.ltb_spec now (Alloc_ReadySince a)); [done|]. lia.
Qed.

Lemma count_ready_cases g now target previous held a :
  count_ready g now (target, previous, held) a =
  if ready_target g now a
  then (i64 (target + 1), previous, if (held <? 0) || (ReadyFor a now <? held) then ReadyFor a now else held)
  else if ready_previous g now a then (target, i64 (previous + 1), held) else (target, previous, held).
Proof.
  unfold count_ready, ready_target, ready_previous.
  destruct (decide (Alloc_Workload a = Workload_Name (Goal_Workload g))) as [Hw|Hw].
  - rewrite (bool_decide_false (_ ≠ _)) by (intros H; by apply H).
    rewrite !(bool_decide_true (Alloc_Workload a = _)) by done. by destruct (ReadyAt a now), (bool_decide _).
  - rewrite (bool_decide_true (_ ≠ _)) by done. by rewrite !(bool_decide_false (Alloc_Workload a = _)) by done.
Qed.

(** The hold clock after counting: at most the readiness of every ready target, and
    non-negative once there is one. *)
Definition hold_clock g (now : time) (l : list Allocation) (held held' : duration) : Prop :=
  (0 <= held → 0 <= held' <= held) ∧
  ∀ a, a ∈ l → ready_target g now a = true → 0 <= held' <= ReadyFor a now.

Lemma hold_clock_cons g now a l held held1 held' :
  (0 <= held → 0 <= held1 <= held) → (ready_target g now a = true → 0 <= held1 <= ReadyFor a now) →
  hold_clock g now l held1 held' → hold_clock g now (a :: l) held held'.
Proof.
  intros H1 H2 [H3 H4]. split; [intros H; specialize (H1 H); lia|].
  intros x [->|Hx]%elem_of_cons Hr; [specialize (H2 Hr); lia|by apply H4].
Qed.

Lemma count_ready_spec g now l target previous held :
  0 <= target → 0 <= previous → target + previous + len l <= int_max →
  ∃ held', foldl (count_ready g now) (target, previous, held) l =
    (target + count_of (ready_target g now) l, previous + count_of (ready_previous g now) l, held') ∧
    hold_clock g now l held held'.
Proof.
  revert target previous held. induction l as [|a l IH]; intros target previous held Ht Hp Hb.
  { exists held. cbn. rewrite !Z.add_0_r. split; [done|]. split; [lia|set_solver]. }
  assert (len (a :: l) = len l + 1) as Hlen by (unfold len; cbn [length]; lia). rewrite Hlen in Hb.
  assert (0 <= len l) as Hl0 by (unfold len; lia). pose proof (ReadyFor_nonneg a now) as Hrf.
  assert (∀ f, count_of f (a :: l) = (if f a then 1 else 0) + count_of f l) as Hc by done.
  cbn [foldl]. rewrite count_ready_cases, !Hc. clear Hc.
  destruct (ready_target g now a) eqn:Et.
  - rewrite (ready_exclusive _ _ _ Et). rewrite i64_id by (unfold in_int, int_min, int_max in *; lia).
    set (held1 := if _ || _ then _ else _).
    assert ((0 <= held → 0 <= held1 <= held) ∧ 0 <= held1 <= ReadyFor a now) as [H1 H2].
    { unfold held1. destruct (Z.ltb_spec held 0), (Z.ltb_spec (ReadyFor a now) held); cbn; lia. }
    destruct (IH (target + 1) previous held1) as (h & -> & Hh); [lia..|].
    exists h. split; [f_equal; f_equal; lia|]. by eapply hold_clock_cons.
  - destruct (ready_previous g now a) eqn:Ep.
    + rewrite i64_id by (unfold in_int, int_min, int_max in *; lia).
      destruct (IH target (previous + 1) held) as (h & -> & Hh); [lia..|].
      exists h. split; [f_equal; f_equal; lia|]. eapply hold_clock_cons, Hh; [lia|congruence].
    + destruct (IH target previous held) as (h & -> & Hh); [lia..|].
      exists h. split; [by rewrite !Z.add_0_l|]. eapply hold_clock_cons, Hh; [lia|congruence].
Qed.

Lemma count_exclusive g now l : count_of (ready_target g now) l + count_of (ready_previous g now) l <= len l.
Proof.
  unfold len. induction l as [|a l IH]; [done|]. unfold count_of in *. cbn [foldr length].
  destruct (ready_target g now a) eqn:Et; [rewrite (ready_exclusive _ _ _ Et)|destruct (ready_previous g now a)]; lia.
Qed.

(** ** The step *)

Lemma reached_step_spec proportion position index steps :
  let k := reached_step proportion position index steps in
  k = index ∨ ∃ j step, k = (position + j)%nat ∧ steps !! j = Some step ∧ step <= proportion.
Proof.
  cbv zeta. revert position index. induction steps as [|s steps IH]; intros position index; cbn [reached_step]; [by left|].
  destruct (IH (S position) (if s <=? proportion then position else index)) as [->|(j & st & -> & Hj & Hle)].
  - destruct (Z.leb_spec s proportion); [|by left]. right. exists O, s. split; [lia|done].
  - right. exists (S j), st. split; [lia|done].
Qed.

Definition valid_canary (c : Canary) : Prop := Canary_Validate (Some c) = Ok tt.

Lemma valid_canary_first c : valid_canary c → ∃ step, Canary_Steps c !! 0%nat = Some step.
Proof. unfold valid_canary, Canary_Validate. destruct (Canary_Steps c) as [|s l]; [done|]. intros _. by exists s. Qed.

Lemma valid_canary_hold c : valid_canary c → 0 <= Canary_HoldFor c.
Proof. unfold valid_canary, Canary_Validate. intros H. inv_ok H. bool_simpl. done. Qed.

Lemma check_steps_increasing previous steps r j k x y :
  check_steps previous steps = Ok r → (j <= k)%nat → steps !! j = Some x → steps !! k = Some y → previous < x <= y.
Proof.
  revert previous j k x y. induction steps as [|s steps IH]; intros previous j k x y H Hjk Hj Hk; [done|].
  cbn [check_steps] in H. destruct (_ || _); [done|]. destruct (Z.leb_spec s previous); [done|].
  destruct j as [|j], k as [|k]; [..|lia|]; cbn in Hj, Hk; simplify_eq; [lia| |].
  - pose proof (IH x k k y y H (le_n k) Hk Hk). lia.
  - pose proof (IH s j k x y H ltac:(lia) Hj Hk). lia.
Qed.

Lemma valid_canary_increasing c j k x y :
  valid_canary c → (j <= k)%nat → Canary_Steps c !! j = Some x → Canary_Steps c !! k = Some y → x <= y.
Proof.
  unfold valid_canary, Canary_Validate. intros H Hjk Hj Hk. inv_ok H.
  match goal with E : check_steps _ _ = Ok _ |- _ => pose proof (check_steps_increasing _ _ _ _ _ _ _ E Hjk Hj Hk) end. lia.
Qed.

(** The position [step_index] picks: a step the ready proportion supports, and no
    further than the hold allows. *)
Lemma step_index_spec c target previous heldFor :
  valid_canary c → 0 < target → 0 < previous → (target + previous) * 100 <= int_max → 0 <= heldFor →
  ∃ k step, step_index c target previous heldFor = Z.of_nat k ∧ Canary_Steps c !! k = Some step ∧
    Z.of_nat k * Canary_HoldFor c <= heldFor ∧
    (k = 0%nat ∨ step * (target + previous) <= 100 * target).
Proof.
  unfold int_max. intros Hv Ht Hp Hb Hh. unfold step_index.
  rewrite !i64_id by (unfold in_int, int_min, int_max; lia). rewrite (Z.quot_div_nonneg (target * 100) (target + previous)) by lia.
  set (p := target * 100 / (target + previous)).
  assert (p * (target + previous) <= 100 * target) as Hpm.
  { unfold p. pose proof (Z.mul_div_le (target * 100) (target + previous)). lia. }
  assert (∃ j step, reached_step p 0 0 (Canary_Steps c) = j ∧ Canary_Steps c !! j = Some step ∧
    (j = 0%nat ∨ step * (target + previous) <= 100 * target)) as (j & step & -> & Hj & Hcase).
  { destruct (reached_step_spec p 0 0 (Canary_Steps c)) as [E|(j & st & E & Hj & Hle)]; rewrite E.
    - destruct (valid_canary_first c Hv) as [st Hst]. exists 0%nat, st. auto.
    - exists j, st. split; [lia|]. split; [done|]. right. nia. }
  pose proof (valid_canary_hold c Hv) as Hhold.
  assert (Z.of_nat j * 0 <= heldFor) by lia.
  destruct (Z.ltb_spec 0 (Canary_HoldFor c)) as [Hpos|Hz].
  - rewrite Z.quot_div_nonneg by lia. set (r := heldFor / Canary_HoldFor c).
    assert (0 <= r) by (apply Z.div_pos; lia).
    assert (Canary_HoldFor c * r <= heldFor) as Hr by (apply Z.mul_div_le; lia).
    destruct (Z.ltb_spec r (Z.of_nat j)) as [Hlt|Hge].
    + assert (is_Some (Canary_Steps c !! Z.to_nat r)) as [st Hst].
      { apply lookup_lt_is_Some. apply lookup_lt_Some in Hj. lia. }
      exists (Z.to_nat r), st. split; [lia|]. split; [done|]. split; [rewrite Z2Nat.id by done; lia|].
      destruct Hcase as [->|Hcase]; [lia|]. right.
      pose proof (valid_canary_increasing c (Z.to_nat r) j st step Hv ltac:(lia) Hst Hj). nia.
    + exists j, step. split; [done|]. split; [done|]. split; [nia|]. done.
  - replace (Canary_HoldFor c) with 0 by lia. exists j, step. split; [done|]. split; [done|]. split; [lia|]. done.
Qed.

(** A version takes no more traffic than it has earned.  With nothing else serving it
    takes everything, with no ready instance nothing; in between its share is a declared
    step that either is the first one or does not exceed its proportion of the ready
    instances, and every ready instance of the new version has been healthy for the
    declared hold once for each step taken.  Evaluating a valid canary never fails. *)
Theorem canary_share_earned g w c
    (Hc : Goal_Canary g = Some c) (Hv : valid_canary c) (Hsize : len (values (Allocations w)) * 100 <= int_max) :
  ∃ st, EvaluateCanary g w = Ok st ∧
    TargetReady st = count_of (ready_target g (Now w)) (values (Allocations w)) ∧
    PreviousReady st = count_of (ready_previous g (Now w)) (values (Allocations w)) ∧
    (PreviousReady st = 0 → State_Step st = 100) ∧
    (0 < PreviousReady st → TargetReady st = 0 → State_Step st = 0) ∧
    (0 < PreviousReady st → 0 < TargetReady st →
      ∃ k, Canary_Steps c !! k = Some (State_Step st) ∧
        (k = 0%nat ∨ State_Step st * (TargetReady st + PreviousReady st) <= 100 * TargetReady st) ∧
        ∀ id a, Allocations w !! id = Some a → ready_target g (Now w) a = true →
          Z.of_nat k * Canary_HoldFor c <= ReadyFor a (Now w)).
Proof.
  set (l := values (Allocations w)) in *. set (now := Now w).
  pose proof (count_of_bounds (ready_target g now) l) as Ht. pose proof (count_of_bounds (ready_previous g now) l) as Hp.
  assert (count_of (ready_target g now) l + count_of (ready_previous g now) l <= len l) as Hsum by apply count_exclusive.
  assert (0 <= len l) by (unfold len; lia). unfold int_max in Hsize.
  destruct (count_ready_spec g now l 0 0 (-1)) as (held & Hfold & [_ Hclock]); [lia|lia|unfold int_max; lia|].
  rewrite !Z.add_0_l in Hfold. unfold EvaluateCanary. rewrite Hc. fold now l. rewrite Hfold.
  set (target := count_of (ready_target g now) l) in *. set (previous := count_of (ready_previous g now) l) in *.
  destruct (Z.eqb_spec previous 0) as [->|Hp0]; [eexists; split; [done|]; cbn; split_and!; lia || done|].
  destruct (Z.eqb_spec target 0) as [->|Ht0]; [eexists; split; [done|]; cbn; split_and!; lia || done|].
  set (heldFor := if 0 <? held then held else 0).
  destruct (step_index_spec c target previous heldFor) as (k & step & -> & Hk & Hhold & Hshare);
    [done|lia|lia|unfold int_max; lia|unfold heldFor; destruct (Z.ltb_spec 0 held); lia|].
  rewrite Nat2Z.id, Hk. eexists; split; [done|]. cbn. split_and!; try done; try lia.
  intros _ _. exists k. split; [done|]. split; [done|]. intros id a Ha Hr.
  assert (0 <= held <= ReadyFor a now) by (apply Hclock; [apply elem_of_values; by exists id|done]).
  etrans; [exact Hhold|]. unfold heldFor. destruct (0 <? held); lia.
Qed.

(** ** Weights *)

Definition sum_weights (l : list WeightedEndpoint) : Z := foldr (λ e n, Weight e + n) 0 l.

Lemma sum_weights_app l1 l2 : sum_weights (l1 ++ l2) = sum_weights l1 + sum_weights l2.
Proof. induction l1 as [|e l1 IH]; [done|]. change (Weight e + sum_weights (l1 ++ l2) = Weight e + sum_weights l1 + sum_weights l2). lia. Qed.

Lemma sum_weights_perm l1 l2 : l1 ≡ₚ l2 → sum_weights l1 = sum_weights l2.
Proof. induction 1; unfold sum_weights in *; cbn; lia. Qed.

Lemma sort_weighted_perm l : sort_weighted l ≡ₚ l.
Proof. apply merge_sort_Permutation. Qed.

(** Splitting a share over at most as many endpoints loses and adds nothing. *)
Lemma share_sum versions q r (l : list Endpoint) (k : nat) :
  1 <= q → 0 <= r →
  sum_weights (imap (λ i e, weigh versions (slot_weight q r (k + i)) e) l) =
  q * len l + Z.max 0 (Z.min (len l) (r - Z.of_nat k)).
Proof.
  intros Hq Hr. unfold len. revert k. induction l as [|e l IH]; intros k; [cbn; lia|].
  rewrite imap_cons. unfold sum_weights in *. cbn [foldr Weight weigh].
  rewrite (imap_ext _ (λ i e, weigh versions (slot_weight q r (S k + i)) e) l)
    by (intros i x _; cbn; by rewrite Nat.add_succ_r).
  rewrite (IH (S k)). cbn [length]. rewrite Nat.add_0_r. unfold slot_weight.
  destruct (Z.ltb_spec (Z.of_nat k) r); [rewrite (proj2 (Z.leb_gt (q + 1) 0)) by lia|rewrite (proj2 (Z.leb_gt q 0)) by lia]; lia.
Qed.

Lemma shareAcross_sum versions l share :
  0 < len l <= share → sum_weights (shareAcross l share versions) = share.
Proof.
  intros Hl. unfold shareAcross. rewrite (proj2 (Z.eqb_neq (len l) 0)) by lia.
  rewrite (proj2 (Z.leb_gt share 0)) by lia. cbn [orb].
  rewrite Z.quot_div_nonneg, Z.rem_mod_nonneg by lia.
  pose proof (Z.div_mod share (len l) ltac:(lia)) as E. pose proof (Z.mod_pos_bound share (len l) ltac:(lia)).
  assert (1 <= share / len l) by (apply Z.div_le_lower_bound; lia).
  etrans; [apply (share_sum versions (share / len l) (share mod len l) l 0); lia|]. lia.
Qed.

(** While a canary splits traffic the weights are percentages: the endpoints of the new
    version share the authorized step exactly and all weights add up to 100, as long as
    neither side has more endpoints than percentage points. *)
Theorem canary_weights_exact g w c st endpoints
    (Hc : Goal_Canary g = Some c) (Hst : EvaluateCanary g w = Ok st)
    (Htarget : 0 < len (filter (λ e, on_target g (versions_of w) e = true) endpoints) <= State_Step st)
    (Hprevious : 0 < len (filter (λ e, on_target g (versions_of w) e = false) endpoints) <= 100 - State_Step st) :
  ∃ ws, WeightEndpoints g w endpoints = Ok ws ∧ sum_weights ws = 100 ∧
    sum_weights (shareAcross (filter (λ e, on_target g (versions_of w) e = true) endpoints) (State_Step st) (versions_of w))
      = State_Step st.
Proof.
  unfold WeightEndpoints. rewrite Hc, Hst. cbn [rbind].
  destruct (Z.eqb_spec (len endpoints) 0) as [E|_].
  { destruct endpoints; [cbn in Htarget; lia|done]. }
  rewrite !(proj2 (Z.eqb_neq _ 0)) by lia. eexists. split; [done|].
  rewrite (sum_weights_perm _ _ (sort_weighted_perm _)), sum_weights_app, !shareAcross_sum by done. lia.
Qed.
End Shares.

(** ** Routes *)

Section Routes.
Context {clock : WallClock}.

(** Without goals every route gets the snapshot of its serving endpoints, unweighted. *)
Lemma plain_snapshot w directory host :
  route_snapshot w directory ∅ host =
  match Routes w !! host with
  | None => Err (Panic "nil route")
  | Some r => Ok (mkRouteSnapshot (Route_Host r) (Route_Workload r) (Route_Port r) (Route_Exposure r)
                    (endpoints_of directory (Route_Workload r)) [])
  end.
Proof. unfold route_snapshot. destruct (Routes w !! host) as [r|]; [|done]. by rewrite lookup_empty. Qed.

(** No route is forgotten: every route of the world has a snapshot, in the order of
    their hosts, carrying the endpoints that serve it at the moment, an empty list of
    them if there are none. *)
Theorem route_snapshots_complete w ports :
  ∃ snapshots, BuildRouteSnapshots w ports = Ok snapshots ∧
    Forall2 (λ host s, ∃ r, Routes w !! host = Some r ∧
        s = mkRouteSnapshot (Route_Host r) (Route_Workload r) (Route_Port r) (Route_Exposure r)
              (endpoints_of (BuildDirectory w ports) (Route_Workload r)) [])
      (sort_Strings (map_to_list (Routes w)).*1) snapshots.
Proof.
  unfold BuildRouteSnapshots, BuildWeightedRouteSnapshots. cbn [goals_by_workload foldl].
  set (hosts := sort_Strings _). set (directory := BuildDirectory w ports).
  set (Q := λ host s, ∃ r, Routes w !! host = Some r ∧ s = mkRouteSnapshot (Route_Host r) (Route_Workload r)
    (Route_Port r) (Route_Exposure r) (endpoints_of directory (Route_Workload r)) []).
  assert (∀ host, host ∈ hosts → is_Some (Routes w !! host)) as Hin.
  { intros host H. unfold hosts in H. rewrite elem_of_sort_Strings, list_elem_of_fmap in H.
    destruct H as ([k r] & -> & H%elem_of_map_to_list). by exists r. }
  clearbody hosts. enough (∀ acc done_, Forall2 Q done_ acc → ∃ snapshots,
      for_each (λ snapshots host, let* s := route_snapshot w directory ∅ host in Ok (snapshots ++ [s])) acc hosts = Ok snapshots ∧
      Forall2 Q (done_ ++ hosts) snapshots) as H by exact (H [] [] (Forall2_nil_2 _ _ Q)).
  induction hosts as [|host hosts IH]; intros acc done_ Hacc; cbn [for_each].
  { exists acc. by rewrite app_nil_r. }
  destruct (Hin host (list_elem_of_here _ _)) as [r Hr]. rewrite plain_snapshot, Hr. cbn [rbind].
  destruct (IH (λ h Hh, Hin h (list_elem_of_further _ _ _ Hh)) (acc ++ [mkRouteSnapshot (Route_Host r) (Route_Workload r)
    (Route_Port r) (Route_Exposure r) (endpoints_of directory (Route_Workload r)) []]) (done_ ++ [host])) as (sn & Hsn & HF).
  - apply Forall2_app; [done|]. constructor; [by exists r|constructor].
  - exists sn. split; [exact Hsn|]. by rewrite <-(assoc_L (++)) in HF.
Qed.
End Routes.

(** ** A canary at work *)

Module CanarySample.
#[local] Instance canary_clock : WallClock := 0.

Definition canary_goal (steps : list Z) (hold : duration) : Goal :=
  mkGoal "a4s.io/v1alpha1" "g" "ship it"
    (mkWorkloadSpec "web" "web:v2" 4 8080 (mkResources 1 1) false false [] [] "" None None None None None)
    None (mkConstraints ∅ []) (Some (mkCanary steps hold)).
Definition replica (id image : string) : Allocation :=
  (new_Allocation id "web" 0 "n1" image (mkResources 1 1) Budget_zero)
    <| Alloc_Phase := AllocationRunning |> <| Alloc_Ready := true |> <| Alloc_Address := "10.0.0.1" |> <| Alloc_ReadySince := 10 |>.
Definition canary_world : World :=
  mkWorld 1 100 ∅
    (<["web-0" := replica "web-0" "web:v2"]> (<["web-1" := replica "web-1" "web:v2"]>
      (<["web-2" := replica "web-2" "web:v1"]> (<["web-3" := replica "web-3" "web:v1"]> ∅))))
    ∅ ∅ ∅ ∅ ∅ [] ∅.
Definition canary_endpoints : list Endpoint :=
  endpoints_of (BuildDirectory canary_world (<["web" := 8080]> ∅)) "web".
Definition canary_state (steps : list Z) : CanaryState :=
  match EvaluateCanary (canary_goal steps 0) canary_world with Ok st => st | Err _ => mkCanaryState "" 0 0 0 false 0 end.

Lemma canary_share_earned_witness :
  ∃ st, EvaluateCanary (canary_goal [10; 40; 100] 30) canary_world = Ok st ∧
    TargetReady st = count_of (ready_target (canary_goal [10; 40; 100] 30) (Now canary_world)) (values (Allocations canary_world)).
Proof.
  destruct (canary_share_earned (canary_goal [10; 40; 100] 30) canary_world (mkCanary [10; 40; 100] 30))
    as (st & H & Ht & _); [vm_compute; reflexivity|vm_compute; reflexivity|apply Z.leb_le; vm_compute; reflexivity|].
  exists st. split; [exact H|exact Ht].
Defined.

Lemma canary_weights_exact_witness :
  ∃ ws, WeightEndpoints (canary_goal [10; 40; 100] 0) canary_world canary_endpoints = Ok ws ∧ sum_weights ws = 100.
Proof.
  destruct (canary_weights_exact (canary_goal [10; 40; 100] 0) canary_world (mkCanary [10; 40; 100] 0)
    (canary_state [10; 40; 100]) canary_endpoints) as (ws & H & Hs & _);
    [vm_compute; reflexivity|vm_compute; reflexivity|split; [apply Z.ltb_lt|apply Z.leb_le]; vm_compute; reflexivity..|].
  exists ws. split; [exact H|exact Hs].
Defined.

(** The weights of a canary need not add up to 100: an endpoint that gets nothing from a
    share too small to divide is given one point on top, so a first step of one percent
    over two ready endpoints sends more traffic to the new version than was authorized. *)
Theorem canary_weights_exceed :
  State_Step (canary_state [1; 100]) = 1 ∧
  ∃ ws, WeightEndpoints (canary_goal [1; 100] 0) canary_world canary_endpoints = Ok ws ∧ sum_weights ws = 101 ∧
    sum_weights (filter (λ e, Version e = "web:v2") ws) = 2.
Proof. split; [vm_compute; reflexivity|]. eexists. split; [vm_compute; reflexivity|]. split; vm_compute; reflexivity. Qed.
End CanarySample.
