(* ===== verification/NetPolicy.v ===== *)
(** * Network policy compilation (src/control/netpolicy.go)

    Typed intent, its validation, and its rendering into the firewall script of one
    node.  [net.ParseCIDR] is not code of the repository: it is the class [CIDRParser],
    which says whether a text is a prefix and whether that prefix is IPv4. *)

From S2P Require Import Prelude Types Text Policy Directory.
Open Scope Z_scope.

(** [None] for a text that is no prefix, otherwise whether [network.IP.To4()] is non-nil. *)
Class CIDRParser := ParseCIDR : string → option bool.


Section Compile.
Context {clock : WallClock} {cidr : CIDRParser}.

Definition validateCIDR (value : string) : result unit :=
  need v4 := ParseCIDR value else "%q is not a valid CIDR";
  refuse (negb v4) "%q is not an IPv4 CIDR";
  Ok tt.

(** A rule's peer: a workload or a prefix, not both and not neither. *)
Definition validate_peer (workload range : string) (none both wrapped : string) : result unit :=
  refuse (bool_decide (workload = "") && bool_decide (range = "")) none;
  refuse (bool_decide (workload ≠ "") && bool_decide (range ≠ "")) both;
  if bool_decide (range ≠ "") then wrap_err wrapped (validateCIDR range) else Ok tt.

Definition validate_ingress (rule : IngressRule) : result unit :=
  validate_peer (Ingress_FromWorkload rule) (Ingress_FromCIDR rule) "ingress rule %d names no source"
    "ingress rule %d names both a workload and a CIDR" "ingress rule %d: %w";;
  refuse ((Ingress_Port rule <? 0) || (65535 <? Ingress_Port rule)) "ingress rule %d has port %d outside 0-65535";
  Ok tt.

Definition validate_egress (rule : EgressRule) : result unit :=
  validate_peer (Egress_ToWorkload rule) (Egress_ToCIDR rule) "egress rule %d names no destination"
    "egress rule %d names both a workload and a CIDR" "egress rule %d: %w";;
  refuse ((Egress_Port rule <? 0) || (65535 <? Egress_Port rule)) "egress rule %d has port %d outside 0-65535";
  Ok tt.

Definition NetworkPolicy_Validate (p : NetworkPolicy) : result unit :=
  refuse (bool_decide (NetPolicy_Workload p = "")) "network policy requires a workload";
  for_all validate_ingress (NetPolicy_Ingress p);;
  for_all validate_egress (NetPolicy_Egress p).

(** ** Compilation *)

Definition preamble : list string :=
  ["add table inet " +:+ PolicyTable;
   "flush table inet " +:+ PolicyTable;
   "add chain inet " +:+ PolicyTable +:+ " input { type filter hook input priority 0 ; policy drop ; }";
   "add chain inet " +:+ PolicyTable +:+ " output { type filter hook output priority 0 ; policy drop ; }";
   "add rule inet " +:+ PolicyTable +:+ " input ct state established,related accept";
   "add rule inet " +:+ PolicyTable +:+ " output ct state established,related accept"].

Definition port_match (port : Z) : string := if 0 <? port then " tcp dport " +:+ Sprint port else "".

Definition ingressRule (destination source : string) (port : Z) : string :=
  "add rule inet " +:+ PolicyTable +:+ " input ip saddr " +:+ source +:+ " ip daddr " +:+ destination +:+
  port_match port +:+ " accept".
Definition egressRule (source destination : string) (port : Z) : string :=
  "add rule inet " +:+ PolicyTable +:+ " output ip saddr " +:+ source +:+ " ip daddr " +:+ destination +:+
  port_match port +:+ " accept".

Definition local_address (workload node : string) (a : Allocation) : option string :=
  if bool_decide (Alloc_Workload a ≠ workload) || bool_decide (Alloc_Node a ≠ node) then None
  else if bool_decide (Alloc_Address a = "") || bool_decide (Alloc_Phase a = AllocationStopped) then None
  else Some (Alloc_Address a +:+ "/32").

Definition localAddresses (w : World) (workload node : string) : list string :=
  sort_Strings (omap (local_address workload node) (values (Allocations w))).

Definition ruleAddresses (directory : gmap string Service) (workload range : string) : list string :=
  if bool_decide (range ≠ "") then [range]
  else match directory !! workload with
       | None => []
       | Some service => sort_Strings ((λ e, Endpoint_Address e +:+ "/32") <$> Service_Endpoints service)
       end.

(** The rules one policy adds for one local address. *)
Definition address_rules (directory : gmap string Service) (p : NetworkPolicy) (address : string) : list string :=
  (NetPolicy_Ingress p ≫= λ rule,
     (λ source, ingressRule address source (Ingress_Port rule)) <$>
       ruleAddresses directory (Ingress_FromWorkload rule) (Ingress_FromCIDR rule)) ++
  (NetPolicy_Egress p ≫= λ rule,
     (λ destination, egressRule address destination (Egress_Port rule)) <$>
       ruleAddresses directory (Egress_ToWorkload rule) (Egress_ToCIDR rule)).

Definition by_workload (p q : NetworkPolicy) : Prop := string_le (NetPolicy_Workload p) (NetPolicy_Workload q).
#[export] Instance by_workload_dec : RelDecision by_workload.
Proof. intros p q. unfold by_workload. apply _. Defined.

Definition compile_policy (w : World) (directory : gmap string Service) (node : string) (rules : list string)
    (p : NetworkPolicy) : result (list string) :=
  let* _ := NetworkPolicy_Validate p in
  Ok (rules ++ (localAddresses w (NetPolicy_Workload p) node ≫= address_rules directory p)).

Definition CompilePolicies (w : World) (ports : gmap string Z) (policies : list NetworkPolicy) (node : string)
    : result CompiledPolicy :=
  let directory := BuildDirectory w ports in
  let* rules := for_each (compile_policy w directory node) preamble (merge_sort by_workload policies) in
  Ok (mkCompiledPolicy node PolicyTable rules).
End Compile.

(** ** What a compiled policy permits *)

Section CompileFacts.
Context {clock : WallClock} {cidr : CIDRParser}.
Implicit Types (w : World) (p : NetworkPolicy).

Lemma localAddresses_elem w workload node address :
  address ∈ localAddresses w workload node ↔
  ∃ id a, Allocations w !! id = Some a ∧ Alloc_Workload a = workload ∧ Alloc_Node a = node ∧ Alloc_Address a ≠ "" ∧
    Alloc_Phase a ≠ AllocationStopped ∧ address = Alloc_Address a +:+ "/32".
Proof.
  unfold localAddresses. rewrite elem_of_sort_Strings, list_elem_of_omap. setoid_rewrite elem_of_values. split.
  - intros (a & [id Ha] & H). exists id, a. unfold local_address in H.
    destruct (_ || _) eqn:E; [done|]. destruct (bool_decide (Alloc_Address a = "") || _) eqn:E2; [done|].
    bool_simpl. injection H as <-. done.
  - intros (id & a & Ha & Hw & Hn & Hx & Hp & ->). exists a. split; [by exists id|]. unfold local_address.
    rewrite !(bool_decide_false (_ ≠ _)) by (intros H; by apply H). cbn [orb].
    by rewrite !bool_decide_false by done.
Qed.

Lemma ruleAddresses_elem w ports workload range peer :
  peer ∈ ruleAddresses (BuildDirectory w ports) workload range ↔
  if bool_decide (range ≠ "") then peer = range
  else ∃ e, e ∈ endpoints_of (BuildDirectory w ports) workload ∧ peer = Endpoint_Address e +:+ "/32".
Proof.
  unfold ruleAddresses, endpoints_of. case_bool_decide; [by rewrite list_elem_of_singleton|].
  destruct (_ !! workload) as [s|]; cbn; [|set_solver].
  rewrite elem_of_sort_Strings, list_elem_of_fmap. naive_solver.
Qed.

(** The statement [rule] is the rendering of a declared permission of [p]. *)
Definition declared_rule w ports (node : string) p (rule : string) : Prop :=
  ∃ address, address ∈ localAddresses w (NetPolicy_Workload p) node ∧
    ((∃ r peer, r ∈ NetPolicy_Ingress p ∧
        peer ∈ ruleAddresses (BuildDirectory w ports) (Ingress_FromWorkload r) (Ingress_FromCIDR r) ∧
        rule = ingressRule address peer (Ingress_Port r)) ∨
     (∃ r peer, r ∈ NetPolicy_Egress p ∧
        peer ∈ ruleAddresses (BuildDirectory w ports) (Egress_ToWorkload r) (Egress_ToCIDR r) ∧
        rule = egressRule address peer (Egress_Port r))).

Lemma compiled_rules_elem w ports node p rule :
  rule ∈ (localAddresses w (NetPolicy_Workload p) node ≫= address_rules (BuildDirectory w ports) p) ↔
  declared_rule w ports node p rule.
Proof.
  rewrite list_elem_of_bind. unfold declared_rule, address_rules.
  setoid_rewrite elem_of_app. setoid_rewrite list_elem_of_bind. setoid_rewrite list_elem_of_fmap. naive_solver.
Qed.

Lemma compile_all w directory node acc ps rules :
  for_each (compile_policy w directory node) acc ps = Ok rules →
  rules = acc ++ (ps ≫= λ p, localAddresses w (NetPolicy_Workload p) node ≫= address_rules directory p) ∧
  ∀ p, p ∈ ps → NetworkPolicy_Validate p = Ok tt.
Proof.
  revert acc. induction ps as [|p ps IH]; intros acc H; cbn [for_each] in H.
  { injection H as <-. rewrite app_nil_r. split; [done|set_solver]. }
  unfold compile_policy at 1 in H. destruct (NetworkPolicy_Validate p) as [[]|] eqn:Hv; [cbn [rbind] in H|done].
  destruct (IH _ H) as [-> Hps]. split; [by rewrite <-(assoc_L (++))|].
  intros q [->|Hq]%elem_of_cons; [done|by apply Hps].
Qed.

(** The script installed on a node permits exactly what was declared.  It starts by
    flushing the table and dropping everything but established traffic; after that there
    is one accept statement for each pair of an address the policy's workload holds on
    that node and a peer its rules name, by prefix or as an instance measured as
    serving, and no other statement; and every policy in it is valid. *)
Theorem compiled_policy_exact w ports policies node compiled
    (H : CompilePolicies w ports policies node = Ok compiled) :
  Compiled_Node compiled = node ∧ Compiled_Table compiled = PolicyTable ∧
  (∃ rules, Compiled_Rules compiled = preamble ++ rules ∧
     ∀ rule, rule ∈ rules ↔ ∃ p, p ∈ policies ∧ declared_rule w ports node p rule) ∧
  ∀ p, p ∈ policies → NetworkPolicy_Validate p = Ok tt.
Proof.
  unfold CompilePolicies in H. destruct (for_each _ _ _) as [rules|] eqn:Hf; [cbn [rbind] in H|done].
  injection H as <-. destruct (compile_all _ _ _ _ _ _ Hf) as [-> Hv]. cbn. split; [done|]. split; [done|].
  assert (∀ p, p ∈ merge_sort by_workload policies ↔ p ∈ policies) as Hs by (intros p; by rewrite merge_sort_Permutation).
  split.
  - eexists. split; [done|]. intros rule. rewrite list_elem_of_bind. setoid_rewrite compiled_rules_elem.
    setoid_rewrite Hs. naive_solver.
  - intros p Hp. by apply Hv, Hs.
Qed.

(** A rule naming a workload that nothing serves permits nothing: without an endpoint
    in the directory it compiles to no statement at all. *)
Theorem unserved_peer_denied w ports workload (Hnone : endpoints_of (BuildDirectory w ports) workload = []) :
  ruleAddresses (BuildDirectory w ports) workload "" = [].
Proof.
  unfold ruleAddresses, endpoints_of in *. rewrite bool_decide_false by (intros H; by apply H).
  destruct (_ !! workload) as [s|]; [|done]. cbn in Hnone. by rewrite Hnone.
Qed.
End CompileFacts.

(** ** A sample: the site may be reached by its front end *)

Module NetPolicySample.
#[local] Instance net_clock : WallClock := 100.
#[local] Instance net_cidr : CIDRParser := λ s, if strings_Contains s "/" then Some true else None.

Definition net_allocation (id workload address : string) : Allocation :=
  (new_Allocation id workload 0 "n1" (workload +:+ "@sha256:1") (mkResources 500 256) Budget_zero)
    <| Alloc_Phase := AllocationRunning |> <| Alloc_Ready := true |> <| Alloc_Address := address |>.
Definition net_world : World :=
  mkWorld 3 100 ∅
    {[ "web-0" := net_allocation "web-0" "web" "10.42.1.2"; "front-0" := net_allocation "front-0" "front" "10.42.1.3" ]}
    ∅ ∅ ∅ ∅ ∅ [] ∅.
Definition net_ports : gmap string Z := {[ "web" := 8080; "front" := 80 ]}.
Definition web_policy : NetworkPolicy :=
  mkNetworkPolicy "web" [mkIngressRule "front" "" 8080] [mkEgressRule "" "192.0.2.0/24" 443].
Definition web_compiled : CompiledPolicy :=
  mkCompiledPolicy "n1" PolicyTable
    (preamble ++ [ingressRule "10.42.1.2/32" "10.42.1.3/32" 8080; egressRule "10.42.1.2/32" "192.0.2.0/24" 443]).

Lemma compiled_policy_exact_witness :
  CompilePolicies net_world net_ports [web_policy] "n1" = Ok web_compiled ∧ Compiled_Node web_compiled = "n1".
Proof.
  split; [vm_compute; reflexivity|].
  refine (proj1 (compiled_policy_exact net_world net_ports [web_policy] "n1" web_compiled _)).
  vm_compute. reflexivity.
Defined.

Lemma unserved_peer_denied_witness : ruleAddresses (BuildDirectory net_world net_ports) "batch" "" = [].
Proof. refine (unserved_peer_denied net_world net_ports "batch" _). vm_compute. reflexivity. Defined.
End NetPolicySample.
