(* ===== verification/Agents.v ===== *)
(** * The placement and network agents (src/control/agents.go)

    The deterministic agents that propose where missing replicas go, and which names,
    firewall rules and routes are published.  An agent's [Propose] returns a proposal
    or an error; the partial proposal the source returns beside an error is not kept,
    as no caller reads it. *)

From S2P Require Import Prelude Types Text Spread Policy Executor Directory NetPolicy.
Open Scope Z_scope.

Definition MaxReplicasPerProposal : Z := 2.
Definition maxQueueDepthAge : duration := 60 * Second.

Definition placement_Descriptor : AgentDescriptor :=
  mkAgentDescriptor "placement-agent" "place and start workload allocations"
    [ActionPullImage; ActionCreateAllocation; ActionStartAllocation].
Definition network_Descriptor : AgentDescriptor :=
  mkAgentDescriptor "network-agent" "publish approved workload routes and service names"
    [ActionPublishRoute; ActionPublishZone].

(** [fmt.Sprintf("%s-r%d", descriptor.ID, world.Revision)] *)
Definition proposal_of (d : AgentDescriptor) (g : Goal) (w : World) (reasoning : string) (actions : list Action)
    (checks : list Check_) : Proposal :=
  mkProposal (Agent_ID d +:+ "-r" +:+ Sprint (Revision w)) (Agent_ID d) (Goal_ID g) (Revision w) reasoning actions checks.

Section Agents.
Context {clock : WallClock}.

(** ** Demand *)

Definition workloadQueue (g : Goal) (w : World) : option Queue :=
  match Workload_Runtime (Goal_Workload g) with
  | None => None
  | Some runtime =>
      if bool_decide (Runtime_Queue runtime = "") then None
      else match Queues w !! Runtime_Queue runtime with
           | None => None
           | Some queue => if bool_decide (Queue_Workload queue ≠ Workload_Name (Goal_Workload g)) then None else Some queue
           end
  end.

Definition queueFresh (q : Queue) (now : time) : bool :=
  if IsZero (Queue_ObservedAt q) then false else time_Sub now (Queue_ObservedAt q) <=? maxQueueDepthAge.

Definition desiredReplicas (g : Goal) (w : World) (running : Z) : Z :=
  let replicas := Workload_Replicas (Goal_Workload g) in
  match workloadQueue g w with
  | None => replicas
  | Some queue =>
      if negb (queueFresh queue (Now w)) then replicas
      else let desired := DesiredWorkers (Some queue) running in
           if desired <? replicas then replicas else desired
  end.

(** ** Where durable data lives *)

Fixpoint volume_home (w : World) (refs : list VolumeRef) : string :=
  match refs with
  | [] => ""
  | ref :: refs => match Volumes w !! VolumeRef_Name ref with Some v => Vol_Node v | None => volume_home w refs end
  end.
Definition volumeHome (g : Goal) (w : World) : string := volume_home w (Workload_Volumes (Goal_Workload g)).

Fixpoint volume_in_flight (w : World) (refs : list VolumeRef) : string :=
  match refs with
  | [] => ""
  | ref :: refs =>
      match Volumes w !! VolumeRef_Name ref with
      | Some v => if bool_decide (is_Some (Vol_Handoff v)) then VolumeRef_Name ref else volume_in_flight w refs
      | None => volume_in_flight w refs
      end
  end.
Definition volumeInFlight (g : Goal) (w : World) : string := volume_in_flight w (Workload_Volumes (Goal_Workload g)).

(** ** Choosing a node *)

Record Reservations := mkReservations {
  Reserved : gmap string Resources; ReservedBudget : gmap string Budget; Occupancy : gmap string Z }.

(** What the loop of [selectNode] finds out about one node. *)
Inductive verdict := Unsuitable | Crowded | Unreachable | Feasible (freeMemory : Z).

Definition judge_node (g : Goal) (w : World) (r : Reservations) (id : string) (node : Node) : verdict :=
  let ceiling := MaxPerDomain g in
  if negb (Schedulable node) || negb (nodeAllowed (Goal_Constraints g) node) then Unsuitable
  else if (0 <? ceiling) && (ceiling <=? default 0 (Occupancy r !! FailureDomain (Some node))) then Crowded
  else
    let used := Resources_Add (Resources_Add (Node_Used node) (default Resources_zero (Reserved r !! id)))
                  (Workload_Resources (Goal_Workload g)) in
    if negb (Resources_Fits used (Node_Capacity node)) then Unsuitable
    else
      let free := Feasible (i64 (MemoryMB (Node_Capacity node) - MemoryMB used)) in
      match Workload_Runtime (Goal_Workload g) with
      | None => free
      | Some runtime =>
          if negb (CanReach node (Runtime_Provider runtime) (Now w)) then Unreachable
          else
            let committed := Budget_Add (Budget_Add (Node_BudgetUsed node) (default Budget_zero (ReservedBudget r !! id)))
                               (Runtime_Budget runtime) in
            if negb (Budget_Fits committed (Node_BudgetCapacity node)) then Unsuitable else free
      end.

Record Search := mkSearch { Selected : option Node; BestFree : Z; UnreachableCount : Z; CrowdedCount : Z }.

Definition search_node (g : Goal) (w : World) (r : Reservations) (s : Search) (id : string) : Search :=
  match Nodes w !! id with
  | None => s
  | Some node =>
      match judge_node g w r id node with
      | Unsuitable => s
      | Crowded => mkSearch (Selected s) (BestFree s) (UnreachableCount s) (CrowdedCount s + 1)
      | Unreachable => mkSearch (Selected s) (BestFree s) (UnreachableCount s + 1) (CrowdedCount s)
      | Feasible free =>
          if bool_decide (Selected s = None) || (BestFree s <? free)
          then mkSearch (Some node) free (UnreachableCount s) (CrowdedCount s) else s
      end
  end.

Definition node_ids (w : World) : list string := sort_Strings (map_to_list (Nodes w)).*1.

Definition selectNode (g : Goal) (w : World) (r : Reservations) : result Node :=
  let s := foldl (search_node g w r) (mkSearch None (-1) 0 0) (node_ids w) in
  match Selected s with
  | Some node => Ok node
  | None =>
      refuse (bool_decide (is_Some (Workload_Runtime (Goal_Workload g))) && (0 <? UnreachableCount s))
        "no healthy node can reach provider %q with budget capacity for workload %q";
      refuse (0 <? CrowdedCount s) "every candidate failure domain already holds %d replicas of workload %q";
      Err (Errorf "no healthy node satisfies placement and capacity constraints")
  end.

(** ** The actions of one replica *)

Definition pull_action (g : Goal) (allocationID : string) (node : Node) : Action :=
  Action_zero <| Action_ID := "pull-" +:+ allocationID |> <| Action_Kind := ActionPullImage |>
    <| Action_Target := Workload_Image (Goal_Workload g) |> <| Action_Node := Node_ID node |>
    <| Action_Image := Workload_Image (Goal_Workload g) |>.

Definition create_action (g : Goal) (allocationID : string) (node : Node) (replica : Z) (deps : list string) : Action :=
  Action_zero <| Action_ID := "create-" +:+ allocationID |> <| Action_Kind := ActionCreateAllocation |>
    <| Action_Target := allocationID |> <| Action_Workload := Workload_Name (Goal_Workload g) |>
    <| Action_Node := Node_ID node |> <| Action_Image := Workload_Image (Goal_Workload g) |>
    <| Action_Replica := replica |> <| Action_Resources := Workload_Resources (Goal_Workload g) |>
    <| Action_Budget := match Workload_Runtime (Goal_Workload g) with
                        | Some runtime => Runtime_Budget runtime | None => Budget_zero end |>
    <| Action_DependsOn := deps |>.

(** An action on the allocation being placed. *)
Definition replica_action (g : Goal) (id : string) (kind : ActionKind) (target : string) (node : Node)
    (deps : list string) : Action :=
  Action_zero <| Action_ID := id |> <| Action_Kind := kind |> <| Action_Target := target |>
    <| Action_Workload := Workload_Name (Goal_Workload g) |> <| Action_Node := Node_ID node |>
    <| Action_DependsOn := deps |>.

Definition grant_actions (g : Goal) (allocationID : string) (node : Node) : list Action :=
  match Workload_Runtime (Goal_Workload g) with
  | Some runtime =>
      if 0 <? len (Runtime_Tools runtime)
      then [(replica_action g ("grant-tools-" +:+ allocationID) ActionGrantTools allocationID node ["create-" +:+ allocationID])
              <| Action_Tools := Runtime_Tools runtime |>]
      else []
  | None => []
  end.

(** The actions that put one volume in place; the last of them is the attachment. *)
Definition volume_actions (g : Goal) (w : World) (allocationID : string) (node : Node) (ref : VolumeRef) : list Action :=
  let createVolumeID := "create-volume-" +:+ VolumeRef_Name ref in
  let absent := bool_decide (¬ is_Some (Volumes w !! VolumeRef_Name ref)) in
  (if absent
   then [(replica_action g createVolumeID ActionCreateVolume (VolumeRef_Name ref) node []) <| Action_Volume := Some ref |>]
   else []) ++
  [(replica_action g ("attach-volume-" +:+ VolumeRef_Name ref +:+ "-" +:+ allocationID) ActionAttachVolume allocationID node
      (["create-" +:+ allocationID] ++ if absent then [createVolumeID] else [])) <| Action_Volume := Some ref |>].

Definition mount_action (g : Goal) (allocationID : string) (node : Node) (ref : SecretRef) : Action :=
  (replica_action g ("mount-" +:+ Secret_Name ref +:+ "-" +:+ allocationID) ActionMountSecret allocationID node
     ["create-" +:+ allocationID]) <| Action_Secret := Some ref |>.

Definition network_actions (g : Goal) (allocationID : string) (node : Node) : list Action :=
  if 0 <? Workload_Port (Goal_Workload g)
  then [(replica_action g ("attach-" +:+ allocationID) ActionAttachNetwork allocationID node ["create-" +:+ allocationID])
          <| Action_Port := Workload_Port (Goal_Workload g) |>]
  else [].

(** What the start action depends on: every preparation but the creation of volumes. *)
Definition start_deps (g : Goal) (allocationID : string) (node : Node) : list string :=
  ["create-" +:+ allocationID] ++ (Action_ID <$> grant_actions g allocationID node) ++
  ((λ ref, "attach-volume-" +:+ VolumeRef_Name ref +:+ "-" +:+ allocationID) <$> Workload_Volumes (Goal_Workload g)) ++
  (Action_ID <$> (mount_action g allocationID node <$> Workload_Secrets (Goal_Workload g))) ++
  (Action_ID <$> network_actions g allocationID node).

Definition needs_pull (g : Goal) (node : Node) : bool := negb (image_present node (Workload_Image (Goal_Workload g))).

Definition replica_actions (g : Goal) (w : World) (replica : Z) (node : Node) : list Action :=
  let allocationID := AllocationID (Workload_Name (Goal_Workload g)) replica in
  (if needs_pull g node then [pull_action g allocationID node] else []) ++
  [create_action g allocationID node replica (if needs_pull g node then ["pull-" +:+ allocationID] else [])] ++
  grant_actions g allocationID node ++
  (Workload_Volumes (Goal_Workload g) ≫= volume_actions g w allocationID node) ++
  (mount_action g allocationID node <$> Workload_Secrets (Goal_Workload g)) ++
  network_actions g allocationID node ++
  [replica_action g ("start-" +:+ allocationID) ActionStartAllocation allocationID node (start_deps g allocationID node)].

Definition ready_check (g : Goal) (replica : Z) : Check_ :=
  mkCheck (if bool_decide (is_Some (Workload_Runtime (Goal_Workload g))) then CheckAgentReady else CheckAllocationReady)
    (AllocationID (Workload_Name (Goal_Workload g)) replica) "true".

(** ** PlacementAgent.Propose *)

(** Does this allocation fill its replica slot? *)
Definition fills_slot (g : Goal) (w : World) (a : Allocation) : bool :=
  bool_decide (Alloc_Workload a = Workload_Name (Goal_Workload g)) && negb (bool_decide (Alloc_Phase a = AllocationStopped)) &&
  match Nodes w !! Alloc_Node a with
  | None => false
  | Some node =>
      bool_decide (Alloc_Image a = Workload_Image (Goal_Workload g)) &&
      bool_decide (Alloc_Resources a = Workload_Resources (Goal_Workload g)) && nodeAllowed (Goal_Constraints g) node
  end.

Definition existing_replicas (g : Goal) (w : World) : gset Z :=
  list_to_set (Alloc_Replica <$> filter (λ a, fills_slot g w a = true) (values (Allocations w))).

(** The node a replica goes to: the best one, unless durable data pins it. *)
Definition placement_node (g : Goal) (w : World) (r : Reservations) : result Node :=
  let* node := selectNode g w r in
  refuse (bool_decide (volumeInFlight g w ≠ "")) "volume %q for workload %q is being moved; wait for the handoff to finish";
  let home := volumeHome g w in
  if bool_decide (home ≠ "") then
    match Nodes w !! home with
    | Some pinned => refuse (negb (Schedulable pinned)) "volume for workload %q lives on node %q, which is not available"; Ok pinned
    | None => Err (Errorf "volume for workload %q lives on node %q, which is not available")
    end
  else Ok node.

Definition reserve (g : Goal) (r : Reservations) (node : Node) : Reservations :=
  let id := Node_ID node in
  mkReservations
    (<[id := Resources_Add (default Resources_zero (Reserved r !! id)) (Workload_Resources (Goal_Workload g))]> (Reserved r))
    (match Workload_Runtime (Goal_Workload g) with
     | Some runtime => <[id := Budget_Add (default Budget_zero (ReservedBudget r !! id)) (Runtime_Budget runtime)]> (ReservedBudget r)
     | None => ReservedBudget r
     end)
    (map_incr (Occupancy r) (FailureDomain (Some node))).

(** The placement loop over the replica indices still to be visited. *)
Fixpoint place_replicas (g : Goal) (w : World) (existing : gset Z) (r : Reservations) (placed : Z)
    (replicas : list Z) : result (list Action * list Check_) :=
  match replicas with
  | [] => Ok ([], [])
  | replica :: replicas =>
      if bool_decide (replica ∈ existing) then place_replicas g w existing r placed replicas
      else
        let* node := placement_node g w r in
        let* (actions, checks) :=
          if MaxReplicasPerProposal <=? placed + 1 then Ok ([], [])
          else place_replicas g w existing (reserve g r node) (placed + 1) replicas in
        Ok (replica_actions g w replica node ++ actions, ready_check g replica :: checks)
  end.

Definition placement_Propose (g : Goal) (w : World) : result Proposal :=
  let existing := existing_replicas g w in
  let r := mkReservations ∅ ∅ (DomainOccupancy w (Workload_Name (Goal_Workload g))) in
  let desired := desiredReplicas g w (Z.of_nat (size existing)) in
  let* (actions, checks) := place_replicas g w existing r 0 (seqZ 0 desired) in
  Ok (proposal_of placement_Descriptor g w
        "place missing replicas on healthy nodes that satisfy hard constraints and capacity" actions checks).
End Agents.

(** ** NetworkAgent *)

Section Network.
Context {clock : WallClock} {cidr : CIDRParser} {digest : Digest}.

Definition own_port (g : Goal) : gmap string Z := {[ Workload_Name (Goal_Workload g) := Workload_Port (Goal_Workload g) ]}.

(** [if len(actions) > 1 { actions = actions[:1] }] *)
Definition at_most_one {A} (l : list A) : list A := take 1 l.

Definition node_action (g : Goal) (prefix : string) (kind : ActionKind) (id : string) : Action :=
  Action_zero <| Action_ID := prefix +:+ id |> <| Action_Kind := kind |> <| Action_Target := id |>
    <| Action_Node := id |> <| Action_Workload := Workload_Name (Goal_Workload g) |>.

Definition own_policy (g : Goal) (policy : NetworkPolicy) : NetworkPolicy :=
  if bool_decide (NetPolicy_Workload policy = "")
  then mkNetworkPolicy (Workload_Name (Goal_Workload g)) (NetPolicy_Ingress policy) (NetPolicy_Egress policy)
  else policy.

Definition stale_policy (g : Goal) (w : World) (policy : NetworkPolicy) (id : string) : option Action :=
  match CompilePolicies w (own_port g) [policy] id, Nodes w !! id with
  | Ok compiled, Some node =>
      if bool_decide (Node_PolicyFingerprint node = CompiledPolicy_Fingerprint compiled) then None
      else Some ((node_action g "apply-policy-" ActionApplyPolicy id) <| Action_Policy := Some compiled |>)
  | _, _ => None
  end.

(** The sorted ids of the nodes that satisfy a condition. *)
Definition nodes_where (w : World) (f : string → Node → bool) : list string :=
  sort_Strings (filter (λ '(id, node), f id node = true) (map_to_list (Nodes w))).*1.

Definition stalePolicies (g : Goal) (w : World) : list Action :=
  match Workload_Policy (Goal_Workload g) with
  | None => []
  | Some policy =>
      let nodes := nodes_where w (λ id node,
                     Node_Healthy node && (0 <? len (localAddresses w (Workload_Name (Goal_Workload g)) id))) in
      at_most_one (omap (stale_policy g w (own_policy g policy)) nodes)
  end.

Definition stale_zone (g : Goal) (w : World) (id : string) : option Action :=
  let zone := BuildServiceZone w (own_port g) id in
  match Nodes w !! id with
  | None => None
  | Some node =>
      if bool_decide (Zone_Records zone = ∅) then None
      else if bool_decide (Node_ZoneFingerprint node = ServiceZone_Fingerprint zone) then None
      else Some ((node_action g "publish-zone-" ActionPublishZone id) <| Action_Zone := Some zone |>)
  end.

Definition staleZones (g : Goal) (w : World) : list Action :=
  let directory := BuildDirectory w (own_port g) in
  if len (endpoints_of directory (Workload_Name (Goal_Workload g))) =? 0 then []
  else at_most_one (omap (stale_zone g w) (nodes_where w (λ _ node, Node_Healthy node))).

Definition routeNode (g : Goal) (w : World) : string :=
  default "" (head (sort_Strings (Alloc_Node <$>
    filter (λ a, Alloc_Workload a = Workload_Name (Goal_Workload g) ∧ Alloc_Ready a = true) (values (Allocations w))))).

Definition publish_action (g : Goal) (w : World) (route : RouteSpec) : Action :=
  Action_zero <| Action_ID := "publish-" +:+ Workload_Name (Goal_Workload g) |> <| Action_Kind := ActionPublishRoute |>
    <| Action_Target := RouteSpec_Host route |> <| Action_Workload := Workload_Name (Goal_Workload g) |>
    <| Action_Node := routeNode g w |> <| Action_Port := RouteSpec_Port route |>
    <| Action_Exposure := RouteSpec_Exposure route |>.

Definition network_Propose (g : Goal) (w : World) : result Proposal :=
  let proposal := proposal_of network_Descriptor g w in
  let zones := staleZones g w in
  let routine :=
    if 0 <? len zones then proposal "publish service names to nodes whose resolver is out of date" zones []
    else proposal "publish the requested route only after every desired replica is ready" [] [] in
  let rules := stalePolicies g w in
  if 0 <? len rules then Ok (proposal "install network policy on nodes whose rules are out of date" rules [])
  else match Goal_Route g with
       | None => Ok routine
       | Some route =>
           if bool_decide (is_Some (Routes w !! RouteSpec_Host route)) then Ok routine
           else if matchingReadyAllocations g w <? Workload_Replicas (Goal_Workload g) then Ok routine
           else Ok (proposal "publish the requested route only after every desired replica is ready"
                      (zones ++ [publish_action g w route])
                      [mkCheck CheckRouteReachable (RouteSpec_Host route) "true"])
       end.
End Network.

(** ** The node placement picks *)

Section Selection.
Context {clock : WallClock}.
Implicit Types (g : Goal) (w : World) (r : Reservations).

Definition feasible g w r (id : string) (n : Node) (free : Z) : Prop :=
  Nodes w !! id = Some n ∧ judge_node g w r id n = Feasible free.

(** After searching some ids: the best of the feasible ones, or none of them is. *)
Definition searched g w r (ids : list string) (s : Search) : Prop :=
  match Selected s with
  | None => ∀ id n free, id ∈ ids → ¬ feasible g w r id n free
  | Some n => (∃ id, id ∈ ids ∧ feasible g w r id n (BestFree s)) ∧
              ∀ id n' free, id ∈ ids → feasible g w r id n' free → free <= BestFree s
  end.

Lemma search_node_step g w r ids s id :
  searched g w r ids s → searched g w r (ids ++ [id]) (search_node g w r s id).
Proof.
  intros Hs. unfold search_node.
  assert (∀ s', Selected s' = Selected s → BestFree s' = BestFree s →
    (∀ n free, ¬ feasible g w r id n free) → searched g w r (ids ++ [id]) s') as Hsame.
  { intros s' H1 H2 Hn. unfold searched in *. rewrite H1, H2. destruct (Selected s) as [n|].
    - destruct Hs as [(i & Hi & Hf) Hb]. split; [exists i; set_solver|].
      intros i' n' free [Hi'| ->%list_elem_of_singleton]%elem_of_app Hf'; [by eapply Hb|by destruct (Hn n' free)].
    - intros i' n' free [Hi'| ->%list_elem_of_singleton]%elem_of_app; [by apply Hs|apply Hn]. }
  destruct (Nodes w !! id) as [n|] eqn:Hid; [|apply Hsame; [done..|]; unfold feasible; intros ? ? [? ?]; congruence].
  destruct (judge_node g w r id n) as [| | |free] eqn:Hj;
    try (apply Hsame; [done..|]; unfold feasible; intros n' f [? ?]; congruence).
  assert (∀ n' f, feasible g w r id n' f → n' = n ∧ f = free) as Huniq.
  { unfold feasible. intros n' f [? ?]. simplify_eq. split; congruence. }
  destruct (bool_decide (Selected s = None) || (BestFree s <? free)) eqn:Eb.
  - unfold searched. cbn. split; [exists id; split; [set_solver|done]|].
    intros i' n' f [Hi'| ->%list_elem_of_singleton]%elem_of_app Hf'; [|by destruct (Huniq _ _ Hf') as [_ ->]].
    unfold searched in Hs. apply orb_true_iff in Eb. destruct (Selected s) as [m|].
    + destruct Eb as [Eb|Eb]; bool_simpl; [done|]. destruct Hs as [_ Hs]. specialize (Hs _ _ _ Hi' Hf'). lia.
    + by destruct (Hs i' n' f Hi').
  - apply orb_false_iff in Eb as [E1 E2]. bool_simpl. unfold searched in *. destruct (Selected s) as [m|]; [|done].
    destruct Hs as [(i & Hi & Hf) Hb]. split; [exists i; set_solver|].
    intros i' n' f [Hi'| ->%list_elem_of_singleton]%elem_of_app Hf'; [by eapply Hb|].
    destruct (Huniq _ _ Hf') as [_ ->]. lia.
Qed.

Lemma search_nodes g w r ids : searched g w r ids (foldl (search_node g w r) (mkSearch None (-1) 0 0) ids).
Proof.
  induction ids as [|id ids IH] using rev_ind; [intros id n free H; by apply not_elem_of_nil in H|].
  rewrite foldl_snoc. by apply search_node_step.
Qed.

Lemma elem_of_node_ids w id : id ∈ node_ids w ↔ is_Some (Nodes w !! id).
Proof.
  unfold node_ids. rewrite elem_of_sort_Strings, list_elem_of_fmap. split.
  - intros ([k n] & -> & H%elem_of_map_to_list). by exists n.
  - intros [n H]. exists (id, n). split; [done|]. by apply elem_of_map_to_list.
Qed.

Lemma selectNode_spec g w r :
  match selectNode g w r with
  | Ok n => ∃ id free, feasible g w r id n free ∧ ∀ id' n' free', feasible g w r id' n' free' → free' <= free
  | Err _ => ∀ id n free, ¬ feasible g w r id n free
  end.
Proof.
  pose proof (search_nodes g w r (node_ids w)) as H. unfold selectNode.
  set (s := foldl _ _ _) in *. unfold searched in H. destruct (Selected s) as [n|].
  - destruct H as [(id & _ & Hf) Hb]. exists id, (BestFree s). split; [done|]. intros id' n' free' Hf'.
    eapply Hb; [|exact Hf']. apply elem_of_node_ids. destruct Hf' as [-> _]. done.
  - assert (∀ id n free, ¬ feasible g w r id n free) as Hnone.
    { intros id n free Hf. apply (H id n free); [|done]. apply elem_of_node_ids. destruct Hf as [-> _]. done. }
    by destruct (_ && _), (0 <? CrowdedCount s).
Qed.

(** What being feasible means. *)
Lemma feasible_inv g w r id n free :
  feasible g w r id n free →
  Nodes w !! id = Some n ∧ Schedulable n = true ∧ nodeAllowed (Goal_Constraints g) n = true ∧
  (0 < MaxPerDomain g → default 0 (Occupancy r !! FailureDomain (Some n)) < MaxPerDomain g) ∧
  Resources_Fits (Resources_Add (Resources_Add (Node_Used n) (default Resources_zero (Reserved r !! id)))
                    (Workload_Resources (Goal_Workload g))) (Node_Capacity n) = true ∧
  match Workload_Runtime (Goal_Workload g) with
  | None => True
  | Some runtime =>
      CanReach n (Runtime_Provider runtime) (Now w) = true ∧
      Budget_Fits (Budget_Add (Budget_Add (Node_BudgetUsed n) (default Budget_zero (ReservedBudget r !! id)))
                     (Runtime_Budget runtime)) (Node_BudgetCapacity n) = true
  end.
Proof.
  intros [Hn Hj]. unfold judge_node in Hj.
  destruct (Schedulable n) eqn:E1; [|done]. destruct (nodeAllowed (Goal_Constraints g) n) eqn:E2; [|done].
  destruct (_ && _) eqn:E3 in Hj; [done|]. destruct (Resources_Fits _ _) eqn:E4 in Hj; [|done]. cbn [negb] in Hj.
  split; [done|]. split; [done|]. split; [done|]. split; [|split; [done|]].
  - intros Hc. apply andb_false_iff in E3 as [E3|E3]; bool_simpl; lia.
  - destruct (Workload_Runtime _) as [runtime|]; [|done]. destruct (CanReach _ _ _) eqn:E5; [|done].
    by destruct (Budget_Fits _ _).
Qed.

(** Placement picks the roomiest node the goal allows.  The node it selects is healthy
    and uncordoned, satisfies the constraints, stays below the domain ceiling and has
    room for the workload on top of what is already reserved (and, for an agent, reaches
    its provider with budget to spare); no other such node has more memory free; and it
    fails only when there is no such node. *)
Theorem selectNode_best g w r :
  match selectNode g w r with
  | Ok n =>
      ∃ id free, judge_node g w r id n = Feasible free ∧
        (Nodes w !! id = Some n ∧ Schedulable n = true ∧ nodeAllowed (Goal_Constraints g) n = true ∧
         (0 < MaxPerDomain g → default 0 (Occupancy r !! FailureDomain (Some n)) < MaxPerDomain g)) ∧
        ∀ id' n' free', Nodes w !! id' = Some n' → judge_node g w r id' n' = Feasible free' → free' <= free
  | Err _ => ∀ id n free, Nodes w !! id = Some n → judge_node g w r id n ≠ Feasible free
  end.
Proof.
  pose proof (selectNode_spec g w r) as H. destruct (selectNode g w r) as [n|e].
  - destruct H as (id & free & Hf & Hb). exists id, free.
    destruct (feasible_inv _ _ _ _ _ _ Hf) as (Hn & Hs & Ha & Hc & _). split; [apply Hf|]. split; [done|].
    intros id' n' free' Hn' Hj'. by eapply Hb.
  - intros id n free Hn Hj. by apply (H id n free).
Qed.

(** A queue scales a workload between the replicas its goal declares and the worker
    ceiling of the queue, whatever depth is reported; an old report does not count. *)
Theorem scaling_bounded g w running :
  let replicas := Workload_Replicas (Goal_Workload g) in
  replicas <= desiredReplicas g w running ∧
  (∀ q, workloadQueue g w = Some q → desiredReplicas g w running <= Z.max replicas (Z.max 0 (Queue_MaxWorkers q))) ∧
  (workloadQueue g w = None → desiredReplicas g w running = replicas) ∧
  (∀ q, workloadQueue g w = Some q → queueFresh q (Now w) = false → desiredReplicas g w running = replicas).
Proof.
  cbv zeta. unfold desiredReplicas. destruct (workloadQueue g w) as [q|]; [|split_and!; done || lia].
  destruct (queueFresh q (Now w)) eqn:Ef; cbn [negb].
  - set (d := DesiredWorkers (Some q) running). assert (d <= Z.max 0 (Queue_MaxWorkers q)) as Hd.
    { unfold d, DesiredWorkers. repeat case_match; bool_simpl; lia. }
    destruct (Z.ltb_spec d (Workload_Replicas (Goal_Workload g)));
      (split; [lia|]; split; [intros q' [= <-]; lia|]; split; [done|]; intros q' [= <-]; congruence).
  - split; [done|]. split; [intros q' [= <-]; lia|]. done.
Qed.
End Selection.

(** ** What the network agent publishes *)

Section NetworkFacts.
Context {clock : WallClock} {cidr : CIDRParser} {digest : Digest}.
Implicit Types (g : Goal) (w : World).

Lemma network_Propose_ok g w : ∃ p, network_Propose g w = Ok p.
Proof. unfold network_Propose. repeat case_match; eauto. Qed.

Lemma at_most_one_elem {A} (x : A) l : x ∈ at_most_one l → x ∈ l.
Proof. destruct l; cbn; [done|]. rewrite take_0. set_solver. Qed.

Lemma staleZones_elem g w a :
  a ∈ staleZones g w → ∃ id, a = (node_action g "publish-zone-" ActionPublishZone id)
      <| Action_Zone := Some (BuildServiceZone w (own_port g) id) |>.
Proof.
  unfold staleZones. destruct (_ =? _); [set_solver|]. intros H%at_most_one_elem.
  apply list_elem_of_omap in H as (id & _ & H). exists id. unfold stale_zone in H. repeat case_match; by simplify_eq.
Qed.

Lemma stalePolicies_elem g w a :
  a ∈ stalePolicies g w → ∃ id policy compiled, Workload_Policy (Goal_Workload g) = Some policy ∧
    CompilePolicies w (own_port g) [own_policy g policy] id = Ok compiled ∧
    a = (node_action g "apply-policy-" ActionApplyPolicy id) <| Action_Policy := Some compiled |>.
Proof.
  unfold stalePolicies. destruct (Workload_Policy _) as [policy|]; [|set_solver]. intros H%at_most_one_elem.
  apply list_elem_of_omap in H as (id & _ & H). exists id, policy. unfold stale_policy in H.
  destruct (CompilePolicies _ _ _ _) as [compiled|]; [|done]. exists compiled. repeat case_match; by simplify_eq.
Qed.

(** A route is proposed only when it is missing, when every replica the goal declares is
    ready and matches it, and when no node is waiting for the workload's firewall
    rules: names and routes never run ahead of policy. *)
Theorem route_waits_for_policy_and_replicas g w p a
    (Hp : network_Propose g w = Ok p) (Ha : a ∈ Proposal_Actions p) (Hk : Action_Kind a = ActionPublishRoute) :
  stalePolicies g w = [] ∧ Workload_Replicas (Goal_Workload g) <= matchingReadyAllocations g w ∧
  ∃ route, Goal_Route g = Some route ∧ Routes w !! RouteSpec_Host route = None ∧ a = publish_action g w route.
Proof.
  assert (∀ a, a ∈ staleZones g w → Action_Kind a ≠ ActionPublishRoute) as Hz.
  { intros a' (id & ->)%staleZones_elem. done. }
  assert (∀ a, a ∈ stalePolicies g w → Action_Kind a ≠ ActionPublishRoute) as Hr.
  { intros a' (id & policy & compiled & _ & _ & ->)%stalePolicies_elem. done. }
  unfold network_Propose in Hp. destruct (Z.ltb_spec 0 (len (stalePolicies g w))) as [Hlt|Hge].
  { injection Hp as <-. by destruct (Hr a Ha). }
  assert (stalePolicies g w = []) as Hnil. { unfold len in Hge. destruct (stalePolicies g w); [done|cbn in Hge; lia]. }
  set (routine := if 0 <? len (staleZones g w) then _ else _) in Hp.
  assert (a ∉ Proposal_Actions routine) as Hro.
  { unfold routine. destruct (0 <? len (staleZones g w)); cbn; [intros H; by destruct (Hz a H)|set_solver]. }
  destruct (Goal_Route g) as [route|]; [|injection Hp as <-; done].
  case_bool_decide as Hex; [injection Hp as <-; done|].
  destruct (Z.ltb_spec (matchingReadyAllocations g w) (Workload_Replicas (Goal_Workload g))); [injection Hp as <-; done|].
  injection Hp as <-. cbn in Ha. apply elem_of_app in Ha as [Ha|Ha]; [by destruct (Hz a Ha)|].
  apply list_elem_of_singleton in Ha as ->. split; [done|]. split; [done|]. exists route.
  split; [done|]. split; [by apply eq_None_not_Some|done].
Qed.

Lemma own_port_none g x : x ≠ Workload_Name (Goal_Workload g) → own_port g !! x = None.
Proof. intros H. unfold own_port. by rewrite lookup_singleton_ne. Qed.

Lemma own_directory g w x :
  x ≠ Workload_Name (Goal_Workload g) → endpoints_of (BuildDirectory w (own_port g)) x = [].
Proof.
  intros Hx. rewrite directory_endpoints. apply Permutation_nil_r. rewrite sort_endpoints_perm.
  apply Permutation_nil_r. apply elem_of_nil_inv. intros e (a & He & _)%list_elem_of_bind.
  apply contributes_elem in He as (_ & _ & _ & port & Hport & _). by rewrite own_port_none in Hport.
Qed.

Lemma own_Resolve g w x fromNode :
  x ≠ Workload_Name (Goal_Workload g) → Resolve w (own_port g) x fromNode = [].
Proof.
  intros Hx. apply elem_of_nil_inv. intros r (e & He & _)%Resolve_elem. rewrite own_directory in He by done.
  by apply not_elem_of_nil in He.
Qed.

(** The network agent sees only the workload of the goal at hand.  A rule of its policy
    that names another workload as a peer compiles to nothing however many instances of
    that workload serve, and the zone it publishes, which replaces the node's whole
    zone, leaves out every other workload's name. *)
Theorem network_agent_own_view g w x (Hx : x ≠ Workload_Name (Goal_Workload g)) :
  ruleAddresses (BuildDirectory w (own_port g)) x "" = [] ∧
  ∀ a zone, a ∈ staleZones g w → Action_Zone a = Some zone → Zone_Records zone !! ServiceName x = None.
Proof.
  split.
  - apply elem_of_nil_inv. intros peer (e & He & _)%ruleAddresses_elem. rewrite own_directory in He by done.
    by apply not_elem_of_nil in He.
  - intros a zone (id & ->)%staleZones_elem [= <-]. by rewrite zone_records, decide_True by (by apply own_Resolve).
Qed.
End NetworkFacts.

(** ** Agents at work *)

Module AgentSample.
#[local] Instance agent_clock : WallClock := 100.
#[local] Instance agent_cidr : CIDRParser := λ s, if strings_Contains s "/" then Some true else None.
#[local] Instance agent_digest : Digest := λ s, s.

Definition agent_goal : Goal :=
  mkGoal "a4s.io/v1alpha1" "g1" "serve the site"
    (mkWorkloadSpec "web" "web@sha256:1" 1 8080 (mkResources 500 256) false false [] [] "" None None None None None)
    (Some (mkRouteSpec "example.org" 443 "private")) (mkConstraints ∅ []) None.
Definition agent_node : Node :=
  mkNode "n1" ∅ (mkResources 4000 8192) (mkResources 500 256) ∅ true "" false "" "192.0.2.1" 8443 "" "" ∅ Budget_zero Budget_zero.
Definition agent_world : World :=
  mkWorld 3 100 {[ "n1" := agent_node ]}
    {[ "web-0" := (new_Allocation "web-0" "web" 0 "n1" "web@sha256:1" (mkResources 500 256) Budget_zero)
         <| Alloc_Phase := AllocationRunning |> <| Alloc_Ready := true |> <| Alloc_Address := "10.42.1.2" |> ]}
    ∅ ∅ ∅ ∅ ∅ [] ∅.
Definition network_plan : Proposal :=
  match network_Propose agent_goal agent_world with Ok p => p | Err _ => proposal_of network_Descriptor agent_goal agent_world "" [] [] end.

Lemma route_waits_for_policy_and_replicas_witness :
  Workload_Replicas (Goal_Workload agent_goal) <= matchingReadyAllocations agent_goal agent_world.
Proof.
  refine (proj1 (proj2 (route_waits_for_policy_and_replicas agent_goal agent_world network_plan
    (publish_action agent_goal agent_world (mkRouteSpec "example.org" 443 "private")) _ _ _))).
  - vm_compute. reflexivity.
  - refine (list_elem_of_lookup_2 _ 1 _ _). vm_compute. reflexivity.
  - reflexivity.
Defined.

Lemma network_agent_own_view_witness :
  ruleAddresses (BuildDirectory agent_world (own_port agent_goal)) "db" "" = [].
Proof. exact (proj1 (network_agent_own_view agent_goal agent_world "db" ltac:(discriminate))). Defined.
End AgentSample.
