(* ===== verification/Repair.v ===== *)
(** * The remediation and storage agents (src/control/remediation.go, storage_agent.go)

    Repair walks a ladder, cheapest rung first, one rung per proposal; storage
    maintenance verifies the backup longest unverified.  Both only ever take away or
    read. *)

From S2P Require Import Prelude Types Text Spread Policy Simulate Clone Disruption ClusterBudget Provenance Kernel Rollout Executor Agents.
Open Scope Z_scope.

(** ** RemediationAgent *)

Definition MaxRemediationAttempts : Z := 3.

Definition remediation_Descriptor : AgentDescriptor :=
  mkAgentDescriptor "remediation-agent" "take failed nodes out of service and retire allocations that cannot recover"
    [ActionCordonNode; ActionStopAllocation; ActionDeleteAllocation].

(** The first of a sorted list of candidates; empty when there is none. *)
Definition first_candidate_id (candidates : list string) : string := default "" (head (sort_Strings candidates)).

Definition failedNodeHolding (w : World) (workload : string) : string :=
  first_candidate_id (filter (λ id, map_any (λ a, bool_decide (Alloc_Workload a = workload) &&
                                                  bool_decide (Alloc_Node a = id)) (Allocations w) = true) (UnhealthyNodes w)).

(** The ids of the allocations that satisfy a condition. *)
Definition allocations_where (w : World) (f : string → Allocation → bool) : list string :=
  (filter (λ '(id, a), f id a = true) (map_to_list (Allocations w))).*1.

Definition given_up (w : World) (id : string) : bool :=
  match BackoffState w !! id with Some state => MaxRemediationAttempts <=? Backoff_Failures state | None => false end.

Definition retirable (w : World) (workload id : string) (a : Allocation) : bool :=
  bool_decide (Alloc_Workload a = workload) && bool_decide (Alloc_Phase a = AllocationStopped) && negb (given_up w id).

Definition retirableAllocation (w : World) (workload : string) : string :=
  first_candidate_id (allocations_where w (retirable w workload)).

Definition evacuable (w : World) (workload id : string) (a : Allocation) : bool :=
  bool_decide (Alloc_Workload a = workload) && negb (bool_decide (Alloc_Phase a = AllocationStopped)) &&
  match Nodes w !! Alloc_Node a with Some node => Node_Cordoned node | None => false end.

Definition evacuableAllocation (w : World) (workload : string) : string :=
  first_candidate_id (allocations_where w (evacuable w workload)).

Definition repair_action (id : string) (kind : ActionKind) (target workload : string) (deps : list string) : Action :=
  Action_zero <| Action_ID := id |> <| Action_Kind := kind |> <| Action_Target := target |>
    <| Action_Workload := workload |> <| Action_DependsOn := deps |>.

Definition remediation_Propose (g : Goal) (w : World) : result Proposal :=
  let name := Workload_Name (Goal_Workload g) in
  let proposal := proposal_of remediation_Descriptor g w in
  let node := failedNodeHolding w name in
  if bool_decide (node ≠ "") then
    Ok (proposal "node %q is unhealthy and still holds %q; stop placing work on it"
          [(repair_action ("cordon-" +:+ node) ActionCordonNode node "" []) <| Action_Reason := "unhealthy node holding " +:+ name |>] [])
  else
    let target := retirableAllocation w name in
    if bool_decide (target ≠ "") then
      Ok (proposal "allocation %q stopped and is holding its replica slot; retire it so it can be replaced"
            [repair_action ("delete-" +:+ target) ActionDeleteAllocation target name []] [])
    else
      let target := evacuableAllocation w name in
      if bool_decide (target ≠ "") then
        Ok (proposal "allocation %q runs on a cordoned node; move it off"
              [repair_action ("stop-" +:+ target) ActionStopAllocation target name [];
               repair_action ("delete-" +:+ target) ActionDeleteAllocation target name ["stop-" +:+ target]] [])
      else Ok (proposal "" [] []).

(** ** StorageAgent *)

Definition DefaultVerificationInterval : duration := 7 * 24 * Hour.

Record StorageAgent := mkStorageAgent { Interval : duration }.

Definition storage_Descriptor : AgentDescriptor :=
  mkAgentDescriptor "storage-agent" "verify, snapshot, and recover durable data"
    [ActionSnapshotVolume; ActionDatabaseBackup; ActionBackupSnapshot; ActionRestoreSnapshot; ActionQuiesceVolume;
     ActionTransferVolume; ActionAdoptVolume; ActionPruneSnapshots; ActionVerifyBackup; ActionCollectImages].

Definition storage_proposal (step : string) (g : Goal) (w : World) (reasoning : string) (actions : list Action) : Proposal :=
  mkProposal (Agent_ID storage_Descriptor +:+ "-" +:+ step +:+ "-r" +:+ Sprint (Revision w)) (Agent_ID storage_Descriptor)
    (Goal_ID g) (Revision w) reasoning actions [].

Definition effective_interval (interval : duration) : duration :=
  if interval <=? 0 then DefaultVerificationInterval else interval.

Section Storage.
Context {clock : WallClock}.

(** A volume due for verification, with the age of the last one. *)
Definition due_verification (w : World) (interval : duration) (ref : VolumeRef) : option (Volume * duration) :=
  match Volumes w !! VolumeRef_Name ref with
  | None => None
  | Some v =>
      if bool_decide (Vol_LastSnapshot v = "") then None
      else if bool_decide (is_Some (Vol_Handoff v)) then None
      else
        let since := time_Sub (Now w) (Vol_VerifiedAt v) in
        if negb (IsZero (Vol_VerifiedAt v)) && (since <? interval) then None else Some (v, since)
  end.

(** The order of [sort.Slice]: the oldest first, then by name. *)
Definition more_overdue (a b : Volume * duration) : Prop :=
  if bool_decide (a.2 = b.2) then string_le (Vol_Name a.1) (Vol_Name b.1) else b.2 < a.2.
#[export] Instance more_overdue_dec : RelDecision more_overdue.
Proof. intros a b. unfold more_overdue. destruct (bool_decide _); apply _. Defined.

Definition verify_action (g : Goal) (v : Volume) : Action :=
  Action_zero <| Action_ID := "verify-" +:+ Vol_Name v |> <| Action_Kind := ActionVerifyBackup |>
    <| Action_Target := Vol_Name v |> <| Action_Workload := Workload_Name (Goal_Workload g) |>
    <| Action_Node := Vol_Node v |>
    <| Action_Volume := Some (mkVolumeRef (Vol_Name v) "" false (default "" (Vol_Snapshots v !! Vol_LastSnapshot v))) |>
    <| Action_Snapshot := Vol_LastSnapshot v |>.

Definition storage_Propose (s : StorageAgent) (g : Goal) (w : World) : result Proposal :=
  let interval := effective_interval (Interval s) in
  let candidates := merge_sort more_overdue (omap (due_verification w interval) (Workload_Volumes (Goal_Workload g))) in
  Ok (storage_proposal "verify" g w "verify that the least recently checked backup is still recoverable"
        match candidates with [] => [] | chosen :: _ => [verify_action g chosen.1] end).

Definition backup_action (g : Goal) (label : string) (name : string) (v : Volume) : Action :=
  Action_zero <| Action_ID := "db-backup-" +:+ name |> <| Action_Kind := ActionDatabaseBackup |>
    <| Action_Target := name |> <| Action_Workload := Workload_Name (Goal_Workload g) |> <| Action_Node := Vol_Node v |>
    <| Action_Volume := Some (mkVolumeRef name "" false "") |> <| Action_Snapshot := label |>
    <| Action_Engine := Workload_Engine (Goal_Workload g) |>.

Fixpoint backup_actions (g : Goal) (w : World) (label : string) (refs : list VolumeRef) : list Action :=
  match refs with
  | [] => []
  | ref :: refs =>
      match Volumes w !! VolumeRef_Name ref with
      | None => backup_actions g w label refs
      | Some v => if bool_decide (Workload_Engine (Goal_Workload g) ≠ "") then [backup_action g label (VolumeRef_Name ref) v]
                  else backup_actions g w label refs
      end
  end.

Definition ProposeBackup (g : Goal) (w : World) (label : string) : result Proposal :=
  Ok (storage_proposal "backup" g w "back up the database with its own consistent-backup tool"
        (backup_actions g w label (Workload_Volumes (Goal_Workload g)))).
End Storage.

Definition StaleBackups (w : World) (interval : duration) (at_ : time) : list string :=
  let interval := effective_interval interval in
  sort_Strings (filter (λ '(_, v), negb (bool_decide (Vol_LastSnapshot v = "")) &&
      (IsZero (Vol_VerifiedAt v) || (interval <=? time_Sub at_ (Vol_VerifiedAt v))) = true) (map_to_list (Volumes w))).*1.

(** ** The ladder *)

Lemma first_candidate_spec l :
  (∀ x, x ∈ l → x ≠ "") → (first_candidate_id l = "" ∧ l = []) ∨ (first_candidate_id l ≠ "" ∧ first_candidate_id l ∈ l).
Proof.
  intros Hne. unfold first_candidate_id. destruct (sort_Strings l) as [|x l'] eqn:E; cbn.
  - left. split; [done|]. apply Permutation_nil. by rewrite <-(sort_Strings_perm l), E.
  - right. assert (x ∈ l) by (rewrite <-(elem_of_sort_Strings l x), E; by left). auto.
Qed.

Lemma allocations_where_elem w f id :
  id ∈ allocations_where w f ↔ ∃ a, Allocations w !! id = Some a ∧ f id a = true.
Proof.
  unfold allocations_where. rewrite list_elem_of_fmap. split.
  - intros ([k a] & -> & [Hf Ha%elem_of_map_to_list]%list_elem_of_filter). by exists a.
  - intros (a & Ha & Hf). exists (id, a). split; [done|]. apply list_elem_of_filter. split; [done|].
    by apply elem_of_map_to_list.
Qed.

Lemma UnhealthyNodes_elem w id :
  id ∈ UnhealthyNodes w ↔ ∃ n, Nodes w !! id = Some n ∧ Node_Healthy n = false ∧ Node_Cordoned n = false.
Proof.
  unfold UnhealthyNodes. rewrite elem_of_sort_Strings, list_elem_of_bind. split.
  - intros (k & Hin & _). destruct (Nodes w !! k) as [n|] eqn:E; [|set_solver].
    destruct (Node_Healthy n) eqn:Eh, (Node_Cordoned n) eqn:Ec; cbn in Hin; set_solver.
  - intros (n & Hn & Hh & Hc). exists id. rewrite Hn, Hh, Hc. split; [set_solver|].
    apply list_elem_of_fmap. exists (id, n). split; [done|]. by apply elem_of_map_to_list.
Qed.

(** An unhealthy node nobody has taken out of service, still holding the workload. *)
Definition failed_holder (w : World) (workload id : string) : Prop :=
  ∃ n k a, Nodes w !! id = Some n ∧ Node_Healthy n = false ∧ Node_Cordoned n = false ∧
    Allocations w !! k = Some a ∧ Alloc_Workload a = workload ∧ Alloc_Node a = id.

(** The rungs, each reached only when those above have no work. *)
Inductive repair_step (w : World) (workload : string) : list Action → Prop :=
  | repair_cordon node :
      failed_holder w workload node →
      repair_step w workload [(repair_action ("cordon-" +:+ node) ActionCordonNode node "" [])
                                <| Action_Reason := "unhealthy node holding " +:+ workload |>]
  | repair_retire id a :
      (∀ node, ¬ failed_holder w workload node) →
      Allocations w !! id = Some a → retirable w workload id a = true →
      repair_step w workload [repair_action ("delete-" +:+ id) ActionDeleteAllocation id workload []]
  | repair_evacuate id a :
      (∀ node, ¬ failed_holder w workload node) →
      (∀ id a, Allocations w !! id = Some a → retirable w workload id a = false) →
      Allocations w !! id = Some a → evacuable w workload id a = true →
      repair_step w workload
        [repair_action ("stop-" +:+ id) ActionStopAllocation id workload [];
         repair_action ("delete-" +:+ id) ActionDeleteAllocation id workload ["stop-" +:+ id]]
  | repair_nothing :
      (∀ node, ¬ failed_holder w workload node) →
      (∀ id a, Allocations w !! id = Some a → retirable w workload id a = false ∧ evacuable w workload id a = false) →
      repair_step w workload [].

Definition named (w : World) : Prop := Nodes w !! "" = None ∧ Allocations w !! "" = None.

Lemma failedNodeHolding_spec w workload :
  named w →
  (failedNodeHolding w workload = "" ∧ ∀ node, ¬ failed_holder w workload node) ∨
  (failedNodeHolding w workload ≠ "" ∧ failed_holder w workload (failedNodeHolding w workload)).
Proof.
  intros [Hn _]. unfold failedNodeHolding. set (f := λ id, _ = true).
  assert (∀ id, id ∈ filter f (UnhealthyNodes w) ↔ failed_holder w workload id) as Hin.
  { intros id. rewrite list_elem_of_filter, UnhealthyNodes_elem. unfold f. rewrite map_any_true. unfold failed_holder.
    setoid_rewrite andb_true_iff. setoid_rewrite bool_decide_eq_true. naive_solver. }
  destruct (first_candidate_spec (filter f (UnhealthyNodes w))) as [[E Hnil]|[E Hc]].
  - intros id (n & _ & _ & Hid & _)%Hin ->. congruence.
  - left. split; [done|]. intros node Hf. apply Hin in Hf. rewrite Hnil in Hf. by apply not_elem_of_nil in Hf.
  - right. split; [done|]. by apply Hin.
Qed.

Lemma candidate_spec w f :
  named w →
  let id := first_candidate_id (allocations_where w f) in
  (id = "" ∧ ∀ id a, Allocations w !! id = Some a → f id a = false) ∨
  (id ≠ "" ∧ ∃ a, Allocations w !! id = Some a ∧ f id a = true).
Proof.
  intros [_ Ha]. cbv zeta. destruct (first_candidate_spec (allocations_where w f)) as [[E Hnil]|[E Hc]].
  - intros id (a & Hid & _)%allocations_where_elem ->. congruence.
  - left. split; [done|]. intros id a Hid. destruct (f id a) eqn:Ef; [|done].
    assert (id ∈ allocations_where w f) as Hin by (apply allocations_where_elem; by exists a).
    rewrite Hnil in Hin. by apply not_elem_of_nil in Hin.
  - right. split; [done|]. by apply allocations_where_elem.
Qed.

Lemma ladder_shape g w p (Hw : named w) (Hp : remediation_Propose g w = Ok p) :
  repair_step w (Workload_Name (Goal_Workload g)) (Proposal_Actions p).
Proof.
  unfold remediation_Propose in Hp. set (name := Workload_Name (Goal_Workload g)) in *.
  destruct (failedNodeHolding_spec w name Hw) as [[E1 Hf]|[E1 Hf]].
  2:{ rewrite bool_decide_true in Hp by done. injection Hp as <-. by apply repair_cordon. }
  rewrite bool_decide_false in Hp by (by rewrite E1; intros H). unfold retirableAllocation in Hp.
  destruct (candidate_spec w (retirable w name) Hw) as [[E2 Hr]|[E2 (a & Ha & Hr)]].
  2:{ rewrite bool_decide_true in Hp by done. injection Hp as <-. by eapply repair_retire. }
  rewrite bool_decide_false in Hp by (by rewrite E2; intros H). unfold evacuableAllocation in Hp.
  destruct (candidate_spec w (evacuable w name) Hw) as [[E3 He]|[E3 (a & Ha & He)]].
  - rewrite bool_decide_false in Hp by (by rewrite E3; intros H). injection Hp as <-.
    apply repair_nothing; [done|]. intros id a Ha. split; [by apply Hr|by apply He].
  - rewrite bool_decide_true in Hp by done. injection Hp as <-. by eapply repair_evacuate.
Qed.

(** Repair climbs a ladder.  A remediation proposal cordons an unhealthy node that holds
    the workload; only without one does it retire a stopped allocation, and never one
    that has failed [MaxRemediationAttempts] times; only without either does it move one
    live allocation off a cordoned node; and it is empty exactly when there is nothing
    of the three to do.  It never creates or starts anything. *)
Theorem remediation_follows_ladder g w p (Hw : named w) (Hp : remediation_Propose g w = Ok p) :
  repair_step w (Workload_Name (Goal_Workload g)) (Proposal_Actions p) ∧
  ∀ a, a ∈ Proposal_Actions p → Action_Kind a ∈ Agent_Capabilities remediation_Descriptor ∧
    (Action_Kind a = ActionDeleteAllocation → given_up w (Action_Target a) = true →
       ∃ x, Allocations w !! Action_Target a = Some x ∧ Alloc_Phase x ≠ AllocationStopped).
Proof.
  pose proof (ladder_shape g w p Hw Hp) as Hs. split; [done|]. intros a Ha. destruct Hs as [node Hf|id x Hf Hx Hr|id x Hf Hr Hx He|].
  - apply list_elem_of_singleton in Ha as ->. split; [set_solver|done].
  - apply list_elem_of_singleton in Ha as ->. split; [set_solver|]. intros _ Hg. cbn in Hg.
    unfold retirable in Hr. rewrite Hg in Hr. by rewrite andb_false_r in Hr.
  - apply elem_of_cons in Ha as [->|Ha]; [split; [set_solver|done]|]. apply list_elem_of_singleton in Ha as ->.
    split; [set_solver|]. intros _ _. exists x. split; [done|]. unfold evacuable in He. by bool_simpl.
  - by apply not_elem_of_nil in Ha.
Qed.

(** ** Storage maintenance *)

Section StorageFacts.
Context {clock : WallClock}.

#[local] Instance more_overdue_total : Total more_overdue.
Proof.
  intros a b. unfold more_overdue. repeat case_bool_decide; try congruence; [apply String.leb_total|lia].
Qed.

Lemma Sorted_weaken {A} (R S : A → A → Prop) l : (∀ a b, R a b → S a b) → Sorted R l → Sorted S l.
Proof. intros HRS. induction 1 as [|x l _ IH Hx]; constructor; [done|]. destruct Hx; constructor. by apply HRS. Qed.

Lemma most_overdue_first l x l' y :
  merge_sort more_overdue l = x :: l' → y ∈ l → y.2 <= x.2.
Proof.
  intros E Hy. rewrite <-(merge_sort_Permutation more_overdue l), E in Hy.
  assert (Sorted (λ a b : Volume * duration, b.2 <= a.2) (x :: l')) as Hs.
  { rewrite <-E. apply (Sorted_weaken more_overdue), Sorted_merge_sort, _.
    intros a b H. unfold more_overdue in H. case_bool_decide; lia. }
  apply Sorted_StronglySorted in Hs; [|intros a b c ? ?; lia]. apply StronglySorted_inv in Hs as [_ Hs].
  apply elem_of_cons in Hy as [->|Hy]; [done|]. rewrite Forall_forall in Hs. by apply Hs.
Qed.

(** The storage agent checks the backup that has gone longest without being verified.
    Among the workload's volumes that hold a snapshot, are not being moved and are due,
    it proposes the verification of one no other of which is more overdue, against the
    checksum recorded for its latest snapshot; and nothing when none is due. *)
Theorem storage_verifies_most_overdue s g w :
  let due ref := due_verification w (effective_interval (Interval s)) ref in
  ∃ p, storage_Propose s g w = Ok p ∧
    match Proposal_Actions p with
    | [] => ∀ ref, ref ∈ Workload_Volumes (Goal_Workload g) → due ref = None
    | [a] => ∃ ref v age, ref ∈ Workload_Volumes (Goal_Workload g) ∧ due ref = Some (v, age) ∧ a = verify_action g v ∧
        ∀ ref' v' age', ref' ∈ Workload_Volumes (Goal_Workload g) → due ref' = Some (v', age') → age' <= age
    | _ => False
    end.
Proof.
  cbv zeta. eexists. split; [done|]. cbn [Proposal_Actions storage_proposal].
  set (due := due_verification w _). set (refs := Workload_Volumes _).
  destruct (merge_sort more_overdue (omap due refs)) as [|[v age] l] eqn:E.
  - intros ref Hin. destruct (due ref) as [x|] eqn:Hd; [|done].
    assert (x ∈ omap due refs) as Hx by (apply list_elem_of_omap; by exists ref).
    rewrite <-(merge_sort_Permutation more_overdue (omap due refs)), E in Hx. by apply not_elem_of_nil in Hx.
  - assert ((v, age) ∈ omap due refs) as Hx
      by (rewrite <-(merge_sort_Permutation more_overdue (omap due refs)), E; by left).
    apply list_elem_of_omap in Hx as (ref & Hin & Hd). exists ref, v, age. split_and!; try done.
    intros ref' v' age' Hin' Hd'. apply (most_overdue_first _ _ _ (v', age') E).
    apply list_elem_of_omap. by exists ref'.
Qed.
End StorageFacts.

(** ** Volumes nobody lets go of *)

Section Wedged.
Context `{att : Attest} {clock : WallClock}.

(** The allocation exists and holds volumes. *)
Definition holds_volumes (id : string) (w : World) : Prop :=
  ∃ a, Allocations w !! id = Some a ∧ Alloc_Volumes a ≠ ∅.

Lemma delete_holder_refused g w a :
  Action_Kind a = ActionDeleteAllocation → holds_volumes (Action_Target a) w → validateAction g w a ≠ Ok tt.
Proof.
  intros Hk (x & Hx & Hv) H. unfold validateAction, actionValidators in H. rewrite Hk in H.
  unfold validateDeleteAllocation in H. inv_ok H. simplify_eq. by bool_simpl.
Qed.

Lemma stop_keeps_volumes id w a w' :
  Action_Kind a = ActionStopAllocation → holds_volumes id w → simulateAction w a = Ok w' → holds_volumes id w'.
Proof.
  intros Hk (x & Hx & Hv) H. unfold simulateAction in H. rewrite Hk in H. unfold simulateStopAllocation in H.
  inv_ok H. subst w'. unfold holds_volumes, put_alloc. simpl_set.
  destruct (decide (Action_Target a = id)) as [<-|Hne].
  - simplify_eq. eexists. split; [apply lookup_insert_eq|done].
  - exists x. by rewrite lookup_insert_ne.
Qed.

(** A plan that stops allocations and then deletes one holding volumes is refused. *)
Lemma retire_holder_refused k actor g w p pre a post :
  Proposal_Actions p = pre ++ a :: post → Forall (λ x, Action_Kind x = ActionStopAllocation) pre →
  Action_Kind a = ActionDeleteAllocation → holds_volumes (Action_Target a) w → Authorize k actor g w p ≠ Ok tt.
Proof.
  intros Hsplit Hpre Hk Hv H. apply Authorize_inv in H as (_ & [[sim c] Hrun] & _). rewrite Hsplit in Hrun.
  apply plan_run in Hrun as (_ & _ & _ & _ & Hstep).
  destruct (Hstep pre a post eq_refl) as (_ & _ & mid & mid' & Hmid & Hval & _).
  apply (delete_holder_refused g mid a Hk); [|done]. clear -Hmid Hpre Hv. revert w Hmid Hv.
  induction Hpre as [|x pre Hx _ IH]; intros w Hmid Hv; unfold simulatePlan in Hmid; cbn [for_each] in Hmid.
  - by injection Hmid as <-.
  - destruct (simulateAction w x) as [w1|] eqn:E; [|done]. apply (IH w1 Hmid). by eapply stop_keeps_volumes.
Qed.

(** An allocation that holds volumes is never retired.  The kernel refuses, under every
    policy, goal and approval, each proposal of the remediation agent and of the rollout
    agent that would delete it, because its volumes are still attached; and neither
    agent ever proposes to detach one. *)
Theorem volume_holder_never_retired k actor g w r p id
    (Hp : remediation_Propose g w = Ok p ∨ rollout_Propose r g w = Ok p)
    (Hid : ∀ key a, Allocations w !! key = Some a → Alloc_ID a = key) (Hw : named w) (Hv : holds_volumes id w) :
  (∃ a, a ∈ Proposal_Actions p ∧ Action_Kind a = ActionDeleteAllocation ∧ Action_Target a = id) →
  Authorize k actor g w p ≠ Ok tt.
Proof.
  intros (a & Ha & Hk & Ht).
  assert (∃ pre post, Proposal_Actions p = pre ++ a :: post ∧ Forall (λ x, Action_Kind x = ActionStopAllocation) pre)
    as (pre & post & Hsplit & Hpre).
  { assert (∀ s d, Action_Kind s = ActionStopAllocation → a ∈ [s; d] → ∃ pre post, [s; d] = pre ++ a :: post ∧
      Forall (λ x, Action_Kind x = ActionStopAllocation) pre) as Htwo.
    { intros s d Hs [->|[->|[]%not_elem_of_nil]%elem_of_cons]%elem_of_cons; [by exists [], [d]|].
      exists [s], []. split; [done|]. by constructor. }
    assert (∀ d, a ∈ [d] → ∃ pre post, [d] = pre ++ a :: post ∧
      Forall (λ x, Action_Kind x = ActionStopAllocation) pre) as Hone.
    { intros d ->%list_elem_of_singleton. by exists [], []. }
    destruct Hp as [Hp|Hp].
    - pose proof (ladder_shape g w p Hw Hp) as Hs. destruct Hs; auto. by apply not_elem_of_nil in Ha.
    - unfold rollout_Propose in Hp. repeat case_match; try done; injection Hp as <-; cbn [Proposal_Actions] in *;
        first [by apply not_elem_of_nil in Ha|by apply Hone|by apply Htwo]. }
  by eapply retire_holder_refused; [exact Hsplit|done|done|rewrite Ht].
Qed.
End Wedged.

(** ** Repair at work *)

Module RepairSample.
#[local] Instance repair_clock : WallClock := 100.
#[local] Instance repair_attest : Attest := Build_Attest (λ _, None) (λ _ _ _, false) (λ _, Malformed).

Definition db_goal : Goal :=
  mkGoal "a4s.io/v1alpha1" "g1" "keep the ledger"
    (mkWorkloadSpec "db" "db@sha256:1" 1 0 (mkResources 500 256) false true [] [mkVolumeRef "data" "/data" false ""] "" None None
       None None None) None (mkConstraints ∅ []) None.
Definition db_alloc : Allocation :=
  (new_Allocation "db-0" "db" 0 "n1" "db@sha256:1" (mkResources 500 256) Budget_zero)
    <| Alloc_Phase := AllocationStopped |> <| Alloc_Volumes := {[ "data" := 1 ]} |>.
Definition db_world : World :=
  mkWorld 4 100
    {[ "n1" := mkNode "n1" ∅ (mkResources 4000 8192) Resources_zero ∅ true "" false "" "" 0 "" "" ∅ Budget_zero Budget_zero ]}
    {[ "db-0" := db_alloc ]} ∅ ∅ ∅ {[ "a1" := mkApproval "a1" "g1" "destroy-stateful" "op" true 50 0 0 "" "" "" ]} ∅ [] ∅.
Definition repair_plan : Proposal :=
  match remediation_Propose db_goal db_world with Ok p => p | Err _ => mkProposal "" "" "" 0 "" [] [] end.

Lemma remediation_follows_ladder_witness :
  Proposal_Actions repair_plan = [repair_action "delete-db-0" ActionDeleteAllocation "db-0" "db" []] ∧
  repair_step db_world "db" (Proposal_Actions repair_plan).
Proof.
  split; [vm_compute; reflexivity|].
  refine (proj1 (remediation_follows_ladder db_goal db_world repair_plan _ _)); [split; reflexivity|vm_compute; reflexivity].
Defined.

Lemma volume_holder_never_retired_witness :
  Authorize DefaultPolicy remediation_Descriptor db_goal db_world repair_plan ≠ Ok tt.
Proof.
  refine (volume_holder_never_retired DefaultPolicy remediation_Descriptor db_goal db_world (mkRolloutAgent 0) repair_plan "db-0"
    _ _ _ _ _).
  - left. vm_compute. reflexivity.
  - intros key a. cbn. rewrite lookup_singleton_Some. intros [<- <-]. reflexivity.
  - split; reflexivity.
  - exists db_alloc. split; [reflexivity|discriminate].
  - eexists. split; [refine (list_elem_of_lookup_2 _ 0 _ _); vm_compute; reflexivity|split; reflexivity].
Defined.
End RepairSample.
