(* ===== verification/Placement.v ===== *)
(** * What placement proposes, the kernel accepts

    The placement agent and the policy kernel judge nodes by separate code: the agent
    against the observed world and its own reservations, the kernel against a world it
    simulates action by action.  For workloads without volumes, secrets or an agent
    runtime the two agree. *)

From S2P Require Import Prelude Types Text Spread Policy Simulate Clone Disruption ClusterBudget Provenance Kernel Guarantees Governance Rollout Executor NetPolicy Agents Repair.
Open Scope Z_scope.

(** ** Sums that wrap *)

Lemma i64_add_l a b : i64 (i64 a + b) = i64 (a + b).
Proof.
  unfold i64. set (h := 9223372036854775808).
  replace ((a + h) mod two64 - h + b + h) with ((a + h) mod two64 + b) by ring.
  rewrite Zplus_mod_idemp_l. do 2 f_equal. ring.
Qed.

Lemma i64_add_r a b : i64 (a + i64 b) = i64 (a + b).
Proof. rewrite Z.add_comm, i64_add_l. f_equal. ring. Qed.

Lemma Resources_Add_assoc a b c :
  Resources_Add (Resources_Add a b) c = Resources_Add a (Resources_Add b c).
Proof. unfold Resources_Add. cbn. f_equal; rewrite i64_add_l, i64_add_r; f_equal; ring. Qed.

Lemma Resources_Add_zero a x : Resources_Add (Resources_Add a Resources_zero) x = Resources_Add a x.
Proof. unfold Resources_Add. cbn. f_equal; rewrite i64_add_l; f_equal; ring. Qed.

(** ** Action ids *)

Lemma append_inj_l p s t : p +:+ s = p +:+ t → s = t.
Proof. induction p as [|c p IH]; [done|]. intros [= H]. by apply IH. Qed.

Lemma AllocationID_inj workload r r' : AllocationID workload r = AllocationID workload r' → r = r'.
Proof. unfold AllocationID. intros H%append_inj_l%append_inj_l. by apply (inj pretty) in H. Qed.

Definition step_prefixes : list string := ["pull-"; "create-"; "attach-"; "start-"].

Lemma prefixes_inj p p' s s' : p ∈ step_prefixes → p' ∈ step_prefixes → p +:+ s = p' +:+ s' → p = p' ∧ s = s'.
Proof.
  intros Hp Hp' H. unfold step_prefixes in *. rewrite !elem_of_cons, elem_of_nil in Hp, Hp'.
  destruct Hp as [->|[->|[->|[->|[]]]]], Hp' as [->|[->|[->|[->|[]]]]]; try discriminate H;
    (split; [done|]; by apply append_inj_l in H).
Qed.

(** ** Accepting one action *)

Section Accept.
Context `{att : Attest} {clock : WallClock}.

Lemma plan_step_intro grants g sim c a sim' :
  Action_ID a ≠ "" → (Action_ID a ∉ c) → is_granted grants (Action_Kind a) = true →
  (∀ d, d ∈ Action_DependsOn a → d ∈ c) → validateAction g sim a = Ok tt → simulateAction sim a = Ok sim' →
  plan_step grants g (sim, c) a = Ok (sim', {[Action_ID a]} ∪ c).
Proof.
  intros Hid Hc Hg Hd Hv Hs. unfold plan_step. rewrite !bool_decide_false by done. cbn [orb]. rewrite Hg. cbn [negb].
  assert (for_all (λ dependency, if bool_decide (dependency ∉ c)
    then Err (Errorf "action %q has unsatisfied dependency %q") else Ok tt) (Action_DependsOn a) = Ok tt) as ->.
  { apply for_all_ok. intros d H. rewrite bool_decide_false; [done|]. intros Hn. by apply Hn, Hd. }
  cbn [rbind]. rewrite Hv. cbn [wrap_err rbind]. rewrite Hs. done.
Qed.

Definition placement_grants : list (ActionKind * bool) := default [] (Grants DefaultPolicy !! "placement-agent").

(** ** The simulated cluster *)

Record plain (g : Goal) : Prop := {
  plain_runtime : Workload_Runtime (Goal_Workload g) = None;
  plain_volumes : Workload_Volumes (Goal_Workload g) = [];
  plain_secrets : Workload_Secrets (Goal_Workload g) = [];
  plain_pinned : strings_Contains (Workload_Image (Goal_Workload g)) "@sha256:" = true;
  plain_attestation : Workload_Attestation (Goal_Workload g) = None }.

Context (g : Goal) (w : World) (Hplain : plain g).
Context (Hkeys : ∀ id n, Nodes w !! id = Some n → Node_ID n = id).

Let name := Workload_Name (Goal_Workload g).

(** A node of the simulation beside the observed one: the same but for images it has
    gained and room that was reserved on it. *)
Definition node_tracks (r : Reservations) (id : string) (n n' : Node) : Prop :=
  Node_ID n' = Node_ID n ∧ Node_Labels n' = Node_Labels n ∧ Node_Capacity n' = Node_Capacity n ∧
  Node_Healthy n' = Node_Healthy n ∧ Node_Cordoned n' = Node_Cordoned n ∧ Node_Domain n' = Node_Domain n ∧
  (∀ image, image_present n image = true → image_present n' image = true) ∧
  ∀ x, Resources_Add (Node_Used n') x =
       Resources_Add (Resources_Add (Node_Used n) (default Resources_zero (Reserved r !! id))) x.

(** The simulation has carried out what the reservations [r] stand for. *)
Record tracks (r : Reservations) (sim : World) : Prop := {
  tracks_nodes id n : Nodes w !! id = Some n → ∃ n', Nodes sim !! id = Some n' ∧ node_tracks r id n n';
  tracks_occupancy domain : default 0 (Occupancy r !! domain) = occupancy sim name domain }.

Lemma tracks_start : tracks (mkReservations ∅ ∅ (DomainOccupancy w name)) w.
Proof.
  split; [|done]. intros id n Hn. exists n. split; [done|]. repeat split; try done.
  intros x. cbn. by rewrite lookup_empty, Resources_Add_zero.
Qed.

Lemma tracked_domain r id n n' : node_tracks r id n n' → FailureDomain (Some n') = FailureDomain (Some n).
Proof. intros (Hid & _ & _ & _ & _ & Hd & _). unfold FailureDomain. by rewrite Hd, Hid. Qed.

Lemma tracked_allowed r id n n' : node_tracks r id n n' → nodeAllowed (Goal_Constraints g) n' = nodeAllowed (Goal_Constraints g) n.
Proof. intros (Hid & Hl & _). unfold nodeAllowed. by rewrite Hid, Hl. Qed.

(** An action that leaves occupancy and nodes tracked. *)
Lemma tracks_step r r' sim a sim' :
  simulateAction sim a = Ok sim' → tracks r sim →
  (∀ id n n', Nodes w !! id = Some n → Nodes sim !! id = Some n' → node_tracks r id n n' →
     ∃ n'', Nodes sim' !! id = Some n'' ∧ node_tracks r' id n n'') →
  (∀ domain, default 0 (Occupancy r' !! domain) - default 0 (Occupancy r !! domain) =
     map_sum (domain_weight sim name domain) (Allocations sim') - map_sum (domain_weight sim name domain) (Allocations sim)) →
  tracks r' sim'.
Proof.
  intros Hs [Hn Ho] Hnodes Hocc. split.
  - intros id n Hid. destruct (Hn id n Hid) as (n' & Hn' & Ht). by eapply Hnodes.
  - intros domain. rewrite (occupancy_moved sim sim' name domain) by (by eapply places_kept).
    specialize (Hocc domain). specialize (Ho domain). rewrite occupancy_count in Ho.
    change (map_count (counts_in sim name domain) (Allocations sim))
      with (map_sum (domain_weight sim name domain) (Allocations sim)) in Ho. lia.
Qed.

(** Pulling the image. *)
Lemma pull_accepted r sim id n n' aid :
  tracks r sim → Nodes w !! id = Some n → Nodes sim !! id = Some n' → node_tracks r id n n' → Node_Healthy n = true →
  ∃ sim', validateAction g sim (pull_action g aid n) = Ok tt ∧ simulateAction sim (pull_action g aid n) = Ok sim' ∧
    tracks r sim' ∧ Allocations sim' = Allocations sim ∧
    ∃ n'', Nodes sim' !! id = Some n'' ∧ node_tracks r id n n'' ∧
      image_present n'' (Workload_Image (Goal_Workload g)) = true.
Proof.
  intros Ht Hn Hn' Hnt Hh. pose proof (Hkeys id n Hn) as Hkey.
  set (n'' := n' <| Node_Images ::= <[Workload_Image (Goal_Workload g) := true]> |>).
  assert (node_tracks r id n n'') as Hnt''.
  { destruct Hnt as (? & ? & ? & ? & ? & ? & Hi & ?). repeat split; try done.
    intros image Him. unfold image_present, n''. cbn. rewrite lookup_insert. case_decide; [done|]. by apply Hi. }
  assert (simulateAction sim (pull_action g aid n) = Ok (put_node sim id n'')) as Hs.
  { unfold simulateAction, simulatePullImage. cbn. by rewrite Hkey, Hn'. }
  exists (put_node sim id n''). split_and!.
  - unfold validateAction. cbn. unfold validatePullImage. cbn. rewrite Hkey, Hn'.
    destruct Hnt as (_ & _ & _ & -> & _). rewrite Hh. cbn. rewrite bool_decide_false by (intros H; by apply H).
    by rewrite (plain_pinned g Hplain).
  - done.
  - eapply tracks_step; [exact Hs|done| |intros domain; cbn; lia].
    intros id1 n1 n1' H1 H1' Ht1. cbn. rewrite lookup_insert. case_decide as E; [|by exists n1'].
    subst id1. simplify_eq. by exists n''.
  - done.
  - exists n''. cbn. rewrite lookup_insert_eq. split; [done|]. split; [done|].
    unfold image_present, n''. cbn. by rewrite lookup_insert_eq.
Qed.

(** Creating the allocation: the kernel's checks are the agent's, on the tracked node. *)
Lemma create_accepted r sim id n n' free replica deps :
  let aid := AllocationID name replica in
  let a := create_action g aid n replica deps in
  feasible g w r id n free → tracks r sim → Nodes sim !! id = Some n' → node_tracks r id n n' →
  image_present n' (Workload_Image (Goal_Workload g)) = true → Allocations sim !! aid = None →
  0 <= replica < Workload_Replicas (Goal_Workload g) →
  ∃ sim', validateAction g sim a = Ok tt ∧ simulateAction sim a = Ok sim' ∧ tracks (reserve g r n) sim' ∧
    Allocations sim' = <[aid := new_Allocation aid name replica id (Workload_Image (Goal_Workload g))
                                  (Workload_Resources (Goal_Workload g)) Budget_zero]> (Allocations sim).
Proof.
  intros aid a Hf Ht Hn' Hnt Himg Hfree Hrep.
  destruct (feasible_inv _ _ _ _ _ _ Hf) as (Hn & Hsched & Hallow & Hroom & Hfit & _).
  pose proof (Hkeys id n Hn) as Hkey. pose proof (plain_runtime g Hplain) as Hrt.
  unfold Schedulable in Hsched. apply andb_true_iff in Hsched as [Hh Hc]. apply negb_true_iff in Hc.
  assert (simulateAction sim a = Ok (put_node (put_alloc sim aid (new_Allocation aid name replica id
      (Workload_Image (Goal_Workload g)) (Workload_Resources (Goal_Workload g)) Budget_zero)) id
      (n' <| Node_Used ::= λ u, Resources_Add u (Workload_Resources (Goal_Workload g)) |>
          <| Node_BudgetUsed ::= λ u, Budget_Add u Budget_zero |>))) as Hs.
  { unfold simulateAction, simulateCreateAllocation, a, create_action. cbn. rewrite Hkey, Hn', Hrt. done. }
  eexists. split; [|split; [exact Hs|split; [|done]]].
  - pose proof (tracked_domain r id n n' Hnt) as Hdom.
    assert (checkSpread g sim a = Ok tt) as Hspread.
    { unfold checkSpread. change (Action_Node a) with (Node_ID n). rewrite Hkey, Hn', Hdom. fold name.
      destruct (Z.leb_spec (MaxPerDomain g) 0) as [Hz|Hp]; [done|].
      specialize (Hroom Hp). rewrite (tracks_occupancy r sim Ht) in Hroom.
      by rewrite (proj2 (Z.leb_gt (MaxPerDomain g) _)) by done. }
    change (validateAction g sim a) with (validateCreateAllocation g sim a). unfold validateCreateAllocation.
    change (Action_Target a) with aid. change (Action_Node a) with (Node_ID n). change (Action_Workload a) with name.
    change (Action_Image a) with (Workload_Image (Goal_Workload g)). change (Action_Replica a) with replica.
    change (Action_Resources a) with (Workload_Resources (Goal_Workload g)).
    rewrite Hfree, bool_decide_false by (by intros [? ?]). rewrite Hkey, Hn', Hspread.
    rewrite (tracked_allowed r id n n' Hnt), Hallow.
    destruct Hnt as (_ & _ & Hcap & -> & -> & _ & _ & Hused). rewrite Hh, Hc. cbn [negb].
    rewrite !(bool_decide_false (_ ≠ _)) by (intros H; by apply H). rewrite Himg. cbn [orb negb].
    rewrite Hused, Hcap, Hfit. cbn [negb]. unfold authorizedReplicas. rewrite Hrt.
    rewrite (proj2 (Z.ltb_ge replica 0)), (proj2 (Z.leb_gt _ replica)) by lia. cbn [orb rbind].
    unfold validateAgentPlacement. rewrite Hrt. unfold a, create_action. cbn. by rewrite Hrt.
  - eapply tracks_step; [exact Hs|exact Ht| |].
    + intros id1 n1 n1' H1 H1' Ht1. cbn. rewrite lookup_insert. case_decide as E.
      * subst id1. rewrite Hn in H1. rewrite Hn' in H1'. injection H1 as <-. injection H1' as <-.
        eexists. split; [done|]. destruct Ht1 as (? & ? & ? & ? & ? & ? & ? & Hused).
        repeat split; try done. intros x. cbn. rewrite Resources_Add_assoc, Hused, Hkey, lookup_insert_eq. cbn.
        by rewrite !Resources_Add_assoc.
      * exists n1'. split; [done|]. destruct Ht1 as (? & ? & ? & ? & ? & ? & ? & Hused).
        repeat split; try done. intros x. cbn. by rewrite Hused, Hkey, lookup_insert_ne.
    + intros domain. cbn [reserve Occupancy]. rewrite map_incr_lookup. cbn [Allocations put_node put_alloc set].
      rewrite map_sum_insert by done.
      assert (occupies sim name (new_Allocation aid name replica id (Workload_Image (Goal_Workload g))
                (Workload_Resources (Goal_Workload g)) Budget_zero) = Some (FailureDomain (Some n))) as Hocc.
      { apply occupies_Some. split; [done|]. split; [done|]. exists n'. split; [done|].
        symmetry. exact (tracked_domain r id n n' Hnt). }
      unfold domain_weight at 1, counts_in. rewrite Hocc. repeat case_bool_decide; try lia; congruence.
Qed.

(** Any later step on the new allocation, which stays where it is and alive. *)
Lemma update_tracked r sim a sim' aid x y :
  simulateAction sim a = Ok sim' → tracks r sim → Allocations sim !! aid = Some x →
  Nodes sim' = Nodes sim → Allocations sim' = <[aid := y]> (Allocations sim) →
  Alloc_Workload y = Alloc_Workload x → Alloc_Node y = Alloc_Node x →
  Alloc_Phase x ≠ AllocationStopped → Alloc_Phase y ≠ AllocationStopped → tracks r sim'.
Proof.
  intros Hs Ht Hx Hn Ha Hw Hnode Hp Hp'. eapply tracks_step; [exact Hs|exact Ht| |].
  - intros id n n' H1 H2 H3. rewrite Hn. by exists n'.
  - intros domain. rewrite Ha, (map_sum_update _ _ _ x y Hx).
    assert (domain_weight sim name domain y = domain_weight sim name domain x) as ->; [|lia].
    unfold domain_weight, counts_in, occupies. by rewrite Hw, Hnode, !(bool_decide_false (_ = AllocationStopped)) by done.
Qed.

(** ** One replica *)

(** The completed ids are those of replicas already placed. *)
Definition placed_ids (placed : Z → Prop) (c : gset string) : Prop :=
  ∀ i, i ∈ c → ∃ prefix r, prefix ∈ step_prefixes ∧ placed r ∧ i = prefix +:+ AllocationID name r.

Lemma placed_ids_fresh placed c prefix replica :
  placed_ids placed c → ¬ placed replica → prefix ∈ step_prefixes → prefix +:+ AllocationID name replica ∉ c.
Proof.
  intros Hc Hn Hp Hin. destruct (Hc _ Hin) as (p' & r' & Hp' & Hr & Heq).
  apply prefixes_inj in Heq as [_ Heq]; [|done..]. apply AllocationID_inj in Heq as ->. done.
Qed.

Lemma other_prefix_fresh (c : gset string) prefix prefix' aid :
  prefix ∈ step_prefixes → prefix' ∈ step_prefixes → prefix ≠ prefix' → (prefix +:+ aid ∉ c) →
  prefix +:+ aid ∉ {[prefix' +:+ aid]} ∪ c.
Proof. intros Hp Hp' Hne Hc [Heq%elem_of_singleton|?]%elem_of_union; [|done]. by apply prefixes_inj in Heq as [? _]. Qed.

Lemma network_accepted r sim aid x n :
  tracks r sim → Allocations sim !! aid = Some x → Alloc_Workload x = name → Alloc_Phase x = AllocationCreated →
  let a := (replica_action g ("attach-" +:+ aid) ActionAttachNetwork aid n ["create-" +:+ aid])
             <| Action_Port := Workload_Port (Goal_Workload g) |> in
  ∃ sim', validateAction g sim a = Ok tt ∧ simulateAction sim a = Ok sim' ∧ tracks r sim' ∧
    Allocations sim' = <[aid := x <| Alloc_Address := "simulated" |>]> (Allocations sim).
Proof.
  intros Ht Hx Hw Hp a.
  assert (simulateAction sim a = Ok (put_alloc sim aid (x <| Alloc_Address := "simulated" |>))) as Hs
    by (unfold simulateAction, simulateAttachNetwork; cbn; by rewrite Hx).
  eexists. split; [|split; [exact Hs|split; [|done]]].
  - change (validateAction g sim a) with (validateAttachNetwork g sim a). unfold validateAttachNetwork.
    change (Action_Target a) with aid. change (Action_Workload a) with name. rewrite Hx, Hp, Hw.
    by rewrite !(bool_decide_false (_ ≠ _)) by (intros H; by apply H).
  - eapply update_tracked; [exact Hs|exact Ht|exact Hx|done..| |]; cbn; by rewrite Hp.
Qed.

Lemma start_accepted r sim aid x n deps :
  tracks r sim → Allocations sim !! aid = Some x → Alloc_Workload x = name → Alloc_Phase x = AllocationCreated →
  (0 < Workload_Port (Goal_Workload g) → Alloc_Address x ≠ "") →
  let a := replica_action g ("start-" +:+ aid) ActionStartAllocation aid n deps in
  ∃ sim', validateAction g sim a = Ok tt ∧ simulateAction sim a = Ok sim' ∧ tracks r sim' ∧
    Allocations sim' = <[aid := x <| Alloc_Phase := AllocationRunning |> <| Alloc_Ready := true |>]> (Allocations sim).
Proof.
  intros Ht Hx Hw Hp Haddr a.
  assert (simulateAction sim a = Ok (put_alloc sim aid (x <| Alloc_Phase := AllocationRunning |> <| Alloc_Ready := true |>))) as Hs
    by (unfold simulateAction, simulateStartAllocation; cbn; by rewrite Hx).
  eexists. split; [|split; [exact Hs|split; [|done]]].
  - change (validateAction g sim a) with (validateStartAllocation g sim a). unfold validateStartAllocation.
    change (Action_Target a) with aid. change (Action_Workload a) with name. rewrite Hx, Hp, Hw. fold name.
    rewrite !(bool_decide_false (_ ≠ _)) by (intros H; by apply H). cbn [orb].
    rewrite (plain_volumes g Hplain), (plain_secrets g Hplain), (plain_runtime g Hplain). cbn [for_all for_each rbind].
    destruct (Z.ltb_spec 0 (Workload_Port (Goal_Workload g))) as [Hport|]; [|done]. by rewrite bool_decide_false by auto.
  - eapply update_tracked; [exact Hs|exact Ht|exact Hx|done..| |]; cbn; by rewrite ?Hp.
Qed.

Lemma granted_placement k :
  k ∈ [ActionPullImage; ActionCreateAllocation; ActionAttachNetwork; ActionStartAllocation] →
  is_granted placement_grants k = true.
Proof. rewrite !elem_of_cons, elem_of_nil. by intros [->|[->|[->|[->|[]]]]]. Qed.

Lemma for_each_step {A S} (f : S → A → result S) s x s' l : f s x = Ok s' → for_each f s (x :: l) = for_each f s' l.
Proof. cbn. by intros ->. Qed.

Lemma plain_replica_actions replica n :
  let aid := AllocationID name replica in
  replica_actions g w replica n =
  (if needs_pull g n then [pull_action g aid n] else []) ++
  create_action g aid n replica (if needs_pull g n then ["pull-" +:+ aid] else []) :: network_actions g aid n ++
  [replica_action g ("start-" +:+ aid) ActionStartAllocation aid n
     (("create-" +:+ aid) :: (Action_ID <$> network_actions g aid n))].
Proof.
  unfold replica_actions, start_deps, grant_actions. fold name.
  by rewrite (plain_runtime g Hplain), (plain_volumes g Hplain), (plain_secrets g Hplain).
Qed.

(** From the creation on. *)
Lemma create_and_start r sim id n n' free replica c deps :
  let aid := AllocationID name replica in
  feasible g w r id n free → tracks r sim → Nodes sim !! id = Some n' → node_tracks r id n n' →
  image_present n' (Workload_Image (Goal_Workload g)) = true → Allocations sim !! aid = None →
  0 <= replica < Workload_Replicas (Goal_Workload g) → (∀ d, d ∈ deps → d ∈ c) →
  (∀ prefix, prefix ∈ ["create-"; "attach-"; "start-"] → prefix +:+ aid ∉ c) →
  ∃ sim' c' x, for_each (plan_step placement_grants g) (sim, c)
      (create_action g aid n replica deps :: network_actions g aid n ++
        [replica_action g ("start-" +:+ aid) ActionStartAllocation aid n
          (("create-" +:+ aid) :: (Action_ID <$> network_actions g aid n))]) = Ok (sim', c') ∧
    tracks (reserve g r n) sim' ∧ Allocations sim' = <[aid := x]> (Allocations sim) ∧
    ∀ i, i ∈ c' → i ∈ c ∨ ∃ prefix, prefix ∈ step_prefixes ∧ i = prefix +:+ aid.
Proof.
  intros aid Hf Ht Hn' Hnt Himg Hfree Hrep Hdeps Hfresh.
  destruct (create_accepted r sim id n n' free replica deps) as (sim1 & Hv1 & Hs1 & Ht1 & Ha1); [done..|]. fold aid in Hv1, Hs1, Ha1.
  set (x := new_Allocation aid name replica id _ _ _) in Ha1.
  assert (Allocations sim1 !! aid = Some x) as Hx by (rewrite Ha1; apply lookup_insert_eq).
  rewrite (for_each_step _ _ _ (sim1, {["create-" +:+ aid]} ∪ c))
    by (apply plan_step_intro; [done|by apply Hfresh; set_solver|by apply granted_placement; set_solver|done..]).
  unfold network_actions. destruct (Z.ltb_spec 0 (Workload_Port (Goal_Workload g))) as [Hport|Hport]; cbn [app].
  - destruct (network_accepted (reserve g r n) sim1 aid x n Ht1 Hx) as (sim2 & Hv2 & Hs2 & Ht2 & Ha2); [done|done|].
    rewrite (for_each_step _ _ _ (sim2, {["attach-" +:+ aid]} ∪ ({["create-" +:+ aid]} ∪ c))).
    2:{ apply plan_step_intro; [done| |by apply granted_placement; set_solver|cbn; set_solver|done..].
        apply other_prefix_fresh; [set_solver..|done|apply Hfresh; set_solver]. }
    assert (Allocations sim2 !! aid = Some (x <| Alloc_Address := "simulated" |>)) as Hx2 by (rewrite Ha2; apply lookup_insert_eq).
    destruct (start_accepted (reserve g r n) sim2 aid _ n
      (("create-" +:+ aid) :: (Action_ID <$> network_actions g aid n)) Ht2 Hx2) as (sim3 & Hv3 & Hs3 & Ht3 & Ha3); [done..|].
    unfold network_actions in Hv3, Hs3. rewrite (proj2 (Z.ltb_lt 0 _) Hport) in Hv3, Hs3.
    rewrite (for_each_step _ _ _ (sim3, {["start-" +:+ aid]} ∪ ({["attach-" +:+ aid]} ∪ ({["create-" +:+ aid]} ∪ c)))).
    2:{ apply plan_step_intro; [done| |by apply granted_placement; set_solver|cbn; set_solver|exact Hv3|exact Hs3].
        apply other_prefix_fresh; [set_solver..|done|]. apply other_prefix_fresh; [set_solver..|done|apply Hfresh; set_solver]. }
    eexists sim3, _, _. split; [done|]. split; [done|]. split; [by rewrite Ha3, Ha2, Ha1, !insert_insert_eq|].
    unfold step_prefixes. intros i Hi. rewrite !elem_of_union, !elem_of_singleton in Hi.
    destruct Hi as [->|[->|[->|Hi]]]; [right; eexists; split; [|done]; set_solver..|by left].
  - destruct (start_accepted (reserve g r n) sim1 aid x n ["create-" +:+ aid] Ht1 Hx) as (sim3 & Hv3 & Hs3 & Ht3 & Ha3); [done|done|lia|].
    rewrite (for_each_step _ _ _ (sim3, {["start-" +:+ aid]} ∪ ({["create-" +:+ aid]} ∪ c))).
    2:{ apply plan_step_intro; [done| |by apply granted_placement; set_solver|cbn; set_solver|exact Hv3|exact Hs3].
        apply other_prefix_fresh; [set_solver..|done|apply Hfresh; set_solver]. }
    eexists sim3, _, _. split; [done|]. split; [done|]. split; [by rewrite Ha3, Ha1, !insert_insert_eq|].
    unfold step_prefixes. intros i Hi. rewrite !elem_of_union, !elem_of_singleton in Hi.
    destruct Hi as [->|[->|Hi]]; [right; eexists; split; [|done]; set_solver..|by left].
Qed.

Lemma placed_ids_extend placed c c' replica :
  placed_ids placed c →
  (∀ i, i ∈ c' → i ∈ c ∨ ∃ prefix, prefix ∈ step_prefixes ∧ i = prefix +:+ AllocationID name replica) →
  placed_ids (λ r, placed r ∨ r = replica) c'.
Proof.
  intros Hc H i Hi. destruct (H i Hi) as [Hi'|(prefix & Hp & ->)]; [|exists prefix, replica; auto].
  destruct (Hc i Hi') as (p & r' & Hp & Hr & ->). exists p, r'. auto.
Qed.

(** Pulling first, where the node lacks the image. *)
Lemma pull_create_start r sim id n n' free replica c :
  let aid := AllocationID name replica in
  feasible g w r id n free → tracks r sim → Nodes sim !! id = Some n' → node_tracks r id n n' → Node_Healthy n = true →
  Allocations sim !! aid = None → 0 <= replica < Workload_Replicas (Goal_Workload g) →
  (∀ prefix, prefix ∈ step_prefixes → prefix +:+ aid ∉ c) →
  ∃ sim' c' x, for_each (plan_step placement_grants g) (sim, c)
      (pull_action g aid n :: create_action g aid n replica ["pull-" +:+ aid] :: network_actions g aid n ++
        [replica_action g ("start-" +:+ aid) ActionStartAllocation aid n
          (("create-" +:+ aid) :: (Action_ID <$> network_actions g aid n))]) = Ok (sim', c') ∧
    tracks (reserve g r n) sim' ∧ Allocations sim' = <[aid := x]> (Allocations sim) ∧
    ∀ i, i ∈ c' → i ∈ c ∨ ∃ prefix, prefix ∈ step_prefixes ∧ i = prefix +:+ aid.
Proof.
  intros aid Hf Ht Hn' Hnt Hh Hfree Hrep Hfresh. pose proof (proj1 Hf) as Hn.
  destruct (pull_accepted r sim id n n' aid Ht Hn Hn' Hnt Hh) as (sim0 & Hv0 & Hs0 & Ht0 & Ha0 & n0 & Hn0 & Hnt0 & Himg).
  assert ("pull-" ∈ step_prefixes) as Hpull by (unfold step_prefixes; set_solver).
  rewrite (for_each_step _ _ _ (sim0, {["pull-" +:+ aid]} ∪ c)).
  2:{ apply plan_step_intro; [done|by apply Hfresh|by apply granted_placement; set_solver| |exact Hv0|exact Hs0].
      intros d H. by apply not_elem_of_nil in H. }
  rewrite <-Ha0 in Hfree |- *.
  destruct (create_and_start r sim0 id n n0 free replica ({["pull-" +:+ aid]} ∪ c) ["pull-" +:+ aid] Hf Ht0 Hn0 Hnt0 Himg
    Hfree Hrep) as (sim' & c' & x & Hrun & Ht' & Ha' & Hi').
  - intros d ->%list_elem_of_singleton. apply elem_of_union_l. by apply elem_of_singleton.
  - intros prefix Hp. assert (prefix ∈ step_prefixes) by (unfold step_prefixes; by right).
    apply other_prefix_fresh; [done|done| |by apply Hfresh].
    intros ->. rewrite !elem_of_cons, elem_of_nil in Hp. naive_solver.
  - exists sim', c', x. split; [exact Hrun|]. split; [exact Ht'|]. split; [exact Ha'|].
    intros i Hi. destruct (Hi' i Hi) as [[->%elem_of_singleton|?]%elem_of_union|?]; [|by left|by right].
    right. by exists "pull-".
Qed.

Lemma replica_accepted r sim id n free replica c placed :
  let aid := AllocationID name replica in
  feasible g w r id n free → tracks r sim → Allocations sim !! aid = None →
  0 <= replica < Workload_Replicas (Goal_Workload g) → placed_ids placed c → ¬ placed replica →
  ∃ sim' c' x, for_each (plan_step placement_grants g) (sim, c) (replica_actions g w replica n) = Ok (sim', c') ∧
    tracks (reserve g r n) sim' ∧ Allocations sim' = <[aid := x]> (Allocations sim) ∧
    placed_ids (λ r, placed r ∨ r = replica) c'.
Proof.
  intros aid Hf Ht Hfree Hrep Hc Hnew. rewrite plain_replica_actions. fold aid.
  destruct (feasible_inv _ _ _ _ _ _ Hf) as (Hn & Hsched & _).
  unfold Schedulable in Hsched. apply andb_true_iff in Hsched as [Hh _].
  destruct (tracks_nodes r sim Ht id n Hn) as (n' & Hn' & Hnt).
  assert (∀ prefix, prefix ∈ step_prefixes → prefix +:+ aid ∉ c) as Hfresh
    by (intros prefix Hp; by eapply placed_ids_fresh).
  destruct (needs_pull g n) eqn:Hpull; cbn [app].
  - destruct (pull_create_start r sim id n n' free replica c Hf Ht Hn' Hnt Hh Hfree Hrep Hfresh)
      as (sim' & c' & x & Hrun & Ht' & Ha' & Hi').
    exists sim', c', x. split; [exact Hrun|]. split; [exact Ht'|]. split; [exact Ha'|]. by apply (placed_ids_extend placed c).
  - assert (image_present n' (Workload_Image (Goal_Workload g)) = true) as Himg.
    { destruct Hnt as (_ & _ & _ & _ & _ & _ & Himg & _). apply Himg. unfold needs_pull in Hpull. by apply negb_false_iff in Hpull. }
    destruct (create_and_start r sim id n n' free replica c [] Hf Ht Hn' Hnt Himg Hfree Hrep) as (sim' & c' & x & Hrun & Ht' & Ha' & Hi').
    + intros d H. by apply not_elem_of_nil in H.
    + intros prefix Hp. apply Hfresh. unfold step_prefixes. by right.
    + exists sim', c', x. split; [exact Hrun|]. split; [exact Ht'|]. split; [exact Ha'|]. by apply (placed_ids_extend placed c).
Qed.

(** ** The whole proposal *)

Lemma placement_node_plain r : placement_node g w r = selectNode g w r.
Proof.
  unfold placement_node, volumeInFlight, volumeHome. rewrite (plain_volumes g Hplain). cbn.
  destruct (selectNode g w r); cbn; [|done]. by rewrite !(bool_decide_false ("" ≠ "")) by (intros H; by apply H).
Qed.

Lemma place_replicas_accepted existing r sim c placed count replicas acts checks :
  place_replicas g w existing r count replicas = Ok (acts, checks) → tracks r sim → placed_ids placed c → NoDup replicas →
  (∀ replica, replica ∈ replicas → 0 <= replica < Workload_Replicas (Goal_Workload g) ∧ ¬ placed replica) →
  (∀ replica, replica ∈ replicas → replica ∉ existing → Allocations sim !! AllocationID name replica = None) →
  ∃ s, for_each (plan_step placement_grants g) (sim, c) acts = Ok s.
Proof.
  revert r sim c placed count acts checks.
  induction replicas as [|replica replicas IH]; intros r sim c placed count acts checks H Ht Hc Hnd Hin Hfree; cbn [place_replicas] in H.
  { injection H as <- <-. by eexists. }
  apply NoDup_cons in Hnd as [Hnot Hnd]. case_bool_decide as Hex.
  { eapply IH; [exact H|done|exact Hc|done| |]; intros y Hy; [apply Hin|apply Hfree]; by right. }
  rewrite placement_node_plain in H. pose proof (selectNode_spec g w r) as Hsel.
  destruct (selectNode g w r) as [n|]; [cbn [rbind] in H|done]. destruct Hsel as (id & free & Hf & _).
  destruct (Hin replica (list_elem_of_here _ _)) as [Hrep Hnew].
  destruct (replica_accepted r sim id n free replica c placed) as (sim' & c' & x & Hrun & Ht' & Ha' & Hc');
    [done|done|by apply Hfree; [left|]|done|done|done|].
  destruct (if _ <=? count + 1 then _ else _) as [[acts' checks']|] eqn:Hrest; [cbn [rbind] in H|done].
  injection H as <- <-. rewrite for_each_app, Hrun. cbn [rbind].
  destruct (MaxReplicasPerProposal <=? count + 1); [injection Hrest as <- <-; by eexists|].
  eapply IH; [exact Hrest|exact Ht'|exact Hc'|done| |].
  - intros y Hy. destruct (Hin y (list_elem_of_further _ _ _ Hy)) as [Hy1 Hy2]. split; [done|].
    intros [Hy3|Hy3]; [done|]. by subst.
  - intros y Hy Hye. rewrite Ha', lookup_insert_ne; [apply Hfree; [by right|done]|].
    intros Heq%AllocationID_inj. by subst.
Qed.

Definition routine_kinds : list ActionKind :=
  [ActionPullImage; ActionCreateAllocation; ActionAttachNetwork; ActionStartAllocation].

Lemma replica_actions_shape replica n :
  len (replica_actions g w replica n) <= 4 ∧
  ∀ a, a ∈ replica_actions g w replica n → Action_Kind a ∈ routine_kinds ∧
    (Action_Kind a = ActionStartAllocation → mkCheck CheckAllocationReady (Action_Target a) "true" = ready_check g replica).
Proof.
  rewrite plain_replica_actions. unfold ready_check. rewrite (plain_runtime g Hplain), bool_decide_false by (by intros [? ?]).
  unfold network_actions, len, routine_kinds. split.
  - destruct (needs_pull g n), (0 <? Workload_Port (Goal_Workload g)); cbn; lia.
  - intros a. destruct (needs_pull g n), (0 <? Workload_Port (Goal_Workload g)); cbn [app];
      rewrite ?elem_of_cons, elem_of_nil; intros Ha; repeat destruct Ha as [->|Ha]; try done;
      (split; [cbn; set_solver|done]).
Qed.

Lemma place_replicas_shape existing r count replicas acts checks :
  place_replicas g w existing r count replicas = Ok (acts, checks) → count < MaxReplicasPerProposal →
  len acts <= 4 * (MaxReplicasPerProposal - count) ∧
  ∀ a, a ∈ acts → Action_Kind a ∈ routine_kinds ∧
    (Action_Kind a = ActionStartAllocation → mkCheck CheckAllocationReady (Action_Target a) "true" ∈ checks).
Proof.
  revert r count acts checks. induction replicas as [|replica replicas IH]; intros r count acts checks H Hcount; cbn [place_replicas] in H.
  { injection H as <- <-. split; [unfold len; cbn; lia|set_solver]. }
  case_bool_decide; [by eapply IH|]. destruct (placement_node g w r) as [n|]; [cbn [rbind] in H|done].
  destruct (if _ <=? count + 1 then _ else _) as [[acts' checks']|] eqn:Hrest; [cbn [rbind] in H|done].
  injection H as <- <-. destruct (replica_actions_shape replica n) as [Hlen Hkinds].
  assert (len acts' <= 4 * (MaxReplicasPerProposal - count - 1) ∧ ∀ a, a ∈ acts' → Action_Kind a ∈ routine_kinds ∧
    (Action_Kind a = ActionStartAllocation → mkCheck CheckAllocationReady (Action_Target a) "true" ∈ checks')) as [Hlen' Hkinds'].
  { destruct (Z.leb_spec MaxReplicasPerProposal (count + 1)) as [Hle|Hgt].
    - injection Hrest as <- <-. split; [unfold len; cbn; lia|set_solver].
    - destruct (IH _ _ _ _ Hrest) as [H1 H2]; [lia|]. split; [lia|done]. }
  split; [unfold len in *; rewrite length_app; lia|].
  intros a [Ha|Ha]%elem_of_app; [destruct (Hkinds a Ha) as [? Hk]|destruct (Hkinds' a Ha) as [? Hk]]; (split; [done|]); intros Hs.
  - rewrite (Hk Hs). by left.
  - right. auto.
Qed.

Lemma exceeds_none total : exceeds total 0 = false.
Proof. done. Qed.

(** A proposal of routine kinds that is not held back passes the cluster-wide checks. *)
Lemma routine_governors p :
  (∀ a, a ∈ Proposal_Actions p → Action_Kind a ∈ routine_kinds) →
  checkDisruptionBudget (MaxDisruptionsPerWindow DefaultPolicy) (DisruptionWindow DefaultPolicy)
    (DisruptionCooldown DefaultPolicy) w p = Ok tt ∧
  checkImageProvenance (ImageSigners DefaultPolicy) (RequireSignedImages DefaultPolicy) g w p = Ok tt ∧
  checkClusterBudget (MaxAllocations DefaultPolicy) (ClusterCeiling DefaultPolicy) (ClusterBudget DefaultPolicy) w p = Ok tt.
Proof.
  intros Hk. split; [|split].
  - unfold checkDisruptionBudget. assert (disruptive_actions p = []) as ->; [|done].
    unfold disruptive_actions. apply elem_of_nil_inv. intros a [Hd Ha]%list_elem_of_filter.
    specialize (Hk a Ha). unfold routine_kinds in Hk. rewrite !elem_of_cons, elem_of_nil in Hk.
    by destruct Hk as [E|[E|[E|[E|[]]]]]; rewrite E in Hd.
  - unfold checkImageProvenance. destruct (negb (runs_image p)); [done|]. by rewrite (plain_attestation g Hplain).
  - unfold checkClusterBudget. destruct (_ =? 0); [done|]. cbn [MaxAllocations ClusterCeiling ClusterBudget DefaultPolicy].
    cbn [CPUMillis MemoryMB Resources_zero Tokens CostMillis WallSeconds ToolCalls Budget_zero]. done.
Qed.
End Accept.

(** C30: the kernel accepts what placement proposes.  For a workload without volumes, secrets,
    agent runtime or attestation whose image is pinned by digest, in a world whose nodes are
    filed under their ids and whose missing replicas' ids are free (no drifted allocation
    still holds one), every non-empty proposal of the placement agent passes the default
    policy in full, every action validated in the world its predecessors leave, unless a
    target is still in failure backoff. *)
Theorem placement_proposals_authorized `{att : Attest} {clock : WallClock} g w p
    (Hplain : plain g) (Hkeys : ∀ id n, Nodes w !! id = Some n → Node_ID n = id)
    (Hslots : ∀ replica, 0 <= replica < Workload_Replicas (Goal_Workload g) → replica ∉ existing_replicas g w →
       Allocations w !! AllocationID (Workload_Name (Goal_Workload g)) replica = None)
    (Hp : placement_Propose g w = Ok p) (Hwork : Proposal_Actions p ≠ []) (Hbackoff : checkBackoff w p = Ok tt) :
  Authorize DefaultPolicy placement_Descriptor g w p = Ok tt.
Proof.
  unfold placement_Propose in Hp. set (r0 := mkReservations ∅ ∅ _) in Hp.
  assert (desiredReplicas g w (Z.of_nat (size (existing_replicas g w))) = Workload_Replicas (Goal_Workload g)) as Hd.
  { unfold desiredReplicas, workloadQueue. by rewrite (plain_runtime g Hplain). }
  rewrite Hd in Hp. destruct (place_replicas _ _ _ _ _ _) as [[acts checks]|] eqn:Hpl; [cbn [rbind] in Hp|done].
  injection Hp as <-. cbn [Proposal_Actions proposal_of] in Hwork.
  destruct (place_replicas_accepted g w Hplain Hkeys (existing_replicas g w) r0 w ∅ (λ _, False) 0 _ acts checks Hpl) as [s Hrun].
  - apply tracks_start.
  - intros i Hi. by apply not_elem_of_empty in Hi.
  - apply NoDup_seqZ.
  - intros replica Hin%elem_of_seqZ. split; [lia|tauto].
  - intros replica Hin%elem_of_seqZ Hex. apply Hslots; [lia|done].
  - destruct (place_replicas_shape g w Hplain Hkeys _ _ _ _ _ _ Hpl) as [Hlen Hkinds]; [done|].
    destruct (routine_governors g w Hplain (proposal_of placement_Descriptor g w
      "place missing replicas on healthy nodes that satisfy hard constraints and capacity" acts checks))
      as (Hdis & Himg & Hcl); [intros a Ha; by apply Hkinds|].
    unfold Authorize. cbn [Proposal_AgentID Proposal_GoalID Proposal_BasedOnRevision Proposal_Actions proposal_of].
    rewrite (bool_decide_false (_ ≠ _)) by (intros H; by apply H). rewrite bool_decide_false by done. cbn [orb].
    rewrite (bool_decide_false (_ ≠ _)) by (intros H; by apply H). rewrite Z.eqb_refl. cbn [negb].
    rewrite (proj2 (Z.eqb_neq (len acts) 0)) by (unfold len; destruct acts; [done|cbn; lia]).
    rewrite (proj2 (Z.ltb_ge _ (len acts))) by (etrans; [exact Hlen|done]).
    change (default [] (Grants DefaultPolicy !! Agent_ID placement_Descriptor)) with placement_grants.
    change (len placement_grants =? 0) with false. cbv iota. rewrite cloneWorld_id, Hrun. cbn [rbind].
    assert (requireEvidenceChecks g (proposal_of placement_Descriptor g w
      "place missing replicas on healthy nodes that satisfy hard constraints and capacity" acts checks) = Ok tt) as ->.
    { unfold requireEvidenceChecks. apply for_all_ok. cbn [Proposal_Actions Proposal_ExpectedEvidence proposal_of].
      intros a Ha. destruct (Hkinds a Ha) as [Hk Hchk].
      unfold routine_kinds in Hk. rewrite !elem_of_cons, elem_of_nil in Hk. unfold required_check.
      destruct Hk as [E|[E|[E|[E|[]]]]]; rewrite E; try done.
      rewrite (plain_runtime g Hplain), bool_decide_false by (by intros [? ?]).
      assert (existsb _ checks = true) as ->; [|done]. apply existsb_exists. eexists. split; [apply list_elem_of_In, (Hchk E)|].
      by rewrite !bool_decide_true. }
    cbn [rbind]. rewrite Hdis. cbn [rbind]. rewrite Hbackoff. cbn [rbind]. rewrite Himg. cbn [rbind]. exact Hcl.
Qed.

(** ** Placement at work *)

Module PlacementSample.
#[local] Instance placement_clock : WallClock := 100.
#[local] Instance placement_attest : Attest := Build_Attest (λ _, None) (λ _ _ _, false) (λ _, Malformed).
#[local] Instance placement_cidr : CIDRParser := λ s, None.
#[local] Instance placement_digest : Digest := λ s, s.

Definition web_goal (secrets : list SecretRef) : Goal :=
  mkGoal "a4s.io/v1alpha1" "g1" "serve the site"
    (mkWorkloadSpec "web" "web@sha256:1" 2 8080 (mkResources 500 256) false false secrets [] "" None None None
       (Some (mkPlacement 1)) None)
    None (mkConstraints ∅ []) None.
Definition fresh_node (id : string) (memory : Z) : Node :=
  mkNode id ∅ (mkResources 4000 memory) Resources_zero ∅ true "" false "" "" 0 "" "" ∅ Budget_zero Budget_zero.
Definition fresh_world (allocations : gmap string Allocation) : World :=
  mkWorld 1 100 {[ "n1" := fresh_node "n1" 4096; "n2" := fresh_node "n2" 8192 ]} allocations ∅ ∅ ∅ ∅ ∅ [] ∅.
Definition proposed (r : result Proposal) : Proposal :=
  match r with Ok p => p | Err _ => mkProposal "" "" "" 0 "" [] [] end.

Lemma placement_proposals_authorized_witness :
  let p := proposed (placement_Propose (web_goal []) (fresh_world ∅)) in
  (Action_ID <$> Proposal_Actions p) =
    ["pull-web-0"; "create-web-0"; "attach-web-0"; "start-web-0"; "pull-web-1"; "create-web-1"; "attach-web-1"; "start-web-1"] ∧
  Authorize DefaultPolicy placement_Descriptor (web_goal []) (fresh_world ∅) p = Ok tt.
Proof.
  cbv zeta. split; [vm_compute; reflexivity|].
  apply placement_proposals_authorized.
  - split; reflexivity.
  - intros id n. cbn. rewrite lookup_insert_Some, lookup_singleton_Some. intros [[<- <-]|[_ [<- <-]]]; reflexivity.
  - intros replica _ _. reflexivity.
  - vm_compute. reflexivity.
  - vm_compute. discriminate.
  - vm_compute. reflexivity.
Defined.

(** Two replicas at a time do not keep a proposal within the kernel's action limit: a
    workload with a port and a single secret, on nodes that do not hold its image yet,
    takes five actions a replica, the kernel refuses the ten, and as the images are
    pulled by the same proposal the next one is no smaller. *)
Theorem placement_exceeds_action_limit :
  let g := web_goal [mkSecretRef "tls" "v1" "/etc/tls"] in
  let p := proposed (placement_Propose g (fresh_world ∅)) in
  placement_Propose g (fresh_world ∅) = Ok p ∧ len (Proposal_Actions p) = 10 ∧
  Authorize DefaultPolicy placement_Descriptor g (fresh_world ∅) p = Err (Errorf "proposal exceeds %d action limit").
Proof. vm_compute. done. Qed.

(** An allocation that was created but never started stays so: it fills its replica
    slot, so placement does not start or replace it; it is not stopped, so remediation
    does not retire it; and it matches the goal, so the rollout agent leaves it alone. *)
Theorem created_allocation_never_started :
  let created id node := new_Allocation id "web" (if bool_decide (id = "web-0") then 0 else 1) node "web@sha256:1"
                           (mkResources 500 256) Budget_zero in
  let w := fresh_world {[ "web-0" := created "web-0" "n1"; "web-1" := created "web-1" "n2" ]} in
  ∀ r, r ∈ [placement_Propose (web_goal []) w; remediation_Propose (web_goal []) w;
            rollout_Propose (mkRolloutAgent 0) (web_goal []) w; network_Propose (web_goal []) w] →
    ∃ p, r = Ok p ∧ Proposal_Actions p = [].
Proof.
  cbv zeta. intros r Hr. rewrite !elem_of_cons, elem_of_nil in Hr.
  destruct Hr as [->|[->|[->|[->|[]]]]]; (eexists; split; [vm_compute; reflexivity|reflexivity]).
Qed.
End PlacementSample.
