(* ===== verification/Dns.v ===== *)
(** * The node's resolver (src/node/dns.go)

    The zone a node serves, the parser of DNS questions and the responses built from
    it, byte by byte.  A byte is a [Z] between 0 and 255.  [net.ParseIP] is the class
    [IPParser]: the four bytes of a text that is an IPv4 address. *)

From S2P Require Import Prelude Types Text Directory.
Open Scope Z_scope.

Class IPParser := parse_ipv4 : string → option (list Z).

Definition maxDNSMessage : Z := 512.
Definition dnsTTL : Z := 5.

Record Resolver := mkResolver { resolver_zone : ServiceZone }.

Definition NewResolver (nodeID : string) : Resolver := mkResolver (mkServiceZone nodeID ∅).
Definition Resolver_Apply (_ : Resolver) (zone : ServiceZone) : Resolver := mkResolver zone.
Definition Resolver_Zone (r : Resolver) : ServiceZone := resolver_zone r.

Definition Lookup (r : Resolver) (name : string) : list ResolvedEndpoint * bool :=
  let '(workload, ok) := ParseServiceName name in
  if negb ok then ([], false)
  else match Zone_Records (resolver_zone r) !! ServiceName workload with
       | Some endpoints => (endpoints, true)
       | None => ([], false)
       end.

(** ** Bytes *)

Definition byte_of (z : Z) : Ascii.ascii := Ascii.ascii_of_N (Z.to_N z).
Fixpoint string_of (l : list Z) : string := match l with [] => "" | b :: l => String (byte_of b) (string_of l) end.

(** [binary.BigEndian]: reading and appending 16- and 32-bit words. *)
Definition be16 (hi lo : Z) : Z := 256 * hi + lo.
Definition put16 (v : Z) : list Z := [v / 256 mod 256; v mod 256].
Definition put32 (v : Z) : list Z := put16 (v / 65536) ++ put16 (v mod 65536).

(** ** Questions *)

(** The labels of a question, from its first length byte on, and what follows them. *)
Fixpoint parse_labels (fuel : nat) (rest : list Z) (labels : list string) : result (list string * list Z) :=
  match fuel with
  | O => Err (Panic "out of fuel")
  | S fuel =>
      match rest with
      | [] => Ok (labels, [])
      | length :: rest =>
          if length =? 0 then Ok (labels, rest)
          else
            refuse (negb (Z.land length 192 =? 0)) "dns question uses compression";
            refuse (len rest <? length) "dns label runs past the message";
            parse_labels fuel (drop (Z.to_nat length) rest) (labels ++ [string_of (take (Z.to_nat length) rest)])
      end
  end.

Definition Join_dots (labels : list string) : string := String.concat "." labels.

(** The header's first four bytes, the raw question, the name asked for and the type. *)
Definition parseQuery (query : list Z) : result (list Z * list Z * string * Z) :=
  match query with
  | h0 :: h1 :: h2 :: h3 :: q0 :: q1 :: _ :: _ :: _ :: _ :: _ :: _ :: body =>
      refuse (negb (be16 q0 q1 =? 1)) "dns query must carry exactly one question";
      let* (labels, rest) := parse_labels (S (length body)) body [] in
      match rest with
      | t0 :: t1 :: _ :: _ :: after =>
          Ok ([h0; h1; h2; h3], take (length body - length after) body, Join_dots labels, be16 t0 t1)
      | _ => Err (Errorf "dns question is truncated")
      end
  | _ => Err (Errorf "dns query is too short")
  end.

(** ** Answers *)

Section Answers.
Context {ip : IPParser}.

Definition ipv4Of (endpoints : list ResolvedEndpoint) : list (list Z) :=
  omap (λ e, parse_ipv4 (Resolved_Address e)) endpoints.

Definition answer_record (address : list Z) : list Z :=
  [192; 12] ++ put16 1 ++ put16 1 ++ put32 dnsTTL ++ put16 4 ++ address.

(** The loop that appends the records, cutting the message at its limit. *)
Fixpoint append_records (response : list Z) (addresses : list (list Z)) : list Z :=
  match addresses with
  | [] => response
  | address :: addresses =>
      let response := response ++ answer_record address in
      if maxDNSMessage <? len response then take (Z.to_nat maxDNSMessage) response
      else append_records response addresses
  end.

Definition response_flags (header2 : Z) (found : bool) : Z :=
  let flags := 33792 in
  let flags := if negb (Z.land header2 1 =? 0) then Z.lor flags 256 else flags in
  if found then flags else Z.lor flags 3.

Definition answer (r : Resolver) (query : list Z) : result (list Z) :=
  let* (header, question, name, qtype) := parseQuery query in
  let answers := if qtype =? 1 then (let '(endpoints, known) := Lookup r name in if known : bool then endpoints else []) else [] in
  let flags := response_flags (nth 2 header 0) (negb (len answers =? 0)) in
  let response :=
    take 2 header ++ put16 flags ++ put16 1 ++ put16 (len (ipv4Of answers) mod 65536) ++ put16 0 ++ put16 0 ++ question in
  Ok (append_records response (ipv4Of answers)).
End Answers.

(** ** Parsing ends, and stays inside the message *)

Lemma parse_labels_spec fuel rest labels :
  (length rest < fuel)%nat →
  match parse_labels fuel rest labels with
  | Ok (_, rest') => ∃ pre, rest = pre ++ rest'
  | Err (Panic _) => False
  | Err _ => True
  end.
Proof.
  revert rest labels. induction fuel as [|fuel IH]; intros rest labels Hf; [lia|]. cbn [parse_labels].
  destruct rest as [|n rest]; [by exists []|]. destruct (n =? 0); [by exists [n]|].
  destruct (negb _); [done|]. destruct (Z.ltb_spec (len rest) n); [done|].
  specialize (IH (drop (Z.to_nat n) rest) (labels ++ [string_of (take (Z.to_nat n) rest)])).
  cbn [length] in Hf. rewrite length_drop in IH. specialize (IH ltac:(lia)).
  destruct (parse_labels fuel _ _) as [[ls rest']|]; [|done]. destruct IH as [pre Hpre].
  exists (n :: take (Z.to_nat n) rest ++ pre). cbn. by rewrite <-(assoc_L (++)), <-Hpre, take_drop.
Qed.

Lemma parseQuery_spec query :
  match parseQuery query with
  | Ok (header, question, _, _) => length header = 4%nat ∧ len question + 12 <= len query
  | Err (Panic _) => False
  | Err _ => True
  end.
Proof.
  unfold parseQuery. do 12 (destruct query as [|? query]; [done|]). destruct (negb _); [done|].
  pose proof (parse_labels_spec (S (length query)) query [] ltac:(lia)) as H.
  destruct (parse_labels _ _ _) as [[labels rest]|]; [cbn [rbind]|done]. destruct H as [pre Hpre].
  do 4 (destruct rest as [|? rest]; [done|]). split; [done|]. unfold len. cbn [length]. rewrite length_take. lia.
Qed.

Section AnswerFacts.
Context {ip : IPParser}.

Lemma append_records_bound response addresses :
  len response <= maxDNSMessage → len (append_records response addresses) <= maxDNSMessage.
Proof.
  revert response. induction addresses as [|a l IH]; intros response H; cbn [append_records]; [done|].
  destruct (Z.ltb_spec maxDNSMessage (len (response ++ answer_record a))) as [Hlt|Hge]; [|by apply IH].
  unfold len. rewrite length_take. unfold maxDNSMessage. lia.
Qed.

(** The resolver always answers or drops a query and never runs on: parsing ends on every
    message, and the response to a message within the 512-byte limit stays within it. *)
Theorem dns_answer_bounded r query (Hq : len query <= maxDNSMessage) :
  match answer r query with
  | Ok response => len response <= maxDNSMessage
  | Err (Panic _) => False
  | Err _ => True
  end.
Proof.
  unfold answer. pose proof (parseQuery_spec query) as H.
  destruct (parseQuery query) as [[[[header question] name] qtype]|]; [cbn [rbind]|done]. destruct H as [Hh Hlen].
  apply append_records_bound. unfold len in *. rewrite !length_app, length_take, Hh. cbn [length put16 Nat.min]. lia.
Qed.

(** ** Which names are answered *)

(** What a published zone answers is what the control plane resolves.  After a node's
    resolver is given the zone built for it, looking up a workload's name gives exactly
    the endpoints resolving the workload from that node gives, and is unknown when there
    are none. *)
Theorem resolver_serves_directory {clock : WallClock} r w ports node x
    (Hl : is_label x = true) (Hne : x ≠ "") :
  Lookup (Resolver_Apply r (BuildServiceZone w ports node)) (ServiceName x) =
  (Resolve w ports x node, negb (len (Resolve w ports x node) =? 0)).
Proof.
  unfold Lookup. rewrite name_reads_back by done. cbn [negb Resolver_Apply resolver_zone]. rewrite zone_records.
  destruct (Resolve w ports x node) as [|e l]; [by rewrite decide_True|]. by rewrite decide_False.
Qed.
End AnswerFacts.

(** ** Reading back an encoded question *)

Fixpoint label_bytes (s : string) : list Z :=
  match s with "" => [] | String c s => Z.of_N (Ascii.N_of_ascii c) :: label_bytes s end.
Definition encode_label (s : string) : list Z := len (label_bytes s) :: label_bytes s.
Definition encode_question (labels : list string) (qtype : Z) : list Z :=
  (labels ≫= encode_label) ++ [0] ++ put16 qtype ++ put16 1.
Definition encode_query (id0 id1 f0 f1 : Z) (labels : list string) (qtype : Z) : list Z :=
  [id0; id1; f0; f1; 0; 1; 0; 0; 0; 0; 0; 0] ++ encode_question labels qtype.

Lemma string_of_label_bytes s : string_of (label_bytes s) = s.
Proof.
  induction s as [|c s IH]; [done|]. cbn. rewrite IH. f_equal. unfold byte_of.
  by rewrite N2Z.id, Ascii.ascii_N_embedding.
Qed.

(** A label DNS can carry. *)
Definition dns_label (s : string) : Prop := 1 <= len (label_bytes s) <= 63.

Lemma small_not_compressed n : 0 <= n <= 63 → Z.land n 192 = 0.
Proof.
  intros H. assert (∃ k, (k < 64)%nat ∧ n = Z.of_nat k) as (k & Hk & ->) by (exists (Z.to_nat n); lia).
  clear H. do 64 (destruct k as [|k]; [done|]). lia.
Qed.

Lemma parse_encoded labels acc tail fuel :
  Forall dns_label labels → (length labels < fuel)%nat →
  parse_labels fuel ((labels ≫= encode_label) ++ 0 :: tail) acc = Ok (acc ++ labels, tail).
Proof.
  revert acc fuel. induction labels as [|s labels IH]; intros acc fuel Hl Hf; (destruct fuel as [|fuel]; [cbn in Hf; lia|]).
  { cbn. by rewrite app_nil_r. }
  apply Forall_cons in Hl as [Hs Hl]. unfold dns_label in Hs. cbn [mbind list_bind encode_label app parse_labels].
  rewrite (proj2 (Z.eqb_neq _ 0)) by lia. rewrite small_not_compressed by lia. cbn [negb Z.eqb].
  set (tl := 0 :: tail). rewrite <-!(assoc_L (++)).
  destruct (Z.ltb_spec (len (label_bytes s ++ (labels ≫= encode_label) ++ tl)) (len (label_bytes s))) as [Hlt|_].
  { unfold len in Hlt. rewrite length_app in Hlt. lia. }
  unfold len. rewrite Nat2Z.id, drop_app_length, take_app_length, string_of_label_bytes.
  unfold tl. rewrite IH; [by rewrite <-(assoc_L (++))|done|]. cbn in Hf. lia.
Qed.

(** A question reads back: the query a client encodes for labels of 1 to 63 bytes and a
    16-bit type is parsed to the name those labels join to, that type, and the raw
    question, whatever bytes the labels hold. *)
Theorem dns_query_roundtrip id0 id1 f0 f1 labels qtype
    (Hl : Forall dns_label labels) (Ht : 0 <= qtype < 65536) :
  parseQuery (encode_query id0 id1 f0 f1 labels qtype) =
  Ok ([id0; id1; f0; f1], encode_question labels qtype, Join_dots labels, qtype).
Proof.
  unfold parseQuery, encode_query. cbn [app]. change (be16 0 1 =? 1) with true. cbn [negb].
  unfold encode_question at 2. cbn [app]. rewrite parse_encoded; [cbn [rbind put16 app]|done|].
  - rewrite Nat.sub_0_r, firstn_all.
    assert (be16 (qtype / 256 mod 256) (qtype mod 256) = qtype) as ->; [|done].
    unfold be16. rewrite (Z.mod_small (qtype / 256)); [symmetry; apply Z.div_mod; lia|].
    split; [apply Z.div_pos; lia|apply Z.div_lt_upper_bound; lia].
  - unfold encode_question. rewrite !length_app. cbn [length put16].
    assert (length labels <= length (labels ≫= encode_label))%nat as H; [|lia].
    clear. induction labels as [|s l IH]; [done|]. cbn. rewrite length_app. lia.
Qed.

(** ** A resolver at work *)

Module DnsSample.
#[local] Instance dns_clock : WallClock := 100.
#[local] Instance dns_ip : IPParser := λ s, if bool_decide (s = "") then None else Some [10; 0; 0; 1].

Definition busy_zone : ServiceZone :=
  mkServiceZone "n1" {[ "web.a4s.internal" := replicate 40 (mkResolvedEndpoint "10.0.0.1" 80 "web-0" "n1" true) ]}.
Definition web_query : list Z := encode_query 7 7 1 0 ["web"; "a4s"; "internal"] 1.

Lemma dns_answer_bounded_witness :
  match answer (mkResolver busy_zone) web_query with Ok response => len response <= maxDNSMessage | Err _ => True end.
Proof.
  assert (len web_query <= maxDNSMessage) as Hq by (apply Z.leb_le; vm_compute; reflexivity).
  pose proof (dns_answer_bounded (mkResolver busy_zone) web_query Hq) as H.
  destruct (answer (mkResolver busy_zone) web_query); [exact H|exact I].
Defined.

Lemma dns_query_roundtrip_witness :
  parseQuery web_query = Ok ([7; 7; 1; 0], encode_question ["web"; "a4s"; "internal"] 1, "web.a4s.internal", 1).
Proof.
  apply (dns_query_roundtrip 7 7 1 0 ["web"; "a4s"; "internal"] 1); [|lia].
  repeat constructor; vm_compute; discriminate.
Defined.

Lemma resolver_serves_directory_witness :
  Lookup (Resolver_Apply (NewResolver "n1") (BuildServiceZone (mkWorld 1 100 ∅ ∅ ∅ ∅ ∅ ∅ ∅ [] ∅) ∅ "n1")) (ServiceName "web") =
  ([], false).
Proof. exact (resolver_serves_directory (NewResolver "n1") (mkWorld 1 100 ∅ ∅ ∅ ∅ ∅ ∅ ∅ [] ∅) ∅ "n1" "web" eq_refl ltac:(discriminate)). Defined.

(** A response cut at the limit does not say so: asked for a name with forty endpoints the
    resolver returns 512 bytes that announce forty answers, hold fewer than thirty, and
    leave the truncation bit clear, so no client learns to retry over TCP. *)
Theorem dns_truncation_unmarked :
  ∃ response, answer (mkResolver busy_zone) web_query = Ok response ∧ len response = maxDNSMessage ∧
    be16 (nth 6 response 0) (nth 7 response 0) = 40 ∧ Z.land (nth 2 response 0) 2 = 0 ∧
    (len response - 12 - len (encode_question ["web"; "a4s"; "internal"] 1)) / 16 < 30.
Proof. eexists. split; [vm_compute; reflexivity|]. vm_compute. done. Qed.
End DnsSample.
