(* ===== verification/Validate.v ===== *)
(** * Goal validation (src/control/validate.go)

    What a goal document and the world it is submitted against must satisfy before
    anything is authorized.  A nil map reads like an empty one here, so [normalize] is
    the identity; the regular expressions of the source, all of them over ASCII
    classes, are predicates on the bytes of a string. *)

From S2P Require Import Prelude Types Text Spread Policy Provenance Rollout Cron Executor Directory Canary NetPolicy Agents.
Open Scope Z_scope.

Definition APIVersion : string := "a4s.io/v1alpha1".

Record Scenario := mkScenario { Scenario_Goal : Goal; Scenario_World : World }.

(** ** Patterns *)

Definition in_range (lo hi : N) (c : Ascii.ascii) : bool :=
  ((lo <=? Ascii.N_of_ascii c) && (Ascii.N_of_ascii c <=? hi))%N.
Definition is_alnum (c : Ascii.ascii) : bool := in_range 97 122 c || in_range 48 57 c.

Fixpoint all_chars (f : Ascii.ascii → bool) (s : string) : bool :=
  match s with "" => true | String c s => f c && all_chars f s end.
Fixpoint last_char (s : string) : option Ascii.ascii :=
  match s with "" => None | String c "" => Some c | String _ s => last_char s end.

(** [^[a-z0-9](?:M{0,61}[a-z0-9])?$] for a class [M] that contains [[a-z0-9]] *)
Definition handle_pattern (middle : Ascii.ascii → bool) (s : string) : bool :=
  match s, last_char s with
  | String first _, Some last =>
      is_alnum first && is_alnum last && all_chars middle s && (String.length s <=? 63)%nat
  | _, _ => false
  end.

Definition hyphen : Ascii.ascii := Ascii.ascii_of_N 45.
Definition dot : Ascii.ascii := Ascii.ascii_of_N 46.
Definition underscore : Ascii.ascii := Ascii.ascii_of_N 95.
Definition name_char (c : Ascii.ascii) : bool := is_alnum c || bool_decide (c = hyphen).
Definition secret_char (c : Ascii.ascii) : bool :=
  is_alnum c || bool_decide (c = hyphen) || bool_decide (c = dot) || bool_decide (c = underscore).

Definition namePattern (s : string) : bool := handle_pattern name_char s.
Definition secretNamePattern (s : string) : bool := handle_pattern secret_char s.
Definition toolNamePattern (s : string) : bool := handle_pattern secret_char s.

(** [strings.TrimSpace(s) == ""] *)
Definition is_blank_text (s : string) : bool := bool_decide (Fields s = []).

(** [strings.ContainsAny(s, "\n\r\t ")] *)
Definition is_version_space (c : Ascii.ascii) : bool :=
  let n := Ascii.N_of_ascii c in ((n =? 10) || (n =? 13) || (n =? 9) || (n =? 32))%N.
Definition contains_space (s : string) : bool := negb (all_chars (λ c, negb (is_version_space c)) s).

(** ** Parts of a goal *)

Definition maxSecretVersionLength : Z := 64.

(** Two sets of what has been seen, threaded through a loop. *)
Definition validate_secret (seen : gset string * gset string) (ref : SecretRef) : result (gset string * gset string) :=
  refuse (negb (secretNamePattern (Secret_Name ref))) "secret name %q must be a short lowercase handle";
  refuse (bool_decide (Secret_Version ref = "") || (maxSecretVersionLength <? Z.of_nat (String.length (Secret_Version ref))))
    "secret %q needs a version of at most %d characters";
  refuse (contains_space (Secret_Version ref)) "secret %q version must not contain whitespace";
  refuse (negb (String.prefix "/" (Secret_MountPath ref))) "secret %q mount path must be absolute";
  refuse (strings_Contains (Secret_MountPath ref) "..") "secret %q mount path must not contain %q";
  refuse (bool_decide (Secret_Name ref ∈ seen.1)) "secret %q is referenced twice";
  refuse (bool_decide (Secret_MountPath ref ∈ seen.2)) "two secrets share mount path %q";
  Ok ({[Secret_Name ref]} ∪ seen.1, {[Secret_MountPath ref]} ∪ seen.2).

Definition validateSecrets (refs : list SecretRef) : result unit :=
  let* _ := for_each validate_secret (∅, ∅) refs in Ok tt.

Definition validate_volume (seen : gset string * gset string) (ref : VolumeRef) : result (gset string * gset string) :=
  refuse (negb (namePattern (VolumeRef_Name ref))) "volume name %q must be lowercase DNS-style text";
  refuse (negb (String.prefix "/" (VolumeRef_MountPath ref))) "volume %q mount path must be absolute";
  refuse (strings_Contains (VolumeRef_MountPath ref) "..") "volume %q mount path must not contain %q";
  refuse (bool_decide (VolumeRef_Name ref ∈ seen.1)) "volume %q is referenced twice";
  refuse (bool_decide (VolumeRef_MountPath ref ∈ seen.2)) "two volumes share mount path %q";
  Ok ({[VolumeRef_Name ref]} ∪ seen.1, {[VolumeRef_MountPath ref]} ∪ seen.2).

Definition validateVolumes (w : WorkloadSpec) : result unit :=
  if len (Workload_Volumes w) =? 0 then
    refuse (Workload_Stateful w) "a stateful workload must declare its volumes"; Ok tt
  else
    refuse (negb (Workload_Replicas w =? 1)) "a workload with volumes must have exactly one replica, not %d";
    let* _ := for_each validate_volume (∅, ∅) (Workload_Volumes w) in Ok tt.

Definition supportedEngines (engine : string) : bool := bool_decide (engine = "postgres").

Definition validateEngine (w : WorkloadSpec) : result unit :=
  if bool_decide (Workload_Engine w = "") then Ok tt
  else
    refuse (negb (supportedEngines (Workload_Engine w))) "database engine %q is not supported";
    refuse (len (Workload_Volumes w) =? 0) "a database workload must declare a volume for its data";
    refuse (negb (Workload_Replicas w =? 1)) "a database workload must have exactly one replica, not %d";
    Ok tt.

Definition supportedRuntimes (name : string) : bool := bool_decide (name = "a4s.agent/v1").
Definition maxToolGrants : Z := 32.

Definition validateBudget (b : Budget) : result unit :=
  refuse (Tokens b <? 1) "agent budget must set a positive token ceiling";
  refuse (CostMillis b <? 1) "agent budget must set a positive cost ceiling";
  refuse (WallSeconds b <? 1) "agent budget must set a positive wall-clock ceiling";
  refuse (ToolCalls b <? 1) "agent budget must set a positive tool-call ceiling";
  Ok tt.

Definition validate_tool (seen : gset string) (grant : ToolGrant) : result (gset string) :=
  refuse (negb (toolNamePattern (Tool_Name grant))) "tool name %q must be a short lowercase handle";
  refuse (is_blank_text (Tool_Scope grant)) "tool %q must declare a scope";
  refuse (bool_decide (Tool_Name grant ∈ seen)) "tool %q is granted twice";
  Ok ({[Tool_Name grant]} ∪ seen).

Definition validateToolGrants (grants : list ToolGrant) : result unit :=
  refuse (maxToolGrants <? len grants) "agent declares %d tools, above the limit of %d";
  let* _ := for_each validate_tool ∅ grants in Ok tt.

Definition validateRuntime (w : WorkloadSpec) : result unit :=
  match Workload_Runtime w with
  | None => Ok tt
  | Some r =>
      refuse (negb (supportedRuntimes (Runtime_Name r))) "agent runtime %q is not supported";
      refuse (bool_decide (Workload_Engine w ≠ "")) "a workload cannot be both a %s database and an agent";
      refuse (negb (namePattern (Runtime_Provider r))) "agent provider must be lowercase DNS-style text";
      refuse (is_blank_text (Runtime_Model r)) "agent model must be pinned";
      let* _ := validateBudget (Runtime_Budget r) in
      let* _ := validateToolGrants (Runtime_Tools r) in
      refuse (bool_decide (Runtime_Queue r ≠ "") && negb (namePattern (Runtime_Queue r)))
        "agent queue name %q must be lowercase DNS-style text";
      Ok tt
  end.

Definition validate_queue (name : string) (q : Queue) : result unit :=
  refuse (bool_decide (Queue_Name q ≠ name) || negb (namePattern name)) "queue map key %q must match a valid queue name";
  refuse ((Queue_Depth q <? 0) || (Queue_InFlight q <? 0)) "queue %q cannot have negative depth or in-flight count";
  refuse (Queue_MaxWorkers q <? 1) "queue %q must cap workers at one or more";
  Ok tt.

Definition validateQueues (g : Goal) (w : World) : result unit :=
  let* _ := for_all (λ '(name, q), validate_queue name q) (map_to_list (Queues w)) in
  match Workload_Runtime (Goal_Workload g) with
  | None => Ok tt
  | Some runtime =>
      if bool_decide (Runtime_Queue runtime = "") then Ok tt
      else
        need queue := Queues w !! Runtime_Queue runtime else "agent workload references queue %q, which does not exist";
        refuse (bool_decide (Queue_Workload queue ≠ Workload_Name (Goal_Workload g))) "queue %q serves workload %q, not %q";
        Ok tt
  end.

Definition validateSchedule (w : WorkloadSpec) : result unit :=
  match Workload_Schedule w with
  | None => Ok tt
  | Some _ =>
      let* _ := Schedule_Validate (Workload_Schedule w) in
      refuse (bool_decide (Workload_Engine w ≠ "")) "a %s database cannot be a scheduled workload";
      refuse (bool_decide (is_Some (Workload_Runtime w))) "an agent workload cannot be a scheduled workload";
      refuse (Workload_Stateful w || (0 <? len (Workload_Volumes w))) "a scheduled workload cannot be stateful";
      refuse (Workload_Replicas w <? RequiredCompletions (Workload_Schedule w))
        "schedule requires %d completions but the workload runs %d replicas";
      Ok tt
  end.

Definition validateCanary (g : Goal) : result unit :=
  match Goal_Canary g with
  | None => Ok tt
  | Some _ =>
      let* _ := Canary_Validate (Goal_Canary g) in
      refuse (bool_decide (Goal_Route g = None)) "a canary requires a route to shift traffic across";
      refuse (Workload_Replicas (Goal_Workload g) <? 2) "a canary needs at least two replicas, got %d";
      refuse (bool_decide (is_Some (Workload_Schedule (Goal_Workload g)))) "a scheduled workload cannot use a canary";
      Ok tt
  end.

(** ** The whole scenario *)

Definition validate_node (id : string) (n : Node) : result unit :=
  refuse (bool_decide (Node_ID n ≠ id) || negb (namePattern id)) "node map key %q must match a valid node id";
  refuse ((CPUMillis (Node_Capacity n) <? 1) || (MemoryMB (Node_Capacity n) <? 1)) "node %q capacity must be positive";
  Ok tt.

Definition validate_approval (goalID id : string) (a : Approval) : result unit :=
  refuse (bool_decide (Approval_ID a ≠ id) || bool_decide (Approval_GoalID a ≠ goalID) ||
          bool_decide (Approval_Scope a = "") || bool_decide (Approval_IssuedBy a = ""))
    "approval %q is malformed or belongs to another goal";
  Ok tt.

Definition validate_route (r : RouteSpec) : result unit :=
  refuse (is_blank_text (RouteSpec_Host r)) "route host is required";
  refuse ((RouteSpec_Port r <? 1) || (65535 <? RouteSpec_Port r)) "route port must be between 1 and 65535";
  refuse (negb (bool_decide (RouteSpec_Exposure r ∈ ["tailnet"; "public"]))) "route exposure must be tailnet or public";
  Ok tt.

Definition NormalizeAndValidate (s : Scenario) : result unit :=
  let g := Scenario_Goal s in
  let w := Goal_Workload g in
  refuse (bool_decide (Goal_APIVersion g ≠ APIVersion)) "api_version must be %q";
  refuse (negb (namePattern (Goal_ID g))) "goal id must be lowercase DNS-style text";
  refuse (is_blank_text (Goal_Objective g)) "goal objective is required";
  refuse (negb (namePattern (Workload_Name w))) "workload name must be lowercase DNS-style text";
  refuse (negb (digestPattern (Workload_Image w))) "workload image must be pinned by sha256 digest";
  refuse (Workload_Replicas w <? 1) "workload replicas must be positive";
  refuse (((bool_decide (Workload_Runtime w = None) && bool_decide (Workload_Schedule w = None)) || negb (Workload_Port w =? 0)) &&
          ((Workload_Port w <? 1) || (65535 <? Workload_Port w))) "workload port must be between 1 and 65535";
  refuse ((CPUMillis (Workload_Resources w) <? 1) || (MemoryMB (Workload_Resources w) <? 1)) "workload resources must be positive";
  refuse (Workload_Privileged w) "privileged workloads are outside the v1alpha1 safety policy";
  let* _ := validateVolumes w in
  let* _ := validateEngine w in
  let* _ := validateRuntime w in
  let* _ := validateSchedule w in
  let* _ := validateCanary g in
  let* _ := validateSpread g (Scenario_World s) in
  let* _ := validateQueues g (Scenario_World s) in
  let* _ := validateSecrets (Workload_Secrets w) in
  let* _ := match Goal_Route g with Some r => validate_route r | None => Ok tt end in
  refuse (bool_decide (Nodes (Scenario_World s) = ∅)) "world must contain at least one node";
  let* _ := for_all (λ '(id, n), validate_node id n) (map_to_list (Nodes (Scenario_World s))) in
  for_all (λ '(id, a), validate_approval (Goal_ID g) id a) (map_to_list (Approvals (Scenario_World s))).

(** ** What the patterns admit *)

Lemma name_char_label c : name_char c = true → label_char c = true.
Proof.
  unfold name_char, is_alnum, in_range, label_char. rewrite !orb_true_iff.
  intros [[H|H]|H]; auto. apply bool_decide_eq_true in H as ->. auto.
Qed.

Lemma namePattern_label s : namePattern s = true → is_label s = true ∧ s ≠ "".
Proof.
  unfold namePattern, handle_pattern. destruct s as [|c s]; [done|]. destruct (last_char _); [|done].
  intros H. bool_simpl. split; [|done]. clear -H1.
  remember (String c s) as t eqn:E. clear E. induction t as [|d t IH]; [done|]. cbn in *. bool_simpl.
  by rewrite name_char_label, IH.
Qed.

Lemma prefix_substring n s : String.prefix (String.substring 0 n s) s = true.
Proof. revert s. induction n as [|n IH]; intros [|c s]; try done. cbn. by destruct (Ascii.ascii_dec c c). Qed.

Lemma Contains_substring m n s sub : String.substring m n s = sub → strings_Contains s sub = true.
Proof.
  intros <-. revert s. induction m as [|m IH]; intros s.
  - destruct s as [|c s]; [by destruct n|]. cbn [strings_Contains]. apply orb_true_iff. left. apply prefix_substring.
  - destruct s as [|c s]; [done|]. cbn [strings_Contains String.substring]. apply orb_true_iff. right. apply IH.
Qed.

Lemma digestPattern_pinned s : digestPattern s = true → strings_Contains s "@sha256:" = true.
Proof.
  unfold digestPattern. intros [[_ H]%andb_true_iff _]%andb_true_iff.
  by eapply Contains_substring, String.eqb_eq.
Qed.

(** A loop that refuses what it has already seen leaves no duplicates. *)
Lemma for_each_seen {A S K} `{Countable K} (f : S → A → result S) (key : A → K) (seen : S → gset K) s l s' :
  (∀ s x s', f s x = Ok s' → (key x ∉ seen s) ∧ seen s' = {[key x]} ∪ seen s) →
  for_each f s l = Ok s' → NoDup (key <$> l) ∧ ∀ x, x ∈ l → key x ∉ seen s.
Proof.
  intros Hf. revert s. induction l as [|x l IH]; intros s Hl; cbn [for_each] in Hl.
  { split; [constructor|set_solver]. }
  destruct (f s x) as [s1|] eqn:E; [cbn [rbind] in Hl|done]. destruct (Hf _ _ _ E) as [Hx Hs1].
  destruct (IH _ Hl) as [Hnd Hn]. rewrite Hs1 in Hn. split.
  - rewrite fmap_cons. constructor; [|done]. intros (y & Heq & Hy)%list_elem_of_fmap.
    apply (Hn y Hy). rewrite <-Heq. set_solver.
  - intros y [->|Hy]%elem_of_cons; [done|]. specialize (Hn y Hy). set_solver.
Qed.

(** ** What an accepted scenario satisfies *)

Record accepted (s : Scenario) : Prop := {
  accepted_goal : Goal_APIVersion (Scenario_Goal s) = APIVersion ∧ namePattern (Goal_ID (Scenario_Goal s)) = true ∧
    is_blank_text (Goal_Objective (Scenario_Goal s)) = false;
  accepted_name : is_label (Workload_Name (Goal_Workload (Scenario_Goal s))) = true ∧
    Workload_Name (Goal_Workload (Scenario_Goal s)) ≠ "";
  accepted_image : strings_Contains (Workload_Image (Goal_Workload (Scenario_Goal s))) "@sha256:" = true;
  accepted_size : 1 <= Workload_Replicas (Goal_Workload (Scenario_Goal s)) ∧
    1 <= CPUMillis (Workload_Resources (Goal_Workload (Scenario_Goal s))) ∧
    1 <= MemoryMB (Workload_Resources (Goal_Workload (Scenario_Goal s))) ∧
    0 <= Workload_Port (Goal_Workload (Scenario_Goal s)) <= 65535 ∧
    Workload_Privileged (Goal_Workload (Scenario_Goal s)) = false;
  accepted_volumes : Workload_Volumes (Goal_Workload (Scenario_Goal s)) ≠ [] →
    Workload_Replicas (Goal_Workload (Scenario_Goal s)) = 1 ∧
    NoDup (VolumeRef_Name <$> Workload_Volumes (Goal_Workload (Scenario_Goal s))) ∧
    NoDup (VolumeRef_MountPath <$> Workload_Volumes (Goal_Workload (Scenario_Goal s)));
  accepted_stateful : Workload_Stateful (Goal_Workload (Scenario_Goal s)) = true → Workload_Volumes (Goal_Workload (Scenario_Goal s)) ≠ [];
  accepted_engine : Workload_Engine (Goal_Workload (Scenario_Goal s)) ≠ "" →
    Workload_Engine (Goal_Workload (Scenario_Goal s)) = "postgres" ∧ Workload_Volumes (Goal_Workload (Scenario_Goal s)) ≠ [] ∧
    Workload_Replicas (Goal_Workload (Scenario_Goal s)) = 1 ∧ Workload_Runtime (Goal_Workload (Scenario_Goal s)) = None ∧
    Workload_Schedule (Goal_Workload (Scenario_Goal s)) = None;
  accepted_secrets : NoDup (Secret_Name <$> Workload_Secrets (Goal_Workload (Scenario_Goal s))) ∧
    NoDup (Secret_MountPath <$> Workload_Secrets (Goal_Workload (Scenario_Goal s)));
  accepted_runtime r : Workload_Runtime (Goal_Workload (Scenario_Goal s)) = Some r →
    1 <= Tokens (Runtime_Budget r) ∧ 1 <= CostMillis (Runtime_Budget r) ∧ 1 <= WallSeconds (Runtime_Budget r) ∧
    1 <= ToolCalls (Runtime_Budget r) ∧ len (Runtime_Tools r) <= 32 ∧ NoDup (Tool_Name <$> Runtime_Tools r) ∧
    Workload_Schedule (Goal_Workload (Scenario_Goal s)) = None ∧
    (Runtime_Queue r ≠ "" → ∃ q, Queues (Scenario_World s) !! Runtime_Queue r = Some q ∧
       Queue_Workload q = Workload_Name (Goal_Workload (Scenario_Goal s)));
  accepted_queues name q : Queues (Scenario_World s) !! name = Some q →
    Queue_Name q = name ∧ namePattern name = true ∧ 0 <= Queue_Depth q ∧ 0 <= Queue_InFlight q ∧ 1 <= Queue_MaxWorkers q;
  accepted_schedule sch : Workload_Schedule (Goal_Workload (Scenario_Goal s)) = Some sch →
    is_Ok (ParseCron (Schedule_Cron sch)) ∧
    RequiredCompletions (Some sch) <= Workload_Replicas (Goal_Workload (Scenario_Goal s)) ∧
    Workload_Volumes (Goal_Workload (Scenario_Goal s)) = [];
  accepted_canary c : Goal_Canary (Scenario_Goal s) = Some c →
    valid_canary c ∧ is_Some (Goal_Route (Scenario_Goal s)) ∧ 2 <= Workload_Replicas (Goal_Workload (Scenario_Goal s));
  accepted_route r : Goal_Route (Scenario_Goal s) = Some r →
    is_blank_text (RouteSpec_Host r) = false ∧ 1 <= RouteSpec_Port r <= 65535 ∧ RouteSpec_Exposure r ∈ ["tailnet"; "public"];
  accepted_cluster : Nodes (Scenario_World s) ≠ ∅;
  accepted_nodes id n : Nodes (Scenario_World s) !! id = Some n →
    Node_ID n = id ∧ id ≠ "" ∧ 1 <= CPUMillis (Node_Capacity n) ∧ 1 <= MemoryMB (Node_Capacity n);
  accepted_approvals id a : Approvals (Scenario_World s) !! id = Some a →
    Approval_ID a = id ∧ Approval_GoalID a = Goal_ID (Scenario_Goal s) ∧ Approval_Scope a ≠ "" ∧ Approval_IssuedBy a ≠ "" }.

(** Each part, on its own. *)

Lemma validateVolumes_ok w :
  validateVolumes w = Ok tt → Workload_Volumes w ≠ [] →
  Workload_Replicas w = 1 ∧ NoDup (VolumeRef_Name <$> Workload_Volumes w) ∧ NoDup (VolumeRef_MountPath <$> Workload_Volumes w).
Proof.
  unfold validateVolumes. intros H Hne. destruct (Z.eqb_spec (len (Workload_Volumes w)) 0) as [E|_].
  { unfold len in E. by destruct (Workload_Volumes w). }
  inv_ok H. bool_simpl. split; [done|].
  split; (eapply for_each_seen; [|eassumption]); intros s x s' Hx; unfold validate_volume in Hx; inv_ok Hx; subst s'; bool_simpl.
  - by instantiate (1 := fst).
  - by instantiate (1 := snd).
Qed.

Lemma validateSecrets_ok refs :
  validateSecrets refs = Ok tt → NoDup (Secret_Name <$> refs) ∧ NoDup (Secret_MountPath <$> refs).
Proof.
  unfold validateSecrets. intros H. inv_ok H.
  split; (eapply for_each_seen; [|eassumption]); intros s x s' Hx; unfold validate_secret in Hx; inv_ok Hx; subst s'; bool_simpl.
  - by instantiate (1 := fst).
  - by instantiate (1 := snd).
Qed.

Lemma validateToolGrants_ok grants :
  validateToolGrants grants = Ok tt → len grants <= 32 ∧ NoDup (Tool_Name <$> grants).
Proof.
  unfold validateToolGrants. intros H. inv_ok H. bool_simpl. split; [done|].
  eapply (for_each_seen _ _ id); [|eassumption]. intros s x s' Hx. unfold validate_tool in Hx. inv_ok Hx. subst s'. by bool_simpl.
Qed.

Lemma validateRuntime_ok w r :
  validateRuntime w = Ok tt → Workload_Runtime w = Some r →
  1 <= Tokens (Runtime_Budget r) ∧ 1 <= CostMillis (Runtime_Budget r) ∧ 1 <= WallSeconds (Runtime_Budget r) ∧
  1 <= ToolCalls (Runtime_Budget r) ∧ len (Runtime_Tools r) <= 32 ∧ NoDup (Tool_Name <$> Runtime_Tools r).
Proof.
  unfold validateRuntime, validateBudget. intros H Hr. rewrite Hr in H. inv_ok H. repeat match goal with u : unit |- _ => destruct u end.
  match goal with E : validateToolGrants _ = Ok _ |- _ => apply validateToolGrants_ok in E as [? ?] end.
  match goal with E : (if Tokens _ <? 1 then _ else _) = Ok _ |- _ => inv_ok E end. bool_simpl. split_and!; lia || done.
Qed.

Lemma validateSchedule_ok w sch :
  validateSchedule w = Ok tt → Workload_Schedule w = Some sch →
  is_Ok (ParseCron (Schedule_Cron sch)) ∧ RequiredCompletions (Some sch) <= Workload_Replicas w ∧
  Workload_Volumes w = [] ∧ Workload_Runtime w = None.
Proof.
  unfold validateSchedule. intros H Hs. rewrite Hs in H. inv_ok H. bool_simpl. split_and!.
  - match goal with E : Schedule_Validate _ = Ok _ |- _ => unfold Schedule_Validate in E; inv_ok E end. done.
  - done.
  - unfold len in *. destruct (Workload_Volumes w); [done|]. cbn in *. lia.
  - by apply eq_None_not_Some.
Qed.

Lemma validateCanary_ok g c :
  validateCanary g = Ok tt → Goal_Canary g = Some c →
  valid_canary c ∧ is_Some (Goal_Route g) ∧ 2 <= Workload_Replicas (Goal_Workload g).
Proof.
  unfold validateCanary. intros H Hc. rewrite Hc in H. inv_ok H. bool_simpl.
  repeat match goal with u : unit |- _ => destruct u end. split_and!; [done| |done]. destruct (Goal_Route g); [done|]. done.
Qed.

Lemma validateStateful_ok w : validateVolumes w = Ok tt → Workload_Stateful w = true → Workload_Volumes w ≠ [].
Proof. unfold validateVolumes. intros H Hs E. rewrite E, Hs in H. done. Qed.

Lemma validateEngine_ok w :
  validateEngine w = Ok tt → Workload_Engine w ≠ "" →
  Workload_Engine w = "postgres" ∧ Workload_Volumes w ≠ [] ∧ Workload_Replicas w = 1.
Proof.
  unfold validateEngine, supportedEngines. intros H Hne. rewrite bool_decide_false in H by done. inv_ok H. bool_simpl.
  split; [done|]. split; [|done]. by destruct (Workload_Volumes w).
Qed.

(** A database is neither an agent nor scheduled. *)
Lemma engine_alone w :
  validateRuntime w = Ok tt → validateSchedule w = Ok tt → Workload_Engine w ≠ "" → Workload_Runtime w = None ∧ Workload_Schedule w = None.
Proof.
  unfold validateRuntime, validateSchedule. intros Hr Hs Hne. split.
  - destruct (Workload_Runtime w); [|done]. destruct (negb _); [done|]. by rewrite bool_decide_true in Hr.
  - destruct (Workload_Schedule w); [|done]. destruct (Schedule_Validate _); [|done]. cbn [rbind] in Hs. by rewrite bool_decide_true in Hs.
Qed.

Lemma validateQueues_ok g w :
  validateQueues g w = Ok tt →
  (∀ name q, Queues w !! name = Some q →
     Queue_Name q = name ∧ namePattern name = true ∧ 0 <= Queue_Depth q ∧ 0 <= Queue_InFlight q ∧ 1 <= Queue_MaxWorkers q) ∧
  ∀ r, Workload_Runtime (Goal_Workload g) = Some r → Runtime_Queue r ≠ "" →
    ∃ q, Queues w !! Runtime_Queue r = Some q ∧ Queue_Workload q = Workload_Name (Goal_Workload g).
Proof.
  unfold validateQueues. destruct (for_all _ _) as [[]|] eqn:Hall; [|done]. cbn [rbind]. intros H. split.
  - intros name q Hq. rewrite for_all_ok in Hall. specialize (Hall (name, q) (proj2 (elem_of_map_to_list _ _ _) Hq)).
    unfold validate_queue in Hall. inv_ok Hall. bool_simpl. split_and!; done || lia.
  - intros r Hr Hne. rewrite Hr, bool_decide_false in H by done. inv_ok H. bool_simpl. by eexists.
Qed.

Lemma validate_route_ok r :
  validate_route r = Ok tt →
  is_blank_text (RouteSpec_Host r) = false ∧ 1 <= RouteSpec_Port r <= 65535 ∧ RouteSpec_Exposure r ∈ ["tailnet"; "public"].
Proof. unfold validate_route. intros H. inv_ok H. bool_simpl. split_and!; done || lia. Qed.

(** C38: validation admits only well-formed scenarios.  A scenario that passes has a goal of
    this version with a DNS id and an objective; a workload with a DNS name, an image pinned
    by digest and positive sizes; volumes only with one replica, and where it is stateful or
    a database; no name or mount path used twice; an agent only with every budget ceiling
    set, bounded tools and a queue that exists and serves it; queues under their own DNS
    names, with non-negative counts and at least one worker; a schedule that parses and can
    complete; a canary that is usable; a route with a host and a valid port and exposure;
    at least one node, all under their own ids; and approvals under their own ids, of this
    goal alone, with a scope and an issuer. *)
Theorem validation_sound s (H : NormalizeAndValidate s = Ok tt) : accepted s.
Proof.
  unfold NormalizeAndValidate in H. cbv zeta in H. inv_ok H. repeat match goal with u : unit |- _ => destruct u end.
  assert (Workload_Runtime (Goal_Workload (Scenario_Goal s)) ≠ None →
          Workload_Schedule (Goal_Workload (Scenario_Goal s)) = None) as Hexcl.
  { intros Hr. destruct (Workload_Schedule _) as [sch|] eqn:Hsch; [|done].
    match goal with E : validateSchedule _ = Ok _ |- _ => destruct (validateSchedule_ok _ _ E Hsch) as (_ & _ & _ & ?) end. done. }
  match goal with E : validateQueues _ _ = Ok _ |- _ => destruct (validateQueues_ok _ _ E) as [Hqueues Hserves] end.
  split.
  - bool_simpl. split_and!; done.
  - apply namePattern_label. by bool_simpl.
  - apply digestPattern_pinned. by bool_simpl.
  - bool_simpl. split_and!; try done.
    + match goal with E : _ && _ = false |- _ => apply andb_false_iff in E as [E|E] end; bool_simpl; [|lia].
      lia.
    + match goal with E : _ && _ = false |- _ => apply andb_false_iff in E as [E|E] end; bool_simpl; [|lia].
      lia.
  - by apply validateVolumes_ok.
  - by apply validateStateful_ok.
  - intros Hne. match goal with E : validateEngine _ = Ok _ |- _ => destruct (validateEngine_ok _ E Hne) as (? & ? & ?) end.
    by destruct (engine_alone (Goal_Workload (Scenario_Goal s))).
  - by apply validateSecrets_ok.
  - intros r Hr. match goal with E : validateRuntime _ = Ok _ |- _ => pose proof (validateRuntime_ok _ _ E Hr) end.
    destruct_and!. split_and!; try done; [apply Hexcl; by rewrite Hr|by apply Hserves].
  - exact Hqueues.
  - intros sch Hsch. match goal with E : validateSchedule _ = Ok _ |- _ => destruct (validateSchedule_ok _ _ E Hsch) as (? & ? & ? & ?) end. done.
  - intros c. by apply validateCanary_ok.
  - intros r Hr. apply validate_route_ok.
    match goal with E : match Goal_Route _ with _ => _ end = Ok _ |- _ => by rewrite Hr in E end.
  - by bool_simpl.
  - intros id n Hn. match goal with E : for_all (λ '(id, n), validate_node id n) _ = Ok _ |- _ =>
      rewrite for_all_ok in E; specialize (E (id, n) (proj2 (elem_of_map_to_list _ _ _) Hn)) end.
    match goal with E : (let '(id, n) := (id, n) in validate_node id n) = Ok _ |- _ => unfold validate_node in E; inv_ok E end.
    bool_simpl. split_and!; try done. by apply namePattern_label.
  - intros id a Ha. rewrite for_all_ok in H. specialize (H (id, a) (proj2 (elem_of_map_to_list _ _ _) Ha)).
    unfold validate_approval in H. inv_ok H. bool_simpl. by split_and!.
Qed.

(** ** A policy nobody checks *)

Section Unchecked.
Context {clock : WallClock} {cidr : CIDRParser} {digest : Digest}.

(** A network policy that cannot be compiled is reported nowhere.  Validating the goal
    gives the same answer whatever its policy says, and the network agent, unable to
    compile it, proposes no rules at all, so that nothing reaches the kernel that could
    refuse it and names and routes are published without a firewall. *)
Theorem invalid_policy_hidden g w policy e
    (Hp : Workload_Policy (Goal_Workload g) = Some policy) (He : NetworkPolicy_Validate (own_policy g policy) = Err e) :
  (∀ other, NormalizeAndValidate (mkScenario (g <| Goal_Workload ::= set Workload_Policy (λ _, other) |>) w) =
            NormalizeAndValidate (mkScenario g w)) ∧
  stalePolicies g w = [].
Proof.
  split.
  - intros other. destruct g as [? ? ? [] ? ? ?]. reflexivity.
  - unfold stalePolicies. rewrite Hp. apply elem_of_nil_inv. intros a Ha%at_most_one_elem.
    apply list_elem_of_omap in Ha as (id & _ & Ha). unfold stale_policy, CompilePolicies in Ha.
    change (merge_sort by_workload [own_policy g policy]) with [own_policy g policy] in Ha.
    cbn [for_each] in Ha. unfold compile_policy in Ha. by rewrite He in Ha.
Qed.
End Unchecked.

(** ** Validation at work *)

Module ValidateSample.
#[local] Instance validate_clock : WallClock := 100.
#[local] Instance validate_cidr : CIDRParser := λ s, None.
#[local] Instance validate_digest : Digest := λ s, s.

Definition pinned_image : string :=
  "registry/web@sha256:0123456789abcdef0123456789abcdef0123456789abcdef0123456789abcdef".
Definition web_spec (policy : option NetworkPolicy) : WorkloadSpec :=
  mkWorkloadSpec "web" pinned_image 2 8080 (mkResources 500 256) false false [mkSecretRef "tls" "v1" "/etc/tls"] [] "" None
    policy None (Some (mkPlacement 2)) None.
Definition web_scenario (policy : option NetworkPolicy) : Scenario :=
  mkScenario
    (mkGoal APIVersion "serve-web" "serve the site" (web_spec policy) (Some (mkRouteSpec "example.org" 443 "public"))
       (mkConstraints ∅ []) (Some (mkCanary [10; 100] 0)))
    (mkWorld 1 100 {[ "n1" := mkNode "n1" ∅ (mkResources 4000 8192) Resources_zero ∅ true "" false "" "" 0 "" "" ∅ Budget_zero Budget_zero ]}
       ∅ ∅ ∅ ∅ {[ "a1" := mkApproval "a1" "serve-web" "public-route" "op" true 50 0 0 "" "" "" ]} ∅ [] ∅).

Lemma validation_sound_witness : accepted (web_scenario None).
Proof. apply validation_sound. vm_compute. reflexivity. Defined.

Definition broken_policy : NetworkPolicy := mkNetworkPolicy "" [mkIngressRule "" "not-a-prefix" 80] [].

Lemma invalid_policy_hidden_witness :
  stalePolicies (Scenario_Goal (web_scenario (Some broken_policy))) (Scenario_World (web_scenario None)) = [].
Proof.
  refine (proj2 (invalid_policy_hidden (Scenario_Goal (web_scenario (Some broken_policy))) (Scenario_World (web_scenario None))
    broken_policy (Wrapf "ingress rule %d: %w" (Errorf "%q is not a valid CIDR")) _ _)); [reflexivity|vm_compute; reflexivity].
Defined.
End ValidateSample.
