(* ===== verification/Keys.v ===== *)
(** * Controller keys and their rotation (src/control/keyset.go)

    The record of which controller keys a node trusts: a key signs while active, still
    verifies while accepted, and neither once retired.  Base64 and the JSON decoder are
    library code; what the code relies on is that decoding undoes encoding. *)

From S2P Require Import Prelude Types Provenance.
Open Scope Z_scope.

(** [type KeyState string]; a decoded document may carry any other text. *)
Inductive KeyState := KeyActive | KeyAccepted | KeyRetired | KeyState_other (s : string).
#[export] Instance KeyState_eq_dec : EqDecision KeyState.
Proof. solve_decision. Defined.

Record ControllerKey := mkControllerKey {
  Key_ID : string; Key_Public : string; Key_State : KeyState;
  Key_CreatedAt : time; Key_RotatedAt : time; Key_RetiredAt : time }.
#[export] Instance eta_ControllerKey : Eta ControllerKey := λ r,
  mkControllerKey (Key_ID r) (Key_Public r) (Key_State r) (Key_CreatedAt r) (Key_RotatedAt r) (Key_RetiredAt r).

Record KeySet := mkKeySet { Set_Version : Z; Set_Keys : list ControllerKey }.

Definition KeySetVersion : Z := 1.

(** Signing needs more of the library than verifying: the inverse of decoding, the
    public half of a private key, and the signature itself. *)
Definition PrivateKeySize : nat := 64.
Class Signer := {
  base64_Encode : string → string;
  ed25519_Sign : string → string → string;
  ed25519_Public : string → string;
  ed25519_NewKeyFromSeed : string → string;
}.

(** A private key made from a seed, as [GenerateKey] makes it: its second half is the public
    key that belongs to the first. *)
Definition genuine_key {signer : Signer} (key : string) : Prop :=
  ∃ seed, String.length seed = 32%nat ∧ ed25519_NewKeyFromSeed seed = key.

Class SignerLaws (att : Attest) (signer : Signer) : Prop := {
  decode_encode : ∀ s, base64_Decode (base64_Encode s) = Some s;
  sign_verifies : ∀ key message, genuine_key key →
    ed25519_Verify (ed25519_Public key) message (ed25519_Sign key message) = true;
  public_size : ∀ key, String.length key = PrivateKeySize → String.length (ed25519_Public key) = PublicKeySize;
}.

(** [json.NewDecoder] with unknown fields disallowed, on a key set document. *)
Class KeySetDecoder := decode_keyset : string → decoded KeySet.

Section Operations.
Context {att : Attest} {signer : Signer}.

Definition Key_Decode (k : ControllerKey) : result string :=
  need raw := base64_Decode (Key_Public k) else "key %q is not valid base64";
  refuse (negb (String.length raw =? PublicKeySize)%nat) "key %q is not a valid ed25519 public key";
  Ok raw.

(** One turn of the loop of [Validate]: the ids seen and the count of active keys. *)
Definition validate_key (s : gset string * Z) (k : ControllerKey) : result (gset string * Z) :=
  refuse (bool_decide (Key_ID k = "")) "keyset holds a key with no id";
  refuse (bool_decide (Key_ID k ∈ s.1)) "keyset holds duplicate key id %q";
  let* active := match Key_State k with
                 | KeyActive => Ok (s.2 + 1)
                 | KeyAccepted | KeyRetired => Ok s.2
                 | KeyState_other _ => Err (Errorf "key %q has unknown state %q")
                 end in
  let* _ := Key_Decode k in
  Ok ({[ Key_ID k ]} ∪ s.1, active).

Definition KeySet_Validate (s : KeySet) : result unit :=
  refuse (negb (Set_Version s =? KeySetVersion)) "unsupported keyset version %d";
  refuse (len (Set_Keys s) =? 0) "keyset holds no keys";
  let* counted := for_each validate_key (∅, 0) (Set_Keys s) in
  refuse (negb (counted.2 =? 1)) "keyset must hold exactly one active key, found %d";
  Ok tt.

Definition active_key (keyID public : string) (now : time) : ControllerKey :=
  mkControllerKey keyID (base64_Encode public) KeyActive now 0 0.

Definition NewKeySet (keyID public : string) (now : time) : result KeySet :=
  refuse (bool_decide (keyID = "")) "controller key requires an id";
  refuse (negb (String.length public =? PublicKeySize)%nat) "controller key %q is not a valid ed25519 public key";
  Ok (mkKeySet KeySetVersion [active_key keyID public now]).

Definition is_active (k : ControllerKey) : bool := bool_decide (Key_State k = KeyActive).

Definition KeySet_Active (s : KeySet) : result ControllerKey :=
  need k := List.find is_active (Set_Keys s) else "keyset holds no active key";
  Ok k.

Definition trust_key (m : gmap string string) (k : ControllerKey) : result (gmap string string) :=
  if bool_decide (Key_State k = KeyRetired) then Ok m
  else let* public := Key_Decode k in Ok (<[Key_ID k := public]> m).

Definition TrustMap (s : KeySet) : result (gmap string string) :=
  let* keys := for_each trust_key ∅ (Set_Keys s) in
  refuse (bool_decide (keys = ∅)) "keyset trusts no keys";
  Ok keys.

Definition demote (now : time) (k : ControllerKey) : ControllerKey :=
  if bool_decide (Key_State k = KeyActive)
  then k <| Key_State := KeyAccepted |> <| Key_RotatedAt := now |> else k.

Definition Rotate (s : KeySet) (keyID public : string) (now : time) : result KeySet :=
  let* _ := KeySet_Validate s in
  refuse (bool_decide (keyID = "")) "controller key requires an id";
  refuse (negb (String.length public =? PublicKeySize)%nat) "controller key %q is not a valid ed25519 public key";
  refuse (existsb (λ k, bool_decide (Key_ID k = keyID)) (Set_Keys s)) "key id %q is already in the keyset";
  let rotated := mkKeySet KeySetVersion ((demote now <$> Set_Keys s) ++ [active_key keyID public now]) in
  let* _ := KeySet_Validate rotated in
  Ok rotated.

(** One turn of the loop of [Retire]: whether the key was found, and the keys so far. *)
Definition retire_key (keyID : string) (now : time) (s : bool * list ControllerKey) (k : ControllerKey)
    : result (bool * list ControllerKey) :=
  if bool_decide (Key_ID k = keyID)
  then refuse (bool_decide (Key_State k = KeyActive))
         "refusing to retire the active key %q: rotate to a new key first";
       Ok (true, s.2 ++ [if bool_decide (Key_State k ≠ KeyRetired)
                         then k <| Key_State := KeyRetired |> <| Key_RetiredAt := now |> else k])
  else Ok (s.1, s.2 ++ [k]).

Definition Retire (s : KeySet) (keyID : string) (now : time) : result KeySet :=
  let* _ := KeySet_Validate s in
  let* scanned := for_each (retire_key keyID now) (false, []) (Set_Keys s) in
  refuse (negb scanned.1) "key %q is not in the keyset";
  let retired := mkKeySet KeySetVersion scanned.2 in
  let* _ := KeySet_Validate retired in
  Ok retired.

(** The display order: by state, newest first within a state.  An unknown state ranks
    as the zero value of the map does. *)
Definition state_rank (st : KeyState) : Z :=
  match st with KeyActive => 0 | KeyAccepted => 1 | KeyRetired => 2 | KeyState_other _ => 0 end.
Definition displayed_before (k l : ControllerKey) : Prop :=
  state_rank (Key_State k) < state_rank (Key_State l) ∨
  state_rank (Key_State k) = state_rank (Key_State l) ∧ Key_CreatedAt l <= Key_CreatedAt k.
#[export] Instance displayed_before_dec : RelDecision displayed_before.
Proof. intros k l. unfold displayed_before. apply _. Defined.
Definition Sorted (s : KeySet) : list ControllerKey := merge_sort displayed_before (Set_Keys s).

Definition DecodeKeySet {decoder : KeySetDecoder} (raw : string) : result KeySet :=
  match decode_keyset raw with
  | Malformed => Err (Errorf "decode keyset: %w")
  | Trailing _ => Err (Errorf "keyset has trailing content")
  | Decoded set => let* _ := KeySet_Validate set in Ok set
  end.
End Operations.

(** ** What a valid set is *)

Section Facts.
Context {att : Attest} {signer : Signer}.
Implicit Types (s t : KeySet) (k : ControllerKey) (ks : list ControllerKey).

Definition known_state (st : KeyState) : Prop := match st with KeyState_other _ => False | _ => True end.
#[local] Instance known_state_dec st : Decision (known_state st).
Proof. destruct st; apply _. Defined.

Record valid_keys ks : Prop := {
  vk_ids : NoDup (Key_ID <$> ks);
  vk_each : ∀ k, k ∈ ks → Key_ID k ≠ "" ∧ known_state (Key_State k) ∧ is_Ok (Key_Decode k);
}.

Lemma validate_keys seen n ks seen' n' :
  for_each validate_key (seen, n) ks = Ok (seen', n') ↔
  valid_keys ks ∧ (∀ k, k ∈ ks → Key_ID k ∉ seen) ∧ seen' = list_to_set (Key_ID <$> ks) ∪ seen ∧
  n' = n + len (filter is_active ks).
Proof.
  revert seen n. induction ks as [|k ks IH]; intros seen n; cbn [for_each].
  { split.
    - intros [= <- <-]. split_and!; [|set_solver|set_solver|rewrite filter_nil; unfold len; cbn [length]; lia].
      split; [constructor|set_solver].
    - intros (_ & _ & -> & ->). rewrite filter_nil. unfold len. cbn [length]. rewrite Z.add_0_r. do 2 f_equal. set_solver. }
  unfold validate_key at 1. cbn [fst snd].
  assert (len (filter is_active (k :: ks)) = (if is_active k then 1 else 0) + len (filter is_active ks)) as Hlen.
  { rewrite filter_cons. unfold len. case_decide as Ha; [rewrite (Is_true_true_1 _ Ha)|rewrite (Is_true_false_1 _ Ha)];
      cbn [length]; lia. }
  rewrite Hlen. clear Hlen.
  case_bool_decide as Hid; [split; [done|intros ([_ H] & _); by destruct (H k (list_elem_of_here _ _))]|].
  case_bool_decide as Hin; [split; [done|intros (_ & H & _); by destruct (H k (list_elem_of_here _ _))]|].
  destruct (Key_Decode k) as [raw|] eqn:Hd.
  2: { split; [by destruct (Key_State k)|]. intros ([_ H] & _).
       destruct (H k (list_elem_of_here _ _)) as (_ & _ & H'). by rewrite Hd in H'. }
  destruct (decide (known_state (Key_State k))) as [Hst|Hst].
  2: { destruct (Key_State k) eqn:E; [destruct Hst; exact I..|]. split; [done|]. intros ([_ H] & _).
       destruct (H k (list_elem_of_here _ _)) as (_ & H' & _). by rewrite E in H'. }
  transitivity (for_each validate_key ({[Key_ID k]} ∪ seen, n + (if is_active k then 1 else 0)) ks = Ok (seen', n')).
  { unfold is_active. destruct (Key_State k); cbn [rbind]; try done; rewrite ?Z.add_0_r; done. }
  rewrite IH. clear IH. split.
  - intros ([Hnd He] & Hs & -> & ->). split_and!; [|set_solver|set_solver|lia]. split.
    + rewrite fmap_cons. constructor; [|done]. rewrite list_elem_of_fmap. intros (k' & Heq & Hk'). set_solver.
    + intros k' [->|Hk']%elem_of_cons; [by rewrite Hd|by apply He].
  - intros ([Hnd He] & Hs & -> & ->). rewrite fmap_cons in Hnd. apply NoDup_cons in Hnd as [Hn Hnd].
    split_and!; [|set_solver|set_solver|lia]. split; [done|]. intros k' Hk'. apply He. by right.
Qed.

Lemma KeySet_Validate_spec s :
  KeySet_Validate s = Ok tt ↔
  Set_Version s = KeySetVersion ∧ valid_keys (Set_Keys s) ∧ len (filter is_active (Set_Keys s)) = 1.
Proof.
  unfold KeySet_Validate. destruct (Set_Version s =? KeySetVersion) eqn:Hv; cbn [negb].
  2: { apply Z.eqb_neq in Hv. split; [done|]. by intros (H & _). }
  destruct (len (Set_Keys s) =? 0) eqn:Hn.
  { split; [done|]. intros (_ & _ & H). destruct (Set_Keys s); [done|]. unfold len in Hn. apply Z.eqb_eq in Hn.
    cbn [length] in Hn. lia. }
  destruct (for_each validate_key (∅, 0) (Set_Keys s)) as [[seen n]|] eqn:Hf; cbn [rbind].
  - apply validate_keys in Hf as (Hk & _ & _ & ->). cbn [snd]. rewrite Z.add_0_l.
    destruct (len (filter is_active (Set_Keys s)) =? 1) eqn:E; cbn [negb].
    + apply Z.eqb_eq in E, Hv. done.
    + apply Z.eqb_neq in E. split; [done|]. by intros (_ & _ & H).
  - split; [done|]. intros (_ & Hk & H1).
    assert (for_each validate_key (∅, 0) (Set_Keys s) = Ok (list_to_set (Key_ID <$> Set_Keys s) ∪ ∅, 0 + 1)) as Hc.
    { apply validate_keys. split_and!; [done|set_solver|done|by rewrite H1]. }
    rewrite Hc in Hf. done.
Qed.

(** ** What is trusted *)

Lemma trust_keys m ks :
  (∀ k, k ∈ ks → is_Ok (Key_Decode k)) → NoDup (Key_ID <$> ks) →
  ∃ m', for_each trust_key m ks = Ok m' ∧
    ∀ id public, m' !! id = Some public ↔
      (∃ k, k ∈ ks ∧ Key_ID k = id ∧ Key_State k ≠ KeyRetired ∧ Key_Decode k = Ok public) ∨
      (m !! id = Some public ∧ ∀ k, k ∈ ks → Key_ID k = id → Key_State k = KeyRetired).
Proof.
  revert m. induction ks as [|k ks IH]; intros m Hd Hnd; cbn [for_each].
  { exists m. split; [done|]. intros id public. split; [intros H; right; split; [done|set_solver]|].
    intros [(k & Hk & _)|[H _]]; [set_solver|done]. }
  rewrite fmap_cons in Hnd. apply NoDup_cons in Hnd as [Hfresh Hnd].
  assert (∀ k', k' ∈ ks → Key_ID k' ≠ Key_ID k) as Hother.
  { intros k' Hk' Heq. apply Hfresh. rewrite <-Heq. by apply list_elem_of_fmap_2. }
  assert (∀ k', k' ∈ ks → is_Ok (Key_Decode k')) as Hd' by (intros k' Hk'; apply Hd; by right).
  specialize (Hd k (list_elem_of_here _ _)). destruct (Key_Decode k) as [raw|] eqn:Hraw; [|done].
  unfold trust_key at 1. case_bool_decide as Hst.
  - destruct (IH m Hd' Hnd) as (m' & Hm' & Hl). cbn [rbind]. exists m'. split; [done|]. intros id public. rewrite Hl.
    setoid_rewrite elem_of_cons. split.
    + intros [(k' & Hk' & H)|[Hm Hr]]; [left; exists k'; naive_solver|right]. split; [done|]. naive_solver.
    + intros [(k' & [->|Hk'] & H)|[Hm Hr]]; [naive_solver|left; by exists k'|right; split; [done|naive_solver]].
  - rewrite Hraw. cbn [rbind]. destruct (IH (<[Key_ID k := raw]> m) Hd' Hnd) as (m' & Hm' & Hl).
    exists m'. split; [done|]. intros id public. rewrite Hl. setoid_rewrite elem_of_cons.
    destruct (decide (id = Key_ID k)) as [->|Hne].
    + rewrite lookup_insert_eq. split.
      * intros [(k' & Hk' & H & _)|[[= <-] _]]; [by destruct (Hother k')|left]. exists k. naive_solver.
      * intros [(k' & [->|Hk'] & H1 & H2 & H3)|[_ Hr]].
        -- right. split; [congruence|]. intros k' Hk' Heq. by destruct (Hother k').
        -- by destruct (Hother k').
        -- by destruct (Hst (Hr k (or_introl eq_refl) eq_refl)).
    + rewrite lookup_insert_ne by done. split.
      * intros [(k' & Hk' & H)|[Hm Hr]]; [left; exists k'; naive_solver|right; split; [done|naive_solver]].
      * intros [(k' & [->|Hk'] & H1 & H)|[Hm Hr]]; [done|left; by exists k'|right; split; [done|naive_solver]].
Qed.

(** A valid set is trusted exactly as it says: by id, every key that is not retired. *)
Definition trusts s (m : gmap string string) : Prop :=
  ∀ id public, m !! id = Some public ↔
    ∃ k, k ∈ Set_Keys s ∧ Key_ID k = id ∧ Key_State k ≠ KeyRetired ∧ Key_Decode k = Ok public.

Lemma trusts_unique s m m' : trusts s m → trusts s m' → m = m'.
Proof. intros H H'. apply map_eq. intros id. apply option_eq. intros public. by rewrite (H id), (H' id). Qed.

Lemma active_exists ks : len (filter is_active ks) = 1 → ∃ k, filter is_active ks = [k].
Proof. unfold len. destruct (filter is_active ks) as [|k [|]]; cbn; [done|by exists k|lia]. Qed.

Lemma TrustMap_spec s : KeySet_Validate s = Ok tt → ∃ m, TrustMap s = Ok m ∧ trusts s m.
Proof.
  intros (_ & [Hnd He] & Hone)%KeySet_Validate_spec.
  destruct (trust_keys ∅ (Set_Keys s)) as (m & Hm & Hl); [by intros k Hk; apply He|done|].
  assert (trusts s m) as Ht.
  { intros id public. rewrite Hl, lookup_empty. naive_solver. }
  exists m. split; [|done]. unfold TrustMap. rewrite Hm. cbn [rbind].
  destruct (active_exists _ Hone) as [k Hk].
  assert (k ∈ filter is_active (Set_Keys s)) as [Ha Hin]%list_elem_of_filter by (rewrite Hk; by left).
  destruct (He k Hin) as (_ & _ & Hd). destruct (Key_Decode k) as [raw|] eqn:Hraw; [|done].
  assert (m !! Key_ID k = Some raw) as Hlk.
  { apply Ht. exists k. split_and!; try done. apply Is_true_true, bool_decide_eq_true in Ha. by rewrite Ha. }
  rewrite bool_decide_false; [done|]. intros ->. by rewrite lookup_empty in Hlk.
Qed.

Lemma TrustMap_trusts s m : KeySet_Validate s = Ok tt → TrustMap s = Ok m ↔ trusts s m.
Proof.
  intros H. destruct (TrustMap_spec s H) as (m' & Hm' & Ht). rewrite Hm'. split; [by intros [= ->]|].
  intros Hm. f_equal. by eapply trusts_unique.
Qed.

(** ** Rotation and retirement *)

(** An update of a key that keeps its identity and moves its state forward. *)
Record advances k k' : Prop := {
  adv_id : Key_ID k' = Key_ID k;
  adv_public : Key_Public k' = Key_Public k;
  adv_known : known_state (Key_State k) → known_state (Key_State k');
  adv_rank : known_state (Key_State k) → state_rank (Key_State k) <= state_rank (Key_State k');
}.

Lemma advances_refl k : advances k k.
Proof. by split. Qed.
Lemma advances_trans k1 k2 k3 : advances k1 k2 → advances k2 k3 → advances k1 k3.
Proof. intros [] []. split; try congruence; [auto|]. intros H. etrans; [by apply adv_rank0|by apply adv_rank1; auto]. Qed.

Lemma advances_decode k k' : advances k k' → Key_Decode k' = Key_Decode k.
Proof. intros [_ Hp _ _]. unfold Key_Decode. by rewrite Hp. Qed.

Lemma advances_valid (f : ControllerKey → ControllerKey) ks :
  (∀ k, k ∈ ks → advances k (f k)) → valid_keys ks → valid_keys (f <$> ks).
Proof.
  intros Hf [Hnd He]. split.
  - replace (Key_ID <$> (f <$> ks)) with (Key_ID <$> ks); [done|]. rewrite <-list_fmap_compose.
    apply list_fmap_ext. intros i k Hk. cbn. by rewrite (adv_id _ _ (Hf k (list_elem_of_lookup_2 _ _ _ Hk))).
  - intros k' (k & -> & Hk)%list_elem_of_fmap. destruct (He k Hk) as (Hid & Hst & Hd).
    rewrite (advances_decode _ _ (Hf k Hk)). destruct (Hf k Hk). rewrite adv_id0. auto.
Qed.

Lemma demote_advances now k : advances k (demote now k).
Proof. unfold demote. case_bool_decide as H; [|apply advances_refl]. split; cbn; rewrite ?H; done. Qed.
Lemma demote_inactive now k : is_active (demote now k) = false.
Proof. unfold demote. case_bool_decide as H; unfold is_active; by apply bool_decide_eq_false. Qed.

Lemma filter_none {A} (f : A → bool) (l : list A) : (∀ x, x ∈ l → f x = false) → filter f l = [].
Proof.
  intros H. induction l as [|x l IH]; [done|]. rewrite filter_cons_False.
  - apply IH. intros y Hy. apply H. by right.
  - rewrite (H x) by left. auto.
Qed.

Lemma Rotate_spec {laws : SignerLaws att signer} s id public now t :
  Rotate s id public now = Ok t ↔
  KeySet_Validate s = Ok tt ∧ id ≠ "" ∧ String.length public = PublicKeySize ∧ (id ∉ (Key_ID <$> Set_Keys s)) ∧
  t = mkKeySet KeySetVersion ((demote now <$> Set_Keys s) ++ [active_key id public now]).
Proof.
  unfold Rotate. destruct (KeySet_Validate s) as [[]|] eqn:Hv; cbn [rbind]; [|split; [done|by intros (? & _)]].
  case_bool_decide as Hid; [split; [done|by intros (_ & ? & _)]|].
  destruct (String.length public =? PublicKeySize)%nat eqn:Hlen; cbn [negb].
  2: { apply Nat.eqb_neq in Hlen. split; [done|by intros (_ & _ & ? & _)]. }
  apply Nat.eqb_eq in Hlen.
  destruct (existsb _ (Set_Keys s)) eqn:Hex.
  { apply existsb_exists in Hex as (k & Hk & Heq). bool_simpl. split; [done|]. intros (_ & _ & _ & Hn & _).
    destruct Hn. rewrite <-Heq. apply list_elem_of_fmap_2, list_elem_of_In, Hk. }
  assert (id ∉ (Key_ID <$> Set_Keys s)) as Hfresh.
  { rewrite list_elem_of_fmap. intros (k & -> & Hk). apply not_true_iff_false in Hex. apply Hex, existsb_exists.
    exists k. split; [by apply list_elem_of_In|by apply bool_decide_eq_true]. }
  apply KeySet_Validate_spec in Hv as (_ & Hk & _).
  set (rotated := mkKeySet _ _).
  assert (KeySet_Validate rotated = Ok tt) as Hr.
  { apply KeySet_Validate_spec. split; [done|]. cbn [Set_Keys rotated]. split.
    - assert (valid_keys (demote now <$> Set_Keys s)) as [Hnd He]
        by (apply advances_valid; [intros k _; apply demote_advances|done]).
      split.
      + rewrite fmap_app. apply NoDup_app. split; [done|]. split; [|apply NoDup_singleton].
        intros x Hx. cbn. rewrite list_elem_of_singleton. intros ->. apply Hfresh.
        rewrite <-list_fmap_compose in Hx. apply list_elem_of_fmap in Hx as (k & -> & Hk').
        cbn. rewrite (adv_id _ _ (demote_advances now k)). by apply list_elem_of_fmap_2.
      + intros k [Hk'|Hk']%elem_of_app; [by apply He|]. apply list_elem_of_singleton in Hk' as ->.
        cbn. split_and!; [done|done|]. unfold Key_Decode. cbn. by rewrite decode_encode, Hlen.
    - rewrite filter_app, filter_none; [done|]. intros x (k & -> & _)%list_elem_of_fmap. apply demote_inactive. }
  rewrite Hr. cbn [rbind]. split; [intros [= <-]; done|]. by intros (_ & _ & _ & _ & ->).
Qed.

Definition retired_as (id : string) (now : time) (k : ControllerKey) : ControllerKey :=
  if bool_decide (Key_ID k = id) && bool_decide (Key_State k ≠ KeyRetired)
  then k <| Key_State := KeyRetired |> <| Key_RetiredAt := now |> else k.

Lemma retired_advances id now k : advances k (retired_as id now k).
Proof.
  unfold retired_as. destruct (_ && _); [|apply advances_refl]. split; try done. cbn.
  intros _. destruct (Key_State k); cbn; lia.
Qed.
Lemma retired_state id now k :
  Key_State (retired_as id now k) = if bool_decide (Key_ID k = id) then KeyRetired else Key_State k.
Proof.
  unfold retired_as. case_bool_decide; cbn [andb]; [|done].
  case_bool_decide as H1; [done|]. destruct (decide (Key_State k = KeyRetired)); [done|by destruct H1].
Qed.

Lemma retire_key_step id now st k r :
  retire_key id now st k = Ok r ↔
  (Key_ID k = id → Key_State k ≠ KeyActive) ∧
  r = (st.1 || bool_decide (Key_ID k = id), st.2 ++ [retired_as id now k]).
Proof.
  unfold retire_key, retired_as. destruct (decide (Key_ID k = id)) as [Hid|Hid].
  - rewrite !(bool_decide_true (Key_ID k = id)), orb_true_r by done. cbn [andb].
    destruct (decide (Key_State k = KeyActive)) as [Ha|Ha].
    + rewrite bool_decide_true by done. naive_solver.
    + rewrite (bool_decide_false (Key_State k = KeyActive)) by done. naive_solver.
  - rewrite !(bool_decide_false (Key_ID k = id)), orb_false_r by done. naive_solver.
Qed.

Lemma retire_keys id now st ks r :
  for_each (retire_key id now) st ks = Ok r ↔
  (∀ k, k ∈ ks → Key_ID k = id → Key_State k ≠ KeyActive) ∧
  r = (st.1 || bool_decide (id ∈ (Key_ID <$> ks)), st.2 ++ (retired_as id now <$> ks)).
Proof.
  revert st. induction ks as [|k ks IH]; intros st; cbn [for_each].
  { rewrite bool_decide_false, orb_false_r, fmap_nil, app_nil_r by set_solver. destruct st.
    split; [intros [= <-]; split; [set_solver|done]|by intros [_ ->]]. }
  assert (bool_decide (id ∈ (Key_ID <$> k :: ks)) = bool_decide (Key_ID k = id) || bool_decide (id ∈ (Key_ID <$> ks))) as ->.
  { rewrite fmap_cons, <-bool_decide_or. apply bool_decide_ext. rewrite elem_of_cons. naive_solver. }
  rewrite fmap_cons. change (retired_as id now k :: ?l) with ([retired_as id now k] ++ l).
  rewrite (assoc_L (++)), orb_assoc. setoid_rewrite elem_of_cons.
  destruct (retire_key id now st k) as [st'|] eqn:Hk; cbn [rbind].
  - apply retire_key_step in Hk as [Ha ->]. rewrite IH. cbn [fst snd]. naive_solver.
  - split; [done|]. intros [Ha _].
    assert (retire_key id now st k = Ok (st.1 || bool_decide (Key_ID k = id), st.2 ++ [retired_as id now k])) as Hc
      by (apply retire_key_step; split; [apply Ha; by left|done]).
    congruence.
Qed.

Lemma key_unique ks k k' : valid_keys ks → k ∈ ks → k' ∈ ks → Key_ID k = Key_ID k' → k = k'.
Proof.
  intros [Hnd _] [i Hi]%list_elem_of_lookup [j Hj]%list_elem_of_lookup Heq.
  assert (i = j) as <-; [|congruence].
  eapply (NoDup_lookup (Key_ID <$> ks)); [done|by rewrite list_lookup_fmap, Hi|].
  rewrite list_lookup_fmap, Hj. cbn. congruence.
Qed.

Lemma Retire_spec s id now t :
  Retire s id now = Ok t ↔
  KeySet_Validate s = Ok tt ∧ (∃ k, k ∈ Set_Keys s ∧ Key_ID k = id ∧ Key_State k ≠ KeyActive) ∧
  t = mkKeySet KeySetVersion (retired_as id now <$> Set_Keys s).
Proof.
  unfold Retire. destruct (KeySet_Validate s) as [[]|] eqn:Hv; cbn [rbind]; [|split; [done|by intros (? & _)]].
  pose proof Hv as (_ & Hk & Hone)%KeySet_Validate_spec.
  destruct (for_each _ _ _) as [r|e] eqn:Hf; cbn [rbind].
  - apply retire_keys in Hf as [Hna ->]. cbn [fst snd orb app]. case_bool_decide as Hin; cbn [negb].
    2: { split; [done|]. intros (_ & (k & Hk' & <- & _) & _). destruct Hin. by apply list_elem_of_fmap_2. }
    assert (∃ k, k ∈ Set_Keys s ∧ Key_ID k = id ∧ Key_State k ≠ KeyActive) as Hex.
    { apply list_elem_of_fmap in Hin as (k & -> & Hk'). exists k. auto. }
    set (retired := mkKeySet _ _).
    assert (KeySet_Validate retired = Ok tt) as ->.
    { apply KeySet_Validate_spec. split; [done|]. cbn [Set_Keys retired].
      split; [apply advances_valid; [intros k _; apply retired_advances|done]|].
      rewrite <-Hone. unfold len. f_equal. clear -Hna.
      induction (Set_Keys s) as [|k ks IH]; [done|]. rewrite fmap_cons, !filter_cons.
      assert (is_active (retired_as id now k) = is_active k) as ->.
      { unfold is_active. rewrite retired_state. destruct (decide (Key_ID k = id)) as [Hid|Hid]; [|by rewrite (bool_decide_false (Key_ID k = id))].
        rewrite (bool_decide_true (Key_ID k = id)) by done. rewrite (bool_decide_false (Key_State k = _)) by (by apply Hna; [left|]). done. }
      case_decide; cbn [length]; [f_equal|]; (apply IH; intros k' Hk'; apply Hna; by right). }
    cbn [rbind]. split; [intros [= <-]; done|]. by intros (_ & _ & ->).
  - split; [done|]. intros (_ & (k & Hk' & Hid & Hna) & _).
    assert (for_each (retire_key id now) (false, []) (Set_Keys s)
            = Ok (false || bool_decide (id ∈ (Key_ID <$> Set_Keys s)), [] ++ (retired_as id now <$> Set_Keys s))) as Hc.
    { apply retire_keys. split; [|done]. intros k' Hin Heq. by rewrite (key_unique _ k' k Hk Hin Hk' ltac:(congruence)). }
    by rewrite Hc in Hf.
Qed.

Lemma find_filter {A} (f : A → bool) (l : list A) x : filter f l = [x] → List.find f l = Some x.
Proof.
  induction l as [|y l IH]; [done|]. rewrite filter_cons. cbn [List.find]. case_decide as H.
  - rewrite (Is_true_true_1 _ H). by intros [= -> _].
  - rewrite (Is_true_false_1 _ H). apply IH.
Qed.

Lemma KeySet_Active_spec s :
  KeySet_Validate s = Ok tt →
  ∃ k, KeySet_Active s = Ok k ∧ ∀ k', k' ∈ Set_Keys s ∧ Key_State k' = KeyActive ↔ k' = k.
Proof.
  intros (_ & _ & Hone)%KeySet_Validate_spec. destruct (active_exists _ Hone) as [k Hk]. exists k. split.
  - unfold KeySet_Active. by rewrite (find_filter _ _ _ Hk).
  - intros k'. transitivity (k' ∈ filter is_active (Set_Keys s)); [|by rewrite Hk, list_elem_of_singleton].
    rewrite list_elem_of_filter. unfold is_active. rewrite bool_decide_spec. naive_solver.
Qed.

Lemma Rotate_trust {laws : SignerLaws att signer} s id public now t m :
  Rotate s id public now = Ok t → TrustMap s = Ok m →
  KeySet_Validate t = Ok tt ∧ TrustMap t = Ok (<[id := public]> m) ∧ KeySet_Active t = Ok (active_key id public now).
Proof.
  intros Hr Hm. pose proof Hr as (Hs & Hid & Hlen & Hfresh & Ht)%Rotate_spec.
  assert (KeySet_Validate t = Ok tt) as Hv.
  { unfold Rotate in Hr. clear -Hr. inv_ok Hr. subst t. match goal with H : KeySet_Validate (mkKeySet _ _) = Ok ?u |- _ => by destruct u end. }
  apply (TrustMap_trusts s m Hs) in Hm. subst t.
  assert (Key_Decode (active_key id public now) = Ok public) as Hpub.
  { unfold Key_Decode. cbn. by rewrite decode_encode, Hlen. }
  split_and!; [done| |].
  - apply TrustMap_trusts; [done|]. intros id' p. cbn [Set_Keys]. setoid_rewrite elem_of_app.
    setoid_rewrite list_elem_of_singleton. setoid_rewrite list_elem_of_fmap.
    destruct (decide (id' = id)) as [->|Hne].
    + rewrite lookup_insert_eq. split; [intros [= <-]; exists (active_key id public now); naive_solver|].
      intros (k & [(k0 & -> & Hk0)| ->] & H1 & H2 & H3); [|congruence].
      destruct Hfresh. rewrite <-H1, (adv_id _ _ (demote_advances now k0)). by apply list_elem_of_fmap_2.
    + rewrite lookup_insert_ne, (Hm id' p) by done. split.
      * intros (k & Hk & <- & Hst & Hd). exists (demote now k). pose proof (demote_advances now k) as Ha.
        rewrite (adv_id _ _ Ha), (advances_decode _ _ Ha). split_and!; try done; [left; by exists k|].
        unfold demote. by case_bool_decide.
      * intros (k & [(k0 & -> & Hk0)| ->] & H1 & H2 & H3); [|done]. exists k0.
        pose proof (demote_advances now k0) as Ha. rewrite (adv_id _ _ Ha) in H1. rewrite (advances_decode _ _ Ha) in H3.
        split_and!; try done. revert H2. unfold demote. by case_bool_decide as E; [rewrite E|].
  - destruct (KeySet_Active_spec _ Hv) as (k & -> & Hk). f_equal. symmetry. apply Hk. cbn [Set_Keys].
    split; [apply elem_of_app; right; by left|done].
Qed.

Lemma Retire_trust s id now t m :
  Retire s id now = Ok t → TrustMap s = Ok m →
  KeySet_Validate t = Ok tt ∧ TrustMap t = Ok (delete id m) ∧ KeySet_Active t = KeySet_Active s.
Proof.
  intros Hr Hm. pose proof Hr as (Hs & (k0 & Hk0 & <- & Hna) & Ht)%Retire_spec.
  assert (KeySet_Validate t = Ok tt) as Hv.
  { unfold Retire in Hr. clear -Hr. inv_ok Hr. subst t. match goal with H : KeySet_Validate (mkKeySet _ _) = Ok ?u |- _ => by destruct u end. }
  apply (TrustMap_trusts s m Hs) in Hm. subst t. split_and!; [done| |].
  - apply TrustMap_trusts; [done|]. intros id' p. cbn [Set_Keys]. rewrite lookup_delete_Some, (Hm id' p).
    setoid_rewrite list_elem_of_fmap. split.
    + intros (Hne & k & Hk & <- & Hst & Hd). exists (retired_as (Key_ID k0) now k).
      pose proof (retired_advances (Key_ID k0) now k) as Ha.
      rewrite (adv_id _ _ Ha), (advances_decode _ _ Ha), retired_state, bool_decide_false by done. naive_solver.
    + intros (k & (k1 & -> & Hk1) & H1 & H2 & H3). pose proof (retired_advances (Key_ID k0) now k1) as Ha.
      rewrite (adv_id _ _ Ha) in H1. rewrite (advances_decode _ _ Ha) in H3. rewrite retired_state in H2.
      case_bool_decide as Hid; [done|]. split; [congruence|]. by exists k1.
  - destruct (KeySet_Active_spec _ Hs) as (k & -> & Hk), (KeySet_Active_spec _ Hv) as (k' & -> & Hk').
    f_equal. symmetry. apply Hk'. cbn [Set_Keys].
    destruct (proj2 (Hk k) eq_refl) as [Hin Ha]. split; [|done].
    assert (retired_as (Key_ID k0) now k = k) as <-; [|by apply list_elem_of_fmap_2].
    unfold retired_as. rewrite bool_decide_false; [done|]. intros Heq. apply Hna.
    destruct (KeySet_Validate_spec s) as [Hspec _]. destruct (Hspec Hs) as (_ & Hvk & _).
    by rewrite <-(key_unique _ k k0 Hvk Hin Hk0 Heq).
Qed.

(** The lives of a key set under an operator's hands. *)
Inductive key_step : KeySet → KeySet → Prop :=
  | step_rotate s id public now t : Rotate s id public now = Ok t → key_step s t
  | step_retire s id now t : Retire s id now = Ok t → key_step s t.

Section Lifecycle.
Context {laws : SignerLaws att signer}.

Lemma key_step_advances s t :
  key_step s t → KeySet_Validate s = Ok tt ∧ KeySet_Validate t = Ok tt ∧
  ∀ k, k ∈ Set_Keys s → ∃ k', k' ∈ Set_Keys t ∧ advances k k'.
Proof.
  intros [s1 id public now t1 H|s1 id now t1 H].
  - pose proof H as (Hs & _ & _ & _ & Ht)%Rotate_spec. destruct (TrustMap_spec _ Hs) as (m & Hm & _).
    destruct (Rotate_trust _ _ _ _ _ _ H Hm) as (Hv & _). split_and!; [done|done|]. intros k Hk.
    exists (demote now k). rewrite Ht. cbn [Set_Keys].
    split; [apply elem_of_app; left; by apply list_elem_of_fmap_2|apply demote_advances].
  - pose proof H as (Hs & _ & Ht)%Retire_spec. destruct (TrustMap_spec _ Hs) as (m & Hm & _).
    destruct (Retire_trust _ _ _ _ _ H Hm) as (Hv & _). split_and!; [done|done|]. intros k Hk.
    exists (retired_as id now k). rewrite Ht. cbn [Set_Keys].
    split; [by apply list_elem_of_fmap_2|apply retired_advances].
Qed.

Lemma key_history s t :
  KeySet_Validate s = Ok tt → rtc key_step s t →
  KeySet_Validate t = Ok tt ∧ ∀ k, k ∈ Set_Keys s → ∃ k', k' ∈ Set_Keys t ∧ advances k k'.
Proof.
  intros Hs H. induction H as [s|s s1 t Hst _ IH]; [split; [done|]; intros k Hk; exists k; auto using advances_refl|].
  destruct (key_step_advances _ _ Hst) as (_ & Hs1 & Hk1). destruct (IH Hs1) as [Ht Hk2]. split; [done|].
  intros k Hk. destruct (Hk1 k Hk) as (k1 & Hin1 & Ha1). destruct (Hk2 k1 Hin1) as (k2 & Hin2 & Ha2).
  exists k2. eauto using advances_trans.
Qed.

(** What rotation and retirement do to what the fleet trusts.  Rotating to a new key
    succeeds exactly for a fresh id and a well-formed key; it adds that key, makes it the
    one that signs, and leaves every trusted key trusted, so nothing in flight is refused.
    Retiring succeeds exactly for a recorded key that is not the signing one; it removes
    that key from the trusted ones and changes nothing else. *)
Theorem keyset_operations_exact s id public now m
    (Hs : KeySet_Validate s = Ok tt) (Hm : TrustMap s = Ok m) :
  (is_Ok (Rotate s id public now) ↔
     id ≠ "" ∧ String.length public = PublicKeySize ∧ ∀ k, k ∈ Set_Keys s → Key_ID k ≠ id) ∧
  (∀ t, Rotate s id public now = Ok t →
     KeySet_Validate t = Ok tt ∧ TrustMap t = Ok (<[id := public]> m) ∧
     KeySet_Active t = Ok (active_key id public now) ∧ m !! id = None) ∧
  (is_Ok (Retire s id now) ↔ ∃ k, k ∈ Set_Keys s ∧ Key_ID k = id ∧ Key_State k ≠ KeyActive) ∧
  (∀ t, Retire s id now = Ok t →
     KeySet_Validate t = Ok tt ∧ TrustMap t = Ok (delete id m) ∧ KeySet_Active t = KeySet_Active s).
Proof.
  split_and!.
  - split.
    + destruct (Rotate s id public now) as [t|] eqn:H; [intros _|done].
      apply Rotate_spec in H as (_ & Hid & Hlen & Hf & _). split_and!; [done|done|]. intros k Hk <-.
      apply Hf. by apply list_elem_of_fmap_2.
    + intros (Hid & Hlen & Hf).
      assert (Rotate s id public now = Ok (mkKeySet KeySetVersion ((demote now <$> Set_Keys s) ++ [active_key id public now]))) as ->;
        [|done].
      apply Rotate_spec. split_and!; try done. rewrite list_elem_of_fmap. intros (k & -> & Hk). by apply (Hf k).
  - intros t Ht. destruct (Rotate_trust _ _ _ _ _ _ Ht Hm) as (? & ? & ?). split_and!; try done.
    apply Rotate_spec in Ht as (_ & _ & _ & Hf & _). apply (TrustMap_trusts s m Hs) in Hm.
    destruct (m !! id) as [p|] eqn:E; [|done]. apply (Hm id p) in E as (k & Hk & <- & _).
    destruct Hf. by apply list_elem_of_fmap_2.
  - split.
    + destruct (Retire s id now) as [t|] eqn:H; [intros _|done]. by apply Retire_spec in H as (_ & Hk & _).
    + intros Hk. assert (Retire s id now = Ok (mkKeySet KeySetVersion (retired_as id now <$> Set_Keys s))) as ->; [|done].
      by apply Retire_spec.
  - intros t Ht. by apply (Retire_trust s id now).
Qed.

(** Whatever is rotated and retired afterwards, a valid key set stays valid, with
    exactly one signing key; every key it ever held stays on record under the same id
    with the same public key, its state only moving from active to accepted to retired;
    and a retired key is never trusted again, nor its id rebound. *)
Theorem keyset_history s t (Hs : KeySet_Validate s = Ok tt) (H : rtc key_step s t) :
  KeySet_Validate t = Ok tt ∧
  (∃ k, KeySet_Active t = Ok k ∧ ∀ k', k' ∈ Set_Keys t ∧ Key_State k' = KeyActive ↔ k' = k) ∧
  ∃ m, TrustMap t = Ok m ∧
  ∀ k, k ∈ Set_Keys s →
    (∃ k', k' ∈ Set_Keys t ∧ Key_ID k' = Key_ID k ∧ Key_Public k' = Key_Public k ∧
       state_rank (Key_State k) <= state_rank (Key_State k')) ∧
    (Key_State k = KeyRetired → m !! Key_ID k = None) ∧
    ∀ public, m !! Key_ID k = Some public → Key_Decode k = Ok public.
Proof.
  destruct (key_history s t Hs H) as [Ht Hk]. split; [done|]. split; [by apply KeySet_Active_spec|].
  destruct (TrustMap_spec t Ht) as (m & Hm & Htr). exists m. split; [done|]. intros k Hin.
  pose proof Hs as (_ & [_ He] & _)%KeySet_Validate_spec. destruct (He k Hin) as (_ & Hst & _).
  pose proof Ht as (_ & Hvk & _)%KeySet_Validate_spec.
  destruct (Hk k Hin) as (k' & Hin' & Ha). pose proof (adv_rank _ _ Ha Hst) as Hrank.
  assert (∀ public, m !! Key_ID k = Some public → Key_State k' ≠ KeyRetired ∧ Key_Decode k = Ok public) as Hl.
  { intros public (k2 & Hk2 & Hid & Hne & Hd)%(Htr (Key_ID k) public).
    rewrite (key_unique _ k2 k' Hvk Hk2 Hin') in * by (rewrite Hid, (adv_id _ _ Ha); done).
    split; [done|]. by rewrite <-(advances_decode _ _ Ha). }
  split_and!.
  - exists k'. destruct Ha. done.
  - intros Hr. rewrite Hr in Hrank. destruct (m !! Key_ID k) as [p|] eqn:E; [|done].
    destruct (Hl p eq_refl) as [Hne _]. pose proof (vk_each _ Hvk k' Hin') as (_ & Hst' & _).
    destruct (Key_State k'); cbn in *; try lia; done.
  - intros public Hp. by apply Hl.
Qed.
End Lifecycle.
End Facts.

(** ** A sample: rotate once, then retire the first key *)

Module KeySample.
Definition key_bytes (c : string) : string := String.concat "" (replicate 32 c).

#[local] Instance sample_attest : Attest :=
  {| base64_Decode s := Some s; ed25519_Verify public message signature := String.eqb signature (public +:+ message);
     decode_statement _ := Malformed |}.
#[local] Instance sample_signer : Signer :=
  {| base64_Encode s := s; ed25519_Sign key message := String.substring 0 32 key +:+ message;
     ed25519_Public key := String.substring 0 32 key; ed25519_NewKeyFromSeed seed := seed +:+ seed |}.

Lemma substring_length n s : (n <= String.length s)%nat → String.length (String.substring 0 n s) = n.
Proof. revert s. induction n as [|n IH]; intros [|c s] H; cbn in *; try lia. rewrite IH; lia. Qed.

Lemma sample_signer_laws : SignerLaws sample_attest sample_signer.
Proof.
  split; [done|intros key message _; apply String.eqb_refl|].
  intros key H. apply substring_length. rewrite H. unfold PrivateKeySize, PublicKeySize. lia.
Qed.

Definition first_set : KeySet := mkKeySet KeySetVersion [active_key "k1" (key_bytes "a") 10].
Definition second_set : KeySet :=
  mkKeySet KeySetVersion [mkControllerKey "k1" (key_bytes "a") KeyAccepted 10 20 0; active_key "k2" (key_bytes "b") 20].
Definition third_set : KeySet :=
  mkKeySet KeySetVersion [mkControllerKey "k1" (key_bytes "a") KeyRetired 10 20 30; active_key "k2" (key_bytes "b") 20].

Lemma keyset_operations_exact_witness :
  Rotate first_set "k2" (key_bytes "b") 20 = Ok second_set ∧
  TrustMap second_set = Ok (<["k2" := key_bytes "b"]> {["k1" := key_bytes "a"]}).
Proof.
  assert (Rotate first_set "k2" (key_bytes "b") 20 = Ok second_set) as H by (vm_compute; reflexivity). split; [exact H|].
  refine (proj1 (proj2 (proj1 (proj2 (@keyset_operations_exact sample_attest sample_signer sample_signer_laws
    first_set "k2" (key_bytes "b") 20 {["k1" := key_bytes "a"]} _ _)) second_set H))); vm_compute; reflexivity.
Defined.

Lemma keyset_history_witness : KeySet_Validate third_set = Ok tt.
Proof.
  refine (proj1 (@keyset_history sample_attest sample_signer sample_signer_laws first_set third_set _ _)).
  - vm_compute. reflexivity.
  - refine (rtc_l _ _ second_set _ (step_rotate _ "k2" (key_bytes "b") 20 _ _) (rtc_once _ _ (step_retire _ "k1" 30 _ _)));
      vm_compute; reflexivity.
Defined.
End KeySample.
