(* ===== verification/Approvals.v ===== *)
(** * Operator approvals and attested evidence (src/control/approval.go, attest.go)

    The two boundaries where a signature turns bytes into something the control plane
    believes: an operator's decision, and a node's observation.  Signatures and base64
    are the classes [Attest] and [Signer]; the JSON codec of each signed document is a
    class of its own. *)

From S2P Require Import Prelude Types Text Snapshots Calendar Policy Simulate Clone Disruption Projection History Replay Provenance Cron Validate Keys.
Open Scope Z_scope.

Definition MaxApprovalLifetime : duration := 24 * Hour.
Definition DefaultApprovalLifetime : duration := Hour.
Definition maxApprovalReason : nat := 512.

Record ApprovalGrant := mkApprovalGrant {
  Grant_ID : string; Grant_GoalID : string; Grant_Scope : string; Grant_IssuedBy : string; Grant_KeyID : string;
  Grant_IssuedAt : time; Grant_ExpiresAt : time; Grant_Revision : Z; Grant_Reason : string;
  Grant_Subject : string; Grant_Rollback : string }.
#[export] Instance eta_ApprovalGrant : Eta ApprovalGrant := λ r,
  mkApprovalGrant (Grant_ID r) (Grant_GoalID r) (Grant_Scope r) (Grant_IssuedBy r) (Grant_KeyID r)
    (Grant_IssuedAt r) (Grant_ExpiresAt r) (Grant_Revision r) (Grant_Reason r) (Grant_Subject r) (Grant_Rollback r).

#[export] Instance ApprovalGrant_eq_dec : EqDecision ApprovalGrant.
Proof. solve_decision. Defined.

Record SignedApproval := mkSignedApproval {
  Signed_GrantBytes : string; Signed_KeyID : string; Signed_Signature : string }.

Record AttestedEvidence := mkAttestedEvidence {
  Attested_EvidenceBytes : string; Attested_NodeID : string; Attested_EvidenceSignature : string }.

Definition ascii_grant (g : ApprovalGrant) : bool :=
  forallb ascii_text [Grant_ID g; Grant_GoalID g; Grant_Scope g; Grant_IssuedBy g; Grant_KeyID g; Grant_Reason g;
                      Grant_Subject g; Grant_Rollback g].

(** [json.Marshal], and strict decoding of the first value of a text. *)
Class GrantCodec := {
  encode_grant : ApprovalGrant → option string;
  decode_grant : string → decoded ApprovalGrant }.
Class GrantCodecLaws (codec : GrantCodec) : Prop :=
  decode_encode_grant : ∀ g bytes, ascii_grant g = true → encode_grant g = Some bytes → decode_grant bytes = Decoded g.
Class EvidenceCodec := {
  encode_evidence : Evidence → option string;
  decode_evidence : string → decoded Evidence }.

(** [t.UTC().Format(time.RFC3339)] *)
Definition pad (width : nat) (n : Z) : string :=
  let digits := Sprint n in String.concat "" (replicate (width - String.length digits) "0") +:+ digits.
Definition SecondOf (t : time) : Z := (t mod Minute) / Second.
Definition Format_RFC3339 (t : time) : string :=
  pad 4 (Year t) +:+ "-" +:+ pad 2 (Month t) +:+ "-" +:+ pad 2 (DayOfMonth t) +:+ "T" +:+
  pad 2 (HourOf t) +:+ ":" +:+ pad 2 (MinuteOf t) +:+ ":" +:+ pad 2 (SecondOf t) +:+ "Z".

Definition validateGrant (g : ApprovalGrant) : result unit :=
  refuse (negb (namePattern (Grant_ID g))) "approval id must be lowercase DNS-style text";
  refuse (negb (namePattern (Grant_GoalID g))) "approval must name a valid goal id";
  refuse (bool_decide (Grant_Scope g ∉ ApprovalScopes)) "approval scope %q is not one the kernel gates on";
  refuse (is_blank_text (Grant_IssuedBy g)) "approval must name the operator who issued it";
  refuse (bool_decide (Grant_KeyID g = "")) "approval must name the key that signed it";
  refuse (IsZero (Grant_IssuedAt g) || IsZero (Grant_ExpiresAt g)) "approval must record issuance and expiry";
  refuse (negb (After (Grant_ExpiresAt g) (Grant_IssuedAt g))) "approval expires before it was issued";
  refuse (MaxApprovalLifetime <? time_Sub (Grant_ExpiresAt g) (Grant_IssuedAt g))
    "approval lifetime exceeds the %s maximum";
  refuse ((maxApprovalReason <? String.length (Grant_Reason g))%nat) "approval reason is longer than %d characters";
  Ok tt.

Section Boundary.
Context {att : Attest} {signer : Signer} {grants : GrantCodec} {evidences : EvidenceCodec}.

Definition SignApproval (g : ApprovalGrant) (keyID key : string) : result SignedApproval :=
  refuse (bool_decide (keyID = "") || negb (String.length key =? PrivateKeySize)%nat)
    "approval requires a key id and an ed25519 private key";
  let g := g <| Grant_KeyID := keyID |> in
  let* _ := validateGrant g in
  need payload := encode_grant g else "encode approval: %w";
  Ok (mkSignedApproval payload keyID (base64_Encode (ed25519_Sign key payload))).

(** The grant is whatever the decoder reads first: content after it is not looked at. *)
Definition VerifyApproval (signed : SignedApproval) (keys : gmap string string) (now : time) : result ApprovalGrant :=
  refuse (bool_decide (keys = ∅)) "no operator keys are configured";
  need public := keys !! Signed_KeyID signed else "approval is not signed by a known operator key";
  refuse (negb (String.length public =? PublicKeySize)%nat) "approval is not signed by a known operator key";
  need signature := base64_Decode (Signed_Signature signed) else "approval signature is malformed";
  refuse (negb (ed25519_Verify public (Signed_GrantBytes signed) signature))
    "approval is not signed by a known operator key";
  match decode_grant (Signed_GrantBytes signed) with
  | Malformed => Err (Errorf "decode approval: %w")
  | Trailing g | Decoded g =>
      refuse (bool_decide (Grant_KeyID g ≠ Signed_KeyID signed)) "approval names key %q but was signed by %q";
      let* _ := validateGrant g in
      refuse (negb (After (Grant_ExpiresAt g) now)) "approval expired at %s";
      Ok g
  end.

(** [ApprovalGrant.Approval] *)
Definition Grant_Approval (g : ApprovalGrant) : Approval :=
  mkApproval (Grant_ID g) (Grant_GoalID g) (Grant_Scope g) (Grant_IssuedBy g) true (Grant_IssuedAt g)
    (Grant_ExpiresAt g) (Grant_Revision g) (Grant_Subject g) (Grant_Rollback g) (Grant_Reason g).

(** [ApprovalGrant.Evidence]: optional fields are recorded only when set. *)
Definition note (key value : string) (m : gmap string string) : gmap string string :=
  if bool_decide (value ≠ "") then <[key := value]> m else m.
Definition Grant_observed (g : ApprovalGrant) : gmap string string :=
  note "rollback" (Grant_Rollback g) (note "subject" (Grant_Subject g) (note "reason" (Grant_Reason g)
    ((if 0 <? Grant_Revision g then <["revision" := Sprint (Grant_Revision g)]> else id)
      (<["expires_at" := Format_RFC3339 (Grant_ExpiresAt g)]> (<["key_id" := Grant_KeyID g]>
        (<["issued_by" := Grant_IssuedBy g]> (<["scope" := Grant_Scope g]>
          {["goal" := Grant_GoalID g]}))))))).
Definition Grant_Evidence (g : ApprovalGrant) : Evidence :=
  mkEvidence EvidenceApprovalGranted (Grant_ID g) ("operator:" +:+ Grant_IssuedBy g) (Grant_IssuedAt g)
    (Grant_ExpiresAt g) (Grant_observed g).

(** ** Attested evidence *)

Definition SignEvidence (e : Evidence) (nodeID key : string) : result AttestedEvidence :=
  refuse (bool_decide (nodeID = "")) "evidence attestation requires a node id";
  refuse (negb (String.length key =? PrivateKeySize)%nat) "evidence attestation requires an ed25519 private key";
  refuse (bool_decide (Ev_Kind e = EvidenceOther "")) "evidence attestation requires a kind";
  need payload := encode_evidence e else "encode evidence: %w";
  Ok (mkAttestedEvidence payload nodeID (base64_Encode (ed25519_Sign key payload))).

Definition VerifyEvidence (attested : AttestedEvidence) (keys : gmap string string) (now : time) (maxAge : duration)
    : result Evidence :=
  refuse (bool_decide (keys = ∅)) "no enrolled node keys are configured";
  need public := keys !! Attested_NodeID attested else "evidence is not signed by an enrolled node";
  refuse (negb (String.length public =? PublicKeySize)%nat) "evidence is not signed by an enrolled node";
  need signature := base64_Decode (Attested_EvidenceSignature attested) else "evidence signature is malformed";
  refuse (negb (ed25519_Verify public (Attested_EvidenceBytes attested) signature))
    "evidence is not signed by an enrolled node";
  match decode_evidence (Attested_EvidenceBytes attested) with
  | Malformed => Err (Errorf "decode attested evidence: %w")
  | Trailing _ => Err (Errorf "attested evidence has trailing content")
  | Decoded e =>
      refuse (bool_decide (Ev_Kind e = EvidenceOther "")) "attested evidence has no kind";
      refuse (bool_decide (observed e "node" ≠ "") && bool_decide (observed e "node" ≠ Attested_NodeID attested))
        "evidence claims node %q but was signed by %q";
      refuse ((0 <? maxAge) && negb (IsZero (Ev_ObservedAt e)) && (maxAge <? time_Sub now (Ev_ObservedAt e)))
        "attested evidence is older than %s";
      refuse ((0 <? maxAge) && negb (IsZero (Ev_ObservedAt e)) &&
              After (Ev_ObservedAt e) (time_Add now (30 * Second)))
        "attested evidence was observed in the future";
      Ok e
  end.
End Boundary.

(** ** What a verified document establishes *)

Section BoundaryFacts.
Context {att : Attest} {signer : Signer} {grants : GrantCodec} {evidences : EvidenceCodec}.
Implicit Types (g : ApprovalGrant) (w : World).

(** The shape of an operator decision. *)
Record sound_grant g : Prop := {
  sg_id : namePattern (Grant_ID g) = true;
  sg_goal : namePattern (Grant_GoalID g) = true;
  sg_scope : Grant_Scope g ∈ ApprovalScopes;
  sg_key : Grant_KeyID g ≠ "";
  sg_issued : Grant_IssuedAt g ≠ 0;
  sg_window : Grant_IssuedAt g < Grant_ExpiresAt g <= Grant_IssuedAt g + MaxApprovalLifetime;
  sg_expires : Grant_ExpiresAt g ≠ 0;
}.

Lemma validateGrant_sound g : validateGrant g = Ok tt → sound_grant g.
Proof.
  unfold validateGrant, IsZero, After. intros H. inv_ok H. bool_simpl. split; try done; try lia.
  - by destruct (decide (Grant_Scope g ∈ ApprovalScopes)).
  - unfold time_Sub in *. split; [lia|].
    assert (MaxApprovalLifetime < int_max) by (apply Z.ltb_lt; vm_compute; reflexivity). lia.
Qed.

(** The carried bytes were signed with the private half of a configured key. *)
Definition signed_with (keys : gmap string string) (keyID bytes signature64 : string) : Prop :=
  ∃ public signature, keys !! keyID = Some public ∧ String.length public = PublicKeySize ∧
    base64_Decode signature64 = Some signature ∧ ed25519_Verify public bytes signature = true.

Lemma VerifyApproval_inv signed keys now g :
  VerifyApproval signed keys now = Ok g →
  signed_with keys (Signed_KeyID signed) (Signed_GrantBytes signed) (Signed_Signature signed) ∧
  (decode_grant (Signed_GrantBytes signed) = Decoded g ∨ decode_grant (Signed_GrantBytes signed) = Trailing g) ∧
  Grant_KeyID g = Signed_KeyID signed ∧ sound_grant g ∧ now < Grant_ExpiresAt g.
Proof.
  unfold VerifyApproval. intros H. inv_ok H.
  assert (∀ g', (refuse (bool_decide (Grant_KeyID g' ≠ Signed_KeyID signed)) "approval names key %q but was signed by %q";
                 let* _ := validateGrant g' in
                 refuse (negb (After (Grant_ExpiresAt g') now)) "approval expired at %s"; Ok g') = Ok g →
    g' = g ∧ Grant_KeyID g = Signed_KeyID signed ∧ sound_grant g ∧ now < Grant_ExpiresAt g) as Hg.
  { intros g' H'. inv_ok H'. subst. unfold After in *. bool_simpl. split_and!; [done|done| |lia].
    match goal with H : validateGrant _ = Ok ?u |- _ => destruct u; by apply validateGrant_sound end. }
  assert (signed_with keys (Signed_KeyID signed) (Signed_GrantBytes signed) (Signed_Signature signed)) as Hs.
  { bool_simpl. do 2 eexists. split_and!; try done. by apply Nat.eqb_eq. }
  destruct (decode_grant (Signed_GrantBytes signed)) as [|g'|g'] eqn:Ed; [done|..]; apply Hg in H as (-> & Hk & Hsg & Hn).
  all: split_and!; auto.
Qed.

(** ** How a decision reaches the kernel *)

Lemma note_other key value m k : k ≠ key → note key value m !! k = m !! k.
Proof. intros H. unfold note. case_bool_decide; [by rewrite lookup_insert_ne|done]. Qed.
Lemma note_same key value m : m !! key = None → default "" (note key value m !! key) = value.
Proof.
  intros H. unfold note. case_bool_decide as E; [by rewrite lookup_insert_eq|]. rewrite H.
  destruct (decide (value = "")) as [->|]; [done|by destruct E].
Qed.

(** Reading one recorded field of a grant's evidence. *)
Ltac read_grant :=
  unfold observed; cbn [Ev_Observed Grant_Evidence]; unfold Grant_observed; rewrite ?note_other by done;
  try (rewrite note_same; [done|rewrite ?note_other by done]);
  match goal with |- context [0 <? Grant_Revision ?g] => destruct (0 <? Grant_Revision g) end; unfold id; by simplify_map_eq.

Lemma Grant_observed_fields g (e := Grant_Evidence g) :
  observed e "goal" = Grant_GoalID g ∧ observed e "scope" = Grant_Scope g ∧ observed e "issued_by" = Grant_IssuedBy g ∧
  observed e "rollback" = Grant_Rollback g ∧ observed e "subject" = Grant_Subject g ∧ observed e "reason" = Grant_Reason g.
Proof. subst e. split_and!; read_grant. Qed.

Lemma Grant_observed_revision g :
  0 <= Grant_Revision g <= int_max → u64 (observedInt (Grant_Evidence g) "revision") = Grant_Revision g.
Proof.
  intros Hrev. unfold observedInt, observed. cbn [Ev_Observed Grant_Evidence]. unfold Grant_observed.
  rewrite !note_other by done. destruct (Z.ltb_spec 0 (Grant_Revision g)); unfold id; simplify_map_eq.
  - rewrite Sscanf_Sprint by (unfold in_int, int_min; lia). cbn. apply u64_id. unfold two64, int_max in *. lia.
  - replace (Grant_Revision g) with 0 by lia. reflexivity.
Qed.

Lemma unnamed_scope : "" ∉ ApprovalScopes.
Proof. unfold ApprovalScopes. intros H. repeat (apply elem_of_cons in H as [H|H]; [done|]). by apply not_elem_of_nil in H. Qed.

Lemma projectApproval_exact w g :
  sound_grant g → 0 <= Grant_Revision g <= int_max →
  projectInto w (Grant_Evidence g) = Ok (w <| Approvals ::= <[Grant_ID g := Grant_Approval g]> |>).
Proof.
  intros [Hid Hgoal Hscope _ _ _ _] Hrev. unfold projectInto. cbn [Ev_Kind Grant_Evidence]. unfold projectApprovalGranted.
  destruct (Grant_observed_fields g) as (-> & -> & -> & -> & -> & ->). rewrite (Grant_observed_revision g Hrev).
  cbn [Ev_Target Ev_ObservedAt Ev_ExpiresAt Grant_Evidence].
  rewrite (bool_decide_false (Grant_ID g = "")) by (intros E; by rewrite E in Hid).
  rewrite (bool_decide_false (Grant_GoalID g = "")) by (intros E; by rewrite E in Hgoal).
  rewrite (bool_decide_false (Grant_Scope g = "")) by (intros E; rewrite E in Hscope; by apply unnamed_scope in Hscope).
  by rewrite (bool_decide_false (Grant_Scope g ∉ ApprovalScopes)) by (intros H; by apply H).
Qed.

(** No other evidence touches the approvals. *)
Lemma project_approvals_frame w e w' :
  projectInto w e = Ok w' → Ev_Kind e ≠ EvidenceApprovalGranted → Ev_Kind e ≠ EvidenceApprovalRevoked →
  Approvals w' = Approvals w.
Proof.
  intros H Hg Hr. unfold projectInto in H.
  destruct (Ev_Kind e); try done; autounfold with project in H;
    try (match type of H with match ?o with _ => _ end = _ => destruct o eqn:? end);
    inv_ok H; subst; unfold detach_volume, put_alloc, put_node, put_volume, recordFailure, clearBackoff; simpl_set;
    autorewrite with frame; simpl_set; try done.
  all: repeat case_match; simpl_set; autorewrite with frame; simpl_set; try done.
  all: apply applyReadiness_frame.
Qed.

Lemma hasApproval_held w id a :
  Approvals w !! id = Some a → Approval_Valid a (ObservedAt w) = true → ObservedAt w ≠ 0 →
  ∀ {clock : WallClock}, hasApproval w (Approval_GoalID a) (Approval_Scope a) = true.
Proof.
  intros Ha Hv Hz clock. apply map_any_true. exists id, a. split; [done|].
  rewrite !bool_decide_true by done. unfold Now, IsZero. rewrite (proj2 (Z.eqb_neq _ _)) by done. by rewrite Hv.
Qed.

Lemma Project_grant w g :
  sound_grant g → 0 <= Grant_Revision g <= int_max →
  Project w (Grant_Evidence g) =
    Ok (stamp (u64 (Revision w + 1)) (Z.max (ObservedAt w) (Grant_IssuedAt g))
          (w <| Approvals ::= <[Grant_ID g := Grant_Approval g]> |>)).
Proof.
  intros Hg Hr. rewrite Project_stamp, projectApproval_exact by done. cbn [rbind].
  unfold next_revision, next_clock, IsZero. cbn [Ev_ObservedAt Grant_Evidence].
  rewrite (proj2 (Z.eqb_neq (Grant_IssuedAt g) 0)) by apply Hg. done.
Qed.

(** An operator's decision arrives unchanged.  What an operator signs with a key the
    server knows verifies until it expires, as exactly that decision; recording it as
    evidence and projecting that evidence, as the server does and as every later replay
    of the log does, puts exactly the approval it describes on record; and the kernel
    sees it while the world's clock has not reached its expiry. *)
Theorem approval_roundtrip {claws : GrantCodecLaws grants} {slaws : SignerLaws att signer} {clock : WallClock}
    g keyID key signed keys now (Hgenuine : genuine_key key)
    (Hs : SignApproval g keyID key = Ok signed) (Hk : keys !! keyID = Some (ed25519_Public key))
    (Ha : ascii_grant (g <| Grant_KeyID := keyID |>) = true) (Hr : 0 <= Grant_Revision g <= int_max)
    (Hn : now < Grant_ExpiresAt g) :
  VerifyApproval signed keys now = Ok (g <| Grant_KeyID := keyID |>) ∧
  ∀ w, ∃ w', Project w (Grant_Evidence (g <| Grant_KeyID := keyID |>)) = Ok w' ∧
    Approvals w' = <[Grant_ID g := Grant_Approval g]> (Approvals w) ∧
    (0 < ObservedAt w' < Grant_ExpiresAt g → hasApproval w' (Grant_GoalID g) (Grant_Scope g) = true).
Proof.
  unfold SignApproval in Hs. inv_ok Hs. subst signed. bool_simpl.
  match goal with H : validateGrant _ = Ok ?u |- _ => destruct u; rename H into Hv end.
  match goal with H : encode_grant _ = Some ?b |- _ => rename H into He end.
  assert (String.length key = PrivateKeySize) as Hlen by (by apply Nat.eqb_eq).
  pose proof (validateGrant_sound _ Hv) as Hsound. split.
  - unfold VerifyApproval. cbn [Signed_KeyID Signed_GrantBytes Signed_Signature].
    rewrite bool_decide_false by (intros E; by rewrite E in Hk).
    rewrite Hk, (public_size key Hlen), decode_encode, (sign_verifies key _ Hgenuine), (decode_encode_grant _ _ Ha He), Hv.
    cbn. rewrite bool_decide_false by (intros E; by apply E). unfold After. cbn.
    rewrite (proj2 (Z.ltb_lt _ _)) by done. done.
  - intros w. eexists. split; [by apply Project_grant|]. unfold stamp. simpl_set. split; [done|]. intros Hc.
    eapply (hasApproval_held _ (Grant_ID g) (Grant_Approval g)); [by simplify_map_eq| |simpl_set; lia].
    simpl_set. unfold Approval_Valid. cbn. unfold IsZero, Before. rewrite (proj2 (Z.ltb_lt _ _)) by lia. apply orb_true_r.
Qed.

(** What passes for an operator's decision was one: the carried bytes are signed
    with a configured operator key, the decision decoded from them names that very key,
    its scope is one the kernel gates on, it has not expired, and between issue and
    expiry lie at most 24 hours. *)
Theorem approval_authentic signed keys now g (H : VerifyApproval signed keys now = Ok g) :
  signed_with keys (Signed_KeyID signed) (Signed_GrantBytes signed) (Signed_Signature signed) ∧
  (decode_grant (Signed_GrantBytes signed) = Decoded g ∨ decode_grant (Signed_GrantBytes signed) = Trailing g) ∧
  Grant_KeyID g = Signed_KeyID signed ∧ Grant_Scope g ∈ ApprovalScopes ∧
  now < Grant_ExpiresAt g <= Grant_IssuedAt g + MaxApprovalLifetime.
Proof. destruct (VerifyApproval_inv _ _ _ _ H) as (? & ? & ? & [] & ?). split_and!; try done; lia. Qed.

(** ** Where authority comes from *)

(** The approval a piece of granting evidence puts on record. *)
Definition granted_by (e : Evidence) : Approval :=
  mkApproval (Ev_Target e) (observed e "goal") (observed e "scope") (observed e "issued_by") true (Ev_ObservedAt e)
    (Ev_ExpiresAt e) (u64 (observedInt e "revision")) (observed e "subject") (observed e "rollback") (observed e "reason").

Definition about_approval (id : string) (e : Evidence) : bool :=
  bool_decide (Ev_Target e = id) &&
  (bool_decide (Ev_Kind e = EvidenceApprovalGranted) || bool_decide (Ev_Kind e = EvidenceApprovalRevoked)).

Lemma Project_approvals w e w' id :
  Project w e = Ok w' →
  Approvals w' !! id = if about_approval id e
    then if bool_decide (Ev_Kind e = EvidenceApprovalGranted) then Some (granted_by e)
         else (λ a, a <| Approval_Granted := false |>) <$> Approvals w !! id
    else Approvals w !! id.
Proof.
  intros (n & Hp & _ & _ & _ & -> & _)%Project_inv. unfold about_approval.
  destruct (decide (Ev_Kind e = EvidenceApprovalGranted)) as [Hg|Hg].
  { rewrite !(bool_decide_true (Ev_Kind e = EvidenceApprovalGranted)) by done. rewrite orb_true_l, andb_true_r.
    unfold projectInto in Hp. rewrite Hg in Hp. unfold projectApprovalGranted in Hp. inv_ok Hp. subst n. simpl_set.
    destruct (decide (Ev_Target e = id)) as [<-|Hne].
    - rewrite bool_decide_true by done. by rewrite lookup_insert_eq.
    - rewrite bool_decide_false by done. by rewrite lookup_insert_ne. }
  rewrite !(bool_decide_false (Ev_Kind e = EvidenceApprovalGranted)) by done. rewrite orb_false_l.
  destruct (decide (Ev_Kind e = EvidenceApprovalRevoked)) as [Hr|Hr].
  2: { rewrite !(bool_decide_false (Ev_Kind e = EvidenceApprovalRevoked)), andb_false_r by done.
       by rewrite (project_approvals_frame _ _ _ Hp). }
  rewrite (bool_decide_true (Ev_Kind e = EvidenceApprovalRevoked)), andb_true_r by done.
  unfold projectInto in Hp. rewrite Hr in Hp. unfold projectApprovalRevoked in Hp.
  destruct (Approvals w !! Ev_Target e) as [a|] eqn:Ha; inv_ok Hp; subst n; simpl_set;
    (destruct (decide (Ev_Target e = id)) as [<-|Hne]; [rewrite bool_decide_true by done|rewrite bool_decide_false by done]).
  - by rewrite lookup_insert_eq, Ha.
  - by rewrite lookup_insert_ne.
  - by rewrite Ha.
  - done.
Qed.

(** C14: authority has one source.  After any history, an approval that stands is either
    one the base world held and nothing in the history speaks of, or exactly the one
    granted by an [approval.granted] observation of the history that nothing after it
    replaces or revokes. *)
Theorem authority_from_grants_only w evidence w' id a
    (H : projectAll w evidence = Ok w') (Ha : Approvals w' !! id = Some a) (Hg : Approval_Granted a = true) :
  (Approvals w !! id = Some a ∧ ∀ e, e ∈ evidence → about_approval id e = false) ∨
  ∃ before e after, evidence = before ++ e :: after ∧ Ev_Kind e = EvidenceApprovalGranted ∧ Ev_Target e = id ∧
    a = granted_by e ∧ ∀ e', e' ∈ after → about_approval id e' = false.
Proof.
  revert w H. induction evidence as [|e evidence IH]; intros w H; cbn in H.
  { injection H as <-. left. split; [done|]. intros e He. by apply not_elem_of_nil in He. }
  destruct (Project w e) as [w1|] eqn:Hp; [|done]. cbn in H.
  destruct (IH w1 H) as [[Hw1 Hno]|(before & e' & after & -> & Hrest)];
    [|right; exists (e :: before), e', after; by split].
  rewrite (Project_approvals _ _ _ id Hp) in Hw1. destruct (about_approval id e) eqn:Hab.
  - case_bool_decide as Hk.
    + right. exists [], e, evidence. injection Hw1 as <-. unfold about_approval in Hab. bool_simpl. done.
    + apply fmap_Some in Hw1 as (b & _ & ->). done.
  - left. split; [done|]. intros e' [->|He']%elem_of_cons; [done|by apply Hno].
Qed.

(** The lifetime of a grant is measured from the time of issue it states, and nothing
    compares that time with the clock.  Recording a decision dated in the future moves
    the world's clock there at once, and whatever is observed before that date arrives,
    the decision stands: not 24 hours but as long as its date was ahead. *)
Theorem postdated_grant_stands {clock : WallClock} w g signed keys now w1 later w2
    (Hv : VerifyApproval signed keys now = Ok g) (Hr : 0 <= Grant_Revision g <= int_max)
    (Hpast : ObservedAt w < Grant_IssuedAt g) (Hpos : 0 < Grant_IssuedAt g)
    (Hg : Project w (Grant_Evidence g) = Ok w1) (Hl : projectAll w1 later = Ok w2)
    (Hbefore : ∀ e, e ∈ later → Ev_ObservedAt e <= Grant_IssuedAt g)
    (Hkept : ∀ e, e ∈ later → about_approval (Grant_ID g) e = false) :
  ObservedAt w2 = Grant_IssuedAt g ∧ hasApproval w2 (Grant_GoalID g) (Grant_Scope g) = true.
Proof.
  destruct (VerifyApproval_inv _ _ _ _ Hv) as (_ & _ & _ & Hsound & _).
  rewrite Project_grant in Hg by done. injection Hg as <-.
  set (w1 := stamp _ _ _) in *.
  assert (ObservedAt w1 = Grant_IssuedAt g ∧ Approvals w1 !! Grant_ID g = Some (Grant_Approval g)) as H1.
  { subst w1. unfold stamp. simpl_set. split; [lia|]. by simplify_map_eq. }
  clearbody w1. revert w1 Hl H1. induction later as [|e later IH]; intros w1 Hl [Ho Hap]; cbn in Hl.
  - injection Hl as <-. split; [done|].
    apply (hasApproval_held w1 (Grant_ID g) (Grant_Approval g)); [done| |lia].
    unfold Approval_Valid. cbn. unfold IsZero, Before. rewrite Ho.
    rewrite (proj2 (Z.ltb_lt _ _)) by apply Hsound. apply orb_true_r.
  - destruct (Project w1 e) as [w3|] eqn:Hp; [|done]. cbn in Hl.
    apply (IH ltac:(intros e' He'; apply Hbefore; by right) ltac:(intros e' He'; apply Hkept; by right) w3); [done|].
    split.
    + rewrite Project_stamp in Hp. destruct (projectInto w1 e); [|done]. injection Hp as <-.
      unfold stamp, next_clock. simpl_set. specialize (Hbefore e ltac:(by left)).
      repeat case_match; lia.
    + rewrite (Project_approvals _ _ _ _ Hp), (Hkept e) by (by left). done.
Qed.
End BoundaryFacts.

(** ** A sample: one decision, and one dated ten years ahead *)

Module ApprovalSample.
#[local] Existing Instances KeySample.sample_attest KeySample.sample_signer.
#[local] Instance sample_clock : WallClock := 100.

Definition operator_key : string := KeySample.key_bytes "a" +:+ KeySample.key_bytes "a".
Definition operator_keys : gmap string string := {[ "op1" := ed25519_Public operator_key ]}.
Definition grant (id : string) (issued : time) : ApprovalGrant :=
  mkApprovalGrant id "g1" "public-route" "ada" "op1" issued (issued + Hour) 7 "launch" "" "".
Definition ten_years : duration := 3650 * Day.
Definition today : time := 1000 * Day.
Definition grant_now : ApprovalGrant := grant "a1" today.
Definition grant_ahead : ApprovalGrant := grant "a2" (today + ten_years).

#[local] Instance sample_grants : GrantCodec :=
  {| encode_grant g := if bool_decide (g = grant_now) then Some "now" else if bool_decide (g = grant_ahead) then Some "ahead" else None;
     decode_grant s := if String.eqb s "now" then Decoded grant_now else if String.eqb s "ahead" then Decoded grant_ahead else Malformed |}.
Lemma sample_grant_laws : GrantCodecLaws sample_grants.
Proof.
  intros g bytes _. cbn. case_bool_decide as E; [subst; by intros [= <-]|].
  case_bool_decide as E2; [subst; by intros [= <-]|done].
Qed.

Definition signed_grant (bytes : string) : SignedApproval :=
  mkSignedApproval bytes "op1" (ed25519_Public operator_key +:+ bytes).

Lemma approval_roundtrip_witness :
  VerifyApproval (signed_grant "now") operator_keys (today + Minute) = Ok grant_now.
Proof.
  refine (proj1 (@approval_roundtrip _ _ _ sample_grant_laws KeySample.sample_signer_laws _
    grant_now "op1" operator_key (signed_grant "now") operator_keys (today + Minute) _ _ _ _ _ _)).
  - exists (KeySample.key_bytes "a"). split; reflexivity.
  - vm_compute. reflexivity.
  - vm_compute. reflexivity.
  - vm_compute. reflexivity.
  - split; apply Z.leb_le; vm_compute; reflexivity.
  - apply Z.ltb_lt. vm_compute. reflexivity.
Defined.

Lemma approval_authentic_witness : Grant_Scope grant_now ∈ ApprovalScopes.
Proof.
  refine (proj1 (proj2 (proj2 (proj2 (approval_authentic (signed_grant "now") operator_keys (today + Minute) grant_now _))))).
  vm_compute. reflexivity.
Defined.

Definition one_node : Node :=
  mkNode "n1" ∅ (mkResources 4000 8192) (mkResources 0 0) ∅ true "" false "" "192.0.2.1" 8443 "" "" ∅ Budget_zero Budget_zero.
Definition small_world : World := mkWorld 3 today {["n1" := one_node]} ∅ ∅ ∅ ∅ ∅ ∅ [] ∅.
Definition after (w : World) (e : Evidence) : World := match Project w e with Ok w' => w' | Err _ => w end.

Lemma authority_from_grants_only_witness :
  (Approvals small_world !! "a1" = Some (Grant_Approval grant_now) ∧
     ∀ e, e ∈ [Grant_Evidence grant_now] → about_approval "a1" e = false) ∨
  ∃ before e after, [Grant_Evidence grant_now] = before ++ e :: after ∧ Ev_Kind e = EvidenceApprovalGranted ∧
    Ev_Target e = "a1" ∧ Grant_Approval grant_now = granted_by e ∧ ∀ e', e' ∈ after → about_approval "a1" e' = false.
Proof.
  refine (authority_from_grants_only small_world [Grant_Evidence grant_now] (after small_world (Grant_Evidence grant_now))
    "a1" (Grant_Approval grant_now) _ _ _); vm_compute; reflexivity.
Defined.

(** Nine years later, on what was observed that day, the route may still be published. *)
Definition years_later : Evidence :=
  mkEvidence EvidenceNodeUnreachable "n1" "controller" (today + 3285 * Day) 0 {["node" := "n1"]}.

Lemma postdated_grant_stands_witness :
  hasApproval (after (after small_world (Grant_Evidence grant_ahead)) years_later) "g1" "public-route" = true.
Proof.
  refine (proj2 (postdated_grant_stands small_world grant_ahead (signed_grant "ahead") operator_keys today
    (after small_world (Grant_Evidence grant_ahead)) [years_later]
    (after (after small_world (Grant_Evidence grant_ahead)) years_later)
    _ _ _ _ _ _ _ _)).
  - vm_compute. reflexivity.
  - split; apply Z.leb_le; vm_compute; reflexivity.
  - apply Z.ltb_lt. vm_compute. reflexivity.
  - apply Z.ltb_lt. vm_compute. reflexivity.
  - vm_compute. reflexivity.
  - vm_compute. reflexivity.
  - intros e ->%list_elem_of_singleton. apply Z.leb_le. vm_compute. reflexivity.
  - intros e ->%list_elem_of_singleton. vm_compute. reflexivity.
Defined.
End ApprovalSample.
