(* ===== verification/Anchor.v ===== *)
(** * The outside witness of the chain head (src/eventlog/anchor.go)

    An append-only file of chain heads kept apart from the event store, against which
    the store is checked when it is opened.  The file is its lines; an append that fails
    may have left any lines behind.  The JSON codec of a line is a class. *)

From S2P Require Import Prelude Types Text Executor EventLog Directory.
Open Scope Z_scope.

Record AnchorRecord := mkAnchorRecord { Anchor_Sequence : Z; Anchor_Hash : string; Anchor_WitnessedAt : time }.
Definition AnchorRecord_zero : AnchorRecord := mkAnchorRecord 0 "" 0.

Class AnchorCodec := {
  encode_anchor : AnchorRecord → option string;
  decode_anchor : string → option AnchorRecord }.
Class AnchorCodecLaws (codec : AnchorCodec) : Prop := {
  decode_encode_anchor : ∀ r line, encode_anchor r = Some line → decode_anchor line = Some r;
  encode_anchor_trimmed : ∀ r line, encode_anchor r = Some line → TrimSpace line = line ∧ line ≠ "" }.

Record Anchor := mkAnchor { anchor_file : list string; anchor_last : AnchorRecord }.

Definition by_sequence (r t : AnchorRecord) : Prop := Anchor_Sequence r <= Anchor_Sequence t.
#[export] Instance by_sequence_dec : RelDecision by_sequence.
Proof. intros r t. unfold by_sequence. apply _. Defined.

Section Operations.
Context {codec : AnchorCodec}.

Definition read_anchor_line (records : list AnchorRecord) (line : string) : result (list AnchorRecord) :=
  let text := TrimSpace line in
  if bool_decide (text = "") then Ok records
  else need record := decode_anchor text else "anchor line %d is malformed: %w";
       refuse (bool_decide (Anchor_Hash record = "")) "anchor line %d has no hash";
       Ok (records ++ [record]).

(** [OpenAnchor] past the file-system checks; a missing file has no lines. *)
Definition OpenAnchor (lines : list string) : result Anchor :=
  let* records := for_each read_anchor_line [] lines in
  Ok (mkAnchor lines (default AnchorRecord_zero (last (merge_sort by_sequence records)))).

Definition Anchor_Last (a : Anchor) : AnchorRecord := anchor_last a.

(** [Witness]: [failed] holds the lines a failing append left in the file. *)
Definition Witness (failed : option (list string)) (now : time) (a : Anchor) (sequence : Z) (hash : string)
    : Anchor * result unit :=
  if bool_decide (hash = "") then (a, Err (Errorf "anchor requires a chain hash"))
  else if sequence <? Anchor_Sequence (anchor_last a)
  then (a, Err (Errorf "anchor already witnessed sequence %d, refusing to record %d"))
  else if (sequence =? Anchor_Sequence (anchor_last a)) && bool_decide (hash ≠ Anchor_Hash (anchor_last a))
  then (a, Err (Errorf "anchor witnessed a different hash at sequence %d"))
  else if sequence =? Anchor_Sequence (anchor_last a) then (a, Ok tt)
  else
    let record := mkAnchorRecord sequence hash now in
    match encode_anchor record, failed with
    | None, _ => (a, Err (Errorf "encode anchor record: %w"))
    | Some _, Some tail => (mkAnchor (anchor_file a ++ tail) (anchor_last a), Err (Errorf "append anchor record: %w"))
    | Some payload, None => (mkAnchor (anchor_file a ++ [payload]) record, Ok tt)
    end.

Section Store.
Context {events : EventCodec}.

(** [Check]: the store's head against the last witnessed one, or, once the store has
    grown, the record it holds at the witnessed sequence. *)
Definition Check (a : Anchor) (store : File) : result unit :=
  let witnessed := anchor_last a in
  if bool_decide (Anchor_Hash witnessed = "") then Ok tt
  else
    let head := Head store in
    if Rec_Sequence head <? Anchor_Sequence witnessed
    then Err (Errorf "event log is at sequence %d but the anchor witnessed %d: the log was truncated or replaced")
    else if Rec_Sequence head =? Anchor_Sequence witnessed
    then if bool_decide (Rec_Hash head ≠ Anchor_Hash witnessed)
         then Err (Errorf "event log hash at sequence %d does not match the anchor: history was rewritten")
         else Ok tt
    else
      let* records := readRecords store in
      match List.find (λ r, Rec_Sequence r =? Anchor_Sequence witnessed) records with
      | None => Err (Errorf "event log has no record at anchored sequence %d")
      | Some record =>
          if bool_decide (Rec_Hash record ≠ Anchor_Hash witnessed)
          then Err (Errorf "event log hash at sequence %d does not match the anchor: history was rewritten")
          else Ok tt
      end.
End Store.
End Operations.

(** ** The file remembers *)

Section File.
Context {codec : AnchorCodec} {laws : AnchorCodecLaws codec}.

(** What the file of a working anchor holds: heads of growing sequence, the last of which
    the anchor remembers. *)
Definition increasing (l : list AnchorRecord) : Prop :=
  ∀ i j r t, l !! i = Some r → l !! j = Some t → (i < j)%nat → Anchor_Sequence r < Anchor_Sequence t.

Definition anchored (a : Anchor) (l : list AnchorRecord) : Prop :=
  Forall2 (λ r line, encode_anchor r = Some line) l (anchor_file a) ∧ anchor_last a = default AnchorRecord_zero (last l) ∧ increasing l ∧
  ∀ r, r ∈ l → Anchor_Hash r ≠ "" ∧ 0 < Anchor_Sequence r.

Lemma read_anchor_lines acc l lines :
  (∀ r, r ∈ l → Anchor_Hash r ≠ "") → Forall2 (λ r line, encode_anchor r = Some line) l lines →
  for_each read_anchor_line acc lines = Ok (acc ++ l).
Proof.
  intros H Hl. revert acc H. induction Hl as [|r line l lines He _ IH]; intros acc H; cbn [for_each]; [by rewrite app_nil_r|].
  assert (read_anchor_line acc line = Ok (acc ++ [r])) as ->.
  { unfold read_anchor_line. destruct (encode_anchor_trimmed r line He) as [-> Ht]. rewrite (decode_encode_anchor r line He).
    rewrite bool_decide_false by done. rewrite bool_decide_false by (apply H; by left). done. }
  cbn [rbind]. rewrite IH by (intros t Ht; apply H; by right). by rewrite <-(assoc_L (++)).
Qed.

Lemma increasing_sorted l : increasing l → StronglySorted by_sequence l.
Proof.
  induction l as [|r l IH]; intros H; constructor.
  - apply IH. intros i j t u Hi Hj Hlt. apply (H (S i) (S j)); [done|done|lia].
  - apply Forall_forall. intros t Ht. apply list_elem_of_lookup in Ht as [j Hj]. unfold by_sequence.
    specialize (H 0%nat (S j) r t eq_refl Hj ltac:(lia)). lia.
Qed.

Lemma sorted_last l l' r :
  StronglySorted by_sequence l' → l' ≡ₚ l → last l = Some r → (∀ t, t ∈ l → t = r ∨ Anchor_Sequence t < Anchor_Sequence r) →
  last l' = Some r.
Proof.
  intros Hs Hp Hl Hmax. destruct l' as [|t' l' _] using rev_ind.
  { apply Permutation_nil_l in Hp as ->. done. }
  rewrite last_snoc. f_equal. assert (t' ∈ l) as Ht' by (rewrite <-Hp; apply elem_of_app; right; by left).
  destruct (Hmax t' Ht') as [|Hlt]; [done|]. exfalso.
  assert (r ∈ l' ++ [t']) as Hr by (rewrite Hp; by apply last_Some_elem_of).
  apply elem_of_app in Hr as [Hr| ->%list_elem_of_singleton]; [|lia].
  assert (by_sequence r t'); [|unfold by_sequence in *; lia].
  apply StronglySorted_app in Hs as [Hs _]. apply Hs; [done|by left].
Qed.

Lemma anchored_below a l t : anchored a l → t ∈ l → t = anchor_last a ∨ Anchor_Sequence t < Anchor_Sequence (anchor_last a).
Proof.
  intros (_ & -> & Hi & _) [i Ht]%list_elem_of_lookup. destruct l as [|r l _] using rev_ind; [done|].
  rewrite last_snoc. cbn. pose proof (lookup_lt_Some _ _ _ Ht) as Hlt. rewrite length_app in Hlt. cbn in Hlt.
  destruct (decide (i = length l)) as [->|Hne].
  - left. rewrite lookup_app_r, Nat.sub_diag in Ht by lia. by injection Ht.
  - right. apply (Hi i (length l)); [done|by rewrite lookup_app_r, Nat.sub_diag by lia|lia].
Qed.

Lemma OpenAnchor_again a l : anchored a l → OpenAnchor (anchor_file a) = Ok a.
Proof.
  intros H. pose proof H as (Hf & Hl & Hi & Hh). unfold OpenAnchor.
  rewrite (read_anchor_lines [] l (anchor_file a)) by (done || intros r Hr; by apply Hh).
  cbn [rbind app]. destruct (last l) as [r|] eqn:E.
  - rewrite (sorted_last l (merge_sort by_sequence l) r).
    + cbn. destruct a. cbn in *. by subst.
    + apply StronglySorted_merge_sort; [unfold by_sequence; intros ???; lia|].
      intros x y. unfold by_sequence. destruct (Z.le_ge_cases (Anchor_Sequence x) (Anchor_Sequence y)); auto.
    + apply merge_sort_Permutation.
    + done.
    + intros t Ht. pose proof (anchored_below a l t H Ht) as Hb. rewrite Hl in Hb. exact Hb.
  - apply last_None in E as ->. inversion Hf as [E1 E2|]. destruct a. cbn in *. by subst.
Qed.

Lemma Witness_anchored now a l sequence hash a' :
  anchored a l → Witness None now a sequence hash = (a', Ok tt) →
  (∃ l', anchored a' l') ∧ Anchor_Sequence (anchor_last a') = sequence ∧ Anchor_Hash (anchor_last a') = hash ∧
  Anchor_Sequence (anchor_last a) <= sequence.
Proof.
  intros Ha. unfold Witness. case_bool_decide as Hh; [done|].
  destruct (Z.ltb_spec sequence (Anchor_Sequence (anchor_last a))) as [|Hge]; [done|].
  destruct (Z.eqb_spec sequence (Anchor_Sequence (anchor_last a))) as [Heq|Hne]; cbn [andb].
  { case_bool_decide as Hs; [done|]. intros [= <-]. split; [by exists l|]. split_and!; [done| |lia].
    destruct (decide (hash = Anchor_Hash (anchor_last a))); [done|by destruct Hs]. }
  destruct (encode_anchor _) as [payload|] eqn:He; [|done].
  intros [= <-]. cbn [anchor_last Anchor_Sequence Anchor_Hash]. split_and!; [|done|done|lia].
  exists (l ++ [mkAnchorRecord sequence hash now]). pose proof Ha as (Hf & Hl & Hi & Hr). split_and!; cbn.
  - apply Forall2_app; [done|by repeat constructor].
  - by rewrite last_snoc.
  - assert (∀ t, t ∈ l → Anchor_Sequence t < sequence) as Hbelow.
    { intros t Ht. destruct (anchored_below a l t Ha Ht) as [->|]; lia. }
    intros i j r t H1 H2 Hlt. pose proof (lookup_lt_Some _ _ _ H2) as Hj. rewrite length_app in Hj. cbn in Hj.
    rewrite lookup_app_l in H1 by lia. destruct (decide (j < length l)%nat).
    + rewrite lookup_app_l in H2 by done. by apply (Hi i j).
    + rewrite lookup_app_r in H2 by lia. replace (j - length l)%nat with 0%nat in H2 by lia. injection H2 as <-.
      cbn. apply Hbelow. by eapply list_elem_of_lookup_2.
  - intros r [Hin| ->%list_elem_of_singleton]%elem_of_app; [by apply Hr|]. cbn. split; [done|].
    assert (0 <= Anchor_Sequence (anchor_last a)); [|lia]. rewrite Hl.
    destruct (last l) as [t|] eqn:E; [|done]. cbn. apply Z.lt_le_incl, Hr. by apply last_Some_elem_of.
Qed.

(** The lives of an anchor: heads witnessed, refused, and the file reopened. *)
Inductive anchor_life : Anchor → Prop :=
  | anchor_fresh a : OpenAnchor [] = Ok a → anchor_life a
  | anchor_witnessed a now sequence hash a' :
      anchor_life a → Witness None now a sequence hash = (a', Ok tt) → anchor_life a'
  | anchor_refused a now sequence hash a' err :
      anchor_life a → Witness None now a sequence hash = (a', Err err) → anchor_life a'
  | anchor_reopened a a' : anchor_life a → OpenAnchor (anchor_file a) = Ok a' → anchor_life a'.

Lemma Witness_refused now a sequence hash a' err : Witness None now a sequence hash = (a', Err err) → a' = a.
Proof. unfold Witness. repeat case_match; congruence. Qed.

Lemma anchor_life_anchored a : anchor_life a → ∃ l, anchored a l.
Proof.
  induction 1 as [a H|a now sequence hash a' _ [l IH] Hw|a now sequence hash a' err _ [l IH] Hw|a a' _ [l IH] Ho].
  - injection H as <-. exists []. split_and!; [constructor|done|by intros i j r t|]. intros r Hr. by apply not_elem_of_nil in Hr.
  - by destruct (Witness_anchored _ _ _ _ _ _ IH Hw) as [? _].
  - apply Witness_refused in Hw as ->. eauto.
  - rewrite (OpenAnchor_again a l IH) in Ho. injection Ho as <-. eauto.
Qed.

(** A witness is never forgotten and never goes back.  However an anchor was used
    while its appends succeeded, its file opens again and gives back exactly the head it
    last witnessed; and witnessing another head succeeds only at a later sequence, or at
    the same one with the same hash. *)
Theorem anchor_remembers a (H : anchor_life a) :
  OpenAnchor (anchor_file a) = Ok a ∧
  ∀ now sequence hash a', Witness None now a sequence hash = (a', Ok tt) →
    OpenAnchor (anchor_file a') = Ok a' ∧ Anchor_Sequence (anchor_last a') = sequence ∧
    Anchor_Hash (anchor_last a') = hash ∧
    (Anchor_Sequence (anchor_last a) < sequence ∨
     Anchor_Sequence (anchor_last a) = sequence ∧ Anchor_Hash (anchor_last a) = hash).
Proof.
  destruct (anchor_life_anchored a H) as [l Hl]. split; [by eapply OpenAnchor_again|].
  intros now sequence hash a' Hw. destruct (Witness_anchored _ _ _ _ _ _ Hl Hw) as ([l' Hl'] & Hs & Hh & Hle).
  split_and!; [by eapply OpenAnchor_again|done|done|].
  destruct (decide (Anchor_Sequence (anchor_last a) = sequence)) as [E|]; [right|left; lia]. split; [done|].
  unfold Witness in Hw. rewrite <-E, Z.ltb_irrefl, Z.eqb_refl in Hw. cbn [andb] in Hw.
  case_bool_decide; [done|]. case_bool_decide as Hne; [done|].
  destruct (decide (hash = Anchor_Hash (anchor_last a))); [done|by destruct Hne].
Qed.
End File.

(** ** What a check of the store establishes *)

Section Detection.
Context {events : EventCodec} {digest : Digest}
  {elaws : EventCodecLaws events} {dlaws : DigestLaws digest}.

Lemma verify_prefix i p l l' : verify_from i p (l ++ l') = Ok tt → verify_from i p l = Ok tt.
Proof.
  revert i p. induction l as [|r l IH]; intros i p H; [done|]. cbn [app verify_from] in *. cbv zeta in *.
  inv_ok H. cbn [rbind]. repeat match goal with H : ?b = false |- context [?b] => rewrite H end. by apply IH.
Qed.

Lemma verify_sequence i p l j r :
  verify_from i p l = Ok tt → l !! j = Some r → Rec_Sequence r = u64 (Z.of_nat (i + j) + 1).
Proof.
  revert i p j. induction l as [|x l IH]; intros i p j H Hj; [done|]. cbn [verify_from] in H. inv_ok H.
  destruct j as [|j]; cbn in Hj.
  - injection Hj as <-. bool_simpl. rewrite Nat.add_0_r. lia.
  - rewrite (IH _ _ _ H Hj). do 2 f_equal. lia.
Qed.

Lemma find_at records n :
  verifyChain records = Ok tt → len records < two64 → 1 <= n <= len records →
  ∃ r, List.find (λ r, Rec_Sequence r =? n) records = Some r ∧ record_tip "" (take (Z.to_nat n) records) = Rec_Hash r.
Proof.
  intros Hv Hlen Hn. unfold len in *.
  assert (is_Some (records !! Z.to_nat (n - 1))) as [r Hr] by (apply lookup_lt_is_Some; lia).
  assert (Rec_Sequence r = n) as Hseq.
  { rewrite (verify_sequence _ _ _ _ _ Hv Hr), u64_id by lia. lia. }
  exists r. split.
  - destruct (List.find _ records) as [r'|] eqn:Hf.
    + apply find_some in Hf as [Hin Heq]. apply list_elem_of_In, list_elem_of_lookup in Hin as [j Hj].
      pose proof (lookup_lt_Some _ _ _ Hj) as Hlt.
      pose proof (verify_sequence _ _ _ _ _ Hv Hj) as Hs. rewrite u64_id in Hs by lia. apply Z.eqb_eq in Heq.
      assert (j = Z.to_nat (n - 1)) as -> by lia. congruence.
    + pose proof (find_none _ _ Hf r) as Hnone. cbn in Hnone. rewrite Hseq, Z.eqb_refl in Hnone.
      discriminate Hnone. apply list_elem_of_In. by eapply list_elem_of_lookup_2.
  - replace (Z.to_nat n) with (S (Z.to_nat (n - 1))) by lia. rewrite (take_S_r _ _ _ Hr).
    unfold record_tip. by rewrite last_snoc.
Qed.

Lemma record_tip_nonempty l : verifyChain l = Ok tt → l ≠ [] → record_tip "" l ≠ "".
Proof.
  destruct l as [|r l _] using rev_ind; [done|]. intros H _.
  apply verify_snoc in H as (_ & _ & _ & payload & _ & Hh). unfold record_tip. rewrite last_snoc, Hh.
  intros E. pose proof (digest_length (record_tip "" l +:+ String zero_byte payload)) as Hd. unfold link in E. by rewrite E in Hd.
Qed.

Lemma Check_prefix a l f records
    (Hl : verifyChain l = Ok tt) (Hne : l ≠ []) (Hseq : Anchor_Sequence (anchor_last a) = len l)
    (Hhash : Anchor_Hash (anchor_last a) = record_tip "" l)
    (Hr : readRecords f = Ok records) (Hv : verifyChain records = Ok tt) (Hn : len records < two64)
    (Hcount : Rec_Sequence (Head f) = len records)
    (Hhead : len l < len records ∨ Rec_Hash (Head f) = record_tip "" records)
    (Hc : Check a f = Ok tt) :
  l `prefix_of` records ∨ collision (chain_texts l ++ chain_texts records).
Proof.
  pose proof (record_tip_nonempty l Hl Hne) as Htip. unfold Check in Hc.
  rewrite bool_decide_false in Hc by (by rewrite Hhash).
  rewrite Hcount, Hseq in Hc. destruct (Z.ltb_spec (len records) (len l)) as [|Hge]; [done|].
  assert (record_tip "" (take (length l) records) = record_tip "" l) as Heq.
  { destruct (Z.eqb_spec (len records) (len l)) as [He|Hgt].
    - destruct Hhead as [|Hhead]; [lia|]. rewrite take_ge by (unfold len in *; lia).
      rewrite <-Hhead. case_bool_decide as Hb; [done|]. rewrite <-Hhash.
      destruct (decide (Rec_Hash (Head f) = Anchor_Hash (anchor_last a))); [done|by destruct Hb].
    - rewrite Hr in Hc. cbn [rbind] in Hc.
      assert (0 < length l)%nat by (destruct l; [done|cbn; lia]).
      destruct (find_at records (len l) Hv Hn) as (r & Hf & Ht); [unfold len in *; lia|].
      rewrite Hf in Hc. unfold len in Ht. rewrite Nat2Z.id in Ht. rewrite Ht, <-Hhash.
      case_bool_decide as Hb; [done|].
      destruct (decide (Rec_Hash r = Anchor_Hash (anchor_last a))); [done|by destruct Hb]. }
  assert (verifyChain (take (length l) records) = Ok tt) as Hvt.
  { eapply (verify_prefix _ _ _ (drop (length l) records)). by rewrite take_drop. }
  destruct (chain_unique _ _ Hvt Hl) as [Hp|]; [rewrite length_take; unfold len in *; lia|done| |right].
  2: { eapply collision_mono; [|done]. pose proof (chain_texts_prefix _ _ (prefix_take records (length l))). set_solver. }
  left. rewrite <-Hp. apply prefix_take.
Qed.

(** The anchor catches a replaced store.  Let [l] be the history whose head was
    witnessed.  A store that verifies and passes the check begins with exactly that
    history, record by record, unless two of the texts the two histories link collide
    under the digest; where it
    holds nothing beyond the witnessed head, provided its head row tells the hash of its
    last record. *)
Theorem anchor_detects_replacement a l f records
    (Hl : verifyChain l = Ok tt) (Hne : l ≠ []) (Hseq : Anchor_Sequence (anchor_last a) = len l)
    (Hhash : Anchor_Hash (anchor_last a) = record_tip "" l)
    (Hr : readRecords f = Ok records) (Hv : verifyChain records = Ok tt) (Hn : len records < two64)
    (Hcount : Rec_Sequence (Head f) = len records)
    (Hhead : len l < len records ∨ Rec_Hash (Head f) = record_tip "" records)
    (Hc : Check a f = Ok tt) :
  l `prefix_of` records ∨ collision (chain_texts l ++ chain_texts records).
Proof. by eapply Check_prefix. Qed.
End Detection.

(** At the witnessed sequence the check compares the anchor with the head row of the
    store, which nothing compares with the records: whatever records stand under that
    row, if the store opens at all, the check gives the same answer. *)
Theorem anchor_trusts_head_row {events : EventCodec} {digest : Digest}
    a rows rows' head f f'
    (Ho : Open (mkDatabase rows head) = Ok f) (Ho' : Open (mkDatabase rows' head) = Ok f')
    (Hs : Anchor_Sequence (anchor_last a) = head.1) :
  Check a f = Check a f'.
Proof.
  assert (∀ rows f, Open (mkDatabase rows head) = Ok f → Head f = mkLogRecord head.1 "" head.2 Event_zero) as Hhead.
  { intros rs g H. unfold Open, loadHead in H. cbn [db_head] in H. destruct head as [n h].
    destruct (negb _); [done|]. cbn [rbind] in H. destruct (Verify _); [|done]. by injection H as <-. }
  unfold Check. rewrite (Hhead _ _ Ho), (Hhead _ _ Ho'). cbn [Rec_Sequence Rec_Hash].
  by rewrite Hs, Z.ltb_irrefl, Z.eqb_refl.
Qed.

(** ** A sample: one event, its witness, and a forgery under the same head row *)

Module AnchorSample.
Definition first_event (actor : string) : Event := mkEvent 1 5 EventGoalAccepted actor "g1" "" "" "" "" 0 "" None.
Definition second_event : Event := mkEvent 2 6 EventGoalAccepted "op" "g1" "" "" "" "" 0 "" None.
#[local] Instance sample_events : EventCodec := {|
  marshal e := if decide (e = first_event "op") then Some "1" else if decide (e = first_event "mallory") then Some "x"
               else if decide (e = second_event) then Some "2" else None;
  unmarshal s := if decide (s = "1") then Some (first_event "op") else if decide (s = "x") then Some (first_event "mallory")
                 else if decide (s = "2") then Some second_event else None |}.
Lemma sample_events_laws : EventCodecLaws sample_events.
Proof.
  intros e s. cbn [marshal unmarshal sample_events].
  destruct (decide (e = first_event "op")) as [->|]; [by intros [= <-]|].
  destruct (decide (e = first_event "mallory")) as [->|]; [by intros [= <-]|].
  destruct (decide (e = second_event)) as [->|]; [by intros [= <-]|]. done.
Qed.
#[local] Instance sample_digest : Digest := λ s,
  String.concat "" (replicate 63 "a") +:+
  (if (String.length s <? 10)%nat then if String.eqb s (String zero_byte "1") then "b" else "c" else "d").
Lemma sample_digest_laws : DigestLaws sample_digest.
Proof. split; intros s; unfold digestOf, sample_digest; by repeat case_match. Qed.

Definition head_hash : string := digestOf (String zero_byte "1").
Definition witnessed : AnchorRecord := mkAnchorRecord 1 head_hash 7.
#[local] Instance sample_codec : AnchorCodec := {|
  encode_anchor r := if bool_decide (Anchor_Sequence r = 1) && bool_decide (Anchor_Hash r = head_hash) &&
                        bool_decide (Anchor_WitnessedAt r = 7) then Some "{1}" else None;
  decode_anchor s := if String.eqb s "{1}" then Some witnessed else None |}.
Lemma sample_codec_laws : AnchorCodecLaws sample_codec.
Proof.
  split; intros r line; cbn [encode_anchor decode_anchor sample_codec]; destruct (_ && _) eqn:E; try done; intros [= <-].
  - bool_simpl. destruct r. cbn in *. by subst.
  - split; [vm_compute; reflexivity|done].
Qed.

Definition genuine_row : Row := mkRow 1 "" head_hash "1".
Definition forged_row : Row := mkRow 1 "" (digestOf (String zero_byte "x")) "x".
Definition genuine : Database := mkDatabase [genuine_row] (1, head_hash).
Definition forged : Database := mkDatabase [forged_row] (1, head_hash).
Definition opened (db : Database) : File := mkFile (Some db) (mkLogRecord 1 "" head_hash Event_zero) 1.
Definition grown : Database :=
  (match Append true (opened genuine) second_event with (f, _) => default genuine (file_db f) end).
Definition grown_file : File := mkFile (Some grown) (mkLogRecord 2 "" (record_tip "" (Records (opened grown))) Event_zero) 2.
Definition sample_anchor : Anchor := mkAnchor ["{1}"] witnessed.

Lemma sample_life : anchor_life sample_anchor.
Proof.
  apply (anchor_witnessed (mkAnchor [] AnchorRecord_zero) 7 1 head_hash); [|vm_compute; reflexivity].
  apply anchor_fresh. vm_compute. reflexivity.
Qed.

Lemma anchor_remembers_witness : OpenAnchor ["{1}"] = Ok sample_anchor.
Proof. exact (proj1 (@anchor_remembers sample_codec sample_codec_laws sample_anchor sample_life)). Defined.

Lemma anchor_detects_replacement_witness :
  Records (opened genuine) `prefix_of` Records grown_file ∨
  collision (chain_texts (Records (opened genuine)) ++ chain_texts (Records grown_file)).
Proof.
  refine (@anchor_detects_replacement sample_events sample_digest sample_events_laws sample_digest_laws
    sample_anchor (Records (opened genuine)) grown_file (Records grown_file) _ _ _ _ _ _ _ _ _ _).
  - vm_compute. reflexivity.
  - vm_compute. discriminate.
  - vm_compute. reflexivity.
  - vm_compute. reflexivity.
  - vm_compute. reflexivity.
  - vm_compute. reflexivity.
  - apply Z.ltb_lt. vm_compute. reflexivity.
  - vm_compute. reflexivity.
  - left. apply Z.ltb_lt. vm_compute. reflexivity.
  - vm_compute. reflexivity.
Defined.

(** The forged history opens and passes the check the genuine one passes. *)
Lemma anchor_trusts_head_row_witness :
  Records (opened forged) ≠ Records (opened genuine) ∧ Check sample_anchor (opened forged) = Ok tt.
Proof.
  split; [vm_compute; discriminate|].
  transitivity (Check sample_anchor (opened genuine)); [|vm_compute; reflexivity].
  refine (anchor_trusts_head_row sample_anchor [forged_row] [genuine_row] (1, head_hash) (opened forged) (opened genuine) _ _ _);
    vm_compute; reflexivity.
Defined.
End AnchorSample.
