(* ===== verification/Server.v ===== *)
(** * The control-plane server (src/server/server.go)

    The long-running server: durable history, the projection rebuilt from it, the goals
    it accepted and the operator decisions it records.  A decision is appended to the
    history first, witnessed by the anchor second and projected third.  What the disk
    does in one call is an argument of the operations that write: whether the
    transaction commits, and the lines a failing anchor append leaves behind. *)

From S2P Require Import Prelude Types Text Spread Snapshots Policy Simulate Clone Disruption Projection History Replay Executor EventLog Durable Lease Provenance Kernel Rollout Engine Directory Canary NetPolicy Agents Cron Validate Keys Approvals Anchor.
Open Scope Z_scope.

Record Config := mkConfig {
  Config_EventLog : string; Config_Base : World; Config_MaxRounds : Z; Config_OperatorKeys : gmap string string;
  Config_Anchor : string; Config_ImageSigners : gmap string string; Config_RequireSignedImages : bool;
  Config_ClusterCeiling : Resources; Config_MaxAllocations : Z; Config_ClusterBudget : Budget }.

(** [Server]; [Server_log] is [None] once closed. *)
Record Server := mkServer {
  Server_log : option File; Server_projector : DurableProjector; Server_leases : LeaseManager; Server_maxRounds : Z;
  Server_goals : gmap string Goal; Server_operatorKeys : gmap string string; Server_anchor : option Anchor;
  Server_policy : Policy }.
#[export] Instance eta_Server : Eta Server := λ r,
  mkServer (Server_log r) (Server_projector r) (Server_leases r) (Server_maxRounds r) (Server_goals r)
    (Server_operatorKeys r) (Server_anchor r) (Server_policy r).

(** What the disk does during one write. *)
Record Disk := mkDisk { disk_commits : bool; disk_anchor : option (list string) }.

Section Operations.
Context {att : Attest} {grants : GrantCodec} {events : EventCodec} {digest : Digest} {anchors : AnchorCodec}
  {cidr : CIDRParser} {clock : WallClock}.

(** Witness a head that has a hash. *)
Definition witness_head (disk : Disk) (now : time) (a : Anchor) (f : File) : Anchor * result unit :=
  if bool_decide (Rec_Hash (Head f) ≠ "")
  then Witness (disk_anchor disk) now a (Rec_Sequence (Head f)) (Rec_Hash (Head f)) else (a, Ok tt).

Definition server_policy (config : Config) : Policy :=
  mkPolicy (MaxActionsPerProposal DefaultPolicy) (Grants DefaultPolicy) (MaxDisruptionsPerWindow DefaultPolicy)
    (DisruptionWindow DefaultPolicy) (DisruptionCooldown DefaultPolicy) (Config_ImageSigners config)
    (Config_RequireSignedImages config) (Config_ClusterCeiling config) (Config_MaxAllocations config)
    (Config_ClusterBudget config).

(** [Open] over the database and the anchor file the configuration names. *)
Definition Server_Open (config : Config) (db : Database) (anchor_lines : list string) (disk : Disk) (now : time)
    : result Server :=
  refuse (bool_decide (Config_EventLog config = "")) "server requires an event log path";
  let* log := EventLog.Open db in
  let* anchor := if bool_decide (Config_Anchor config = "") then Ok None
                 else let* a := OpenAnchor anchor_lines in
                      let* _ := wrap_err "event log failed its anchor check: %w" (Check a log) in
                      Ok (Some a) in
  let* projector := wrap_err "rebuild world projection: %w"
    (NewDurableProjector (Config_Base config) (Some (ReplayEvidence log))) in
  let* anchor := match anchor with
                 | None => Ok None
                 | Some a => let '(a, r) := witness_head disk now a log in
                             let* _ := wrap_err "witness recovered chain head: %w" r in Ok (Some a)
                 end in
  Ok (mkServer (Some log) projector NewLeaseManager
        (if Config_MaxRounds config <=? 0 then 12 else Config_MaxRounds config) ∅ (Config_OperatorKeys config) anchor
        (server_policy config)).

Definition Server_Close (s : Server) : Server := s <| Server_log := None |>.
Definition Server_World (s : Server) : World := Projector_World (Server_projector s).

Definition Submit (s : Server) (g : Goal) : Server * result unit :=
  match NormalizeAndValidate (mkScenario g (Server_World s)) with
  | Err e => (s, Err (Wrapf "reject goal %q: %w" e))
  | Ok _ => (s <| Server_goals ::= <[Goal_ID g := g]> |>, Ok tt)
  end.

Definition witnessHead (disk : Disk) (now : time) (s : Server) : Server * result unit :=
  match Server_anchor s, Server_log s with
  | Some a, Some f => let '(a, r) := witness_head disk now a f in (s <| Server_anchor := Some a |>, r)
  | _, _ => (s, Ok tt)
  end.

Definition Server_Rebuild (s : Server) : Server * result unit :=
  match Server_log s with
  | None => (s, Err (Errorf "event log is closed"))
  | Some f => let '(p, r) := Rebuild (Server_projector s) (Some (ReplayEvidence f)) in (s <| Server_projector := p |>, r)
  end.

Definition observation_event (f : File) (actor goalID target message : string) (e : Evidence) : Event :=
  mkEvent (NextSequence f) (Ev_ObservedAt e) EventObservationRecorded actor goalID "" "" target
    (EvidenceKind_String (Ev_Kind e)) 0 message (Some e).

Definition appendObservation (disk : Disk) (now : time) (s : Server) (actor goalID target message : string)
    (e : Evidence) : Server * result unit :=
  match Server_log s with
  | None => (s, Err (Errorf "event log is closed"))
  | Some f =>
      match Append (disk_commits disk) f (observation_event f actor goalID target message e) with
      | (f, Err err) => (s <| Server_log := Some f |>, Err (Wrapf "record observation: %w" err))
      | (f, Ok _) =>
          let s := s <| Server_log := Some f |> in
          match (match Server_anchor s with
                 | None => (None, Ok tt)
                 | Some a => let '(a, r) := witness_head disk now a f in (Some a, r)
                 end) with
          | (a, Err err) => (s <| Server_anchor := a |>, Err (Wrapf "witness operator decision: %w" err))
          | (a, Ok _) =>
              let '(p, r) := Projector_Project (Server_projector s) e in
              (s <| Server_anchor := a |> <| Server_projector := p |>, r)
          end
      end
  end.

Definition recordDecision (disk : Disk) (now : time) (s : Server) (g : ApprovalGrant) (e : Evidence) (message : string)
    : Server * result unit :=
  appendObservation disk now s ("operator:" +:+ Grant_IssuedBy g) (Grant_GoalID g) (Grant_ID g)
    (message +:+ ": " +:+ Grant_Scope g) e.

Definition Approve (disk : Disk) (now : time) (s : Server) (signed : SignedApproval) : Server * result ApprovalGrant :=
  match VerifyApproval signed (Server_operatorKeys s) now with
  | Err e => (s, Err e)
  | Ok g =>
      if bool_decide (Server_goals s !! Grant_GoalID g = None)
      then (s, Err (Errorf "goal %q has not been submitted; approve it after submitting"))
      else let '(s, r) := recordDecision disk now s g (Grant_Evidence g) "approval granted" in
           (s, let* _ := r in Ok g)
  end.

Definition revocation (g : ApprovalGrant) (now : time) : Evidence :=
  mkEvidence EvidenceApprovalRevoked (Grant_ID g) ("operator:" +:+ Grant_IssuedBy g) now 0
    (<["reason" := Grant_Reason g]> (<["revoked_by" := Grant_IssuedBy g]> (<["scope" := Grant_Scope g]>
      {["goal" := Grant_GoalID g]}))).

Definition Revoke (disk : Disk) (now : time) (s : Server) (signed : SignedApproval) : Server * result unit :=
  match VerifyApproval signed (Server_operatorKeys s) now with
  | Err e => (s, Err e)
  | Ok g =>
      if bool_decide (Approvals (Server_World s) !! Grant_ID g = None)
      then (s, Err (Errorf "approval %q was never granted"))
      else recordDecision disk now s g (revocation g now) "approval revoked"
  end.

Definition setCordon (disk : Disk) (now : time) (s : Server) (nodeID reason operator : string) (cordoned : bool)
    : Server * result unit :=
  if bool_decide (nodeID = "") then (s, Err (Errorf "a node is required"))
  else if bool_decide (operator = "") then (s, Err (Errorf "an operator is required"))
  else if bool_decide (Nodes (Server_World s) !! nodeID = None) then (s, Err (Errorf "node %q is not in the observed world"))
  else
    let kind := if cordoned then EvidenceNodeCordoned else EvidenceNodeUncordoned in
    let message := if cordoned then "node cordoned" else "node returned to service" in
    let message := if bool_decide (reason ≠ "") then message +:+ ": " +:+ reason else message in
    appendObservation disk now s ("operator:" +:+ operator) "" nodeID message
      (mkEvidence kind nodeID ("operator:" +:+ operator) now 0 (<["reason" := reason]> {["node" := nodeID]})).

Definition Cordon (disk : Disk) (now : time) (s : Server) (nodeID reason operator : string) : Server * result unit :=
  setCordon disk now s nodeID reason operator true.
Definition Uncordon (disk : Disk) (now : time) (s : Server) (nodeID operator : string) : Server * result unit :=
  setCordon disk now s nodeID "" operator false.

Definition reachability (id : string) (reachable : bool) (now : time) : Evidence :=
  mkEvidence (if reachable then EvidenceNodeReachable else EvidenceNodeUnreachable) id "controller" now 0
    {["node" := id]}.

(** The loop of [ObserveNodes] over the sorted ids of the world it started from. *)
Fixpoint observe_nodes (disks : nat → Disk) (now : nat → time) (world : World) (connected : list string)
    (ids : list string) (i : nat) (s : Server) : Server * result unit :=
  match ids with
  | [] => (s, Ok tt)
  | id :: ids =>
      let reachable := bool_decide (id ∈ connected) in
      match Nodes world !! id with
      | None => observe_nodes disks now world connected ids (S i) s
      | Some node =>
          if Bool.eqb (Node_Healthy node) reachable then observe_nodes disks now world connected ids (S i) s
          else match appendObservation (disks i) (now i) s "controller" "" id
                       (if reachable then "node is answering again" else "node stopped answering")
                       (reachability id reachable (now i)) with
               | (s, Err e) => (s, Err e)
               | (s, Ok _) => observe_nodes disks now world connected ids (S i) s
               end
      end
  end.

Definition ObserveNodes (disks : nat → Disk) (now : nat → time) (s : Server) (connected : list string)
    : Server * result unit :=
  let world := Server_World s in
  observe_nodes disks now world connected (sort_Strings (map_to_list (Nodes world)).*1) 0 s.

(** ** Reading history *)

Definition History (s : Server) : list LogRecord := match Server_log s with None => [] | Some f => Records f end.
Definition Server_Events (s : Server) : list Event := Rec_Event <$> History s.

Definition MaxRecordBatch : Z := 500.
Definition Server_Records (s : Server) (after limit : Z) : list LogRecord :=
  let limit := if (limit <=? 0) || (MaxRecordBatch <? limit) then MaxRecordBatch else limit in
  let records := History s in
  if len records <=? after then [] else take (Z.to_nat limit) (drop (Z.to_nat after) records).

Record HistoryQuery := mkHistoryQuery {
  Query_GoalID : string; Query_Target : string; Query_Kind : string; Query_Since : time; Query_Until : time;
  Query_Limit : Z }.

Definition EventType_String (t : EventType) : string :=
  match t with
  | EventGoalAccepted => "goal.accepted" | EventProposalCreated => "proposal.created"
  | EventProposalApproved => "proposal.approved" | EventProposalDenied => "proposal.denied"
  | EventActionDispatched => "action.dispatched" | EventActionCompleted => "action.completed"
  | EventObservationRecorded => "observation.recorded" | EventGoalAchieved => "goal.achieved"
  | EventGoalBlocked => "goal.blocked" | EventGoalCompensating => "goal.compensating"
  | EventOther text => text
  end.

Definition Query_Matches (q : HistoryQuery) (e : Event) : bool :=
  if bool_decide (Query_GoalID q ≠ "") && bool_decide (Event_GoalID e ≠ Query_GoalID q) then false
  else if bool_decide (Query_Target q ≠ "") && bool_decide (Event_Target e ≠ Query_Target q) &&
          match Event_Evidence e with None => true | Some ev => bool_decide (Ev_Target ev ≠ Query_Target q) end then false
  else if bool_decide (Query_Kind q ≠ "") && bool_decide (EventType_String (Event_Type e) ≠ Query_Kind q) &&
          bool_decide (Event_Kind e ≠ Query_Kind q) then false
  else if negb (IsZero (Query_Since q)) && Before (Event_At e) (Query_Since q) then false
  else if negb (IsZero (Query_Until q)) && After (Event_At e) (Query_Until q) then false
  else true.

Definition Query_Apply (q : HistoryQuery) (l : list Event) : list Event :=
  let matched := List.filter (Query_Matches q) l in
  if (0 <? Query_Limit q) && (Query_Limit q <? len matched)
  then drop (Z.to_nat (len matched - Query_Limit q)) matched else matched.

Definition Server_Query (s : Server) (q : HistoryQuery) : list Event :=
  match Server_log s with None => [] | Some f => Query_Apply q (Rec_Event <$> Records f) end.
End Operations.

(** ** Decisions survive *)

Section Facts.
Context {att : Attest} {grants : GrantCodec} {events : EventCodec} {digest : Digest} {anchors : AnchorCodec}
  {cidr : CIDRParser} {clock : WallClock} {elaws : EventCodecLaws events} {dlaws : DigestLaws digest}.
Implicit Types (s : Server) (w : World).

(** The history replays over the base; in [sync], to exactly the world the server holds. *)
Definition replays (base : World) s (evs : list Event) : Prop :=
  ∃ f w, Server_log s = Some f ∧ logged f evs ∧ projectAll base (evidence_of evs) = Ok w.
Definition sync (base : World) s (evs : list Event) : Prop :=
  ∃ f, Server_log s = Some f ∧ logged f evs ∧ projectAll base (evidence_of evs) = Ok (Server_World s).

Lemma sync_replays base s evs : sync base s evs → replays base s evs.
Proof. intros (f & H1 & H2 & H3). by exists f, (Server_World s). Qed.

(** The errors of a decision that was recorded but not witnessed. *)
Definition unwitnessed (r : result unit) : Prop := ∃ err, r = Err (Wrapf "witness operator decision: %w" err).

Lemma appendObservation_sync disk now base s evs actor goalID target message e s' r :
  sync base s evs → is_Ok (Project (Server_World s) e) →
  appendObservation disk now s actor goalID target message e = (s', r) →
  (∃ event, Event_Evidence event = Some e ∧ replays base s' (evs ++ [event]) ∧
     (r = Ok tt ∧ sync base s' (evs ++ [event]) ∧ Project (Server_World s) e = Ok (Server_World s') ∨
      unwitnessed r ∧ Server_World s' = Server_World s)) ∨
  (∃ err, r = Err (Wrapf "record observation: %w" err)) ∧ sync base s' evs ∧ Server_World s' = Server_World s.
Proof.
  intros (f & Hf & Hlog & Hw) Hp H. unfold appendObservation in H. rewrite Hf in H.
  set (event := observation_event f actor goalID target message e) in *.
  destruct (Append _ f event) as [f' [[]|err]] eqn:Ha.
  2: { injection H as <- <-. right. split; [by exists err|]. split; [|done].
       exists f'. split; [done|]. split; [by eapply logged_refused|done]. }
  destruct (Project (Server_World s) e) as [w'|] eqn:Hpe; [|done]. left. exists event. split; [done|].
  assert (logged f' (evs ++ [event])) as Hlog' by (by eapply logged_append).
  assert (projectAll base (evidence_of (evs ++ [event])) = Ok w') as Hall.
  { rewrite evidence_snoc. cbn. by eapply projectAll_snoc. }
  destruct (match Server_anchor _ with Some _ => _ | None => _ end) as [a [[]|err]] eqn:Ea.
  - unfold Projector_Project in H. simpl_set. unfold Server_World, Projector_World in Hpe. rewrite cloneWorld_id in Hpe.
    rewrite Hpe in H. injection H as <- <-.
    set (s1 := _ <| Server_projector := _ |>). assert (Server_World s1 = w') as Hs1 by apply cloneWorld_id.
    split; [by exists f', w'|]. left. rewrite Hs1. split; [done|]. split; [|done]. exists f'. by rewrite Hs1.
  - injection H as <- <-. split; [by exists f', w'|]. right. split; [by exists err|done].
Qed.

(** The evidence of every decision projects where the decision is taken. *)
Lemma grant_projects w g : sound_grant g → is_Ok (Project w (Grant_Evidence g)).
Proof.
  intros [Hid Hgoal Hscope _ _ _ _]. rewrite Project_stamp. unfold projectInto. cbn [Ev_Kind Grant_Evidence].
  unfold projectApprovalGranted. destruct (Grant_observed_fields g) as (-> & -> & _).
  cbn [Ev_Target Ev_ObservedAt Ev_ExpiresAt Grant_Evidence].
  rewrite (bool_decide_false (Grant_ID g = "")) by (intros E; by rewrite E in Hid).
  rewrite (bool_decide_false (Grant_GoalID g = "")) by (intros E; by rewrite E in Hgoal).
  rewrite (bool_decide_false (Grant_Scope g = "")) by (intros E; rewrite E in Hscope; by apply unnamed_scope in Hscope).
  by rewrite (bool_decide_false (Grant_Scope g ∉ ApprovalScopes)) by (intros H; by apply H).
Qed.

Lemma revocation_projects w g now : is_Ok (Project w (revocation g now)).
Proof. rewrite Project_stamp. unfold projectInto. cbn. unfold projectApprovalRevoked. by destruct (Approvals w !! _). Qed.

Lemma node_projects w e :
  Ev_Kind e ∈ [EvidenceNodeCordoned; EvidenceNodeUncordoned; EvidenceNodeReachable; EvidenceNodeUnreachable] →
  is_Some (Nodes w !! Ev_Target e) → is_Ok (Project w e).
Proof.
  intros Hk [n Hn]. rewrite Project_stamp. unfold projectInto.
  repeat (apply elem_of_cons in Hk as [Hk|Hk]); [..|by apply not_elem_of_nil in Hk];
    rewrite Hk; autounfold with project; by rewrite Hn.
Qed.

(** The operations by which an operator or the transport moves the world. *)
Inductive Decision :=
  | Approving (signed : SignedApproval)
  | Revoking (signed : SignedApproval)
  | Cordoning (nodeID reason operator : string)
  | Uncordoning (nodeID operator : string)
  | Observing (connected : list string).

Definition take_decision (disks : nat → Disk) (now : nat → time) s (d : Decision) : Server * result unit :=
  match d with
  | Approving signed => let '(s, r) := Approve (disks 0%nat) (now 0%nat) s signed in (s, let* _ := r in Ok tt)
  | Revoking signed => Revoke (disks 0%nat) (now 0%nat) s signed
  | Cordoning nodeID reason operator => Cordon (disks 0%nat) (now 0%nat) s nodeID reason operator
  | Uncordoning nodeID operator => Uncordon (disks 0%nat) (now 0%nat) s nodeID operator
  | Observing connected => ObserveNodes disks now s connected
  end.

(** What a decision leaves behind: a history that replays, and the world it replays to
    unless the anchor failed after the record was written. *)
Definition kept (base : World) (evs : list Event) s' (r : result unit) : Prop :=
  ∃ added, replays base s' (evs ++ added) ∧ (sync base s' (evs ++ added) ∨ unwitnessed r).

Lemma kept_same base s evs r : sync base s evs → kept base evs s r.
Proof. intros H. exists []. rewrite app_nil_r. auto using sync_replays. Qed.

Lemma appendObservation_kept disk now base s evs actor goalID target message e s' r :
  sync base s evs → is_Ok (Project (Server_World s) e) →
  appendObservation disk now s actor goalID target message e = (s', r) → kept base evs s' r.
Proof.
  intros Hs Hp H.
  destruct (appendObservation_sync _ _ _ _ _ _ _ _ _ _ _ _ Hs Hp H) as [(event & _ & Hr & [(_ & Hs' & _)|[Hu _]])|(_ & Hs' & _)].
  - exists [event]. auto.
  - exists [event]. auto.
  - by apply kept_same.
Qed.

Lemma health_keeps_nodes w id reachable now w' x :
  Project w (reachability id reachable now) = Ok w' → is_Some (Nodes w !! x) → is_Some (Nodes w' !! x).
Proof.
  intros (n & Hp & -> & _)%Project_inv Hx. unfold projectInto in Hp.
  assert (Ev_Kind (reachability id reachable now) = EvidenceNodeReachable ∨
          Ev_Kind (reachability id reachable now) = EvidenceNodeUnreachable) as [Hk|Hk] by (destruct reachable; auto).
  all: rewrite Hk in Hp; unfold projectNodeHealth in Hp; inv_ok Hp; subst n; unfold put_node; simpl_set.
  all: destruct (decide (x = id)) as [->|Hne]; [by simplify_map_eq|by rewrite lookup_insert_ne].
Qed.

Lemma observe_nodes_kept disks now world connected ids i base s evs s' r :
  sync base s evs → (∀ id, is_Some (Nodes world !! id) → is_Some (Nodes (Server_World s) !! id)) →
  observe_nodes disks now world connected ids i s = (s', r) → kept base evs s' r.
Proof.
  revert i s evs. induction ids as [|id ids IH]; intros i s evs Hs Hn H; cbn [observe_nodes] in H.
  { injection H as <- <-. by apply kept_same. }
  destruct (Nodes world !! id) as [node|] eqn:Hid; [|by eapply IH; [exact Hs|exact Hn|exact H]].
  destruct (Bool.eqb _ _); [by eapply IH; [exact Hs|exact Hn|exact H]|].
  set (e := reachability id (bool_decide (id ∈ connected)) (now i)) in *.
  assert (is_Ok (Project (Server_World s) e)) as Hp.
  { apply node_projects; [unfold e, reachability; cbn; destruct (bool_decide _); set_solver|]. apply (Hn id). by rewrite Hid. }
  destruct (appendObservation _ _ s _ _ _ _ e) as [s1 r1] eqn:Ha.
  destruct (appendObservation_sync _ _ _ _ _ _ _ _ _ _ _ _ Hs Hp Ha) as [(event & _ & Hr & [(-> & Hs1 & Hw)|[[err ->] _]])|([err ->] & Hs1 & _)].
  - destruct (IH (S i) s1 (evs ++ [event]) Hs1) as (added & Hrep & Hsync); [|done|].
    { intros x Hx. eapply health_keeps_nodes; [exact Hw|by apply Hn]. }
    exists (event :: added). by rewrite <-(assoc_L (++)) in *.
  - injection H as <- <-. exists [event]. split; [done|]. right. by exists err.
  - injection H as <- <-. by apply kept_same.
Qed.

Lemma setCordon_kept disk now base s evs nodeID reason operator cordoned s' r :
  sync base s evs → setCordon disk now s nodeID reason operator cordoned = (s', r) → kept base evs s' r.
Proof.
  intros Hs H. unfold setCordon in H. do 2 (destruct (bool_decide _); [injection H as <- <-; by apply kept_same|]).
  destruct (Nodes (Server_World s) !! nodeID) as [n|] eqn:Hn; [|injection H as <- <-; by apply kept_same].
  rewrite (bool_decide_false (Some n = None)) in H by done.
  eapply appendObservation_kept; [exact Hs| |exact H]. apply node_projects; [destruct cordoned; set_solver|].
  cbn [Ev_Target]. by rewrite Hn.
Qed.

(** What an operator or the transport decides is never lost and never makes the
    history unreadable.  From a server whose history replays to its world, whatever is
    approved, revoked, cordoned, returned or observed, and whatever the disk does, the
    history still verifies and replays over the same base; and it replays to exactly
    the world the server then holds, unless the record was written and only the anchor
    failed, which is reported. *)
Lemma take_decision_kept base s evs disks now d s' r :
  sync base s evs → take_decision disks now s d = (s', r) → kept base evs s' r.
Proof.
  intros Hs H. destruct d as [signed|signed|nodeID reason operator|nodeID operator|connected]; unfold take_decision in H.
  - unfold Approve in H. destruct (VerifyApproval _ _ _) as [g|] eqn:Hv; [|injection H as <- <-; by apply kept_same].
    destruct (bool_decide _); [injection H as <- <-; by apply kept_same|]. unfold recordDecision in H.
    destruct (appendObservation _ _ s _ _ _ _ _) as [s1 r1] eqn:Ha. injection H as <- <-.
    destruct (VerifyApproval_inv _ _ _ _ Hv) as (_ & _ & _ & Hg & _).
    assert (kept base evs s1 r1) as (added & Hrep & Hk) by (eapply appendObservation_kept; [exact Hs|by apply grant_projects|exact Ha]).
    exists added. split; [done|]. destruct Hk as [|[err ->]]; [by left|right]. by exists err.
  - unfold Revoke in H. destruct (VerifyApproval _ _ _) as [g|] eqn:Hv; [|injection H as <- <-; by apply kept_same].
    destruct (bool_decide _); [injection H as <- <-; by apply kept_same|].
    eapply appendObservation_kept; [exact Hs|apply revocation_projects|exact H].
  - by eapply setCordon_kept.
  - by eapply setCordon_kept.
  - unfold ObserveNodes in H. eapply observe_nodes_kept; [exact Hs| |exact H]. auto.
Qed.

(** ** Submitting goals *)

(** A goal is submitted against the whole world, and validation refuses a world that
    records an approval of any other goal.  Once one goal has been approved, no other can
    be submitted; and once two goals have, none can, not even those two again after a
    restart, for approvals stay on record when they expire or are revoked. *)
Theorem approval_blocks_other_goals s id a g
    (Ha : Approvals (Server_World s) !! id = Some a) (Hg : Approval_GoalID a ≠ Goal_ID g) :
  ∃ err, Submit s g = (s, Err err).
Proof.
  unfold Submit. destruct (NormalizeAndValidate _) as [[]|err] eqn:Hv; [exfalso|by eexists].
  unfold NormalizeAndValidate in Hv. inv_ok Hv.
  cbn [Scenario_World Scenario_Goal] in *.
  rewrite for_all_ok in Hv. specialize (Hv (id, a) ltac:(by apply elem_of_map_to_list)). cbn in Hv.
  unfold validate_approval in Hv. inv_ok Hv.
  repeat match goal with H : (_ || _)%bool = false |- _ => apply orb_false_iff in H as [? ?] end.
  match goal with H : bool_decide (Approval_GoalID a ≠ Goal_ID g) = false |- _ => apply bool_decide_eq_false in H; by apply H end.
Qed.

(** ** Revocation *)

Lemma VerifyApproval_later signed keys now now' g :
  VerifyApproval signed keys now = Ok g → now' < Grant_ExpiresAt g → VerifyApproval signed keys now' = Ok g.
Proof.
  intros H Hn. unfold VerifyApproval in *. destruct (bool_decide (keys = ∅)); [done|].
  destruct (keys !! _); [|done]. destruct (negb _); [done|]. destruct (base64_Decode _); [|done].
  destruct (negb _); [done|]. destruct (decode_grant _) as [|g'|g']; [done|..].
  all: inv_ok H; subst; cbn [rbind].
  all: unfold After; by rewrite (proj2 (Z.ltb_lt _ _)).
Qed.

Definition write_error (err : error) : Prop :=
  ∃ e, err = Wrapf "record observation: %w" e ∨ err = Wrapf "witness operator decision: %w" e.

Lemma appendObservation_world disk now s actor goalID target message e s' r :
  is_Some (Server_log s) → is_Ok (Project (Server_World s) e) →
  appendObservation disk now s actor goalID target message e = (s', r) →
  Server_operatorKeys s' = Server_operatorKeys s ∧ Server_goals s' = Server_goals s ∧ is_Some (Server_log s') ∧
  match r with Ok _ => Project (Server_World s) e = Ok (Server_World s') | Err err => write_error err end.
Proof.
  intros [f Hf] Hp H. unfold appendObservation in H. rewrite Hf in H.
  destruct (Append _ f _) as [f' [[]|err]]; [|injection H as <- <-; split_and!; [done|done|by eexists|by exists err; left]].
  destruct (match Server_anchor _ with Some _ => _ | None => _ end) as [a [[]|err]];
    [|injection H as <- <-; split_and!; [done|done|by eexists|by exists err; right]].
  unfold Projector_Project in H. simpl_set. unfold Server_World, Projector_World in Hp |- *. rewrite cloneWorld_id in Hp |- *.
  destruct (Project (Projector_world (Server_projector s)) e) as [w'|]; [|done]. injection H as <- <-.
  split_and!; [done|done|by eexists|]. simpl_set. by rewrite cloneWorld_id.
Qed.

(** A revoked decision comes back.  After a grant was approved and then revoked, the
    same signed bytes, which anyone who saw them can send again, are approved once more
    as long as the grant has not expired: nothing looks at whether that grant was
    withdrawn, and it stands again exactly as first issued. *)
Theorem revoked_grant_returns d1 d2 d3 n1 n2 n3 s signed s1 g s2
    (Hlog : is_Some (Server_log s)) (Hr : 0 <= Grant_Revision g <= int_max)
    (H1 : Approve d1 n1 s signed = (s1, Ok g)) (H2 : Revoke d2 n2 s1 signed = (s2, Ok tt))
    (Hlive : n3 < Grant_ExpiresAt g) :
  Approvals (Server_World s2) !! Grant_ID g = Some ((Grant_Approval g) <| Approval_Granted := false |>) ∧
  match Approve d3 n3 s2 signed with
  | (s3, Ok g') => g' = g ∧ Approvals (Server_World s3) !! Grant_ID g = Some (Grant_Approval g)
  | (_, Err err) => write_error err
  end.
Proof.
  unfold Approve in H1. destruct (VerifyApproval signed (Server_operatorKeys s) n1) as [g1|] eqn:Hv; [|done].
  destruct (VerifyApproval_inv _ _ _ _ Hv) as (_ & _ & _ & Hg & _).
  case_bool_decide as Hgoal; [done|]. unfold recordDecision in H1.
  destruct (appendObservation d1 n1 s _ _ _ _ _) as [s1' r1] eqn:Ha1. injection H1 as -> Hr1.
  destruct r1 as [[]|]; [cbn in Hr1; injection Hr1 as <-|done].
  destruct (appendObservation_world _ _ _ _ _ _ _ _ _ _ Hlog (grant_projects _ _ Hg) Ha1) as (Hk1 & Hg1 & Hl1 & Hw1).
  assert (Approvals (Server_World s1) !! Grant_ID g1 = Some (Grant_Approval g1)) as Hap1.
  { rewrite Project_grant in Hw1 by done. apply Ok_inj in Hw1. rewrite <-Hw1. unfold stamp. simpl_set. by simplify_map_eq. }
  unfold Revoke in H2. rewrite Hk1 in H2.
  destruct (VerifyApproval signed (Server_operatorKeys s) n2) as [g2|] eqn:Hv2; [|done].
  assert (g2 = g1) as ->.
  { destruct (VerifyApproval_inv _ _ _ _ Hv2) as (_ & Hd2 & _), (VerifyApproval_inv _ _ _ _ Hv) as (_ & Hd1 & _).
    destruct Hd1 as [Hd1|Hd1], Hd2 as [Hd2|Hd2]; rewrite Hd1 in Hd2; congruence. }
  rewrite Hap1, bool_decide_false in H2 by done. unfold recordDecision in H2.
  destruct (appendObservation_world _ _ _ _ _ _ _ _ _ _ Hl1 (revocation_projects _ _ _) H2) as (Hk2 & Hg2 & Hl2 & Hw2).
  split.
  - rewrite (Project_approvals _ _ _ (Grant_ID g1) Hw2). unfold about_approval, revocation. cbn [Ev_Target Ev_Kind].
    rewrite bool_decide_true by done. rewrite Hap1. done.
  - unfold Approve. rewrite Hk2, Hk1, (VerifyApproval_later _ _ _ _ _ Hv Hlive), Hg2, Hg1.
    rewrite bool_decide_false by done. unfold recordDecision.
    destruct (appendObservation d3 n3 s2 _ _ _ _ _) as [s3 r3] eqn:Ha3.
    destruct (appendObservation_world _ _ _ _ _ _ _ _ _ _ Hl2 (grant_projects _ _ Hg) Ha3) as (_ & _ & _ & Hw3).
    destruct r3 as [[]|err]; cbn [rbind]; [|exact Hw3]. split; [done|].
    rewrite Project_grant in Hw3 by done. apply Ok_inj in Hw3. rewrite <-Hw3. unfold stamp. simpl_set. by simplify_map_eq.
Qed.
End Facts.

(** ** A sample: one decision approved, revoked and sent again *)

Module ServerSample.
#[local] Existing Instances KeySample.sample_attest ApprovalSample.sample_grants ApprovalSample.sample_clock.
#[local] Instance server_cidr : CIDRParser := λ _, None.
#[local] Instance server_anchors : AnchorCodec := {| encode_anchor _ := None; decode_anchor _ := None |}.

Definition counting (n : Z) : File := mkFile None LogRecord_zero n.
Definition decision_event (n : Z) (message : string) (e : Evidence) : Event :=
  observation_event (counting (n - 1)) "operator:ada" "g1" "a1" message e.
Definition minutes (n : Z) : time := ApprovalSample.today + n * Minute.
Definition minutes_from (i : nat) : time := minutes (1 + Z.of_nat i).
Definition decision_events : list Event :=
  [decision_event 1 "approval granted: public-route" (Grant_Evidence ApprovalSample.grant_now);
   decision_event 2 "approval revoked: public-route" (revocation ApprovalSample.grant_now (minutes 2));
   decision_event 3 "approval granted: public-route" (Grant_Evidence ApprovalSample.grant_now)].
#[local] Instance decision_codec : EventCodec := {|
  marshal e := (λ '(i, _), Sprint (Z.of_nat i)) <$> list_find (λ x, x = e) decision_events;
  unmarshal s := match s with
                 | "0" => decision_events !! 0%nat | "1" => decision_events !! 1%nat | "2" => decision_events !! 2%nat
                 | _ => None
                 end |}.
#[local] Instance decision_digest : Digest := λ s,
  String.concat "" (replicate 63 "a") +:+
  match String.substring (String.length s - 1) 1 s with "0" => "b" | "1" => "c" | "2" => "d" | _ => "e" end.
Lemma decision_codec_laws : EventCodecLaws decision_codec.
Proof.
  intros e s H. cbn [marshal unmarshal decision_codec] in *. apply fmap_Some in H as ([i x] & Hf & ->).
  apply list_find_Some in Hf as (Hi & -> & _).
  destruct i as [|[|[|i]]]; [..|by apply lookup_lt_Some in Hi; cbn in Hi; lia].
  all: change (Sprint _) with (Sprint 0) || change (Sprint _) with (Sprint 1) || change (Sprint _) with (Sprint 2).
  all: exact Hi.
Qed.
Lemma decision_digest_laws : DigestLaws decision_digest.
Proof. split; intros s; unfold digestOf, decision_digest; by repeat case_match. Qed.

Definition sample_goal (id : string) : Goal :=
  mkGoal "a4s.io/v1alpha1" id "serve the site"
    (mkWorkloadSpec "web" "web@sha256:1" 1 8080 (mkResources 500 256) false false [] [] "" None None None None None)
    None (mkConstraints ∅ []) None.
Definition sound_disk : Disk := mkDisk true None.
Definition new_log : File := mkFile (Some fresh_database) (mkLogRecord 0 "" "" Event_zero) 0.
Definition server0 : Server :=
  mkServer (Some new_log) (mkProjector ApprovalSample.small_world ApprovalSample.small_world) NewLeaseManager 12
    {["g1" := sample_goal "g1"]} ApprovalSample.operator_keys None DefaultPolicy.
Definition approved : Server := (Approve sound_disk (minutes 1) server0 (ApprovalSample.signed_grant "now")).1.
Definition revoked : Server := (Revoke sound_disk (minutes 2) approved (ApprovalSample.signed_grant "now")).1.
Definition approved_again : Server := (Approve sound_disk (minutes 3) revoked (ApprovalSample.signed_grant "now")).1.

Lemma server0_sync : sync ApprovalSample.small_world server0 [].
Proof. exists new_log. split; [reflexivity|]. split; [by apply logged_open|]. vm_compute. reflexivity. Qed.

Lemma approval_blocks_other_goals_witness : ∃ err, Submit approved (sample_goal "g2") = (approved, Err err).
Proof.
  refine (approval_blocks_other_goals approved "a1" (Grant_Approval ApprovalSample.grant_now) (sample_goal "g2") _ _).
  - vm_compute. reflexivity.
  - vm_compute. discriminate.
Defined.

Lemma revoked_grant_returns_witness :
  Approve sound_disk (minutes 3) revoked (ApprovalSample.signed_grant "now") = (approved_again, Ok ApprovalSample.grant_now) ∧
  Approvals (Server_World revoked) !! Grant_ID ApprovalSample.grant_now = Some ((Grant_Approval ApprovalSample.grant_now) <| Approval_Granted := false |>).
Proof.
  split; [vm_compute; reflexivity|].
  assert (Approve sound_disk (minutes 1) server0 (ApprovalSample.signed_grant "now") = (approved, Ok ApprovalSample.grant_now))
    as H1 by (vm_compute; reflexivity).
  assert (Revoke sound_disk (minutes 2) approved (ApprovalSample.signed_grant "now") = (revoked, Ok tt))
    as H2 by (vm_compute; reflexivity).
  assert (0 <= Grant_Revision ApprovalSample.grant_now <= int_max) as Hr by (split; apply Z.leb_le; vm_compute; reflexivity).
  assert (minutes 3 < Grant_ExpiresAt ApprovalSample.grant_now) as H3 by (apply Z.ltb_lt; vm_compute; reflexivity).
  assert (is_Some (Server_log server0)) as Hl by (by eexists).
  destruct (revoked_grant_returns sound_disk sound_disk sound_disk (minutes 1) (minutes 2) (minutes 3) server0
    (ApprovalSample.signed_grant "now") approved ApprovalSample.grant_now revoked Hl Hr H1 H2 H3) as [H _].
  exact H.
Defined.
End ServerSample.
