(* ===== verification/Standby.v ===== *)
(** * Promotion of a standby (src/server/standby.go)

    A follower over its own copy of the event log, which may take over only when its
    copy verifies and is not behind what the primary's anchor witnessed. *)

From S2P Require Import Prelude Types Text Clone Projection History Executor EventLog Durable Provenance Kernel Engine Directory NetPolicy Validate Keys Approvals Anchor Server.
Open Scope Z_scope.

(** [Standby]; [Standby_log] is [None] once closed. *)
Record Standby := mkStandby { Standby_config : Config; Standby_log : option File; Standby_anchor : Anchor }.

Section Operations.
Context {events : EventCodec} {digest : Digest} {anchors : AnchorCodec}.

Definition OpenStandby (config : Config) (db : Database) (anchor_lines : list string) : result Standby :=
  refuse (bool_decide (Config_EventLog config = "")) "standby requires an event log path";
  refuse (bool_decide (Config_Anchor config = "")) "standby requires an anchor: without one it cannot prove it is caught up";
  let* log := EventLog.Open db in
  let* anchor := OpenAnchor anchor_lines in
  Ok (mkStandby config (Some log) anchor).

Definition Standby_Close (s : Standby) : Standby := mkStandby (Standby_config s) None (Standby_anchor s).

Definition Standby_Ingest (commits : bool) (s : Standby) (records : list LogRecord) : Standby * Z * result unit :=
  match Standby_log s with
  | None => (s, 0, Err (Errorf "standby is closed"))
  | Some f => let '(f, n, r) := Ingest commits f 0 records in (mkStandby (Standby_config s) (Some f) (Standby_anchor s), n, r)
  end.

Definition Standby_Head (s : Standby) : LogRecord := match Standby_log s with None => LogRecord_zero | Some f => Head f end.

Definition Behind (s : Standby) (primary : LogRecord) : Z :=
  if Rec_Sequence primary <=? Rec_Sequence (Standby_Head s) then 0
  else u64 (Rec_Sequence primary - Rec_Sequence (Standby_Head s)).

(** [Promote]: the follower lets go of its log, and the server opens the same files.
    The anchor the server opens is the file as it is then, [anchor_lines]. *)
Definition Promote (s : Standby) (anchor_lines : list string) (disk : Disk) (now : time) : Standby * result Server :=
  match Standby_log s with
  | None => (s, Err (Errorf "standby is closed"))
  | Some f =>
      match Verify f with
      | Err e => (s, Err (Wrapf "standby refuses to promote: %w" e))
      | Ok _ =>
          let witnessed := Anchor_Last (Standby_anchor s) in
          if Rec_Sequence (Head f) <? Anchor_Sequence witnessed
          then (s, Err (Errorf "standby refuses to promote: it holds %d records but %d were witnessed; it is behind the primary"))
          else match Check (Standby_anchor s) f with
               | Err e => (s, Err (Wrapf "standby refuses to promote: %w" e))
               | Ok _ =>
                   let released := mkStandby (Standby_config s) None (Standby_anchor s) in
                   match file_db f with
                   | None => (released, Err (Errorf "release standby log: %w"))
                   | Some db => (released, wrap_err "promote standby: %w" (Server_Open (Standby_config s) db anchor_lines disk now))
                   end
               end
      end
  end.
End Operations.

Section Promotion.
Context {events : EventCodec} {digest : Digest} {anchors : AnchorCodec}
  {elaws : EventCodecLaws events} {dlaws : DigestLaws digest}.

Lemma logged_head f evs :
  logged f evs → len evs < two64 →
  ∃ records, readRecords f = Ok records ∧ verifyChain records = Ok tt ∧ Rec_Event <$> records = evs ∧
    Rec_Sequence (Head f) = len records ∧ Rec_Hash (Head f) = record_tip "" records.
Proof.
  intros Hlog Hn. destruct (logged_represents f evs Hlog Hn) as (db & Hdb & Hc & _ & Hs & Hh & _).
  destruct (chained_scan "" 0 evs (db_records db) [] Hc Hn) as (records & Hrun & Hev & Hhash & Hver).
  exists records. split; [unfold readRecords, scan_rows; by rewrite Hdb|]. split; [done|]. split; [done|]. split.
  - unfold Head. rewrite Hs, <-Hev. unfold len. by rewrite length_fmap.
  - unfold Head. rewrite Hh. unfold record_tip, tip.
    assert (last (Rec_Hash <$> records) = last (Row_Hash <$> db_records db)) as Hl by (by rewrite Hhash).
    rewrite !fmap_last in Hl. destruct (last records), (last (db_records db)); cbn in Hl; congruence.
Qed.

(** C20: authority passes only to a copy that has everything.  Let [l] be the primary's
    history up to the head its anchor witnessed.  A standby that is promoted, having
    followed by whatever batches, holds exactly that history and possibly more, record
    by record, unless two of the texts the two histories link collide; and the server it becomes
    starts from the world that history replays to. *)
Theorem promotion_loses_nothing s l f evs anchor_lines disk now s' server
    (Hl : verifyChain l = Ok tt) (Hne : l ≠ [])
    (Hseq : Anchor_Sequence (anchor_last (Standby_anchor s)) = len l)
    (Hhash : Anchor_Hash (anchor_last (Standby_anchor s)) = record_tip "" l)
    (Hf : Standby_log s = Some f) (Hlog : logged f evs) (Hn : len evs < two64)
    (H : Promote s anchor_lines disk now = (s', Ok server)) :
  ((Rec_Event <$> l) `prefix_of` evs ∨ collision (chain_texts l ++ chain_texts (Records f))) ∧
  projectAll (Config_Base (Standby_config s)) (evidence_of evs) = Ok (Server_World server) ∧ Standby_log s' = None.
Proof.
  destruct (logged_head f evs Hlog Hn) as (records & Hr & Hv & Hev & Hs & Hh).
  assert (len records = len evs) as Hlen by (unfold len; by rewrite <-Hev, length_fmap).
  unfold Promote in H. rewrite Hf in H. destruct (Verify f) as [[]|]; [|done]. destruct (_ <? _); [done|].
  destruct (Check (Standby_anchor s) f) as [[]|] eqn:Hc; [|done].
  destruct (file_db f) as [db|] eqn:Hdb; [|done]. injection H as <- H. split.
  - destruct (Check_prefix _ l f records Hl Hne Hseq Hhash Hr Hv ltac:(lia) Hs (or_intror Hh) Hc) as [[more Hp]|]; [left|right; unfold Records; by rewrite Hr].
    exists (Rec_Event <$> more). by rewrite <-Hev, Hp, fmap_app.
  - split; [|done]. destruct (Server_Open _ _ _ _ _) as [server'|] eqn:Ho; [|done]. injection H as ->.
    unfold Server_Open in Ho. inv_ok Ho. subst server. unfold Server_World. cbn [Server_projector].
    match goal with H : EventLog.Open db = Ok ?g |- _ => rename g into f'; rename H into Hopen end.
    destruct (log_reads f' evs ltac:(by eapply logged_restart) Hn) as (_ & _ & Hre).
    match goal with H : wrap_err _ (NewDurableProjector _ _) = Ok _ |- _ => rename H into Hnew end.
    unfold NewDurableProjector in Hnew. rewrite Hre in Hnew. cbn [wrap_err rbind Projector_world Projector_base] in Hnew.
    rewrite cloneWorld_id in Hnew. fold (evidence_of evs) in Hnew.
    destruct (replay_over _ _) as [w|] eqn:Ew; [|done]. injection Hnew as <-.
    unfold Projector_World. cbn [Projector_world]. rewrite cloneWorld_id. by apply replay_over_ok.
Qed.
End Promotion.

(** ** A sample: a follower that holds the witnessed record *)

Module StandbySample.
#[local] Existing Instances AnchorSample.sample_events AnchorSample.sample_digest AnchorSample.sample_codec.

Definition standby_config : Config :=
  mkConfig "/var/lib/a4s/events.db" ApprovalSample.small_world 0 ApprovalSample.operator_keys "/mnt/anchor" ∅ false
    (mkResources 0 0) 0 Budget_zero.
Definition follower : File := AnchorSample.opened AnchorSample.genuine.
Definition standby : Standby := mkStandby standby_config (Some follower) AnchorSample.sample_anchor.
Definition promoted : Standby * result Server := Promote standby ["{1}"] (mkDisk true None) 9.

Lemma follower_logged : logged follower [AnchorSample.first_event "op"].
Proof.
  set (log0 := mkFile (Some fresh_database) (mkLogRecord 0 "" "" Event_zero) 0).
  apply (logged_restart (Append true log0 (AnchorSample.first_event "op")).1 _ AnchorSample.genuine).
  - apply (logged_append log0 [] true (AnchorSample.first_event "op")); [by apply logged_open|vm_compute; reflexivity].
  - vm_compute. reflexivity.
  - vm_compute. reflexivity.
Qed.

Lemma promotion_loses_nothing_witness :
  ∃ server, promoted.2 = Ok server ∧
  projectAll ApprovalSample.small_world (evidence_of [AnchorSample.first_event "op"]) = Ok (Server_World server).
Proof.
  destruct promoted.2 as [server|e] eqn:Hp; [|vm_compute in Hp; discriminate]. exists server. split; [reflexivity|].
  refine (proj1 (proj2 (@promotion_loses_nothing _ _ _ AnchorSample.sample_events_laws AnchorSample.sample_digest_laws
    standby (Records follower) follower [AnchorSample.first_event "op"] ["{1}"] (mkDisk true None) 9 promoted.1 server
    _ _ _ _ _ follower_logged _ _))).
  - vm_compute. reflexivity.
  - vm_compute. discriminate.
  - vm_compute. reflexivity.
  - vm_compute. reflexivity.
  - reflexivity.
  - apply Z.ltb_lt. vm_compute. reflexivity.
  - rewrite <-Hp. apply surjective_pairing.
Defined.
End StandbySample.
