(* ===== verification/Supervise.v ===== *)
(** * Node-local intent and supervision (src/node/desired.go, supervisor.go)

    What the server last authorized on this node, and the supervisor that keeps it true
    while the server is away.  The intent file is rewritten as a whole or not at all;
    whether a rewrite reaches the disk is an argument of the operations that attempt one.
    The container runtime is code outside the component: its answers are arguments. *)

From S2P Require Import Prelude Types Text Engine WorkQueue.
Open Scope Z_scope.

(** ** Desired state *)

Record DesiredAllocation := mkDesiredAllocation {
  Desired_ID : string; Desired_Workload : string; Desired_Image : string; Desired_Resources : Resources;
  Desired_Running : bool; Desired_Probe : ProbeTarget; Desired_Volumes : list VolumeRef; Desired_Restarts : Z;
  Desired_UpdatedAt : time }.
#[export] Instance eta_DesiredAllocation : Eta DesiredAllocation := λ r,
  mkDesiredAllocation (Desired_ID r) (Desired_Workload r) (Desired_Image r) (Desired_Resources r) (Desired_Running r)
    (Desired_Probe r) (Desired_Volumes r) (Desired_Restarts r) (Desired_UpdatedAt r).

Class DesiredCodec := {
  encode_desired : DesiredAllocation → string; decode_desired : string → option DesiredAllocation }.
Class DesiredCodecLaws (codec : DesiredCodec) : Prop :=
  decode_encode_desired : ∀ e, decode_desired (encode_desired e) = Some e.

Record DesiredState := mkDesiredState { entries : gmap string DesiredAllocation; desired_disk : list string }.

Section Desired.
Context {codec : DesiredCodec}.

Definition load_entry (m : gmap string DesiredAllocation) (line : string) : result (gmap string DesiredAllocation) :=
  need entry := decode_desired line else "decode desired state line %d: %w";
  refuse (bool_decide (Desired_ID entry = "")) "desired state line %d has no allocation id";
  Ok (<[Desired_ID entry := entry]> m).

Definition OpenDesiredState (file : list string) : result DesiredState :=
  let* m := for_each load_entry ∅ file in
  Ok (mkDesiredState m file).

Definition sorted_ids (m : gmap string DesiredAllocation) : list string := sort_Strings (map_to_list m).*1.
Definition desired_lines (m : gmap string DesiredAllocation) : list string :=
  omap (λ id, encode_desired <$> m !! id) (sorted_ids m).

(** [persist], after the entries changed to [m]: in memory they change either way. *)
Definition desired_persist (written : bool) (s : DesiredState) (m : gmap string DesiredAllocation)
    : DesiredState * result unit :=
  if written then (mkDesiredState m (desired_lines m), Ok tt)
  else (mkDesiredState m (desired_disk s), Err (Errorf "write desired state: %w")).

Definition Record_ (written : bool) (s : DesiredState) (entry : DesiredAllocation) : DesiredState * result unit :=
  if bool_decide (Desired_ID entry = "") then (s, Err (Errorf "desired allocation requires an id"))
  else
    let entry := match entries s !! Desired_ID entry with
                 | Some existing => entry <| Desired_Restarts := Desired_Restarts existing |>
                 | None => entry
                 end in
    desired_persist written s (<[Desired_ID entry := entry]> (entries s)).

Definition Forget (written : bool) (s : DesiredState) (id : string) : DesiredState * result unit :=
  match entries s !! id with
  | None => (s, Ok tt)
  | Some _ => desired_persist written s (delete id (entries s))
  end.

Definition SetRunning (written : bool) (now : time) (s : DesiredState) (id : string) (running : bool)
    : DesiredState * result unit :=
  match entries s !! id with
  | None => (s, Ok tt)
  | Some entry =>
      desired_persist written s
        (<[id := entry <| Desired_Running := running |> <| Desired_UpdatedAt := now |>]> (entries s))
  end.

Definition AddVolume (written : bool) (now : time) (s : DesiredState) (id : string) (ref : VolumeRef)
    : DesiredState * result unit :=
  match entries s !! id with
  | None => (s, Ok tt)
  | Some entry =>
      if existsb (λ existing, bool_decide (VolumeRef_Name existing = VolumeRef_Name ref)) (Desired_Volumes entry)
      then (s, Ok tt)
      else desired_persist written s
             (<[id := entry <| Desired_Volumes ::= λ l, l ++ [ref] |> <| Desired_UpdatedAt := now |>]> (entries s))
  end.

Definition recordRestart (written : bool) (now : time) (s : DesiredState) (id : string) : DesiredState * result unit :=
  match entries s !! id with
  | None => (s, Ok tt)
  | Some entry =>
      desired_persist written s
        (<[id := entry <| Desired_Restarts ::= λ n, i64 (n + 1) |> <| Desired_UpdatedAt := now |>]> (entries s))
  end.

Definition Desired_List (s : DesiredState) : list DesiredAllocation := omap (λ id, entries s !! id) (sorted_ids (entries s)).
Definition Desired_Get (s : DesiredState) (id : string) : option DesiredAllocation := entries s !! id.

(** [probeKindFor] and [recordDesired] (src/node/dispatcher.go), for a node that keeps
    desired state. *)
Definition probeKindFor (port : Z) : string := if 0 <? port then ProbeTCP else ProbeProcess.

Definition recordDesired (written : bool) (now : time) (s : DesiredState) (a : Action) : DesiredState * result unit :=
  match Action_Kind a with
  | ActionCreateAllocation =>
      Record_ written s
        (mkDesiredAllocation (Action_Target a) (Action_Workload a) (Action_Image a) (Action_Resources a) false
           (mkProbeTarget (Action_Target a) (probeKindFor (Action_Port a)) (Action_Port a) "" "" "" "" "") [] 0 now)
  | ActionAttachVolume =>
      match Action_Volume a with None => (s, Ok tt) | Some ref => AddVolume written now s (Action_Target a) ref end
  | ActionStartAllocation => SetRunning written now s (Action_Target a) true
  | ActionStopAllocation => SetRunning written now s (Action_Target a) false
  | ActionDeleteAllocation => Forget written s (Action_Target a)
  | _ => (s, Ok tt)
  end.
End Desired.

(** ** Restarting *)

Definition DefaultMaxRestarts : Z := 5.
Definition DefaultRestartWindow : duration := 10 * Minute.
Definition DefaultBackoff : duration := 5 * Second.
Definition DefaultMaxBackoff : duration := 2 * Minute.

Record restartHistory := mkRestartHistory {
  restart_count : Z; restart_windowStart : time; restart_nextAttempt : time; restart_trippedAt : time }.

(** The limits of a [Supervisor]. *)
Record Limits := mkLimits {
  MaxRestarts : Z; RestartWindow : duration; Backoff_base : duration; MaxBackoff_ : duration }.

(** The loop of [backoff], which runs [attempt - 1] times at most. *)
Fixpoint restart_delay (n : nat) (delay maximum : duration) : duration :=
  match n with
  | O => delay
  | S n => if delay <? maximum then restart_delay n (i64 (delay * 2)) maximum else delay
  end.

Definition restart_backoff (l : Limits) (attempt : Z) : duration :=
  let base := if Backoff_base l <? 0 then DefaultBackoff else Backoff_base l in
  if base =? 0 then 0
  else
    let maximum := if MaxBackoff_ l <=? 0 then DefaultMaxBackoff else MaxBackoff_ l in
    let delay := restart_delay (Z.to_nat (attempt - 1)) base maximum in
    if maximum <? delay then maximum else delay.

Definition effective_restarts (l : Limits) : Z := if MaxRestarts l <=? 0 then DefaultMaxRestarts else MaxRestarts l.
Definition effective_restart_window (l : Limits) : duration :=
  if RestartWindow l <=? 0 then DefaultRestartWindow else RestartWindow l.

(** [allowRestart] on the history of one allocation. *)
Definition allowRestart (l : Limits) (h : option restartHistory) (now : time) : restartHistory * bool :=
  match h with
  | None => (mkRestartHistory 1 now (time_Add now (restart_backoff l 1)) 0, true)
  | Some h =>
      if effective_restart_window l <? time_Sub now (restart_windowStart h)
      then (mkRestartHistory 1 now (time_Add now (restart_backoff l 1)) 0, true)
      else if effective_restarts l <=? restart_count h
      then (mkRestartHistory (restart_count h) (restart_windowStart h) (restart_nextAttempt h)
              (if IsZero (restart_trippedAt h) then now else restart_trippedAt h), false)
      else if Before now (restart_nextAttempt h) then (h, false)
      else let count := i64 (restart_count h + 1) in
           (mkRestartHistory count (restart_windowStart h) (time_Add now (restart_backoff l count)) (restart_trippedAt h), true)
  end.

(** What the container runtime reports of one allocation. *)
Record BackendState := mkBackendState { Backend_Exists : bool; Backend_Running : bool; Backend_PID : Z; Backend_ExitCode : Z }.

Record Supervisor := mkSupervisor {
  Supervisor_limits : Limits; Supervisor_history : gmap string restartHistory; Supervisor_desired : DesiredState }.

Definition failure (entry : DesiredAllocation) (st : BackendState) (reason : string) (now : time) : Evidence :=
  mkEvidence EvidenceAllocationFailed (Desired_ID entry) "node-supervisor" now 0
    (<["reason" := reason]> (<["restarts" := Sprint (Desired_Restarts entry)]> {["exit_code" := Sprint (Backend_ExitCode st)]})).

Definition restarted (entry : DesiredAllocation) (st : BackendState) (now : time) : Evidence :=
  mkEvidence EvidenceAllocationRunning (Desired_ID entry) "node-supervisor" now 0
    (<["exit_code" := Sprint (Backend_ExitCode st)]> {["restarted" := "true"]}).

(** [reconcileOne]: what the runtime answers to the inspection ([inspect]) and to a start
    ([start], the error text if it fails), whether the agent is out of budget, the spend
    report if there is one, and whether the intent file can be rewritten.  The clock is read for
    the restart decision, again for a failure report and again for the restart on file;
    the number of starts asked of the runtime is part of the answer. *)
Definition reconcileOne {codec : DesiredCodec} (inspect : result BackendState) (start : option string) (exhausted : bool)
    (spend : option Evidence) (written : bool) (clock : nat → time) (s : Supervisor) (entry : DesiredAllocation)
    : Supervisor * nat * result (list Evidence) :=
  match inspect with
  | Err e => (s, O, Err (Wrapf "inspect %q: %w" e))
  | Ok st =>
      let observations := match spend with Some e => [e] | None => [] end in
      if negb (Desired_Running entry) then (s, O, Ok observations)
      else if Backend_Running st then (s, O, Ok observations)
      else if negb (Backend_Exists st) then (s, O, Ok (observations ++ [failure entry st "container is absent" (clock 1%nat)]))
      else if exhausted then (s, O, Ok (observations ++ [failure entry st "agent budget exhausted" (clock 1%nat)]))
      else
        let '(h, allowed) := allowRestart (Supervisor_limits s) (Supervisor_history s !! Desired_ID entry) (clock 0%nat) in
        let s := mkSupervisor (Supervisor_limits s) (<[Desired_ID entry := h]> (Supervisor_history s)) (Supervisor_desired s) in
        if negb allowed then (s, O, Ok (observations ++ [failure entry st "restart budget exhausted" (clock 1%nat)]))
        else match start with
             | Some text => (s, 1%nat, Ok (observations ++ [failure entry st ("restart failed: " +:+ text) (clock 1%nat)]))
             | None =>
                 match recordRestart written (clock 2%nat) (Supervisor_desired s) (Desired_ID entry) with
                 | (d, Err e) => (mkSupervisor (Supervisor_limits s) (Supervisor_history s) d, 1%nat, Err e)
                 | (d, Ok _) => (mkSupervisor (Supervisor_limits s) (Supervisor_history s) d, 1%nat,
                                 Ok (observations ++ [restarted entry st (clock 0%nat)]))
                 end
             end
  end.

(** ** The node remembers its orders *)

Section DesiredFacts.
Context {codec : DesiredCodec} {laws : DesiredCodecLaws codec}.
Implicit Types (m : gmap string DesiredAllocation) (id : string).

(** What the server's orders come to, read off the orders alone: for each allocation the
    workload, image and resources of its creation, the volumes attached since, and
    whether it is to run. *)
Record Order := mkOrder {
  Order_Workload : string; Order_Image : string; Order_Resources : Resources; Order_Volumes : list string;
  Order_Running : bool }.

Definition obey (o : option Order) (a : Action) : option Order :=
  match Action_Kind a with
  | ActionCreateAllocation => Some (mkOrder (Action_Workload a) (Action_Image a) (Action_Resources a) [] false)
  | ActionAttachVolume =>
      match o, Action_Volume a with
      | Some o, Some ref =>
          Some (mkOrder (Order_Workload o) (Order_Image o) (Order_Resources o)
                  (if bool_decide (VolumeRef_Name ref ∈ Order_Volumes o) then Order_Volumes o
                   else Order_Volumes o ++ [VolumeRef_Name ref]) (Order_Running o))
      | _, _ => o
      end
  | ActionStartAllocation => (λ o, mkOrder (Order_Workload o) (Order_Image o) (Order_Resources o) (Order_Volumes o) true) <$> o
  | ActionStopAllocation => (λ o, mkOrder (Order_Workload o) (Order_Image o) (Order_Resources o) (Order_Volumes o) false) <$> o
  | ActionDeleteAllocation => None
  | _ => o
  end.
Definition ordered (id : string) (l : list Action) : option Order :=
  foldl (λ o a, if bool_decide (Action_Target a = id) then obey o a else o) None l.

Definition order_of (e : DesiredAllocation) : Order :=
  mkOrder (Desired_Workload e) (Desired_Image e) (Desired_Resources e) (VolumeRef_Name <$> Desired_Volumes e) (Desired_Running e).

(** Every entry is filed under its own, non-empty id. *)
Definition filed m : Prop := ∀ id e, m !! id = Some e → Desired_ID e = id ∧ id ≠ "".

Lemma filed_insert m id e : filed m → Desired_ID e = id → id ≠ "" → filed (<[id := e]> m).
Proof. intros H He Hid id' e' [[<- <-]|[_ H']]%lookup_insert_Some; [done|by apply H]. Qed.
Lemma filed_delete m id : filed m → filed (delete id m).
Proof. intros H id' e' [_ H']%lookup_delete_Some. by apply H. Qed.

Lemma persist_entries written s m : entries (desired_persist written s m).1 = m.
Proof. by destruct written. Qed.

Lemma volume_known (l : list VolumeRef) (ref : VolumeRef) :
  existsb (λ x, bool_decide (VolumeRef_Name x = VolumeRef_Name ref)) l = bool_decide (VolumeRef_Name ref ∈ (VolumeRef_Name <$> l)).
Proof.
  apply eq_true_iff_eq. rewrite existsb_exists, bool_decide_eq_true, list_elem_of_fmap.
  setoid_rewrite list_elem_of_In. split; intros (x & H1 & H2); exists x; [apply bool_decide_eq_true in H2; done|].
  split; [done|by apply bool_decide_eq_true].
Qed.

Lemma SetRunning_step written now s target running id :
  filed (entries s) →
  filed (entries (SetRunning written now s target running).1) ∧
  order_of <$> entries (SetRunning written now s target running).1 !! id =
    if bool_decide (target = id)
    then (λ o, mkOrder (Order_Workload o) (Order_Image o) (Order_Resources o) (Order_Volumes o) running) <$> (order_of <$> entries s !! id)
    else order_of <$> entries s !! id.
Proof.
  intros Hf. unfold SetRunning. destruct (entries s !! target) as [e|] eqn:He.
  2: { cbn [fst]. split; [done|]. case_bool_decide as Ht; [|done]. by rewrite <-Ht, He. }
  rewrite persist_entries. destruct (Hf _ _ He) as [Hei Hen]. split; [by apply filed_insert|].
  destruct (decide (target = id)) as [Ht|Hne].
  - rewrite bool_decide_true by done. by rewrite <-Ht, lookup_insert_eq, He.
  - by rewrite bool_decide_false, lookup_insert_ne by done.
Qed.

Lemma recordDesired_step written now s a id :
  filed (entries s) → id ≠ "" →
  filed (entries (recordDesired written now s a).1) ∧
  order_of <$> entries (recordDesired written now s a).1 !! id =
    if bool_decide (Action_Target a = id) then obey (order_of <$> entries s !! id) a else order_of <$> entries s !! id.
Proof.
  intros Hf Hid. assert (∀ o : option Order, (if bool_decide (Action_Target a = id) then o else o) = o) as Hsame
    by (intros o; by destruct (bool_decide _)).
  unfold recordDesired, obey. destruct (Action_Kind a); try (split; [exact Hf|by rewrite Hsame]); clear Hsame.
  - unfold Record_. cbn [Desired_ID]. destruct (decide (Action_Target a = "")) as [He|He].
    { rewrite (bool_decide_true (Action_Target a = "")) by done. cbn [fst]. split; [exact Hf|].
      by rewrite bool_decide_false by congruence. }
    rewrite (bool_decide_false (Action_Target a = "")) by done.
    rewrite persist_entries. set (entry := match entries s !! _ with Some _ => _ | None => _ end).
    assert (Desired_ID entry = Action_Target a ∧ order_of entry =
            mkOrder (Action_Workload a) (Action_Image a) (Action_Resources a) [] false) as [Hei Heo]
      by (unfold entry; by destruct (entries s !! _)).
    rewrite Hei. split; [by apply filed_insert|].
    destruct (decide (Action_Target a = id)) as [<-|Hne].
    + rewrite bool_decide_true, lookup_insert_eq by done. cbn. by rewrite Heo.
    + rewrite bool_decide_false, lookup_insert_ne by done. done.
  - destruct (Action_Volume a) as [ref|]; [|split; [exact Hf|]; cbn [fst]; by destruct (order_of <$> entries s !! id), (bool_decide (Action_Target a = id))].
    unfold AddVolume. destruct (entries s !! Action_Target a) as [e|] eqn:He.
    2: { cbn [fst]. split; [done|]. case_bool_decide as Ht; [|done]. by rewrite <-Ht, He. }
    rewrite volume_known. destruct (Hf _ _ He) as [Hei Hen].
    destruct (decide (Action_Target a = id)) as [Ht|Hne].
    + rewrite (bool_decide_true (Action_Target a = id)) by done. rewrite <-Ht, He. cbn [fmap option_fmap option_map].
      cbn [order_of Order_Volumes]. case_bool_decide; cbn [fst entries].
      * split; [exact Hf|]. by rewrite He.
      * rewrite persist_entries, lookup_insert_eq. split; [by apply filed_insert|]. cbn. unfold order_of. cbn. by rewrite fmap_app.
    + rewrite (bool_decide_false (Action_Target a = id)) by done. case_bool_decide; cbn [fst]; [done|].
      rewrite persist_entries, lookup_insert_ne by done. split; [by apply filed_insert|done].
  - by apply SetRunning_step.
  - by apply SetRunning_step.
  - unfold Forget. destruct (entries s !! Action_Target a) as [e|] eqn:He.
    2: { cbn [fst]. split; [done|]. case_bool_decide as Ht; [|done]. by rewrite <-Ht, He. }
    rewrite persist_entries. split; [by apply filed_delete|].
    destruct (decide (Action_Target a = id)) as [Ht|Hne].
    + rewrite bool_decide_true by done. rewrite <-Ht, lookup_delete_eq. done.
    + rewrite bool_decide_false, lookup_delete_ne by done. done.
Qed.

Lemma desired_loads m : filed m → OpenDesiredState (desired_lines m) = Ok (mkDesiredState m (desired_lines m)).
Proof.
  intros Hf. unfold OpenDesiredState, desired_lines, sorted_ids. rewrite for_each_table; [done|]. intros k x acc Hx.
  destruct (Hf k x Hx) as [Hid Hne]. unfold load_entry. by rewrite decode_encode_desired, Hid, bool_decide_false.
Qed.

(** Orders carried out one after the other, each with whether its rewrite reached the disk. *)
Definition take_orders (s : DesiredState) (l : list (bool * time * Action)) : DesiredState :=
  foldl (λ s '(written, now, a), (recordDesired written now s a).1) s l.

(** A node keeps exactly the intent it was given.  Whatever orders it carried out,
    and whatever the disk did meanwhile, it holds an entry for exactly the allocations
    created and not deleted since, with the workload, image, resources and volumes of
    those orders, to be running exactly if the last order about running said so; and the
    file it writes gives all of it back. *)
Theorem desired_mirrors_orders l (s := take_orders (mkDesiredState ∅ []) l) :
  (∀ id, id ≠ "" → order_of <$> entries s !! id = ordered id l.*2) ∧
  OpenDesiredState (desired_lines (entries s)) = Ok (mkDesiredState (entries s) (desired_lines (entries s))).
Proof.
  assert (∀ s0 o id, id ≠ "" → filed (entries s0) → order_of <$> entries s0 !! id = o →
    filed (entries (take_orders s0 l)) ∧ order_of <$> entries (take_orders s0 l) !! id =
      foldl (λ o a, if bool_decide (Action_Target a = id) then obey o a else o) o l.*2) as Hgen.
  { clear s. intros s0 o id Hid. revert s0 o. induction l as [|[[written now] a] l IH]; intros s0 o Hf Ho; [done|].
    cbn [take_orders foldl fmap list_fmap snd].
    destruct (recordDesired_step written now s0 a id Hf Hid) as [Hf' Ho']. apply (IH _ _ Hf'). rewrite Ho', Ho. done. }
  assert (filed ∅) as Hf0 by (intros id e; by rewrite lookup_empty).
  split.
  - intros id Hid. by apply (Hgen (mkDesiredState ∅ []) None).
  - apply desired_loads. apply (Hgen (mkDesiredState ∅ []) None "x"); done.
Qed.
End DesiredFacts.

(** ** The crash-loop budget *)

Section Restarts.
Implicit Types (l : Limits) (h : option restartHistory).

(** How many of the attempts at these times are allowed. *)
Fixpoint allowed_restarts l h (times : list time) : Z :=
  match times with
  | [] => 0
  | t :: times => let '(h', allowed) := allowRestart l h t in
                  (if allowed then 1 else 0) + allowed_restarts l (Some h') times
  end.

Lemma window_positive l : 0 < effective_restart_window l.
Proof. unfold effective_restart_window. destruct (Z.leb_spec (RestartWindow l) 0); [done|lia]. Qed.

Lemma within_window l t start : t - start <= effective_restart_window l → (effective_restart_window l <? time_Sub t start) = false.
Proof.
  intros H. pose proof (window_positive l). apply Z.ltb_ge. unfold time_Sub, int_min in *. lia.
Qed.

Lemma allowed_in_window l c start next tripped times :
  effective_restarts l <= int_max → 1 <= c <= effective_restarts l →
  (∀ t, t ∈ times → t - start <= effective_restart_window l) →
  allowed_restarts l (Some (mkRestartHistory c start next tripped)) times <= effective_restarts l - c.
Proof.
  intros Hmax. revert c next tripped. induction times as [|t times IH]; intros c next tripped Hc Ht; [cbn; lia|].
  assert (∀ t', t' ∈ times → t' - start <= effective_restart_window l) as Ht' by (intros t' H'; apply Ht; by right).
  cbn [allowed_restarts]. unfold allowRestart. cbn [restart_windowStart restart_count restart_nextAttempt restart_trippedAt].
  rewrite within_window by (apply Ht; by left).
  destruct (Z.leb_spec (effective_restarts l) c) as [Hge|Hlt]; [by apply IH|].
  destruct (Before t next); [by apply IH|].
  rewrite i64_id by (unfold in_int, int_min; lia).
  pose proof (IH (c + 1) (time_Add t (restart_backoff l (c + 1))) tripped ltac:(lia) Ht'). lia.
Qed.

(** A crashing workload is restarted at most its budget of times in a window: however
    often a pass looks at it within the restart window of the first attempt, at most
    [MaxRestarts] attempts (or the default five) are allowed. *)
Theorem restarts_bounded l t times
    (Hmax : effective_restarts l <= int_max) (Hw : ∀ t', t' ∈ times → t' - t <= effective_restart_window l) :
  allowed_restarts l None (t :: times) <= effective_restarts l.
Proof.
  cbn [allowed_restarts allowRestart].
  assert (1 <= effective_restarts l) by (unfold effective_restarts, DefaultMaxRestarts; destruct (Z.leb_spec (MaxRestarts l) 0); lia).
  pose proof (allowed_in_window l 1 t (time_Add t (restart_backoff l 1)) 0 times Hmax ltac:(lia) Hw). lia.
Qed.

(** The supervisor starts nothing it was not told to run: a start is asked of the
    runtime only for an entry whose recorded intent is to run, whose container exists,
    is not running, and whose budget allows another attempt. *)
Theorem supervisor_restarts_only_ordered {codec : DesiredCodec} inspect start exhausted spend written clock s entry s' n r
    (H : reconcileOne inspect start exhausted spend written clock s entry = (s', n, r)) (Hn : n ≠ O) :
  n = 1%nat ∧ Desired_Running entry = true ∧ exhausted = false ∧
  (∃ st, inspect = Ok st ∧ Backend_Exists st = true ∧ Backend_Running st = false) ∧
  (allowRestart (Supervisor_limits s) (Supervisor_history s !! Desired_ID entry) (clock 0%nat)).2 = true.
Proof.
  unfold reconcileOne in H. destruct inspect as [st|]; [|by simplify_eq].
  destruct (Desired_Running entry); cbn [negb] in H; [|by simplify_eq].
  destruct (Backend_Running st) eqn:Hr; [by simplify_eq|].
  destruct (Backend_Exists st) eqn:He; cbn [negb] in H; [|by simplify_eq].
  destruct exhausted; [by simplify_eq|].
  destruct (allowRestart _ _ _) as [h []]; cbn [negb] in H; [|by simplify_eq].
  assert (n = 1%nat) as ->.
  { destruct start; [by simplify_eq|]. destruct (recordRestart _ _ _ _) as [d []]; by simplify_eq. }
  split_and!; try done. exists st. done.
Qed.

(** Waiting out a backoff is reported as failure.  An allocation that crashed again
    before its next attempt is due, with most of its budget left, is reported to the
    control plane as failed because its restart budget is exhausted. *)
Theorem backoff_reported_as_failure {codec : DesiredCodec} st start spend written clock s entry (h : restartHistory)
    (Hrun : Desired_Running entry = true) (Hex : Backend_Exists st = true) (Hdead : Backend_Running st = false)
    (Hh : Supervisor_history s !! Desired_ID entry = Some h)
    (Hw : clock 0%nat - restart_windowStart h <= effective_restart_window (Supervisor_limits s))
    (Hleft : restart_count h < effective_restarts (Supervisor_limits s)) (Hwait : clock 0%nat < restart_nextAttempt h) :
  ∃ s', reconcileOne (Ok st) start false spend written clock s entry =
    (s', O, Ok ((match spend with Some e => [e] | None => [] end) ++ [failure entry st "restart budget exhausted" (clock 1%nat)])).
Proof.
  unfold reconcileOne. rewrite Hrun, Hdead, Hex, Hh. cbn [negb]. unfold allowRestart.
  rewrite within_window by done. rewrite (proj2 (Z.leb_gt _ _)) by done. unfold Before.
  rewrite (proj2 (Z.ltb_lt _ _)) by done. cbn [negb]. by eexists.
Qed.
End Restarts.

(** ** A sample node *)

Module SuperviseSample.
Definition probe_fields (p : ProbeTarget) : string * string * Z * string * string * string * string * string :=
  (Probe_Allocation p, Probe_Kind p, Probe_Port p, Probe_Path p, Probe_Provider p, Probe_Address p, Probe_Engine p, Probe_Node p).
Definition of_probe_fields (f : string * string * Z * string * string * string * string * string) : ProbeTarget :=
  let '(a, k, p, x, y, z, e, n) := f in mkProbeTarget a k p x y z e n.
Definition volume_fields (v : VolumeRef) : string * string * bool * string :=
  (VolumeRef_Name v, VolumeRef_MountPath v, VolumeRef_ReadOnly v, VolumeRef_Checksum v).
Definition of_volume_fields (f : string * string * bool * string) : VolumeRef :=
  let '(n, m, r, c) := f in mkVolumeRef n m r c.
Definition desired_fields (e : DesiredAllocation) :=
  (Desired_ID e, Desired_Workload e, Desired_Image e, CPUMillis (Desired_Resources e), MemoryMB (Desired_Resources e),
   Desired_Running e, probe_fields (Desired_Probe e), volume_fields <$> Desired_Volumes e, Desired_Restarts e, Desired_UpdatedAt e).
Definition of_desired_fields (f : string * string * string * Z * Z * bool *
    (string * string * Z * string * string * string * string * string) * list (string * string * bool * string) * Z * Z)
    : DesiredAllocation :=
  let '(id, w, i, c, m, r, p, v, n, u) := f in
  mkDesiredAllocation id w i (mkResources c m) r (of_probe_fields p) (of_volume_fields <$> v) n u.

Definition sample_codec : DesiredCodec := {|
  encode_desired e := QueueSample.bits (encode (desired_fields e));
  decode_desired s := p ← QueueSample.unbits s; of_desired_fields <$> decode p |}.
Lemma desired_codec_laws : DesiredCodecLaws sample_codec.
Proof.
  intros e. cbn -[encode decode]. rewrite QueueSample.unbits_bits. cbn -[encode decode]. rewrite decode_encode. cbn.
  destruct e as [id w i [c m] r [] v n u]. cbn. unfold of_desired_fields, desired_fields. cbn. do 2 f_equal.
  rewrite <-list_fmap_compose. rewrite <-(list_fmap_id v) at 2. apply list_fmap_ext. intros k [] _. done.
Qed.

Definition web_action (kind : ActionKind) : Action :=
  Action_zero <| Action_Kind := kind |> <| Action_Target := "web-0" |> <| Action_Workload := "web" |>
    <| Action_Image := "web@sha256:1" |> <| Action_Port := 8080 |>.
Definition web_orders : list (bool * time * Action) :=
  [(true, 5, web_action ActionCreateAllocation); (false, 6, web_action ActionStartAllocation)].

Lemma desired_mirrors_orders_witness :
  order_of <$> entries (take_orders (codec := sample_codec) (mkDesiredState ∅ []) web_orders) !! "web-0" = ordered "web-0" web_orders.*2 ∧
  ordered "web-0" web_orders.*2 = Some (mkOrder "web" "web@sha256:1" Resources_zero [] true).
Proof.
  split; [|vm_compute; reflexivity].
  exact (proj1 (@desired_mirrors_orders sample_codec desired_codec_laws web_orders) "web-0" ltac:(discriminate)).
Defined.

Definition default_limits : Limits := mkLimits 0 0 DefaultBackoff 0.
Definition crash_times : list time := (λ n, Z.of_nat n * (20 * Second)) <$> seq 1 29.

Lemma restarts_bounded_witness :
  allowed_restarts default_limits None (0 :: crash_times) = 5 ∧
  allowed_restarts default_limits None (0 :: crash_times) <= effective_restarts default_limits.
Proof.
  split; [vm_compute; reflexivity|]. refine (restarts_bounded default_limits 0 crash_times _ _).
  - apply Z.leb_le. vm_compute. reflexivity.
  - apply Forall_forall. apply (bool_decide_unpack _). vm_compute. exact I.
Defined.

#[local] Instance blank_codec : DesiredCodec := {| encode_desired _ := ""; decode_desired _ := None |}.

Definition web_entry : DesiredAllocation :=
  mkDesiredAllocation "web-0" "web" "web@sha256:1" Resources_zero true (mkProbeTarget "web-0" "tcp" 8080 "" "" "" "" "") [] 0 5.
Definition crashed : BackendState := mkBackendState true false 0 1.
Definition fresh_node : Supervisor :=
  mkSupervisor default_limits ∅ (mkDesiredState {["web-0" := web_entry]} []).
Definition waiting_node : Supervisor :=
  mkSupervisor default_limits {["web-0" := mkRestartHistory 1 10 (10 + DefaultBackoff) 0]} (Supervisor_desired fresh_node).

Lemma supervisor_restarts_only_ordered_witness :
  let '(s, n, r) := reconcileOne (Ok crashed) None false None true (λ _, 10) fresh_node web_entry in
  n = 1%nat ∧ Desired_Running web_entry = true.
Proof.
  destruct (reconcileOne (Ok crashed) None false None true (λ _, 10) fresh_node web_entry) as [[s n] r] eqn:H.
  assert (n ≠ O) as Hn by (intros ->; vm_compute in H; discriminate H).
  destruct (supervisor_restarts_only_ordered (Ok crashed) None false None true (λ _, 10) fresh_node web_entry s n r H Hn)
    as (H1 & H2 & _).
  split; [exact H1|exact H2].
Defined.

Lemma backoff_reported_as_failure_witness :
  ∃ s', reconcileOne (Ok crashed) None false None true (λ _, 11) waiting_node web_entry =
    (s', O, Ok ([] ++ [failure web_entry crashed "restart budget exhausted" 11])).
Proof.
  refine (backoff_reported_as_failure crashed None None true (λ _, 11) waiting_node web_entry
    (mkRestartHistory 1 10 (10 + DefaultBackoff) 0) _ _ _ _ _ _ _); try reflexivity.
  - apply Z.leb_le. vm_compute. reflexivity.
Defined.
End SuperviseSample.
