(* ===== verification/Dispatch.v ===== *)
(** * Signed actions and their execution on a node
      (src/node/envelope.go, dispatcher.go, file_ledger.go, remote.go)

    The control plane issues each authorized action as a signed envelope; the node
    verifies it, executes it once per idempotency key, and returns evidence signed with
    its own key.  The runtime, the observer and the transport are arguments; the ledger
    of results is an interface with two implementations.  The JSON codecs, base64 without
    padding and SHA-256 are classes. *)

From S2P Require Import Prelude Types Text Spread Policy Clone Projection History Executor EventLog Replay Provenance Kernel Engine Keys Approvals Supervise.
Open Scope Z_scope.

Definition EnvelopeVersion : Z := 1.
Definition DefaultEnvelopeTTL : duration := 60 * Second.
Definition DefaultAttestationMaxAge : duration := 5 * Minute.

Record ActionEnvelope := mkActionEnvelope {
  Env_Version : Z; Env_ID : string; Env_NodeID : string; Env_GoalID : string; Env_ProposalID : string;
  Env_WorldRevision : Z; Env_LeaseID : string; Env_IdempotencyKey : string; Env_IssuedAt : time;
  Env_ExpiresAt : time; Env_Action : Action }.
Record SignedAction := mkSignedAction { SA_EnvelopeBytes : string; SA_KeyID : string; SA_Signature : string }.
Record DispatchResult := mkDispatchResult {
  DR_EnvelopeDigest : string; DR_Evidence : Evidence; DR_Attested : option AttestedEvidence }.
Record DispatchResponse := mkDispatchResponse {
  Resp_EnvelopeID : string; Resp_Result : option DispatchResult; Resp_Error : string }.

(** The work of an envelope, which a retry repeats and a reused key does not. *)
Record EnvelopeWork := mkEnvelopeWork {
  Work_NodeID : string; Work_GoalID : string; Work_ProposalID : string; Work_IdempotencyKey : string;
  Work_Action : Action }.
Definition work_of (e : ActionEnvelope) : EnvelopeWork :=
  mkEnvelopeWork (Env_NodeID e) (Env_GoalID e) (Env_ProposalID e) (Env_IdempotencyKey e) (Env_Action e).

Class EnvelopeCodec := {
  encode_envelope : ActionEnvelope → option string;
  decode_envelope : string → decoded ActionEnvelope;
  encode_work : EnvelopeWork → option string }.
Class RawBase64 := { raw_Encode : string → string; raw_Decode : string → option string }.

Definition validateEnvelope (e : ActionEnvelope) : result unit :=
  refuse (negb (Env_Version e =? EnvelopeVersion)) "unsupported action envelope version %d";
  refuse (bool_decide (Env_ID e = "") || bool_decide (Env_NodeID e = "") || bool_decide (Env_GoalID e = "") ||
          bool_decide (Env_ProposalID e = "") || bool_decide (Env_LeaseID e = "") || bool_decide (Env_IdempotencyKey e = ""))
    "action envelope identity fields are required";
  refuse (IsZero (Env_IssuedAt e) || IsZero (Env_ExpiresAt e) || negb (After (Env_ExpiresAt e) (Env_IssuedAt e)))
    "action envelope time window is invalid";
  refuse (bool_decide (Action_Node (Env_Action e) ≠ "") && bool_decide (Action_Node (Env_Action e) ≠ Env_NodeID e))
    "action node and envelope node differ";
  Ok tt.

(** ** The ledger *)

Class Ledger (L : Type) := {
  ledger_Get : L → string → option DispatchResult;
  ledger_Put : L → string → DispatchResult → L * result unit }.

(** What the dispatcher relies on: a stored result stays, and is stored once. *)
Class LedgerLaws {L} (ledger : Ledger L) : Prop := {
  put_stored l key r l' : ledger_Put l key r = (l', Ok tt) →
    ledger_Get l key = None ∧ ∀ k, ledger_Get l' k = if bool_decide (k = key) then Some r else ledger_Get l k;
  put_refused l key r l' err : ledger_Put l key r = (l', Err err) → ∀ k, ledger_Get l' k = ledger_Get l k }.

Definition MemoryLedger_Put (l : gmap string DispatchResult) (key : string) (r : DispatchResult)
    : gmap string DispatchResult * result unit :=
  match l !! key with
  | Some _ => (l, Err (Errorf "idempotency key %q already stored"))
  | None => (<[key := r]> l, Ok tt)
  end.
#[export] Instance MemoryLedger : Ledger (gmap string DispatchResult) :=
  {| ledger_Get l key := l !! key; ledger_Put := MemoryLedger_Put |}.

(** [ledgerRecord] as one line. *)
Class LedgerCodec := {
  encode_record : string * DispatchResult → option string;
  decode_record : string → option (string * DispatchResult) }.
Class LedgerCodecLaws (codec : LedgerCodec) : Prop :=
  decode_encode_record : ∀ kr line, encode_record kr = Some line →
    decode_record line = Some kr ∧ no_break line = true ∧ line ≠ "".

(** The file is its text; [ledger_failures] holds, for the writes to come, the text a
    failing write leaves behind, [None] for one that succeeds. *)
Record FileLedger := mkFileLedger {
  ledger_text : string; ledger_results : gmap string DispatchResult; ledger_failures : list (option string) }.

Definition maxLedgerLine : Z := 1048576.

Section File.
Context {codec : LedgerCodec}.

(** A line without the carriage return it may end in. *)
Fixpoint drop_cr (s : string) : string :=
  match s with
  | "" => ""
  | String c "" => if bool_decide (c = carriage_return) then "" else s
  | String c s => String c (drop_cr s)
  end.

(** The lines of a scanner: the text after the last newline counts unless it is empty. *)
Definition scan_lines (text : string) : list string :=
  let pieces := split_on newline text in
  drop_cr <$> (if bool_decide (last pieces = Some "") then take (length pieces - 1) pieces else pieces).

Definition replay_line (m : gmap string DispatchResult) (line : string) : result (gmap string DispatchResult) :=
  refuse (maxLedgerLine <=? Z.of_nat (String.length line)) "read ledger: %w";
  need record := decode_record line else "decode ledger line %d: %w";
  refuse (bool_decide (record.1 = "") || bool_decide (DR_EnvelopeDigest record.2 = "")) "ledger line %d is incomplete";
  match m !! record.1 with
  | Some previous =>
      refuse (bool_decide (DR_EnvelopeDigest previous ≠ DR_EnvelopeDigest record.2))
        "ledger line %d conflicts with idempotency key %q";
      Ok m
  | None => Ok (<[record.1 := record.2]> m)
  end.

Definition OpenFileLedger (text : string) : result FileLedger :=
  let* m := for_each replay_line ∅ (scan_lines text) in
  Ok (mkFileLedger text m []).

Definition FileLedger_Put (l : FileLedger) (key : string) (r : DispatchResult) : FileLedger * result unit :=
  match ledger_results l !! key with
  | Some _ => (l, Err (Errorf "idempotency key %q already stored"))
  | None =>
      match encode_record (key, r) with
      | None => (l, Err (Errorf "encode ledger record: %w"))
      | Some line =>
          match ledger_failures l with
          | Some torn :: rest => (mkFileLedger (ledger_text l +:+ torn) (ledger_results l) rest, Err (Errorf "append ledger record: %w"))
          | None :: rest => (mkFileLedger (ledger_text l +:+ line +:+ String newline "") (<[key := r]> (ledger_results l)) rest, Ok tt)
          | [] => (mkFileLedger (ledger_text l +:+ line +:+ String newline "") (<[key := r]> (ledger_results l)) [], Ok tt)
          end
      end
  end.
#[export] Instance FileLedger_Ledger : Ledger FileLedger :=
  {| ledger_Get l key := ledger_results l !! key; ledger_Put := FileLedger_Put |}.
End File.

(** ** Envelopes *)

Section Envelope.
Context {att : Attest} {signer : Signer} {raw : RawBase64} {envelopes : EnvelopeCodec} {digest : Digest}.

Definition Sign (e : ActionEnvelope) (keyID key : string) : result SignedAction :=
  let* _ := validateEnvelope e in
  refuse (bool_decide (keyID = "") || negb (String.length key =? PrivateKeySize)%nat)
    "valid signing key id and private key are required";
  need payload := encode_envelope e else "encode action envelope: %w";
  Ok (mkSignedAction payload keyID (raw_Encode (ed25519_Sign key payload))).

Definition Envelope_Verify (signed : SignedAction) (keys : gmap string string) (nodeID : string) (now : time)
    : result (ActionEnvelope * string) :=
  refuse (bool_decide (SA_EnvelopeBytes signed = "")) "signed action carries no envelope";
  let public := default "" (keys !! SA_KeyID signed) in
  refuse (negb (String.length public =? PublicKeySize)%nat) "unknown signing key %q";
  need signature := raw_Decode (SA_Signature signed) else "decode action signature: %w";
  refuse (negb (ed25519_Verify public (SA_EnvelopeBytes signed) signature)) "invalid action signature";
  match decode_envelope (SA_EnvelopeBytes signed) with
  | Malformed => Err (Errorf "decode action envelope: %w")
  | Trailing _ => Err (Errorf "action envelope has trailing content")
  | Decoded e =>
      let* _ := validateEnvelope e in
      refuse (bool_decide (Env_NodeID e ≠ nodeID)) "action targets node %q, dispatcher is %q";
      refuse (Before now (time_Add (Env_IssuedAt e) (- (30 * Second)))) "action issue time is in the future";
      refuse (negb (Before now (Env_ExpiresAt e))) "action envelope expired";
      refuse (5 * Minute <? time_Sub (Env_ExpiresAt e) (Env_IssuedAt e)) "action envelope lifetime exceeds five minutes";
      Ok (e, digestOf (SA_EnvelopeBytes signed))
  end.

Definition WorkDigest (e : ActionEnvelope) : result string :=
  need payload := encode_work (work_of e) else "encode envelope work: %w";
  Ok (digestOf payload).
End Envelope.

(** ** The dispatcher *)

Record heldLease := mkHeldLease { held_leaseID : string; held_expiresAt : time }.

(** [Runtime.Execute], and [ReadinessObserver.ObserveReadiness], over whatever state the
    host keeps. *)
Class Runtime (R : Type) := runtime_Execute : R → Action → R * result Evidence.
Definition Observer (R : Type) : Type := R → ProbeTarget → R * result (bool * gmap string string).

Section Dispatcher.
Context {att : Attest} {signer : Signer} {raw : RawBase64} {envelopes : EnvelopeCodec} {evidences : EvidenceCodec}
  {digest : Digest} {desireds : DesiredCodec}.
Context {R L : Type} {runtime : Runtime R} {ledger : Ledger L} (observer : option (Observer R)).

Record Dispatcher := mkDispatcher {
  Disp_NodeID : string; Disp_Keys : gmap string string; Disp_IdentityKey : string; Disp_Runtime : R; Disp_Ledger : L;
  Disp_Desired : option DesiredState; Disp_Leases : gmap string heldLease }.
#[export] Instance eta_Dispatcher : Eta Dispatcher := λ r,
  mkDispatcher (Disp_NodeID r) (Disp_Keys r) (Disp_IdentityKey r) (Disp_Runtime r) (Disp_Ledger r) (Disp_Desired r)
    (Disp_Leases r).

Definition checkLease (d : Dispatcher) (now : time) (e : ActionEnvelope) : result unit :=
  let target := Action_Target (Env_Action e) in
  if bool_decide (target = "") || bool_decide (Env_LeaseID e = "") then Ok tt
  else match Disp_Leases d !! target with
       | None => Ok tt
       | Some held =>
           if negb (Before now (held_expiresAt held)) then Ok tt
           else if bool_decide (held_leaseID held = Env_LeaseID e) then Ok tt
           else Err (Errorf "target %q is held by lease %q until %s")
       end.

Definition noteLease (d : Dispatcher) (e : ActionEnvelope) : Dispatcher :=
  let target := Action_Target (Env_Action e) in
  if bool_decide (target = "") || bool_decide (Env_LeaseID e = "") then d
  else d <| Disp_Leases ::= <[target := mkHeldLease (Env_LeaseID e) (Env_ExpiresAt e)]> |>.

Definition attribute (d : Dispatcher) (now : time) (e : Evidence) (a : Action) : Evidence :=
  let observed := <["node" := Disp_NodeID d]> (Ev_Observed e) in
  let observed := match Action_Kind a with
                  | ActionPullImage => <["image" := Action_Image a]> observed
                  | ActionCreateAllocation =>
                      <["memory_mb" := Sprint (MemoryMB (Action_Resources a))]>
                      (<["cpu_millis" := Sprint (CPUMillis (Action_Resources a))]>
                      (<["replica" := Sprint (Action_Replica a)]>
                      (<["image" := Action_Image a]> (<["workload" := Action_Workload a]> observed))))
                  | ActionPublishRoute =>
                      <["exposure" := Action_Exposure a]> (<["port" := Sprint (Action_Port a)]>
                      (<["workload" := Action_Workload a]> observed))
                  | _ => observed
                  end in
  mkEvidence (Ev_Kind e) (Ev_Target e) ("node:" +:+ Disp_NodeID d)
    (if IsZero (Ev_ObservedAt e) then now else Ev_ObservedAt e) (Ev_ExpiresAt e) observed.

Definition attest (d : Dispatcher) (e : Evidence) : result (option AttestedEvidence) :=
  if bool_decide (Disp_IdentityKey d = "") then Ok None
  else let* a := wrap_err "attest evidence: %w" (SignEvidence e (Disp_NodeID d) (Disp_IdentityKey d)) in Ok (Some a).

Definition probe (clock : nat → time) (d : Dispatcher) (e : ActionEnvelope) : Dispatcher * result DispatchResult :=
  match observer with
  | None => (d, Err (Errorf "node has no readiness observer"))
  | Some observe =>
      match Action_Probe (Env_Action e) with
      | None => (d, Err (Errorf "probe action carries no target"))
      | Some target =>
          if bool_decide (Probe_Allocation target = "") then (d, Err (Errorf "probe target names no allocation"))
          else
            let '(host, r) := observe (Disp_Runtime d) target in
            let d := d <| Disp_Runtime := host |> in
            match r with
            | Err err => (d, Err (Wrapf "probe %q: %w" err))
            | Ok (ready, observed) =>
                let kind := if bool_decide (Probe_Kind target = ProbeAgent) then EvidenceAgentReady else EvidenceAllocationReady in
                let evidence := attribute d (clock 2%nat)
                  (mkEvidence kind (Probe_Allocation target) "" 0 (time_Add (clock 1%nat) DefaultReadinessTTL)
                     (<["ready" := Sprint_bool ready]> observed)) (Env_Action e) in
                (d, let* attested := attest d evidence in Ok (mkDispatchResult "" evidence attested))
            end
      end
  end.

(** [Dispatch]: the clock is read once for each use the source makes of it, [written]
    says whether the intent file can be rewritten. *)
Definition Dispatch (written : bool) (clock : nat → time) (d : Dispatcher) (signed : SignedAction)
    : Dispatcher * result DispatchResult :=
  match Envelope_Verify signed (Disp_Keys d) (Disp_NodeID d) (clock 0%nat) with
  | Err err => (d, Err err)
  | Ok (e, _) =>
      let action := Env_Action e in
      if bool_decide (Action_Kind action = ActionProbeReadiness) then probe clock d e
      else match WorkDigest e with
      | Err err => (d, Err err)
      | Ok work =>
          match ledger_Get (Disp_Ledger d) (Env_IdempotencyKey e) with
          | Some previous =>
              if bool_decide (DR_EnvelopeDigest previous ≠ work)
              then (d, Err (Errorf "idempotency key %q was reused for a different envelope")) else (d, Ok previous)
          | None =>
              match checkLease d (clock 1%nat) e with
              | Err err => (d, Err err)
              | Ok _ =>
                  let '(host, r) := runtime_Execute (Disp_Runtime d) action in
                  let d := d <| Disp_Runtime := host |> in
                  match r with
                  | Err err => (d, Err err)
                  | Ok evidence =>
                      let evidence := attribute d (clock 2%nat) evidence action in
                      match attest d evidence with
                      | Err err => (d, Err err)
                      | Ok attested =>
                          let '(desired, r) := match Disp_Desired d with
                                               | None => (None, Ok tt)
                                               | Some s => let '(s, r) := recordDesired written (clock 3%nat) s action in (Some s, r)
                                               end in
                          let d := d <| Disp_Desired := desired |> in
                          match r with
                          | Err err => (d, Err err)
                          | Ok _ =>
                              let d := noteLease d e in
                              let result := mkDispatchResult work evidence attested in
                              let '(l, r) := ledger_Put (Disp_Ledger d) (Env_IdempotencyKey e) result in
                              let d := d <| Disp_Ledger := l |> in
                              (d, let* _ := r in Ok result)
                          end
                      end
                  end
              end
          end
      end
  end.
End Dispatcher.

(** ** What reaches the runtime *)

#[export] Instance MemoryLedger_laws : LedgerLaws MemoryLedger.
Proof.
  split; intros l key r l'; cbn; unfold MemoryLedger_Put; destruct (l !! key) eqn:E; [done| | |done].
  - intros [= <-]. split; [done|]. intros k. case_bool_decide as Hk; [by rewrite Hk, lookup_insert_eq|by rewrite lookup_insert_ne].
  - by intros err [= <-].
Qed.

#[export] Instance FileLedger_laws {codec : LedgerCodec} : LedgerLaws FileLedger_Ledger.
Proof.
  split; intros l key r l'; cbn; unfold FileLedger_Put; destruct (ledger_results l !! key) eqn:E.
  1: done. 2: by intros err [= <-].
  - destruct (encode_record _); [|done].
    destruct (ledger_failures l) as [|[torn|] rest]; [|done|]; intros [= <-]; (split; [done|]); cbn;
      intros k; (case_bool_decide as Hk; [by rewrite Hk, lookup_insert_eq|by rewrite lookup_insert_ne]).
  - intros err. destruct (encode_record _); [|by intros [= <-]].
    destruct (ledger_failures l) as [|[torn|] rest]; [done| |done]. by intros [= <-].
Qed.

Section DispatchFacts.
Context {att : Attest} {signer : Signer} {raw : RawBase64} {envelopes : EnvelopeCodec} {evidences : EvidenceCodec}
  {digest : Digest} {desireds : DesiredCodec}.
Context {R L : Type} {runtime : Runtime R} {ledger : Ledger L} {laws : LedgerLaws ledger} (observer : option (Observer R)).
Implicit Types (d : @Dispatcher R L) (e : ActionEnvelope).

(** The bytes carry an envelope for this node, signed with a trusted key and in force. *)
Definition in_force (keys : gmap string string) (nodeID : string) (now : time) (signed : SignedAction) e : Prop :=
  (∃ public signature, keys !! SA_KeyID signed = Some public ∧ raw_Decode (SA_Signature signed) = Some signature ∧
     ed25519_Verify public (SA_EnvelopeBytes signed) signature = true) ∧
  decode_envelope (SA_EnvelopeBytes signed) = Decoded e ∧ Env_NodeID e = nodeID ∧ Env_IdempotencyKey e ≠ "" ∧
  (Action_Node (Env_Action e) = "" ∨ Action_Node (Env_Action e) = nodeID) ∧
  Env_IssuedAt e - 30 * Second <= now < Env_ExpiresAt e ∧ Env_ExpiresAt e <= Env_IssuedAt e + 5 * Minute.

Lemma Envelope_Verify_inv signed keys nodeID now e h :
  Envelope_Verify signed keys nodeID now = Ok (e, h) → in_force keys nodeID now signed e.
Proof.
  unfold Envelope_Verify. intros H. inv_ok H. destruct (decode_envelope _) as [|?|e'] eqn:Hd; [done|done|].
  inv_ok H. injection H as -> _. unfold validateEnvelope, After, Before, time_Add in *.
  match goal with H : (let* _ := _ in _) = Ok _ |- _ => inv_ok H | H : _ = Ok ?u |- _ => inv_ok H end.
  bool_simpl. split_and!; try done; try lia.
  - destruct (keys !! SA_KeyID signed) as [public|]; [|done]. exists public. by eexists.
  - destruct (decide (Action_Node (Env_Action e) = "")); [by left|right].
    match goal with H : bool_decide _ && bool_decide _ = false |- _ => apply andb_false_iff in H as [H|H]; apply bool_decide_eq_false in H end.
    + by destruct H.
    + destruct (decide (Action_Node (Env_Action e) = Env_NodeID e)); [congruence|by destruct H].
  - assert (5 * Minute < int_max) by (apply Z.ltb_lt; vm_compute; reflexivity). unfold time_Sub in *. lia.
Qed.

Lemma noteLease_frame d e :
  Disp_NodeID (noteLease d e) = Disp_NodeID d ∧ Disp_Keys (noteLease d e) = Disp_Keys d ∧
  Disp_Runtime (noteLease d e) = Disp_Runtime d ∧ Disp_Ledger (noteLease d e) = Disp_Ledger d.
Proof. unfold noteLease. by destruct (_ || _). Qed.

(** One dispatch, taken apart. *)
Lemma Dispatch_inv written clock d signed d' r :
  Dispatch observer written clock d signed = (d', r) →
  Disp_NodeID d' = Disp_NodeID d ∧ Disp_Keys d' = Disp_Keys d ∧
  (∀ key previous, ledger_Get (Disp_Ledger d) key = Some previous → ledger_Get (Disp_Ledger d') key = Some previous) ∧
  (Disp_Runtime d' = Disp_Runtime d ∨
   ∃ e h, Envelope_Verify signed (Disp_Keys d) (Disp_NodeID d) (clock 0%nat) = Ok (e, h) ∧
     (Action_Kind (Env_Action e) = ActionProbeReadiness ∧
        (∃ observe target, observer = Some observe ∧ Action_Probe (Env_Action e) = Some target ∧
           Disp_Runtime d' = (observe (Disp_Runtime d) target).1) ∨
      Action_Kind (Env_Action e) ≠ ActionProbeReadiness ∧ ledger_Get (Disp_Ledger d) (Env_IdempotencyKey e) = None ∧
        checkLease d (clock 1%nat) e = Ok tt ∧
        Disp_Runtime d' = (runtime_Execute (Disp_Runtime d) (Env_Action e)).1)).
Proof.
  intros H. unfold Dispatch in H.
  destruct (Envelope_Verify _ _ _ _) as [[e h]|] eqn:Hv; [|injection H as <- <-; auto].
  case_bool_decide as Hk.
  { unfold probe in H. destruct observer as [observe|] eqn:Ho; [|injection H as <- <-; auto].
    destruct (Action_Probe (Env_Action e)) as [target|] eqn:Ht; [|injection H as <- <-; auto].
    destruct (bool_decide _); [injection H as <- <-; auto|].
    destruct (observe (Disp_Runtime d) target) as [host [[ready o]|err]] eqn:Hobs; injection H as <- <-; simpl_set;
      (split_and!; [done|done|done|]); right; exists e, h; (split; [done|]); left; (split; [done|]);
      exists observe, target; by rewrite Hobs. }
  destruct (WorkDigest e) as [work|]; [|injection H as <- <-; auto].
  destruct (ledger_Get (Disp_Ledger d) (Env_IdempotencyKey e)) as [previous|] eqn:Hl.
  { destruct (bool_decide _); injection H as <- <-; auto. }
  destruct (checkLease d (clock 1%nat) e) as [[]|] eqn:Hc; [|injection H as <- <-; auto].
  destruct (runtime_Execute (Disp_Runtime d) (Env_Action e)) as [host x] eqn:Hx.
  assert (Disp_NodeID d' = Disp_NodeID d ∧ Disp_Keys d' = Disp_Keys d ∧ Disp_Runtime d' = host ∧
    ∀ key previous, ledger_Get (Disp_Ledger d) key = Some previous → ledger_Get (Disp_Ledger d') key = Some previous) as (H1 & H2 & H3 & H4).
  { destruct x as [evidence|]; [|injection H as <- <-; done].
    destruct (attest _ _) as [attested|]; [|injection H as <- <-; done].
    destruct (match Disp_Desired _ with Some _ => _ | None => _ end) as [desired [[]|]]; [|injection H as <- <-; done].
    destruct (ledger_Put _ _ _) as [l pr] eqn:Hput. injection H as <- <-.
    destruct (noteLease_frame (d <| Disp_Runtime := host |> <| Disp_Desired := desired |>) e) as (E1 & E2 & E3 & E4).
    rewrite E4 in Hput. simpl_set. rewrite E1, E2, E3. simpl_set. split_and!; try done.
    intros key previous Hkey. destruct pr as [[]|err].
    - destruct (put_stored _ _ _ _ Hput) as [Hnone Hall]. rewrite Hall. case_bool_decide as Hkk; [|done].
      rewrite Hkk, Hnone in Hkey. done.
    - by rewrite (put_refused _ _ _ _ _ Hput). }
  split_and!; [done|done|done|]. right. exists e, h. split; [done|]. right. by rewrite Hx.
Qed.

Lemma Dispatch_stores written clock d signed d' r e h :
  Dispatch observer written clock d signed = (d', Ok r) →
  Envelope_Verify signed (Disp_Keys d) (Disp_NodeID d) (clock 0%nat) = Ok (e, h) →
  Action_Kind (Env_Action e) ≠ ActionProbeReadiness →
  ledger_Get (Disp_Ledger d') (Env_IdempotencyKey e) = Some r ∧ WorkDigest e = Ok (DR_EnvelopeDigest r).
Proof.
  intros H Hv Hk. unfold Dispatch in H. rewrite Hv, bool_decide_false in H by done.
  destruct (WorkDigest e) as [work|]; [|done].
  destruct (ledger_Get (Disp_Ledger d) (Env_IdempotencyKey e)) as [previous|] eqn:Hl.
  { case_bool_decide as Hd; [done|]. injection H as <- <-. split; [done|]. f_equal.
    destruct (decide (DR_EnvelopeDigest previous = work)); [done|by destruct Hd]. }
  destruct (checkLease _ _ _); [|done]. destruct (runtime_Execute _ _) as [host [evidence|]]; [|done].
  destruct (attest _ _) as [attested|]; [|done].
  destruct (match Disp_Desired _ with Some _ => _ | None => _ end) as [desired [[]|]]; [|done].
  destruct (ledger_Put _ _ _) as [l [[]|]] eqn:Hput; [|done]. injection H as <- <-. simpl_set. split; [|done].
  destruct (put_stored _ _ _ _ Hput) as [_ Hall]. by rewrite Hall, bool_decide_true.
Qed.

(** C9: nothing reaches the host unauthorized.  Whatever bytes a node is handed, either
    its runtime is left exactly as it was, or the bytes carry an envelope signed with a
    trusted controller key, addressed to this node, in force at the time and valid for at
    most five minutes, and the runtime was asked for exactly the action it carries: a
    probe of the declared target, or an action under a key never answered before, on a
    target no other lease holds. *)
Theorem dispatch_authorized written clock d signed d' r (H : Dispatch observer written clock d signed = (d', r)) :
  Disp_Runtime d' = Disp_Runtime d ∨
  ∃ e, in_force (Disp_Keys d) (Disp_NodeID d) (clock 0%nat) signed e ∧
    ((∃ observe target, observer = Some observe ∧ Action_Kind (Env_Action e) = ActionProbeReadiness ∧
        Action_Probe (Env_Action e) = Some target ∧ Disp_Runtime d' = (observe (Disp_Runtime d) target).1) ∨
     (ledger_Get (Disp_Ledger d) (Env_IdempotencyKey e) = None ∧ checkLease d (clock 1%nat) e = Ok tt ∧
        Disp_Runtime d' = (runtime_Execute (Disp_Runtime d) (Env_Action e)).1)).
Proof.
  destruct (Dispatch_inv _ _ _ _ _ _ H) as (_ & _ & _ & [Hsame|(e & h & Hv & Hcase)]); [by left|right].
  exists e. split; [by eapply Envelope_Verify_inv|].
  destruct Hcase as [(Hk & observe & target & H1 & H2 & H3)|(_ & H1 & H2 & H3)]; [left|by right].
  by exists observe, target.
Qed.

Definition dispatch_step d d' : Prop := ∃ written clock signed r, Dispatch observer written clock d signed = (d', r).

Lemma dispatch_steps d d' :
  rtc dispatch_step d d' →
  Disp_NodeID d' = Disp_NodeID d ∧ Disp_Keys d' = Disp_Keys d ∧
  ∀ key r, ledger_Get (Disp_Ledger d) key = Some r → ledger_Get (Disp_Ledger d') key = Some r.
Proof.
  induction 1 as [d|d d1 d2 (written & clock & signed & r & H) _ (IH1 & IH2 & IH3)]; [done|].
  destruct (Dispatch_inv _ _ _ _ _ _ H) as (H1 & H2 & H3 & _). split_and!; [congruence|congruence|auto].
Qed.

(** C10: work is done at most once.  Once a node has answered an action under an
    idempotency key, then whatever else it is handed meanwhile, another envelope under
    that key never reaches the runtime and changes nothing: for the same work it is
    answered with the very result of the first time, for different work it is refused. *)
Theorem dispatch_at_most_once written clock d signed d1 r e h d2 written' clock' signed' e' h'
    (H : Dispatch observer written clock d signed = (d1, Ok r))
    (Hv : Envelope_Verify signed (Disp_Keys d) (Disp_NodeID d) (clock 0%nat) = Ok (e, h))
    (Hk : Action_Kind (Env_Action e) ≠ ActionProbeReadiness)
    (Hsteps : rtc dispatch_step d1 d2)
    (Hv' : Envelope_Verify signed' (Disp_Keys d) (Disp_NodeID d) (clock' 0%nat) = Ok (e', h'))
    (Hk' : Action_Kind (Env_Action e') ≠ ActionProbeReadiness)
    (Hkey : Env_IdempotencyKey e' = Env_IdempotencyKey e) :
  Dispatch observer written' clock' d2 signed' =
  (d2, match WorkDigest e' with
       | Err err => Err err
       | Ok work => if bool_decide (Ok work = WorkDigest e) then Ok r
                    else Err (Errorf "idempotency key %q was reused for a different envelope")
       end).
Proof.
  destruct (Dispatch_stores _ _ _ _ _ _ _ _ H Hv Hk) as [Hst Hw].
  destruct (Dispatch_inv _ _ _ _ _ _ H) as (Hn & Hkeys & _). destruct (dispatch_steps _ _ Hsteps) as (Hn2 & Hkeys2 & Hkeep).
  unfold Dispatch. rewrite Hn2, Hn, Hkeys2, Hkeys, Hv'. rewrite bool_decide_false by done.
  destruct (WorkDigest e') as [work|]; [|done]. rewrite Hkey, (Hkeep _ _ Hst), Hw.
  destruct (decide (DR_EnvelopeDigest r = work)) as [<-|Hne].
  - rewrite (bool_decide_true (Ok _ = Ok _)) by done. by rewrite bool_decide_false by (intros E; by apply E).
  - rewrite (bool_decide_false (Ok _ = Ok _)) by congruence. by rewrite bool_decide_true.
Qed.
End DispatchFacts.

(** ** The file ledger *)

Section LedgerFile.
Context {codec : LedgerCodec}.

(** A line the ledger can read back. *)
Definition readable (key : string) (r : DispatchResult) (line : string) : Prop :=
  decode_record line = Some (key, r) ∧ no_break line = true ∧ line ≠ "" ∧ (Z.of_nat (String.length line) < maxLedgerLine) ∧
  key ≠ "" ∧ DR_EnvelopeDigest r ≠ "".

(** The text of these records, one to a line. *)
Fixpoint ledger_lines (l : list string) : string :=
  match l with [] => "" | line :: l => line +:+ String newline (ledger_lines l) end.

Lemma text_app_assoc (s t u : string) : s +:+ (t +:+ u) = (s +:+ t) +:+ u.
Proof. induction s as [|c s IH]; [done|]. change (String c (s +:+ (t +:+ u)) = String c ((s +:+ t) +:+ u)). by rewrite IH. Qed.

Lemma ledger_lines_snoc l line : ledger_lines (l ++ [line]) = ledger_lines l +:+ line +:+ String newline "".
Proof.
  induction l as [|x l IH]; [done|]. cbn [app ledger_lines]. rewrite IH.
  change (String newline (?a +:+ ?b)) with (String newline a +:+ b). by rewrite !text_app_assoc.
Qed.

Lemma drop_cr_no_break s : no_break s = true → drop_cr s = s.
Proof.
  induction s as [|c s IH]; [done|]. cbn [no_break]. rewrite !andb_true_iff. intros [[_ Hc] Hs].
  destruct s as [|d s]; [cbn; by destruct (bool_decide _)|]. change (String c (drop_cr (String d s)) = String c (String d s)).
  by rewrite IH.
Qed.
Lemma drop_cr_lines l : Forall (λ line, no_break line = true) l → drop_cr <$> l = l.
Proof. induction 1 as [|s l Hs _ IH]; [done|]. cbn. by rewrite drop_cr_no_break, IH. Qed.

Lemma scan_ledger_lines l : Forall (λ line, no_break line = true) l → scan_lines (ledger_lines l) = l.
Proof.
  intros H. assert (split_on newline (ledger_lines l) = l ++ [""]) as Hs.
  { induction H as [|line l Hline _ IH]; [done|]. cbn [ledger_lines app]. rewrite split_on_line by by apply no_break_newline.
    cbn [split_on]. rewrite bool_decide_true, IH by done. by rewrite append_empty. }
  unfold scan_lines. rewrite Hs, last_snoc, bool_decide_true by done. rewrite length_app. cbn [length].
  replace (length l + 1 - 1)%nat with (length l) by lia. rewrite take_app_length. by apply drop_cr_lines.
Qed.

(** The ledger and its file agree. *)
Inductive ledger_synced : FileLedger → Prop :=
  ledger_synced_intro l records lines :
    ledger_text l = ledger_lines lines → Forall2 (λ kr line, readable kr.1 kr.2 line) records lines →
    NoDup records.*1 → ledger_results l = list_to_map records → ledger_synced l.

Lemma replay_lines acc records lines :
  Forall2 (λ kr line, readable kr.1 kr.2 line) records lines → NoDup records.*1 →
  (∀ k, k ∈ records.*1 → acc !! k = None) →
  for_each replay_line acc lines = Ok (list_to_map records ∪ acc).
Proof.
  intros H. revert acc. induction H as [|[k r] line records lines (Hd & Hnl & Hne & Hlen & Hk & Hdig) _ IH]; intros acc Hnd Hacc.
  { cbn. by rewrite map_empty_union. }
  cbn [fst snd] in *. rewrite fmap_cons in Hnd, Hacc. apply NoDup_cons in Hnd as [Hfresh Hnd].
  assert (replay_line acc line = Ok (<[k := r]> acc)) as Hstep.
  { unfold replay_line. rewrite (proj2 (Z.leb_gt _ _)) by done. rewrite Hd. cbn [fst snd].
    rewrite !bool_decide_false by done. cbn [orb]. by rewrite (Hacc k) by (by left). }
  cbn [for_each]. rewrite Hstep. cbn [rbind]. rewrite IH.
  - f_equal. cbn. rewrite <-insert_union_l. symmetry. apply insert_union_r. by apply not_elem_of_list_to_map_1.
  - done.
  - intros k' Hk'. rewrite lookup_insert_ne; [apply Hacc; by right|]. intros ->. done.
Qed.

Lemma OpenFileLedger_synced l : ledger_synced l → OpenFileLedger (ledger_text l) = Ok (mkFileLedger (ledger_text l) (ledger_results l) []).
Proof.
  intros [l0 records lines Ht Hr Hnd Hm]. unfold OpenFileLedger. rewrite Ht, scan_ledger_lines.
  - rewrite (replay_lines ∅ records lines) by (done || intros; apply lookup_empty). cbn [rbind]. by rewrite map_union_empty, Hm.
  - clear -Hr. induction Hr as [|kr line records lines (_ & H & _) _ IH]; constructor; auto.
Qed.

Section Life.
Context {laws : LedgerCodecLaws codec}.

(** The lives of a ledger whose failing writes leave nothing behind, with records that
    fit a line. *)
Inductive ledger_life : FileLedger → Prop :=
  | ledger_fresh l : OpenFileLedger "" = Ok l → ledger_life l
  | ledger_reopened l l' : ledger_life l → OpenFileLedger (ledger_text l) = Ok l' → ledger_life l'
  | ledger_disk l failures : ledger_life l → (∀ torn, Some torn ∈ failures → torn = "") →
      ledger_life (mkFileLedger (ledger_text l) (ledger_results l) failures)
  | ledger_put l key r l' res :
      ledger_life l → (∀ torn, Some torn ∈ ledger_failures l → torn = "") → key ≠ "" → DR_EnvelopeDigest r ≠ "" →
      (∀ line, encode_record (key, r) = Some line → (Z.of_nat (String.length line) < maxLedgerLine)) →
      FileLedger_Put l key r = (l', res) → ledger_life l'.

Lemma put_synced l key r l' res :
  ledger_synced l → (∀ torn, Some torn ∈ ledger_failures l → torn = "") → key ≠ "" → DR_EnvelopeDigest r ≠ "" →
  (∀ line, encode_record (key, r) = Some line → (Z.of_nat (String.length line) < maxLedgerLine)) →
  FileLedger_Put l key r = (l', res) → ledger_synced l'.
Proof.
  intros Hs Htorn Hk Hd Hlen H. unfold FileLedger_Put in H.
  destruct (ledger_results l !! key) as [|] eqn:Hkey; [by injection H as <- _|].
  destruct (encode_record (key, r)) as [line|] eqn:He; [|by injection H as <- _].
  destruct (decode_encode_record _ _ He) as (Hdec & Hnl & Hne). destruct Hs as [l records lines Ht Hr Hnd Hm].
  assert (∀ failures, ledger_synced (mkFileLedger (ledger_text l +:+ line +:+ String newline "") (<[key := r]> (ledger_results l)) failures)) as Hok.
  { intros failures. assert (key ∉ records.*1) as Hfresh by (rewrite Hm in Hkey; by apply not_elem_of_list_to_map_2 in Hkey).
    apply (ledger_synced_intro _ (records ++ [(key, r)]) (lines ++ [line])).
    - cbn. by rewrite ledger_lines_snoc, Ht.
    - apply Forall2_app; [done|]. apply Forall2_cons. split; [|constructor]. cbn [fst snd].
      split; [done|]. split; [done|]. split; [done|]. split; [by apply Hlen|done].
    - rewrite fmap_app. apply NoDup_app. split; [done|]. split; [|apply NoDup_singleton]. cbn.
      intros x Hx ->%list_elem_of_singleton. done.
    - cbn. rewrite Hm, list_to_map_app. cbn.
      rewrite <-insert_union_r by (by apply not_elem_of_list_to_map_1). by rewrite map_union_empty. }
  destruct (ledger_failures l) as [|[torn|] rest] eqn:Hf; [by injection H as <- _| |by injection H as <- _].
  injection H as <- _. rewrite (Htorn torn) by (by left). rewrite append_empty. by apply (ledger_synced_intro _ records lines).
Qed.

Lemma ledger_life_synced l : ledger_life l → ledger_synced l.
Proof.
  induction 1 as [l H|l l' _ IH H|l failures _ IH _|l key r l' res _ IH Ht Hk Hd Hlen H].
  - injection H as <-. apply (ledger_synced_intro _ [] []); [done|constructor|constructor|done].
  - rewrite (OpenFileLedger_synced l IH) in H. injection H as <-.
    destruct IH as [l records lines H1 H2 H3 H4]. by apply (ledger_synced_intro _ records lines).
  - destruct IH as [l records lines H1 H2 H3 H4]. by apply (ledger_synced_intro _ records lines).
  - exact (put_synced l key r l' res IH Ht Hk Hd Hlen H).
Qed.

(** What a node has done is not forgotten: whatever results a ledger stored, failed
    to store or refused, opening its file again gives back exactly the results it held,
    so that a restarted node still answers a retry with the result of the first time. *)
Theorem ledger_survives_restart l (H : ledger_life l) :
  OpenFileLedger (ledger_text l) = Ok (mkFileLedger (ledger_text l) (ledger_results l) []).
Proof. by apply OpenFileLedger_synced, ledger_life_synced. Qed.

(** A write cut short leaves a ledger no node can open: the partial line is not a
    record, and nothing repairs the file; nor does storing the next result, which lands
    on the same line. *)
Theorem torn_ledger_unreadable l torn line
    (H : ledger_life l) (Hn : no_break torn = true) (Hne : torn ≠ "") (Hbad : decode_record torn = None)
    (Hn' : no_break line = true) (Hbad' : decode_record (torn +:+ line) = None) :
  (∃ err, OpenFileLedger (ledger_text l +:+ torn) = Err err) ∧
  (∃ err, OpenFileLedger (ledger_text l +:+ torn +:+ line +:+ String newline "") = Err err).
Proof.
  destruct (ledger_life_synced l H) as [l records lines Ht Hr Hnd Hm].
  assert (Forall (λ line, no_break line = true) lines) as Hlines.
  { clear -Hr. induction Hr as [|kr x records lines (_ & Hx & _) _ IH]; constructor; auto. }
  assert (∀ t, split_on newline (ledger_lines lines +:+ t) = lines ++ split_on newline t) as Hsplit.
  { intros t. clear -Hlines. induction Hlines as [|x lines Hx _ IH]; [done|]. cbn [ledger_lines app].
    rewrite <-text_app_assoc, split_on_line by by apply no_break_newline.
    change (String newline (ledger_lines lines) +:+ t) with (String newline (ledger_lines lines +:+ t)).
    cbn [split_on]. rewrite bool_decide_true, IH by done. by rewrite append_empty. }
  assert (∀ x, decode_record x = None → x ≠ "" → ∃ err, for_each replay_line ∅ (lines ++ [x]) = Err err) as Hfail.
  { intros x Hx _. rewrite for_each_app, (replay_lines ∅ records lines) by (done || intros; apply lookup_empty).
    cbn [rbind for_each]. unfold replay_line. rewrite Hx. destruct (_ <=? _); by eexists. }
  assert (∀ x, no_break x = true → split_on newline x = [x]) as Hone.
  { intros x Hx. rewrite <-(append_empty x) at 1. rewrite split_on_line by by apply no_break_newline. cbn. by rewrite append_empty. }
  unfold OpenFileLedger. rewrite Ht. split.
  - unfold scan_lines. rewrite Hsplit, Hone, last_snoc, bool_decide_false by congruence.
    rewrite drop_cr_lines by (apply Forall_app_2; [done|by constructor]).
    destruct (Hfail torn Hbad Hne) as [err ->]. by exists err.
  - rewrite (text_app_assoc torn). unfold scan_lines. rewrite Hsplit.
    assert (no_break (torn +:+ line) = true) as Hnl by (by apply no_break_app).
    rewrite split_on_line by by apply no_break_newline. cbn [split_on]. rewrite (bool_decide_true (newline = newline)) by done. rewrite append_empty.
    change (lines ++ [torn +:+ line; ""]) with (lines ++ [torn +:+ line] ++ [""]).
    rewrite (assoc_L (++)), last_snoc, bool_decide_true by done. rewrite length_app. cbn [length].
    replace (length (lines ++ [torn +:+ line]) + 1 - 1)%nat with (length (lines ++ [torn +:+ line])) by lia.
    rewrite take_app_length, drop_cr_lines by (apply Forall_app_2; [done|by constructor]). destruct (Hfail (torn +:+ line) Hbad') as [err ->]; [by destruct torn|]. by exists err.
Qed.
End Life.
End LedgerFile.

(** ** The control plane's side (src/node/remote.go) *)

Section Remote.
Context {att : Attest} {signer : Signer} {raw : RawBase64} {envelopes : EnvelopeCodec} {evidences : EvidenceCodec}
  {digest : Digest}.
(** [Transport.Send], over whatever state the connection keeps. *)
Context {T : Type} (send : T → SignedAction → T * result DispatchResponse).

Record RemoteExecutor := mkRemoteExecutor {
  Remote_NodeID : string; Remote_KeyID : string; Remote_PrivateKey : string; Remote_Transport : option T;
  Remote_TTL : duration; Remote_GoalID : string; Remote_ProposalID : string; Remote_Revision : Z; Remote_LeaseID : string;
  Remote_NodeKeys : gmap string string; Remote_RequireAttestation : bool; Remote_AttestationMaxAge : duration;
  Remote_sequence : Z }.
#[export] Instance eta_RemoteExecutor : Eta RemoteExecutor := λ r,
  mkRemoteExecutor (Remote_NodeID r) (Remote_KeyID r) (Remote_PrivateKey r) (Remote_Transport r) (Remote_TTL r)
    (Remote_GoalID r) (Remote_ProposalID r) (Remote_Revision r) (Remote_LeaseID r) (Remote_NodeKeys r)
    (Remote_RequireAttestation r) (Remote_AttestationMaxAge r) (Remote_sequence r).

Definition NewRemoteExecutor (nodeID keyID key : string) (transport : option T) : RemoteExecutor :=
  mkRemoteExecutor nodeID keyID key transport DefaultEnvelopeTTL "" "" 0 "" ∅ false 0 0.

Definition Remote_Bind (x : RemoteExecutor) (goalID proposalID : string) (revision : Z) (leaseID : string) : RemoteExecutor :=
  x <| Remote_GoalID := goalID |> <| Remote_ProposalID := proposalID |> <| Remote_Revision := revision |>
    <| Remote_LeaseID := leaseID |>.

Definition attestationMaxAge (x : RemoteExecutor) : duration :=
  if 0 <? Remote_AttestationMaxAge x then Remote_AttestationMaxAge x else DefaultAttestationMaxAge.

Definition trustedEvidence (x : RemoteExecutor) (now : time) (r : DispatchResult) : result Evidence :=
  if bool_decide (Remote_NodeKeys x = ∅)
  then if Remote_RequireAttestation x
       then Err (Errorf "attestation is required but no enrolled node keys are configured") else Ok (DR_Evidence r)
  else match DR_Attested r with
       | None => if Remote_RequireAttestation x
                 then Err (Errorf "node %q returned unattested evidence for action %q") else Ok (DR_Evidence r)
       | Some attested =>
           let* evidence := wrap_err "evidence for action %q: %w"
             (VerifyEvidence attested (Remote_NodeKeys x) now (attestationMaxAge x)) in
           refuse (bool_decide (Attested_NodeID attested ≠ Remote_NodeID x))
             "evidence for action %q is attested by %q, expected %q";
           Ok evidence
       end.

(** The envelope of one issuance, numbered [sequence]. *)
Definition issue (x : RemoteExecutor) (now : time) (sequence : Z) (a : Action) : ActionEnvelope :=
  mkActionEnvelope EnvelopeVersion (Remote_ProposalID x +:+ "-" +:+ Sprint sequence) (Remote_NodeID x) (Remote_GoalID x)
    (Remote_ProposalID x) (Remote_Revision x)
    (if bool_decide (Remote_LeaseID x = "") then Remote_ProposalID x else Remote_LeaseID x)
    (Remote_ProposalID x +:+ "/" +:+ Action_ID a) now
    (time_Add now (if Remote_TTL x <=? 0 then DefaultEnvelopeTTL else Remote_TTL x)) a.

Definition Remote_Execute (clock : nat → time) (x : RemoteExecutor) (a : Action) : RemoteExecutor * result Evidence :=
  match Remote_Transport x with
  | None => (x, Err (Errorf "remote executor has no transport"))
  | Some t =>
      if bool_decide (Remote_GoalID x = "") || bool_decide (Remote_ProposalID x = "")
      then (x, Err (Errorf "remote executor was not bound to an authorized proposal"))
      else if ControlPlaneLocal (Action_Kind a) then (x, CordonEvidence a)
      else
        let sequence := u64 (Remote_sequence x + 1) in
        let x := x <| Remote_sequence := sequence |> in
        match Sign (issue x (clock 0%nat) sequence a) (Remote_KeyID x) (Remote_PrivateKey x) with
        | Err err => (x, Err (Wrapf "sign action %q: %w" err))
        | Ok signed =>
            let '(t, r) := send t signed in
            let x := x <| Remote_Transport := Some t |> in
            match r with
            | Err err => (x, Err (Wrapf "dispatch action %q: %w" err))
            | Ok response =>
                if bool_decide (Resp_Error response ≠ "") then (x, Err (Errorf "node rejected action %q: %s"))
                else match Resp_Result response with
                     | None => (x, Err (Errorf "node returned no result for action %q"))
                     | Some r => (x, trustedEvidence x (clock 1%nat) r)
                     end
            end
        end
  end.

(** ** What the control plane believes *)

Lemma VerifyEvidence_inv attested keys now maxAge e :
  VerifyEvidence attested keys now maxAge = Ok e →
  signed_with keys (Attested_NodeID attested) (Attested_EvidenceBytes attested) (Attested_EvidenceSignature attested) ∧
  decode_evidence (Attested_EvidenceBytes attested) = Decoded e ∧
  (observed e "node" = "" ∨ observed e "node" = Attested_NodeID attested) ∧
  (0 < maxAge < int_max → Ev_ObservedAt e ≠ 0 → now - maxAge <= Ev_ObservedAt e <= now + 30 * Second).
Proof.
  unfold VerifyEvidence. intros H. inv_ok H. destruct (decode_evidence _) as [|?|e'] eqn:Hd; [done|done|].
  inv_ok H. subst e'. split_and!; [|done| |].
  - bool_simpl. do 2 eexists. split_and!; try done. by apply Nat.eqb_eq.
  - destruct (decide (observed e "node" = "")) as [|Hn]; [by left|right].
    match goal with H : bool_decide _ && bool_decide _ = false |- _ => rename H into Hobs end.
    rewrite (bool_decide_true (observed e "node" ≠ "")) in Hobs by done. cbn [andb] in Hobs. apply bool_decide_eq_false in Hobs.
    by destruct (decide (observed e "node" = Attested_NodeID attested)).
  - intros Hage Hz. unfold IsZero, After, time_Add in *.
    rewrite (proj2 (Z.ltb_lt 0 maxAge)), (proj2 (Z.eqb_neq (Ev_ObservedAt e) 0)) in * by (done || lia). cbn [andb negb] in *.
    bool_simpl. unfold time_Sub, int_max, int_min in *. lia.
Qed.

(** What the control plane believes a node did, that node signed.  Evidence an
    executor that requires attestation returns for an action a node was to perform
    carries a signature that verifies with the enrolled key of the node it addressed,
    claims no other node as its observer, and is neither older than the limit nor more
    than 30 seconds ahead. *)
Theorem remote_evidence_attested clock x a x' e
    (Hreq : Remote_RequireAttestation x = true) (Hremote : ControlPlaneLocal (Action_Kind a) = false)
    (Hage : attestationMaxAge x < int_max)
    (H : Remote_Execute clock x a = (x', Ok e)) :
  ∃ attested, Attested_NodeID attested = Remote_NodeID x ∧
    signed_with (Remote_NodeKeys x) (Remote_NodeID x) (Attested_EvidenceBytes attested) (Attested_EvidenceSignature attested) ∧
    decode_evidence (Attested_EvidenceBytes attested) = Decoded e ∧
    (observed e "node" = "" ∨ observed e "node" = Remote_NodeID x) ∧
    (Ev_ObservedAt e ≠ 0 → clock 1%nat - attestationMaxAge x <= Ev_ObservedAt e <= clock 1%nat + 30 * Second).
Proof.
  unfold Remote_Execute in H. destruct (Remote_Transport x) as [t|]; [|done]. destruct (_ || _); [done|]. rewrite Hremote in H.
  destruct (Sign _ _ _) as [signed|]; [|done]. destruct (send t signed) as [t' [response|]]; [|done].
  destruct (bool_decide _); [done|]. destruct (Resp_Result response) as [r|]; [|done]. injection H as _ H.
  unfold trustedEvidence in H. simpl_set. rewrite Hreq in H. destruct (bool_decide _); [done|].
  destruct (DR_Attested r) as [attested|]; [|done]. inv_ok H. subst.
  match goal with H : wrap_err _ (VerifyEvidence _ _ _ _) = Ok _ |- _ => rename H into Hw end.
  destruct (VerifyEvidence _ _ _ _) as [e'|] eqn:Hv; [|done]. injection Hw as ->.
  assert (Attested_NodeID attested = Remote_NodeID x) as Hn.
  { match goal with H : bool_decide (_ ≠ _) = false |- _ => apply bool_decide_eq_false in H; simpl_set end.
    by destruct (decide (Attested_NodeID attested = Remote_NodeID x)). }
  destruct (VerifyEvidence_inv _ _ _ _ _ Hv) as (Hs & Hd & Ho & Ht). rewrite Hn in *. exists attested. split_and!; try done.
  intros Hz. apply Ht; [|done]. split; [|done]. unfold attestationMaxAge. simpl_set.
  destruct (Z.ltb_spec 0 (Remote_AttestationMaxAge x)); [done|]. done.
Qed.

(** An honest retry is refused once the first answer has aged.  A node answers a
    retry with the stored result, attested when the work was done; more than the age
    limit later the control plane refuses that evidence, and as the stored result never
    changes, it refuses every further retry. *)
Theorem stored_result_goes_stale x r attested e now
    (Hkeys : Remote_NodeKeys x ≠ ∅) (Ha : DR_Attested r = Some attested)
    (Hd : decode_evidence (Attested_EvidenceBytes attested) = Decoded e) (Hz : Ev_ObservedAt e ≠ 0)
    (Hage : attestationMaxAge x < int_max) (Hold : attestationMaxAge x < now - Ev_ObservedAt e) :
  ∃ err, trustedEvidence x now r = Err err.
Proof.
  unfold trustedEvidence. rewrite bool_decide_false by done. rewrite Ha.
  destruct (VerifyEvidence _ _ _ _) as [e'|err] eqn:Hv; cbn [wrap_err rbind]; [|by eexists]. exfalso.
  destruct (VerifyEvidence_inv _ _ _ _ _ Hv) as (_ & Hd' & _ & Ht). rewrite Hd in Hd'. injection Hd' as <-.
  assert (0 < attestationMaxAge x) as Hpos by (unfold attestationMaxAge; destruct (Z.ltb_spec 0 (Remote_AttestationMaxAge x)); done).
  specialize (Ht ltac:(done) Hz). lia.
Qed.

(** C40: a node can grant itself authority.  The executor checks who signed the evidence,
    not what it is evidence of: whatever action it was sent, a node may answer with an
    attested [approval.granted] observation, which is believed and projected like any
    other, and the approval it describes stands as if an operator had signed it. *)
Theorem node_can_grant_approval x r attested e now w
    (Ha : DR_Attested r = Some attested) (Hn : Attested_NodeID attested = Remote_NodeID x)
    (Hv : VerifyEvidence attested (Remote_NodeKeys x) now (attestationMaxAge x) = Ok e)
    (Hk : Ev_Kind e = EvidenceApprovalGranted) (Ht : Ev_Target e ≠ "") (Hg : observed e "goal" ≠ "")
    (Hs : observed e "scope" ∈ ApprovalScopes) :
  trustedEvidence x now r = Ok e ∧
  ∃ w', Project w e = Ok w' ∧ Approvals w' !! Ev_Target e = Some (granted_by e).
Proof.
  split.
  - unfold trustedEvidence. destruct (VerifyEvidence_inv _ _ _ _ _ Hv) as ((public & signature & Hp & _) & _).
    rewrite bool_decide_false by (intros E; by rewrite E in Hp). rewrite Ha, Hv. cbn [wrap_err rbind].
    by rewrite bool_decide_false by (intros E; by apply E).
  - assert (is_Ok (Project w e)) as Hok.
    { rewrite Project_stamp. unfold projectInto. rewrite Hk. unfold projectApprovalGranted.
      rewrite (bool_decide_false (Ev_Target e = "")), (bool_decide_false (observed e "goal" = "")) by done.
      rewrite (bool_decide_false (observed e "scope" = "")) by (intros E; rewrite E in Hs; by apply unnamed_scope in Hs).
      by rewrite (bool_decide_false (observed e "scope" ∉ ApprovalScopes)) by (intros H; by apply H). }
    destruct (Project w e) as [w'|] eqn:Hp; [|done]. exists w'. split; [done|].
    rewrite (Project_approvals _ _ _ (Ev_Target e) Hp). unfold about_approval.
    rewrite Hk, (bool_decide_true (Ev_Target e = Ev_Target e)), (bool_decide_true (EvidenceApprovalGranted = EvidenceApprovalGranted)) by done.
    done.
Qed.
End Remote.

(** ** A sample: one action, its retry, and a forged approval *)

Module DispatchSample.
#[local] Existing Instances KeySample.sample_attest KeySample.sample_signer MemoryLedger.
#[local] Instance sample_raw : RawBase64 := {| raw_Encode s := s; raw_Decode s := Some s |}.
#[local] Instance sample_digest : Digest := λ s, "sha256:" +:+ s.
#[local] Instance sample_desired : DesiredCodec := {| encode_desired _ := ""; decode_desired _ := None |}.

Definition controller_key : string := KeySample.key_bytes "c" +:+ KeySample.key_bytes "d".
Definition node_key : string := KeySample.key_bytes "n" +:+ KeySample.key_bytes "n".
Definition pull : Action :=
  Action_zero <| Action_ID := "a1" |> <| Action_Kind := ActionPullImage |> <| Action_Target := "n1" |>
    <| Action_Node := "n1" |> <| Action_Image := "web@sha256:1" |>.
Definition envelope (id : string) (issued : time) : ActionEnvelope :=
  mkActionEnvelope 1 id "n1" "g1" "p1" 3 "lease-1" "p1/a1" issued (issued + Minute) pull.
#[local] Instance sample_envelopes : EnvelopeCodec := {|
  encode_envelope e := Some (Env_ID e);
  decode_envelope s := if String.eqb s "e1" then Decoded (envelope "e1" 100)
                       else if String.eqb s "e2" then Decoded (envelope "e2" (100 + Minute)) else Malformed;
  encode_work w := Some (Work_IdempotencyKey w) |}.

Definition pulled : Evidence := mkEvidence EvidenceImagePresent "n1" "" 0 0 ∅.
Definition forged_grant : Evidence :=
  mkEvidence EvidenceApprovalGranted "a9" "node:n1" 150 0 (<["goal" := "g1"]> {["scope" := "public-route"]}).
Definition attributed : Evidence :=
  mkEvidence EvidenceImagePresent "n1" "node:n1" 102 0 (<["image" := "web@sha256:1"]> {["node" := "n1"]}).
#[local] Instance sample_evidences : EvidenceCodec := {|
  encode_evidence e := Some (if bool_decide (Ev_Kind e = EvidenceApprovalGranted) then "grant" else "pulled");
  decode_evidence s := if String.eqb s "pulled" then Decoded attributed
                       else if String.eqb s "grant" then Decoded forged_grant else Malformed |}.

(** The host counts the actions it performed. *)
#[local] Instance counting_runtime : Runtime nat := λ n _, (S n, Ok pulled).

Definition signed (id : string) : SignedAction := mkSignedAction id "k1" (ed25519_Sign controller_key id).
Definition dispatcher : @Dispatcher nat (gmap string DispatchResult) :=
  mkDispatcher "n1" {["k1" := ed25519_Public controller_key]} node_key 0%nat ∅ None ∅.
Definition at_100 (i : nat) : time := 100 + Z.of_nat i.
Definition at_retry (i : nat) : time := 100 + Minute + Z.of_nat i.
Definition answered : @Dispatcher nat (gmap string DispatchResult) * result DispatchResult :=
  Dispatch None true at_100 dispatcher (signed "e1").
Definition first_answer : DispatchResult :=
  match answered.2 with Ok r => r | Err _ => mkDispatchResult "" pulled None end.

Lemma dispatch_authorized_witness :
  Disp_Runtime answered.1 = 1%nat ∧
  (Disp_Runtime answered.1 = Disp_Runtime dispatcher ∨
   ∃ e, in_force (Disp_Keys dispatcher) "n1" 100 (signed "e1") e ∧
    ((∃ (observe : Observer nat) target, None = Some observe ∧ Action_Kind (Env_Action e) = ActionProbeReadiness ∧
        Action_Probe (Env_Action e) = Some target ∧ Disp_Runtime answered.1 = (observe (Disp_Runtime dispatcher) target).1) ∨
     (ledger_Get (Disp_Ledger dispatcher) (Env_IdempotencyKey e) = None ∧ checkLease dispatcher 101 e = Ok tt ∧
        Disp_Runtime answered.1 = (runtime_Execute (Disp_Runtime dispatcher) (Env_Action e)).1))).
Proof.
  split; [vm_compute; reflexivity|].
  exact (dispatch_authorized None true at_100 dispatcher (signed "e1") answered.1 answered.2 (surjective_pairing answered)).
Defined.

Lemma dispatch_at_most_once_witness :
  Dispatch None true at_retry answered.1 (signed "e2") = (answered.1, Ok first_answer).
Proof.
  refine (eq_trans (dispatch_at_most_once None true at_100 dispatcher (signed "e1") answered.1 first_answer (envelope "e1" 100)
    (digestOf "e1") answered.1 true at_retry (signed "e2") (envelope "e2" (100 + Minute)) (digestOf "e2") _ _ _ _ _ _ _) _).
  - vm_compute. reflexivity.
  - vm_compute. reflexivity.
  - vm_compute. discriminate.
  - apply rtc_refl.
  - vm_compute. reflexivity.
  - vm_compute. discriminate.
  - vm_compute. reflexivity.
  - vm_compute. reflexivity.
Defined.

Definition remote (t : nat) : @RemoteExecutor nat :=
  mkRemoteExecutor "n1" "k1" controller_key (Some t) 0 "g1" "p1" 3 "lease-1" {["n1" := ed25519_Public node_key]} true 0 0.
Definition reply (r : DispatchResult) (t : nat) (_ : SignedAction) : nat * result DispatchResponse :=
  (S t, Ok (mkDispatchResponse "e1" (Some r) "")).

Lemma remote_evidence_attested_witness :
  Remote_Execute (reply first_answer) at_100 (remote 0) pull = ((remote 1) <| Remote_sequence := 1 |>, Ok attributed) ∧
  (observed attributed "node" = "" ∨ observed attributed "node" = "n1").
Proof.
  assert (Remote_Execute (reply first_answer) at_100 (remote 0) pull = ((remote 1) <| Remote_sequence := 1 |>, Ok attributed)) as H
    by (vm_compute; reflexivity).
  split; [exact H|].
  destruct (remote_evidence_attested (reply first_answer) at_100 (remote 0) pull ((remote 1) <| Remote_sequence := 1 |>) attributed
    eq_refl eq_refl ltac:(apply Z.ltb_lt; vm_compute; reflexivity) H) as (attested & _ & _ & _ & Ho & _).
  exact Ho.
Defined.

Lemma stored_result_goes_stale_witness : ∃ err, trustedEvidence (remote 0) (102 + 6 * Minute) first_answer = Err err.
Proof.
  refine (stored_result_goes_stale (remote 0) first_answer (default (mkAttestedEvidence "" "" "") (DR_Attested first_answer)) attributed
    (102 + 6 * Minute) _ _ _ _ _ _).
  - vm_compute. discriminate.
  - vm_compute. reflexivity.
  - vm_compute. reflexivity.
  - vm_compute. discriminate.
  - apply Z.ltb_lt. vm_compute. reflexivity.
  - apply Z.ltb_lt. vm_compute. reflexivity.
Defined.

Definition forged_answer : DispatchResult :=
  mkDispatchResult "" pulled (Some (mkAttestedEvidence "grant" "n1" (ed25519_Sign node_key "grant"))).

Lemma node_can_grant_approval_witness :
  trustedEvidence (remote 0) 160 forged_answer = Ok forged_grant ∧
  ∃ w', Project ApprovalSample.small_world forged_grant = Ok w' ∧
    Approvals w' !! Ev_Target forged_grant = Some (granted_by forged_grant).
Proof.
  refine (node_can_grant_approval (remote 0) forged_answer (mkAttestedEvidence "grant" "n1" (ed25519_Sign node_key "grant"))
    forged_grant 160 ApprovalSample.small_world _ _ _ _ _ _ _); try (vm_compute; reflexivity); try (vm_compute; discriminate).
  apply (bool_decide_unpack _). vm_compute. exact I.
Defined.

(** A ledger on disk whose codec knows one record. *)
#[local] Instance evidence_eq_dec : EqDecision Evidence.
Proof. solve_decision. Defined.
#[local] Instance attested_eq_dec : EqDecision AttestedEvidence.
Proof. solve_decision. Defined.
#[local] Instance dispatch_result_eq_dec : EqDecision DispatchResult.
Proof. solve_decision. Defined.
Definition stored : DispatchResult := mkDispatchResult "d" pulled None.
#[local] Instance sample_records : LedgerCodec := {|
  encode_record kr := if bool_decide (kr = ("p1/a1", stored)) then Some "{1}" else None;
  decode_record s := if String.eqb s "{1}" then Some ("p1/a1", stored) else None |}.
#[local] Instance sample_records_laws : LedgerCodecLaws sample_records.
Proof. intros kr line. cbn. case_bool_decide as Hk; [|done]. intros [= <-]. by rewrite Hk. Qed.

Definition opened : FileLedger := mkFileLedger "" ∅ [].
Definition one_stored : FileLedger := (FileLedger_Put opened "p1/a1" stored).1.

Lemma one_stored_life : ledger_life one_stored.
Proof.
  refine (ledger_put opened "p1/a1" stored one_stored (Ok tt) (ledger_fresh opened _) _ _ _ _ _).
  - reflexivity.
  - intros torn H. by apply elem_of_nil in H.
  - discriminate.
  - discriminate.
  - intros line. cbn. case_bool_decide; [|done]. intros [= <-]. reflexivity.
  - vm_compute. reflexivity.
Qed.

Lemma ledger_survives_restart_witness :
  ledger_results one_stored !! "p1/a1" = Some stored ∧
  OpenFileLedger (ledger_text one_stored) = Ok (mkFileLedger (ledger_text one_stored) (ledger_results one_stored) []).
Proof. split; [vm_compute; reflexivity|]. exact (ledger_survives_restart one_stored one_stored_life). Defined.

Lemma torn_ledger_unreadable_witness :
  (∃ err, OpenFileLedger (ledger_text one_stored +:+ "{1") = Err err) ∧
  (∃ err, OpenFileLedger (ledger_text one_stored +:+ "{1" +:+ "{1}" +:+ String newline "") = Err err).
Proof.
  refine (torn_ledger_unreadable one_stored "{1" "{1}" one_stored_life _ _ _ _ _); vm_compute; (reflexivity || discriminate).
Defined.
End DispatchSample.
