(* ===== verification/Metering.v ===== *)
(** * Agent instances on a node (src/node/agent.go, the broker of src/node/queue.go)

    The node meters what an agent spends, keeps the tool envelope it was granted, the
    task it holds and the credential that says which allocation it is, each per
    allocation; the broker joins this to the work queue.  An operation of [Agents] holds
    its mutex throughout and is one step; a claim through the broker is three, and steps
    of other requests may come between them. *)

From S2P Require Import Prelude Types Text Engine WorkQueue.
Open Scope Z_scope.

Record meter := mkMeter { meter_budget : Budget; meter_spent : Budget; meter_refusals : Z }.

(** A map whose only value is [true] is the set of its keys. *)
Record Agents := mkAgents {
  Agents_envelopes : gmap string (list ToolGrant); Agents_tasks : gmap string string; Agents_draining : gset string;
  Agents_tokens : gmap string string; Agents_meters : gmap string meter }.
#[export] Instance eta_Agents : Eta Agents := λ r,
  mkAgents (Agents_envelopes r) (Agents_tasks r) (Agents_draining r) (Agents_tokens r) (Agents_meters r).

Definition NewAgents : Agents := mkAgents ∅ ∅ ∅ ∅ ∅.

(** ** Envelopes *)

(** The order [sameEnvelope] sorts by; grants it does not tell apart keep their order. *)
Definition grant_le (a b : ToolGrant) : Prop :=
  if bool_decide (Tool_Name a = Tool_Name b) then string_le (Tool_Scope a) (Tool_Scope b)
  else string_le (Tool_Name a) (Tool_Name b).
#[export] Instance grant_le_dec : RelDecision grant_le.
Proof. intros a b. unfold grant_le. destruct (bool_decide _); apply _. Defined.

Definition sameEnvelope (a b : list ToolGrant) : bool :=
  (len a =? len b) && bool_decide (merge_sort grant_le a = merge_sort grant_le b).

Definition grant (s : Agents) (a : Action) : Agents * result Evidence :=
  if bool_decide (Action_Target a = "") then (s, Err (Errorf "tool grant requires an allocation"))
  else if match Agents_envelopes s !! Action_Target a with
          | Some existing => negb (sameEnvelope existing (Action_Tools a))
          | None => false
          end then (s, Err (Errorf "allocation %q already holds a different tool envelope"))
  else (s <| Agents_envelopes ::= <[Action_Target a := Action_Tools a]> |>,
        Ok (mkEvidence EvidenceToolsGranted (Action_Target a) "" 0 0 {["count" := Sprint (len (Action_Tools a))]})).

Definition drain (s : Agents) (a : Action) : Agents * result Evidence :=
  if bool_decide (Action_Target a = "") then (s, Err (Errorf "drain requires an allocation"))
  else
    let task := default "" (Agents_tasks s !! Action_Target a) in
    (s <| Agents_draining ::= union {[Action_Target a]} |>,
     Ok (if bool_decide (task ≠ "")
         then mkEvidence EvidenceAgentDraining (Action_Target a) "" 0 0 (<["task" := task]> {["draining" := "true"]})
         else mkEvidence EvidenceAllocationDrained (Action_Target a) "" 0 0 {["drained" := "true"]})).

Definition Agents_Execute (s : Agents) (a : Action) : Agents * result Evidence :=
  match Action_Kind a with
  | ActionGrantTools => grant s a
  | ActionDrainAllocation => drain s a
  | _ => (s, Err (Errorf "agent capability cannot perform %q"))
  end.

Definition Draining (s : Agents) (allocation : string) : bool := bool_decide (allocation ∈ Agents_draining s).

(** ** Budgets *)

Definition ErrToolNotGranted : error := Errorf "tool is not in the allocation's grant envelope".
Definition ErrBudgetExhausted : error := Errorf "allocation has exhausted its budget".
Definition ErrDraining : error := Errorf "allocation is draining and may not take new work".
Definition ErrUnknownToken : error := Errorf "runtime token is not recognized".

Definition MayClaim (s : Agents) (allocation : string) : result unit :=
  need record := Agents_meters s !! allocation else "allocation %q holds no budget reservation";
  if Budget_Exhausts (meter_spent record) (meter_budget record) then Err ErrBudgetExhausted
  else if Draining s allocation then Err ErrDraining
  else refuse (bool_decide (default "" (Agents_tasks s !! allocation) ≠ "")) "allocation %q already holds task %q";
       Ok tt.

Definition Reserve (s : Agents) (allocation : string) (budget : Budget) : Agents :=
  s <| Agents_meters ::= <[allocation :=
         match Agents_meters s !! allocation with
         | None => mkMeter budget Budget_zero 0
         | Some existing => mkMeter budget (meter_spent existing) (meter_refusals existing)
         end]> |>.

Definition clampBudget (b : Budget) : Budget :=
  mkBudget (if Tokens b <? 0 then 0 else Tokens b) (if CostMillis b <? 0 then 0 else CostMillis b)
    (if WallSeconds b <? 0 then 0 else WallSeconds b) (if ToolCalls b <? 0 then 0 else ToolCalls b).

Definition put_meter (s : Agents) (allocation : string) (m : meter) : Agents :=
  s <| Agents_meters ::= <[allocation := m]> |>.

Definition Spend (s : Agents) (allocation : string) (delta : Budget) : Agents * (Budget * bool) :=
  match Agents_meters s !! allocation with
  | None => (s, (Budget_zero, false))
  | Some record =>
      let spent := Budget_Add (meter_spent record) (clampBudget delta) in
      (put_meter s allocation (mkMeter (meter_budget record) spent (meter_refusals record)),
       (spent, negb (Budget_Exhausts spent (meter_budget record))))
  end.

Definition Spent (s : Agents) (allocation : string) : Budget * bool :=
  match Agents_meters s !! allocation with None => (Budget_zero, false) | Some record => (meter_spent record, true) end.

Definition Agents_Exhausted (s : Agents) (allocation : string) : bool :=
  match Agents_meters s !! allocation with
  | None => false
  | Some record => Budget_Exhausts (meter_spent record) (meter_budget record)
  end.

Definition SpendEvidence (s : Agents) (allocation : string) : option Evidence :=
  record ← Agents_meters s !! allocation;
  let spent := meter_spent record in
  let observed := <["tokens" := Sprint (Tokens spent)]> (<["cost_millis" := Sprint (CostMillis spent)]>
    (<["wall_seconds" := Sprint (WallSeconds spent)]> (<["tool_calls" := Sprint (ToolCalls spent)]>
    {["exhausted" := Sprint_bool (Budget_Exhausts spent (meter_budget record))]}))) in
  Some (mkEvidence EvidenceAgentSpent allocation "" 0 0
    (if 0 <? meter_refusals record then <["tool_refusals" := Sprint (meter_refusals record)]> observed else observed)).

(** ** Identity *)

Definition revoke_tokens (s : Agents) (allocation : string) : gmap string string :=
  filter (λ '(_, held), held ≠ allocation) (Agents_tokens s).

(** [random] is the hexadecimal text of what [rand.Read] delivers, [None] if it fails. *)
Definition IssueToken (random : option string) (s : Agents) (allocation : string) : Agents * result string :=
  if bool_decide (allocation = "") then (s, Err (Errorf "token requires an allocation"))
  else match random with
       | None => (s, Err (Errorf "generate runtime token: %w"))
       | Some token => (s <| Agents_tokens := <[token := allocation]> (revoke_tokens s allocation) |>, Ok token)
       end.

Definition ResolveToken (s : Agents) (token : string) : result string :=
  if bool_decide (token = "") then Err ErrUnknownToken
  else match Agents_tokens s !! token with None => Err ErrUnknownToken | Some allocation => Ok allocation end.

(** ** Tools *)

Definition Tools (s : Agents) (allocation : string) : list ToolGrant := default [] (Agents_envelopes s !! allocation).

Definition allowsLocked (s : Agents) (allocation tool scope : string) : bool :=
  existsb (λ g, bool_decide (Tool_Name g = tool) && bool_decide (Tool_Scope g = scope)) (Tools s allocation).

Definition AuthorizeToolCall (s : Agents) (allocation tool scope : string) : Agents * result unit :=
  match Agents_meters s !! allocation with
  | None => (s, Err (Errorf "allocation %q holds no budget reservation"))
  | Some record =>
      if Budget_Exhausts (meter_spent record) (meter_budget record) then (s, Err ErrBudgetExhausted)
      else if negb (allowsLocked s allocation tool scope)
      then (put_meter s allocation (mkMeter (meter_budget record) (meter_spent record) (i64 (meter_refusals record + 1))),
            Err (Wrapf "allocation %q calling %q at scope %q: %w" ErrToolNotGranted))
      else
        let spent := meter_spent record in
        (put_meter s allocation (mkMeter (meter_budget record)
           (mkBudget (Tokens spent) (CostMillis spent) (WallSeconds spent) (i64 (ToolCalls spent + 1)))
           (meter_refusals record)), Ok tt)
  end.

Definition ToolRefusals (s : Agents) (allocation : string) : Z :=
  match Agents_meters s !! allocation with None => 0 | Some record => meter_refusals record end.

(** ** Task slots and release *)

Definition HoldTask (s : Agents) (allocation task : string) : Agents := s <| Agents_tasks ::= <[allocation := task]> |>.
Definition ReleaseTask (s : Agents) (allocation : string) : Agents := s <| Agents_tasks ::= delete allocation |>.

Definition Agents_Release (s : Agents) (allocation : string) : Agents :=
  mkAgents (delete allocation (Agents_envelopes s)) (delete allocation (Agents_tasks s))
    (Agents_draining s ∖ {[allocation]}) (revoke_tokens s allocation) (delete allocation (Agents_meters s)).

(** [ObserveReadiness]; [providers] is the reachability source, if the node has one. *)
Definition Agents_ObserveReadiness (providers : option (string → bool)) (s : Agents) (target : ProbeTarget)
    : result (bool * gmap string string) :=
  refuse (bool_decide (Probe_Kind target ≠ ProbeAgent)) "agent capability only serves agent probes";
  refuse (bool_decide (Probe_Provider target = "")) "agent probe for %q names no provider";
  let observed := <["provider" := Probe_Provider target]> {["probe" := ProbeAgent]} in
  match Agents_meters s !! Probe_Allocation target with
  | None => Ok (false, <["reason" := "no budget reservation on this node"]> observed)
  | Some record =>
      let observed := <["cost_millis_spent" := Sprint (CostMillis (meter_spent record))]>
        (<["tokens_spent" := Sprint (Tokens (meter_spent record))]> observed) in
      if Budget_Exhausts (meter_spent record) (meter_budget record)
      then Ok (false, <["reason" := "budget exhausted"]> observed)
      else match providers with
           | None => Err (Errorf "node has no provider reachability source")
           | Some reachable =>
               if reachable (Probe_Provider target) then Ok (true, observed)
               else Ok (false, <["reason" := "provider unreachable"]> observed)
           end
  end.

(** ** The broker (src/node/queue.go)

    A broker whose queue and agents are set; both are shared with the rest of the node
    and are threaded through. *)

Section Broker.
Context {codec : TaskCodec}.

Definition Broker_Claim (written : bool) (now : time) (q : WorkQueue) (s : Agents) (allocation : string)
    : WorkQueue * Agents * result (option QueueTask) :=
  match MayClaim s allocation with
  | Err e => (q, s, Err e)
  | Ok _ =>
      match Claim written q now allocation with
      | (q, Err e) => (q, s, Err e)
      | (q, Ok None) => (q, s, Ok None)
      | (q, Ok (Some task)) => (q, HoldTask s allocation (Task_ID task), Ok (Some task))
      end
  end.

(** The slot is freed once the queue has accepted. *)
Definition settle (s : Agents) (allocation : string) (r : WorkQueue * result unit) : WorkQueue * Agents * result unit :=
  match r with (q, Err e) => (q, s, Err e) | (q, Ok _) => (q, ReleaseTask s allocation, Ok tt) end.

Definition Broker_Ack (written : bool) (q : WorkQueue) (s : Agents) (allocation id : string)
    : WorkQueue * Agents * result unit := settle s allocation (Ack written q allocation id).
Definition Broker_Requeue (written : bool) (q : WorkQueue) (s : Agents) (allocation id : string)
    : WorkQueue * Agents * result unit := settle s allocation (Requeue written q allocation id).
Definition Broker_Release (written : bool) (q : WorkQueue) (s : Agents) (allocation : string)
    : WorkQueue * Agents * result unit := settle s allocation (ReleaseAllocation written q allocation).
End Broker.

(** ** What happens to an instance *)

Inductive agent_op :=
  | OpExecute (a : Action)
  | OpReserve (allocation : string) (budget : Budget)
  | OpSpend (allocation : string) (delta : Budget)
  | OpTool (allocation tool scope : string)
  | OpIssue (token allocation : string)
  | OpHold (allocation task : string)
  | OpFree (allocation : string)
  | OpDelete (allocation : string).

Inductive agent_reply :=
  | Reported (r : result Evidence)
  | Metered (r : Budget * bool)
  | Answered (r : result unit)
  | Issued (r : result string)
  | Done.

Definition perform_op (op : agent_op) (s : Agents) : Agents * agent_reply :=
  match op with
  | OpExecute a => let '(s, r) := Agents_Execute s a in (s, Reported r)
  | OpReserve x b => (Reserve s x b, Done)
  | OpSpend x d => let '(s, r) := Spend s x d in (s, Metered r)
  | OpTool x tool scope => let '(s, r) := AuthorizeToolCall s x tool scope in (s, Answered r)
  | OpIssue token x => let '(s, r) := IssueToken (Some token) s x in (s, Issued r)
  | OpHold x task => (HoldTask s x task, Done)
  | OpFree x => (ReleaseTask s x, Done)
  | OpDelete x => (Agents_Release s x, Done)
  end.

(** The allocation an operation is about, and what the node holds for one. *)
Definition subject (op : agent_op) : string :=
  match op with
  | OpExecute a => Action_Target a
  | OpReserve x _ | OpSpend x _ | OpTool x _ _ | OpIssue _ x | OpHold x _ | OpFree x | OpDelete x => x
  end.

Definition view (s : Agents) (x : string) : option (list ToolGrant) * option string * bool * option meter :=
  (Agents_envelopes s !! x, Agents_tasks s !! x, Draining s x, Agents_meters s !! x).

(** A token that is issued is not in use; 32 random bytes stand for that. *)
Definition fresh_token (op : agent_op) (s : Agents) : Prop :=
  match op with OpIssue token _ => Agents_tokens s !! token = None | _ => True end.

Definition agent_steps (P : agent_op → Prop) : Agents → Agents → Prop :=
  rtc (λ s s', ∃ op, P op ∧ s' = (perform_op op s).1).

Section AgentFacts.
Implicit Types (s : Agents) (x y : string) (op : agent_op).

Lemma Draining_union s x y : Draining (s <| Agents_draining ::= union {[x]} |>) y = bool_decide (y = x) || Draining s y.
Proof. unfold Draining. simpl_set. do 3 case_bool_decide; try done; set_solver. Qed.

Lemma Draining_meter s x m y : Draining (put_meter s x m) y = Draining s y.
Proof. done. Qed.

(** Each operation acts on the view of its own allocation alone. *)
Lemma view_other op s y : y ≠ subject op → view (perform_op op s).1 y = view s y.
Proof.
  intros Hy. destruct op as [a|x b|x d|x tool scope|token x|x task|x|x]; cbn [subject perform_op] in *.
  - unfold Agents_Execute. destruct (Action_Kind a); try done.
    + unfold grant. destruct (bool_decide _); [done|]. destruct (match _ with Some _ => _ | None => _ end); [done|].
      unfold view. cbn [fst]. simpl_set. by rewrite lookup_insert_ne.
    + unfold drain. destruct (bool_decide _); [done|]. unfold view. cbn [fst]. rewrite Draining_union. simpl_set.
      by rewrite bool_decide_false.
  - unfold view, Reserve, Draining. cbn [fst]. simpl_set. by rewrite lookup_insert_ne.
  - unfold Spend. destruct (Agents_meters s !! x); [|done]. unfold view, put_meter, Draining. cbn [fst]. simpl_set. by rewrite lookup_insert_ne.
  - unfold AuthorizeToolCall. destruct (Agents_meters s !! x); [|done]. destruct (Budget_Exhausts _ _); [done|].
    destruct (negb _); unfold view, put_meter, Draining; cbn [fst]; simpl_set; by rewrite lookup_insert_ne.
  - unfold IssueToken. by destruct (bool_decide _).
  - unfold view, HoldTask, Draining. cbn [fst]. simpl_set. by rewrite lookup_insert_ne.
  - unfold view, ReleaseTask, Draining. cbn [fst]. simpl_set. by rewrite lookup_delete_ne.
  - unfold view, Agents_Release, Draining. cbn. rewrite !lookup_delete_ne by done. repeat f_equal.
    do 2 case_bool_decide; try done; set_solver.
Qed.

Lemma view_own op s s' :
  view s (subject op) = view s' (subject op) →
  (perform_op op s).2 = (perform_op op s').2 ∧ view (perform_op op s).1 (subject op) = view (perform_op op s').1 (subject op).
Proof.
  intros Hv. pose proof Hv as Hview. unfold view in Hv. injection Hv as He Ht Hd Hm.
  destruct op as [a|x b|x d|x tool scope|token x|x task|x|x]; cbn [subject perform_op] in *.
  - unfold Agents_Execute. destruct (Action_Kind a); try done.
    + unfold grant. rewrite He. destruct (bool_decide _); [done|]. destruct (match _ with Some _ => _ | None => _ end); [done|].
      unfold view. cbn [fst snd]. simpl_set. rewrite !lookup_insert_eq. unfold Draining in *. simpl_set. split; [done|]. congruence.
    + unfold drain. rewrite Ht. destruct (bool_decide _); [done|]. unfold view. cbn [fst snd]. rewrite !Draining_union. simpl_set.
      split; [done|]. congruence.
  - unfold view, Reserve, Draining in *. cbn [fst snd]. simpl_set. rewrite !lookup_insert_eq, Hm. split; [done|]. congruence.
  - unfold Spend. rewrite Hm. destruct (Agents_meters s' !! x); [|done]. unfold view, put_meter, Draining in *. cbn [fst snd]. simpl_set.
    rewrite !lookup_insert_eq. split; [done|]. congruence.
  - unfold AuthorizeToolCall, allowsLocked, Tools. rewrite Hm, He. destruct (Agents_meters s' !! x); [|done].
    destruct (Budget_Exhausts _ _); [done|].
    destruct (negb _); unfold view, put_meter, Draining in *; cbn [fst snd]; simpl_set; rewrite !lookup_insert_eq; (split; [done|]); congruence.
  - unfold IssueToken. by destruct (bool_decide _).
  - unfold view, HoldTask, Draining in *. cbn [fst snd]. simpl_set. rewrite !lookup_insert_eq. split; [done|]. congruence.
  - unfold view, ReleaseTask, Draining in *. cbn [fst snd]. simpl_set. rewrite !lookup_delete_eq. split; [done|]. congruence.
  - unfold view, Agents_Release, Draining. cbn. rewrite !lookup_delete_eq. split; [done|]. repeat f_equal.
    do 2 case_bool_decide; try done; set_solver.
Qed.

Lemma tokens_kept op s token y :
  fresh_token op s → y ≠ subject op → Agents_tokens s !! token = Some y → Agents_tokens (perform_op op s).1 !! token = Some y.
Proof.
  intros Hf Hy Ht. destruct op as [a|x b|x d|x tool scope|token' x|x task|x|x]; cbn [subject perform_op fresh_token] in *; try done.
  - unfold Agents_Execute, grant, drain. by destruct (Action_Kind a); repeat case_match; simplify_eq.
  - unfold Spend. by destruct (Agents_meters s !! x).
  - unfold AuthorizeToolCall. by repeat case_match; simplify_eq.
  - unfold IssueToken. destruct (bool_decide _); [done|]. cbn [fst]. simpl_set.
    rewrite lookup_insert_ne by congruence. unfold revoke_tokens. by rewrite map_lookup_filter, Ht; cbn; rewrite option_guard_True.
  - cbn. unfold revoke_tokens. by rewrite map_lookup_filter, Ht; cbn; rewrite option_guard_True.
Qed.

(** Agents on one node do not see each other.  Whatever happens to one allocation, what
    the node holds for every other one (envelope, task, drain, meter) is untouched and
    its credential keeps working; and what an operation answers and does to its own
    allocation depends on nothing the node holds for another. *)
Theorem agents_isolated op s y (Hf : fresh_token op s) (Hy : y ≠ subject op) :
  view (perform_op op s).1 y = view s y ∧
  (∀ token, Agents_tokens s !! token = Some y → Agents_tokens (perform_op op s).1 !! token = Some y) ∧
  ∀ s', view s (subject op) = view s' (subject op) →
    (perform_op op s).2 = (perform_op op s').2 ∧ view (perform_op op s).1 (subject op) = view (perform_op op s').1 (subject op).
Proof.
  split; [by apply view_other|]. split; [intros token; by apply tokens_kept|]. intros s'. apply view_own.
Qed.
End AgentFacts.

(** ** Tools stay within the grant *)

Section Tools.
Implicit Types (s : Agents) (x : string) (op : agent_op).

Lemma sameEnvelope_perm a b : sameEnvelope a b = true → a ≡ₚ b.
Proof.
  unfold sameEnvelope. intros [_ H%bool_decide_eq_true]%andb_true_iff.
  by rewrite <-(merge_sort_Permutation grant_le a), H, merge_sort_Permutation.
Qed.

(** An envelope can be granted again, in another order, and nothing else. *)
Lemma envelope_kept op s x tools :
  Agents_envelopes s !! x = Some tools → op ≠ OpDelete x →
  ∃ tools', Agents_envelopes (perform_op op s).1 !! x = Some tools' ∧ tools' ≡ₚ tools.
Proof.
  intros Ht Hop. destruct (decide (x = subject op)) as [Hx|Hx].
  2:{ exists tools. split; [|done]. pose proof (view_other op s x Hx) as Hv. unfold view in Hv. injection Hv as He _ _ _. by rewrite He. }
  destruct op as [a|y b|y d|y tool scope|token y|y task|y|y]; cbn [subject perform_op] in *; subst x; try by exists tools.
  - unfold Agents_Execute. destruct (Action_Kind a); try by exists tools.
    + unfold grant. destruct (bool_decide _); [by exists tools|]. rewrite Ht.
      destruct (sameEnvelope tools (Action_Tools a)) eqn:Hs; cbn [negb fst]; [|by exists tools].
      exists (Action_Tools a). simpl_set. rewrite lookup_insert_eq. split; [done|]. symmetry. by apply sameEnvelope_perm.
    + unfold drain. destruct (bool_decide _); by exists tools.
  - unfold Spend. destruct (Agents_meters s !! y); by exists tools.
  - unfold AuthorizeToolCall. repeat case_match; simplify_eq; by exists tools.
  - unfold IssueToken. destruct (bool_decide _); by exists tools.
Qed.

(** An agent acts within its grant.  Once an envelope has been granted to an allocation,
    then whatever happens on the node short of deleting that allocation, a tool call is
    authorized for it only if the granted envelope holds that tool at that scope. *)
Theorem tools_within_grant s a s1 evidence s2 tool scope s3
    (H : grant s a = (s1, Ok evidence)) (Hsteps : agent_steps (λ op, op ≠ OpDelete (Action_Target a)) s1 s2)
    (Hcall : AuthorizeToolCall s2 (Action_Target a) tool scope = (s3, Ok tt)) :
  ∃ g, g ∈ Action_Tools a ∧ Tool_Name g = tool ∧ Tool_Scope g = scope.
Proof.
  assert (Agents_envelopes s1 !! Action_Target a = Some (Action_Tools a)) as H1.
  { unfold grant in H. repeat case_match; simplify_eq; simpl_set; by rewrite lookup_insert_eq. }
  assert (∃ tools, Agents_envelopes s2 !! Action_Target a = Some tools ∧ tools ≡ₚ Action_Tools a) as (tools & H2 & Hp).
  { clear H Hcall. remember (Action_Target a) as x eqn:Hx. clear Hx. revert H1. generalize (Action_Tools a) as tools.
    induction Hsteps as [s1|s1 s1' s2 (op & Hop & ->) _ IH]; intros tools H1; [by exists tools|].
    destruct (envelope_kept op s1 x tools H1 Hop) as (tools' & H' & Hp). destruct (IH tools' H') as (t & Ht & Hpt).
    exists t. split; [done|]. by rewrite Hpt. }
  unfold AuthorizeToolCall in Hcall. destruct (Agents_meters s2 !! _); [|done]. destruct (Budget_Exhausts _ _); [done|].
  destruct (allowsLocked s2 (Action_Target a) tool scope) eqn:Ha; [|done]. unfold allowsLocked, Tools in Ha. rewrite H2 in Ha.
  apply existsb_exists in Ha as (g & Hg & Heq). bool_simpl. exists g. rewrite <-Hp. split; [|done]. by apply list_elem_of_In.
Qed.

(** ** How many calls a ceiling allows *)

(** Calls authorized for an allocation, and tool calls its runtime reported itself. *)
Fixpoint calls (x : string) s (ops : list agent_op) : Z :=
  match ops with
  | [] => 0
  | op :: ops =>
      match op, (perform_op op s).2 with
      | OpTool y _ _, Answered (Ok _) => if bool_decide (y = x) then 1 else 0
      | _, _ => 0
      end + calls x (perform_op op s).1 ops
  end.
Fixpoint reported (x : string) (ops : list agent_op) : Z :=
  match ops with
  | [] => 0
  | op :: ops =>
      match op with OpSpend y d => if bool_decide (y = x) then ToolCalls (clampBudget d) else 0 | _ => 0 end + reported x ops
  end.

Definition lasting (x : string) (op : agent_op) : Prop :=
  match op with OpDelete y | OpReserve y _ => y ≠ x | _ => True end.

Lemma reported_nonneg x ops : 0 <= reported x ops.
Proof.
  induction ops as [|op ops IH]; [done|]. cbn [reported]. destruct op; try done. destruct (bool_decide _); [|lia].
  cbn. destruct (Z.ltb_spec (ToolCalls delta) 0); lia.
Qed.

(** One operation on the meter of [x]: it stays, its ceiling too, and its tool calls grow
    by what is reported and by one for an authorized call. *)
Lemma meter_step x op s m :
  Agents_meters s !! x = Some m → lasting x op → 0 <= ToolCalls (meter_spent m) →
  ToolCalls (meter_spent m) + reported x [op] <= int_max → ToolCalls (meter_budget m) <= int_max →
  ∃ m', Agents_meters (perform_op op s).1 !! x = Some m' ∧ meter_budget m' = meter_budget m ∧
    ToolCalls (meter_spent m') = ToolCalls (meter_spent m) + reported x [op] + calls x s [op] ∧
    0 <= calls x s [op] <= 1 ∧ (calls x s [op] = 1 → ToolCalls (meter_spent m) < ToolCalls (meter_budget m)).
Proof.
  intros Hm Hl Hpos Hr Hmax. destruct (decide (x = subject op)) as [Hx|Hx].
  2:{ exists m. pose proof (view_other op s x Hx) as Hv. unfold view in Hv. injection Hv as _ _ _ Hv. rewrite Hv, Hm.
      assert (reported x [op] = 0 ∧ calls x s [op] = 0) as [-> ->]; [|split_and!; done || lia].
      destruct op; cbn in *; rewrite ?(bool_decide_false (_ = x)) by done; try done. repeat case_match; done. }
  destruct op as [a|y b|y d|y tool scope|token y|y task|y|y]; cbn [subject lasting] in *; subst x; try done;
    cbn [reported calls perform_op] in *; rewrite ?Z.add_0_r in *; rewrite ?(bool_decide_true (y = y)) in * by done.
  - exists m. assert (Agents_meters (let '(s, r) := Agents_Execute s a in (s, Reported r)).1 = Agents_meters s) as ->; [|split_and!; done || lia].
    unfold Agents_Execute, grant, drain. by destruct (Action_Kind a); repeat case_match; simplify_eq.
  - unfold Spend. rewrite Hm. cbn [fst snd]. unfold put_meter. simpl_set. rewrite lookup_insert_eq. eexists. split; [done|].
    cbn [meter_budget meter_spent Budget_Add ToolCalls]. rewrite i64_id; [split_and!; done || lia|].
    unfold in_int, int_min. assert (0 <= ToolCalls (clampBudget d)) by (cbn; destruct (Z.ltb_spec (ToolCalls d) 0); lia). lia.
  - unfold AuthorizeToolCall. rewrite Hm. destruct (Budget_Exhausts (meter_spent m) (meter_budget m)) eqn:He.
    { exists m. cbn [fst snd]. split_and!; done || lia. }
    destruct (negb _); cbn [fst snd]; unfold put_meter; simpl_set; rewrite lookup_insert_eq; (eexists; split; [done|]);
      cbn [meter_budget meter_spent ToolCalls].
    { split_and!; done || lia. }
    unfold Budget_Exhausts in He. bool_simpl. rewrite i64_id by (unfold in_int, int_min; lia). split_and!; done || lia.
  - exists m. unfold IssueToken. destruct (bool_decide _); cbn [fst snd]; split_and!; done || lia.
  - exists m. split_and!; done || lia.
  - exists m. split_and!; done || lia.
Qed.

Lemma calls_in_budget x ops s m :
  Agents_meters s !! x = Some m → Forall (lasting x) ops → 0 <= ToolCalls (meter_spent m) →
  ToolCalls (meter_spent m) + reported x ops <= int_max → ToolCalls (meter_budget m) + reported x ops <= int_max →
  calls x s ops <= Z.max 0 (ToolCalls (meter_budget m) - ToolCalls (meter_spent m)).
Proof.
  intros Hm Hl. revert s m Hm. induction Hl as [|op ops Hop _ IH]; intros s m Hm Hpos Hr Hb; [cbn; lia|].
  assert (∀ s, calls x s (op :: ops) = calls x s [op] + calls x (perform_op op s).1 ops) as Hc by (intros; cbn [calls]; lia).
  assert (reported x (op :: ops) = reported x [op] + reported x ops) as Hrep by (cbn [reported]; lia).
  pose proof (reported_nonneg x ops). pose proof (reported_nonneg x [op]).
  destruct (meter_step x op s m Hm Hop Hpos ltac:(lia) ltac:(lia)) as (m' & Hm' & Hbud & Hsp & Hone & Hlt).
  specialize (IH _ m' Hm' ltac:(lia)). rewrite Hbud, Hsp in IH.
  assert (calls x s [op] = 0 ∨ calls x s [op] = 1) as [E|E] by lia; rewrite Hc, E in *.
  - specialize (IH ltac:(lia) ltac:(lia)). lia.
  - specialize (Hlt eq_refl). specialize (IH ltac:(lia) ltac:(lia)). lia.
Qed.

(** C35: a ceiling of N tool calls allows N.  From the moment a fresh allocation's budget is
    reserved, however its runtime interleaves spending reports and tool calls, and
    whatever other instances do, at most as many calls are authorized for it as its
    ceiling names, provided what the runtime itself reports does not overflow the
    counter. *)
Theorem tool_calls_bounded x s b ops
    (Hnew : Agents_meters s !! x = None) (Hl : Forall (lasting x) ops)
    (Hr : Z.max 0 (ToolCalls b) + reported x ops <= int_max) :
  calls x (Reserve s x b) ops <= Z.max 0 (ToolCalls b).
Proof.
  pose proof (calls_in_budget x ops (Reserve s x b) (mkMeter b Budget_zero 0)) as H. cbn [meter_budget meter_spent Budget_zero ToolCalls] in H.
  rewrite Z.sub_0_r in H. apply H; [|done|done|lia|lia]. unfold Reserve. simpl_set. by rewrite lookup_insert_eq, Hnew.
Qed.
End Tools.

(** ** Draining *)

Section Drain.
Context {codec : TaskCodec}.
Implicit Types (q : WorkQueue) (s : Agents) (x : string).

(** A claim in flight: permitted, or with a task taken from the queue and the slot still
    to be filled. *)
Inductive claiming :=
  | Permitted (x : string)
  | Taken (x task : string).
Definition claimant (c : claiming) : string := match c with Permitted x | Taken x _ => x end.

Record busy_node := mkBusy { node_queue : WorkQueue; node_agents : Agents; node_claims : list claiming }.

(** One step of one of the requests and operations in progress: an operation of the
    agents that satisfies [P], an operation of the queue, or a step of a claim. *)
Inductive node_step (P : agent_op → Prop) : busy_node → busy_node → Prop :=
  | step_agent q s c op : P op → (∀ y task, op ≠ OpHold y task) → node_step P (mkBusy q s c) (mkBusy q (perform_op op s).1 c)
  | step_queue q s c written op : node_step P (mkBusy q s c) (mkBusy (perform written op q) s c)
  | step_permit q s c x : MayClaim s x = Ok tt → node_step P (mkBusy q s c) (mkBusy q s (Permitted x :: c))
  | step_take q s c1 c2 x written now q' task :
      Claim written q now x = (q', Ok (Some task)) →
      node_step P (mkBusy q s (c1 ++ Permitted x :: c2)) (mkBusy q' s (c1 ++ Taken x (Task_ID task) :: c2))
  | step_none q s c1 c2 x written now q' r :
      Claim written q now x = (q', r) → (∀ task, r ≠ Ok (Some task)) →
      node_step P (mkBusy q s (c1 ++ Permitted x :: c2)) (mkBusy q' s (c1 ++ c2))
  | step_hold q s c1 c2 x task : node_step P (mkBusy q s (c1 ++ Taken x task :: c2)) (mkBusy q (HoldTask s x task) (c1 ++ c2)).

(** The steps of a claim nobody interrupts are the broker's [Claim]. *)
Lemma Broker_Claim_steps P written now q s c x q' s' r :
  Broker_Claim written now q s x = (q', s', r) → rtc (node_step P) (mkBusy q s c) (mkBusy q' s' c).
Proof.
  unfold Broker_Claim. destruct (MayClaim s x) as [[]|] eqn:Hm; [|intros [= <- <- _]; apply rtc_refl].
  destruct (Claim written q now x) as [q1 r1] eqn:Hc. intros H.
  eapply rtc_l; [by apply (step_permit P q s c x)|].
  destruct r1 as [[task|]|e]; injection H as <- <- _.
  - eapply rtc_l; [by apply (step_take P q s [] c x written now q1 task)|]. apply rtc_once. apply (step_hold P q1 s [] c).
  - apply rtc_once. by apply (step_none P q s [] c x written now q1 (Ok None)).
  - apply rtc_once. by apply (step_none P q s [] c x written now q1 (Err e)).
Qed.

(** Draining, without a task, and with no claim on the way. *)
Definition idle_for_good x (n : busy_node) : Prop :=
  Draining (node_agents n) x = true ∧ default "" (Agents_tasks (node_agents n) !! x) = "" ∧
  Forall (λ c, claimant c ≠ x) (node_claims n).

Lemma Broker_Claim_refused written now q s x :
  Draining s x = true → ∃ e, Broker_Claim written now q s x = (q, s, Err e).
Proof.
  intros Hd. unfold Broker_Claim, MayClaim. destruct (Agents_meters s !! x); [|by eexists].
  destruct (Budget_Exhausts _ _); [by eexists|]. rewrite Hd. by eexists.
Qed.

Lemma idle_op x op s :
  op ≠ OpDelete x → (∀ y task, op ≠ OpHold y task) → Draining s x = true → default "" (Agents_tasks s !! x) = "" →
  Draining (perform_op op s).1 x = true ∧ default "" (Agents_tasks (perform_op op s).1 !! x) = "".
Proof.
  intros Hop Hh Hd Ht. destruct (decide (x = subject op)) as [Hx|Hx].
  2:{ pose proof (view_other op s x Hx) as Hv. unfold view in Hv. injection Hv as _ Hvt Hvd _. by rewrite Hvt, Hvd. }
  destruct op as [a|y b|y d|y tool scope|token y|y task|y|y]; cbn [subject perform_op] in *; subst x; try done.
  - unfold Agents_Execute. destruct (Action_Kind a); try done.
    + unfold grant. by repeat case_match; simplify_eq.
    + unfold drain. destruct (bool_decide _); [done|]. cbn [fst]. rewrite Draining_union. simpl_set. rewrite Hd. by rewrite orb_true_r.
  - unfold Spend. by destruct (Agents_meters s !! y).
  - unfold AuthorizeToolCall. by repeat case_match; simplify_eq.
  - unfold IssueToken. by destruct (bool_decide _).
  - by destruct (Hh y task).
  - cbn [fst]. split; [done|]. unfold ReleaseTask. simpl_set. by rewrite lookup_delete_eq.
Qed.

Lemma idle_kept x n n' : node_step (λ op, op ≠ OpDelete x) n n' → idle_for_good x n → idle_for_good x n'.
Proof.
  intros Hs (Hd & Ht & Hc). unfold idle_for_good.
  destruct Hs as [q s c op Hop Hh|q s c written op|q s c y Hm|q s c1 c2 y written now q' task Hcl|q s c1 c2 y written now q' r Hcl Hr|q s c1 c2 y task];
    cbn [node_agents node_claims] in *.
  - destruct (idle_op x op s Hop Hh Hd Ht). done.
  - done.
  - split_and!; [done|done|]. constructor; [|done]. cbn [claimant]. intros ->. unfold MayClaim in Hm.
    destruct (Agents_meters s !! x); [|done]. destruct (Budget_Exhausts _ _); [done|]. by rewrite Hd in Hm.
  - split_and!; [done|done|]. apply Forall_app in Hc as [Hc1 Hc2]. inversion Hc2; subst. apply Forall_app. split; [done|by constructor].
  - split_and!; [done|done|]. apply Forall_app in Hc as [Hc1 Hc2]. inversion Hc2; subst. by apply Forall_app.
  - apply Forall_app in Hc as [Hc1 Hc2]. inversion Hc2; subst. cbn [claimant] in *. split_and!; [done| |by apply Forall_app].
    unfold HoldTask. simpl_set. by rewrite lookup_insert_ne.
Qed.

(** A drained instance stays idle.  When a drain reports the instance drained while none
    of its claims is on the way, its slot is empty and stays so, until the allocation is
    deleted and however the requests of a node interleave: no claim of it is permitted
    again. *)
Theorem drained_stays_idle q s c a s1 e n
    (H : drain s a = (s1, Ok e)) (Hk : Ev_Kind e = EvidenceAllocationDrained)
    (Hc : Forall (λ k, claimant k ≠ Action_Target a) c)
    (Hsteps : rtc (node_step (λ op, op ≠ OpDelete (Action_Target a))) (mkBusy q s1 c) n) :
  default "" (Agents_tasks (node_agents n) !! Action_Target a) = "" ∧
  Forall (λ k, claimant k ≠ Action_Target a) (node_claims n) ∧
  ∀ written now, ∃ err, Broker_Claim written now (node_queue n) (node_agents n) (Action_Target a) = (node_queue n, node_agents n, Err err).
Proof.
  assert (idle_for_good (Action_Target a) (mkBusy q s1 c)) as Hi.
  { unfold drain in H. destruct (bool_decide _); [done|]. injection H as <- <-. unfold idle_for_good. cbn [node_agents node_claims].
    rewrite Draining_union. simpl_set. rewrite (bool_decide_true (Action_Target a = Action_Target a)) by done.
    split_and!; [done| |done]. by case_bool_decide. }
  assert (idle_for_good (Action_Target a) n) as (Hd & Ht & Hn).
  { clear H Hk. induction Hsteps as [n|n n' m Hs _ IH]; [done|]. apply IH. by apply (idle_kept _ _ _ Hs). }
  split_and!; try done. intros written now. by apply Broker_Claim_refused.
Qed.

(** An instance empties its slot by acknowledging work it never had: an id the queue does
    not know is accepted, and the slot is freed although the task it held is still
    claimed.  A drain then reports the instance drained, and its next claim succeeds. *)
Theorem ack_unknown_frees_slot written q s x id held t a
    (Hid : tasks q !! id = None) (Hslot : Agents_tasks s !! x = Some held) (Hq : tasks q !! held = Some t)
    (Hc : holds_claim t x = true) (Ha : Action_Target a = x) (Hx : x ≠ "") :
  ∃ s', Broker_Ack written q s x id = (q, s', Ok tt) ∧ tasks q !! held = Some t ∧ holds_claim t x = true ∧
    (drain s' a).2 = Ok (mkEvidence EvidenceAllocationDrained x "" 0 0 {["drained" := "true"]}) ∧
    (is_Ok (MayClaim (ReleaseTask s x) x) ↔ Draining s x = false ∧ Agents_Exhausted s x = false ∧ is_Some (Agents_meters s !! x)).
Proof.
  exists (ReleaseTask s x). unfold Broker_Ack, Ack. rewrite Hid. split_and!; try done.
  - unfold drain, ReleaseTask. rewrite Ha. simpl_set. rewrite lookup_delete_eq. by rewrite bool_decide_false by done.
  - unfold MayClaim, Agents_Exhausted. change (Agents_meters (ReleaseTask s x)) with (Agents_meters s).
    change (Draining (ReleaseTask s x) x) with (Draining s x). unfold ReleaseTask. simpl_set. rewrite lookup_delete_eq.
    destruct (Agents_meters s !! x) as [m|]; [|split; [done|by intros (_ & _ & [])]].
    destruct (Budget_Exhausts _ _); [split; [done|by intros (_ & ? & _)]|].
    destruct (Draining s x); [split; [done|by intros (? & _)]|]. split; [|done]. intros _. by split_and!.
Qed.
End Drain.

(** ** A sample node *)

Module MeteringSample.
#[local] Existing Instance QueueSample.sample_codec.

Definition search : ToolGrant := mkToolGrant "search" "web" false.
Definition granting : Action :=
  Action_zero <| Action_Kind := ActionGrantTools |> <| Action_Target := "worker-a" |> <| Action_Tools := [search] |>.
Definition draining_action : Action := Action_zero <| Action_Kind := ActionDrainAllocation |> <| Action_Target := "worker-a" |>.
Definition ceiling : Budget := mkBudget 1000 500 600 2.
Definition granted : Agents := (grant NewAgents granting).1.
Definition metered : Agents := Reserve granted "worker-a" ceiling.
Definition three_calls : list agent_op :=
  [OpTool "worker-a" "search" "web"; OpReserve "worker-b" ceiling; OpTool "worker-a" "search" "web";
   OpTool "worker-a" "search" "web"].

Lemma agents_isolated_witness :
  view (perform_op (OpSpend "worker-b" ceiling) metered).1 "worker-a" = view metered "worker-a".
Proof. exact (proj1 (agents_isolated (OpSpend "worker-b" ceiling) metered "worker-a" I ltac:(discriminate))). Defined.

Lemma tools_within_grant_witness :
  ∃ g, g ∈ Action_Tools granting ∧ Tool_Name g = "search" ∧ Tool_Scope g = "web".
Proof.
  refine (tools_within_grant NewAgents granting granted
    (mkEvidence EvidenceToolsGranted "worker-a" "" 0 0 {["count" := "1"]}) metered "search" "web"
    (AuthorizeToolCall metered "worker-a" "search" "web").1 _ _ _).
  - vm_compute. reflexivity.
  - apply rtc_once. exists (OpReserve "worker-a" ceiling). split; [discriminate|reflexivity].
  - vm_compute. reflexivity.
Defined.

Lemma tool_calls_bounded_witness :
  calls "worker-a" (Reserve granted "worker-a" ceiling) three_calls = 2 ∧
  calls "worker-a" (Reserve granted "worker-a" ceiling) three_calls <= Z.max 0 (ToolCalls ceiling).
Proof.
  split; [vm_compute; reflexivity|]. refine (tool_calls_bounded "worker-a" granted ceiling three_calls _ _ _).
  - reflexivity.
  - repeat constructor. discriminate.
  - apply Z.leb_le. vm_compute. reflexivity.
Defined.

Definition queue_in_hand : WorkQueue := QueueSample.in_hand.
Definition busy : Agents := HoldTask metered "worker-a" "job".
Definition drained_node : Agents := (drain metered draining_action).1.

Lemma drained_stays_idle_witness :
  default "" (Agents_tasks drained_node !! "worker-a") = "" ∧
  ∀ written now, ∃ err, Broker_Claim written now queue_in_hand drained_node "worker-a" = (queue_in_hand, drained_node, Err err).
Proof.
  destruct (drained_stays_idle queue_in_hand metered [Permitted "worker-b"] draining_action drained_node
    (mkEvidence EvidenceAllocationDrained "worker-a" "" 0 0 {["drained" := "true"]})
    (mkBusy queue_in_hand drained_node [Permitted "worker-b"])) as (H1 & _ & H2).
  - reflexivity.
  - reflexivity.
  - constructor; [discriminate|constructor].
  - apply rtc_refl.
  - split; [exact H1|exact H2].
Defined.

(** A claim under way outlives a drain.  The broker asks for permission, takes a task and
    fills the slot in three steps; a drain between the first and the last reports the
    instance drained, and then it holds a task. *)
Theorem claim_outlives_drain :
  ∃ q' s', rtc (node_step (λ op, op = OpExecute draining_action)) (mkBusy QueueSample.two_jobs metered [])
             (mkBusy q' s' []) ∧
    (drain metered draining_action).2 = Ok (mkEvidence EvidenceAllocationDrained "worker-a" "" 0 0 {["drained" := "true"]}) ∧
    Draining s' "worker-a" = true ∧ Agents_tasks s' !! "worker-a" = Some "job".
Proof.
  exists (Claim true QueueSample.two_jobs 6 "worker-a").1, (HoldTask drained_node "worker-a" "job").
  split; [|vm_compute; done].
  eapply rtc_l; [apply (step_permit _ _ _ [] "worker-a"); reflexivity|].
  eapply rtc_l; [apply (step_agent _ _ _ _ (OpExecute draining_action)); [reflexivity|discriminate]|].
  eapply rtc_l; [|apply rtc_once; apply (step_hold _ _ _ [] [] "worker-a" "job")].
  apply (step_take _ _ _ [] [] "worker-a" true 6 _
    (mkQueueTask "job" "review" 5 (Some (mkTaskClaim "worker-a" (6 + DefaultClaimLease))) 1)). vm_compute. reflexivity.
Qed.

Lemma ack_unknown_frees_slot_witness :
  ∃ s', Broker_Ack true queue_in_hand busy "worker-a" "nonsense" = (queue_in_hand, s', Ok tt) ∧
    (drain s' draining_action).2 = Ok (mkEvidence EvidenceAllocationDrained "worker-a" "" 0 0 {["drained" := "true"]}).
Proof.
  destruct (ack_unknown_frees_slot true queue_in_hand busy "worker-a" "nonsense" "job"
    (default (mkQueueTask "" "" 0 None 0) (tasks queue_in_hand !! "job")) draining_action) as (s' & H1 & _ & _ & H2 & _);
    try (vm_compute; reflexivity); [discriminate|].
  exists s'. split; [exact H1|exact H2].
Defined.

(** Spending wraps around.  An instance that has spent its ceiling reports two more huge
    amounts; the counter passes the top of the [int] range, the node finds nothing spent
    and authorizes its tool calls again. *)
Theorem spend_wraps :
  let spent := (Spend metered "worker-a" (mkBudget 1000 0 0 0)).1 in
  let huge := mkBudget (2 ^ 62) 0 0 0 in
  let wrapped := (Spend (Spend spent "worker-a" huge).1 "worker-a" huge).1 in
  (AuthorizeToolCall spent "worker-a" "search" "web").2 = Err ErrBudgetExhausted ∧
  Agents_Exhausted wrapped "worker-a" = false ∧ (AuthorizeToolCall wrapped "worker-a" "search" "web").2 = Ok tt.
Proof. vm_compute. done. Qed.
End MeteringSample.
