(* ===== verification/RuntimeApi.v ===== *)
(** * The surface agents call (src/node/runtime_api.go)

    The one part of a node that talks to untrusted code.  A request carries a credential
    the node issued and never names an allocation; every handler acts for the allocation
    the credential stands for.  The queues, the agents and the API's own tables are shared
    by the handlers and are one state here; queues are objects known by their name.
    Decoding a JSON body, read through the size limit, is the class [BodyDecoder]. *)

From S2P Require Import Prelude Types Text Engine Directory WorkQueue Metering.
Open Scope Z_scope.

Definition RuntimeAPIVersion : string := "a4s.agent/v1".

(** [API_files] holds the token files under [TokenRoot], by allocation. *)
Record RuntimeAPI := mkRuntimeAPI {
  API_TokenRoot : string; API_brokers : gset string; API_queues : gmap string string; API_files : gmap string string }.
#[export] Instance eta_RuntimeAPI : Eta RuntimeAPI := λ r,
  mkRuntimeAPI (API_TokenRoot r) (API_brokers r) (API_queues r) (API_files r).

Record NodeState := mkNodeState { Node_work : gmap string WorkQueue; Node_agents : Agents; Node_api : RuntimeAPI }.
#[export] Instance eta_NodeState : Eta NodeState := λ r, mkNodeState (Node_work r) (Node_agents r) (Node_api r).

Record Request := mkRequest { Req_Method : string; Req_Path : string; Req_Authorization : string; Req_Body : string }.

Inductive ResponseBody :=
  | ErrorBody (message : string)
  | IdentityBody (allocation version queue : string) (draining : bool) (spent : Budget) (tools : list ToolGrant)
  | ClaimBody (claimed : bool) (task payload reason : string)
  | OkBody
  | SpendBody (continue : bool) (spent : Budget)
  | ToolBody (authorized : bool) (reason : string)
  | NotFound.
Record Response := mkResponse { Resp_Status : Z; Resp_Body : ResponseBody }.

Class BodyDecoder := {
  decode_taskRequest : string → option string;
  decode_spendRequest : string → option Budget;
  decode_toolRequest : string → option (string * string) }.

(** [errors.Is] *)
Fixpoint errors_Is (e target : error) : bool :=
  bool_decide (e = target) || match e with Wrapf _ e => errors_Is e target | _ => false end.

Definition bearerToken (r : Request) : string :=
  let prefix := "Bearer " in
  if negb (String.prefix prefix (Req_Authorization r)) then ""
  else TrimSpace (drop_string (String.length prefix) (Req_Authorization r)).

Section Handlers.
Context {codec : TaskCodec} {bodies : BodyDecoder}.

Definition broker (n : NodeState) (allocation : string) : result string :=
  let name := default "" (API_queues (Node_api n) !! allocation) in
  refuse (bool_decide (name = "")) "allocation %q is not bound to a queue";
  refuse (bool_decide (name ∉ API_brokers (Node_api n))) "queue %q is not served by this node";
  Ok name.

Definition queueFor (n : NodeState) (allocation : string) : string := default "" (API_queues (Node_api n) !! allocation).

(** A broker's operation on the queue of that name and the node's agents. *)
Definition through_broker {A} (n : NodeState) (name : string)
    (f : WorkQueue → Agents → WorkQueue * Agents * result A) : NodeState * result A :=
  match Node_work n !! name with
  | None => (n, Err (Errorf "queue broker is not initialized"))
  | Some q => let '(q, s, r) := f q (Node_agents n) in
              (n <| Node_work ::= <[name := q]> |> <| Node_agents := s |>, r)
  end.

Definition writeRuntimeError (status : Z) (message : string) : Response := mkResponse status (ErrorBody message).

Definition identity (n : NodeState) (allocation : string) : NodeState * Response :=
  (n, mkResponse 200 (IdentityBody allocation RuntimeAPIVersion (queueFor n allocation)
        (Draining (Node_agents n) allocation) (Spent (Node_agents n) allocation).1 (Tools (Node_agents n) allocation))).

Definition claim (written : bool) (now : time) (n : NodeState) (allocation : string) : NodeState * Response :=
  match broker n allocation with
  | Err e => (n, writeRuntimeError 400 (error_text e))
  | Ok name =>
      let '(n, r) := through_broker n name (λ q s, Broker_Claim written now q s allocation) in
      (n, match r with
          | Err e => if errors_Is e ErrDraining || errors_Is e ErrBudgetExhausted
                     then mkResponse 200 (ClaimBody false "" "" (error_text e)) else writeRuntimeError 409 (error_text e)
          | Ok None => mkResponse 200 (ClaimBody false "" "" "no work available")
          | Ok (Some task) => mkResponse 200 (ClaimBody true (Task_ID task) (Task_Payload task) "")
          end)
  end.

Definition completeTask (n : NodeState) (body allocation : string)
    (complete : string → WorkQueue → Agents → WorkQueue * Agents * result unit) : NodeState * Response :=
  match decode_taskRequest body with
  | None => (n, writeRuntimeError 400 "decode request: %w")
  | Some id =>
      if bool_decide (id = "") then (n, writeRuntimeError 400 "task_id is required")
      else match broker n allocation with
           | Err e => (n, writeRuntimeError 400 (error_text e))
           | Ok name =>
               let '(n, r) := through_broker n name (complete id) in
               (n, match r with Err e => writeRuntimeError 409 (error_text e) | Ok _ => mkResponse 200 OkBody end)
           end
  end.

Definition spend (n : NodeState) (body allocation : string) : NodeState * Response :=
  match decode_spendRequest body with
  | None => (n, writeRuntimeError 400 "decode request: %w")
  | Some delta =>
      let '(s, (spent, within)) := Spend (Node_agents n) allocation delta in
      (n <| Node_agents := s |>, mkResponse 200 (SpendBody within spent))
  end.

Definition authorizeTool (n : NodeState) (body allocation : string) : NodeState * Response :=
  match decode_toolRequest body with
  | None => (n, writeRuntimeError 400 "decode request: %w")
  | Some (tool, scope) =>
      let '(s, r) := AuthorizeToolCall (Node_agents n) allocation tool scope in
      (n <| Node_agents := s |>,
       match r with Err e => mkResponse 403 (ToolBody false (error_text e)) | Ok _ => mkResponse 200 (ToolBody true "") end)
  end.

(** [authenticated], around a handler that is told the allocation. *)
Definition authenticated (n : NodeState) (r : Request) (handler : string → NodeState * Response) : NodeState * Response :=
  if bool_decide (Req_Method r ≠ "POST") && bool_decide (Req_Method r ≠ "GET")
  then (n, writeRuntimeError 405 "method not allowed")
  else match ResolveToken (Node_agents n) (bearerToken r) with
       | Err _ => (n, writeRuntimeError 401 "unrecognized runtime token")
       | Ok allocation => handler allocation
       end.

Definition routes (written : bool) (now : time) (n : NodeState) (r : Request) : NodeState * Response :=
  let path := Req_Path r in
  if bool_decide (path = "/v1/task/claim") then authenticated n r (claim written now n)
  else if bool_decide (path = "/v1/task/ack") then
    authenticated n r (λ x, completeTask n (Req_Body r) x (λ id q s, Broker_Ack written q s x id))
  else if bool_decide (path = "/v1/task/requeue") then
    authenticated n r (λ x, completeTask n (Req_Body r) x (λ id q s, Broker_Requeue written q s x id))
  else if bool_decide (path = "/v1/spend") then authenticated n r (spend n (Req_Body r))
  else if bool_decide (path = "/v1/tool/authorize") then authenticated n r (authorizeTool n (Req_Body r))
  else if bool_decide (path = "/v1/identity") then authenticated n r (identity n)
  else (n, mkResponse 404 NotFound).
End Handlers.

(** ** The tables the allocation lifecycle keeps *)

Definition API_Bind (api : RuntimeAPI) (allocation queue : string) : RuntimeAPI :=
  api <| API_queues ::= <[allocation := queue]> |>.
Definition Unbind (api : RuntimeAPI) (allocation : string) : RuntimeAPI := api <| API_queues ::= delete allocation |>.
Definition API_Serve (api : RuntimeAPI) (queue : string) : RuntimeAPI := api <| API_brokers ::= union {[queue]} |>.

(** [written] and [removed]: whether the file system carries out the change. *)
Definition Provision (written : bool) (api : RuntimeAPI) (allocation token : string) : RuntimeAPI * result unit :=
  if bool_decide (API_TokenRoot api = "") then (api, Ok tt)
  else if negb written then (api, Err (Errorf "write runtime token: %w"))
  else (api <| API_files ::= <[allocation := token]> |>, Ok tt).

Definition API_Revoke (removed : bool) (api : RuntimeAPI) (allocation : string) : RuntimeAPI * result unit :=
  let api := Unbind api allocation in
  if bool_decide (API_TokenRoot api = "") then (api, Ok tt)
  else if negb removed then (api, Err (Errorf "remove runtime token: %w"))
  else (api <| API_files ::= delete allocation |>, Ok tt).

(** ** Whom a request can touch *)

Section ApiFacts.
Context {codec : TaskCodec} {bodies : BodyDecoder}.
Implicit Types (n : NodeState) (q : WorkQueue) (s : Agents) (x y : string) (r : Request).

Lemma persist_tasks written q : tasks (persist written q).1 = tasks q.
Proof. by destruct written. Qed.

Lemma other_holder t x y : holds_claim t y = true → y ≠ x → holds_claim t x = false.
Proof.
  unfold holds_claim. destruct (Task_Claim t) as [c|]; [|done]. intros H%bool_decide_eq_true Hy.
  apply bool_decide_eq_false. congruence.
Qed.

(** A task another instance holds under a live claim stays as it is. *)
Lemma Claim_keeps written now q x id t :
  tasks q !! id = Some t → availableLocked t now = false → tasks (Claim written q now x).1 !! id = Some t.
Proof.
  intros Ht Ha. unfold Claim. destruct (bool_decide _); [done|].
  destruct (list_find _ _) as [[i id']|] eqn:Hf; [|done]. apply list_find_Some in Hf as (_ & Hd & _).
  destruct (tasks q !! id') as [t'|] eqn:Ht'; [|done].
  assert (id' ≠ id) as Hne. { intros ->. unfold deliverable in Hd. rewrite Ht, Ha in Hd. done. }
  pose proof (persist_tasks written (with_tasks q (<[id' := delivered q now x t']> (tasks q)) (order q))) as Hp.
  destruct (persist _ _) as [q' []]; cbn [fst] in *; rewrite Hp; cbn; by rewrite lookup_insert_ne.
Qed.

Lemma Ack_keeps written q x id' id t :
  tasks q !! id = Some t → holds_claim t x = false → tasks (Ack written q x id').1 !! id = Some t.
Proof.
  intros Ht Hc. unfold Ack. destruct (tasks q !! id') as [t'|] eqn:Ht'; [|done].
  destruct (holds_claim t' x) eqn:Hc'; cbn [negb]; [|done]. rewrite persist_tasks. cbn.
  rewrite lookup_delete_ne; [done|]. intros ->. congruence.
Qed.

Lemma Requeue_keeps written q x id' id t :
  tasks q !! id = Some t → holds_claim t x = false → tasks (Requeue written q x id').1 !! id = Some t.
Proof.
  intros Ht Hc. unfold Requeue. destruct (tasks q !! id') as [t'|] eqn:Ht'; [|done].
  destruct (holds_claim t' x) eqn:Hc'; cbn [negb]; [|done]. rewrite persist_tasks. cbn.
  rewrite lookup_insert_ne; [done|]. intros ->. congruence.
Qed.

(** A step on behalf of [x]: nothing held for anyone else changes, the node's tables stay,
    and of the queues only the one [x] is bound to changes, where live claims of others
    stand. *)
Definition acts_for x (now : time) n n' : Prop :=
  (∀ y, y ≠ x → view (Node_agents n') y = view (Node_agents n) y) ∧
  Agents_tokens (Node_agents n') = Agents_tokens (Node_agents n) ∧ Node_api n' = Node_api n ∧
  (∀ name, name ≠ queueFor n x → Node_work n' !! name = Node_work n !! name) ∧
  ∀ name q id t y, y ≠ x → Node_work n !! name = Some q → tasks q !! id = Some t → holds_claim t y = true →
    availableLocked t now = false → ∃ q', Node_work n' !! name = Some q' ∧ tasks q' !! id = Some t.

Lemma acts_for_refl x now n : acts_for x now n n.
Proof. split_and!; try done. intros name q id t y _ Hq Ht _ _. by exists q. Qed.

Lemma through_broker_acts {A} x now n (f : WorkQueue → Agents → WorkQueue * Agents * result A) n' res :
  (∀ q s y, y ≠ x → view (f q s).1.2 y = view s y) → (∀ q s, Agents_tokens (f q s).1.2 = Agents_tokens s) →
  (∀ q s id t y, y ≠ x → tasks q !! id = Some t → holds_claim t y = true → availableLocked t now = false →
     tasks (f q s).1.1 !! id = Some t) →
  through_broker n (queueFor n x) f = (n', res) → acts_for x now n n'.
Proof.
  intros Hv Htok Hq. unfold through_broker. destruct (Node_work n !! queueFor n x) as [q|] eqn:Hw; [|intros [= <- _]; apply acts_for_refl].
  specialize (Hv q (Node_agents n)). specialize (Htok q (Node_agents n)). specialize (Hq q (Node_agents n)).
  destruct (f q (Node_agents n)) as [[q' s'] res']. cbn [fst snd] in *. intros [= <- _]. split_and!; simpl_set; try done.
  - intros name Hn. by rewrite lookup_insert_ne.
  - intros name q0 id t y Hy Hq0 Ht Hc Ha. destruct (decide (name = queueFor n x)) as [->|Hn].
    + rewrite lookup_insert_eq. exists q'. split; [done|]. rewrite Hw in Hq0. injection Hq0 as <-. by apply (Hq id t y).
    + rewrite lookup_insert_ne by done. by exists q0.
Qed.

Lemma broker_name n x name : broker n x = Ok name → name = queueFor n x.
Proof. unfold broker. intros H. by inv_ok H. Qed.

Lemma settle_view x y s res : y ≠ x → view (settle s x res).1.2 y = view s y ∧ Agents_tokens (settle s x res).1.2 = Agents_tokens s.
Proof.
  intros Hy. destruct res as [q []]; [|done]. cbn [settle fst snd]. split; [|done].
  exact (view_other (OpFree x) s y Hy).
Qed.

Lemma claim_acts written now n x n' resp : claim written now n x = (n', resp) → acts_for x now n n'.
Proof.
  unfold claim. destruct (broker n x) as [name|] eqn:Hb; [|intros [= <- _]; apply acts_for_refl]. apply broker_name in Hb as ->.
  destruct (through_broker _ _ _) as [n1 res] eqn:Ht. intros [= <- _]. revert Ht. apply through_broker_acts.
  - intros q s y Hy. unfold Broker_Claim. destruct (MayClaim s x); [|done].
    destruct (Claim written q now x) as [q' [[task|]|]]; [|done|done]. exact (view_other (OpHold x (Task_ID task)) s y Hy).
  - intros q s. unfold Broker_Claim. destruct (MayClaim s x); [|done]. by destruct (Claim written q now x) as [q' [[task|]|]].
  - intros q s id t y _ Ht _ Ha. unfold Broker_Claim. destruct (MayClaim s x); [|done].
    pose proof (Claim_keeps written now q x id t Ht Ha) as Hk. by destruct (Claim written q now x) as [q' [[task|]|]].
Qed.

Lemma completeTask_acts now n body x complete n' resp :
  (∀ id q s, ∃ res, complete id q s = settle s x res ∧
     ∀ id' t y, y ≠ x → tasks q !! id' = Some t → holds_claim t y = true → tasks res.1 !! id' = Some t) →
  completeTask n body x complete = (n', resp) → acts_for x now n n'.
Proof.
  intros Hc. unfold completeTask. destruct (decode_taskRequest body) as [id|]; [|intros [= <- _]; apply acts_for_refl].
  destruct (bool_decide _); [intros [= <- _]; apply acts_for_refl|].
  destruct (broker n x) as [name|] eqn:Hb; [|intros [= <- _]; apply acts_for_refl]. apply broker_name in Hb as ->.
  destruct (through_broker _ _ _) as [n1 res] eqn:Ht. intros [= <- _]. revert Ht. apply through_broker_acts.
  - intros q s y Hy. destruct (Hc id q s) as (res' & -> & _). by apply settle_view.
  - intros q s. destruct (Hc id q s) as (res' & -> & _). by destruct res' as [q' []].
  - intros q s id' t y Hy Ht Hh _. destruct (Hc id q s) as (res' & -> & Hk). pose proof (Hk id' t y Hy Ht Hh) as H. by destruct res' as [q' []].
Qed.

(** An agent acts for itself alone.  Whatever request reaches the API, either nothing
    changes, or its credential is one the node issued and the request acts for exactly the
    allocation that credential stands for: every other instance keeps its envelope, its
    meter, its task slot and its credential, no queue but the caller's own is touched, and
    there no live claim of another instance is. *)
Theorem api_acts_for_caller written now n r n' resp (H : routes written now n r = (n', resp)) :
  n' = n ∨ ∃ x, ResolveToken (Node_agents n) (bearerToken r) = Ok x ∧ acts_for x now n n'.
Proof.
  assert (∀ handler, (∀ x n' resp, handler x = (n', resp) → acts_for x now n n') → authenticated n r handler = (n', resp) →
    n' = n ∨ ∃ x, ResolveToken (Node_agents n) (bearerToken r) = Ok x ∧ acts_for x now n n') as Hauth.
  { intros handler Hh Ha. unfold authenticated in Ha. destruct (_ && _); [left; congruence|].
    destruct (ResolveToken _ _) as [x|] eqn:Hx; [|left; congruence]. right. exists x. split; [done|]. by apply (Hh x n' resp). }
  unfold routes in H. repeat (case_bool_decide; [revert H; apply Hauth|]).
  - intros x m res. apply claim_acts.
  - intros x m res. apply completeTask_acts. intros id q s. eexists. split; [reflexivity|].
    intros id' t y Hy Ht Hc. apply Ack_keeps; [done|]. by apply (other_holder t x y).
  - intros x m res. apply completeTask_acts. intros id q s. eexists. split; [reflexivity|].
    intros id' t y Hy Ht Hc. apply Requeue_keeps; [done|]. by apply (other_holder t x y).
  - intros x m res Hs. unfold spend in Hs. destruct (decode_spendRequest _) as [d|]; [|injection Hs as <- _; apply acts_for_refl].
    pose proof (λ y, view_other (OpSpend x d) (Node_agents n) y) as Hv. cbn [perform_op subject] in Hv.
    assert (Agents_tokens (Spend (Node_agents n) x d).1 = Agents_tokens (Node_agents n)) as Ht by (unfold Spend; by destruct (Agents_meters _ !! x)).
    destruct (Spend _ _ _) as [s [spent within]]. injection Hs as <- _. split_and!; simpl_set; try done.
    intros name q id t y _ Hq Ht' _ _. by exists q.
  - intros x m res Hs. unfold authorizeTool in Hs. destruct (decode_toolRequest _) as [[tool scope]|]; [|injection Hs as <- _; apply acts_for_refl].
    pose proof (λ y, view_other (OpTool x tool scope) (Node_agents n) y) as Hv. cbn [perform_op subject] in Hv.
    assert (Agents_tokens (AuthorizeToolCall (Node_agents n) x tool scope).1 = Agents_tokens (Node_agents n)) as Ht.
    { unfold AuthorizeToolCall. destruct (Agents_meters _ !! x); [|done]. destruct (Budget_Exhausts _ _); [done|]. by destruct (negb _). }
    destruct (AuthorizeToolCall _ _ _ _) as [s res']. injection Hs as <- _. split_and!; simpl_set; try done.
    intros name q id t y _ Hq Ht' _ _. by exists q.
  - intros x m res [= <- _]. apply acts_for_refl.
  - left. congruence.
Qed.
End ApiFacts.

(** ** A sample request *)

Module ApiSample.
#[local] Existing Instance QueueSample.sample_codec.
#[local] Instance sample_bodies : BodyDecoder := {|
  decode_taskRequest s := Some s; decode_spendRequest s := Some (mkBudget 5 0 0 0); decode_toolRequest s := Some (s, "web") |}.

Definition node0 : NodeState :=
  mkNodeState {["work" := QueueSample.two_jobs]}
    ((IssueToken (Some "s3cret") MeteringSample.metered "worker-a").1)
    (mkRuntimeAPI "/run/a4s" {["work"]} {["worker-a" := "work"]} ∅).
Definition claim_request : Request := mkRequest "POST" "/v1/task/claim" "Bearer s3cret" "".

Lemma api_acts_for_caller_witness :
  (routes true 6 node0 claim_request).2 = mkResponse 200 (ClaimBody true "job" "review" "") ∧
  ((routes true 6 node0 claim_request).1 = node0 ∨
   ∃ x, ResolveToken (Node_agents node0) (bearerToken claim_request) = Ok x ∧
     acts_for x 6 node0 (routes true 6 node0 claim_request).1).
Proof.
  split; [vm_compute; reflexivity|].
  exact (api_acts_for_caller true 6 node0 claim_request (routes true 6 node0 claim_request).1
    (routes true 6 node0 claim_request).2 (surjective_pairing _)).
Defined.
End ApiSample.
