(* ===== verification/Router.v ===== *)
(** * Routing actions to capabilities (src/node/router.go, src/node/firewall.go)

    A node is several narrow capabilities; [CompositeRuntime] sends each action to the one
    that owns it, and lets deletion and creation of an allocation touch several.  The route
    table, the firewall's record, the resolver, the agents, the queues and the agents' API
    are state here.  Containers, networks, secrets, volumes and databases, the gateway and
    nft are the host: functions over a state [H] this library knows nothing about. *)

From S2P Require Import Prelude Types Text Projection History Executor Directory Canary WorkQueue NetPolicy Agents Dns Metering RuntimeApi.
Open Scope Z_scope.

Section Router.
Context {H : Type} {codec : TaskCodec} {digest : Digest}.

(** A capability of the host that executes actions. *)
Definition Capability : Type := H → Action → H * result Evidence.

(** ** Routes *)

Definition route_entry (endpoints : option (string → list Endpoint)) (r : Route) : RouteSnapshot :=
  mkRouteSnapshot (Route_Host r) (Route_Workload r) (Route_Port r) (Route_Exposure r)
    (match endpoints with Some f => f (Route_Workload r) | None => [] end) [].

(** The snapshot [apply] hands to the gateway: every route, in the order of the hosts. *)
Definition gateway_snapshot (endpoints : option (string → list Endpoint)) (routes : gmap string Route) : list RouteSnapshot :=
  omap (λ host, route_entry endpoints <$> routes !! host) (sort_Strings (map_to_list routes).*1).

Definition Router_apply (backend : option (H → list RouteSnapshot → H * result unit))
    (endpoints : option (string → list Endpoint)) (h : H) (routes : gmap string Route) : H * result unit :=
  match backend with None => (h, Ok tt) | Some apply => apply h (gateway_snapshot endpoints routes) end.

Definition Router_Execute (backend : option (H → list RouteSnapshot → H * result unit))
    (endpoints : option (string → list Endpoint)) (h : H) (routes : gmap string Route) (a : Action)
    : H * gmap string Route * result Evidence :=
  match Action_Kind a with
  | ActionPublishRoute =>
      if bool_decide (Action_Target a = "") || bool_decide (Action_Workload a = "")
      then (h, routes, Err (Errorf "publish route requires target and workload"))
      else
        let previous := routes !! Action_Target a in
        let changed := <[Action_Target a := mkRoute (Action_Target a) (Action_Workload a) (Action_Port a) (Action_Exposure a)]> routes in
        match Router_apply backend endpoints h changed with
        | (h, Err e) =>
            (h, match previous with
                | Some route => <[Action_Target a := route]> changed
                | None => delete (Action_Target a) changed
                end, Err (Wrapf "publish route %q: %w" e))
        | (h, Ok _) =>
            (h, changed, Ok (mkEvidence EvidenceRouteReachable (Action_Target a) "" 0 0
               (<["exposure" := Action_Exposure a]> (<["port" := Sprint (Action_Port a)]> {["workload" := Action_Workload a]}))))
        end
  | _ => (h, routes, Err (Errorf "router does not support action kind %q"))
  end.

(** ** The firewall (src/node/firewall.go)

    [nft] installs a script or fails. *)

Record Firewall := mkFirewall { Firewall_DryRun : bool; Firewall_applied : string }.

Definition policy_applied (fingerprint : string) (rules : Z) (changed : string) : gmap string string :=
  <["changed" := changed]> (<["rules" := Sprint rules]> {["fingerprint" := fingerprint]}).

Definition Firewall_Execute (nft : H → string → H * result unit) (h : H) (f : Firewall) (a : Action)
    : H * Firewall * result Evidence :=
  if bool_decide (Action_Kind a ≠ ActionApplyPolicy) then (h, f, Err (Errorf "firewall does not support action kind %q"))
  else match Action_Policy a with
  | None => (h, f, Err (Errorf "apply policy requires a compiled ruleset"))
  | Some policy =>
      let fingerprint := CompiledPolicy_Fingerprint policy in
      let observed := policy_applied fingerprint (len (Compiled_Rules policy)) in
      if bool_decide (fingerprint = Firewall_applied f)
      then (h, f, Ok (mkEvidence EvidencePolicyApplied (Action_Node a) "" 0 0 (observed "false")))
      else
        let '(h, r) := if Firewall_DryRun f then (h, Ok tt) else nft h (Script policy) in
        match r with
        | Err e => (h, f, Err (Wrapf "apply nftables policy: %w: %s" e))
        | Ok _ => (h, mkFirewall (Firewall_DryRun f) fingerprint,
                   Ok (mkEvidence EvidencePolicyApplied (Action_Node a) "" 0 0
                         (<["dry_run" := Sprint_bool (Firewall_DryRun f)]> (observed "true"))))
        end
  end.
End Router.

(** ** The composite runtime *)

(** What the host offers; an absent capability is [None]. *)
Record Host (H : Type) := mkHost {
  host_containers : option (@Capability H); host_networks : option (@Capability H * (H → string → H * result unit));
  host_secrets : option (@Capability H * (H → string → H * result unit)); host_volumes : option (@Capability H);
  host_databases : option (@Capability H); host_gateway : option (H → list RouteSnapshot → H * result unit);
  host_endpoints : option (string → list Endpoint); host_nft : H → string → H * result unit }.
Arguments mkHost {H}.
Arguments host_containers {H}.
Arguments host_networks {H}.
Arguments host_secrets {H}.
Arguments host_volumes {H}.
Arguments host_databases {H}.
Arguments host_gateway {H}.
Arguments host_endpoints {H}.
Arguments host_nft {H}.

(** The state of a node.  Whether it has agents and the agents' API is said by two flags;
    [Comp_Queues] names the queues of the store that deletion returns work to. *)
Record CompositeRuntime (H : Type) := mkComposite {
  Comp_host : H; Comp_Routes : option (gmap string Route); Comp_Firewall : option Firewall; Comp_Resolver : option Resolver;
  Comp_hasAgents : bool; Comp_hasAPI : bool; Comp_Queues : list string; Comp_node : NodeState }.
Arguments mkComposite {H}.
Arguments Comp_host {H}.
Arguments Comp_Routes {H}.
Arguments Comp_Firewall {H}.
Arguments Comp_Resolver {H}.
Arguments Comp_hasAgents {H}.
Arguments Comp_hasAPI {H}.
Arguments Comp_Queues {H}.
Arguments Comp_node {H}.
#[export] Instance eta_CompositeRuntime {H} : Eta (CompositeRuntime H) := λ r,
  mkComposite (Comp_host r) (Comp_Routes r) (Comp_Firewall r) (Comp_Resolver r) (Comp_hasAgents r) (Comp_hasAPI r)
    (Comp_Queues r) (Comp_node r).

(** What the world answers during one action: the random token, whether each queue's file
    and the token file can be written. *)
Record Luck := mkLuck { luck_token : option string; luck_queue : string → bool; luck_file : bool }.

Section Composite.
Context {H : Type} {codec : TaskCodec} {digest : Digest} (host : Host H).
Implicit Types (c : CompositeRuntime H).

Definition on_host (c : CompositeRuntime H) (capability : option (@Capability H)) (missing : string) (a : Action)
    : CompositeRuntime H * result Evidence :=
  match capability with
  | None => (c, Err (Errorf missing))
  | Some execute => let '(h, r) := execute (Comp_host c) a in (c <| Comp_host := h |>, r)
  end.

(** A teardown step of a capability the node may not have. *)
Definition host_release (release : option (H → string → H * result unit)) (c : CompositeRuntime H) (x : string)
    : CompositeRuntime H * result unit :=
  match release with
  | None => (c, Ok tt)
  | Some f => let '(h, r) := f (Comp_host c) x in (c <| Comp_host := h |>, r)
  end.

Fixpoint return_work (luck : Luck) (queues : list string) (x : string) (work : gmap string WorkQueue)
    : gmap string WorkQueue * result unit :=
  match queues with
  | [] => (work, Ok tt)
  | name :: queues =>
      match work !! name with
      | None => return_work luck queues x work
      | Some q => match ReleaseAllocation (luck_queue luck name) q x with
                  | (q, Err e) => (<[name := q]> work, Err e)
                  | (q, Ok _) => return_work luck queues x (<[name := q]> work)
                  end
      end
  end.

(** The steps of a deletion after the container is gone, each only if the one before
    succeeded. *)
Definition delete_steps (luck : Luck) (c : CompositeRuntime H) (x : string) : CompositeRuntime H * result unit :=
  let '(c, r) := host_release (snd <$> host_networks host) c x in
  match r with
  | Err e => (c, Err e)
  | Ok _ =>
      let '(c, r) := host_release (snd <$> host_secrets host) c x in
      match r with
      | Err e => (c, Err e)
      | Ok _ =>
          let '(work, r) := return_work luck (Comp_Queues c) x (Node_work (Comp_node c)) in
          let c := c <| Comp_node ::= λ n, n <| Node_work := work |> |> in
          match r with
          | Err e => (c, Err e)
          | Ok _ =>
              let '(api, r) := if Comp_hasAPI c then API_Revoke (luck_file luck) (Node_api (Comp_node c)) x
                               else (Node_api (Comp_node c), Ok tt) in
              let c := c <| Comp_node ::= λ n, n <| Node_api := api |> |> in
              match r with
              | Err e => (c, Err e)
              | Ok _ => (if Comp_hasAgents c then c <| Comp_node ::= λ n, n <| Node_agents ::= λ s, Agents_Release s x |> |> else c,
                         Ok tt)
              end
          end
      end
  end.

Definition create_steps (luck : Luck) (c : CompositeRuntime H) (a : Action) : CompositeRuntime H * result unit :=
  if Comp_hasAgents c && negb (Budget_IsZero (Action_Budget a)) then
    let c := c <| Comp_node ::= λ n, n <| Node_agents ::= λ s, Reserve s (Action_Target a) (Action_Budget a) |> |> in
    if negb (Comp_hasAPI c) then (c, Ok tt)
    else
      let '(s, r) := IssueToken (luck_token luck) (Node_agents (Comp_node c)) (Action_Target a) in
      let c := c <| Comp_node ::= λ n, n <| Node_agents := s |> |> in
      match r with
      | Err e => (c, Err e)
      | Ok token =>
          let '(api, r) := Provision (luck_file luck) (Node_api (Comp_node c)) (Action_Target a) token in
          (c <| Comp_node ::= λ n, n <| Node_api := api |> |>, r)
      end
  else (c, Ok tt).

Definition Composite_Execute (luck : Luck) (c : CompositeRuntime H) (a : Action) : CompositeRuntime H * result Evidence :=
  match Action_Kind a with
  | ActionPublishRoute =>
      match Comp_Routes c with
      | None => (c, Err (Errorf "node has no routing capability"))
      | Some routes =>
          let '(h, routes, r) := Router_Execute (host_gateway host) (host_endpoints host) (Comp_host c) routes a in
          (c <| Comp_host := h |> <| Comp_Routes := Some routes |>, r)
      end
  | ActionApplyPolicy =>
      match Comp_Firewall c with
      | None => (c, Ok (mkEvidence EvidencePolicyApplied (Action_Node a) "" 0 0 {["enforced" := "false"]}))
      | Some f => let '(h, f, r) := Firewall_Execute (host_nft host) (Comp_host c) f a in
                  (c <| Comp_host := h |> <| Comp_Firewall := Some f |>, r)
      end
  | ActionPublishZone =>
      match Action_Zone a with
      | None => (c, Err (Errorf "publish zone requires a zone"))
      | Some zone =>
          (c <| Comp_Resolver ::= fmap (λ r, Resolver_Apply r zone) |>,
           Ok (mkEvidence EvidenceZonePublished (Action_Node a) "" 0 0
                 (<["fingerprint" := ServiceZone_Fingerprint zone]>
                    {["names" := Sprint (Z.of_nat (size (Zone_Records zone)))]})))
      end
  | ActionAttachNetwork => on_host c (fst <$> host_networks host) "node has no network capability" a
  | ActionMountSecret => on_host c (fst <$> host_secrets host) "node has no secret capability" a
  | ActionCreateVolume | ActionAttachVolume | ActionDetachVolume | ActionSnapshotVolume | ActionRestoreSnapshot
  | ActionBackupSnapshot | ActionQuiesceVolume | ActionTransferVolume | ActionAdoptVolume | ActionPruneSnapshots
  | ActionVerifyBackup => on_host c (host_volumes host) "node has no volume capability" a
  | ActionDatabaseBackup => on_host c (host_databases host) "node has no database capability" a
  | ActionGrantTools | ActionDrainAllocation =>
      if negb (Comp_hasAgents c) then (c, Err (Errorf "node has no agent capability"))
      else let '(s, r) := Agents_Execute (Node_agents (Comp_node c)) a in
           (c <| Comp_node ::= λ n, n <| Node_agents := s |> |>, r)
  | ActionDeleteAllocation =>
      let '(c, r) := on_host c (host_containers host) "node has no container capability" a in
      match r with
      | Err e => (c, Err e)
      | Ok evidence => let '(c, r) := delete_steps luck c (Action_Target a) in (c, let* _ := r in Ok evidence)
      end
  | ActionCreateAllocation =>
      let '(c, r) := on_host c (host_containers host) "node has no container capability" a in
      match r with
      | Err e => (c, Err e)
      | Ok evidence => let '(c, r) := create_steps luck c a in (c, let* _ := r in Ok evidence)
      end
  | _ => on_host c (host_containers host) "node has no container capability" a
  end.
End Composite.

(** ** Routes are published or not *)

Section RouterFacts.
Context {H : Type} {codec : TaskCodec} {digest : Digest}.
Implicit Types (routes : gmap string Route) (x y : string).

Lemma gateway_snapshot_complete endpoints routes s :
  s ∈ gateway_snapshot endpoints routes ↔ ∃ host r, routes !! host = Some r ∧ s = route_entry endpoints r.
Proof.
  unfold gateway_snapshot. rewrite list_elem_of_omap. split.
  - intros (host & _ & Hs). destruct (routes !! host) as [r|] eqn:Hr; [|done]. injection Hs as <-. by exists host, r.
  - intros (host & r & Hr & ->). exists host. rewrite Hr. split; [|done]. rewrite elem_of_sort_Strings.
    apply list_elem_of_fmap. exists (host, r). split; [done|]. by apply elem_of_map_to_list.
Qed.

(** Publishing a route takes effect as a whole or not at all.  When the node says a route
    is reachable, its table holds it besides the routes it had, and the gateway has
    accepted a snapshot of exactly that table; when it fails, the table is what it was. *)
Theorem publish_route_transactional (backend : option (H → list RouteSnapshot → H * result unit)) endpoints h routes a h' routes' r
    (He : Router_Execute backend endpoints h routes a = (h', routes', r)) :
  match r with
  | Err _ => routes' = routes
  | Ok _ => routes' = <[Action_Target a := mkRoute (Action_Target a) (Action_Workload a) (Action_Port a) (Action_Exposure a)]> routes ∧
      ∀ apply, backend = Some apply → ∃ snapshot, apply h snapshot = (h', Ok tt) ∧
        ∀ s, s ∈ snapshot ↔ ∃ host route, routes' !! host = Some route ∧ s = route_entry endpoints route
  end.
Proof.
  unfold Router_Execute in He. destruct (Action_Kind a); try (injection He as _ <- <-; done).
  destruct (_ || _); [injection He as _ <- <-; done|].
  destruct (Router_apply _ _ _ _) as [h1 [[]|e]] eqn:Hr.
  - injection He as -> <- <-. split; [done|]. intros apply ->. eexists. split; [exact Hr|]. apply gateway_snapshot_complete.
  - injection He as _ <- <-. destruct (routes !! Action_Target a) as [route|] eqn:Hp.
    + rewrite insert_insert_eq. by apply insert_id.
    + by rewrite delete_insert_id.
Qed.

(** ** What a deletion leaves *)

Lemma ReleaseAllocation_frees written q x q' :
  ReleaseAllocation written q x = (q', Ok tt) → ∀ id t, tasks q' !! id = Some t → holds_claim t x = false.
Proof.
  unfold ReleaseAllocation. destruct (map_any _ _) eqn:Ha; cbn [negb].
  - intros Hp id t Ht. assert (tasks q' = (λ t, if holds_claim t x then t <| Task_Claim := None |> else t) <$> tasks q) as Hq.
    { by destruct written; cbn in Hp; injection Hp as <-. }
    rewrite Hq, lookup_fmap in Ht. destruct (tasks q !! id) as [t0|]; [|done]. injection Ht as <-.
    by destruct (holds_claim t0 x) eqn:Hc.
  - intros [= <-] id t Ht. destruct (holds_claim t x) eqn:Hc; [|done]. exfalso.
    assert (map_any (λ t, holds_claim t x) (tasks q) = true) as Hany by (apply map_any_true; eauto). congruence.
Qed.

Lemma return_work_frees luck queues x work work' :
  return_work luck queues x work = (work', Ok tt) →
  (∀ name, name ∉ queues → work' !! name = work !! name) ∧
  ∀ name q id t, name ∈ queues → work' !! name = Some q → tasks q !! id = Some t → holds_claim t x = false.
Proof.
  revert work. induction queues as [|name queues IH]; intros work; cbn [return_work].
  { intros [= <-]. split; [done|]. intros ???? Hn. by apply elem_of_nil in Hn. }
  destruct (work !! name) as [q|] eqn:Hq.
  - destruct (ReleaseAllocation _ _ _) as [q' [[]|]] eqn:Hr; [|done]. intros Hw. destruct (IH _ Hw) as [IH1 IH2]. split.
    + intros name' Hn. apply not_elem_of_cons in Hn as [Hne Hn]. rewrite IH1 by done. by rewrite lookup_insert_ne.
    + intros name' q0 id t Hin Hq0 Ht. destruct (decide (name' ∈ queues)) as [Hin'|Hnin]; [by apply (IH2 name' q0 id t)|].
      apply elem_of_cons in Hin as [->|]; [|done]. rewrite IH1, lookup_insert_eq in Hq0 by done. injection Hq0 as <-.
      by apply (ReleaseAllocation_frees _ _ _ _ Hr id).
  - intros Hw. destruct (IH _ Hw) as [IH1 IH2]. split.
    + intros name' Hn. apply not_elem_of_cons in Hn as [Hne Hn]. by apply IH1.
    + intros name' q0 id t Hin Hq0 Ht. destruct (decide (name' ∈ queues)) as [Hin'|Hnin]; [by apply (IH2 name' q0 id t)|].
      apply elem_of_cons in Hin as [->|]; [|done]. rewrite IH1 in Hq0 by done. congruence.
Qed.

Lemma revoked_token s x token : Agents_tokens (Agents_Release s x) !! token ≠ Some x.
Proof. cbn. unfold revoke_tokens. rewrite map_lookup_filter_Some. by intros [_ ?]. Qed.
End RouterFacts.

Section Lifecycle.
Context {H : Type} {codec : TaskCodec} {digest : Digest} (host : Host H).
Implicit Types (c : CompositeRuntime H) (x y : string).

Lemma host_release_node release c x c' r : host_release release c x = (c', r) →
  Comp_node c' = Comp_node c ∧ Comp_Queues c' = Comp_Queues c ∧ Comp_hasAPI c' = Comp_hasAPI c ∧ Comp_hasAgents c' = Comp_hasAgents c.
Proof. destruct release as [f|]; cbn; [destruct (f _ _)|]; by intros [= <- _]. Qed.

Lemma on_host_node c capability missing a c' r : on_host c capability missing a = (c', r) →
  Comp_node c' = Comp_node c ∧ Comp_Queues c' = Comp_Queues c ∧ Comp_hasAPI c' = Comp_hasAPI c ∧ Comp_hasAgents c' = Comp_hasAgents c.
Proof. unfold on_host. destruct capability as [f|]; [destruct (f _ _)|]; by intros [= <- _]. Qed.

Lemma API_Revoke_effect removed api x api' : API_Revoke removed api x = (api', Ok tt) →
  API_queues api' = delete x (API_queues api) ∧ API_TokenRoot api' = API_TokenRoot api ∧
  (API_TokenRoot api ≠ "" → API_files api' = delete x (API_files api)).
Proof.
  unfold API_Revoke, Unbind. simpl_set. case_bool_decide as Hr; [intros [= <-]; by simpl_set|].
  destruct removed; cbn [negb]; [|done]. intros [= <-]. by simpl_set.
Qed.

Lemma delete_steps_effect luck c x c' :
  Comp_hasAPI c = true → Comp_hasAgents c = true → delete_steps host luck c x = (c', Ok tt) →
  ∃ work api, return_work luck (Comp_Queues c) x (Node_work (Comp_node c)) = (work, Ok tt) ∧
    API_Revoke (luck_file luck) (Node_api (Comp_node c)) x = (api, Ok tt) ∧
    Comp_node c' = mkNodeState work (Agents_Release (Node_agents (Comp_node c)) x) api.
Proof.
  intros Hapi Hag. unfold delete_steps.
  destruct (host_release (snd <$> host_networks host) c x) as [c1 [[]|]] eqn:H1; [|done].
  apply host_release_node in H1 as (En1 & Eq1 & Ea1 & Eg1).
  destruct (host_release (snd <$> host_secrets host) c1 x) as [c2 [[]|]] eqn:H2; [|done].
  apply host_release_node in H2 as (En2 & Eq2 & Ea2 & Eg2). rewrite Eq2, Eq1, En2, En1.
  destruct (return_work luck (Comp_Queues c) x (Node_work (Comp_node c))) as [work [[]|]] eqn:Hw; [|done].
  simpl_set. rewrite Ea2, Ea1, Hapi. rewrite En2, En1. simpl_set.
  destruct (API_Revoke _ _ _) as [api [[]|]] eqn:Hr; [|done]. simpl_set. rewrite Eg2, Eg1, Hag.
  intros [= <-]. exists work, api. split_and!; [done|done|]. simpl_set. rewrite En2, En1. by destruct (Comp_node c).
Qed.

(** Nothing of a deleted agent stays behind.  When a node with agents reports an
    allocation deleted, it holds no envelope, no task slot, no meter and no drain for it,
    no credential speaks for it, it is bound to no queue and has no token file, and the
    node's queues offer again whatever it had claimed; every other instance keeps what it
    had. *)
Theorem deletion_leaves_nothing luck c a c' e
    (Hk : Action_Kind a = ActionDeleteAllocation) (Hag : Comp_hasAgents c = true) (Hapi : Comp_hasAPI c = true)
    (He : Composite_Execute host luck c a = (c', Ok e)) (x := Action_Target a) (s := Node_agents (Comp_node c')) :
  view s x = (None, None, false, None) ∧ (∀ token, ResolveToken s token ≠ Ok x) ∧
  API_queues (Node_api (Comp_node c')) !! x = None ∧
  (API_TokenRoot (Node_api (Comp_node c)) ≠ "" → API_files (Node_api (Comp_node c')) !! x = None) ∧
  (∀ name q id t, name ∈ Comp_Queues c → Node_work (Comp_node c') !! name = Some q → tasks q !! id = Some t →
     holds_claim t x = false) ∧
  ∀ y, y ≠ x → view s y = view (Node_agents (Comp_node c)) y.
Proof.
  unfold Composite_Execute in He. rewrite Hk in He.
  destruct (on_host c _ _ _) as [c1 [ev|]] eqn:H1; [|done]. apply on_host_node in H1 as (En & Eq & Ea & Eg).
  destruct (delete_steps host luck c1 (Action_Target a)) as [c2 [[]|]] eqn:H2; [|done]. injection He as <- _.
  destruct (delete_steps_effect luck c1 (Action_Target a) c2 ltac:(by rewrite Ea) ltac:(by rewrite Eg) H2)
    as (work & api & Hw & Hr & Hn).
  rewrite En in Hr, Hw. rewrite Eq in Hw. apply API_Revoke_effect in Hr as (Hq & _ & Hf). apply return_work_frees in Hw as [_ Hw].
  subst s x. rewrite Hn. cbn [Node_agents Node_api Node_work]. rewrite En. split_and!.
  - unfold view, Draining. cbn. rewrite !lookup_delete_eq. repeat f_equal. apply bool_decide_eq_false. set_solver.
  - intros token. unfold ResolveToken. case_bool_decide; [done|].
    pose proof (revoked_token (Node_agents (Comp_node c)) (Action_Target a) token) as Ht.
    destruct (Agents_tokens _ !! token) as [z|]; [|done]. intros [= ->]. by apply Ht.
  - rewrite Hq. apply lookup_delete_eq.
  - intros Hroot. rewrite Hf by done. apply lookup_delete_eq.
  - done.
  - intros y Hy. exact (view_other (OpDelete (Action_Target a)) (Node_agents (Comp_node c)) y Hy).
Qed.

Lemma Reserve_meter s x b :
  ∃ m, Agents_meters (Reserve s x b) !! x = Some m ∧ meter_budget m = b ∧
    ∀ m0, Agents_meters s !! x = Some m0 → meter_spent m = meter_spent m0.
Proof.
  unfold Reserve. simpl_set. rewrite lookup_insert_eq. eexists. split; [done|].
  destruct (Agents_meters s !! x); (split; [done|]); intros m0; [by intros [= <-]|done].
Qed.

(** An agent is bounded before it can act.  When a node reports an allocation with a
    budget created, the budget is its ceiling, with what it had already spent kept; and
    exactly one credential speaks for it, the one in its token file, if the node keeps
    token files. *)
Theorem created_agent_bounded luck c a c' e
    (Hk : Action_Kind a = ActionCreateAllocation) (Hb : Budget_IsZero (Action_Budget a) = false)
    (Hag : Comp_hasAgents c = true) (Hapi : Comp_hasAPI c = true)
    (He : Composite_Execute host luck c a = (c', Ok e)) (x := Action_Target a) (s := Node_agents (Comp_node c')) :
  (∃ m, Agents_meters s !! x = Some m ∧ meter_budget m = Action_Budget a ∧
     ∀ m0, Agents_meters (Node_agents (Comp_node c)) !! x = Some m0 → meter_spent m = meter_spent m0) ∧
  ∃ token, luck_token luck = Some token ∧ (∀ t, Agents_tokens s !! t = Some x ↔ t = token) ∧
    (API_TokenRoot (Node_api (Comp_node c)) ≠ "" → API_files (Node_api (Comp_node c')) !! x = Some token).
Proof.
  unfold Composite_Execute in He. rewrite Hk in He.
  destruct (on_host c _ _ _) as [c1 [ev|]] eqn:H1; [|done]. apply on_host_node in H1 as (En & _ & Ea & Eg).
  unfold create_steps in He. rewrite Eg, Hag, Hb in He. cbn [andb negb] in He. simpl_set. rewrite Ea, Hapi in He. cbn [negb] in He.
  unfold IssueToken in He. destruct (bool_decide (Action_Target a = "")); [done|]. destruct (luck_token luck) as [token|]; [|done].
  simpl_set. rewrite En in He. simpl_set. unfold Provision in He.
  pose proof (Reserve_meter (Node_agents (Comp_node c)) x (Action_Budget a)) as Hm.
  assert (∀ s t, <[token := x]> (revoke_tokens s x) !! t = Some x ↔ t = token) as Ht.
  { intros s0 t. unfold revoke_tokens. rewrite lookup_insert_Some, map_lookup_filter_Some. split; [|intros ->; by left].
    by intros [[-> _]|(_ & _ & ?)]. }
  destruct (bool_decide (API_TokenRoot (Node_api (Comp_node c)) = "")) eqn:Hroot.
  - injection He as <- _. subst s. simpl_set. rewrite ?En. simpl_set. split.
    + exact Hm.
    + exists token. split; [done|]. split; [apply Ht|]. apply bool_decide_eq_true in Hroot. done.
  - destruct (luck_file luck); cbn [negb] in He; [|done]. injection He as <- _. subst s. simpl_set. rewrite ?En. simpl_set. split.
    + exact Hm.
    + exists token. split; [done|]. split; [apply Ht|]. intros _. apply lookup_insert_eq.
Qed.
End Lifecycle.

(** ** Policies that never settle *)

Section Policies.
Context {H : Type} {codec : TaskCodec} {digest : Digest} {clock : WallClock} {cidr : CIDRParser} (host : Host H).

(** While some node of the workload is recorded with rules other than those its policy
    compiles to, the network agent proposes nothing but rules. *)
Lemma unsettled_policy g w policy id node compiled :
  Workload_Policy (Goal_Workload g) = Some policy → Nodes w !! id = Some node → Node_Healthy node = true →
  localAddresses w (Workload_Name (Goal_Workload g)) id ≠ [] →
  CompilePolicies w (own_port g) [own_policy g policy] id = Ok compiled →
  Node_PolicyFingerprint node ≠ CompiledPolicy_Fingerprint compiled →
  ∃ p, network_Propose g w = Ok p ∧ Proposal_Actions p ≠ [] ∧
    ∀ act, act ∈ Proposal_Actions p → Action_Kind act = ActionApplyPolicy.
Proof.
  intros Hp Hn Hh Hl Hc Hf.
  assert (∀ i act, stale_policy g w (own_policy g policy) i = Some act → Action_Kind act = ActionApplyPolicy) as Hkind.
  { intros i act. unfold stale_policy. destruct (CompilePolicies _ _ _ i); [|done]. destruct (Nodes w !! i); [|done].
    destruct (bool_decide _); [done|]. by intros [= <-]. }
  assert (∃ act, stale_policy g w (own_policy g policy) id = Some act) as [act Hact].
  { unfold stale_policy. rewrite Hc, Hn, bool_decide_false by done. by eexists. }
  assert (∃ a0 l, stalePolicies g w = a0 :: l ∧ ∀ a, a ∈ stalePolicies g w → Action_Kind a = ActionApplyPolicy) as (a0 & l & Hs & Hall).
  { unfold stalePolicies. rewrite Hp. set (nodes := nodes_where _ _).
    assert (id ∈ nodes) as Hid.
    { unfold nodes, nodes_where. rewrite elem_of_sort_Strings, list_elem_of_fmap. exists (id, node). split; [done|].
      apply list_elem_of_filter. rewrite Hh, elem_of_map_to_list. split; [|done]. cbn [andb].
      apply Z.ltb_lt. unfold len. by destruct (localAddresses _ _ _). }
    assert (act ∈ omap (stale_policy g w (own_policy g policy)) nodes) as Hin by (apply list_elem_of_omap; by exists id).
    assert (∀ a, a ∈ omap (stale_policy g w (own_policy g policy)) nodes → Action_Kind a = ActionApplyPolicy) as Hom.
    { intros a (i & _ & Ha)%list_elem_of_omap. by apply (Hkind i). }
    destruct (omap _ nodes) as [|a0 l]; [by apply elem_of_nil in Hin|]. exists a0, []. split; [done|].
    intros a Ha. apply Hom. unfold at_most_one in Ha. cbn in Ha. apply list_elem_of_singleton in Ha as ->. by left. }
  unfold network_Propose. assert ((0 <? len (stalePolicies g w)) = true) as -> by (rewrite Hs; apply Z.ltb_lt; unfold len; cbn [length]; lia).
  eexists. split; [done|]. cbn [proposal_of Proposal_Actions]. split; [by rewrite Hs|done].
Qed.

Lemma project_policy w e w' :
  Ev_Kind e = EvidencePolicyApplied → Project w e = Ok w' →
  ∃ node, Nodes w' !! Ev_Target e = Some node ∧ Node_PolicyFingerprint node = observed e "fingerprint".
Proof.
  intros Hk (n & Hp & Hn & _)%Project_inv. unfold projectInto in Hp. rewrite Hk in Hp. unfold projectPolicyApplied in Hp.
  destruct (Nodes w !! Ev_Target e) as [node|]; [|done]. injection Hp as <-. rewrite Hn. unfold put_node. simpl_set.
  rewrite lookup_insert_eq. by eexists.
Qed.

(** A host left unfiltered blocks its routes.  A node without a firewall accepts a policy
    and reports it applied without a fingerprint, so that convergence is not held up; but
    the fingerprint is what the network agent compares.  Once that report is projected the
    policy counts as not installed, and the agent proposes it again and nothing else, the
    workload's route included, every round. *)
Theorem unfiltered_host_blocks_routes luck c a
    (Hk : Action_Kind a = ActionApplyPolicy) (Hfw : Comp_Firewall c = None) :
  ∃ e, Composite_Execute host luck c a = (c, Ok e) ∧
  ∀ e' w w' g policy node compiled,
    Ev_Kind e' = Ev_Kind e → Ev_Target e' = Ev_Target e → observed e' "fingerprint" = observed e "fingerprint" →
    Project w e' = Ok w' →
    Workload_Policy (Goal_Workload g) = Some policy → Nodes w' !! Action_Node a = Some node → Node_Healthy node = true →
    localAddresses w' (Workload_Name (Goal_Workload g)) (Action_Node a) ≠ [] →
    CompilePolicies w' (own_port g) [own_policy g policy] (Action_Node a) = Ok compiled →
    CompiledPolicy_Fingerprint compiled ≠ "" →
    ∃ p, network_Propose g w' = Ok p ∧ Proposal_Actions p ≠ [] ∧
      ∀ act, act ∈ Proposal_Actions p → Action_Kind act = ActionApplyPolicy.
Proof.
  unfold Composite_Execute. rewrite Hk, Hfw. eexists. split; [done|].
  intros e' w w' g policy node compiled Hek Het Hef Hp Hpol Hn Hh Hl Hc Hne. cbn [Ev_Kind Ev_Target] in *.
  destruct (project_policy w e' w' Hek Hp) as (node' & Hn' & Hfp). rewrite Het, Hn in Hn'. injection Hn' as <-.
  apply (unsettled_policy g w' policy (Action_Node a) node compiled); try done.
  rewrite Hfp, Hef. by intros E.
Qed.

(** Two policies on one node undo each other.  The firewall replaces its whole table with
    the rules of the goal at hand; once one goal's rules are installed and reported, any
    other goal on that node whose rules differ finds its own missing, and its agent
    proposes to put them back, in place of the first. *)
Theorem policies_undo_each_other h f a h' f' e w w' g policy node compiled
    (He : Firewall_Execute (host_nft host) h f a = (h', f', Ok e)) (Hp : Project w e = Ok w')
    (Hpol : Workload_Policy (Goal_Workload g) = Some policy) (Hn : Nodes w' !! Action_Node a = Some node)
    (Hh : Node_Healthy node = true) (Hl : localAddresses w' (Workload_Name (Goal_Workload g)) (Action_Node a) ≠ [])
    (Hc : CompilePolicies w' (own_port g) [own_policy g policy] (Action_Node a) = Ok compiled)
    (Hd : CompiledPolicy_Fingerprint <$> Action_Policy a ≠ Some (CompiledPolicy_Fingerprint compiled)) :
  ∃ p, network_Propose g w' = Ok p ∧ Proposal_Actions p ≠ [] ∧
    ∀ act, act ∈ Proposal_Actions p → Action_Kind act = ActionApplyPolicy.
Proof.
  assert (Ev_Kind e = EvidencePolicyApplied ∧ Ev_Target e = Action_Node a ∧
    CompiledPolicy_Fingerprint <$> Action_Policy a = Some (observed e "fingerprint")) as (Hk & Ht & Hf).
  { unfold Firewall_Execute in He. destruct (bool_decide _); [done|]. destruct (Action_Policy a) as [q|]; [|done].
    destruct (bool_decide _); [injection He as _ _ <-; done|].
    destruct (if Firewall_DryRun f then _ else _) as [h1 [[]|]]; [|done]. by injection He as _ _ <-. }
  destruct (project_policy w e w' Hk Hp) as (node' & Hn' & Hfp). rewrite Ht, Hn in Hn'. injection Hn' as <-.
  apply (unsettled_policy g w' policy (Action_Node a) node compiled); try done. rewrite Hfp. rewrite Hf in Hd. congruence.
Qed.
End Policies.

(** ** A sample node *)

Module RouterSample.
#[local] Existing Instances QueueSample.sample_codec AgentSample.agent_clock AgentSample.agent_cidr AgentSample.agent_digest.

(** The host counts what it is asked to do. *)
Definition count (kind : EvidenceKind) : @Capability nat := λ h a, (S h, Ok (mkEvidence kind (Action_Target a) "" 0 0 ∅)).
Definition sample_host : Host nat :=
  mkHost (Some (count EvidenceAllocationCreated)) (Some (count EvidenceNetworkAttached, λ h _, (S h, Ok tt))) None None None
    (Some (λ h _, (S h, Ok tt))) None (λ h _, (S h, Ok tt)).
Definition sample_luck : Luck := mkLuck (Some "s3cret") (λ _, true) true.
Definition node_before : CompositeRuntime nat :=
  mkComposite 0%nat (Some ∅) None None true true ["work"]
    (mkNodeState {["work" := QueueSample.in_hand]} NewAgents (mkRuntimeAPI "/run/a4s" {["work"]} ∅ ∅)).
Definition create_worker : Action :=
  Action_zero <| Action_Kind := ActionCreateAllocation |> <| Action_Target := "worker-a" |>
    <| Action_Budget := MeteringSample.ceiling |>.
Definition delete_worker : Action := create_worker <| Action_Kind := ActionDeleteAllocation |>.
Definition node_created : CompositeRuntime nat := (Composite_Execute sample_host sample_luck node_before create_worker).1.
Definition node_deleted : CompositeRuntime nat := (Composite_Execute sample_host sample_luck node_created delete_worker).1.
Definition host_answer : Evidence := mkEvidence EvidenceAllocationCreated "worker-a" "" 0 0 ∅.
Definition publish_site : Action :=
  Action_zero <| Action_Kind := ActionPublishRoute |> <| Action_Target := "example.org" |> <| Action_Workload := "web" |>
    <| Action_Port := 443 |> <| Action_Exposure := "tailnet" |>.

Lemma publish_route_transactional_witness :
  ∀ apply, host_gateway sample_host = Some apply → ∃ snapshot, apply 0%nat snapshot = (1%nat, Ok tt) ∧
    ∀ s, s ∈ snapshot ↔ ∃ host route, ({["example.org" := mkRoute "example.org" "web" 443 "tailnet"]} : gmap string Route) !! host =
      Some route ∧ s = route_entry None route.
Proof.
  refine (proj2 (publish_route_transactional (host_gateway sample_host) None 0%nat ∅ publish_site 1%nat
    {["example.org" := mkRoute "example.org" "web" 443 "tailnet"]}
    (Ok (mkEvidence EvidenceRouteReachable "example.org" "" 0 0
           (<["exposure" := "tailnet"]> (<["port" := Sprint 443]> {["workload" := "web"]})))) _)).
  reflexivity.
Defined.

Lemma created_agent_bounded_witness :
  ∃ token, luck_token sample_luck = Some token ∧
    (∀ t, Agents_tokens (Node_agents (Comp_node node_created)) !! t = Some "worker-a" ↔ t = token) ∧
    (API_TokenRoot (Node_api (Comp_node node_before)) ≠ "" →
     API_files (Node_api (Comp_node node_created)) !! "worker-a" = Some token).
Proof.
  refine (proj2 (created_agent_bounded sample_host sample_luck node_before create_worker node_created host_answer _ _ _ _ _));
    vm_compute; reflexivity.
Defined.

Lemma deletion_leaves_nothing_witness :
  view (Node_agents (Comp_node node_deleted)) "worker-a" = (None, None, false, None) ∧
  ∀ token, ResolveToken (Node_agents (Comp_node node_deleted)) token ≠ Ok "worker-a".
Proof.
  destruct (deletion_leaves_nothing sample_host sample_luck node_created delete_worker node_deleted host_answer)
    as (H1 & H2 & _); try (vm_compute; reflexivity). split; [exact H1|exact H2].
Defined.

Definition apply_rules : Action :=
  Action_zero <| Action_Kind := ActionApplyPolicy |> <| Action_Target := "n1" |> <| Action_Node := "n1" |>
    <| Action_Policy := Some NetPolicySample.web_compiled |>.

Lemma unfiltered_host_blocks_routes_witness :
  ∃ e, Composite_Execute sample_host sample_luck node_before apply_rules = (node_before, Ok e).
Proof.
  destruct (unfiltered_host_blocks_routes sample_host sample_luck node_before apply_rules eq_refl eq_refl) as (e & H & _).
  exists e. exact H.
Defined.

Definition filtered_goal : Goal :=
  mkGoal "a4s.io/v1alpha1" "g1" "serve the site"
    (mkWorkloadSpec "web" "web@sha256:1" 1 8080 (mkResources 500 256) false false [] [] "" None
       (Some (mkNetworkPolicy "web" [mkIngressRule "" "192.0.2.0/24" 8080] [])) None None None)
    (Some (mkRouteSpec "example.org" 443 "private")) (mkConstraints ∅ []) None.
Definition filtered_world : World :=
  match Project AgentSample.agent_world (mkEvidence EvidencePolicyApplied "n1" "" 0 0
          (policy_applied (CompiledPolicy_Fingerprint NetPolicySample.web_compiled) 8 "false")) with
  | Ok w => w | Err _ => AgentSample.agent_world
  end.

Definition web_rules : string := Eval vm_compute in CompiledPolicy_Fingerprint NetPolicySample.web_compiled.
Definition rules_reported : Evidence := mkEvidence EvidencePolicyApplied "n1" "" 0 0 (policy_applied web_rules 8 "false").
Definition own_rules : CompiledPolicy :=
  mkCompiledPolicy "n1" "a4s" (preamble ++ [ingressRule "10.42.1.2/32" "192.0.2.0/24" 8080]).

Lemma policies_undo_each_other_witness :
  ∃ p, network_Propose filtered_goal filtered_world = Ok p ∧ Proposal_Actions p ≠ [] ∧
    ∀ act, act ∈ Proposal_Actions p → Action_Kind act = ActionApplyPolicy.
Proof.
  refine (policies_undo_each_other sample_host 0%nat (mkFirewall false web_rules) apply_rules 0%nat (mkFirewall false web_rules)
    rules_reported AgentSample.agent_world filtered_world filtered_goal
    (mkNetworkPolicy "web" [mkIngressRule "" "192.0.2.0/24" 8080] [])
    (default AgentSample.agent_node (Nodes filtered_world !! "n1")) own_rules _ _ _ _ _ _ _ _).
  - vm_compute. reflexivity.
  - vm_compute. reflexivity.
  - reflexivity.
  - vm_compute. reflexivity.
  - vm_compute. reflexivity.
  - apply (bool_decide_unpack _). vm_compute. exact I.
  - vm_compute. reflexivity.
  - apply (bool_decide_unpack _). vm_compute. exact I.
Defined.
End RouterSample.
