(* ===== verification/Plan.v ===== *)
(** * Dry runs (src/control/plan.go)

    What reconciliation would do to the current world, computed by the real agents and the
    real kernel over a copy of it.  The rendering of a plan as text is not modelled. *)

From S2P Require Import Prelude Types Text Spread Policy Simulate Clone Disruption Projection Executor Provenance Kernel Lease Guarantees Rollout Engine Reconcile Directory Canary NetPolicy Agents Placement.
Open Scope Z_scope.

Record PlannedStep := mkPlannedStep {
  Step_AgentID : string; Step_ProposalID : string; Step_Reasoning : string; Step_ActionID : string;
  Step_Kind : ActionKind; Step_Target : string; Step_Node : string; Step_Image : string; Step_Assumed : bool }.

Record Obstacle := mkObstacle {
  Obstacle_AgentID : string; Obstacle_Stage : string; Obstacle_Reason : string; Obstacle_RollbackTarget : string }.

Record Consequences := mkConsequences {
  StartRevision : Z; CreatedAllocs : list string; RemovedAllocs : list string; PublishedRoutes : list string;
  NodeUsage : gmap string string }.

Record Plan := mkPlan {
  Plan_GoalID : string; Plan_Achieved : bool; Plan_Steps : list PlannedStep; Plan_Blocked : list Obstacle;
  Plan_Consequences : Consequences }.

(** ** Sorting in place

    The prefix already in order is kept last element first, so that the element under
    consideration moves down past the larger ones, as the swaps of the inner loop do. *)
Fixpoint sift (x : string) (prefix : list string) : list string :=
  match prefix with
  | [] => [x]
  | y :: rest => if String.ltb x y then y :: sift x rest else x :: prefix
  end.

Definition sortStrings (values : list string) : list string := rev (foldl (λ prefix x, sift x prefix) [] values).

(** ** What changed *)

(** The keys of [after] that [before] lacks. *)
Definition new_keys {A B} (after : gmap string A) (before : gmap string B) : list string :=
  filter (λ id, before !! id = None) (map_to_list after).*1.

Definition usage_change (before after : Node) : option string :=
  if bool_decide (Node_Used before = Node_Used after) then None
  else Some (Sprint (CPUMillis (Node_Used before)) +:+ "m/" +:+ Sprint (MemoryMB (Node_Used before)) +:+ "MB -> " +:+
             Sprint (CPUMillis (Node_Used after)) +:+ "m/" +:+ Sprint (MemoryMB (Node_Used after)) +:+ "MB").

Definition diffWorlds (before after : World) : Consequences :=
  mkConsequences (Revision before)
    (sortStrings (new_keys (Allocations after) (Allocations before)))
    (sortStrings (new_keys (Allocations before) (Allocations after)))
    (sortStrings (new_keys (Routes after) (Routes before)))
    (map_imap (λ id node, previous ← Nodes before !! id; usage_change previous node) (Nodes after)).

(** ** The dry run *)

Section DryRun.
Context `{att : Attest} {clock : WallClock}.

(** [errors.As(err, &rollback)], with the image it names. *)
Fixpoint rollback_target (err : error) : string :=
  match err with
  | RollbackRequired _ _ knownGood => knownGood
  | Wrapf _ wrapped => rollback_target wrapped
  | _ => ""
  end.

Definition planned (d : AgentDescriptor) (p : Proposal) (a : Action) (assumed : bool) : PlannedStep :=
  mkPlannedStep (Agent_ID d) (Proposal_ID p) (Proposal_Reasoning p) (Action_ID a) (Action_Kind a) (Action_Target a)
    (Action_Node a) (Action_Image a) assumed.

Definition is_start (a : Action) : bool := bool_decide (Action_Kind a = ActionStartAllocation).

(** The loop over an authorized proposal's actions, up to the first that does not
    simulate. *)
Fixpoint plan_actions (d : AgentDescriptor) (p : Proposal) (l : list Action) (assumed : bool) (sim : World)
    : list PlannedStep * list Obstacle * bool * World :=
  match l with
  | [] => ([], [], assumed, sim)
  | a :: l =>
      let step := planned d p a assumed in
      let assumed := assumed || is_start a in
      match simulateAction sim a with
      | Err err => ([step], [mkObstacle (Agent_ID d) "simulate" (error_text err) ""], assumed, sim)
      | Ok sim =>
          let '(steps, blocked, assumed, sim) := plan_actions d p l assumed sim in
          (step :: steps, blocked, assumed, sim)
      end
  end.

(** The loop over the agents; [n] counts how often one was asked. *)
Fixpoint plan_agents (k : Policy) (g : Goal) (agents : list Agent) (n : nat) (assumed : bool) (sim : World)
    : list PlannedStep * list Obstacle * World :=
  match agents with
  | [] => ([], [], sim)
  | agent :: agents =>
      let d := Descriptor agent in
      let blocked_at stage err target :=
        let '(steps, blocked, sim) := plan_agents k g agents (S n) assumed sim in
        (steps, mkObstacle (Agent_ID d) stage (error_text err) target :: blocked, sim) in
      match Propose agent n g sim with
      | Err err => blocked_at "propose" err (rollback_target err)
      | Ok p =>
          if len (Proposal_Actions p) =? 0 then plan_agents k g agents (S n) assumed sim
          else match Authorize k d g sim p with
               | Err err => blocked_at "authorize" err ""
               | Ok _ =>
                   let '(steps, blocked, assumed, sim) := plan_actions d p (Proposal_Actions p) assumed sim in
                   let sim := sim <| Revision := u64 (Revision sim + 1) |> in
                   let '(steps', blocked', sim) := plan_agents k g agents (S n) assumed sim in
                   (steps ++ steps', blocked ++ blocked', sim)
               end
      end
  end.

Definition DryRun (k : Policy) (w : World) (g : Goal) (agents : list Agent) : Plan :=
  let sim := cloneWorld w in
  if goalAchieved g sim then mkPlan (Goal_ID g) true [] [] (diffWorlds w sim)
  else
    let before := cloneWorld sim in
    let '(steps, blocked, sim) := plan_agents k g agents 0 false sim in
    mkPlan (Goal_ID g) false steps blocked (diffWorlds before sim).
End DryRun.

(** ** The sort *)

Definition string_ge (s t : string) : Prop := string_le t s.

Lemma sift_perm x l : sift x l ≡ₚ x :: l.
Proof.
  induction l as [|y l IH]; simpl; [done|]. destruct (String.ltb x y); [|done]. rewrite IH. apply Permutation_swap.
Qed.

Lemma ltb_le x y : if String.ltb x y then string_le x y else string_le y x.
Proof.
  unfold string_le, String.ltb, String.leb. rewrite (String.compare_antisym y x). by destruct (String.compare x y).
Qed.

Lemma sift_sorted x l : StronglySorted string_ge l → StronglySorted string_ge (sift x l).
Proof.
  induction l as [|y l IH]; simpl; intros Hs; [repeat constructor|].
  pose proof (StronglySorted_inv Hs) as [Hl Hy]. pose proof (ltb_le x y) as Hxy. destruct (String.ltb x y).
  - constructor; [by apply IH|]. rewrite sift_perm. by constructor.
  - constructor; [done|]. constructor; [done|]. eapply Forall_impl; [exact Hy|].
    intros z Hz. unfold string_ge in *. by eapply string_le_trans.
Qed.

Lemma StronglySorted_rev {A} (R : relation A) l : StronglySorted (flip R) l → StronglySorted R (rev l).
Proof.
  induction 1 as [|x l _ IH Hx]; simpl; [constructor|]. apply StronglySorted_app. split; [|split; [done|repeat constructor]].
  intros y z Hy ->%list_elem_of_singleton. rewrite Forall_forall in Hx. apply Hx. by rewrite <-(Permutation_rev l) in Hy.
Qed.

(** The plan's own insertion sort is [sort.Strings].  Whatever the values, the swaps
    leave the list the library's sort would. *)
Theorem sortStrings_sorts l : sortStrings l = sort_Strings l.
Proof.
  assert (∀ p, StronglySorted string_ge p →
    StronglySorted string_ge (foldl (λ p x, sift x p) p l) ∧ foldl (λ p x, sift x p) p l ≡ₚ l ++ p) as H.
  { induction l as [|x l IH]; intros p Hp; simpl; [done|]. destruct (IH (sift x p)) as [Hs He]; [by apply sift_sorted|].
    split; [done|]. rewrite He, sift_perm. symmetry. apply Permutation_middle. }
  destruct (H []) as [Hs He]; [constructor|]. rewrite app_nil_r in He. unfold sortStrings.
  apply sorted_strings_unique; [by apply StronglySorted_rev|apply sort_Strings_sorted|].
  by rewrite <-(Permutation_rev (foldl _ _ _)), He, sort_Strings_perm.
Qed.

(** ** The consequences *)

Lemma elem_of_new_keys {A B} (after : gmap string A) (before : gmap string B) id :
  id ∈ sortStrings (new_keys after before) ↔ is_Some (after !! id) ∧ before !! id = None.
Proof.
  rewrite sortStrings_sorts, elem_of_sort_Strings. unfold new_keys. rewrite list_elem_of_filter, list_elem_of_fmap.
  split.
  - intros [Hb ([i a] & -> & Ha)]. apply elem_of_map_to_list in Ha. eauto.
  - intros [[a Ha] Hb]. split; [done|]. exists (id, a). by rewrite elem_of_map_to_list.
Qed.

(** The reported consequences are the difference of the two worlds: an allocation or
    route is listed exactly when it is in one and not in the other, and a node's usage
    exactly when the node was there before and its usage moved. *)
Lemma diffWorlds_exact before after id (d := diffWorlds before after) :
  (id ∈ CreatedAllocs d ↔ is_Some (Allocations after !! id) ∧ Allocations before !! id = None) ∧
  (id ∈ RemovedAllocs d ↔ is_Some (Allocations before !! id) ∧ Allocations after !! id = None) ∧
  (id ∈ PublishedRoutes d ↔ is_Some (Routes after !! id) ∧ Routes before !! id = None) ∧
  (is_Some (NodeUsage d !! id) ↔ ∃ n m, Nodes before !! id = Some n ∧ Nodes after !! id = Some m ∧ Node_Used n ≠ Node_Used m).
Proof.
  unfold d, diffWorlds. simpl. rewrite !elem_of_new_keys. do 3 (split; [done|]). rewrite map_lookup_imap.
  destruct (Nodes after !! id) as [m|]; simpl; [|split; [intros [? [=]]|intros (? & ? & _ & [=] & _)]].
  destruct (Nodes before !! id) as [n|]; simpl; [|split; [intros [? [=]]|intros (? & ? & [=] & _)]].
  unfold usage_change. case_bool_decide as E; (split; [intros [? [=]]|intros (? & ? & [=] & [=] & ?)]; subst; eauto 6; done).
Qed.

(** ** What a dry run reports *)

Section Facts.
Context `{att : Attest} {clock : WallClock}.
Implicit Types (k : Policy) (g : Goal) (w sim : World) (d : AgentDescriptor) (p : Proposal) (a : Action).

(** A sequence of proposals, each authorized in the world the simulation of the ones
    before it leaves. *)
Inductive authorized_plans k g : World → list (AgentDescriptor * Proposal) → World → Prop :=
  | plans_done w : authorized_plans k g w [] w
  | plans_next w d p mid l w' :
      Authorize k d g w p = Ok tt → simulatePlan w (Proposal_Actions p) = Ok mid →
      authorized_plans k g (mid <| Revision := u64 (Revision mid + 1) |>) l w' →
      authorized_plans k g w ((d, p) :: l) w'.

(** The actions of such a sequence in order, with whether a start comes before them. *)
Fixpoint mark_steps (assumed : bool) d p (l : list Action) : list PlannedStep :=
  match l with [] => [] | a :: l => planned d p a assumed :: mark_steps (assumed || is_start a) d p l end.
Definition starts (l : list Action) : bool := existsb is_start l.
Fixpoint mark_plans (assumed : bool) (l : list (AgentDescriptor * Proposal)) : list PlannedStep :=
  match l with
  | [] => []
  | (d, p) :: l => mark_steps assumed d p (Proposal_Actions p) ++ mark_plans (assumed || starts (Proposal_Actions p)) l
  end.

Lemma plan_actions_simulated d p l assumed sim mid :
  simulatePlan sim l = Ok mid → plan_actions d p l assumed sim = (mark_steps assumed d p l, [], assumed || starts l, mid).
Proof.
  revert assumed sim. induction l as [|a l IH]; intros assumed sim H; unfold simulatePlan in *; simpl in *.
  - injection H as ->. by rewrite orb_false_r.
  - destruct (simulateAction sim a) as [sim'|]; [|done]. rewrite (IH _ sim' H). by rewrite orb_assoc.
Qed.

Lemma plan_agents_sound k g agents n assumed sim steps blocked w' :
  plan_agents k g agents n assumed sim = (steps, blocked, w') →
  ∃ l, authorized_plans k g sim l w' ∧ steps = mark_plans assumed l ∧
    Forall (λ o, Obstacle_Stage o ≠ "simulate") blocked ∧
    (∀ d p, (d, p) ∈ l → ∃ agent i w, agent ∈ agents ∧ d = Descriptor agent ∧ Propose agent i g w = Ok p).
Proof.
  revert n assumed sim steps blocked w'. induction agents as [|agent agents IH]; intros n assumed sim steps blocked w' H; simpl in H.
  { injection H as <- <- <-. exists []. split; [constructor|]. split; [done|]. split; [constructor|]. by intros d p ?%elem_of_nil. }
  assert (∀ stage err target, stage ≠ "simulate" →
    (let '(steps, blocked, sim) := plan_agents k g agents (S n) assumed sim in
     (steps, mkObstacle (Agent_ID (Descriptor agent)) stage (error_text err) target :: blocked, sim)) = (steps, blocked, w') →
    ∃ l, authorized_plans k g sim l w' ∧ steps = mark_plans assumed l ∧
      Forall (λ o, Obstacle_Stage o ≠ "simulate") blocked ∧
      (∀ d p, (d, p) ∈ l → ∃ agent' i w, agent' ∈ agent :: agents ∧ d = Descriptor agent' ∧ Propose agent' i g w = Ok p)) as Hblock.
  { intros stage err target Hs Hb. destruct (plan_agents k g agents (S n) assumed sim) as [[st bl] sm] eqn:Hrest.
    injection Hb as <- <- <-. destruct (IH _ _ _ _ _ _ Hrest) as (l & H1 & H2 & H3 & H4).
    exists l. split; [done|]. split; [done|]. split; [by constructor|].
    intros d p Hin. destruct (H4 d p Hin) as (ag & i & w & Ha & ?). exists ag, i, w. split; [by right|done]. }
  destruct (Propose agent n g sim) as [p|err] eqn:Hp; [|eapply Hblock; [|exact H]; discriminate].
  destruct (len (Proposal_Actions p) =? 0).
  { destruct (IH _ _ _ _ _ _ H) as (l & H1 & H2 & H3 & H4). exists l. do 3 (split; [done|]).
    intros d q Hin. destruct (H4 d q Hin) as (ag & i & w & Ha & ?). exists ag, i, w. split; [by right|done]. }
  destruct (Authorize k (Descriptor agent) g sim p) as [[]|err] eqn:Ha; [|eapply Hblock; [|exact H]; discriminate].
  destruct (plan_invariant (λ _, True) k (Descriptor agent) g sim p) as (mid & Hmid & _); [done..|].
  rewrite (plan_actions_simulated _ _ _ assumed _ _ Hmid) in H. cbn beta iota zeta in H.
  destruct (plan_agents _ _ agents _ _ _) as [[st bl] sm] eqn:Hrest. injection H as <- <- <-.
  destruct (IH _ _ _ _ _ _ Hrest) as (l & H1 & H2 & H3 & H4).
  exists ((Descriptor agent, p) :: l). split; [by econstructor|]. split; [cbn [mark_plans]; rewrite H2; reflexivity|]. split; [done|].
  intros d q [[= -> ->]|Hin]%elem_of_cons.
  - exists agent, n, sim. split; [by left|done].
  - destruct (H4 d q Hin) as (ag & i & w & Hag & ?). exists ag, i, w. split; [by right|done].
Qed.

(** The flags of a list of steps: each is assumed exactly when a start precedes it, or
    one was assumed to begin with. *)
Fixpoint marked (assumed : bool) (l : list PlannedStep) : Prop :=
  match l with
  | [] => True
  | s :: l => Step_Assumed s = assumed ∧ marked (assumed || bool_decide (Step_Kind s = ActionStartAllocation)) l
  end.

Lemma marked_steps assumed d p l rest :
  marked (assumed || starts l) rest → marked assumed (mark_steps assumed d p l ++ rest).
Proof.
  revert assumed. induction l as [|a l IH]; intros assumed H; simpl in *; [by rewrite orb_false_r in H|].
  split; [done|]. apply IH. by rewrite <-orb_assoc.
Qed.

Lemma marked_plans assumed l : marked assumed (mark_plans assumed l).
Proof. revert assumed. induction l as [|[d p] l IH]; intros assumed; simpl; [done|]. by apply marked_steps. Qed.

Lemma marked_lookup assumed l i s :
  marked assumed l → l !! i = Some s →
  (Step_Assumed s = true ↔
   assumed = true ∨ ∃ j t, (j < i)%nat ∧ l !! j = Some t ∧ Step_Kind t = ActionStartAllocation).
Proof.
  revert assumed i. induction l as [|x l IH]; intros assumed i Hm Hi; [done|]. destruct Hm as [Hx Hl]. destruct i as [|i]; simplify_eq/=.
  - split; [by left|]. intros [?|(j & t & ? & _)]; [done|lia].
  - rewrite (IH _ i Hl Hi), orb_true_iff, bool_decide_eq_true. split.
    + intros [[?|?]|(j & t & Hj & Ht & Hk)]; [by left|right; exists 0%nat, x; split_and!; [lia|done|done]|].
      right. exists (S j), t. split_and!; [lia|done|done].
    + intros [?|([|j] & t & Hj & Ht & Hk)]; [by left; left|simplify_eq/=; by left; right|].
      right. exists j, t. split_and!; [lia|done|done].
Qed.

(** A plan promises only what the kernel would allow.  Unless the goal is already met,
    the steps a dry run reports are, in order, the actions of proposals the given agents
    made, each authorized by the kernel in the world the earlier ones lead to; none fails
    to simulate, so no obstacle is of that kind; the consequences are the difference
    between the caller's world and the one the whole plan leads to; and a step is marked
    as contingent exactly when a start comes before it. *)
Theorem dry_run_authorized k w g agents (plan := DryRun k w g agents) (H : goalAchieved g w = false) :
  ∃ l w', authorized_plans k g w l w' ∧
    (∀ d p, (d, p) ∈ l → ∃ agent i sim, agent ∈ agents ∧ d = Descriptor agent ∧ Propose agent i g sim = Ok p) ∧
    Plan_Steps plan = mark_plans false l ∧ Forall (λ o, Obstacle_Stage o ≠ "simulate") (Plan_Blocked plan) ∧
    Plan_Consequences plan = diffWorlds w w' ∧
    ∀ i s, Plan_Steps plan !! i = Some s →
      (Step_Assumed s = true ↔
       ∃ j t, (j < i)%nat ∧ Plan_Steps plan !! j = Some t ∧ Step_Kind t = ActionStartAllocation).
Proof.
  unfold plan, DryRun. rewrite !cloneWorld_id, H.
  destruct (plan_agents k g agents 0 false w) as [[steps blocked] w'] eqn:Hp.
  apply plan_agents_sound in Hp as (l & Hl & -> & Hb & Ha). exists l, w'. do 5 (split; [done|]).
  intros i s Hi. cbn [Plan_Steps] in *. rewrite (marked_lookup false _ i s (marked_plans false l) Hi). naive_solver.
Qed.
End Facts.

(** ** Where a plan and a run part ways *)

Section Divergence.
Context `{att : Attest} {clock : WallClock} {order : ApprovalOrder}.
Context {T S : Type} {plant : Plant T} {sink : EventSink S}.

(** A plan goes on where a run stops.  When an agent reports that the last rollout has
    failed, a run ends there and asks nobody else, the world left as it was; the dry run
    notes the obstacle and reports the later agents' steps as work that would be done. *)
Theorem plan_outlives_rollback reading k probers g agent agents err w (e : @Engine T S)
    (Hsink : Sink e = None) (Herr : ∀ n sim, Propose agent n g sim = Err err) (Hroll : is_rollback err = true)
    (Hgoal : goalAchieved g w = false) :
  (turns reading k probers g g (agent :: agents) false e).2 = Err err ∧
  World_ (turns reading k probers g g (agent :: agents) false e).1 = World_ e ∧
  Plan_Steps (DryRun k w g (agent :: agents)) = (plan_agents k g agents 1 false w).1.1.
Proof.
  split; [|split].
  - cbn [turns]. unfold agent_turn, mbind, observedWorld. cbn. rewrite Herr, Hroll. unfold record. cbn. by rewrite Hsink.
  - cbn [turns]. unfold agent_turn, mbind, observedWorld. cbn. rewrite Herr, Hroll. unfold record. cbn. by rewrite Hsink.
  - unfold DryRun. rewrite !cloneWorld_id, Hgoal. cbn [plan_agents]. rewrite Herr.
    by destruct (plan_agents k g agents 1 false w) as [[steps blocked] sim].
Qed.
End Divergence.

Module PlanSample.
#[local] Instance plan_attest : Attest := Build_Attest (λ _, None) (λ _ _ _, false) (λ _, Malformed).
#[local] Instance plan_clock : WallClock := 100.
#[local] Instance plan_order : ApprovalOrder := values.
#[local] Instance plan_digest : Digest := λ s, s.
#[local] Instance plan_sink : EventSink unit := {| sink_Append s _ := (s, Ok tt); sink_NextSequence _ := 0 |}.

Definition rollout_agent : Agent := mkAgent rollout_Descriptor (λ _, rollout_Propose default_rollout).
Definition placement_agent : Agent := mkAgent placement_Descriptor (λ _, placement_Propose).

(** Two replicas of [web] wanted on fresh nodes: the whole batch, contingent from the
    first start on. *)
Definition web : Goal := PlacementSample.web_goal [].
Definition empty_world : World := PlacementSample.fresh_world ∅.

Lemma dry_run_authorized_witness :
  let plan := DryRun DefaultPolicy empty_world web [rollout_agent; placement_agent] in
  (Step_ActionID <$> Plan_Steps plan) =
    ["pull-web-0"; "create-web-0"; "attach-web-0"; "start-web-0"; "pull-web-1"; "create-web-1"; "attach-web-1"; "start-web-1"] ∧
  (Step_Assumed <$> Plan_Steps plan) = [false; false; false; false; true; true; true; true] ∧
  CreatedAllocs (Plan_Consequences plan) = ["web-0"; "web-1"] ∧
  ∃ l w', authorized_plans DefaultPolicy web empty_world l w' ∧ Plan_Consequences plan = diffWorlds empty_world w'.
Proof.
  cbv zeta. split; [vm_compute; reflexivity|]. split; [vm_compute; reflexivity|]. split; [vm_compute; reflexivity|].
  destruct (dry_run_authorized DefaultPolicy empty_world web [rollout_agent; placement_agent] ltac:(vm_compute; reflexivity))
    as (l & w' & H1 & _ & _ & _ & H2 & _).
  exists l, w'. split; [exact H1|exact H2].
Defined.

(** A replica of the wanted image exited with an error, and an older image is known to
    work: the rollout agent reports the failure, the placement agent would refill. *)
Definition failed_world : World :=
  (PlacementSample.fresh_world {["web-2" := (new_Allocation "web-2" "web" 2 "n1" "web@sha256:1" (mkResources 500 256) Budget_zero)
      <| Alloc_Phase := AllocationStopped |> <| Alloc_ExitCode := 1 |>]})
    <| KnownGood := {["web" := "web@sha256:0"]} |>.
Definition resigned : Agent := mkAgent rollout_Descriptor (λ _ _ _, Err (RollbackRequired "web" "web@sha256:1" "web@sha256:0")).

Lemma plan_outlives_rollback_witness (e := start_engine (S := unit) failed_world None) :
  rollout_Propose default_rollout web failed_world = Err (RollbackRequired "web" "web@sha256:1" "web@sha256:0") ∧
  (turns run_reading DefaultPolicy [] web web [resigned; placement_agent] false e).2 =
    Err (RollbackRequired "web" "web@sha256:1" "web@sha256:0") ∧
  World_ (turns run_reading DefaultPolicy [] web web [resigned; placement_agent] false e).1 = World_ e ∧
  (Step_ActionID <$> Plan_Steps (DryRun DefaultPolicy failed_world web [resigned; placement_agent])) =
    ["pull-web-0"; "create-web-0"; "attach-web-0"; "start-web-0"; "pull-web-1"; "create-web-1"; "attach-web-1"; "start-web-1"].
Proof.
  split; [vm_compute; reflexivity|].
  destruct (plan_outlives_rollback run_reading DefaultPolicy [] web resigned [placement_agent]
    (RollbackRequired "web" "web@sha256:1" "web@sha256:0") failed_world e eq_refl (λ _ _, eq_refl) eq_refl
    ltac:(vm_compute; reflexivity)) as (H1 & H2 & H3).
  split; [exact H1|]. split; [exact H2|]. rewrite H3. vm_compute. reflexivity.
Defined.
End PlanSample.
