(* ===== verification/Reports.v ===== *)
(** * Explanations and diagnoses (src/control/explain.go, src/control/diagnose.go)

    What an operator is told about one target or one goal, read off the recorded events
    and the projected world.  Neither changes anything.  The rendering of a whole
    explanation or diagnosis as text is not modelled. *)

From S2P Require Import Prelude Types Text Spread Policy Simulate Disruption Projection Provenance Kernel Lease Guarantees Rollout Engine Directory Canary NetPolicy Agents Cron Validate Keys Approvals Anchor Server.
Open Scope Z_scope.

(** ** Explanations *)

Inductive TargetState := StateUnset | StateServing | StatePending | StateFailed | StateRemoved | StateUnknown.
#[export] Instance TargetState_eq_dec : EqDecision TargetState. Proof. solve_decision. Defined.

Record ExplainStep := mkExplainStep {
  Link_Sequence : Z; Link_At : time; Link_Type : EventType; Link_Actor : string; Link_GoalID : string;
  Link_Summary : string; Link_Detail : string }.

(** The zero [TargetState] of an explanation that found nothing is [StateUnset]. *)
Record Explanation := mkExplanation {
  Expl_Target : string; Expl_Found : bool; Expl_Steps : list ExplainStep; Expl_Goals : list string; Expl_Status : TargetState }.

Definition mentionsTarget (e : Event) (target : string) : bool :=
  bool_decide (Event_Target e = target) ||
  match Event_Evidence e with None => false | Some ev => bool_decide (Ev_Target ev = target) end.

(** What one piece of evidence, and one event that names the target, make of its state. *)
Definition evidence_state (state : TargetState) (ev : Evidence) : TargetState :=
  match Ev_Kind ev with
  | EvidenceAllocationReady => if bool_decide (observed ev "ready" = "true") then StateServing else StateFailed
  | EvidenceRouteReachable => StateServing
  | EvidenceAllocationRunning | EvidenceAllocationCreated | EvidenceImagePresent =>
      if bool_decide (state = StateServing) then StateServing else StatePending
  | EvidenceAllocationStopped | EvidenceAllocationDeleted | EvidenceRouteRemoved => StateRemoved
  | EvidenceAllocationFailed => StateFailed
  | _ => state
  end.

Definition state_after (state : TargetState) (e : Event) : TargetState :=
  match Event_Type e with
  | EventGoalBlocked => StateFailed
  | EventActionDispatched => StatePending
  | _ => match Event_Evidence e with None => state | Some ev => evidence_state state ev end
  end.

Definition deriveState (events : list Event) (target : string) : TargetState :=
  foldl (λ state e, if mentionsTarget e target then state_after state e else state) StateUnknown events.

Definition describeEvidence (ev : option Evidence) : string :=
  match ev with
  | None => ""
  | Some ev =>
      let parts := (λ key, key +:+ "=" +:+ observed ev key) <$> sort_Strings (map_to_list (Ev_Observed ev)).*1 in
      String.concat " " (parts ++ if bool_decide (Ev_Source ev ≠ "") then ["source=" +:+ Ev_Source ev] else [])
  end.

(** [%q] of printable ASCII text. *)
Definition quotation : Ascii.ascii := Ascii.ascii_of_nat 34.
Definition backslash : Ascii.ascii := Ascii.ascii_of_nat 92.
Fixpoint escaped (s : string) : string :=
  match s with
  | "" => ""
  | String c s => if bool_decide (c = quotation ∨ c = backslash) then String backslash (String c (escaped s)) else String c (escaped s)
  end.
Definition Quote (s : string) : string := String quotation (escaped s +:+ String quotation "").

Definition describe (e : Event) : ExplainStep :=
  let step := mkExplainStep (Event_Sequence e) (Event_At e) (Event_Type e) (Event_Actor e) (Event_GoalID e) in
  match Event_Type e with
  | EventGoalAccepted => step ("operator accepted goal " +:+ Quote (Event_GoalID e)) (Event_Message e)
  | EventProposalCreated => step (Event_Actor e +:+ " proposed a plan") (Event_Message e)
  | EventProposalApproved => step "kernel authorized the whole plan before any mutation" ""
  | EventProposalDenied => step (Event_Actor e +:+ " refused the plan") (Event_Message e)
  | EventActionDispatched => step ("dispatched " +:+ Event_Kind e) "intent recorded before mutation"
  | EventActionCompleted => step (Event_Kind e +:+ " completed") (describeEvidence (Event_Evidence e))
  | EventObservationRecorded => step ("probe observed " +:+ Event_Kind e) (describeEvidence (Event_Evidence e))
  | EventGoalAchieved => step "goal verified from current evidence" ""
  | EventGoalBlocked => step "blocked" (Event_Message e)
  | t => step (EventType_String t) (Event_Message e)
  end.

(** The named proposals and goals of the events that mention the target. *)
Definition named_by (events : list Event) (target : string) (name : Event → string) : gset string :=
  list_to_set (List.filter (λ s, bool_decide (s ≠ "")) (name <$> List.filter (λ e, mentionsTarget e target) events)).

Definition relevant (events : list Event) (target : string) (e : Event) : bool :=
  mentionsTarget e target ||
  (bool_decide (Event_ProposalID e ≠ "") && bool_decide (Event_ProposalID e ∈ named_by events target Event_ProposalID)) ||
  (bool_decide (Event_Type e = EventGoalAccepted) && bool_decide (Event_GoalID e ∈ named_by events target Event_GoalID)).

Definition sortedKeys (s : gset string) : list string := sort_Strings (elements s).

Definition Explain (events : list Event) (target : string) : Explanation :=
  let nothing := mkExplanation target false [] [] StateUnset in
  if bool_decide (target = "") then nothing
  else if negb (existsb (λ e, mentionsTarget e target) events) then nothing
  else mkExplanation target true (describe <$> List.filter (relevant events target) events)
         (sortedKeys (named_by events target Event_GoalID)) (deriveState events target).

(** ** Diagnoses *)

Record Finding := mkFinding {
  Finding_Cause : string; Finding_Detail : string; Finding_Sequence : Z; Finding_Targets : list string }.

Record Diagnosis := mkDiagnosis {
  Diag_GoalID : string; Diag_Converged : bool; Diag_Findings : list Finding; Diag_Suggestion : string }.

(** What the loop over a goal's events remembers of the attempt in progress. *)
Record Attempt := mkAttempt {
  att_converged : bool; blockages : list Event; denials : list Event; dispatched : gmap string Event;
  completed : gset string; unreadyProbe : list Event; touched : gset string }.
Definition new_attempt : Attempt := mkAttempt false [] [] ∅ ∅ [] ∅.

Definition read_event (t : Attempt) (e : Event) : Attempt :=
  match Event_Type e with
  | EventGoalAchieved =>
      mkAttempt true (blockages t) (denials t) (dispatched t) (completed t) (unreadyProbe t) (touched t)
  | EventGoalAccepted => new_attempt
  | EventGoalBlocked =>
      mkAttempt false (blockages t ++ [e]) (denials t) (dispatched t) (completed t) (unreadyProbe t) (touched t)
  | EventProposalDenied =>
      mkAttempt (att_converged t) (blockages t) (denials t ++ [e]) (dispatched t) (completed t) (unreadyProbe t) (touched t)
  | EventActionDispatched =>
      mkAttempt (att_converged t) (blockages t) (denials t) (<[Event_ActionID e := e]> (dispatched t)) (completed t)
        (unreadyProbe t) (if bool_decide (Event_Target e ≠ "") then {[Event_Target e]} ∪ touched t else touched t)
  | EventActionCompleted =>
      mkAttempt (att_converged t) (blockages t) (denials t) (dispatched t) ({[Event_ActionID e]} ∪ completed t)
        (unreadyProbe t) (touched t)
  | EventObservationRecorded =>
      match Event_Evidence e with
      | Some ev =>
          if bool_decide (Ev_Kind ev = EvidenceAllocationReady) && bool_decide (observed ev "ready" ≠ "true")
          then mkAttempt (att_converged t) (blockages t) (denials t) (dispatched t) (completed t) (unreadyProbe t ++ [e]) (touched t)
          else t
      | None => t
      end
  | _ => t
  end.

Definition read_events (goalID : string) (events : list Event) : Attempt :=
  foldl (λ t e, if bool_decide (Event_GoalID e ≠ goalID) then t else read_event t e) new_attempt events.

(** Which node a suggestion about capacity names: any one the run-time visits first. *)
Class NodeChoice := first_node : gmap string Node → option (string * Node).

Section Diagnose.
Context {clock : WallClock} {choice : NodeChoice}.

Definition capacitySuggestion (w : World) : string :=
  match first_node (Nodes w) with
  | Some (id, node) =>
      let free := Resources_Subtract (Node_Capacity node) (Node_Used node) in
      "free capacity on " +:+ id +:+ " is " +:+ Sprint (CPUMillis free) +:+ "m CPU and " +:+ Sprint (MemoryMB free) +:+
      "MB memory; reduce the request or add a node"
  | None => "reduce the workload's resource request or add a node"
  end.

(** The first phrase of the message that is known, with its advice. *)
Definition suggestFor (message : string) (w : World) : string :=
  let message := ToLower message in
  let says phrase := strings_Contains message phrase in
  if says "known-good image" then "set the goal image to the last known-good digest, or fix the failing image"
  else if says "availability floor" then "add a replica or lower the availability floor before retrying the rollout"
  else if says "is leased by proposal" then "wait for the holding proposal to finish or expire, then retry"
  else if says "public-route approval" then "record a granted public-route approval for this goal"
  else if says "no healthy node" then "restore a healthy node that satisfies the placement constraints, or relax them"
  else if says "lacks capacity" then capacitySuggestion w
  else if says "not connected" then "start the node daemon and confirm it enrolls with the server"
  else if says "hold only" then "add a failure domain, raise max_per_domain, or lower the replica count"
  else if says "failure domains at once" then "this is a proposing-agent bug: disruptive actions must name one failure domain"
  else if says "was disrupted within the last" then
    "wait out the cooldown; it exists so one domain's disruption is observed before the next"
  else if says "failure domain" then "add a node in another failure domain, or raise the workload's max_per_domain"
  else if says "disruption budget exhausted" then
    "wait for the window to pass; raise MaxDisruptionsPerWindow only if this rate is intended"
  else if says "is in backoff" then "fix why the target keeps failing; the delay clears when it is observed ready"
  else if says "is cordoned" then "uncordon the node, or let placement choose another once one is available"
  else if says "provenance attestation" then "sign the image with a trusted builder key using `a4s attest` and attach it to the goal"
  else if says "image provenance" then "the attached attestation did not verify; re-sign the exact digest with a trusted key"
  else if says "ceiling reached" then "raise the cluster ceiling, or release commitment by removing work that is no longer needed"
  else "".

(** A finding only when there is something to name. *)
Definition find_targets (cause detail : string) (targets : list string) : list Finding :=
  match targets with [] => [] | _ => [mkFinding cause detail 0 (sort_Strings targets)] end.

(** Targets of this attempt that wait out a backoff. *)
Definition waiting (w : World) (footprint : gset string) : list string :=
  omap (λ target, state ← BackoffState w !! target;
    if Backoff_Active (Some state) (Now w)
    then Some (target +:+ " (" +:+ Sprint (Backoff_Failures state) +:+ " consecutive failures, retryable at " +:+
               Format_RFC3339 (Backoff_Until state) +:+ ")")
    else None) (elements footprint).

Definition cordoned_nodes (w : World) : list string :=
  sort_Strings (omap (λ '(id, node),
    if Node_Cordoned node
    then Some (id +:+ " (" +:+ (if bool_decide (Node_CordonReason node = "") then "no reason recorded" else Node_CordonReason node) +:+ ")")
    else None) (map_to_list (Nodes w))).

Definition governorFindings (w : World) (footprint : gset string) : list Finding :=
  let cordoned := cordoned_nodes w in
  let schedulable := length (filter (λ node, Schedulable node = true) (values (Nodes w))) in
  let recent := RecentDisruptions w (Now w) DefaultDisruptionWindow in
  find_targets "targets are waiting out a failure backoff"
    "these failed repeatedly and may not be recreated yet; the delay grows with consecutive failures and resets when one is observed ready"
    (waiting w footprint) ++
  (if bool_decide (Nodes w ≠ ∅) && bool_decide (schedulable = 0%nat)
   then [mkFinding "no node can accept work"
           "every node is unhealthy or cordoned, so nothing can be placed anywhere until one is restored or uncordoned" 0 cordoned]
   else if negb (len cordoned =? 0)
   then [mkFinding "nodes are cordoned" "these hold existing work but will not accept new allocations" 0 cordoned] else []) ++
  (if negb (len recent =? 0)
   then [mkFinding "the cluster is pacing disruption"
           (Sprint (len recent) +:+ " disruptive actions across " +:+
            Sprint (Z.of_nat (size (list_to_set (Disruption_Domain <$> recent) : gset string))) +:+
            " failure domains in the last 10m0s; the budget and the one-domain-at-a-time rule slow further changes on purpose") 0 []]
   else []).

(** The targets of the actions that were dispatched and not completed. *)
Definition incomplete (t : Attempt) : list string :=
  (λ '(id, e), if bool_decide (Event_Target e = "") then id else Event_Target e) <$>
  map_to_list (filter (λ '(id, _), id ∉ completed t) (dispatched t)).

Definition crashed (w : World) : list string :=
  omap (λ '(id, a),
    if bool_decide (Alloc_Phase a = AllocationStopped) && (negb (Alloc_ExitCode a =? 0) || (0 <? Alloc_Restarts a))
    then Some (id +:+ " (exit " +:+ Sprint (Alloc_ExitCode a) +:+ ", " +:+ Sprint (Alloc_Restarts a) +:+ " restarts)")
    else None) (map_to_list (Allocations w)).

Definition unready_targets (t : Attempt) : list string :=
  omap (λ e, Ev_Target <$> Event_Evidence e) (unreadyProbe t).

Definition or_unknown (findings : list Finding) : list Finding :=
  match findings with
  | [] => [mkFinding "no recorded cause" "history holds no blockage, denial, or failure for this goal" 0 []]
  | _ => findings
  end.

Definition Diagnose (goalID : string) (events : list Event) (w : World) : Diagnosis :=
  let t := read_events goalID events in
  if att_converged t then
    mkDiagnosis goalID true
      [mkFinding "converged" "the goal was verified from evidence and no later blockage was recorded" 0 []] ""
  else
    let lost := find_targets "action dispatched without recorded completion"
      "the node may have mutated the host without the controller recording the result; query the node ledger for these idempotency keys before retrying"
      (incomplete t) in
    let suggestion := match lost with
                      | [] => ""
                      | _ => "reconcile the node ledger against the event log before re-running the goal"
                      end in
    let '(blocked, suggestion) :=
      match last (blockages t) with
      | None => ([], suggestion)
      | Some e => ([mkFinding "goal blocked" (Event_Message e) (Event_Sequence e)
                      (if bool_decide (Event_Target e ≠ "") then [Event_Target e] else [])],
                   if bool_decide (suggestion = "") then suggestFor (Event_Message e) w else suggestion)
      end in
    let '(refused, suggestion) :=
      match last (denials t) with
      | None => ([], suggestion)
      | Some e => ([mkFinding (Event_Actor e +:+ " refused to act") (Event_Message e) (Event_Sequence e) []],
                   let specific := suggestFor (Event_Message e) w in
                   if bool_decide (specific ≠ "") then specific else suggestion)
      end in
    let findings := lost ++ blocked ++ refused ++ governorFindings w (touched t) ++
      find_targets "workload started but never became ready"
        "the container ran and an independent probe measured it as not serving" (unready_targets t) ++
      find_targets "allocations exited abnormally" "the image does not run successfully on this cluster" (crashed w) in
    mkDiagnosis goalID false (or_unknown findings) suggestion.
End Diagnose.

(** ** What an explanation contains *)

Section ExplainFacts.
Implicit Types (e : Event) (events : list Event) (target : string).

Lemma elem_of_filter_bool {A} (f : A → bool) (l : list A) x : x ∈ List.filter f l ↔ x ∈ l ∧ f x = true.
Proof. rewrite !list_elem_of_In. apply filter_In. Qed.

Lemma elem_of_named_by events target name s :
  s ∈ named_by events target name ↔ s ≠ "" ∧ ∃ e, e ∈ events ∧ mentionsTarget e target = true ∧ name e = s.
Proof.
  unfold named_by. rewrite elem_of_list_to_set, elem_of_filter_bool, bool_decide_eq_true, list_elem_of_fmap.
  setoid_rewrite elem_of_filter_bool. naive_solver.
Qed.

(** Why an event belongs to the story of a target. *)
Definition belongs events target e : Prop :=
  mentionsTarget e target = true ∨
  (∃ e', e' ∈ events ∧ mentionsTarget e' target = true ∧ Event_ProposalID e' = Event_ProposalID e ∧ Event_ProposalID e ≠ "") ∨
  (Event_Type e = EventGoalAccepted ∧
   ∃ e', e' ∈ events ∧ mentionsTarget e' target = true ∧ Event_GoalID e' = Event_GoalID e ∧ Event_GoalID e ≠ "").

Lemma relevant_belongs events target e : relevant events target e = true ↔ belongs events target e.
Proof.
  unfold relevant, belongs. rewrite !orb_true_iff, !andb_true_iff, !bool_decide_eq_true, !elem_of_named_by. naive_solver.
Qed.

(** The story of a target is complete and in order: nothing is told exactly when no
    event names the target; otherwise the steps are, in the order of the log, the events
    that name it, those of a proposal that acted on it, and the acceptance of a goal that
    did; and the goals listed are the ones that did. *)
Theorem explain_complete events target (Ht : target ≠ "") (x := Explain events target) :
  (Expl_Found x = true ↔ ∃ e, e ∈ events ∧ mentionsTarget e target = true) ∧
  (Expl_Found x = true → ∃ story, Expl_Steps x = describe <$> story ∧ story `sublist_of` events ∧
     (∀ e, e ∈ story ↔ e ∈ events ∧ belongs events target e) ∧
     ∀ goal, goal ∈ Expl_Goals x ↔ goal ≠ "" ∧ ∃ e, e ∈ events ∧ mentionsTarget e target = true ∧ Event_GoalID e = goal).
Proof.
  assert (existsb (λ e, mentionsTarget e target) events = true ↔ ∃ e, e ∈ events ∧ mentionsTarget e target = true) as Hex.
  { rewrite existsb_exists. setoid_rewrite <-list_elem_of_In. done. }
  unfold x, Explain. rewrite bool_decide_false by done.
  destruct (existsb _ events) eqn:E; simpl; [|by split; [rewrite <-Hex|]].
  split; [by rewrite <-Hex|]. intros _. exists (List.filter (relevant events target) events). split; [done|].
  split; [|split].
  - clear. generalize (relevant events target) as f. intros f. induction events as [|e l IH]; simpl; [constructor|].
    destruct (f e); by constructor.
  - intros e. by rewrite elem_of_filter_bool, relevant_belongs.
  - intros goal. unfold sortedKeys. by rewrite elem_of_sort_Strings, elem_of_elements, elem_of_named_by.
Qed.

(** ** What became of a target *)

(** The evidence an event carries is of this kind. *)
Definition shows (P : Evidence → Prop) e : Prop := match Event_Evidence e with Some ev => P ev | None => False end.

Definition proves_serving target e : Prop :=
  mentionsTarget e target = true ∧ Event_Type e ≠ EventGoalBlocked ∧ Event_Type e ≠ EventActionDispatched ∧
  shows (λ ev, Ev_Kind ev = EvidenceRouteReachable ∨ Ev_Kind ev = EvidenceAllocationReady ∧ observed ev "ready" = "true") e.

(** An event that says otherwise of a target that served. *)
Definition disturbs target e : Prop :=
  mentionsTarget e target = true ∧
  (Event_Type e = EventGoalBlocked ∨ Event_Type e = EventActionDispatched ∨
   shows (λ ev, Ev_Kind ev = EvidenceAllocationReady ∧ observed ev "ready" ≠ "true" ∨
     Ev_Kind ev ∈ [EvidenceAllocationStopped; EvidenceAllocationDeleted; EvidenceRouteRemoved; EvidenceAllocationFailed]) e).

Lemma evidence_state_serving state ev :
  evidence_state state ev = StateServing ↔
  (Ev_Kind ev = EvidenceRouteReachable ∨ Ev_Kind ev = EvidenceAllocationReady ∧ observed ev "ready" = "true") ∨
  state = StateServing ∧
  ¬ (Ev_Kind ev = EvidenceAllocationReady ∧ observed ev "ready" ≠ "true" ∨
     Ev_Kind ev ∈ [EvidenceAllocationStopped; EvidenceAllocationDeleted; EvidenceRouteRemoved; EvidenceAllocationFailed]).
Proof.
  unfold evidence_state. rewrite !list_elem_of_In. simpl.
  destruct (Ev_Kind ev) eqn:Ek; repeat case_bool_decide; naive_solver.
Qed.

Lemma state_after_serving target state e (H : mentionsTarget e target = true) :
  state_after state e = StateServing ↔ proves_serving target e ∨ state = StateServing ∧ ¬ disturbs target e.
Proof.
  unfold state_after, proves_serving, disturbs, shows. rewrite H.
  destruct (Event_Type e) eqn:Et; try (split; [done|]; naive_solver);
  (destruct (Event_Evidence e) as [ev|]; [rewrite evidence_state_serving|]; naive_solver).
Qed.

Lemma deriveState_snoc events e target :
  deriveState (events ++ [e]) target =
  if mentionsTarget e target then state_after (deriveState events target) e else deriveState events target.
Proof. unfold deriveState. by rewrite foldl_app. Qed.


(** The kinds of evidence that say something about a target's state. *)
Definition decisive (k : EvidenceKind) : bool :=
  bool_decide (k ∈ [EvidenceAllocationReady; EvidenceRouteReachable; EvidenceAllocationRunning; EvidenceAllocationCreated;
    EvidenceImagePresent; EvidenceAllocationStopped; EvidenceAllocationDeleted; EvidenceRouteRemoved; EvidenceAllocationFailed]).

(** Completed work may read as pending for ever.  Evidence of most kinds (volumes,
    secrets, networks, tools, cordons, policies) says nothing about a target's state, so
    a target whose last dispatched action was completed with such evidence stays in the
    state that is documented as work without completing evidence. *)
Theorem completion_reads_as_pending events target d c ev
    (Hd : mentionsTarget d target = true) (Hdt : Event_Type d = EventActionDispatched)
    (Hct : Event_Type c = EventActionCompleted) (Hev : Event_Evidence c = Some ev) (Hk : decisive (Ev_Kind ev) = false) :
  deriveState (events ++ [d; c]) target = StatePending.
Proof.
  rewrite (app_assoc events [d] [c] : events ++ [d; c] = (events ++ [d]) ++ [c]), !deriveState_snoc, Hd.
  assert (state_after (deriveState events target) d = StatePending) as -> by (unfold state_after; by rewrite Hdt).
  destruct (mentionsTarget c target); [|done]. unfold state_after, evidence_state. rewrite Hct, Hev.
  destruct (Ev_Kind ev); try done; vm_compute in Hk; done.
Qed.
End ExplainFacts.

(** ** What a diagnosis rests on *)

Section DiagnoseFacts.
Context {clock : WallClock} {choice : NodeChoice}.
Implicit Types (e : Event) (events : list Event) (w : World).

Definition of_goal (goalID : string) events : list Event := List.filter (λ e, bool_decide (Event_GoalID e = goalID)) events.

Lemma read_events_own goalID events : read_events goalID events = foldl read_event new_attempt (of_goal goalID events).
Proof.
  unfold read_events. generalize new_attempt as t. induction events as [|e events IH]; intros t; simpl; [done|].
  rewrite IH. case_bool_decide as E; case_bool_decide; simpl; congruence.
Qed.

(** The events of the attempt in progress: those after the last acceptance. *)
Definition accepts e : bool := bool_decide (Event_Type e = EventGoalAccepted).
Fixpoint attempt_events events : list Event :=
  match events with
  | [] => []
  | e :: rest => if existsb accepts rest then attempt_events rest else if accepts e then rest else e :: rest
  end.

Lemma read_event_accepts t e : accepts e = true → read_event t e = new_attempt.
Proof. unfold accepts, read_event. intros ->%bool_decide_eq_true. done. Qed.

Lemma read_attempt t events :
  foldl read_event t events =
  foldl read_event (if existsb accepts events then new_attempt else t) (attempt_events events).
Proof.
  revert t. induction events as [|e events IH]; intros t; simpl; [done|].
  destruct (existsb accepts events) eqn:E; [by rewrite IH, orb_true_r|]. rewrite orb_false_r.
  destruct (accepts e) eqn:Ea; [by rewrite read_event_accepts|done].
Qed.

Lemma attempt_events_quiet events : Forall (λ e, accepts e = false) (attempt_events events).
Proof.
  induction events as [|e events IH]; simpl; [constructor|]. destruct (existsb accepts events) eqn:E; [done|].
  assert (Forall (λ e, accepts e = false) events) as Hf.
  { apply Forall_forall. intros x Hx. destruct (accepts x) eqn:Hax; [|done].
    rewrite <-E. symmetry. apply existsb_exists. exists x. by rewrite <-list_elem_of_In. }
  destruct (accepts e) eqn:Ea; [done|]. by constructor.
Qed.

(** The attempt a diagnosis reads. *)
Definition attempt (goalID : string) events : list Event := attempt_events (of_goal goalID events).

Lemma read_events_attempt goalID events : read_events goalID events = foldl read_event new_attempt (attempt goalID events).
Proof. rewrite read_events_own, read_attempt. by destruct (existsb _ _). Qed.

Lemma read_event_dispatched t e :
  accepts e = false →
  dispatched (read_event t e) =
  if bool_decide (Event_Type e = EventActionDispatched) then <[Event_ActionID e := e]> (dispatched t) else dispatched t.
Proof.
  unfold accepts, read_event. rewrite bool_decide_eq_false. destruct (Event_Type e); try done; intros _.
  destruct (Event_Evidence e); [destruct (_ && _)|]; done.
Qed.

Lemma read_event_completed t e :
  accepts e = false →
  completed (read_event t e) =
  if bool_decide (Event_Type e = EventActionCompleted) then {[Event_ActionID e]} ∪ completed t else completed t.
Proof.
  unfold accepts, read_event. rewrite bool_decide_eq_false. destruct (Event_Type e); try done; intros _.
  destruct (Event_Evidence e); [destruct (_ && _)|]; done.
Qed.

Lemma attempt_dispatched (l : list Event) t id y :
  Forall (λ e, accepts e = false) l → dispatched (foldl read_event t l) !! id = Some y →
  dispatched t !! id = Some y ∨ y ∈ l ∧ Event_Type y = EventActionDispatched ∧ Event_ActionID y = id.
Proof.
  revert t. induction l as [|e l IH]; intros t Hl; simpl; [by left|]. apply Forall_cons in Hl as [He Hl].
  intros [Hy|(? & ? & ?)]%(IH _ Hl); [|right; split; [by right|done]]. rewrite read_event_dispatched in Hy by done.
  case_bool_decide; [|by left]. apply lookup_insert_Some in Hy as [[<- <-]|[_ ?]]; [|by left]. right. split; [by left|done].
Qed.

Lemma attempt_dispatches (l : list Event) t id :
  Forall (λ e, accepts e = false) l →
  is_Some (dispatched t !! id) ∨ (∃ e, e ∈ l ∧ Event_Type e = EventActionDispatched ∧ Event_ActionID e = id) →
  is_Some (dispatched (foldl read_event t l) !! id).
Proof.
  revert t. induction l as [|e l IH]; intros t Hl; simpl; [by intros [?|(? & ?%elem_of_nil & _)]|].
  apply Forall_cons in Hl as [He Hl]. intros H. apply (IH _ Hl). rewrite read_event_dispatched by done.
  setoid_rewrite elem_of_cons in H. case_bool_decide; [rewrite lookup_insert_is_Some|]; [|naive_solver].
  destruct (decide (Event_ActionID e = id)); naive_solver.
Qed.

Lemma attempt_completed (l : list Event) t id :
  Forall (λ e, accepts e = false) l →
  id ∈ completed (foldl read_event t l) ↔
    id ∈ completed t ∨ ∃ e, e ∈ l ∧ Event_Type e = EventActionCompleted ∧ Event_ActionID e = id.
Proof.
  revert t. induction l as [|e l IH]; intros t Hl; simpl.
  { split; [by left|]. by intros [?|(? & ?%elem_of_nil & _)]. }
  apply Forall_cons in Hl as [He Hl]. rewrite (IH _ Hl), read_event_completed by done. setoid_rewrite elem_of_cons.
  case_bool_decide; [rewrite elem_of_union, elem_of_singleton|]; naive_solver.
Qed.

(** ** The verdict *)

Definition settles e : bool := bool_decide (Event_Type e = EventGoalAccepted) || bool_decide (Event_Type e = EventGoalBlocked).

Lemma read_event_converged t e :
  att_converged (read_event t e) =
  if bool_decide (Event_Type e = EventGoalAchieved) then true else if settles e then false else att_converged t.
Proof.
  unfold read_event, settles. destruct (Event_Type e); try done. destruct (Event_Evidence e); [destruct (_ && _)|]; done.
Qed.

Lemma converged_fold l t :
  att_converged (foldl read_event t l) = true ↔
  (att_converged t = true ∧ Forall (λ e, settles e = false) l) ∨
  ∃ pre e post, l = pre ++ e :: post ∧ Event_Type e = EventGoalAchieved ∧ Forall (λ e, settles e = false) post.
Proof.
  revert t. induction l as [|e l IH]; intros t; simpl.
  { split; [by left|]. intros [[? _]|([] & ? & ? & ? & _)]; done. }
  rewrite IH, Forall_cons.
  assert (att_converged (read_event t e) = true ↔
    Event_Type e = EventGoalAchieved ∨ att_converged t = true ∧ settles e = false) as ->.
  { clear IH. rewrite read_event_converged. case_bool_decide; [naive_solver|]. destruct (settles e); naive_solver. }
  split.
  - intros [[[Ha|[Ha Hs]] Hl]|(pre & x & post & -> & Hx & Hp)].
    + right. by exists [], e, l.
    + left. auto.
    + right. by exists (e :: pre), x, post.
  - intros [(Ha & Hs & Hl)|([|y pre] & x & post & [= -> ->] & Hx & Hp)]; [left; auto|left; auto|right; eauto 6].
Qed.

(** A diagnosis rests on its own goal.  Events of other goals do not change it; it says
    converged exactly when the goal was recorded as achieved and neither accepted again
    nor blocked since; it always names at least one cause. *)
Theorem diagnosis_verdict goalID events w (x := Diagnose goalID events w) :
  x = Diagnose goalID (of_goal goalID events) w ∧ Diag_Findings x ≠ [] ∧
  (Diag_Converged x = true ↔ ∃ pre e post, of_goal goalID events = pre ++ e :: post ∧
     Event_Type e = EventGoalAchieved ∧ Forall (λ e, settles e = false) post).
Proof.
  split; [|split].
  - unfold x, Diagnose. rewrite !read_events_own. unfold of_goal at 2. fold (of_goal goalID events).
    assert (of_goal goalID (of_goal goalID events) = of_goal goalID events) as ->; [|done].
    unfold of_goal. induction events as [|e l IH]; simpl; [done|]. destruct (bool_decide _) eqn:E; simpl; [|done].
    rewrite E. by f_equal.
  - unfold x, Diagnose. destruct (att_converged _); [done|].
    assert (∀ l, or_unknown l ≠ []) as Hl by (by intros []). destruct (last (blockages _)), (last (denials _)); apply Hl.
  - assert (Diag_Converged x = att_converged (read_events goalID events)) as ->.
    { unfold x, Diagnose. destruct (att_converged _); [done|]. by destruct (last (blockages _)), (last (denials _)). }
    rewrite read_events_own, converged_fold. naive_solver.
Qed.

(** An action of the current attempt that was dispatched and under whose id nothing
    completed is reported, first and under its target. *)
Theorem lost_action_reported goalID events w id e
    (Hconv : Diag_Converged (Diagnose goalID events w) = false)
    (Hd : e ∈ attempt goalID events) (Het : Event_Type e = EventActionDispatched) (Hid : Event_ActionID e = id)
    (Hc : ∀ e', e' ∈ attempt goalID events → Event_Type e' = EventActionCompleted → Event_ActionID e' ≠ id) :
  ∃ f rest e', Diag_Findings (Diagnose goalID events w) = f :: rest ∧
    Finding_Cause f = "action dispatched without recorded completion" ∧
    e' ∈ attempt goalID events ∧ Event_Type e' = EventActionDispatched ∧ Event_ActionID e' = id ∧
    (if bool_decide (Event_Target e' = "") then id else Event_Target e') ∈ Finding_Targets f.
Proof.
  set (t := read_events goalID events).
  pose proof (attempt_events_quiet (of_goal goalID events)) as Hq. fold (attempt goalID events) in Hq.
  assert (is_Some (dispatched t !! id)) as [e' He'].
  { unfold t. rewrite read_events_attempt. apply attempt_dispatches; [done|]. right. eauto. }
  assert (id ∉ completed t) as Hn.
  { unfold t. rewrite read_events_attempt, attempt_completed by done.
    intros [?%elem_of_empty|(e0 & ? & ? & ?)]; [done|by eapply Hc]. }
  assert (e' ∈ attempt goalID events ∧ Event_Type e' = EventActionDispatched ∧ Event_ActionID e' = id) as (H1 & H2 & H3).
  { unfold t in He'. rewrite read_events_attempt in He'. by apply attempt_dispatched in He' as [?|?]. }
  assert ((if bool_decide (Event_Target e' = "") then id else Event_Target e') ∈ incomplete t) as Hin.
  { unfold incomplete. apply list_elem_of_fmap. exists (id, e'). split; [done|].
    apply elem_of_map_to_list, map_lookup_filter_Some. by split. }
  unfold Diagnose in Hconv |- *. fold t in Hconv |- *. destruct (att_converged t); [done|].
  unfold find_targets at 1. destruct (incomplete t) as [|s l] eqn:Hi; [by apply elem_of_nil in Hin|].
  destruct (last (blockages t)), (last (denials t)); simpl;
    (eexists _, _, e'; split; [reflexivity|]; simpl; by rewrite elem_of_sort_Strings).
Qed.
End DiagnoseFacts.

(** ** Concrete histories *)

Module ReportSample.
#[local] Instance report_clock : WallClock := 100.
#[local] Instance report_choice : NodeChoice := λ nodes, head (map_to_list nodes).

Definition logged (n : Z) (type : EventType) (proposal action target kind : string) (ev : option Evidence) : Event :=
  mkEvent n (100 + n) type "coordinator" "g1" proposal action target kind 1 "" ev.
Definition accepted : Event := logged 1 EventGoalAccepted "" "" "" "" None.
Definition dispatch (n : Z) : Event := logged n EventActionDispatched "p1" "create-data" "data" "create_volume" None.
Definition volume_made (n : Z) : Event :=
  logged n EventActionCompleted "p1" "create-data" "data" "create_volume"
    (Some (mkEvidence EvidenceVolumeCreated "data" "" 103 0 {["created" := "true"]})).
Definition made : list Event := [accepted; dispatch 2; volume_made 3].
Definition quiet_world : World := mkWorld 1 100 ∅ ∅ ∅ ∅ ∅ ∅ ∅ [] ∅.

Lemma explain_complete_witness :
  Link_Sequence <$> Expl_Steps (Explain made "data") = [1; 2; 3] ∧
  (Expl_Found (Explain made "data") = true ↔ ∃ e, e ∈ made ∧ mentionsTarget e "data" = true).
Proof. split; [vm_compute; reflexivity|]. exact (proj1 (explain_complete made "data" ltac:(discriminate))). Defined.

Lemma completion_reads_as_pending_witness : deriveState made "data" = StatePending.
Proof.
  exact (completion_reads_as_pending [accepted] "data" (dispatch 2) (volume_made 3)
    (mkEvidence EvidenceVolumeCreated "data" "" 103 0 {["created" := "true"]}) ltac:(vm_compute; reflexivity) eq_refl
    eq_refl eq_refl ltac:(vm_compute; reflexivity)).
Defined.

Lemma lost_action_reported_witness :
  ∃ f rest e', Diag_Findings (Diagnose "g1" [accepted; dispatch 2] quiet_world) = f :: rest ∧
    Finding_Cause f = "action dispatched without recorded completion" ∧
    e' ∈ attempt "g1" [accepted; dispatch 2] ∧ Event_Type e' = EventActionDispatched ∧
    Event_ActionID e' = "create-data" ∧
    (if bool_decide (Event_Target e' = "") then "create-data" else Event_Target e') ∈ Finding_Targets f.
Proof.
  apply (lost_action_reported "g1" [accepted; dispatch 2] quiet_world "create-data" (dispatch 2)).
  - vm_compute. reflexivity.
  - vm_compute. left.
  - reflexivity.
  - reflexivity.
  - intros e' He'. vm_compute in He'. apply list_elem_of_singleton in He' as ->. intros [=].
Defined.

(** An earlier completion hides a lost action.  Actions are remembered by their id, which
    is derived from the target and returns whenever the same work is planned again: when
    an action of the same attempt is dispatched a second time and its outcome is never
    recorded, the diagnosis finds nothing to report. *)
Lemma lost_action_hidden :
  Diag_Findings (Diagnose "g1" (made ++ [dispatch 4]) quiet_world) =
    [mkFinding "no recorded cause" "history holds no blockage, denial, or failure for this goal" 0 []].
Proof. vm_compute. reflexivity. Qed.

(** Another workload's crash is reported as this goal's.  The findings about backoff are
    kept to the targets the goal touched; the one about abnormal exits lists every crashed
    allocation of the cluster. *)
Definition crash_world : World :=
  quiet_world <| Allocations := {["db-0" := (new_Allocation "db-0" "db" 0 "n1" "db@sha256:1" (mkResources 1 1) Budget_zero)
    <| Alloc_Phase := AllocationStopped |> <| Alloc_ExitCode := 2 |>]} |>.
Lemma other_crash_blamed :
  Diag_Findings (Diagnose "g1" made crash_world) =
    [mkFinding "allocations exited abnormally" "the image does not run successfully on this cluster" 0
       ["db-0 (exit 2, 0 restarts)"]].
Proof. vm_compute. reflexivity. Qed.
End ReportSample.
