(* ===== verification/OperatorApi.v ===== *)
(** * The operator API (src/server/api.go, src/server/apiauth.go, src/server/apibody.go)

    Signed operator requests and the handlers that carry them out on the server.  HTTP is
    a request and a response value; the mux matches clean paths segment by segment (a
    path with empty or dotted segments is redirected and reaches no handler, an escaped
    slash inside a segment is not modelled).  JSON, ed25519, base64 and [time.Parse] are
    parameters; logging and metrics are not modelled, except the status the metrics
    endpoint reports. *)

From S2P Require Import Prelude Types Text Spread Snapshots Policy Simulate Clone Disruption Projection History Replay Executor EventLog Durable Lease Provenance Kernel Rollout Engine Directory Canary NetPolicy Agents Cron Validate Keys Approvals Anchor Server Guarantees Reconcile Plan Reports.
Open Scope Z_scope.

(** ** Signed requests (src/server/apiauth.go) *)

Definition RequestVersion : Z := 1.
Definition MaxRequestLifetime : duration := 5 * Minute.
Definition clockSkewTolerance : duration := 30 * Second.

Record RequestEnvelope := mkRequestEnvelope {
  Req_Version : Z; Req_Nonce : string; Req_Method : string; Req_Path : string; Req_BodyDigest : string;
  Req_IssuedBy : string; Req_KeyID : string; Req_IssuedAt : time; Req_ExpiresAt : time }.
#[export] Instance eta_RequestEnvelope : Eta RequestEnvelope := λ r,
  mkRequestEnvelope (Req_Version r) (Req_Nonce r) (Req_Method r) (Req_Path r) (Req_BodyDigest r) (Req_IssuedBy r)
    (Req_KeyID r) (Req_IssuedAt r) (Req_ExpiresAt r).
#[export] Instance RequestEnvelope_eq_dec : EqDecision RequestEnvelope. Proof. solve_decision. Defined.

Record SignedRequest := mkSignedRequest {
  SignedReq_Bytes : string; SignedReq_KeyID : string; SignedReq_Signature : string }.

Definition ascii_request (e : RequestEnvelope) : bool :=
  forallb ascii_text [Req_Nonce e; Req_Method e; Req_Path e; Req_BodyDigest e; Req_IssuedBy e; Req_KeyID e].

(** The JSON the API reads and writes. *)
Class RequestCodec := {
  encode_request : RequestEnvelope → option string;
  decode_request : string → decoded RequestEnvelope;
  decode_signature_header : string → option SignedRequest;
  decode_goal : string → decoded Goal;
  decode_signed_approval : string → decoded SignedApproval;
  decode_cordon_reason : string → decoded string;
  Parse_RFC3339 : string → option time }.
Class RequestCodecLaws (codec : RequestCodec) : Prop := {
  decode_encode_request : ∀ e bytes, ascii_request e = true → encode_request e = Some bytes → decode_request bytes = Decoded e;
  encode_request_nonempty : ∀ e bytes, encode_request e = Some bytes → bytes ≠ "" }.

Definition validateRequestEnvelope (e : RequestEnvelope) : result unit :=
  refuse (negb (Req_Version e =? RequestVersion)) "unsupported request version %d";
  refuse (bool_decide (Req_Nonce e = "")) "request requires a nonce";
  refuse (bool_decide (Req_Method e = "") || bool_decide (Req_Path e = "")) "request must name a method and path";
  refuse (bool_decide (Req_IssuedBy e = "")) "request must name the operator that issued it";
  refuse (IsZero (Req_IssuedAt e) || IsZero (Req_ExpiresAt e)) "request requires an issue time and expiry";
  refuse (negb (After (Req_ExpiresAt e) (Req_IssuedAt e))) "request expiry must follow its issue time";
  refuse (MaxRequestLifetime <? time_Sub (Req_ExpiresAt e) (Req_IssuedAt e)) "request lifetime exceeds %s";
  Ok tt.

Section Requests.
Context {att : Attest} {signer : Signer} {codec : RequestCodec} {digest : Digest}.

Definition BodyDigest (body : string) : string := if bool_decide (body = "") then "" else digestOf body.

Definition SignRequest (e : RequestEnvelope) (keyID key : string) : result SignedRequest :=
  refuse (bool_decide (keyID = "") || negb (String.length key =? PrivateKeySize)%nat)
    "request requires a key id and an ed25519 private key";
  let e := e <| Req_Version := RequestVersion |> <| Req_KeyID := keyID |> in
  let* _ := validateRequestEnvelope e in
  need payload := encode_request e else "encode request envelope: %w";
  Ok (mkSignedRequest payload keyID (base64_Encode (ed25519_Sign key payload))).

Definition VerifyRequest (signed : SignedRequest) (keys : gmap string string) (method path body : string) (now : time)
    : result RequestEnvelope :=
  refuse (bool_decide (keys = ∅)) "no operator keys are configured";
  refuse (bool_decide (SignedReq_Bytes signed = "")) "signed request carries no envelope";
  need public := keys !! SignedReq_KeyID signed else "request is not signed by a known operator key";
  refuse (negb (String.length public =? PublicKeySize)%nat) "request is not signed by a known operator key";
  need signature := base64_Decode (SignedReq_Signature signed) else "request signature is malformed";
  refuse (negb (ed25519_Verify public (SignedReq_Bytes signed) signature)) "request is not signed by a known operator key";
  match decode_request (SignedReq_Bytes signed) with
  | Malformed => Err (Errorf "request envelope is malformed")
  | Trailing _ => Err (Errorf "request envelope has trailing content")
  | Decoded e =>
      let* _ := validateRequestEnvelope e in
      refuse (bool_decide (Req_KeyID e ≠ SignedReq_KeyID signed)) "request key id does not match the signed envelope";
      refuse (bool_decide (Req_Method e ≠ method) || bool_decide (Req_Path e ≠ path)) "request signature does not cover %s %s";
      refuse (bool_decide (Req_BodyDigest e ≠ BodyDigest body)) "request body does not match its signed digest";
      refuse (After now (Req_ExpiresAt e)) "request expired at %s";
      refuse (After (Req_IssuedAt e) (time_Add now clockSkewTolerance)) "request was issued in the future";
      Ok e
  end.

(** [nonceLedger.observe]: drop what has expired, refuse what is known, remember. *)
Definition scoped (keyID nonce : string) : string := keyID +:+ String zero_byte nonce.
Definition nonce_observe (seen : gmap string time) (keyID nonce : string) (expiresAt now : time) : gmap string time * bool :=
  let seen := filter (λ '(_, expiry), After now expiry = false) seen in
  if bool_decide (is_Some (seen !! scoped keyID nonce)) then (seen, false)
  else (<[scoped keyID nonce := expiresAt]> seen, true).
End Requests.

(** ** The rest of the server's answers (src/server/server.go) *)

Record Status := mkStatus {
  Status_Revision : Z; Status_ObservedAt : time; Status_Goals : Z; Status_Nodes : Z; Status_Allocations : Z; Status_Routes : Z;
  Status_Events : Z; Status_Schedulable : Z; Status_Cordoned : Z; Status_Disruptions : Z; Status_BackingOff : Z }.

Section Answers.
Context {att : Attest} {clock : WallClock} {codec : EventCodec}.

Definition Server_Goals (s : Server) : list Goal := values (Server_goals s).
Definition workloadPorts (s : Server) : gmap string Z := WorkloadPorts (Server_Goals s).
Definition Server_Directory (s : Server) : gmap string Service := BuildDirectory (Server_World s) (workloadPorts s).
Definition Server_ServiceZone (s : Server) (nodeID : string) : ServiceZone :=
  BuildServiceZone (Server_World s) (workloadPorts s) nodeID.
Definition Server_RouteSnapshots (s : Server) : result (list RouteSnapshot) :=
  BuildWeightedRouteSnapshots (Server_World s) (workloadPorts s) (Server_Goals s).
Definition Server_StaleRoutes (s : Server) : list string :=
  StaleAfter (Server_World s) (workloadPorts s) (Now (Server_World s)).
Definition Server_Evacuation (s : Server) (nodeID : string) : NodeEvacuation := PlanEvacuation (Server_World s) nodeID.

(** Live approvals first, then the later issued, then by id. *)
Definition approval_before (now : time) (a b : Approval) : Prop :=
  let live := Approval_Valid a now in let other := Approval_Valid b now in
  if negb (Bool.eqb live other) then live = true
  else if negb (Approval_IssuedAt a =? Approval_IssuedAt b) then Approval_IssuedAt b < Approval_IssuedAt a
  else string_le (Approval_ID a) (Approval_ID b).
#[export] Instance approval_before_dec now : RelDecision (approval_before now).
Proof. intros a b. unfold approval_before. destruct (negb _); [|destruct (negb _)]; apply _. Defined.
Definition Server_Approvals (s : Server) : list Approval :=
  merge_sort (approval_before (Now (Server_World s))) (values (Approvals (Server_World s))).

Definition Server_Explain (s : Server) (target : string) : Explanation := Explain (Server_Events s) target.
Definition Server_Diagnose {choice : NodeChoice} (s : Server) (goalID : string) : Diagnosis :=
  Diagnose goalID (Server_Events s) (Server_World s).
Definition Server_Plan (agents : list Agent) (s : Server) (goalID : string) : result Plan :=
  need g := Server_goals s !! goalID else "goal %q was never accepted";
  Ok (DryRun (Server_policy s) (Server_World s) g agents).

Definition count {A} (P : A → bool) (l : list A) : Z := len (List.filter P l).
Definition Server_Status (s : Server) : Status :=
  let w := Server_World s in
  mkStatus (Revision w) (ObservedAt w) (Z.of_nat (size (Server_goals s))) (Z.of_nat (size (Nodes w)))
    (Z.of_nat (size (Allocations w))) (Z.of_nat (size (Routes w)))
    (match Server_log s with None => 0 | Some f => u64 (NextSequence f - 1) end)
    (count Schedulable (values (Nodes w))) (count Node_Cordoned (values (Nodes w)))
    (len (RecentDisruptions w (Now w) DefaultDisruptionWindow))
    (count (λ b, Backoff_Active (Some b) (Now w)) (values (BackoffState w))).
End Answers.

(** ** Requests, responses and routes (src/server/api.go) *)

Definition MaxRequestBody : Z := 1048576.
Definition MaxSignatureHeader : Z := 8192.

(** A request: [Http_Body] is [None] when the body cannot be read. *)
Record HttpRequest := mkHttpRequest {
  Http_Method : string; Http_Path : string; Http_Query : gmap string string; Http_Signature : string; Http_Body : option string }.

Inductive Payload :=
  | ErrorText (text : string)
  | HealthBody | StatusBody (s : Status) | WorldBody (w : World) | GoalsBody (l : list Goal) | EventsBody (l : list Event)
  | ApprovalsBody (l : list Approval) | DirectoryBody (d : gmap string Service) | RoutesBody (r : result (list RouteSnapshot))
  | ZoneBody (z : ServiceZone) | ExplainBody (x : Explanation) | PlanBody (p : Plan) | DiagnosisBody (d : Diagnosis)
  | EvacuationBody (e : NodeEvacuation) | RecordsBody (l : list LogRecord) | MetricsBody (s : Status)
  | GoalBody (id : string) | GrantBody (g : ApprovalGrant) | RevokedBody | NodeBody (id : string).
Record HttpResponse := mkHttpResponse { Http_Status : Z; Http_Payload : Payload }.

Record API := mkAPI { API_server : Server; API_nonces : gmap string time }.

(** [NewAPI]; a process starts with no nonces. *)
Definition NewAPI (s : Server) : API := mkAPI s ∅.

(** What the world does during one request: the clock of the API, then of the server, and
    the disk. *)
Record Moment := mkMoment { at_now : time; at_server : time; at_disk : Disk }.

Section Handlers.
Context {att : Attest} {codec : RequestCodec} {grants : GrantCodec} {events : EventCodec} {digest : Digest}
  {anchors : AnchorCodec} {cidr : CIDRParser} {clock : WallClock} {choice : NodeChoice}.
Context (agents : list Agent) (metrics_enabled : bool).

(** A verified request reaches its handler with the envelope and the body. *)
Definition handler : Type := Moment → Server → HttpRequest → RequestEnvelope → string → Server * HttpResponse.

Definition http_error (status : Z) (text : string) : HttpResponse := mkHttpResponse status (ErrorText text).
Definition reply (payload : Payload) : HttpResponse := mkHttpResponse 200 payload.
Definition failed (status : Z) (err : error) : HttpResponse := http_error status (error_text err).

(** The checks before a handler runs: the nonces afterwards, and either a refusal or the
    verified envelope with the body it covers. *)
Definition vet (m : Moment) (a : API) (r : HttpRequest) : gmap string time * (HttpResponse + RequestEnvelope * string) :=
  let deny status text := (API_nonces a, inl (http_error status text)) in
  match Http_Body r with
  | None => deny 400 "request body could not be read"
  | Some body =>
      if MaxRequestBody <? Z.of_nat (String.length body) then deny 413 "request body exceeds limit"
      else if bool_decide (Http_Signature r = "") then deny 401 "request is not signed"
      else if MaxSignatureHeader <? Z.of_nat (String.length (Http_Signature r)) then deny 413 "signature header exceeds limit"
      else match decode_signature_header (Http_Signature r) with
           | None => deny 401 "signature header is malformed"
           | Some signed =>
               match VerifyRequest signed (Server_operatorKeys (API_server a)) (Http_Method r) (Http_Path r) body (at_now m) with
               | Err _ => deny 401 "unauthorized"
               | Ok e =>
                   let '(nonces, fresh) := nonce_observe (API_nonces a) (Req_KeyID e) (Req_Nonce e) (Req_ExpiresAt e) (at_now m) in
                   (nonces, if fresh then inr (e, body) else inl (http_error 401 "unauthorized"))
               end
           end
  end.

Definition authenticated (h : handler) (m : Moment) (a : API) (r : HttpRequest) : API * HttpResponse :=
  match vet m a r with
  | (nonces, inl resp) => (mkAPI (API_server a) nonces, resp)
  | (nonces, inr (e, body)) => let '(s, resp) := h m (API_server a) r e body in (mkAPI s nonces, resp)
  end.

(** [decodeBody] *)
Definition decodeBody {A} (decode : string → decoded A) (body : string) : result A :=
  refuse (bool_decide (body = "")) "request body is required";
  match decode body with
  | Malformed => Err (Errorf "malformed request body")
  | Trailing _ => Err (Errorf "request body has trailing content")
  | Decoded x => Ok x
  end.

Definition query (r : HttpRequest) (key : string) : string := default "" (Http_Query r !! key).

(** A handler that only reports. *)
Definition reads (f : Server → HttpRequest → HttpResponse) : handler := λ _ s r _ _, (s, f s r).

Definition bound_time (r : HttpRequest) (name : string) : result time :=
  if bool_decide (query r name = "") then Ok time_zero
  else match Parse_RFC3339 (query r name) with
       | Some t => Ok t
       | None => Err (Errorf (name +:+ " must be an RFC3339 timestamp"))
       end.
(** A non-negative [int] of the query; 0 when absent. *)
Definition bound_limit (r : HttpRequest) : result Z :=
  if bool_decide (query r "limit" = "") then Ok 0
  else match Atoi (query r "limit") with
       | Some n => if n <? 0 then Err (Errorf "limit must be a non-negative integer") else Ok n
       | None => Err (Errorf "limit must be a non-negative integer")
       end.
(** [strconv.ParseUint(raw, 10, 64)] *)
Definition ParseUint (s : string) : option Z :=
  if bool_decide (s = "") || negb (all_digits s) then None
  else let n := digits_value 0 s in if n <? two64 then Some n else None.

Definition api_events (s : Server) (r : HttpRequest) : HttpResponse :=
  match (let* since := bound_time r "since" in let* until := bound_time r "until" in let* limit := bound_limit r in
         Ok (mkHistoryQuery (query r "goal") (query r "target") (query r "kind") since until limit)) with
  | Err err => failed 400 err
  | Ok q => reply (EventsBody (Server_Query s q))
  end.

Definition api_records (s : Server) (r : HttpRequest) : HttpResponse :=
  match (let* after := (if bool_decide (query r "after" = "") then Ok 0
                        else match ParseUint (query r "after") with
                             | Some n => Ok n
                             | None => Err (Errorf "after must be a non-negative integer")
                             end) in
         let* limit := bound_limit r in Ok (after, limit)) with
  | Err err => failed 400 err
  | Ok (after, limit) => reply (RecordsBody (Server_Records s after limit))
  end.

Definition api_explain (target : string) (s : Server) (r : HttpRequest) : HttpResponse :=
  let x := Server_Explain s target in mkHttpResponse (if Expl_Found x then 200 else 404) (ExplainBody x).

Definition api_plan (goal : string) (s : Server) (r : HttpRequest) : HttpResponse :=
  match Server_Plan agents s goal with Err err => failed 404 err | Ok p => reply (PlanBody p) end.

Definition api_metrics (s : Server) (r : HttpRequest) : HttpResponse :=
  if metrics_enabled then reply (MetricsBody (Server_Status s)) else http_error 404 "metrics are not enabled".

Definition submitGoal : handler := λ _ s _ _ body,
  match decodeBody decode_goal body with
  | Err err => (s, failed 400 err)
  | Ok g => match Submit s g with
            | (s, Err err) => (s, failed 422 err)
            | (s, Ok _) => (s, mkHttpResponse 201 (GoalBody (Goal_ID g)))
            end
  end.

Definition approve : handler := λ m s _ _ body,
  match decodeBody decode_signed_approval body with
  | Err err => (s, failed 400 err)
  | Ok signed => match Approve (at_disk m) (at_server m) s signed with
                 | (s, Err err) => (s, failed 422 err)
                 | (s, Ok g) => (s, mkHttpResponse 201 (GrantBody g))
                 end
  end.

Definition revoke : handler := λ m s _ _ body,
  match decodeBody decode_signed_approval body with
  | Err err => (s, failed 400 err)
  | Ok signed => match Revoke (at_disk m) (at_server m) s signed with
                 | (s, Err err) => (s, failed 422 err)
                 | (s, Ok _) => (s, reply RevokedBody)
                 end
  end.

Definition cordon (node : string) : handler := λ m s _ e body,
  match (if bool_decide (body = "") then Ok "" else decodeBody decode_cordon_reason body) with
  | Err err => (s, failed 400 err)
  | Ok reason => match Cordon (at_disk m) (at_server m) s node reason (Req_IssuedBy e) with
                 | (s, Err err) => (s, failed 422 err)
                 | (s, Ok _) => (s, reply (EvacuationBody (Server_Evacuation s node)))
                 end
  end.

Definition uncordon (node : string) : handler := λ m s _ e _,
  match Uncordon (at_disk m) (at_server m) s node (Req_IssuedBy e) with
  | (s, Err err) => (s, failed 422 err)
  | (s, Ok _) => (s, reply (NodeBody node))
  end.

(** *** The mux *)

Definition slash : Ascii.ascii := Ascii.ascii_of_nat 47.

(** The segments of a clean path; [None] for one the mux redirects.  No pattern matches a
    path that ends in a slash. *)
Definition segments (path : string) : option (list string) :=
  match split_on slash path with
  | "" :: l =>
      let trailing := bool_decide (List.last l "/" = "") in
      let l := if trailing then removelast l else l in
      if existsb (λ s, bool_decide (s = "") || bool_decide (s = ".") || bool_decide (s = "..")) l then None
      else Some (if trailing then [] else l)
  | _ => None
  end.

(** The handler of an authenticated route; a [GET] pattern also serves [HEAD]. *)
Definition get_route (l : list string) : option handler :=
  match l with
  | ["v1"; "status"] => Some (reads (λ s _, reply (StatusBody (Server_Status s))))
  | ["v1"; "world"] => Some (reads (λ s _, reply (WorldBody (Server_World s))))
  | ["v1"; "goals"] => Some (reads (λ s _, reply (GoalsBody (Server_Goals s))))
  | ["v1"; "events"] => Some (reads api_events)
  | ["v1"; "approvals"] => Some (reads (λ s _, reply (ApprovalsBody (Server_Approvals s))))
  | ["v1"; "directory"] => Some (reads (λ s _, reply (DirectoryBody (Server_Directory s))))
  | ["v1"; "routes"] => Some (reads (λ s _, reply (RoutesBody (Server_RouteSnapshots s))))
  | ["v1"; "zone"; node] => Some (reads (λ s _, reply (ZoneBody (Server_ServiceZone s node))))
  | ["v1"; "explain"; target] => Some (reads (api_explain target))
  | ["v1"; "plan"; goal] => Some (reads (api_plan goal))
  | ["v1"; "diagnose"; goal] => Some (reads (λ s _, reply (DiagnosisBody (Server_Diagnose s goal))))
  | ["v1"; "nodes"; node; "evacuation"] => Some (reads (λ s _, reply (EvacuationBody (Server_Evacuation s node))))
  | ["v1"; "records"] => Some (reads api_records)
  | ["v1"; "metrics"] => Some (reads api_metrics)
  | _ => None
  end.

Definition post_route (l : list string) : option handler :=
  match l with
  | ["v1"; "goals"] => Some submitGoal
  | ["v1"; "approvals"] => Some approve
  | ["v1"; "approvals"; "revoke"] => Some revoke
  | ["v1"; "nodes"; node; "cordon"] => Some (cordon node)
  | ["v1"; "nodes"; node; "uncordon"] => Some (uncordon node)
  | _ => None
  end.

Definition is_health (l : list string) : bool := bool_decide (l = ["v1"; "health"]).

(** The pattern a method and a path match. *)
Definition route_of (method : string) (l : list string) : option handler :=
  if bool_decide (method = "GET") || bool_decide (method = "HEAD") then get_route l
  else if bool_decide (method = "POST") then post_route l else None.

Definition Handler (m : Moment) (a : API) (r : HttpRequest) : API * HttpResponse :=
  match segments (Http_Path r) with
  | None => (a, http_error 301 "Moved Permanently")
  | Some l =>
      if (bool_decide (Http_Method r = "GET") || bool_decide (Http_Method r = "HEAD")) && is_health l then (a, reply HealthBody)
      else match route_of (Http_Method r) l with
           | Some h => authenticated h m a r
           | None =>
               if is_health l || bool_decide (is_Some (get_route l)) || bool_decide (is_Some (post_route l))
               then (a, http_error 405 "Method Not Allowed") else (a, http_error 404 "404 page not found")
           end
  end.
End Handlers.

(** ** What an admitted request establishes *)

Section Facts.
Context {att : Attest} {codec : RequestCodec} {grants : GrantCodec} {events : EventCodec} {digest : Digest}
  {anchors : AnchorCodec} {cidr : CIDRParser} {clock : WallClock} {choice : NodeChoice}.
Context (agents : list Agent) (metrics_enabled : bool).
Implicit Types (a : API) (r : HttpRequest) (m : Moment) (e : RequestEnvelope).

(** An envelope that covers this call and is in force. *)
Record covers (keys : gmap string string) (signed : SignedRequest) r (body : string) (now : time) e : Prop := {
  cov_signed : signed_with keys (SignedReq_KeyID signed) (SignedReq_Bytes signed) (SignedReq_Signature signed);
  cov_bytes : decode_request (SignedReq_Bytes signed) = Decoded e;
  cov_key : Req_KeyID e = SignedReq_KeyID signed;
  cov_call : Req_Method e = Http_Method r ∧ Req_Path e = Http_Path r;
  cov_body : Req_BodyDigest e = BodyDigest body;
  cov_window : Req_IssuedAt e - clockSkewTolerance <= now <= Req_ExpiresAt e;
  cov_lifetime : Req_IssuedAt e < Req_ExpiresAt e <= Req_IssuedAt e + MaxRequestLifetime;
  cov_named : Req_Nonce e ≠ "" ∧ Req_IssuedBy e ≠ "" }.

Lemma validateRequest_sound e :
  validateRequestEnvelope e = Ok tt →
  Req_Nonce e ≠ "" ∧ Req_IssuedBy e ≠ "" ∧ Req_IssuedAt e < Req_ExpiresAt e <= Req_IssuedAt e + MaxRequestLifetime.
Proof.
  unfold validateRequestEnvelope, After. intros H. inv_ok H. bool_simpl. split; [done|]. split; [done|].
  unfold time_Sub in *. assert (MaxRequestLifetime < int_max) by (apply Z.ltb_lt; vm_compute; reflexivity). lia.
Qed.

Lemma VerifyRequest_covers signed keys r body now e :
  VerifyRequest signed keys (Http_Method r) (Http_Path r) body now = Ok e → covers keys signed r body now e.
Proof.
  unfold VerifyRequest. intros H. inv_ok H. destruct (decode_request _) as [|e0|e0] eqn:Ed; [done..|]. inv_ok H. subst e0.
  match goal with H : validateRequestEnvelope e = Ok ?u |- _ => destruct u; apply validateRequest_sound in H as (Hn & Hi & Hl) end.
  unfold After, time_Add in *. bool_simpl.
  split; try done; try lia. do 2 eexists. split_and!; try done. by apply Nat.eqb_eq.
Qed.

Lemma vet_inv m a r nonces e body :
  vet m a r = (nonces, inr (e, body)) →
  ∃ signed, Http_Body r = Some body ∧ decode_signature_header (Http_Signature r) = Some signed ∧
    covers (Server_operatorKeys (API_server a)) signed r body (at_now m) e ∧
    nonce_observe (API_nonces a) (Req_KeyID e) (Req_Nonce e) (Req_ExpiresAt e) (at_now m) = (nonces, true).
Proof.
  unfold vet. destruct (Http_Body r) as [b|]; [|done]. destruct (_ <? _); [done|]. case_bool_decide; [done|].
  destruct (_ <? _); [done|]. destruct (decode_signature_header _) as [signed|]; [|done].
  destruct (VerifyRequest _ _ _ _ _ _) as [e0|] eqn:Hv; [|done].
  destruct (nonce_observe _ _ _ _ _) as [n fresh] eqn:Hn. destruct fresh; [|done]. intros [= <- -> ->].
  exists signed. split; [done|]. split; [done|]. split; [by apply VerifyRequest_covers|done].
Qed.

(** The operation a write to the path of these segments asks of the server, made by the
    operator the envelope names. *)
Definition operates m (s : Server) (l : list string) e (body : string) (s' : Server) : Prop :=
  match l with
  | ["v1"; "goals"] => ∃ g, decode_goal body = Decoded g ∧ s' = (Submit s g).1
  | ["v1"; "approvals"] => ∃ signed, decode_signed_approval body = Decoded signed ∧ s' = (Approve (at_disk m) (at_server m) s signed).1
  | ["v1"; "approvals"; "revoke"] =>
      ∃ signed, decode_signed_approval body = Decoded signed ∧ s' = (Revoke (at_disk m) (at_server m) s signed).1
  | ["v1"; "nodes"; node; "cordon"] =>
      ∃ reason, (body = "" ∧ reason = "" ∨ decode_cordon_reason body = Decoded reason) ∧
        s' = (Cordon (at_disk m) (at_server m) s node reason (Req_IssuedBy e)).1
  | ["v1"; "nodes"; node; "uncordon"] => s' = (Uncordon (at_disk m) (at_server m) s node (Req_IssuedBy e)).1
  | _ => False
  end.

Lemma decodeBody_inv {A} (decode : string → decoded A) body x : decodeBody decode body = Ok x → decode body = Decoded x.
Proof. unfold decodeBody. case_bool_decide; [done|]. destruct (decode body); try done. by intros [= ->]. Qed.

Lemma post_route_operates l h m s r e body s' resp :
  post_route l = Some h → h m s r e body = (s', resp) → s' = s ∨ operates m s l e body s'.
Proof.
  unfold post_route, operates. intros Hh H.
  repeat (match type of Hh with match ?x with _ => _ end = Some _ => destruct x; try discriminate Hh end);
    injection Hh as <-; revert H; unfold submitGoal, approve, revoke, cordon, uncordon.
  - destruct (decodeBody _ _) as [g|] eqn:Hd; [|intros [= <- _]; by left]. apply decodeBody_inv in Hd.
    destruct (Submit s g) as [s1 []] eqn:E; intros [= <- _]; right; exists g; by rewrite E.
  - destruct (decodeBody _ _) as [g|] eqn:Hd; [|intros [= <- _]; by left]. apply decodeBody_inv in Hd.
    destruct (Approve _ _ s g) as [s1 []] eqn:E; intros [= <- _]; right; exists g; by rewrite E.
  - destruct (decodeBody _ _) as [g|] eqn:Hd; [|intros [= <- _]; by left]. apply decodeBody_inv in Hd.
    destruct (Revoke _ _ s g) as [s1 []] eqn:E; intros [= <- _]; right; exists g; by rewrite E.
  - destruct (if bool_decide _ then _ else _) as [reason|] eqn:Hd; [|intros [= <- _]; by left].
    assert (body = "" ∧ reason = "" ∨ decode_cordon_reason body = Decoded reason) as Hr
      by (case_bool_decide; [left; by injection Hd as <-|right; by apply decodeBody_inv in Hd]).
    destruct (Cordon _ _ s _ _ _) as [s1 []] eqn:E; intros [= <- _]; right; exists reason; by rewrite E.
  - destruct (Uncordon _ _ s _ _) as [s1 []] eqn:E; intros [= <- _]; by right.
Qed.

Lemma get_route_reads l h m s r e body : get_route agents metrics_enabled l = Some h → (h m s r e body).1 = s.
Proof.
  unfold get_route. intros Hh.
  repeat (match type of Hh with match ?x with _ => _ end = Some _ => destruct x; try discriminate Hh end); by injection Hh as <-.
Qed.

(** C31: only a signed request moves the server.  Whatever reaches the API, either the server
    is left as it is, or the request is a POST whose header carries an envelope signed
    with a configured operator key, made for exactly this method, path and body, in force
    and of bounded lifetime, with a nonce not seen before and remembered now; and what
    happens is the one operation the path names: a goal submission, an approval, a
    revocation, or the cordon or uncordon of the node in the path, in the name of the
    operator the envelope names. *)
Theorem api_authenticated m a r a' resp (H : Handler agents metrics_enabled m a r = (a', resp)) :
  API_server a' = API_server a ∨
  ∃ signed body e l, Http_Method r = "POST" ∧ segments (Http_Path r) = Some l ∧ Http_Body r = Some body ∧
    decode_signature_header (Http_Signature r) = Some signed ∧
    covers (Server_operatorKeys (API_server a)) signed r body (at_now m) e ∧
    API_nonces a' !! scoped (Req_KeyID e) (Req_Nonce e) = Some (Req_ExpiresAt e) ∧
    operates m (API_server a) l e body (API_server a').
Proof.
  unfold Handler in H. destruct (segments _) as [l|] eqn:Hl; [|left; congruence].
  destruct (_ && is_health l); [left; congruence|].
  assert (∀ h, authenticated h m a r = (a', resp) → API_server a' = API_server a ∨
    ∃ signed body e nonces, vet m a r = (nonces, inr (e, body)) ∧ Http_Body r = Some body ∧
      decode_signature_header (Http_Signature r) = Some signed ∧ covers (Server_operatorKeys (API_server a)) signed r body (at_now m) e ∧
      API_nonces a' = nonces ∧ nonces !! scoped (Req_KeyID e) (Req_Nonce e) = Some (Req_ExpiresAt e) ∧
      API_server a' = (h m (API_server a) r e body).1) as Hauth.
  { intros h Ha. unfold authenticated in Ha. destruct (vet m a r) as [nonces [rs|[e body]]] eqn:Had; [injection Ha as <- _; by left|].
    destruct (vet_inv _ _ _ _ _ _ Had) as (signed & H1 & H2 & H3 & H4). right. exists signed, body, e, nonces.
    destruct (h m (API_server a) r e body) as [s' rs]. injection Ha as <- _. do 5 (split; [done|]). split; [|done].
    unfold nonce_observe in H4. case_bool_decide; [done|]. injection H4 as <-. by rewrite lookup_insert_eq. }
  unfold route_of in H. destruct (bool_decide (Http_Method r = "GET") || bool_decide (Http_Method r = "HEAD")).
  - destruct (get_route _ _ l) as [h|] eqn:Hh; [|destruct (_ || _); left; congruence].
    destruct (Hauth h H) as [?|(signed & body & e & nonces & _ & _ & _ & _ & _ & _ & Hs)]; [by left|left].
    rewrite Hs. by eapply get_route_reads.
  - case_bool_decide as Hpost; [|destruct (_ || _); left; congruence].
    destruct (post_route l) as [h|] eqn:Hh; [|destruct (_ || _); left; congruence].
    destruct (Hauth h H) as [?|(signed & body & e & nonces & _ & H1 & H2 & H3 & H4 & H5 & Hs)]; [by left|].
    destruct (h m (API_server a) r e body) as [s' rs] eqn:Ho. cbn [fst] in Hs.
    destruct (post_route_operates _ _ _ _ _ _ _ _ _ Hh Ho) as [->|Hop]; [by left|]. right.
    exists signed, body, e, l. rewrite H4, Hs. done.
Qed.

(** ** Single use *)

(** Requests served one after another. *)
Fixpoint serve (a : API) (l : list (Moment * HttpRequest)) : API :=
  match l with [] => a | (m, r) :: l => serve (Handler agents metrics_enabled m a r).1 l end.

(** Clock readings that never go back. *)
Fixpoint forward (t : time) (l : list (Moment * HttpRequest)) : Prop :=
  match l with [] => True | (m, _) :: l => t <= at_now m ∧ forward (at_now m) l end.
Definition last_time (t : time) (l : list (Moment * HttpRequest)) : time := foldl (λ _ x, at_now x.1) t l.

(** At [t] the envelope's nonce is remembered, or the envelope has expired. *)
Definition spent e (nonces : gmap string time) (t : time) : Prop :=
  nonces !! scoped (Req_KeyID e) (Req_Nonce e) = Some (Req_ExpiresAt e) ∨ Req_ExpiresAt e < t.

Lemma spent_observe e nonces t now keyID nonce expiresAt :
  spent e nonces t → t <= now → spent e (nonce_observe nonces keyID nonce expiresAt now).1 now.
Proof.
  unfold spent, nonce_observe. intros [H|H] Ht; [|right; lia].
  destruct (decide (Req_ExpiresAt e < now)) as [?|Hn]; [by right|]. left.
  assert (filter (λ '(_, expiry), After now expiry = false) nonces !! scoped (Req_KeyID e) (Req_Nonce e) = Some (Req_ExpiresAt e)) as Hf.
  { apply map_lookup_filter_Some. split; [done|]. unfold After. by apply Z.ltb_ge; lia. }
  case_bool_decide as Hb; [exact Hf|]. cbn [fst].
  destruct (decide (scoped keyID nonce = scoped (Req_KeyID e) (Req_Nonce e))) as [E|E].
  - exfalso. apply Hb. rewrite E, Hf. by eexists.
  - by rewrite lookup_insert_ne.
Qed.

Lemma spent_admit e m a r t : spent e (API_nonces a) t → t <= at_now m → spent e (vet m a r).1 (at_now m).
Proof.
  intros H Ht. assert (spent e (API_nonces a) (at_now m)) as H' by (destruct H; [by left|right; lia]).
  unfold vet. destruct (Http_Body r); [|done]. destruct (_ <? _); [done|]. case_bool_decide; [done|].
  destruct (_ <? _); [done|]. destruct (decode_signature_header _); [|done]. destruct (VerifyRequest _ _ _ _ _ _) as [e'|]; [|done].
  pose proof (spent_observe e _ _ _ (Req_KeyID e') (Req_Nonce e') (Req_ExpiresAt e') H Ht) as Ho.
  by destruct (nonce_observe _ _ _ _ _).
Qed.

Lemma authenticated_spent h e m a r t :
  spent e (API_nonces a) t → t <= at_now m → spent e (API_nonces (authenticated h m a r).1) (at_now m).
Proof.
  intros H Ht. pose proof (spent_admit e m a r t H Ht) as Ha. unfold authenticated.
  destruct (vet m a r) as [nonces [rs|[e' body]]]; [done|]. by destruct (h _ _ _ _ _).
Qed.

Lemma Handler_spent e m a r t :
  spent e (API_nonces a) t → t <= at_now m → spent e (API_nonces (Handler agents metrics_enabled m a r).1) (at_now m).
Proof.
  intros H Ht. assert (spent e (API_nonces a) (at_now m)) as H' by (destruct H; [by left|right; lia]).
  unfold Handler. destruct (segments _) as [l|]; [|done]. destruct (_ && is_health l); [done|].
  destruct (route_of _ _ _ l) as [h|]; [by eapply authenticated_spent|]. by destruct (_ || _).
Qed.

Lemma serve_spent e l a t :
  spent e (API_nonces a) t → forward t l → spent e (API_nonces (serve a l)) (last_time t l).
Proof.
  revert a t. induction l as [|[m r] l IH]; intros a t H; [done|]. intros [Ht Hl]. apply IH; [|done]. by eapply Handler_spent.
Qed.

(** A signed request is good for one use.  Once a request has been admitted, then
    whatever else is served in between and as long as the clock does not go back, no
    request that carries the same signature header is admitted again, whatever else it
    says: the server is left as it is. *)
Theorem api_single_use m a r nonces e body l m' r'
    (H : vet m a r = (nonces, inr (e, body)))
    (s1 := (Handler agents metrics_enabled m a r).1) (a' := serve s1 l)
    (Hfirst : API_nonces s1 = nonces) (Hclock : forward (at_now m) l) (Hlater : last_time (at_now m) l <= at_now m')
    (Hsame : Http_Signature r' = Http_Signature r) :
  (∃ resp, (vet m' a' r').2 = inl resp) ∧ API_server (Handler agents metrics_enabled m' a' r').1 = API_server a'.
Proof.
  destruct (vet_inv _ _ _ _ _ _ H) as (signed & H1 & H2 & H3 & H4).
  assert (spent e (API_nonces s1) (at_now m)) as Hs.
  { left. rewrite Hfirst. unfold nonce_observe in H4. case_bool_decide; [done|]. injection H4 as <-. by rewrite lookup_insert_eq. }
  pose proof (serve_spent e l s1 (at_now m) Hs Hclock) as Hsp. fold a' in Hsp.
  assert (∃ resp, (vet m' a' r').2 = inl resp) as [resp Hr].
  { destruct (vet m' a' r') as [n' [rs|[e' b']]] eqn:Had; [by exists rs|exfalso].
    destruct (vet_inv _ _ _ _ _ _ Had) as (signed' & _ & H2' & H3' & H4'). rewrite Hsame, H2 in H2'. injection H2' as <-.
    assert (e' = e) as -> by (pose proof (cov_bytes _ _ _ _ _ _ H3'); pose proof (cov_bytes _ _ _ _ _ _ H3); congruence).
    pose proof (cov_window _ _ _ _ _ _ H3') as Hw. destruct Hsp as [Hn|Hn]; [|lia].
    unfold nonce_observe in H4'. case_bool_decide as Hb; [done|]. apply Hb. exists (Req_ExpiresAt e).
    apply map_lookup_filter_Some. split; [done|]. unfold After. apply Z.ltb_ge. lia. }
  split; [by exists resp|]. unfold Handler. destruct (segments _) as [l'|]; [|done]. destruct (_ && is_health l'); [done|].
  destruct (route_of _ _ _ l') as [h|]; [|by destruct (_ || _)]. unfold authenticated.
  destruct (vet m' a' r') as [n' [rs|[e' b']]]; [done|done].
Qed.

(** A restart makes captured requests good again.  The nonces live in the memory of the
    process: a request that was admitted once is admitted by a restarted server, which
    trusts the same keys, for as long as its envelope is in force. *)
Theorem restart_reopens_replay m a r nonces e body s m'
    (H : vet m a r = (nonces, inr (e, body))) (Hkeys : Server_operatorKeys s = Server_operatorKeys (API_server a))
    (Hnow : at_now m <= at_now m' <= Req_ExpiresAt e) :
  ∃ nonces', vet m' (NewAPI s) r = (nonces', inr (e, body)).
Proof.
  destruct (vet_inv _ _ _ _ _ _ H) as (signed & H1 & H2 & H3 & _). unfold vet in H |- *. cbn [NewAPI API_server API_nonces].
  rewrite H1 in H |- *. destruct (_ <? _); [done|]. case_bool_decide; [done|]. destruct (_ <? _); [done|]. rewrite H2 in H |- *.
  rewrite Hkeys. destruct (VerifyRequest signed _ _ _ body (at_now m)) as [e0|] eqn:Hv; [|done].
  assert (VerifyRequest signed (Server_operatorKeys (API_server a)) (Http_Method r) (Http_Path r) body (at_now m') = Ok e0) as ->.
  { assert (e0 = e) as -> by (destruct (nonce_observe _ _ _ _ _) as [? []]; [by injection H as _ ->|done]).
    unfold VerifyRequest in Hv |- *. inv_ok Hv. destruct (decode_request _) as [|x|x]; [done..|]. inv_ok Hv. subst x.
    cbn [rbind]. unfold After, time_Add in *. bool_simpl.
    rewrite (proj2 (Z.ltb_ge _ _)) by lia. rewrite (proj2 (Z.ltb_ge _ _)) by lia. done. }
  assert (e0 = e) as -> by (destruct (nonce_observe _ _ _ _ _) as [? []]; [by injection H as _ ->|done]).
  unfold nonce_observe. rewrite map_filter_empty. rewrite bool_decide_false by (rewrite lookup_empty; by intros [? [=]]).
  by eexists.
Qed.
End Facts.

(** ** Signing and verifying agree *)

Section Roundtrip.
Context {att : Attest} {signer : Signer} {slaws : SignerLaws att signer} {codec : RequestCodec} {claws : RequestCodecLaws codec}
  {digest : Digest}.

(** What an operator's client signs for a call is what the server verifies for that
    call, with the same envelope, while it is in force. *)
Theorem request_roundtrip e keyID key signed keys body now (Hgenuine : genuine_key key)
    (Hsign : SignRequest e keyID key = Ok signed) (Hkey : keys !! keyID = Some (ed25519_Public key))
    (Hascii : ascii_request (e <| Req_KeyID := keyID |>) = true) (Hbody : Req_BodyDigest e = BodyDigest body)
    (Hnow : Req_IssuedAt e <= now <= Req_ExpiresAt e) :
  VerifyRequest signed keys (Req_Method e) (Req_Path e) body now =
    Ok (e <| Req_Version := RequestVersion |> <| Req_KeyID := keyID |>).
Proof.
  unfold SignRequest in Hsign. inv_ok Hsign. subst. bool_simpl.
  match goal with H : (String.length key =? PrivateKeySize)%nat = true |- _ => apply Nat.eqb_eq in H as Hlen end.
  match goal with H : validateRequestEnvelope _ = Ok ?u |- _ => destruct u; rename H into Hval end.
  match goal with H : encode_request _ = Some ?p |- _ => rename H into Henc; rename p into payload end.
  unfold VerifyRequest. cbn [SignedReq_Bytes SignedReq_KeyID SignedReq_Signature].
  rewrite (bool_decide_false (keys = ∅)) by (intros ->; by rewrite lookup_empty in Hkey).
  rewrite (bool_decide_false (payload = "")) by by eapply encode_request_nonempty.
  rewrite Hkey, (public_size key Hlen), Nat.eqb_refl, decode_encode, (sign_verifies key payload Hgenuine).
  match type of Henc with encode_request ?x = _ =>
    assert (decode_request payload = Decoded x) as -> by (apply decode_encode_request; [exact Hascii|exact Henc]) end. rewrite Hval. cbn [rbind negb]. simpl_set.
  rewrite (bool_decide_false (keyID ≠ keyID)) by auto. rewrite (bool_decide_false (Req_Method e ≠ Req_Method e)) by auto.
  rewrite (bool_decide_false (Req_Path e ≠ Req_Path e)) by auto. cbn [orb].
  rewrite (bool_decide_false (Req_BodyDigest e ≠ BodyDigest body)) by auto. unfold After, time_Add, clockSkewTolerance, Second.
  rewrite (proj2 (Z.ltb_ge _ _)) by lia. rewrite (proj2 (Z.ltb_ge _ _)) by lia. done.
Qed.
End Roundtrip.

(** ** A sample: one approval sent by an operator, and sent again *)

Module OperatorSample.
#[local] Existing Instances KeySample.sample_attest KeySample.sample_signer KeySample.sample_signer_laws ApprovalSample.sample_grants
  ApprovalSample.sample_clock ServerSample.server_cidr ServerSample.server_anchors ServerSample.decision_codec
  ServerSample.decision_digest.
#[local] Instance operator_choice : NodeChoice := λ nodes, head (map_to_list nodes).

Definition issued : time := ServerSample.minutes 1.
Definition envelope : RequestEnvelope :=
  mkRequestEnvelope RequestVersion "n-1" "POST" "/v1/approvals" (digestOf "grant") "ada" "op1" issued (issued + Minute).
#[local] Instance operator_codec : RequestCodec := {|
  encode_request e := if bool_decide (e = envelope) then Some "envelope" else None;
  decode_request s := if String.eqb s "envelope" then Decoded envelope else Malformed;
  decode_signature_header s :=
    if String.eqb s "header"
    then Some (mkSignedRequest "envelope" "op1" (ed25519_Public ApprovalSample.operator_key +:+ "envelope")) else None;
  decode_goal _ := Malformed;
  decode_signed_approval s := if String.eqb s "grant" then Decoded (ApprovalSample.signed_grant "now") else Malformed;
  decode_cordon_reason _ := Malformed;
  Parse_RFC3339 _ := None |}.
#[local] Instance operator_codec_laws : RequestCodecLaws operator_codec.
Proof.
  split; intros e bytes; cbn.
  - intros _. case_bool_decide; [|done]. subst. by intros [= <-].
  - case_bool_decide; [|done]. by intros [= <-].
Qed.

Definition request : HttpRequest := mkHttpRequest "POST" "/v1/approvals" ∅ "header" (Some "grant").
Definition moment (n : Z) : Moment := mkMoment (issued + n * Second) (issued + n * Second) ServerSample.sound_disk.
Definition api0 : API := NewAPI ServerSample.server0.
Definition served : API * HttpResponse := Handler [] false (moment 1) api0 request.
Definition remembered : gmap string time := {[ scoped "op1" "n-1" := issued + Minute ]}.

Lemma api_authenticated_witness :
  Http_Status served.2 = 201 ∧ is_Some (Approvals (Server_World (API_server served.1)) !! "a1") ∧
  (API_server served.1 = API_server api0 ∨
   ∃ signed body e l, Http_Method request = "POST" ∧ segments (Http_Path request) = Some l ∧ Http_Body request = Some body ∧
     decode_signature_header (Http_Signature request) = Some signed ∧
     covers (Server_operatorKeys (API_server api0)) signed request body (at_now (moment 1)) e ∧
     API_nonces served.1 !! scoped (Req_KeyID e) (Req_Nonce e) = Some (Req_ExpiresAt e) ∧
     operates (moment 1) (API_server api0) l e body (API_server served.1)).
Proof.
  split; [vm_compute; reflexivity|]. split; [vm_compute; eexists; reflexivity|].
  exact (api_authenticated [] false (moment 1) api0 request served.1 served.2 (surjective_pairing _)).
Defined.

Lemma api_single_use_witness :
  API_server (Handler [] false (moment 3) (serve [] false served.1 [(moment 2, request)]) request).1 =
  API_server (serve [] false served.1 [(moment 2, request)]).
Proof.
  refine (proj2 (api_single_use [] false (moment 1) api0 request remembered envelope "grant" [(moment 2, request)] (moment 3)
    request _ _ _ _ _)).
  - vm_compute. reflexivity.
  - vm_compute. reflexivity.
  - split; [|exact I]. apply Z.leb_le. vm_compute. reflexivity.
  - apply Z.leb_le. vm_compute. reflexivity.
  - reflexivity.
Defined.

Lemma restart_reopens_replay_witness :
  ∃ nonces, vet (moment 4) (NewAPI (API_server served.1)) request = (nonces, inr (envelope, "grant")).
Proof.
  refine (restart_reopens_replay (moment 1) api0 request remembered envelope "grant" (API_server served.1) (moment 4) _ _ _).
  - vm_compute. reflexivity.
  - vm_compute. reflexivity.
  - split; apply Z.leb_le; vm_compute; reflexivity.
Defined.

Lemma request_roundtrip_witness :
  VerifyRequest (mkSignedRequest "envelope" "op1" (ed25519_Public ApprovalSample.operator_key +:+ "envelope"))
    ApprovalSample.operator_keys "POST" "/v1/approvals" "grant" issued = Ok envelope.
Proof.
  refine (request_roundtrip envelope "op1" ApprovalSample.operator_key _ ApprovalSample.operator_keys "grant" issued _ _ _ _ _ _);
    [exists (KeySample.key_bytes "a"); split; reflexivity|..].
  - vm_compute. reflexivity.
  - vm_compute. reflexivity.
  - vm_compute. reflexivity.
  - vm_compute. reflexivity.
  - split; apply Z.leb_le; vm_compute; reflexivity.
Defined.
End OperatorSample.
