(* ===== verification/ServerRun.v ===== *)
(** * A server at work (src/server/server.go: Reconcile, and the operations together)

    Reconciliation as the server runs it, over its own log, projection, leases and
    policy, and what any sequence of submissions, decisions, observations and
    reconciliations leaves behind.  The hosts (an executor and the observers it is
    probed through) are parameters over a state of type [X]. *)

From S2P Require Import Prelude Types Text Spread Snapshots Policy Simulate Clone Disruption Projection History Replay Executor EventLog Durable Lease Provenance Kernel Guarantees Rollout Engine Reconcile Directory Canary NetPolicy Agents Cron Validate Keys Approvals Anchor Server.
Open Scope Z_scope.

Section Run.
Context {att : Attest} {grants : GrantCodec} {events : EventCodec} {digest : Digest} {anchors : AnchorCodec}
  {cidr : CIDRParser} {clock : WallClock} {order : ApprovalOrder}.
Context {X : Type} (bind : X → string → string → Z → string → X) (exec : X → Action → X * result Evidence)
  (observers : list (X → ProbeTarget → X * result (bool * gmap string string))) (agents : list Agent).

(** [Server.Reconcile]: [commits] says which of the coming commits succeed. *)
Definition Server_Reconcile (reading : nat → time) (commits : list bool) (disk : Disk) (now : time) (x : X) (s : Server)
    (goalID : string) : X * Server * result unit :=
  match Server_goals s !! goalID with
  | None => (x, s, Err (Errorf "goal %q was never accepted"))
  | Some g =>
      match Server_log s with
      | None => (x, s, Err (Panic "invalid memory address or nil pointer dereference"))
      | Some f =>
          let '(e, r) := Run (plant := durable_plant bind exec) reading (Server_policy s) agents (host_probers observers) g
                           (Server_maxRounds s) (mkEngine (x, Server_projector s) (Server_leases s) [] (Some (f, commits)) ∅ 0) in
          let s := s <| Server_log := fst <$> Sink e |> <| Server_projector := (Plant_ e).2 |> <| Server_leases := Leases e |> in
          let '(s, anchored) := witnessHead disk now s in
          ((Plant_ e).1, s, match r with Ok _ => anchored | Err err => Err err end)
      end
  end.

(** What happens to a server while it runs. *)
Inductive server_op :=
  | Submitting (g : Goal)
  | Deciding (disks : nat → Disk) (now : nat → time) (d : Decision)
  | Reconciling (reading : nat → time) (commits : list bool) (disk : Disk) (now : time) (goalID : string).

Definition perform (x : X) (s : Server) (op : server_op) : X * Server * result unit :=
  match op with
  | Submitting g => let '(s, r) := Submit s g in (x, s, r)
  | Deciding disks now d => let '(s, r) := take_decision disks now s d in (x, s, r)
  | Reconciling reading commits disk now goalID => Server_Reconcile reading commits disk now x s goalID
  end.

(** The operations one after another, with the outcomes they reported. *)
Fixpoint lifetime (x : X) (s : Server) (ops : list server_op) : X * Server * list (result unit) :=
  match ops with
  | [] => (x, s, [])
  | op :: ops => let '(x, s, r) := perform x s op in let '(x, s, rs) := lifetime x s ops in (x, s, r :: rs)
  end.

Context {elaws : EventCodecLaws events} {dlaws : DigestLaws digest}.
#[local] Existing Instance durable_plant_laws.

(** The outcomes after which world and history may differ. *)
Definition troubled (r : result unit) : Prop := unwitnessed r ∨ excused persist_error r.

Lemma witnessHead_frame disk now s :
  Server_log (witnessHead disk now s).1 = Server_log s ∧ Server_World (witnessHead disk now s).1 = Server_World s.
Proof.
  unfold witnessHead. destruct (Server_anchor s) as [a|]; [|done]. destruct (Server_log s) as [f|] eqn:Hf; [|done].
  destruct (witness_head disk now a f) as [a' r]. simpl_set. by rewrite ?Hf.
Qed.

Lemma reconcile_sync base reading commits disk now x s evs goalID x' s' r :
  sync base s evs → Server_Reconcile reading commits disk now x s goalID = (x', s', r) →
  troubled r ∨ ∃ added, sync base s' (evs ++ added).
Proof.
  intros Hs H. assert (∃ added, sync base s (evs ++ added)) as Hsame by (exists []; by rewrite app_nil_r).
  destruct Hs as (f & Hf & Hlog & Hw). unfold Server_Reconcile in H. destruct (Server_goals s !! goalID) as [g|]; [|right; by injection H as _ <- _].
  rewrite Hf in H. set (e0 := mkEngine _ _ _ _ _ _) in H. pose (plant := durable_plant bind exec). fold plant in H.
  assert (synced (plant := plant) base evs e0) as Hs0 by (unfold synced, e0; cbn; by rewrite app_nil_r).
  assert (sunk (λ s l, logged s.1 l) evs e0) as Hk0 by (exists (f, commits); split; [done|]; cbn; by rewrite app_nil_r).
  pose proof (Run_sunk (plant := plant) (λ s l, logged s.1 l) reading (Server_policy s) agents (host_probers observers) evs g (Server_maxRounds s) e0 Hk0) as Hk.
  pose proof (Run_synced (plant := plant) (λ s l, logged s.1 l) reading (Server_policy s) agents (host_probers observers)
    (λ p t ts now w c Hp, f_equal Projector_World (host_probers_keep observers p t ts now w c Hp)) base evs g (Server_maxRounds s) e0 Hs0) as Hsy.
  destruct (Run _ _ _ _ _ _ e0) as [e r1]. cbn [fst snd] in *.
  set (s1 := s <| Server_log := _ |> <| Server_projector := _ |> <| Server_leases := _ |>) in H.
  pose proof (witnessHead_frame disk now s1) as [Hl1 Hw1]. destruct (witnessHead disk now s1) as [s2 anchored].
  injection H as _ <- <-. cbn [fst] in *. destruct Hsy as [Hsy|Hx]; [|left; right; by destruct r1].
  right. exists (Events e). destruct Hk as ([f1 cs] & Hsink & Hlog1). exists f1. split; [rewrite Hl1; unfold s1; simpl_set; by rewrite Hsink|].
  split; [done|]. rewrite Hw1. unfold s1, Server_World. simpl_set. exact Hsy.
Qed.

Lemma perform_sync base x s evs op x' s' r :
  sync base s evs → perform x s op = (x', s', r) → troubled r ∨ ∃ added, sync base s' (evs ++ added).
Proof.
  intros Hs H. destruct op as [g|disks now d|reading commits disk now goalID]; cbn [perform] in H.
  - right. exists []. rewrite app_nil_r. unfold Submit in H. destruct (NormalizeAndValidate _); injection H as _ <- _; [|done].
    destruct Hs as (f & ? & ? & ?). by exists f.
  - destruct (take_decision disks now s d) as [s1 r1] eqn:Hd. injection H as _ <- <-.
    destruct (take_decision_kept base s evs disks now d s1 r1 Hs Hd) as (added & _ & [Hsy|Hu]); [right; eauto|by left; left].
  - by eapply reconcile_sync.
Qed.

(** C11: a server survives its restart.  From a server whose history replays to its world,
    whatever goals are submitted, decisions taken, nodes observed and goals reconciled,
    whatever agents propose, hosts answer and disks refuse: unless an operation reported
    that a record could not be persisted or witnessed, the history replays to exactly the
    world the server holds, and a server opened on it over the same base starts from that
    world (for as long as the history's length fits its 64-bit counter). *)
Theorem server_lifetime base x s evs ops x' s' rs config disk now
    (Hs : sync base s evs) (H : lifetime x s ops = (x', s', rs)) (Hok : Forall (λ r, ¬ troubled r) rs)
    (Hconfig : Config_Base config = base ∧ Config_EventLog config ≠ "" ∧ Config_Anchor config = "") :
  ∃ added, sync base s' (evs ++ added) ∧
    (len (evs ++ added) < two64 → ∃ f db s2, Server_log s' = Some f ∧ file_db f = Some db ∧
       Server_Open config db [] disk now = Ok s2 ∧ Server_World s2 = Server_World s').
Proof.
  assert (∃ added, sync base s' (evs ++ added)) as [added Hsync].
  { revert x s evs rs Hs H Hok. induction ops as [|op ops IH]; intros x s evs rs Hs H Hok; cbn [lifetime] in H.
    { injection H as _ <- _. exists []. by rewrite app_nil_r. }
    destruct (perform x s op) as [[x1 s1] r] eqn:Hp. destruct (lifetime x1 s1 ops) as [[x2 s2] rs'] eqn:Hl.
    injection H as <- <- <-. apply Forall_cons in Hok as [Hr Hok].
    destruct (perform_sync base x s evs op x1 s1 r Hs Hp) as [?|[a Ha]]; [done|].
    destruct (IH x1 s1 (evs ++ a) rs' Ha Hl Hok) as [b Hb]. exists (a ++ b). by rewrite app_assoc. }
  exists added. split; [done|]. intros Hn. pose proof Hsync as (f & Hf & Hlog & Hw).
  destruct (log_reopens f _ Hlog Hn) as (db & f' & Hdb & Ho).
  destruct (log_reads f' (evs ++ added) ltac:(by eapply logged_restart) Hn) as (_ & _ & Hre).
  destruct Hconfig as (Hb & Hpath & Hanchor).
  exists f, db. unfold Server_Open. rewrite bool_decide_false by done. rewrite Ho. cbn [rbind].
  rewrite bool_decide_true by done. cbn [rbind]. unfold NewDurableProjector. rewrite Hb, Hre, !cloneWorld_id.
  cbn [wrap_err rbind Projector_world Projector_base]. fold (evidence_of (evs ++ added)).
  apply replay_over_ok in Hw. rewrite Hw. cbn [wrap_err rbind]. eexists. split; [done|]. split; [done|].
  split; [reflexivity|]. unfold Server_World at 1. cbn. unfold Projector_World. cbn. by rewrite !cloneWorld_id.
Qed.
End Run.

(** A restarted server has the world of the one before it, and none of its goals: only
    evidence is durable, an accepted goal is not. *)
Lemma restart_forgets_goals {events : EventCodec} {digest : Digest} {anchors : AnchorCodec} config db prior disk now s :
  Server_Open config db prior disk now = Ok s → Server_goals s = ∅.
Proof.
  unfold Server_Open. case_bool_decide; [done|]. destruct (EventLog.Open db) as [log|]; [|done]. cbn [rbind].
  destruct (if bool_decide (Config_Anchor config = "") then _ else _) as [a|]; [|done]. cbn [rbind].
  destruct (wrap_err _ (NewDurableProjector _ _)) as [p|]; [|done]. cbn [rbind].
  destruct (match a with Some _ => _ | None => _ end) as [a'|]; [|done]. cbn [rbind]. by intros [= <-].
Qed.

Module RunSample.
Import ServerSample.
#[local] Existing Instances KeySample.sample_attest ApprovalSample.sample_grants ApprovalSample.sample_clock
  server_cidr server_anchors decision_codec decision_digest.
#[local] Instance run_order : ApprovalOrder := values.
Definition idle_bind (x : unit) (_ _ : string) (_ : Z) (_ : string) : unit := x.
Definition idle_exec (x : unit) (_ : Action) : unit * result Evidence := (x, Err (Errorf "no host")).
Definition run_config : Config :=
  mkConfig "events.db" ApprovalSample.small_world 12 ∅ "" ∅ false (mkResources 0 0) 0 Budget_zero.
Definition run_ops : list server_op :=
  [Submitting (sample_goal "g1"); Deciding (λ _, sound_disk) (λ _, minutes 1) (Approving (ApprovalSample.signed_grant "now"));
   Deciding (λ _, sound_disk) (λ _, minutes 2) (Revoking (ApprovalSample.signed_grant "now"));
   Reconciling minutes_from [] sound_disk (minutes 3) "never accepted"].
Definition lived : unit * Server * list (result unit) :=
  Eval vm_compute in lifetime idle_bind idle_exec [] [] tt server0 run_ops.

Lemma server_lifetime_witness :
  ∃ added, sync ApprovalSample.small_world lived.1.2 ([] ++ added) ∧
    (len ([] ++ added) < two64 → ∃ f db s2, Server_log lived.1.2 = Some f ∧ file_db f = Some db ∧
       Server_Open run_config db [] sound_disk 0 = Ok s2 ∧ Server_World s2 = Server_World lived.1.2).
Proof.
  refine (server_lifetime (elaws := decision_codec_laws) (dlaws := decision_digest_laws) idle_bind idle_exec [] []
    ApprovalSample.small_world tt server0 [] run_ops tt lived.1.2 lived.2 run_config sound_disk 0 server0_sync _ _ _).
  - vm_compute. reflexivity.
  - unfold lived. cbn [snd]. repeat (apply Forall_cons; split; [intros [[? [=]]|[]]; simplify_eq|]). apply Forall_nil. done.
  - done.
Defined.
End RunSample.
