(* ===== verification/FileSystem.v ===== *)
(** * The file system a node keeps its storage in (the parts of os and path/filepath
    that src/node/volume.go, snapshot.go, handoff.go, backup.go and database.go use)

    A file system maps clean absolute paths, as lists of names, to entries.  Every system
    call may fail, and one that writes or removes may fail half way: the outcomes of the
    coming calls are part of the state.  A crash leaves the file system a run leaves in
    which every later call fails without effect, so what holds whatever fails holds after
    a crash.  Owners, modes and times of entries are not modelled. *)

From S2P Require Import Prelude Types Text Engine Executor.
Open Scope Z_scope.

(** ** Paths *)

Abbreviation path := (list string).
Definition separator : Ascii.ascii := Ascii.ascii_of_nat 47.

(** [filepath.Join(p, elem)] on a clean absolute [p]. *)
Definition step_into (p : path) (name : string) : path :=
  if bool_decide (name = "") || bool_decide (name = ".") then p
  else if bool_decide (name = "..") then removelast p else p ++ [name].
Definition Join (p : path) (elem : string) : path := foldl step_into p (split_on separator elem).

(** [filepath.Dir] *)
Definition Dir (p : path) : path := removelast p.

(** The text of a path with a suffix written after it, as in [path + ".partial"]. *)
Definition suffixed (p : path) (suffix : string) : path :=
  match last p with None => [suffix] | Some name => removelast p ++ [name +:+ suffix] end.

(** The text of a path relative to a directory, and of an absolute one. *)
Definition relative (r : path) : string := match r with [] => "." | _ => String.concat "/" r end.
Definition absolute (p : path) : string := "/" +:+ String.concat "/" p.

(** Neither path lies within the other. *)
Definition apart (p q : path) : Prop := ¬ p `prefix_of` q ∧ ¬ q `prefix_of` p.

(** ** Entries *)

(** [OtherEntry] is a link or a device; reading through it may give some content. *)
Inductive entry := FileEntry (content : string) | DirEntry | OtherEntry (through : option string).
#[export] Instance entry_eq_dec : EqDecision entry.
Proof. solve_decision. Defined.

Abbreviation FS := (gmap path entry).

(** What lies at and below a path, by relative path. *)
Fixpoint strip (p q : path) : option path :=
  match p, q with
  | [], _ => Some q
  | x :: p, y :: q => if bool_decide (x = y) then strip p q else None
  | _ :: _, [] => None
  end.
Definition tree (f : FS) (p : path) : gmap path entry :=
  list_to_map (omap (λ '(q, e), (λ r, (r, e)) <$> strip p q) (map_to_list f)).

Definition cleared (f : FS) (p : path) : FS := filter (λ '(q, _), strip p q = None) f.
Definition grafted (f : FS) (p : path) (t : gmap path entry) : FS := kmap (app p) t ∪ cleared f p.

(** ** System calls *)

(** [faults] are the outcomes of the coming calls: [None], or failure after so many units
    of work (bytes of a write, entries of a removal, directories of a [MkdirAll]). *)
Record Machine := mkMachine { fs : FS; faults : list (option nat) }.
Definition io (A : Type) : Type := Machine → Machine * result A.

Definition io_ret {A} (a : A) : io A := λ h, (h, Ok a).
Definition io_err {A} (e : error) : io A := λ h, (h, Err e).
Definition io_bind {A B} (m : io A) (k : A → io B) : io B := λ h,
  match m h with (h, Ok a) => k a h | (h, Err e) => (h, Err e) end.
Definition io_of {A} (r : result A) : io A := λ h, (h, r).
(** The outcome as a value, for a call whose error is handled; and a call whose error is
    ignored. *)
Definition attempt_io {A} (m : io A) : io (result A) := λ h, let '(h, r) := m h in (h, Ok r).
Definition ignoring {A} (m : io A) : io unit := λ h, ((m h).1, Ok tt).
Definition wrapping {A} (format : string) (m : io A) : io A := λ h, let '(h, r) := m h in (h, wrap_err format r).

Notation "'let!' x ':=' m 'in' k" := (io_bind m (λ x, k))
  (at level 10, x pattern, m at level 200, k at level 200) : a4s_scope.
Notation "m '>>' k" := (io_bind m (λ _, k)) (at level 60, right associativity) : a4s_scope.
Notation "'refuse!' b msg ; k" := (if b then io_err (Errorf msg) else k)
  (at level 10, b at level 0, msg at level 0, k at level 200) : a4s_scope.

Definition ErrIO : error := Errorf "input/output error".
Definition ErrExist : error := Errorf "file exists".
Definition ErrNotExist : error := Errorf "file does not exist".
Definition ErrNotDir : error := Errorf "not a directory".
Definition ErrIsDir : error := Errorf "is a directory".
Definition ErrInvalid : error := Errorf "invalid argument".
Definition IsNotExist (e : error) : bool := bool_decide (e = ErrNotExist).

(** One call: [run] gives the file system and the answer, [broken n] the file system a
    failure after [n] units of work leaves. *)
Definition syscall {A} (run : FS → FS * result A) (broken : nat → FS → FS) : io A := λ h,
  match faults h with
  | Some n :: rest => (mkMachine (broken n (fs h)) rest, Err ErrIO)
  | None :: rest => let '(f, r) := run (fs h) in (mkMachine f rest, r)
  | [] => let '(f, r) := run (fs h) in (mkMachine f [], r)
  end.
Definition reading {A} (run : FS → result A) : io A := syscall (λ f, (f, run f)) (λ _ f, f).

Definition Stat (p : path) : io unit := reading (λ f, match f !! p with Some _ => Ok tt | None => Err ErrNotExist end).

Definition ReadFile (p : path) : io string := reading (λ f,
  match f !! p with
  | Some (FileEntry c) | Some (OtherEntry (Some c)) => Ok c
  | Some DirEntry => Err ErrIsDir
  | Some (OtherEntry None) => Err ErrIO
  | None => Err ErrNotExist
  end).

(** The entries at and below a path, which [filepath.WalkDir] visits one by one; here in
    the order of their text. *)
Definition path_le (p q : path * entry) : Prop := string_le (relative p.1) (relative q.1).
#[export] Instance path_le_dec p q : Decision (path_le p q).
Proof. unfold path_le. apply _. Defined.
Definition WalkDir (p : path) : io (list (path * entry)) := reading (λ f,
  match f !! p with None => Err ErrNotExist | Some _ => Ok (merge_sort path_le (map_to_list (tree f p))) end).

(** [os.ReadDir]: the names in a directory, with their entries. *)
Definition ReadDir (p : path) : io (list (string * entry)) := reading (λ f,
  match f !! p with
  | None => Err ErrNotExist
  | Some DirEntry =>
      Ok (omap (λ '(r, e), match r with [name] => Some (name, e) | _ => None end) (map_to_list (tree f p)))
  | Some _ => Err ErrNotDir
  end).

(** [os.MkdirAll], from the root down; the root itself always exists. *)
Fixpoint make_dirs (limit : nat) (f : FS) (above below : path) : FS * result unit :=
  match below with
  | [] => (f, Ok tt)
  | name :: below =>
      match f !! (above ++ [name]) with
      | Some DirEntry => make_dirs limit f (above ++ [name]) below
      | Some _ => (f, Err ErrNotDir)
      | None => match limit with
                | O => (f, Err ErrIO)
                | S limit => make_dirs limit (<[above ++ [name] := DirEntry]> f) (above ++ [name]) below
                end
      end
  end.
Definition MkdirAll (p : path) : io unit :=
  syscall (λ f, make_dirs (length p) f [] p) (λ n f, (make_dirs n f [] p).1).

Definition is_dir (f : FS) (p : path) : bool := bool_decide (p = []) || bool_decide (f !! p = Some DirEntry).

(** [os.WriteFile]; what lies at the path must be a file or nothing. *)
Definition write_at (f : FS) (p : path) (content : string) : FS * result unit :=
  match f !! p with
  | Some DirEntry => (f, Err ErrIsDir)
  | Some (OtherEntry _) => (f, Err ErrIO)
  | _ => if is_dir f (Dir p) then (<[p := FileEntry content]> f, Ok tt) else (f, Err ErrNotExist)
  end.
Definition WriteFile (p : path) (content : string) : io unit :=
  syscall (λ f, write_at f p content) (λ n f, (write_at f p (String.substring 0 n content)).1).

(** [os.RemoveAll]: the entries go, the deepest first. *)
Definition deeper (p q : path * entry) : Prop := (length q.1 <= length p.1)%nat.
#[export] Instance deeper_dec p q : Decision (deeper p q).
Proof. unfold deeper. apply _. Defined.
Definition without (p : path) (gone : list (path * entry)) (f : FS) : FS := foldr (λ x f, delete (p ++ x.1) f) f gone.
Definition RemoveAll (p : path) : io unit :=
  syscall (λ f, (cleared f p, Ok tt)) (λ n f, without p (take n (merge_sort deeper (map_to_list (tree f p)))) f).

(** [os.Rename]: a directory is never replaced, and nothing moves into itself. *)
Definition rename_in (f : FS) (old new : path) : FS * result unit :=
  match f !! old, f !! new with
  | None, _ => (f, Err ErrNotExist)
  | Some _, Some DirEntry => (f, Err ErrExist)
  | Some DirEntry, Some _ => (f, Err ErrNotDir)
  | Some _, _ =>
      if bool_decide (old `prefix_of` new) then (f, if bool_decide (old = new) then Ok tt else Err ErrInvalid)
      else if is_dir f (Dir new) then (grafted (cleared f old) new (tree f old), Ok tt)
      else (f, Err ErrNotExist)
  end.
Definition Rename (old new : path) : io unit := syscall (λ f, rename_in f old new) (λ _ f, f).

(** ** Trees *)

Lemma strip_Some p q r : strip p q = Some r ↔ q = p ++ r.
Proof.
  revert q. induction p as [|x p IH]; intros q; cbn [strip app]; [naive_solver|].
  destruct q as [|y q]; [naive_solver|]. case_bool_decide as Hx; [subst; rewrite IH; naive_solver|naive_solver].
Qed.

Lemma strip_None p q : strip p q = None ↔ ¬ p `prefix_of` q.
Proof.
  rewrite eq_None_not_Some. split; intros H Hs; apply H.
  - destruct Hs as [r ->]. exists r. by apply strip_Some.
  - destruct Hs as [r Hr%strip_Some]. by exists r.
Qed.

Lemma tree_lookup f p r : tree f p !! r = f !! (p ++ r).
Proof.
  unfold tree. set (l := omap _ _).
  assert (∀ r e, (r, e) ∈ l ↔ f !! (p ++ r) = Some e) as Hl.
  { intros r' e. unfold l. rewrite list_elem_of_omap. split.
    - intros ([q e'] & Hin & He). apply elem_of_map_to_list in Hin. destruct (strip p q) as [r0|] eqn:Hs; [|done].
      injection He as -> ->. by apply strip_Some in Hs as ->.
    - intros H. exists (p ++ r', e). split; [by apply elem_of_map_to_list|]. by rewrite (proj2 (strip_Some p _ r')). }
  destruct (f !! (p ++ r)) as [e|] eqn:He.
  - apply elem_of_list_to_map_1'; [|by apply Hl]. intros y Hy%Hl. congruence.
  - apply not_elem_of_list_to_map_1. intros ([r' e] & -> & H%Hl)%list_elem_of_fmap. cbn in *. congruence.
Qed.

Lemma tree_ext f g p q : (∀ r, f !! (p ++ r) = g !! (q ++ r)) → tree f p = tree g q.
Proof. intros H. apply map_eq. intros r. by rewrite !tree_lookup. Qed.

Lemma tree_empty f p : tree f p = ∅ ↔ ∀ r, f !! (p ++ r) = None.
Proof. rewrite map_empty. apply forall_proper. intros r. by rewrite tree_lookup. Qed.

Lemma cleared_under f p r : cleared f p !! (p ++ r) = None.
Proof.
  apply map_lookup_filter_None_2. right. intros e _ H. cbn in H. apply strip_None in H. apply H. by exists r.
Qed.

Lemma cleared_outside f p q : ¬ p `prefix_of` q → cleared f p !! q = f !! q.
Proof.
  intros H%strip_None. unfold cleared. destruct (f !! q) eqn:Hq; [by apply map_lookup_filter_Some|].
  apply map_lookup_filter_None_2. by left.
Qed.

#[export] Instance app_inj p : Inj (=) (=) (app (A := string) p).
Proof. intros x y. apply app_inv_head. Qed.

Lemma grafted_under f p t r : grafted f p t !! (p ++ r) = t !! r.
Proof.
  unfold grafted. destruct (t !! r) as [e|] eqn:Ht.
  - apply lookup_union_Some_l. rewrite lookup_kmap; [done|apply _].
  - apply lookup_union_None_2; [rewrite lookup_kmap; [done|apply _]|apply cleared_under].
Qed.

Lemma grafted_outside f p t q : ¬ p `prefix_of` q → grafted f p t !! q = f !! q.
Proof.
  intros H. unfold grafted. rewrite lookup_union_r; [by apply cleared_outside|].
  apply lookup_kmap_None; [apply _|]. intros r ->. destruct H. by exists r.
Qed.

Lemma apart_sym p q : apart p q → apart q p.
Proof. unfold apart. tauto. Qed.

Lemma apart_under p q r : apart p q → ¬ q `prefix_of` (p ++ r).
Proof.
  intros [H1 H2] H. destruct (prefix_weak_total p q (p ++ r)) as [?|?]; [by eexists|done|done..].
Qed.

Lemma apart_above p q r : apart p q → r `prefix_of` q → ¬ p `prefix_of` r.
Proof. intros [H1 _] Hr H. apply H1. by transitivity r. Qed.

Lemma tree_cleared f p : tree (cleared f p) p = ∅.
Proof. apply tree_empty. apply cleared_under. Qed.

Lemma tree_grafted f p t : tree (grafted f p t) p = t.
Proof. apply map_eq. intros r. by rewrite tree_lookup, grafted_under. Qed.

Lemma tree_cleared_apart f p d : apart d p → tree (cleared f p) d = tree f d.
Proof. intros H. apply tree_ext. intros r. apply cleared_outside. by apply apart_under. Qed.

Lemma tree_grafted_apart f p t d : apart d p → tree (grafted f p t) d = tree f d.
Proof. intros H. apply tree_ext. intros r. apply grafted_outside. by apply apart_under. Qed.

Lemma tree_insert_apart f q e d : ¬ d `prefix_of` q → tree (<[q := e]> f) d = tree f d.
Proof. intros H. apply tree_ext. intros r. apply lookup_insert_ne. intros ->. apply H. by exists r. Qed.

(** ** What a program does to the file system whatever fails

    [respects R m]: every run of [m], whatever calls fail, relates the file system before
    to the one after by [R].  For a preorder this composes. *)

Definition respects (R : FS → FS → Prop) {A} (m : io A) : Prop := ∀ h, R (fs h) (fs (m h).1).

Create HintDb io.

Section Respects.
Context (R : FS → FS → Prop) `{!PreOrder R}.

Lemma respects_ret {A} (a : A) : respects R (io_ret a).
Proof. intros h. reflexivity. Qed.
Lemma respects_err {A} e : respects R (io_err (A := A) e).
Proof. intros h. reflexivity. Qed.
Lemma respects_of {A} (r : result A) : respects R (io_of r).
Proof. intros h. reflexivity. Qed.
Lemma respects_bind {A B} (m : io A) (k : A → io B) :
  respects R m → (∀ a, respects R (k a)) → respects R (io_bind m k).
Proof.
  intros Hm Hk h. specialize (Hm h). unfold io_bind. destruct (m h) as [h1 [a|e]]; [|done].
  etransitivity; [exact Hm|apply Hk].
Qed.
Lemma respects_attempt {A} (m : io A) : respects R m → respects R (attempt_io m).
Proof. intros Hm h. specialize (Hm h). unfold attempt_io. by destruct (m h). Qed.
Lemma respects_ignoring {A} (m : io A) : respects R m → respects R (ignoring m).
Proof. intros Hm h. exact (Hm h). Qed.
Lemma respects_wrapping {A} format (m : io A) : respects R m → respects R (wrapping format m).
Proof. intros Hm h. specialize (Hm h). unfold wrapping. by destruct (m h). Qed.
Lemma respects_syscall {A} (run : FS → FS * result A) broken :
  (∀ f, R f (run f).1) → (∀ n f, R f (broken n f)) → respects R (syscall run broken).
Proof.
  intros H1 H2 h. unfold syscall. specialize (H1 (fs h)). destruct (run (fs h)) as [f r].
  destruct (faults h) as [|[n|] rest]; cbn; auto.
Qed.
Lemma respects_reading {A} (run : FS → result A) : respects R (reading run).
Proof. apply respects_syscall; intros; reflexivity. Qed.
End Respects.
#[export] Hint Resolve respects_ret respects_err respects_of respects_bind respects_attempt respects_ignoring
  respects_wrapping respects_reading : io.

(** What lies at and below a path stays. *)
Definition same_tree (d : path) (f g : FS) : Prop := tree g d = tree f d.
#[export] Instance same_tree_preorder d : PreOrder (same_tree d).
Proof. split; [by intros f|]. unfold same_tree. intros f g h -> ->. done. Qed.

(** A file system in which whatever has a parent has a directory for one. *)
Definition rooted (f : FS) : Prop := ∀ p name e, f !! (p ++ [name]) = Some e → is_dir f p = true.
Definition keeps_rooted (f g : FS) : Prop := rooted f → rooted g.
#[export] Instance keeps_rooted_preorder : PreOrder keeps_rooted.
Proof. split; unfold keeps_rooted; intros ?; auto. Qed.

Lemma is_dir_insert f p q e : is_dir f p = true → f !! q ≠ Some DirEntry ∨ e = DirEntry → is_dir (<[q := e]> f) p = true.
Proof.
  unfold is_dir. intros H Hq. apply orb_true_iff in H as [->|H%bool_decide_eq_true]; [done|].
  apply orb_true_iff. right. apply bool_decide_eq_true.
  destruct (decide (p = q)) as [->|]; [rewrite lookup_insert_eq; destruct Hq; congruence|by rewrite lookup_insert_ne].
Qed.

Lemma rooted_insert f p name e :
  rooted f → is_dir f p = true → f !! (p ++ [name]) ≠ Some DirEntry ∨ e = DirEntry → rooted (<[p ++ [name] := e]> f).
Proof.
  intros Hf Hp He q n e'. destruct (decide (q ++ [n] = p ++ [name])) as [Heq|Hne].
  - intros _. apply app_inj_tail in Heq as [-> _]. by apply is_dir_insert.
  - rewrite lookup_insert_ne by done. intros Hq. apply is_dir_insert; [by eapply Hf|done].
Qed.

Lemma make_dirs_respects (R : FS → FS → Prop) `{!PreOrder R} limit f above below :
  (∀ f p name, is_dir f p = true → (above ++ below) = p ++ name :: drop (length p + 1) (above ++ below) →
     f !! (p ++ [name]) = None → R f (<[p ++ [name] := DirEntry]> f)) →
  is_dir f above = true → R f (make_dirs limit f above below).1.
Proof.
  revert limit f above. induction below as [|name below IH]; intros limit f above Hstep Hdir; cbn [make_dirs]; [reflexivity|].
  replace (above ++ name :: below) with ((above ++ [name]) ++ below) in Hstep by by rewrite <-app_assoc.
  destruct (f !! (above ++ [name])) as [[]|] eqn:He; try reflexivity.
  - apply IH; [done|]. unfold is_dir. apply orb_true_iff. right. by apply bool_decide_eq_true.
  - destruct limit as [|limit]; [reflexivity|]. etransitivity; [|apply IH; [done|]].
    + apply Hstep; [done| |done]. rewrite <-app_assoc. cbn. rewrite drop_app, drop_ge by lia.
      replace (length above + 1 - length above)%nat with 1%nat by lia. done.
    + unfold is_dir. rewrite lookup_insert_eq. apply orb_true_iff. right. by apply bool_decide_eq_true.
Qed.

Lemma MkdirAll_same_tree d p : ¬ d `prefix_of` p → respects (same_tree d) (MkdirAll p).
Proof.
  intros Hd. assert (∀ limit f, same_tree d f (make_dirs limit f [] p).1) as H.
  { intros limit f. apply make_dirs_respects; [apply _| |done]. intros g q name _ Hq _. cbn [app] in Hq.
    apply tree_insert_apart. intros Hq'. apply Hd. etransitivity; [exact Hq'|]. rewrite Hq.
    exists (drop (length q + 1) p). by rewrite <-app_assoc. }
  by apply respects_syscall.
Qed.

Lemma MkdirAll_rooted p : respects keeps_rooted (MkdirAll p).
Proof.
  assert (∀ limit f, keeps_rooted f (make_dirs limit f [] p).1) as H.
  { intros limit f. apply make_dirs_respects; [apply _| |done]. intros g q name Hq _ _ Hg. apply rooted_insert; auto. }
  by apply respects_syscall.
Qed.

Lemma write_at_effect f p content :
  (write_at f p content).1 = f ∨
  is_dir f (Dir p) = true ∧ f !! p ≠ Some DirEntry ∧ (write_at f p content).1 = <[p := FileEntry content]> f.
Proof.
  unfold write_at. destruct (f !! p) as [[]|]; auto; destruct (is_dir f (Dir p)) eqn:Hd; auto.
Qed.

Lemma WriteFile_same_tree d p content : ¬ d `prefix_of` p → respects (same_tree d) (WriteFile p content).
Proof.
  intros Hd. assert (∀ c f, same_tree d f (write_at f p c).1) as H.
  { intros c f. destruct (write_at_effect f p c) as [->|(_ & _ & ->)]; [reflexivity|]. by apply tree_insert_apart. }
  by apply respects_syscall.
Qed.

Lemma Dir_snoc p : p ≠ [] → ∃ name, p = Dir p ++ [name].
Proof. intros H. destruct (exists_last H) as (q & name & ->). exists name. unfold Dir. by rewrite removelast_last. Qed.

Lemma WriteFile_rooted p content : p ≠ [] → respects keeps_rooted (WriteFile p content).
Proof.
  intros Hp. assert (∀ c f, keeps_rooted f (write_at f p c).1) as H.
  { intros c f Hf. destruct (write_at_effect f p c) as [->|(Hd & He & ->)]; [done|].
    destruct (Dir_snoc p Hp) as [name Hn]. rewrite Hn. apply rooted_insert; [done..|]. left. by rewrite <-Hn. }
  by apply respects_syscall.
Qed.

Lemma without_lookup p gone f q :
  without p gone f !! q = if bool_decide (Exists (λ x, q = p ++ x.1) gone) then None else f !! q.
Proof.
  induction gone as [|x gone IH]; cbn [without foldr].
  { rewrite bool_decide_false; [done|]. by intros ?%Exists_nil. }
  destruct (decide (q = p ++ x.1)) as [->|Hne].
  - rewrite lookup_delete_eq, bool_decide_true; [done|]. by left.
  - rewrite lookup_delete_ne by done. fold (without p gone f). rewrite IH.
    erewrite bool_decide_ext; [reflexivity|]. rewrite Exists_cons. naive_solver.
Qed.

Lemma elem_of_gone n f p r e :
  (r, e) ∈ take n (merge_sort deeper (map_to_list (tree f p))) → f !! (p ++ r) = Some e.
Proof.
  intros (i & H%list_elem_of_lookup_2 & _)%elem_of_take. rewrite merge_sort_Permutation in H.
  apply elem_of_map_to_list in H. by rewrite <-tree_lookup.
Qed.

(** A removal that stops half way has not removed a directory and left what was in it. *)
Lemma gone_deepest n f p r s e :
  Exists (λ x, p ++ r = p ++ x.1) (take n (merge_sort deeper (map_to_list (tree f p)))) →
  f !! (p ++ (r ++ s)) = Some e → s ≠ [] →
  Exists (λ x, p ++ (r ++ s) = p ++ x.1) (take n (merge_sort deeper (map_to_list (tree f p)))).
Proof.
  set (l := merge_sort deeper _). intros (x & Hx & Heq)%Exists_exists He Hs. apply app_inv_head in Heq. subst r.
  assert ((x.1 ++ s, e) ∈ l) as Hin.
  { unfold l. rewrite merge_sort_Permutation. apply elem_of_map_to_list. by rewrite tree_lookup. }
  rewrite <-(take_drop n l) in Hin. apply elem_of_app in Hin as [Hin|Hin].
  { apply Exists_exists. by exists (x.1 ++ s, e). }
  assert (StronglySorted deeper l) as Hsort.
  { apply StronglySorted_merge_sort; unfold deeper; repeat intros ?; lia. }
  rewrite <-(take_drop n l) in Hsort. pose proof (StronglySorted_app_1_elem_of _ _ _ _ _ Hsort Hx Hin) as Hd.
  unfold deeper in Hd. cbn in Hd. rewrite length_app in Hd. destruct s; [done|]. cbn in Hd. lia.
Qed.

Lemma RemoveAll_same_tree d p : apart d p → respects (same_tree d) (RemoveAll p).
Proof.
  intros Hd. apply respects_syscall; [intros f; by apply tree_cleared_apart|]. intros n f. apply tree_ext. intros r.
  rewrite without_lookup, bool_decide_false; [done|]. intros (x & _ & Hx)%Exists_exists.
  apply (apart_under d p r Hd). by exists x.1.
Qed.

Lemma rooted_cleared f p : rooted f → rooted (cleared f p).
Proof.
  intros Hf q name e Hq. destruct (strip p (q ++ [name])) as [r|] eqn:Hs.
  { apply strip_Some in Hs as Hs'. rewrite Hs', cleared_under in Hq. done. }
  apply strip_None in Hs. rewrite cleared_outside in Hq by done. apply Hf in Hq. unfold is_dir in *.
  rewrite cleared_outside; [done|]. intros Hp. apply Hs. etransitivity; [exact Hp|]. by exists [name].
Qed.

Lemma RemoveAll_rooted p : respects keeps_rooted (RemoveAll p).
Proof.
  apply respects_syscall; [intros f Hf; by apply rooted_cleared|]. intros n f Hf q name e.
  set (gone := take n _). rewrite without_lookup. case_bool_decide as Hin; [done|]. intros Hq. pose proof (Hf _ _ _ Hq) as Hdir.
  unfold is_dir in *. assert (without p gone f !! q = f !! q) as ->; [|done].
  rewrite without_lookup, bool_decide_false; [done|]. intros Hex. apply Hin.
  assert (∃ r, q = p ++ r) as [r ->] by (apply Exists_exists in Hex as (x & _ & ->); by eexists).
  rewrite <-app_assoc in Hq |- *. by eapply gone_deepest.
Qed.

Lemma rename_effect f old new :
  (rename_in f old new).1 = f ∨
  f !! new ≠ Some DirEntry ∧ (f !! old = Some DirEntry → f !! new = None) ∧ ¬ old `prefix_of` new ∧ is_dir f (Dir new) = true ∧
  rename_in f old new = (grafted (cleared f old) new (tree f old), Ok tt).
Proof.
  unfold rename_in. destruct (f !! old) as [[]|], (f !! new) as [[]|]; auto;
    case_bool_decide; auto; destruct (is_dir f (Dir new)); auto; right; naive_solver.
Qed.

Lemma Rename_same_tree d old new : apart d old → apart d new → respects (same_tree d) (Rename old new).
Proof.
  intros H1 H2. apply respects_syscall; [|reflexivity]. intros f.
  destruct (rename_effect f old new) as [->|(_ & _ & _ & _ & ->)]; [reflexivity|].
  unfold same_tree. cbn [fst]. by rewrite tree_grafted_apart, tree_cleared_apart.
Qed.

Lemma rooted_leaf f p r e : rooted f → p ≠ [] → f !! p ≠ Some DirEntry → f !! (p ++ r) = Some e → r = [].
Proof.
  intros Hf Hp Hd. revert e. induction r as [|name r IH] using rev_ind; intros e He; [done|]. exfalso.
  rewrite app_assoc in He. apply Hf in He. unfold is_dir in He. apply orb_true_iff in He as [He%bool_decide_eq_true|He%bool_decide_eq_true].
  - by apply app_eq_nil in He as [-> _].
  - pose proof (IH _ He) as ->. by rewrite app_nil_r in He.
Qed.

Lemma Rename_rooted old new : new ≠ [] → respects keeps_rooted (Rename old new).
Proof.
  intros Hne. apply respects_syscall; [|reflexivity]. intros f Hf.
  destruct (rename_effect f old new) as [->|(Hnew & Hold & Hpre & Hdir & ->)]; [done|]. cbn [fst].
  destruct (Dir_snoc new Hne) as [last Hlast].
  intros q name e Hq. destruct (strip new (q ++ [name])) as [r|] eqn:Hs.
  - apply strip_Some in Hs. rewrite Hs, grafted_under, tree_lookup in Hq.
    destruct r as [|x r _] using rev_ind.
    + rewrite app_nil_r in Hs. rewrite Hlast in Hs. apply app_inj_tail in Hs as [-> _].
      unfold is_dir in *. rewrite grafted_outside.
      * rewrite cleared_outside; [done|]. intros Ho. apply Hpre. etransitivity; [exact Ho|]. rewrite Hlast at 2. by eexists.
      * intros Ho%prefix_length. pose proof (f_equal length Hlast) as Hl. rewrite length_app in Hl. cbn in Hl. lia.
    + rewrite app_assoc in Hs, Hq. apply app_inj_tail in Hs as [-> _]. apply Hf in Hq. unfold is_dir in *.
      rewrite grafted_under, tree_lookup. apply orb_true_iff in Hq as [Hq|Hq]; [|rewrite Hq; by rewrite orb_true_r].
      apply bool_decide_eq_true, app_eq_nil in Hq as [-> _]. destruct Hpre. apply prefix_nil.
  - apply strip_None in Hs. rewrite grafted_outside in Hq by done.
    assert (is_dir (cleared f old) q = true) as Hd by by eapply (rooted_cleared f old Hf).
    unfold is_dir in *. rewrite grafted_outside; [done|]. intros Ho. apply Hs. etransitivity; [exact Ho|]. by exists [name].
Qed.

#[export] Hint Resolve MkdirAll_rooted RemoveAll_rooted WriteFile_rooted Rename_rooted : io.
#[export] Hint Resolve MkdirAll_same_tree WriteFile_same_tree RemoveAll_same_tree Rename_same_tree : io.

(** ** What a call that succeeded has done *)

Lemma io_bind_ok {A B} (m : io A) (k : A → io B) h h' b :
  io_bind m k h = (h', Ok b) → ∃ h1 a, m h = (h1, Ok a) ∧ k a h1 = (h', Ok b).
Proof. unfold io_bind. destruct (m h) as [h1 [a|e]]; [eauto|done]. Qed.

Lemma wrapping_ok {A} format (m : io A) h h' a : wrapping format m h = (h', Ok a) → m h = (h', Ok a).
Proof. unfold wrapping. destruct (m h) as [h1 [b|e]]; cbn; congruence. Qed.

Lemma attempt_ok {A} (m : io A) h h' r : attempt_io m h = (h', Ok r) → m h = (h', r).
Proof. unfold attempt_io. destruct (m h). by intros [= -> ->]. Qed.

Lemma ignoring_ok {A} (m : io A) h h' u : ignoring m h = (h', Ok u) → h' = (m h).1.
Proof. by intros [= <-]. Qed.

Lemma syscall_ok {A} (run : FS → FS * result A) broken h h' a :
  syscall run broken h = (h', Ok a) → run (fs h) = (fs h', Ok a).
Proof.
  unfold syscall. destruct (run (fs h)) as [f r] eqn:Hr. destruct (faults h) as [|[n|] rest]; intros [= <- ?]; subst; done.
Qed.

Lemma reading_same {A} (run : FS → result A) h : fs (reading run h).1 = fs h.
Proof. unfold reading, syscall. by destruct (faults h) as [|[n|] rest]. Qed.

Lemma reading_ok {A} (run : FS → result A) h h' a : reading run h = (h', Ok a) → fs h' = fs h ∧ run (fs h) = Ok a.
Proof. intros H%syscall_ok. injection H. auto. Qed.

Lemma RemoveAll_ok p h h' : RemoveAll p h = (h', Ok tt) → fs h' = cleared (fs h) p.
Proof. intros H%syscall_ok. by injection H. Qed.

Lemma WriteFile_ok p content h h' :
  WriteFile p content h = (h', Ok tt) → fs h' = <[p := FileEntry content]> (fs h) ∧ fs h !! p ≠ Some DirEntry.
Proof.
  intros H%syscall_ok. unfold write_at in H. destruct (fs h !! p) as [[]|] eqn:He; try done;
    destruct (is_dir (fs h) (Dir p)); try done; by injection H as <-.
Qed.

Lemma Rename_ok old new h h' :
  Rename old new h = (h', Ok tt) → old ≠ new →
  fs h' = grafted (cleared (fs h) old) new (tree (fs h) old) ∧ is_Some (fs h !! old).
Proof.
  intros H%syscall_ok Hne. unfold rename_in in H. destruct (fs h !! old) as [[]|]; [..|done];
    destruct (fs h !! new) as [[]|]; try done; case_bool_decide; try done;
    rewrite ?bool_decide_false in H by done; try done; destruct (is_dir (fs h) (Dir new)); try done; by injection H as <-.
Qed.

Lemma Rename_moves old new h h' :
  Rename old new h = (h', Ok tt) → apart old new → tree (fs h') new = tree (fs h) old ∧ tree (fs h') old = ∅.
Proof.
  intros H Ha. assert (old ≠ new) as Hne by (intros ->; by destruct Ha). destruct (Rename_ok old new h h' H Hne) as [-> _].
  split; [by rewrite tree_grafted|]. by rewrite tree_grafted_apart, tree_cleared.
Qed.

(** A rename that failed has done nothing. *)
Lemma Rename_failed old new h h' e : Rename old new h = (h', Err e) → fs h' = fs h.
Proof.
  unfold Rename, syscall. destruct (rename_effect (fs h) old new) as [Hf|(_ & _ & _ & _ & Hf)];
    destruct (rename_in (fs h) old new) as [f r]; destruct (faults h) as [|[n|] rest]; intros [= <- ?]; cbn in *; congruence.
Qed.

(** The directories [MkdirAll] makes. *)
Definition makes_dirs (p : path) (f g : FS) : Prop :=
  ∀ q, g !! q = f !! q ∨ q `prefix_of` p ∧ f !! q = None ∧ g !! q = Some DirEntry.
#[export] Instance makes_dirs_preorder p : PreOrder (makes_dirs p).
Proof.
  split; [intros f q; by left|]. intros f g h H1 H2 q. destruct (H1 q) as [E1|(? & ? & E1)], (H2 q) as [E2|(? & ? & E2)].
  all: rewrite ?E2, ?E1; naive_solver congruence.
Qed.

Lemma make_dirs_dir limit f above below g :
  make_dirs limit f above below = (g, Ok tt) → is_dir f above = true → is_dir g (above ++ below) = true.
Proof.
  revert limit f above. induction below as [|name below IH]; intros limit f above H Hd; cbn [make_dirs] in H.
  { injection H as <-. by rewrite app_nil_r. }
  replace (above ++ name :: below) with ((above ++ [name]) ++ below) by by rewrite <-app_assoc.
  destruct (f !! (above ++ [name])) as [[]|] eqn:He; try done; [|destruct limit; [done|]]; eapply IH; try exact H;
    unfold is_dir; apply orb_true_iff; right; apply bool_decide_eq_true; [done|by rewrite lookup_insert_eq].
Qed.

Lemma MkdirAll_ok p h h' : MkdirAll p h = (h', Ok tt) → is_dir (fs h') p = true ∧ makes_dirs p (fs h) (fs h').
Proof.
  intros H%syscall_ok. split; [by apply (make_dirs_dir (length p) (fs h) [])|].
  change (fs h') with (fs h', Ok tt : result unit).1. rewrite <-H. apply make_dirs_respects; [apply _| |done].
  intros g q name _ Hq Hn q'. cbn [app] in Hq. destruct (decide (q' = q ++ [name])) as [->|]; [right|left; by rewrite lookup_insert_ne].
  rewrite lookup_insert_eq. split; [|done]. rewrite Hq. exists (drop (length q + 1) p). by rewrite <-app_assoc.
Qed.
