(* ===== verification/Volumes.v ===== *)
(** * Volumes on a node (src/node/volume.go, snapshot.go, handoff.go, backup.go, database.go)

    Durable storage: who may write a volume, snapshots of it, their copies off the host,
    and the steps of a move to another node, over the file system of [FileSystem].  A
    path the source keeps as text is kept here as the clean path it stands for; the JSON
    of a record, SHA-256, a database engine and a backup store other than a directory are
    parameters.  Times of directories are an argument of [prune]. *)

From S2P Require Import Prelude Types Text Engine Executor EventLog Directory Validate Dispatch FileSystem.
Open Scope Z_scope.

(** ** Trees of files *)

(** [copyTree]: what one visit of the walk does. *)
Definition copy_entry (source destination : path) (x : path * entry) : io unit :=
  let target := destination ++ x.1 in
  match x.2 with
  | DirEntry => MkdirAll target
  | OtherEntry _ => io_err (Errorf "volume contains a non-regular file %q")
  | FileEntry _ =>
      let! content := ReadFile (source ++ x.1) in
      MkdirAll (Dir target) >> WriteFile target content
  end.

Fixpoint each {A} (f : A → io unit) (l : list A) : io unit :=
  match l with [] => io_ret tt | x :: l => f x >> each f l end.

Definition copyTree (source destination : path) : io unit :=
  let! l := WalkDir source in each (copy_entry source destination) l.

(** [checksumTree]: the files in the order of their text, each as name and content. *)
Fixpoint read_all (root : path) (l : list path) : io (list (string * string)) :=
  match l with
  | [] => io_ret []
  | r :: l =>
      let! content := ReadFile (root ++ r) in
      let! rest := read_all root l in
      io_ret ((relative r, content) :: rest)
  end.

Fixpoint manifest (l : list (string * string)) : string :=
  match l with
  | [] => ""
  | (name, content) :: l => name +:+ String zero_byte (content +:+ String zero_byte (manifest l))
  end.

Definition not_dir (x : path * entry) : bool := negb (bool_decide (x.2 = DirEntry)).

Section Storage.
Context {digest : Digest}.

Definition checksumTree (root : path) : io string :=
  let! l := wrapping "walk %q: %w" (WalkDir root) in
  let! files := read_all root (List.filter not_dir l).*1 in
  io_ret (digestOf (manifest files)).

(** Put a staged tree in the place of a volume's, and the old one back if that fails. *)
Definition swap_in (staging target : path) (aside_failed replace_failed : error → error) : io unit :=
  let previous := suffixed target ".replaced" in
  ignoring (RemoveAll previous) >>
  let! aside := attempt_io (Rename target previous) in
  match aside with
  | Err e => if IsNotExist e then io_ret tt else ignoring (RemoveAll staging) >> io_err (aside_failed e)
  | Ok _ => io_ret tt
  end >>
  let! moved := attempt_io (Rename staging target) in
  match moved with
  | Err e => ignoring (Rename previous target) >> ignoring (RemoveAll staging) >> io_err (replace_failed e)
  | Ok _ => ignoring (RemoveAll previous)
  end.

(** [copyTreeReplacing] *)
Definition copyTreeReplacing (source destination : path) : io unit :=
  let staging := suffixed destination ".adopting" in
  RemoveAll staging >>
  let! copied := attempt_io (copyTree source staging) in
  match copied with
  | Err e => ignoring (RemoveAll staging) >> io_err e
  | Ok _ => swap_in staging destination (λ e, e) (λ e, e)
  end.

(** ** Backup stores *)

Record BackupStore := mkBackupStore {
  store_Put : string → string → path → io string; store_Fetch : string → string → path → io unit }.

(** [DirectoryBackupStore] over its root. *)
Definition backup_path (root : path) (volume snapshot : string) : path := Join (Join root volume) snapshot.

Definition Directory_Put (root : path) (volume snapshot : string) (source : path) : io string :=
  let destination := backup_path root volume snapshot in
  let! present := attempt_io (Stat destination) in
  match present with
  | Ok _ => io_ret (absolute destination)
  | Err _ =>
      let staging := suffixed destination ".partial" in
      wrapping "clear staging backup: %w" (RemoveAll staging) >>
      wrapping "create backup directory: %w" (MkdirAll (Dir destination)) >>
      let! copied := attempt_io (copyTree source staging) in
      match copied with
      | Err e => ignoring (RemoveAll staging) >> io_err (Wrapf "copy snapshot to backup store: %w" e)
      | Ok _ =>
          let! moved := attempt_io (Rename staging destination) in
          match moved with
          | Err e => ignoring (RemoveAll staging) >> io_err (Wrapf "finalize backup: %w" e)
          | Ok _ => io_ret (absolute destination)
          end
      end
  end.

Definition Directory_Fetch (root : path) (volume snapshot : string) (destination : path) : io unit :=
  let source := backup_path root volume snapshot in
  let! present := attempt_io (Stat source) in
  match present with
  | Err _ => io_err (Errorf "backup of snapshot %q for volume %q is not in the store")
  | Ok _ =>
      wrapping "clear fetch destination: %w" (RemoveAll destination) >>
      wrapping "fetch backup: %w" (copyTree source destination)
  end.

Definition Directory_Has (root : path) (volume snapshot : string) : io bool :=
  let! present := attempt_io (Stat (backup_path root volume snapshot)) in
  match present with
  | Ok _ => io_ret true
  | Err e => if IsNotExist e then io_ret false else io_err e
  end.

Definition DirectoryBackupStore (root : path) : BackupStore := mkBackupStore (Directory_Put root) (Directory_Fetch root).

(** [withinPath] and [NewDirectoryBackupStore], on the text of the paths. *)
Definition Clean (s : string) : path := Join [] s.
Definition IsAbs (s : string) : bool := String.prefix "/" s.
Definition withinPath (candidate parent : string) : bool :=
  bool_decide (IsAbs candidate = IsAbs parent) &&
  (bool_decide (Clean candidate = Clean parent) ||
   bool_decide (Clean parent ≠ []) && bool_decide (Clean parent `prefix_of` Clean candidate)).
Definition NewDirectoryBackupStore (root volumeRoot : string) : io BackupStore :=
  refuse! (negb (IsAbs root)) "backup root must be an absolute path";
  refuse! (bool_decide (volumeRoot ≠ "") && withinPath root volumeRoot)
    "backup root %q is inside the volume root %q and would not survive host loss";
  wrapping "create backup root: %w" (MkdirAll (Clean root)) >> io_ret (DirectoryBackupStore (Clean root)).

(** ** Records and their file *)

Record VolumeRecord := mkVolumeRecord {
  VR_Name : string; VR_Path : path; VR_Owner : string; VR_Generation : Z }.
#[export] Instance eta_VolumeRecord : Eta VolumeRecord := λ r,
  mkVolumeRecord (VR_Name r) (VR_Path r) (VR_Owner r) (VR_Generation r).

Class VolumeCodec := {
  encode_volume : VolumeRecord → string; decode_volume : string → option VolumeRecord }.
(** A record is one line and reads back.  Its texts are UTF-8, as [encoding/json] replaces
    what is not. *)
Class VolumeCodecLaws (codec : VolumeCodec) : Prop := {
  decode_encode_volume : ∀ r, decode_volume (encode_volume r) = Some r;
  encode_volume_line : ∀ r, no_break (encode_volume r) = true }.

(** [Volumes]; the state file lies in the same file system. *)
Record Volumes := mkVolumes {
  vol_root : path; vol_snapshots : path; vol_state : path; vol_backups : option BackupStore;
  volumes : gmap string VolumeRecord }.
#[export] Instance eta_Volumes : Eta Volumes := λ r,
  mkVolumes (vol_root r) (vol_snapshots r) (vol_state r) (vol_backups r) (volumes r).

Context {codec : VolumeCodec}.

Definition maxVolumeLine : Z := 65536.

Definition load_volume (m : gmap string VolumeRecord) (line : string) : result (gmap string VolumeRecord) :=
  refuse (maxVolumeLine <=? Z.of_nat (String.length line)) "read volume state: %w";
  need record := decode_volume line else "decode volume state line %d: %w";
  refuse (bool_decide (VR_Name record = "")) "volume state line %d has no name";
  Ok (<[VR_Name record := record]> m).

Definition load_volumes (state : path) : io (gmap string VolumeRecord) :=
  let! text := attempt_io (ReadFile state) in
  match text with
  | Err e => if IsNotExist e then io_ret ∅ else io_err (Wrapf "open volume state: %w" e)
  | Ok text => io_of (for_each load_volume ∅ (scan_lines text))
  end.

(** [filepath.Dir] of a path's text. *)
Definition Dir_text (s : string) : path := Clean (String.concat "/" (removelast (split_on separator s))).

Definition OpenVolumes (root statePath : string) : io Volumes :=
  refuse! (negb (IsAbs root) || negb (IsAbs statePath)) "volume root and state path must be absolute";
  wrapping "create volume root: %w" (MkdirAll (Clean root)) >>
  wrapping "create volume state directory: %w" (MkdirAll (Dir_text statePath)) >>
  let snapshots := Join (Dir_text root) "snapshots" in
  wrapping "create snapshot root: %w" (MkdirAll snapshots) >>
  let! m := load_volumes (Clean statePath) in
  io_ret (mkVolumes (Clean root) snapshots (Clean statePath) None m).

(** [WithBackupStore] *)
Definition WithBackupStore (v : Volumes) (store : BackupStore) : Volumes := v <| vol_backups := Some store |>.

(** src/node/gateway.go: [writeAtomic] *)
Definition writeAtomic (p : path) (content : string) : io unit :=
  let temporary := suffixed p ".tmp" in
  wrapping "write gateway config: %w" (WriteFile temporary content) >>
  wrapping "replace gateway config: %w" (Rename temporary p).

Definition volume_lines (m : gmap string VolumeRecord) : list string :=
  omap (λ name, encode_volume <$> m !! name) (sort_Strings (map_to_list m).*1).
Definition persist (v : Volumes) : io unit := writeAtomic (vol_state v) (ledger_lines (volume_lines (volumes v))).

(** ** Ownership *)

Definition volumeEvidence (kind : EvidenceKind) (target : string) (observed : list (string * string)) : Evidence :=
  report kind target (list_to_map observed).

(** An operation gives back the records as they are in memory, whatever reached the disk. *)
Definition volume_op : Type := Machine → Volumes * (Machine * result Evidence).
Definition unchanged (v : Volumes) (m : io Evidence) : volume_op := λ h, (v, m h).

(** Change the records, then write them. *)
Definition recorded (v : Volumes) (m : io Evidence) : volume_op := λ h, (v, (persist v >> m) h).

Definition create (v : Volumes) (a : Action) (ref : VolumeRef) : volume_op :=
  let name := VolumeRef_Name ref in
  let evidence p created := volumeEvidence EvidenceVolumeCreated name
    [("node", Action_Node a); ("path", absolute p); ("created", created)] in
  match volumes v !! name with
  | Some existing => unchanged v (io_ret (evidence (VR_Path existing) "false"))
  | None =>
      let p := Join (vol_root v) name in
      λ h, match wrapping "create volume %q: %w" (MkdirAll p) h with
           | (h, Err e) => (v, (h, Err e))
           | (h, Ok _) =>
               recorded (v <| volumes ::= <[name := mkVolumeRecord name p "" 0]> |>) (io_ret (evidence p "true")) h
           end
  end.

Definition attach (v : Volumes) (a : Action) (ref : VolumeRef) : volume_op :=
  let name := VolumeRef_Name ref in
  match volumes v !! name with
  | None => unchanged v (io_err (Errorf "volume %q does not exist on this node"))
  | Some record =>
      let evidence record := volumeEvidence EvidenceVolumeAttached name
        [("allocation", Action_Target a); ("path", absolute (VR_Path record)); ("mount_path", VolumeRef_MountPath ref);
         ("generation", Sprint (VR_Generation record))] in
      if bool_decide (VR_Owner record ≠ "") && bool_decide (VR_Owner record ≠ Action_Target a)
      then unchanged v (io_err (Errorf "volume %q is held by allocation %q"))
      else if bool_decide (VR_Owner record ≠ Action_Target a) then
        let record := record <| VR_Owner := Action_Target a |> <| VR_Generation := u64 (VR_Generation record + 1) |> in
        recorded (v <| volumes ::= <[name := record]> |>) (io_ret (evidence record))
      else unchanged v (io_ret (evidence record))
  end.

Definition detach (v : Volumes) (a : Action) (ref : VolumeRef) : volume_op :=
  let name := VolumeRef_Name ref in
  match volumes v !! name with
  | None => unchanged v (io_ret (volumeEvidence EvidenceVolumeDetached name
                                   [("allocation", Action_Target a); ("released", "false")]))
  | Some record =>
      if bool_decide (VR_Owner record ≠ "") && bool_decide (VR_Owner record ≠ Action_Target a)
      then unchanged v (io_err (Errorf "allocation %q does not hold volume %q"))
      else
        let record := record <| VR_Owner := "" |> <| VR_Generation := u64 (VR_Generation record + 1) |> in
        recorded (v <| volumes ::= <[name := record]> |>)
          (io_ret (volumeEvidence EvidenceVolumeDetached name
             [("allocation", Action_Target a); ("released", "true"); ("generation", Sprint (VR_Generation record))]))
  end.

Record VolumeMountSpec := mkVolumeMountSpec { Mount_Source : path; Mount_Destination : string; Mount_ReadOnly : bool }.
Definition Mounts (v : Volumes) (allocation : string) (refs : list VolumeRef) : list VolumeMountSpec :=
  omap (λ ref, record ← volumes v !! VolumeRef_Name ref;
    if bool_decide (VR_Owner record ≠ allocation) then None
    else Some (mkVolumeMountSpec (VR_Path record) (VolumeRef_MountPath ref) (VolumeRef_ReadOnly ref))) refs.

Definition Volume_Owner (v : Volumes) (name : string) : option (string * Z) :=
  (λ r, (VR_Owner r, VR_Generation r)) <$> volumes v !! name.

(** ** Snapshots *)

Definition snapshotIDPattern (id : string) : bool := namePattern id.
Definition snapshot_path (v : Volumes) (name id : string) : path := Join (Join (vol_snapshots v) name) id.

(** The recorded checksum, when the action carries one, against the one found. *)
Definition mismatch (ref : VolumeRef) (checksum : string) : bool :=
  bool_decide (VolumeRef_Checksum ref ≠ "") && bool_decide (VolumeRef_Checksum ref ≠ checksum).

(** [defer cleanup] *)
Definition deferring {A} (cleanup : io unit) (m : io A) : io A := λ h, let '(h, r) := m h in ((cleanup h).1, r).

(** Fill a staging directory, checksum it and give it its final name. *)
Definition staged (staging destination : path) (fill : io unit) (failed finalize : string) : io string :=
  let! filled := attempt_io fill in
  match filled with
  | Err e => ignoring (RemoveAll staging) >> io_err (Wrapf failed e)
  | Ok _ =>
      let! checksum := attempt_io (checksumTree staging) in
      match checksum with
      | Err e => ignoring (RemoveAll staging) >> io_err e
      | Ok checksum =>
          let! moved := attempt_io (Rename staging destination) in
          match moved with
          | Err e => ignoring (RemoveAll staging) >> io_err (Wrapf finalize e)
          | Ok _ => io_ret checksum
          end
      end
  end.

Definition snapshot (v : Volumes) (a : Action) (ref : VolumeRef) : io Evidence :=
  match volumes v !! VolumeRef_Name ref with
  | None => io_err (Errorf "volume %q does not exist on this node")
  | Some record =>
      refuse! (bool_decide (VR_Owner record ≠ "")) "volume %q is attached to %q; quiesce it before snapshotting";
      let id := Action_Snapshot a in
      refuse! (bool_decide (id = "")) "snapshot requires an id";
      refuse! (negb (snapshotIDPattern id)) "snapshot id %q must be lowercase alphanumeric";
      let evidence checksum repeated := volumeEvidence EvidenceVolumeSnapshotted (VR_Name record)
        [("snapshot", id); ("checksum", checksum); ("repeated", repeated)] in
      let destination := snapshot_path v (VR_Name record) id in
      let! present := attempt_io (Stat destination) in
      match present with
      | Ok _ => let! checksum := checksumTree destination in io_ret (evidence checksum "true")
      | Err _ =>
          let staging := suffixed destination ".partial" in
          wrapping "clear staging snapshot: %w" (RemoveAll staging) >>
          let! checksum := staged staging destination (copyTree (VR_Path record) staging)
                             "snapshot volume %q: %w" "finalize snapshot: %w" in
          io_ret (evidence checksum "false")
      end
  end.

Definition verificationFailure (volume snapshot reason : string) : Evidence :=
  volumeEvidence EvidenceBackupVerified volume [("snapshot", snapshot); ("verified", "false"); ("reason", reason)].

(** [verifyBackup]; the text of a reason keeps the error's format only. *)
Definition verifyBackup (v : Volumes) (a : Action) (ref : VolumeRef) : io Evidence :=
  match volumes v !! VolumeRef_Name ref with
  | None => io_err (Errorf "volume %q does not exist on this node")
  | Some record =>
      let id := Action_Snapshot a in
      refuse! (bool_decide (id = "")) "verify requires a snapshot id";
      let failure reason := io_ret (verificationFailure (VR_Name record) id reason) in
      let scratch := snapshot_path v (VR_Name record) (id +:+ ".verify") in
      let source := snapshot_path v (VR_Name record) id in
      let check :=
        let! checksum := checksumTree scratch in
        if mismatch ref checksum
        then failure ("checksum mismatch: recorded " +:+ VolumeRef_Checksum ref +:+ ", found " +:+ checksum)
        else io_ret (volumeEvidence EvidenceBackupVerified (VR_Name record)
                       [("snapshot", id); ("verified", "true"); ("checksum", checksum)]) in
      deferring (RemoveAll scratch)
        (let! present := attempt_io (Stat source) in
         match present with
         | Err _ =>
             match vol_backups v with
             | None => failure "snapshot is not present on this node and no backup store is configured"
             | Some store =>
                 let! fetched := attempt_io (store_Fetch store (VR_Name record) id scratch) in
                 match fetched with
                 | Err e => failure ("backup could not be fetched: " +:+ error_text e)
                 | Ok _ => check
                 end
             end
         | Ok _ => wrapping "stage verification copy: %w" (copyTree source scratch) >> check
         end)
  end.

Definition listSnapshotDirs (dir : path) : io (list string) :=
  let! l := attempt_io (ReadDir dir) in
  match l with
  | Err e => if IsNotExist e then io_ret [] else io_err (Wrapf "read snapshot directory: %w" e)
  | Ok l =>
      io_ret (sort_Strings (omap (λ '(name, e),
        if bool_decide (e ≠ DirEntry) || HasSuffix name ".partial" || HasSuffix name ".fetched" then None else Some name) l))
  end.

(** [recentSnapshots]; [modified] is the time each directory was modified, in nanoseconds. *)
Definition newer (modified : path → Z) (dir : path) (x y : string) : Prop :=
  modified (dir ++ [y]) < modified (dir ++ [x]) ∨ modified (dir ++ [x]) = modified (dir ++ [y]) ∧ string_le y x.
#[export] Instance newer_dec modified dir x y : base.Decision (newer modified dir x y).
Proof. unfold newer. apply _. Defined.

Definition recentSnapshots (modified : path → Z) (dir : path) (ids : list string) (retain : Z) : io (list string) :=
  each (λ id, wrapping "stat snapshot %q: %w" (Stat (dir ++ [id]))) ids >>
  io_ret (take (Z.to_nat retain) (merge_sort (newer modified dir) ids)).

(** The removals of [prune], with the snapshots removed so far. *)
Fixpoint prune_loop (dir : path) (protected : list string) (dry_run : bool) (total : Z) (removed present : list string)
    : io (list string) :=
  match present with
  | [] => io_ret removed
  | id :: present =>
      if bool_decide (id ∈ protected) then prune_loop dir protected dry_run total removed present
      else if total - len removed <=? 1 then io_ret removed
      else
        (if dry_run then io_ret tt else wrapping "remove snapshot %q: %w" (RemoveAll (dir ++ [id]))) >>
        prune_loop dir protected dry_run total (removed ++ [id]) present
  end.

Definition prune (modified : path → Z) (v : Volumes) (a : Action) (ref : VolumeRef) : io Evidence :=
  match volumes v !! VolumeRef_Name ref with
  | None => io_err (Errorf "volume %q does not exist on this node")
  | Some record =>
      let dir := Join (vol_snapshots v) (VR_Name record) in
      let! present := listSnapshotDirs dir in
      let retain := if Action_Retain a <? 1 then 1 else Action_Retain a in
      let! protected := recentSnapshots modified dir present retain in
      let! removed := prune_loop dir protected (Action_DryRun a) (len present) [] present in
      io_ret (volumeEvidence EvidenceSnapshotsPruned (VR_Name record)
                [("removed", Join_lines (sort_Strings removed)); ("dry_run", Sprint_bool (Action_DryRun a))])
  end.

(** [restore]: the source of the data, and whether it was fetched for this. *)
Definition restore_from (v : Volumes) (record : VolumeRecord) (a : Action) (ref : VolumeRef) (source : path) (fetched : bool)
    : io Evidence :=
  let! checksum := checksumTree source in
  refuse! (mismatch ref checksum) "snapshot %q of volume %q failed verification: recorded %s, found %s";
  let staging := suffixed (VR_Path record) ".restoring" in
  wrapping "clear staging restore: %w" (RemoveAll staging) >>
  let! copied := attempt_io (copyTree source staging) in
  match copied with
  | Err e => ignoring (RemoveAll staging) >> io_err (Wrapf "restore volume %q: %w" e)
  | Ok _ =>
      let! restored := attempt_io (checksumTree staging) in
      if negb (bool_decide (restored = Ok checksum))
      then ignoring (RemoveAll staging) >> io_err (Errorf "restored copy of volume %q does not match the snapshot")
      else
        swap_in staging (VR_Path record) (Wrapf "set aside volume %q: %w") (Wrapf "replace volume %q: %w") >>
        io_ret (volumeEvidence EvidenceVolumeRestored (VR_Name record)
                  [("snapshot", Action_Snapshot a); ("checksum", checksum);
                   ("source", if fetched then "backup-store" else "local-snapshot")])
  end.

Definition restore (v : Volumes) (a : Action) (ref : VolumeRef) : io Evidence :=
  match volumes v !! VolumeRef_Name ref with
  | None => io_err (Errorf "volume %q does not exist on this node")
  | Some record =>
      refuse! (bool_decide (VR_Owner record ≠ "")) "volume %q is attached to %q; detach it before restoring";
      refuse! (bool_decide (Action_Snapshot a = "")) "restore requires a snapshot id";
      let source := snapshot_path v (VR_Name record) (Action_Snapshot a) in
      let! present := attempt_io (Stat source) in
      match present with
      | Ok _ => restore_from v record a ref source false
      | Err _ =>
          match vol_backups v with
          | None => io_err (Errorf "snapshot %q of volume %q is not present on this node")
          | Some store =>
              let fetched := snapshot_path v (VR_Name record) (Action_Snapshot a +:+ ".fetched") in
              store_Fetch store (VR_Name record) (Action_Snapshot a) fetched >>
              deferring (RemoveAll fetched) (restore_from v record a ref fetched true)
          end
      end
  end.

(** [backup] *)
Definition backup (v : Volumes) (a : Action) (ref : VolumeRef) : io Evidence :=
  match vol_backups v with
  | None => io_err (Errorf "node has no backup store configured")
  | Some store =>
      match volumes v !! VolumeRef_Name ref with
      | None => io_err (Errorf "volume %q does not exist on this node")
      | Some record =>
          refuse! (bool_decide (Action_Snapshot a = "")) "backup requires a snapshot id";
          let source := snapshot_path v (VR_Name record) (Action_Snapshot a) in
          let! present := attempt_io (Stat source) in
          match present with
          | Err _ => io_err (Errorf "snapshot %q of volume %q is not present on this node")
          | Ok _ =>
              let! checksum := checksumTree source in
              refuse! (mismatch ref checksum) "snapshot %q of volume %q failed verification before backup: recorded %s, found %s";
              let! location := wrapping "back up snapshot %q: %w" (store_Put store (VR_Name record) (Action_Snapshot a) source) in
              io_ret (volumeEvidence EvidenceVolumeBackedUp (VR_Name record)
                        [("snapshot", Action_Snapshot a); ("location", location); ("checksum", checksum)])
          end
      end
  end.

(** ** Moving a volume to another node *)

Definition quiesce (v : Volumes) (a : Action) (ref : VolumeRef) : io Evidence :=
  match volumes v !! VolumeRef_Name ref with
  | None => io_err (Errorf "volume %q does not exist on this node")
  | Some record =>
      refuse! (bool_decide (VR_Owner record ≠ "")) "volume %q is held by %q and cannot be quiesced";
      refuse! (bool_decide (Action_Node a = "")) "quiesce requires a target node";
      io_ret (volumeEvidence EvidenceVolumeQuiesced (VR_Name record) [("to", Action_Node a)])
  end.

(** [transfer], once the volume has a record. *)
Definition receive (v : Volumes) (store : BackupStore) (a : Action) (ref : VolumeRef) : io Evidence :=
  let name := VolumeRef_Name ref in
  let destination := snapshot_path v name (Action_Snapshot a) in
  wrapping "prepare snapshot directory: %w" (MkdirAll (Dir destination)) >>
  let! present := attempt_io (Stat destination) in
  match present with
  | Ok _ => io_ret tt
  | Err _ => wrapping "fetch snapshot for transfer: %w" (store_Fetch store name (Action_Snapshot a) destination)
  end >>
  let! checksum := checksumTree destination in
  if mismatch ref checksum
  then ignoring (RemoveAll destination) >>
       io_err (Errorf "transferred snapshot %q of volume %q failed verification: recorded %s, found %s")
  else io_ret (volumeEvidence EvidenceVolumeTransferred name
                 [("node", Action_Node a); ("snapshot", Action_Snapshot a); ("checksum", checksum)]).

Definition transfer (v : Volumes) (a : Action) (ref : VolumeRef) : volume_op :=
  match vol_backups v with
  | None => unchanged v (io_err (Errorf "node has no backup store to transfer through"))
  | Some store =>
      if bool_decide (Action_Snapshot a = "") then unchanged v (io_err (Errorf "transfer requires a snapshot id"))
      else
        let name := VolumeRef_Name ref in
        match volumes v !! name with
        | Some _ => unchanged v (receive v store a ref)
        | None =>
            let p := Join (vol_root v) name in
            λ h, match wrapping "prepare target volume %q: %w" (MkdirAll p) h with
                 | (h, Err e) => (v, (h, Err e))
                 | (h, Ok _) =>
                     let v := v <| volumes ::= <[name := mkVolumeRecord name p "" 0]> |> in
                     recorded v (receive v store a ref) h
                 end
        end
  end.

Definition adopt (v : Volumes) (a : Action) (ref : VolumeRef) : io Evidence :=
  let name := VolumeRef_Name ref in
  refuse! (bool_decide (Action_Snapshot a = "")) "adopt requires the transferred snapshot id";
  let source := snapshot_path v name (Action_Snapshot a) in
  let! present := attempt_io (Stat source) in
  match present with
  | Err _ => io_err (Errorf "snapshot %q for volume %q was not transferred to this node")
  | Ok _ =>
      let! checksum := checksumTree source in
      refuse! (mismatch ref checksum) "snapshot %q of volume %q failed verification at adoption";
      match volumes v !! name with
      | None => io_err (Errorf "volume %q was not transferred to this node")
      | Some record =>
          wrapping "materialize adopted volume %q: %w" (copyTreeReplacing source (VR_Path record)) >>
          io_ret (volumeEvidence EvidenceVolumeAdopted name
                    [("node", Action_Node a); ("snapshot", Action_Snapshot a); ("checksum", checksum)])
      end
  end.

(** ** The volume capability *)

Definition Volumes_Execute (modified : path → Z) (v : Volumes) (a : Action) : volume_op :=
  match Action_Volume a with
  | None => unchanged v (io_err (Errorf "%s requires a volume reference"))
  | Some ref =>
      match Action_Kind a with
      | ActionCreateVolume => create v a ref
      | ActionAttachVolume => attach v a ref
      | ActionDetachVolume => detach v a ref
      | ActionSnapshotVolume => unchanged v (snapshot v a ref)
      | ActionRestoreSnapshot => unchanged v (restore v a ref)
      | ActionBackupSnapshot => unchanged v (backup v a ref)
      | ActionQuiesceVolume => unchanged v (quiesce v a ref)
      | ActionTransferVolume => transfer v a ref
      | ActionAdoptVolume => unchanged v (adopt v a ref)
      | ActionPruneSnapshots => unchanged v (prune modified v a ref)
      | ActionVerifyBackup => unchanged v (verifyBackup v a ref)
      | _ => unchanged v (io_err (Errorf "volumes do not support action kind %q"))
      end
  end.

(** ** Databases *)

Record DatabaseEngine := mkDatabaseEngine {
  engine_Name : string; engine_Backup : string → string → Z → path → io unit;
  engine_Ready : string → string → Z → result bool }.

(** [DatabaseManager]: its engines by name, and where an allocation's database listens. *)
Record DatabaseManager := mkDatabaseManager {
  db_engines : gmap string DatabaseEngine; db_endpoints : string → option (string * Z) }.
Definition NewDatabaseManager (endpoints : string → option (string * Z)) (engines : list DatabaseEngine) : DatabaseManager :=
  mkDatabaseManager (foldl (λ m e, <[engine_Name e := e]> m) ∅ engines) endpoints.

(** An endpoint that can be dialled. *)
Definition reachable (m : DatabaseManager) (allocation : string) : option (string * Z) :=
  match db_endpoints m allocation with Some (address, port) => if bool_decide (address = "") then None else Some (address, port) | None => None end.

Definition databaseBackupEvidence (volume label checksum : string) (repeated : bool) : Evidence :=
  volumeEvidence EvidenceDatabaseBackedUp volume
    [("label", label); ("checksum", checksum); ("repeated", Sprint_bool repeated)].

Definition Database_Execute (m : DatabaseManager) (v : Volumes) (a : Action) : io Evidence :=
  refuse! (bool_decide (Action_Kind a ≠ ActionDatabaseBackup)) "database manager does not support %q";
  match Action_Volume a with
  | None => io_err (Errorf "database backup requires a volume reference and label")
  | Some ref =>
      refuse! (bool_decide (Action_Snapshot a = "")) "database backup requires a volume reference and label";
      match db_engines m !! Action_Engine a with
      | None => io_err (Errorf "no backend for database engine %q")
      | Some engine =>
          let name := VolumeRef_Name ref in
          match volumes v !! name with
          | None => io_err (Errorf "volume %q does not exist on this node")
          | Some record =>
              match reachable m (VR_Owner record) with
              | None => io_err (Errorf "cannot reach database for volume %q; it must be attached and running")
              | Some (address, port) =>
                  let destination := snapshot_path v name (Action_Snapshot a) in
                  let! present := attempt_io (Stat destination) in
                  match present with
                  | Ok _ =>
                      let! checksum := checksumTree destination in
                      io_ret (databaseBackupEvidence name (Action_Snapshot a) checksum true)
                  | Err _ =>
                      let staging := suffixed destination ".partial" in
                      wrapping "clear staging backup: %w" (RemoveAll staging) >>
                      wrapping "create backup directory: %w" (MkdirAll (Dir destination)) >>
                      let! checksum := staged staging destination (engine_Backup engine (VR_Owner record) address port staging)
                                         "database backup of %q: %w" "finalize database backup: %w" in
                      io_ret (databaseBackupEvidence name (Action_Snapshot a) checksum false)
                  end
              end
          end
      end
  end.

Definition Database_ObserveReadiness (m : DatabaseManager) (target : ProbeTarget) : result (bool * gmap string string) :=
  refuse (bool_decide (Probe_Kind target ≠ ProbeDatabase)) "database manager only serves database probes";
  need engine := db_engines m !! Probe_Engine target else "no backend for database engine %q";
  match reachable m (Probe_Allocation target) with
  | None => Ok (false, {["reason" := "no address for database"]})
  | Some (address, port) =>
      match engine_Ready engine (Probe_Allocation target) address port with
      | Err e => Ok (false, {["reason" := error_text e]})
      | Ok ready => Ok (ready, <["engine" := engine_Name engine]> {["probe" := "database"]})
      end
  end.
End Storage.
