(* ===== verification/Storage.v ===== *)
(** * What a node's storage guarantees (theorems on [Volumes])

    Copies are exact, checksums are functions of the files, a volume is replaced as a
    whole or not at all, snapshots do not change, and ownership survives a restart. *)

From S2P Require Import Prelude Types Text Engine Executor EventLog Directory Validate Dispatch FileSystem Volumes.
Open Scope Z_scope.

(** ** Paths *)

Lemma apart_roots p q r s : apart p q → apart (p ++ r) (q ++ s).
Proof.
  intros H. split; intros Hp.
  - apply (apart_under q p s); [by apply apart_sym|]. etransitivity; [|exact Hp]. by exists r.
  - apply (apart_under p q r); [done|]. etransitivity; [|exact Hp]. by exists s.
Qed.

Lemma apart_below p r s : apart r s → apart (p ++ r) (p ++ s).
Proof.
  intros [H1 H2]. split; intros [t Ht]; rewrite <-app_assoc in Ht; apply app_inv_head in Ht; [apply H1|apply H2]; by exists t.
Qed.

Lemma apart_names x y r s : x ≠ y → apart (x :: r) (y :: s).
Proof. intros H. split; intros [t [= ? _]]; congruence. Qed.

Lemma suffixed_snoc p name suffix : suffixed (p ++ [name]) suffix = p ++ [name +:+ suffix].
Proof. unfold suffixed. by rewrite last_snoc, removelast_last. Qed.

Lemma suffixed_pair p x y suffix : suffixed (p ++ [x; y]) suffix = p ++ [x; y +:+ suffix].
Proof. change [x; y] with ([x] ++ [y]). rewrite app_assoc, suffixed_snoc. by rewrite <-app_assoc. Qed.

(** No suffix with a dot makes a label. *)
Lemma label_no_char s c : is_label s = true → label_char c = false → ∀ t u, s ≠ t +:+ String c u.
Proof.
  intros Hs Hc t. revert s Hs. induction t as [|d t IH]; intros s Hs u ->.
  - change (is_label (String c u) = true) in Hs. cbn [is_label] in Hs. by rewrite Hc in Hs.
  - change (is_label (String d (t +:+ String c u)) = true) in Hs. cbn [is_label] in Hs. apply andb_true_iff in Hs as [_ Hs].
    by apply (IH _ Hs u).
Qed.

Lemma append_ne s t : t ≠ "" → s ≠ s +:+ t.
Proof. intros Ht H. apply (f_equal String.length) in H. rewrite length_append in H. destruct t; [done|]. cbn in H. lia. Qed.

Lemma split_on_label sep s : is_label s = true → label_char sep = false → s ≠ "" → split_on sep s = [s].
Proof.
  intros Hs Hsep _. induction s as [|c s IH]; [done|]. cbn [is_label] in Hs. cbn [split_on]. apply andb_true_iff in Hs as [Hc Hs].
  rewrite bool_decide_false by (intros ->; congruence). destruct s; [done|]. by rewrite IH.
Qed.

Lemma Join_label p s : namePattern s = true → Join p s = p ++ [s].
Proof.
  intros [Hs Hne]%namePattern_label. unfold Join. rewrite split_on_label by done. cbn. unfold step_into.
  rewrite bool_decide_false by done. rewrite !bool_decide_false by (intros ->; done). done.
Qed.

Lemma split_on_dotted sep s u :
  is_label s = true → label_char sep = false → split_on sep u = [u] → split_on sep (s +:+ u) = [s +:+ u].
Proof.
  intros Hs Hsep Hu. induction s as [|c s IH]; [done|]. change (split_on sep (String c (s +:+ u)) = [String c (s +:+ u)]).
  cbn [is_label] in Hs. cbn [split_on]. apply andb_true_iff in Hs as [Hc Hs]. rewrite bool_decide_false by (intros ->; congruence). by rewrite IH.
Qed.

(** A name with a dotted suffix is still one component. *)
Lemma Join_dotted p s u :
  namePattern s = true → split_on separator (String dot u) = [String dot u] →
  Join p (s +:+ String dot u) = p ++ [s +:+ String dot u].
Proof.
  intros [Hs Hne]%namePattern_label Hu. unfold Join. rewrite split_on_dotted by done. cbn. unfold step_into.
  destruct s as [|c s]; [done|]. change (String c s +:+ String dot u) with (String c (s +:+ String dot u)).
  cbn [is_label] in Hs. apply andb_true_iff in Hs as [Hc _].
  assert (c ≠ dot) as Hd by (intros ->; done).
  rewrite !bool_decide_false by (intros [=]; done). done.
Qed.

(** ** Copies *)

(** Every run of a composite program preserves what its calls preserve. *)
Ltac io_step :=
  match goal with
  | |- respects _ (io_bind _ _) => apply respects_bind; [apply _| |intros ?]
  | |- respects _ (attempt_io _) => apply respects_attempt
  | |- respects _ (ignoring _) => apply respects_ignoring
  | |- respects _ (wrapping _ _) => apply respects_wrapping
  | |- respects _ (io_ret _) => apply respects_ret, _
  | |- respects _ (io_err _) => apply respects_err, _
  | |- respects _ (io_of _) => apply respects_of, _
  | |- respects _ (reading _) => apply respects_reading, _
  | |- respects _ (Stat _) => apply respects_reading, _
  | |- respects _ (ReadFile _) => apply respects_reading, _
  | |- respects _ (WalkDir _) => apply respects_reading, _
  | |- respects _ (ReadDir _) => apply respects_reading, _
  | |- respects _ (if _ then _ else _) => case_match
  | |- respects _ (match _ with _ => _ end) => case_match
  end.
Ltac io_frame := repeat (io_step || (cbv zeta; io_step)); auto.

Lemma respects_each (R : FS → FS → Prop) `{!PreOrder R} {A} (f : A → io unit) l :
  (∀ x, respects R (f x)) → respects R (each f l).
Proof. intros Hf. induction l as [|x l IH]; cbn [each]; io_frame. Qed.

Lemma copyTree_same_tree d source destination : apart d destination → respects (same_tree d) (copyTree source destination).
Proof.
  intros Hd. unfold copyTree. io_frame. apply respects_each; [apply _|]. intros [r e]. unfold copy_entry. cbn [fst snd].
  assert (¬ d `prefix_of` destination ++ r) as H1 by by apply apart_under, apart_sym.
  assert (¬ d `prefix_of` Dir (destination ++ r)) as H2.
  { intros H. apply H1. etransitivity; [exact H|]. destruct (decide (destination ++ r = [])) as [->|Hne]; [done|].
    destruct (Dir_snoc _ Hne) as [name Hn]. rewrite Hn at 2. by exists [name]. }
  io_frame; auto with io.
Qed.

Lemma copyTree_rooted source destination : destination ≠ [] → respects keeps_rooted (copyTree source destination).
Proof.
  intros Hd. unfold copyTree. io_frame. apply respects_each; [apply _|]. intros [r e]. unfold copy_entry. cbn [fst snd].
  io_frame; auto with io. apply WriteFile_rooted. by destruct destination.
Qed.

Lemma tree_parent f p r s e :
  rooted f → p ≠ [] → tree f p !! (r ++ s) = Some e → s ≠ [] → tree f p !! r = Some DirEntry.
Proof.
  intros Hf Hp. revert e. induction s as [|name s IH] using rev_ind; intros e He Hs; [done|].
  rewrite app_assoc, tree_lookup, app_assoc in He. apply Hf in He. unfold is_dir in He.
  apply orb_true_iff in He as [He%bool_decide_eq_true|He%bool_decide_eq_true]; [by apply app_eq_nil in He as [? _]|].
  rewrite <-tree_lookup in He. destruct (decide (s = [])) as [->|Hne]; [by rewrite app_nil_r in He|by eapply IH].
Qed.

(** The copy so far: part of the source, and the entries visited are there. *)
Definition copying (t : gmap path entry) (source destination : path) (visited : list path) (f : FS) : Prop :=
  tree f source = t ∧ tree f destination ⊆ t ∧ ∀ r, r ∈ visited → ∃ e, t !! r = Some e ∧ tree f destination !! r = Some e.

Lemma copying_mono t source destination visited f g :
  copying t source destination visited f → tree g source = t → tree g destination ⊆ t →
  (∀ q e, tree f destination !! q = Some e → tree g destination !! q = Some e) → copying t source destination visited g.
Proof. intros (_ & _ & Hv) Hs Hd Hq. do 2 (split; [done|]). intros r Hr. destruct (Hv r Hr) as (e & He & Hf). eauto. Qed.

Lemma copying_make t source destination visited p h h' :
  (∀ r r' s e, t !! r = Some e → r = r' ++ s → s ≠ [] → t !! r' = Some DirEntry) →
  apart source destination → copying t source destination visited (fs h) →
  (∀ r', destination ++ r' `prefix_of` p → t !! r' = Some DirEntry) → p `prefix_of` destination ∨ destination `prefix_of` p →
  MkdirAll p h = (h', Ok tt) → copying t source destination visited (fs h').
Proof.
  intros Hclosed Ha Hc Hdirs Hp H. pose proof Hc as (Hs & Hd & _). destruct (MkdirAll_ok _ _ _ H) as [_ Hm].
  assert (¬ source `prefix_of` p) as Hsp.
  { destruct Ha as [H1 H2]. destruct Hp as [Hp|Hp]; intros Hq; [apply H1; by transitivity p|].
    destruct (prefix_weak_total source destination p); auto. }
  apply (copying_mono _ _ _ _ (fs h)); [done| | |].
  - pose proof (MkdirAll_same_tree source p Hsp h) as E. rewrite H in E. cbn in E. unfold same_tree in E. congruence.
  - apply map_subseteq_spec. intros q e. rewrite tree_lookup. destruct (Hm (destination ++ q)) as [->|(Hq & _ & ->)].
    + rewrite <-tree_lookup. by apply map_subseteq_spec.
    + intros [= <-]. by apply Hdirs.
  - intros q e. rewrite !tree_lookup. destruct (Hm (destination ++ q)) as [->|(_ & -> & _)]; [done|congruence].
Qed.

Lemma copy_entry_copies t source destination visited r e h h' :
  (∀ r r' s e, t !! r = Some e → r = r' ++ s → s ≠ [] → t !! r' = Some DirEntry) →
  apart source destination → t !! r = Some e → copying t source destination visited (fs h) →
  copy_entry source destination (r, e) h = (h', Ok tt) → copying t source destination (r :: visited) (fs h').
Proof.
  intros Hclosed Ha Hr Hc H. unfold copy_entry in H. cbn [fst snd] in H.
  assert (destination ≠ []) as Hne by (intros ->; destruct Ha as [_ []]; apply prefix_nil).
  assert (∀ f, copying t source destination visited f → tree f destination !! r = Some e →
    copying t source destination (r :: visited) f) as Hvisit.
  { intros f (H1 & H2 & H3) H4. do 2 (split; [done|]). intros q [->|Hq]%elem_of_cons; eauto. }
  destruct e as [content| |]; [|..].
  - apply io_bind_ok in H as (h1 & c & Hread & H). apply reading_ok in Hread as [E1 Hread]. rewrite <-E1 in Hc.
    apply io_bind_ok in H as (h2 & [] & Hmk & Hw).
    assert (c = content) as ->.
    { destruct Hc as (Hs & _). rewrite <-Hs, tree_lookup, E1 in Hr. rewrite Hr in Hread. by injection Hread. }
    assert (copying t source destination visited (fs h2)) as Hc2.
    { eapply copying_make; [exact Hclosed|done|exact Hc| | |exact Hmk].
      - intros r' Hp. destruct (decide (r = [])) as [->|Hrn].
        + rewrite app_nil_r in Hp. apply prefix_length in Hp. destruct (Dir_snoc destination Hne) as [n Hn].
          apply (f_equal length) in Hn. rewrite length_app in Hn, Hp. cbn in Hn. lia.
        + destruct (Dir_snoc r Hrn) as [n Hn]. rewrite Hn, app_assoc in Hp. unfold Dir in Hp. rewrite removelast_last in Hp.
          destruct Hp as [s Hs]. rewrite <-app_assoc in Hs. apply app_inv_head in Hs. fold (Dir r) in Hs.
          eapply Hclosed; [exact Hr|rewrite Hn, Hs, <-app_assoc; reflexivity|]. by destruct s.
      - destruct (decide (r = [])) as [->|Hrn].
        + left. rewrite app_nil_r. destruct (Dir_snoc destination Hne) as [n Hn]. rewrite Hn at 2. by eexists.
        + right. destruct (Dir_snoc r Hrn) as [n Hn]. rewrite Hn, app_assoc. unfold Dir at 1. rewrite removelast_last. by eexists. }
    destruct (WriteFile_ok _ _ _ _ Hw) as [Hf _].
    assert (∀ q, tree (fs h') destination !! q = if bool_decide (q = r) then Some (FileEntry content) else tree (fs h2) destination !! q) as Hq.
    { intros q. rewrite !tree_lookup, Hf. case_bool_decide as E; [subst q; by rewrite lookup_insert_eq|].
      apply lookup_insert_ne. intros E'. by apply app_inv_head in E'. }
    apply Hvisit; [|by rewrite Hq, bool_decide_true]. pose proof Hc2 as (Hs & Hd & _).
    apply (copying_mono _ _ _ _ (fs h2)); [done| | |].
    + pose proof (WriteFile_same_tree source (destination ++ r) content (apart_under _ _ _ (apart_sym _ _ Ha)) h2) as E.
      rewrite Hw in E. cbn in E. unfold same_tree in E. congruence.
    + apply map_subseteq_spec. intros q x. rewrite Hq. case_bool_decide; [subst; congruence|by apply map_subseteq_spec].
    + intros q x Hx. rewrite Hq. case_bool_decide; [subst|done]. apply map_subseteq_spec with (x := x) (i := r) in Hd; congruence.
  - apply Hvisit.
    + eapply copying_make; [exact Hclosed|done|exact Hc| |right; by exists r|exact H].
      intros r' [s Hs]. rewrite <-app_assoc in Hs. apply app_inv_head in Hs. destruct (decide (s = [])) as [->|Hsn]; [|by eapply Hclosed].
      rewrite app_nil_r in Hs. by subst.
    + destruct (MkdirAll_ok _ _ _ H) as [Hd _]. unfold is_dir in Hd. rewrite tree_lookup.
      apply orb_true_iff in Hd as [Hd%bool_decide_eq_true|Hd%bool_decide_eq_true]; [by apply app_eq_nil in Hd as [? _]|done].
  - done.
Qed.

(** A copy that succeeds is exact. *)
Lemma copyTree_copies source destination h h' :
  rooted (fs h) → apart source destination → tree (fs h) destination = ∅ →
  copyTree source destination h = (h', Ok tt) → tree (fs h') destination = tree (fs h) source.
Proof.
  intros Hroot Ha Hempty H. apply io_bind_ok in H as (h1 & l & Hw & H). apply reading_ok in Hw as [E1 Hw].
  destruct (fs h !! source) eqn:Hsrc; [|done]. injection Hw as Hl. set (t := tree (fs h) source) in *.
  assert (source ≠ []) as Hne by (intros ->; destruct Ha as [[] _]; apply prefix_nil).
  assert (∀ r r' s e, t !! r = Some e → r = r' ++ s → s ≠ [] → t !! r' = Some DirEntry) as Hclosed.
  { intros r r' s e' He ->. by eapply tree_parent. }
  assert (∀ x, x ∈ l → t !! x.1 = Some x.2) as Hin.
  { intros [r e'] Hx. rewrite <-Hl, merge_sort_Permutation in Hx. by apply elem_of_map_to_list in Hx. }
  assert (∀ r, is_Some (t !! r) → r ∈ l.*1) as Hall.
  { intros r [e' He']. apply list_elem_of_fmap. exists (r, e'). split; [done|]. rewrite <-Hl, merge_sort_Permutation. by apply elem_of_map_to_list. }
  assert (copying t source destination [] (fs h1)) as Hc0.
  { rewrite E1. split; [done|]. split; [rewrite Hempty; apply map_empty_subseteq|]. intros r Hr. by apply not_elem_of_nil in Hr. }
  assert (copying t source destination (reverse l.*1 ++ []) (fs h')) as (_ & Hsub & Hv).
  { clear -Hclosed Ha Hin Hc0 H. revert H Hc0. generalize (@nil path) as visited. revert h1.
    induction l as [|[r e] l IH]; intros h1 visited H Hc; cbn [each] in H; [by injection H as <-|].
    apply io_bind_ok in H as (h2 & [] & H1 & H2). rewrite fmap_cons, reverse_cons, <-app_assoc. apply (IH ltac:(set_solver) h2); [done|].
    eapply copy_entry_copies; [exact Hclosed|done|apply (Hin (r, e)), list_elem_of_here|exact Hc|exact H1]. }
  apply map_eq. intros r. destruct (t !! r) as [e'|] eqn:He'.
  - destruct (Hv r) as (e2 & He2 & ->); [|congruence]. rewrite app_nil_r, elem_of_reverse. by apply Hall.
  - destruct (tree (fs h') destination !! r) as [e'|] eqn:He2; [|done]. eapply map_subseteq_spec in He2; [|exact Hsub]. congruence.
Qed.

(** ** Checksums *)

(** The files of a tree, in the order their names are digested. *)
Definition content_of (e : entry) : option string :=
  match e with FileEntry c => Some c | OtherEntry through => through | DirEntry => None end.
Definition files_of (t : gmap path entry) : list (string * string) :=
  omap (λ '(r, e), (relative r,.) <$> content_of e) (List.filter not_dir (merge_sort path_le (map_to_list t))).

Section Facts.
Context {digest : Digest}.

Definition checksum_of (t : gmap path entry) : string := digestOf (manifest (files_of t)).

Lemma read_all_ok root l h h' files :
  read_all root l h = (h', Ok files) → fs h' = fs h ∧
  files = omap (λ r, (relative r,.) <$> (fs h !! (root ++ r) ≫= content_of)) l.
Proof.
  revert h files. induction l as [|r l IH]; intros h files H; cbn [read_all] in H; [by injection H as <- <-|].
  apply io_bind_ok in H as (h1 & c & Hr & H). apply reading_ok in Hr as [E1 Hr].
  apply io_bind_ok in H as (h2 & rest & Hl & H). injection H as <- <-. destruct (IH _ _ Hl) as [E2 ->].
  split; [congruence|]. cbn [omap list_omap]. rewrite E1. destruct (fs h !! (root ++ r)) as [[]|]; cbn in *; try done; simplify_eq; try done.
  destruct through; by simplify_eq.
Qed.

(** A checksum is a function of the files, and taking it changes nothing. *)
Lemma checksumTree_ok root h h' c :
  checksumTree root h = (h', Ok c) → fs h' = fs h ∧ c = checksum_of (tree (fs h) root) ∧ is_Some (fs h !! root).
Proof.
  intros H. unfold checksumTree in H. apply io_bind_ok in H as (h1 & l & Hw & H).
  apply wrapping_ok, reading_ok in Hw as [E1 Hw]. destruct (fs h !! root) eqn:Hroot; [|done]. injection Hw as <-.
  apply io_bind_ok in H as (h2 & files & Hr & H). injection H as <- <-. apply read_all_ok in Hr as [E2 ->].
  split; [congruence|]. split; [|done]. unfold checksum_of, files_of. do 2 f_equal. rewrite E1.
  assert (∀ x, x ∈ List.filter not_dir (merge_sort path_le (map_to_list (tree (fs h) root))) → fs h !! (root ++ x.1) = Some x.2) as Hin.
  { intros [r e'] Hx. apply list_elem_of_In, List.filter_In in Hx as [Hx _]. apply list_elem_of_In in Hx.
    rewrite merge_sort_Permutation in Hx. apply elem_of_map_to_list in Hx. by rewrite tree_lookup in Hx. }
  induction (List.filter not_dir _) as [|[r e'] l IH]; [done|]. cbn [fmap list_fmap omap list_omap fst].
  pose proof (Hin (r, e') (list_elem_of_here _ _)) as He. cbn [fst snd] in He. rewrite He. cbn [mbind option_bind]. rewrite IH; [done|].
  intros x Hx. apply Hin. by right.
Qed.

Lemma checksumTree_respects (R : FS → FS → Prop) `{!PreOrder R} root : respects R (checksumTree root).
Proof.
  unfold checksumTree. io_frame. generalize (List.filter not_dir a).*1 as l. intros l.
  induction l as [|r l IH]; cbn [read_all]; io_frame.
Qed.

(** Names and contents without zero bytes can be read back from what is digested. *)
Definition text_files (l : list (string * string)) : Prop :=
  Forall (λ x, no_zero_byte x.1 = true ∧ no_zero_byte x.2 = true) l.

Lemma manifest_inj l1 l2 : text_files l1 → text_files l2 → manifest l1 = manifest l2 → l1 = l2.
Proof.
  intros H1. revert l2. induction H1 as [|[n1 c1] l1 [Hn1 Hc1] _ IH]; intros [|[n2 c2] l2] H2 H; [done|..].
  - cbn [manifest] in H. symmetry in H. by destruct n2.
  - cbn [manifest] in H. by destruct n1.
  - apply Forall_cons in H2 as [[Hn2 Hc2] H2]. cbn [manifest fst snd] in *.
    destruct (zero_split _ _ _ _ Hn1 Hn2 H) as [-> H']. destruct (zero_split _ _ _ _ Hc1 Hc2 H') as [-> H''].
    by rewrite (IH l2).
Qed.

Lemma same_checksum t1 t2 :
  checksum_of t1 = checksum_of t2 → text_files (files_of t1) → text_files (files_of t2) →
  files_of t1 = files_of t2 ∨ collision [manifest (files_of t1); manifest (files_of t2)].
Proof.
  intros H H1 H2. destruct (decide (manifest (files_of t1) = manifest (files_of t2))) as [He|Hne].
  - left. by apply manifest_inj.
  - right. eexists _, _. split; [by left|]. split; [by right; left|]. by split.
Qed.

(** ** Replacing a volume *)

Lemma Rename_found old new h h' e :
  is_Some (fs h !! old) → is_dir (fs h) (Dir new) = true → Rename old new h = (h', Err e) → IsNotExist e = false.
Proof.
  intros [x Hx] Hd H. unfold Rename, syscall in H.
  assert (e = ErrIO ∨ (rename_in (fs h) old new).2 = Err e) as [->|Hr].
  { destruct (rename_in (fs h) old new) as [f r]. destruct (faults h) as [|[n|] rest]; simplify_eq; auto. }
  - done.
  - unfold rename_in in Hr. rewrite Hx, Hd in Hr. destruct x, (fs h !! new) as [[]|]; cbn in Hr; simplify_eq; try done;
      repeat case_bool_decide; cbn in *; by simplify_eq.
Qed.

Lemma tree_at f p : tree f p !! [] = f !! p.
Proof. by rewrite tree_lookup, app_nil_r. Qed.

(** What a replacement of [target] that was not completed leaves, whatever failed: the old
    tree, or nothing with the old tree set aside. *)
Definition set_aside (target : path) (old : gmap path entry) (f : FS) : Prop :=
  tree f target = old ∨ tree f target = ∅ ∧ tree f (suffixed target ".replaced") = old.

Lemma suffix_inj name s t : name +:+ s = name +:+ t → s = t.
Proof.
  induction name as [|c name IH]; [done|]. intros H. apply IH.
  change (String c (name +:+ s) = String c (name +:+ t)) in H. by injection H.
Qed.

Lemma respects_run (R : FS → FS → Prop) {A} (m : io A) h h' r : respects R m → m h = (h', r) → R (fs h) (fs h').
Proof. intros Hm H. specialize (Hm h). by rewrite H in Hm. Qed.

Lemma swap_in_whole p name suffix e1 e2 h h' r :
  let target := p ++ [name] in let staging := p ++ [name +:+ suffix] in
  suffix ≠ "" → suffix ≠ ".replaced" → rooted (fs h) → is_Some (fs h !! target) → swap_in staging target e1 e2 h = (h', r) →
  match r with
  | Ok _ => tree (fs h') target = tree (fs h) staging
  | Err _ => set_aside target (tree (fs h) target) (fs h')
  end.
Proof.
  intros target staging Hs1 Hs2 Hroot Hsome H. set (previous := p ++ [name +:+ ".replaced"]).
  assert (apart target staging) as Ats by by apply apart_below, apart_names, append_ne.
  assert (apart target previous) as Atp by by apply apart_below, apart_names, append_ne.
  assert (apart staging previous) as Asp.
  { apply apart_below, apart_names. intros E%suffix_inj. done. }
  unfold set_aside. unfold swap_in in H.
  replace (suffixed target ".replaced") with previous in * by by unfold target; rewrite suffixed_snoc.
  unfold io_bind at 1, ignoring at 1 in H. destruct (RemoveAll previous h) as [h1 r1] eqn:H1. cbn [fst] in H.
  pose proof (respects_run _ _ _ _ _ (RemoveAll_same_tree target previous Atp) H1) as T1.
  pose proof (respects_run _ _ _ _ _ (RemoveAll_same_tree staging previous Asp) H1) as S1.
  pose proof (respects_run _ _ _ _ _ (RemoveAll_rooted previous) H1 Hroot) as Hroot1. unfold same_tree in T1, S1.
  assert (is_Some (fs h1 !! target)) as Hsome1 by by rewrite <-tree_at, T1, tree_at.
  unfold io_bind at 1, attempt_io at 1 in H. destruct (Rename target previous h1) as [h2 [[]|e]] eqn:H2.
  - destruct (Rename_moves _ _ _ _ H2 Atp) as [P2 T2].
    pose proof (respects_run _ _ _ _ _ (Rename_same_tree staging target previous (apart_sym _ _ Ats) Asp) H2) as S2.
    unfold same_tree in S2. unfold io_bind, attempt_io in H. cbn [io_ret] in H.
    destruct (Rename staging target h2) as [h3 [[]|e]] eqn:H3.
    + destruct (Rename_moves _ _ _ _ H3 (apart_sym _ _ Ats)) as [T3 _]. unfold ignoring in H.
      pose proof (RemoveAll_same_tree target previous Atp h3) as T4. unfold same_tree in T4. injection H as <- <-. congruence.
    + apply Rename_failed in H3. unfold ignoring in H. cbn [io_err] in H. injection H as <- <-.
      pose proof (RemoveAll_same_tree target staging Ats (Rename previous target h3).1) as T5.
      pose proof (RemoveAll_same_tree previous staging (apart_sym _ _ Asp) (Rename previous target h3).1) as P5.
      unfold same_tree in T5, P5. destruct (Rename previous target h3) as [h4 [[]|e4]] eqn:H4; cbn [fst] in *.
      * destruct (Rename_moves _ _ _ _ H4 (apart_sym _ _ Atp)) as [T4 _]. left. congruence.
      * apply Rename_failed in H4. right. split; congruence.
  - pose proof (Rename_failed _ _ _ _ _ H2) as E2. rewrite (Rename_found target previous h1 h2 e) in H; [|done| |done].
    + unfold io_bind, ignoring in H. cbn [io_err] in H. injection H as <- <-. left.
      pose proof (RemoveAll_same_tree target staging Ats h2) as T3. unfold same_tree in T3. congruence.
    + unfold previous, Dir. rewrite removelast_last. destruct Hsome1 as [x Hx]. by eapply Hroot1.
Qed.

Lemma checksumTree_same root h : fs (checksumTree root h).1 = fs h.
Proof.
  assert (PreOrder (λ f g : FS, g = f)) as Hp by (split; [by intros f|]; intros f g k -> ->; done).
  exact (checksumTree_respects (λ f g, g = f) root h).
Qed.

(** Where restored data comes from is apart from the volume and from what replacing it uses. *)
Definition away (source p : path) (name : string) : Prop := ∀ suffix, apart source (p ++ [name +:+ suffix]).

Lemma away_self source p name : away source p name → apart source (p ++ [name]).
Proof. intros H. specialize (H ""). by rewrite append_empty in H. Qed.

Lemma copy_staged source p name suffix h h' :
  rooted (fs h) → suffix ≠ "" → away source p name → tree (fs h) (p ++ [name +:+ suffix]) = ∅ →
  copyTree source (p ++ [name +:+ suffix]) h = (h', Ok tt) →
  rooted (fs h') ∧ tree (fs h') (p ++ [name +:+ suffix]) = tree (fs h) source ∧
  tree (fs h') (p ++ [name]) = tree (fs h) (p ++ [name]).
Proof.
  intros Hroot Hs Ha Hempty H. split; [|split].
  - eapply (respects_run _ _ _ _ _ (copyTree_rooted _ _ _) H Hroot).
    Unshelve. by destruct p.
  - by apply (copyTree_copies _ _ _ _ Hroot (Ha suffix) Hempty).
  - eapply (respects_run _ _ _ _ _ (copyTree_same_tree _ _ _ _) H).
    Unshelve. by apply apart_below, apart_names, append_ne.
Qed.

Lemma restore_from_whole v record a ref source fetched p h h' r :
  VR_Path record = p ++ [VR_Name record] → rooted (fs h) → is_Some (fs h !! VR_Path record) → away source p (VR_Name record) →
  restore_from v record a ref source fetched h = (h', r) →
  match r with
  | Ok ev => tree (fs h') (VR_Path record) = tree (fs h) source ∧
             observed ev "checksum" = checksum_of (tree (fs h) source) ∧ mismatch ref (observed ev "checksum") = false
  | Err _ => set_aside (VR_Path record) (tree (fs h) (VR_Path record)) (fs h')
  end.
Proof.
  intros Hpath Hroot Hsome Haway H. unfold restore_from in H. rewrite Hpath, suffixed_snoc in *.
  set (name := VR_Name record) in *. set (target := p ++ [name]) in *. set (staging := p ++ [name +:+ ".restoring"]) in *.
  assert (apart target staging) as Ats by by apply apart_below, apart_names, append_ne.
  unfold io_bind at 1 in H. pose proof (checksumTree_same source h) as E1.
  destruct (checksumTree source h) as [h1 [c|e]] eqn:H1; cbn [fst] in E1; [|injection H as <- <-; left; congruence].
  apply checksumTree_ok in H1 as (_ & -> & _). destruct (mismatch ref _) eqn:Hm; [injection H as <- <-; left; congruence|].
  rewrite <-E1 in Hroot, Hsome, Hm, H |- *. clear E1. set (c := checksum_of _) in *.
  unfold io_bind at 1, wrapping at 1 in H. destruct (RemoveAll staging h1) as [h2 r2] eqn:H2.
  pose proof (respects_run _ _ _ _ _ (RemoveAll_same_tree target staging Ats) H2) as T2.
  pose proof (respects_run _ _ _ _ _ (RemoveAll_same_tree source staging (Haway _)) H2) as S2. unfold same_tree in T2, S2.
  pose proof (respects_run _ _ _ _ _ (RemoveAll_rooted staging) H2 Hroot) as Hroot2.
  destruct r2 as [[]|e]; [|injection H as <- <-; left; congruence]. cbn [wrap_err] in H. apply RemoveAll_ok in H2 as G2.
  unfold io_bind at 1, attempt_io at 1 in H. destruct (copyTree source staging h2) as [h3 r3] eqn:H3.
  pose proof (respects_run _ _ _ _ _ (copyTree_same_tree target source staging Ats) H3) as T3. unfold same_tree in T3.
  destruct r3 as [[]|e].
  2: { unfold io_bind, ignoring in H. cbn [io_err] in H. injection H as <- <-. left.
       pose proof (RemoveAll_same_tree target staging Ats h3) as T4. unfold same_tree in T4. congruence. }
  destruct (copy_staged source p name ".restoring" h2 h3) as (Hroot3 & C3 & _); [done..|by rewrite G2, tree_cleared|done|]. fold staging in C3.
  unfold io_bind at 1, attempt_io at 1 in H. pose proof (checksumTree_same staging h3) as E4.
  destruct (checksumTree staging h3) as [h4 restored]. cbn [fst] in E4.
  destruct (negb _).
  { unfold io_bind, ignoring in H. cbn [io_err] in H. injection H as <- <-. left.
    pose proof (RemoveAll_same_tree target staging Ats h4) as T5. unfold same_tree in T5. congruence. }
  unfold io_bind at 1 in H. destruct (swap_in _ _ _ _ h4) as [h5 r5] eqn:H5.
  assert (is_Some (fs h4 !! target)) as Hs4 by (rewrite <-tree_at, E4, T3, T2, tree_at; done).
  pose proof (swap_in_whole p name ".restoring" _ _ h4 h5 r5 ltac:(done) ltac:(done) ltac:(by rewrite E4) Hs4 H5) as Hw.
  fold target staging in Hw. destruct r5 as [[]|e]; injection H as <- <-.
  - split; [congruence|]. split; [reflexivity|exact Hm].
  - by replace (tree (fs h1) target) with (tree (fs h4) target) by congruence.
Qed.

(** ** The layout of a node's storage *)

Record arranged (v : Volumes) : Prop := {
  arranged_roots : apart (vol_root v) (vol_snapshots v);
  arranged_records : ∀ name r, volumes v !! name = Some r →
    namePattern name = true ∧ VR_Name r = name ∧ VR_Path r = vol_root v ++ [name];
  arranged_state : apart (vol_snapshots v) (vol_state v) ∧ apart (vol_snapshots v) (suffixed (vol_state v) ".tmp") ∧
    apart (vol_root v) (vol_state v) ∧ apart (vol_root v) (suffixed (vol_state v) ".tmp") }.

(** What the node relies on in a backup store: fetching touches only where it is told to
    put the data, storing touches none of the node's own directories. *)
Record sound_store (v : Volumes) (store : BackupStore) : Prop := {
  Fetch_apart : ∀ volume id destination d, apart d destination → respects (same_tree d) (store_Fetch store volume id destination);
  Fetch_rooted : ∀ volume id destination, destination ≠ [] → respects keeps_rooted (store_Fetch store volume id destination);
  Put_apart : ∀ volume id source d, namePattern volume = true → namePattern id = true →
    vol_root v `prefix_of` d ∨ vol_snapshots v `prefix_of` d → respects (same_tree d) (store_Put store volume id source) }.

Lemma snapshot_path_label v name id :
  namePattern name = true → namePattern id = true → snapshot_path v name id = vol_snapshots v ++ [name; id].
Proof. intros H1 H2. unfold snapshot_path. by rewrite !Join_label, <-app_assoc. Qed.

Lemma dotted_path v name id u :
  namePattern name = true → namePattern id = true → split_on separator (String dot u) = [String dot u] →
  snapshot_path v name (id +:+ String dot u) = vol_snapshots v ++ [name; id +:+ String dot u].
Proof. intros H1 H2 Hu. unfold snapshot_path. by rewrite (Join_label _ _ H1), (Join_dotted _ _ _ H2 Hu), <-app_assoc. Qed.

Lemma Stat_same p h h' r : Stat p h = (h', r) → fs h' = fs h.
Proof. intros H. replace h' with (Stat p h).1 by (by rewrite H). apply reading_same. Qed.

Lemma snapshots_away v name id : apart (vol_root v) (vol_snapshots v) → away (vol_snapshots v ++ id) (vol_root v) name.
Proof. intros H suffix. by apply apart_sym, apart_roots. Qed.

Lemma snapshots_ne v : apart (vol_root v) (vol_snapshots v) → vol_snapshots v ≠ [].
Proof. intros [_ H] E. rewrite E in H. apply H, prefix_nil. Qed.

(** A restore that succeeds has put data with the recorded checksum into the volume; one
    that fails has left the old. *)
Lemma restore_replaces v a ref record h h' r :
  arranged v → (∀ store, vol_backups v = Some store → sound_store v store) →
  volumes v !! VolumeRef_Name ref = Some record → namePattern (Action_Snapshot a) = true →
  rooted (fs h) → is_Some (fs h !! VR_Path record) → restore v a ref h = (h', r) →
  match r with
  | Ok ev => observed ev "checksum" = checksum_of (tree (fs h') (VR_Path record)) ∧ mismatch ref (observed ev "checksum") = false
  | Err _ => set_aside (VR_Path record) (tree (fs h) (VR_Path record)) (fs h')
  end.
Proof.
  intros Hv Hstore Hrec Hid Hroot Hsome H. destruct (arranged_records v Hv _ _ Hrec) as (Hname & En & Ep).
  pose proof (arranged_roots v Hv) as Hroots. unfold restore in H. rewrite Hrec in H.
  case_bool_decide as Ho; [injection H as <- <-; by left|]. case_bool_decide as Hi; [injection H as <- <-; by left|].
  unfold io_bind at 1, attempt_io at 1 in H. destruct (Stat _ h) as [h1 r1] eqn:H1.
  apply Stat_same in H1. rewrite <-H1 in Hroot, Hsome |- *. clear H1. rewrite En in *.
  assert (VR_Path record = vol_root v ++ [VR_Name record]) as Ep' by by rewrite En.
  destruct r1 as [[]|e1].
  - rewrite snapshot_path_label in H by done.
    pose proof (restore_from_whole v record a ref _ false (vol_root v) h1 h' r Ep' Hroot Hsome
      ltac:(rewrite En; by apply snapshots_away) H) as Hw.
    destruct r as [ev|e]; [|done]. destruct Hw as (W1 & W2 & W3). by rewrite W1.
  - destruct (vol_backups v) as [store|] eqn:Hb; [|injection H as <- <-; by left].
    specialize (Hstore store eq_refl). change ".fetched" with (String dot "fetched") in H. rewrite (dotted_path v _ _ "fetched" Hname Hid eq_refl) in H.
    set (fetched := vol_snapshots v ++ _) in H.
    assert (away fetched (vol_root v) (VolumeRef_Name ref)) as Haway by by apply snapshots_away.
    assert (apart (VR_Path record) fetched) as Ha by (rewrite Ep; by apply apart_sym, away_self).
    unfold io_bind in H. destruct (store_Fetch store _ _ fetched h1) as [h2 r2] eqn:H2.
    pose proof (respects_run _ _ _ _ _ (Fetch_apart v store Hstore _ _ _ _ Ha) H2) as T2. unfold same_tree in T2.
    destruct r2 as [[]|e2]; [|injection H as <- <-; by left].
    assert (rooted (fs h2)) as Hroot2.
    { eapply (respects_run _ _ _ _ _ (Fetch_rooted v store Hstore _ _ _ _) H2 Hroot). Unshelve.
      unfold fetched. pose proof (snapshots_ne v Hroots). by destruct (vol_snapshots v). }
    assert (is_Some (fs h2 !! VR_Path record)) as Hsome2 by by rewrite <-tree_at, T2, tree_at.
    unfold deferring in H. destruct (restore_from v record a ref fetched true h2) as [h3 r3] eqn:H3. injection H as <- <-.
    pose proof (restore_from_whole v record a ref fetched true (vol_root v) h2 h3 r3 Ep' Hroot2 Hsome2 ltac:(by rewrite En) H3) as Hw.
    pose proof (RemoveAll_same_tree (VR_Path record) fetched Ha h3) as T4. unfold same_tree in T4.
    assert (apart (suffixed (VR_Path record) ".replaced") fetched) as Har.
    { rewrite Ep, suffixed_snoc. apply apart_sym, Haway. }
    pose proof (RemoveAll_same_tree _ fetched Har h3) as T5. unfold same_tree in T5. unfold set_aside in *. rewrite T4, T5, <-T2.
    destruct r3 as [ev|e]; [|done]. destruct Hw as (W1 & W2 & W3). by rewrite W1.
Qed.

(** ** Snapshots *)

Lemma staged_ok staging destination fill m1 m2 h h' c :
  apart staging destination → staged staging destination fill m1 m2 h = (h', Ok c) →
  ∃ h1, fill h = (h1, Ok tt) ∧ c = checksum_of (tree (fs h1) staging) ∧ tree (fs h') destination = tree (fs h1) staging ∧
    ∀ d, apart d staging → apart d destination → tree (fs h') d = tree (fs h1) d.
Proof.
  intros Ha H. unfold staged in H. unfold io_bind at 1, attempt_io at 1 in H. destruct (fill h) as [h1 [[]|e]] eqn:H1; [|done].
  unfold io_bind at 1, attempt_io at 1 in H. destruct (checksumTree staging h1) as [h2 [c'|e]] eqn:H2; [|done].
  apply checksumTree_ok in H2 as (E2 & -> & _). unfold io_bind at 1, attempt_io at 1 in H.
  destruct (Rename staging destination h2) as [h3 [[]|e]] eqn:H3; [|done]. injection H as <- <-.
  exists h1. split; [done|]. split; [done|]. rewrite <-E2. split; [by apply Rename_moves|].
  intros d Hd1 Hd2. exact (respects_run _ _ _ _ _ (Rename_same_tree d staging destination Hd1 Hd2) H3).
Qed.

Lemma snapshot_takes v a ref record h h' ev :
  arranged v → volumes v !! VolumeRef_Name ref = Some record → rooted (fs h) → snapshot v a ref h = (h', Ok ev) →
  let taken := vol_snapshots v ++ [VolumeRef_Name ref; Action_Snapshot a] in
  namePattern (Action_Snapshot a) = true ∧ observed ev "checksum" = checksum_of (tree (fs h') taken) ∧
  tree (fs h') (VR_Path record) = tree (fs h) (VR_Path record) ∧
  (fs h !! taken = None → tree (fs h') taken = tree (fs h) (VR_Path record)).
Proof.
  intros Hv Hrec Hroot H taken. destruct (arranged_records v Hv _ _ Hrec) as (Hname & En & Ep).
  pose proof (arranged_roots v Hv) as Hroots. unfold snapshot in H. rewrite Hrec in H.
  case_bool_decide as Ho; [done|]. case_bool_decide as Hi; [done|]. destruct (snapshotIDPattern _) eqn:Hid; [|done]. cbn [negb] in H.
  unfold snapshotIDPattern in Hid. split; [done|]. rewrite En, snapshot_path_label in H by done. fold taken in H.
  assert (apart (VR_Path record) taken) as Ha by (rewrite Ep; by apply apart_roots).
  unfold io_bind at 1, attempt_io at 1 in H. destruct (Stat taken h) as [h1 r1] eqn:H1.
  pose proof (Stat_same _ _ _ _ H1) as E1.
  destruct r1 as [[]|e1].
  - apply reading_ok in H1 as [_ H1]. apply io_bind_ok in H as (h2 & c & Hc & H). injection H as <- <-.
    apply checksumTree_ok in Hc as (E2 & -> & _). split; [by rewrite E2|]. split; [congruence|].
    intros Hn. by rewrite Hn in H1.
  - unfold taken in H. rewrite suffixed_pair in H. fold taken in H. set (staging := vol_snapshots v ++ [VolumeRef_Name ref; _]) in H.
    assert (apart staging taken) as Ast.
    { unfold staging, taken. apply apart_below, (apart_below [VolumeRef_Name ref]), apart_names. intros E. symmetry in E.
      by apply append_ne in E. }
    assert (apart (VR_Path record) staging) as Aps by (rewrite Ep; by apply apart_roots).
    apply io_bind_ok in H as (h2 & [] & H2 & H). apply wrapping_ok in H2.
    pose proof (respects_run _ _ _ _ _ (RemoveAll_same_tree _ _ Aps) H2) as T2. unfold same_tree in T2.
    pose proof (respects_run _ _ _ _ _ (RemoveAll_rooted staging) H2 ltac:(by rewrite E1)) as Hroot2. apply RemoveAll_ok in H2.
    apply io_bind_ok in H as (h3 & c & H3 & H). injection H as <- <-.
    destruct (staged_ok _ _ _ _ _ _ _ _ Ast H3) as (h4 & H4 & -> & D4 & F4).
    pose proof (copyTree_copies _ _ _ _ Hroot2 Aps ltac:(by rewrite H2, tree_cleared) H4) as C4.
    pose proof (respects_run _ _ _ _ _ (copyTree_same_tree _ _ _ Aps) H4) as T4. unfold same_tree in T4.
    split; [change (checksum_of (tree (fs h4) staging) = checksum_of (tree (fs h3) taken)); congruence|].
    split; [rewrite F4 by done; congruence|]. intros _. congruence.
Qed.

(** Files whose checksum is the one a snapshot reported are the files it took. *)
Lemma recorded_files v a ref record h0 h1 ev0 ref' t :
  arranged v → volumes v !! VolumeRef_Name ref = Some record → rooted (fs h0) →
  fs h0 !! (vol_snapshots v ++ [VolumeRef_Name ref; Action_Snapshot a]) = None →
  snapshot v a ref h0 = (h1, Ok ev0) → VolumeRef_Checksum ref' = observed ev0 "checksum" → VolumeRef_Checksum ref' ≠ "" →
  mismatch ref' (checksum_of t) = false →
  text_files (files_of (tree (fs h0) (VR_Path record))) → text_files (files_of t) →
  files_of t = files_of (tree (fs h0) (VR_Path record)) ∨
  collision [manifest (files_of t); manifest (files_of (tree (fs h0) (VR_Path record)))].
Proof.
  intros Hv Hrec Hroot Hfresh Htaken Hc Hne Hm Hb Ha.
  destruct (snapshot_takes v a ref record h0 h1 ev0 Hv Hrec Hroot Htaken) as (_ & Hc0 & _ & Htree). specialize (Htree Hfresh).
  unfold mismatch in Hm. rewrite bool_decide_true in Hm by done. cbn in Hm.
  apply bool_decide_eq_false, dec_stable in Hm. apply same_checksum; [|done..]. congruence.
Qed.

(** C22: what a restore brings back is what the snapshot took, or nothing is lost.  A snapshot
    was taken under a new label and reported with its checksum.  Whatever has happened to
    the machine since and whatever calls fail, a restore of an existing volume that carries
    this checksum and succeeds has put exactly the files as they were when the snapshot was
    taken into the volume, from whichever copy, provided neither has a zero byte in a name
    or a content (see [checksum_ambiguous] for files that do), or the two sets of files are
    digested to the same SHA-256; and one that fails, or is interrupted, has left the volume
    as it was, or set it aside whole.  The directories of the node lie apart, and a backup
    store writes only where it is told to. *)
Theorem restore_brings_back v a ref record h0 h1 ev0 w b ref' record' h2 h3 r
    (Hv : arranged v) (Hrec : volumes v !! VolumeRef_Name ref = Some record) (Hroot0 : rooted (fs h0))
    (Hfresh : fs h0 !! (vol_snapshots v ++ [VolumeRef_Name ref; Action_Snapshot a]) = None)
    (Htaken : snapshot v a ref h0 = (h1, Ok ev0))
    (Hw : arranged w) (Hstore : ∀ store, vol_backups w = Some store → sound_store w store)
    (Hrec' : volumes w !! VolumeRef_Name ref' = Some record') (Hid : namePattern (Action_Snapshot b) = true)
    (Hroot2 : rooted (fs h2)) (Hthere : is_Some (fs h2 !! VR_Path record'))
    (Hchecksum : VolumeRef_Checksum ref' = observed ev0 "checksum") (Hne : VolumeRef_Checksum ref' ≠ "")
    (Hrestored : restore w b ref' h2 = (h3, r)) :
  let before := files_of (tree (fs h0) (VR_Path record)) in
  let after := files_of (tree (fs h3) (VR_Path record')) in
  match r with
  | Ok _ => text_files before → text_files after → after = before ∨ collision [manifest after; manifest before]
  | Err _ => set_aside (VR_Path record') (tree (fs h2) (VR_Path record')) (fs h3)
  end.
Proof.
  intros before after.
  pose proof (restore_replaces w b ref' record' h2 h3 r Hw Hstore Hrec' Hid Hroot2 Hthere Hrestored) as H. destruct r as [ev|]; [|done].
  intros Hb Ha. destruct H as [Hc Hm]. rewrite Hc in Hm. exact (recorded_files v a ref record h0 h1 ev0 ref' _ Hv Hrec Hroot0 Hfresh Htaken Hchecksum Hne Hm Hb Ha).
Qed.

(** ** Snapshots do not change *)

Definition keeps_dir (d : path) (f g : FS) : Prop := f !! d = Some DirEntry → tree g d = tree f d.
#[export] Instance keeps_dir_preorder d : PreOrder (keeps_dir d).
Proof.
  split; [by intros f|]. intros f g k H1 H2 Hf. rewrite H2; [by apply H1|]. by rewrite <-tree_at, H1, tree_at.
Qed.

Lemma respects_mono (R S : FS → FS → Prop) {A} (m : io A) : (∀ f g, R f g → S f g) → respects R m → respects S m.
Proof. intros H Hm h. apply H, Hm. Qed.
Lemma same_keeps d {A} (m : io A) : respects (same_tree d) m → respects (keeps_dir d) m.
Proof. apply respects_mono. intros f g H _. exact H. Qed.

Lemma respects_deferring (R : FS → FS → Prop) `{!PreOrder R} {A} cleanup (m : io A) :
  respects R cleanup → respects R m → respects R (deferring cleanup m).
Proof.
  intros Hc Hm h. specialize (Hm h). unfold deferring. destruct (m h) as [h1 r]. etransitivity; [exact Hm|apply Hc].
Qed.

(** Nothing is moved over a directory. *)
Lemma Rename_onto_dir d old : apart d old → respects (keeps_dir d) (Rename old d).
Proof.
  intros Ha h Hd. destruct (Rename old d h) as [h' [[]|e]] eqn:H; cbn [fst]; [|by apply Rename_failed in H as ->].
  apply syscall_ok in H. unfold rename_in in H. rewrite Hd in H. destruct (fs h !! old) as [[]|]; discriminate H.
Qed.

Lemma apart_not d p : apart d p → ¬ d `prefix_of` p.
Proof. by intros [H _]. Qed.

(** The lemmas about calls, for a directory that has to stay. *)
Ltac io_keep :=
  repeat (first
    [ progress cbn [wrap_err negb]
    | io_step
    | progress cbv zeta
    | apply respects_deferring; [apply _|..]
    | apply checksumTree_respects, _
    | apply same_keeps, RemoveAll_same_tree; solve [eauto]
    | apply same_keeps, MkdirAll_same_tree; solve [eauto using apart_not]
    | apply same_keeps, WriteFile_same_tree; solve [eauto using apart_not]
    | apply same_keeps, copyTree_same_tree; solve [eauto]
    | apply same_keeps, Rename_same_tree; solve [eauto]
    | apply Rename_onto_dir; solve [eauto] ]).

Lemma swap_in_keeps d staging target e1 e2 :
  apart d staging → apart d target → apart d (suffixed target ".replaced") → respects (keeps_dir d) (swap_in staging target e1 e2).
Proof. intros H1 H2 H3. unfold swap_in. io_keep. Qed.

Lemma staged_keeps d staging destination fill m1 m2 :
  apart d staging → apart d destination ∨ d = destination → respects (keeps_dir d) fill →
  respects (keeps_dir d) (staged staging destination fill m1 m2).
Proof. intros H1 H2 Hf. unfold staged. destruct H2 as [H2| ->]; io_keep; done. Qed.

Context {codec : VolumeCodec}.

Definition label_or_none (s : string) : Prop := s = "" ∨ namePattern s = true.

Section Immutable.
Context (v : Volumes) (name id : string).
Context (Hv : arranged v) (Hname : namePattern name = true) (Hid : namePattern id = true)
  (Hstore : ∀ store, vol_backups v = Some store → sound_store v store).
Let d : path := vol_snapshots v ++ [name; id].

Lemma apart_volume r : apart d (vol_root v ++ r).
Proof. apply apart_sym, apart_roots, (arranged_roots v Hv). Qed.

Lemma apart_dotted name' id' u : apart d (vol_snapshots v ++ [name'; id' +:+ String dot u]).
Proof.
  apply apart_below. destruct (decide (name = name')) as [->|Hne]; [|by apply apart_names].
  apply (apart_below [name']), apart_names. destruct (namePattern_label id Hid) as [Hl _]. by apply label_no_char.
Qed.

Lemma apart_snapshot name' id' : apart d (vol_snapshots v ++ [name'; id']) ∨ d = vol_snapshots v ++ [name'; id'].
Proof.
  destruct (decide (name = name')) as [->|Hne]; [|left; by apply apart_below, apart_names].
  destruct (decide (id = id')) as [->|Hne]; [by right|left]. by apply apart_below, (apart_below [name']), apart_names.
Qed.

Lemma persist_keeps w : vol_state w = vol_state v → respects (keeps_dir d) (persist w).
Proof.
  intros E. destruct (arranged_state v Hv) as (H1 & H2 & _). unfold persist, writeAtomic. rewrite E.
  assert (apart d (vol_state v)) by (rewrite <-(app_nil_r (vol_state v)); by apply apart_roots).
  assert (apart d (suffixed (vol_state v) ".tmp")) by (rewrite <-(app_nil_r (suffixed _ _)); by apply apart_roots).
  io_keep.
Qed.

Lemma snapshot_keeps a ref : respects (keeps_dir d) (snapshot v a ref).
Proof.
  unfold snapshot. destruct (volumes v !! VolumeRef_Name ref) as [record|] eqn:Hrec; [|io_keep].
  destruct (arranged_records v Hv _ _ Hrec) as (Hn & En & Ep). destruct (bool_decide _); [io_keep|]. destruct (bool_decide _); [io_keep|].
  destruct (snapshotIDPattern (Action_Snapshot a)) eqn:Hp; [|io_keep]. cbn [negb]. rewrite En, snapshot_path_label by done.
  rewrite suffixed_pair. change ".partial" with (String dot "partial").
  pose proof (apart_dotted (VolumeRef_Name ref) (Action_Snapshot a) "partial") as Hd.
  io_keep. apply staged_keeps; [done|apply apart_snapshot|]. io_keep.
Qed.

Lemma verifyBackup_keeps a ref : label_or_none (Action_Snapshot a) → respects (keeps_dir d) (verifyBackup v a ref).
Proof.
  intros Ha. unfold verifyBackup. destruct (volumes v !! VolumeRef_Name ref) as [record|] eqn:Hrec; [|io_keep].
  destruct (arranged_records v Hv _ _ Hrec) as (Hn & En & Ep). case_bool_decide; [io_keep|]. destruct Ha as [?|Ha]; [done|]. rewrite En.
  change ".verify" with (String dot "verify"). rewrite (dotted_path v _ _ "verify" Hn Ha eq_refl).
  pose proof (apart_dotted (VolumeRef_Name ref) (Action_Snapshot a) "verify") as Hd. io_keep.
  apply same_keeps, Fetch_apart with v; [by apply Hstore|done].
Qed.

Lemma restore_from_keeps record a ref source fetched :
  VR_Path record = vol_root v ++ [VR_Name record] → respects (keeps_dir d) (restore_from v record a ref source fetched).
Proof.
  intros Ep. unfold restore_from. rewrite Ep, suffixed_snoc.
  pose proof (apart_volume [VR_Name record +:+ ".restoring"]) as H1. io_keep.
  apply swap_in_keeps; rewrite ?suffixed_snoc; apply apart_volume.
Qed.

Lemma restore_keeps a ref : label_or_none (Action_Snapshot a) → respects (keeps_dir d) (restore v a ref).
Proof.
  intros Ha. unfold restore. destruct (volumes v !! VolumeRef_Name ref) as [record|] eqn:Hrec; [|io_keep].
  destruct (arranged_records v Hv _ _ Hrec) as (Hn & En & Ep). destruct (bool_decide _); [io_keep|]. case_bool_decide; [io_keep|].
  destruct Ha as [?|Ha]; [done|]. rewrite En.
  change ".fetched" with (String dot "fetched"). rewrite (dotted_path v _ _ "fetched" Hn Ha eq_refl).
  pose proof (apart_dotted (VolumeRef_Name ref) (Action_Snapshot a) "fetched") as Hd. rewrite <-En in Ep.
  io_keep; try by apply restore_from_keeps. apply same_keeps, Fetch_apart with v; [by apply Hstore|done].
Qed.

Lemma adopt_keeps a ref : respects (keeps_dir d) (adopt v a ref).
Proof.
  unfold adopt. io_keep. match goal with H : volumes v !! _ = Some ?r |- _ => destruct (arranged_records v Hv _ _ H) as (Hn & En & Ep); rewrite Ep end.
  unfold copyTreeReplacing. rewrite suffixed_snoc. pose proof (apart_volume [VolumeRef_Name ref +:+ ".adopting"]) as Had. io_keep.
  apply swap_in_keeps; rewrite ?suffixed_snoc; apply apart_volume.
Qed.

Lemma backup_keeps a ref : label_or_none (Action_Snapshot a) → respects (keeps_dir d) (backup v a ref).
Proof.
  intros Ha. unfold backup. destruct (vol_backups v) as [store|]; [|io_keep].
  destruct (volumes v !! VolumeRef_Name ref) as [record|] eqn:Hrec; [|io_keep].
  destruct (arranged_records v Hv _ _ Hrec) as (Hn & En & _). case_bool_decide; [io_keep|]. destruct Ha as [?|Ha]; [done|].
  rewrite En. io_keep. apply same_keeps, Put_apart with v; [by apply Hstore|done..|]. right. by eexists.
Qed.

Lemma op_keeps (m : io Evidence) w h : respects (keeps_dir d) m → keeps_dir d (fs h) (fs (unchanged w m h).2.1).
Proof. intros H. exact (H h). Qed.

Lemma recorded_keeps w (m : io Evidence) h :
  vol_state w = vol_state v → respects (keeps_dir d) m → keeps_dir d (fs h) (fs (recorded w m h).2.1).
Proof. intros E H. unfold recorded. cbn [snd fst]. apply respects_bind; [apply _|by apply persist_keeps|done]. Qed.

Lemma create_keeps a ref h : namePattern (VolumeRef_Name ref) = true → keeps_dir d (fs h) (fs (create v a ref h).2.1).
Proof.
  intros Hn. unfold create. destruct (volumes v !! _); [apply op_keeps; io_keep|].
  rewrite Join_label by done. pose proof (apart_volume [VolumeRef_Name ref]) as Ha. unfold wrapping.
  assert (respects (keeps_dir d) (MkdirAll (vol_root v ++ [VolumeRef_Name ref]))) as Hm by io_keep.
  specialize (Hm h). destruct (MkdirAll _ h) as [h1 [[]|e]]; cbn [wrap_err fst snd] in *; [|done].
  etransitivity; [exact Hm|]. apply recorded_keeps; [done|io_keep].
Qed.

Lemma owner_keeps a ref h :
  keeps_dir d (fs h) (fs (attach v a ref h).2.1) ∧ keeps_dir d (fs h) (fs (detach v a ref h).2.1).
Proof.
  unfold attach, detach. split; (destruct (volumes v !! _) as [r|]; [|apply op_keeps; io_keep]); repeat case_match;
    first [solve [apply recorded_keeps; [done|io_keep]] | apply op_keeps; io_keep].
Qed.

Lemma execute_keeps modified a h :
  Action_Kind a ≠ ActionPruneSnapshots → Action_Kind a ≠ ActionTransferVolume →
  (∀ ref, Action_Volume a = Some ref → namePattern (VolumeRef_Name ref) = true) → label_or_none (Action_Snapshot a) →
  keeps_dir d (fs h) (fs (Volumes_Execute modified v a h).2.1).
Proof.
  intros H1 H2 Hr Hl. unfold Volumes_Execute. destruct (Action_Volume a) as [ref|]; [|apply op_keeps; io_keep].
  specialize (Hr ref eq_refl). destruct (Action_Kind a); try done; try solve [apply op_keeps; io_keep].
  - by apply create_keeps.
  - apply owner_keeps.
  - apply owner_keeps.
  - apply op_keeps, snapshot_keeps.
  - by apply op_keeps, restore_keeps.
  - by apply op_keeps, backup_keeps.
  - apply op_keeps. unfold quiesce. io_keep.
  - apply op_keeps, adopt_keeps.
  - by apply op_keeps, verifyBackup_keeps.
Qed.
End Immutable.

(** What happens to a node's storage: an action, or workloads that write their volumes. *)
Inductive storage_event := Acting (a : Action) | Writing (t : gmap path entry).

Definition storage_step (modified : path → Z) (v : Volumes) (h : Machine) (e : storage_event) : Volumes * Machine :=
  match e with
  | Acting a => let '(v, (h, _)) := Volumes_Execute modified v a h in (v, h)
  | Writing t => (v, mkMachine (grafted (fs h) (vol_root v) t) (faults h))
  end.
Definition storage_life (modified : path → Z) (v : Volumes) (h : Machine) (l : list storage_event) : Volumes * Machine :=
  foldl (λ '(v, h) e, storage_step modified v h e) (v, h) l.

(** Actions with valid names that neither prune nor receive a snapshot. *)
Definition ordinary (e : storage_event) : Prop :=
  match e with
  | Acting a => Action_Kind a ≠ ActionPruneSnapshots ∧ Action_Kind a ≠ ActionTransferVolume ∧
      (∀ ref, Action_Volume a = Some ref → namePattern (VolumeRef_Name ref) = true) ∧ label_or_none (Action_Snapshot a)
  | Writing _ => True
  end.

(** Two nodes' storage that differ in their records only. *)
Definition same_place (v w : Volumes) : Prop :=
  vol_root w = vol_root v ∧ vol_snapshots w = vol_snapshots v ∧ vol_state w = vol_state v ∧ vol_backups w = vol_backups v.

Lemma arranged_insert v name r :
  arranged v → namePattern name = true → VR_Name r = name → VR_Path r = vol_root v ++ [name] →
  arranged (v <| volumes ::= <[name := r]> |>).
Proof.
  intros [H1 H2 H3] Hn En Ep. split; [done| |done]. simpl_set. intros n r'. destruct (decide (n = name)) as [->|Hne].
  - rewrite lookup_insert_eq. by intros [= <-].
  - rewrite lookup_insert_ne by done. apply H2.
Qed.

Lemma execute_arranged modified v a h :
  arranged v → (∀ ref, Action_Volume a = Some ref → namePattern (VolumeRef_Name ref) = true) →
  arranged (Volumes_Execute modified v a h).1 ∧ same_place v (Volumes_Execute modified v a h).1.
Proof.
  intros Hv Hr. assert (arranged v ∧ same_place v v) as Hsame by done. unfold Volumes_Execute.
  destruct (Action_Volume a) as [ref|]; [|done]. specialize (Hr ref eq_refl).
  assert (∀ r, VR_Name r = VolumeRef_Name ref → VR_Path r = vol_root v ++ [VolumeRef_Name ref] →
    let w := v <| volumes ::= <[VolumeRef_Name ref := r]> |> in arranged w ∧ same_place v w) as Hins.
  { intros r E1 E2 w. split; [by apply arranged_insert|done]. }
  pose proof (arranged_records v Hv (VolumeRef_Name ref)) as Hrec.
  destruct (Action_Kind a); try done; unfold create, attach, detach, transfer.
  all: destruct (volumes v !! VolumeRef_Name ref) as [r|]; try (destruct (Hrec r eq_refl) as (_ & En & Ep)).
  all: repeat case_match; try done; cbn [fst recorded]; apply Hins; try done; by rewrite Join_label.
Qed.

(** A snapshot is what it was.  However many actions are carried out, whatever workloads
    write into their volumes and whatever calls fail in between, a snapshot that has been
    taken keeps exactly its content, as long as nothing is pruned and no snapshot is
    received from elsewhere. *)
Theorem snapshots_immutable modified v h l v' h' name id
    (Hv : arranged v) (Hstore : ∀ store, vol_backups v = Some store → sound_store v store)
    (Hname : namePattern name = true) (Hid : namePattern id = true) (Hl : Forall ordinary l)
    (Htaken : fs h !! (vol_snapshots v ++ [name; id]) = Some DirEntry)
    (Hlife : storage_life modified v h l = (v', h')) :
  tree (fs h') (vol_snapshots v ++ [name; id]) = tree (fs h) (vol_snapshots v ++ [name; id]).
Proof.
  revert v h Hv Hstore Htaken Hlife. induction Hl as [|e l He _ IH]; intros v h Hv Hstore Htaken Hlife.
  { by injection Hlife as <- <-. }
  unfold storage_life in Hlife. cbn [foldl] in Hlife. destruct (storage_step modified v h e) as [v1 h1] eqn:Hs.
  fold (storage_life modified v1 h1 l) in Hlife.
  assert (arranged v1 ∧ same_place v v1 ∧ tree (fs h1) (vol_snapshots v ++ [name; id]) = tree (fs h) (vol_snapshots v ++ [name; id])) as (Hv1 & Hp & Ht).
  { destruct e as [a|t]; cbn [storage_step] in Hs.
    - destruct He as (H1 & H2 & H3 & H4). pose proof (execute_arranged modified v a h Hv H3) as [Ha Hp].
      assert (keeps_dir (vol_snapshots v ++ [name; id]) (fs h) (fs (Volumes_Execute modified v a h).2.1)) as Hk by by apply execute_keeps.
      specialize (Hk Htaken).
      destruct (Volumes_Execute modified v a h) as [v2 [h2 r2]]. injection Hs as <- <-. done.
    - injection Hs as <- <-. split; [done|]. split; [done|]. apply tree_grafted_apart.
      apply apart_sym. rewrite <-(app_nil_r (vol_root v)). apply apart_roots, (arranged_roots v Hv). }
  destruct Hp as (E1 & E2 & E3 & E4). rewrite <-Ht, <-E2. apply (IH v1 h1); [done| |by rewrite E2, <-tree_at, Ht, tree_at|done].
  rewrite E4. intros store Hb. destruct (Hstore store Hb) as [S1 S2 S3]. split; [done..|]. by rewrite E1, E2.
Qed.

(** A directory apart from the node's own keeps what a backup store promises. *)
Lemma directory_store_sound v root :
  apart (vol_root v) root → apart (vol_snapshots v) root → sound_store v (DirectoryBackupStore root).
Proof.
  intros H1 H2. split.
  - intros volume id destination d Ha. cbn [store_Fetch DirectoryBackupStore]. unfold Directory_Fetch. io_frame.
    + by apply RemoveAll_same_tree.
    + by apply copyTree_same_tree.
  - intros volume id destination Hne. cbn [store_Fetch DirectoryBackupStore]. unfold Directory_Fetch. io_frame.
    + apply RemoveAll_rooted.
    + by apply copyTree_rooted.
  - intros volume id source d Hv Hi Hd. cbn [store_Put DirectoryBackupStore]. unfold Directory_Put, backup_path.
    rewrite !Join_label, <-app_assoc by done. cbn [app]. rewrite suffixed_pair.
    assert (∀ r, apart d (root ++ r)) as Ha by (intros r; destruct Hd as [[s ->]|[s ->]]; by apply apart_roots).
    replace (Dir (root ++ [volume; id])) with (root ++ [volume]).
    2: { change [volume; id] with ([volume] ++ [id]). rewrite app_assoc. unfold Dir. by rewrite removelast_last. }
    io_frame.
    + by apply RemoveAll_same_tree.
    + apply MkdirAll_same_tree. by apply apart_not.
    + by apply copyTree_same_tree.
    + by apply Rename_same_tree.
    + by apply RemoveAll_same_tree.
    + by apply RemoveAll_same_tree.
Qed.
End Facts.
