(* ===== verification/Custody.v ===== *)
(** * Custody of data: pruning, moves between nodes, and who holds a volume

    Theorems on the remaining operations of [Volumes], a backup store that is a
    directory, and the cases in which the storage does less than it promises. *)

From S2P Require Import Prelude Types Text Engine Executor EventLog Directory Validate WorkQueue Dispatch FileSystem Volumes Storage.
Open Scope Z_scope.

(** A program that only reads. *)
Definition unmodified (f g : FS) : Prop := g = f.
#[export] Instance unmodified_preorder : PreOrder unmodified.
Proof. split; [by intros f|]. intros f g k -> ->. done. Qed.

(** ** Pruning *)

(** The snapshots a directory lists. *)
Definition snapshot_name (x : path * entry) : option string :=
  match x with
  | ([name], DirEntry) => if HasSuffix name ".partial" || HasSuffix name ".fetched" then None else Some name
  | _ => None
  end.
Definition snapshot_ids (f : FS) (dir : path) : list string := sort_Strings (omap snapshot_name (map_to_list (tree f dir))).

Lemma snapshot_name_Some x name : snapshot_name x = Some name → x = ([name], DirEntry).
Proof. destruct x as [[|n [|]] []]; cbn; try done. case_match; [done|]. by intros [= ->]. Qed.

Lemma snapshot_ids_dir f dir id : id ∈ snapshot_ids f dir → f !! (dir ++ [id]) = Some DirEntry.
Proof.
  unfold snapshot_ids. rewrite elem_of_sort_Strings, list_elem_of_omap. intros ([r e] & Hin & Hn%snapshot_name_Some).
  simplify_eq. apply elem_of_map_to_list in Hin. by rewrite tree_lookup in Hin.
Qed.

Lemma snapshot_ids_NoDup f dir : NoDup (snapshot_ids f dir).
Proof.
  unfold snapshot_ids. rewrite sort_Strings_perm. pose proof (NoDup_map_to_list (tree f dir)) as Hnd.
  induction Hnd as [|x l Hx _ IH]; [constructor|]. cbn [omap list_omap]. destruct (snapshot_name x) as [n|] eqn:Hn; [|done].
  constructor; [|done]. rewrite list_elem_of_omap. intros (y & Hy & Hn'). apply snapshot_name_Some in Hn as ->, Hn' as ->. done.
Qed.

Lemma listSnapshotDirs_reads dir : respects unmodified (listSnapshotDirs dir).
Proof. unfold listSnapshotDirs. io_frame. Qed.
Lemma recentSnapshots_reads modified dir ids retain : respects unmodified (recentSnapshots modified dir ids retain).
Proof. unfold recentSnapshots. io_frame. apply respects_each; [apply _|]. intros x. io_frame. Qed.

Lemma listSnapshotDirs_ok dir h h' ids :
  rooted (fs h) → dir ≠ [] → listSnapshotDirs dir h = (h', Ok ids) → fs h' = fs h ∧ ids = snapshot_ids (fs h) dir.
Proof.
  intros Hroot Hne. unfold listSnapshotDirs. unfold io_bind, attempt_io. destruct (ReadDir dir h) as [h1 r] eqn:Hr.
  assert (fs h1 = fs h) as E by (replace h1 with (ReadDir dir h).1 by (by rewrite Hr); apply reading_same).
  destruct r as [l|e].
  - intros [= <- <-]. split; [done|]. apply reading_ok in Hr as [_ Hr]. destruct (fs h !! dir) as [[]|]; try done.
    injection Hr as <-. unfold snapshot_ids. f_equal. induction (map_to_list (tree (fs h) dir)) as [|[r e] l IH]; [done|].
    destruct r as [|name [|]]; cbn [omap list_omap]; [done| |done]. rewrite IH. destruct e; cbn; done.
  - destruct (IsNotExist e) eqn:He; [|done]. intros [= <- <-]. split; [done|].
    destruct (snapshot_ids (fs h) dir) as [|id ids] eqn:Hids; [done|]. exfalso.
    assert (fs h !! (dir ++ [id]) = Some DirEntry) as Hid by (apply snapshot_ids_dir; rewrite Hids; apply list_elem_of_here).
    apply Hroot in Hid. unfold is_dir in Hid. rewrite bool_decide_false in Hid by done. cbn in Hid. apply bool_decide_eq_true in Hid.
    unfold ReadDir, reading, syscall in Hr. rewrite Hid in Hr. destruct (faults h) as [|[n|] rest]; by simplify_eq.
Qed.

(** Whatever is removed, protected snapshots and those of which nothing is said stay. *)
Lemma prune_loop_keeps dir protected dry_run total removed present id :
  id ∈ protected ∨ id ∉ present → respects (same_tree (dir ++ [id])) (prune_loop dir protected dry_run total removed present).
Proof.
  revert removed. induction present as [|x present IH]; intros removed Hid; cbn [prune_loop]; [io_frame|].
  assert (id ∈ protected ∨ id ∉ present) as Hid' by set_solver.
  case_bool_decide as Hx; [by apply IH|]. io_frame. apply RemoveAll_same_tree, apart_below, apart_names. set_solver.
Qed.

Lemma prune_loop_dry dir protected total removed present :
  respects unmodified (prune_loop dir protected true total removed present).
Proof. revert removed. induction present as [|x present IH]; intros removed; cbn [prune_loop]; io_frame. Qed.

(** A loop that succeeds has removed everything else. *)
Lemma prune_loop_removes dir protected total removed present h h' gone :
  NoDup present → len removed + len (filter (.∉ protected) present) + 1 <= total →
  prune_loop dir protected false total removed present h = (h', Ok gone) →
  ∀ id, id ∈ present → id ∉ protected → tree (fs h') (dir ++ [id]) = ∅.
Proof.
  intros Hnd. revert removed h. induction Hnd as [|x present Hx _ IH]; intros removed h Ht H id Hin Hid.
  { by apply not_elem_of_nil in Hin. }
  cbn [prune_loop] in H. rewrite filter_cons in Ht. case_bool_decide as Hp.
  { rewrite decide_False in Ht by (intros Hn; by apply Hn). eapply IH; [done|exact H| |done]. set_solver. }
  rewrite decide_True in Ht by done. unfold len in Ht. cbn [length] in Ht.
  rewrite (proj2 (Z.leb_gt _ _)) in H by (unfold len; lia). apply io_bind_ok in H as (h1 & [] & Hr & H).
  apply wrapping_ok, RemoveAll_ok in Hr. apply elem_of_cons in Hin as [->|Hin].
  - pose proof (respects_run _ _ _ _ _ (prune_loop_keeps dir protected false total (removed ++ [x]) present x (or_intror Hx)) H) as E.
    unfold same_tree in E. by rewrite E, Hr, tree_cleared.
  - eapply IH; [|exact H|done..]. unfold len. rewrite length_app. cbn [length]. lia.
Qed.

(** The snapshots pruning protects: the most recently modified, one at least. *)
Definition protected_ids (modified : path → Z) (dir : path) (ids : list string) (retain : Z) : list string :=
  take (Z.to_nat (if retain <? 1 then 1 else retain)) (merge_sort (newer modified dir) ids).

Lemma protected_some modified dir ids retain : ids ≠ [] → protected_ids modified dir ids retain ≠ [].
Proof.
  intros Hne H. apply Hne. unfold protected_ids in H.
  assert (length (merge_sort (newer modified dir) ids) = length ids) as Hl by (apply Permutation_length, merge_sort_Permutation).
  apply (f_equal length) in H. rewrite length_take in H. cbn in H. destruct (Z.ltb_spec retain 1); destruct ids; try done; cbn in *; lia.
Qed.

(** Recovery points are kept.  Whatever retention is asked for, whatever calls fail and
    whenever it is interrupted, pruning leaves the most recently modified snapshots as
    they are, as many as are to be retained and one at least; when it succeeds, exactly
    the others are gone; and a dry run removes nothing. *)
Theorem prune_keeps_recent modified v a ref record h h' r
    (Hv : arranged v) (Hrec : volumes v !! VolumeRef_Name ref = Some record) (Hroot : rooted (fs h))
    (H : prune modified v a ref h = (h', r)) :
  let dir := vol_snapshots v ++ [VolumeRef_Name ref] in
  let ids := snapshot_ids (fs h) dir in
  let kept := protected_ids modified dir ids (Action_Retain a) in
  (ids ≠ [] → kept ≠ []) ∧ (∀ id, id ∈ kept → tree (fs h') (dir ++ [id]) = tree (fs h) (dir ++ [id])) ∧
  (Action_DryRun a = true → fs h' = fs h) ∧
  (is_Ok r → Action_DryRun a = false → ∀ id, id ∈ ids → id ∉ kept → tree (fs h') (dir ++ [id]) = ∅).
Proof.
  intros dir ids kept. split; [apply protected_some|]. destruct (arranged_records v Hv _ _ Hrec) as (Hn & En & _).
  unfold prune in H. rewrite Hrec, En, Join_label in H by done. fold dir in H.
  assert (dir ≠ []) as Hdir by (unfold dir; by destruct (vol_snapshots v)).
  unfold io_bind at 1 in H. destruct (listSnapshotDirs dir h) as [h1 r1] eqn:H1.
  assert (fs h1 = fs h) as E1.
  { exact (respects_run _ _ _ _ _ (listSnapshotDirs_reads dir) H1). }
  destruct r1 as [present|e]; [|injection H as <- <-; rewrite E1; done].
  destruct (listSnapshotDirs_ok dir h h1 present Hroot Hdir H1) as [_ ->]. fold ids in H. clear H1.
  unfold io_bind at 1 in H. destruct (recentSnapshots modified dir ids _ h1) as [h2 r2] eqn:H2.
  assert (fs h2 = fs h1) as E2.
  { exact (respects_run _ _ _ _ _ (recentSnapshots_reads _ _ _ _) H2). }
  destruct r2 as [protected|e]; [|injection H as <- <-; rewrite E2, E1; done].
  assert (protected = kept) as ->.
  { unfold recentSnapshots in H2. apply io_bind_ok in H2 as (? & ? & _ & H2). by injection H2 as _ <-. }
  unfold io_bind at 1 in H. destruct (prune_loop dir kept (Action_DryRun a) (len ids) [] ids h2) as [h3 r3] eqn:H3.
  assert (h' = h3 ∧ (is_Ok r → is_Ok r3)) as [-> Hok] by (destruct r3; injection H as <- <-; done). clear H.
  rewrite <-E1, <-E2. split; [|split].
  - intros id Hid. exact (respects_run _ _ _ _ _ (prune_loop_keeps dir kept _ _ _ _ id (or_introl Hid)) H3).
  - intros Hdry. rewrite Hdry in H3. exact (respects_run _ _ _ _ _ (prune_loop_dry _ _ _ _ _) H3).
  - intros Hr Hdry id Hin Hid. rewrite Hdry in H3. specialize (Hok Hr). destruct r3 as [gone|]; [|done].
    eapply (prune_loop_removes dir kept (len ids) [] ids h2 h3 gone (snapshot_ids_NoDup _ _)); [|done..].
    destruct kept as [|k kept'] eqn:Hk; [by apply protected_some in Hk; [|intros ->; by apply not_elem_of_nil in Hin]|].
    assert (k ∈ ids) as Hki.
    { assert (k ∈ kept) as Hkk by (rewrite Hk; apply list_elem_of_here). unfold kept, protected_ids in Hkk.
      apply elem_of_take in Hkk as (i & Hi%list_elem_of_lookup_2 & _). by rewrite merge_sort_Permutation in Hi. }
    assert (length (filter (.∉ k :: kept') ids) < length ids)%nat as Hl.
    { apply length_filter_lt with k; [done|]. intros Hnk. apply Hnk, list_elem_of_here. }
    unfold len. cbn [length]. lia.
Qed.

(** ** Moving a volume *)

Section Moves.
Context {digest : Digest}.

Lemma copyTreeReplacing_whole source p name h h' r :
  rooted (fs h) → is_Some (fs h !! (p ++ [name])) → away source p name →
  copyTreeReplacing source (p ++ [name]) h = (h', r) →
  match r with
  | Ok _ => tree (fs h') (p ++ [name]) = tree (fs h) source
  | Err _ => set_aside (p ++ [name]) (tree (fs h) (p ++ [name])) (fs h')
  end.
Proof.
  intros Hroot Hsome Haway H. unfold copyTreeReplacing in H. rewrite suffixed_snoc in H.
  set (target := p ++ [name]) in *. set (staging := p ++ [name +:+ ".adopting"]) in *.
  assert (apart target staging) as Ats by by apply apart_below, apart_names, append_ne.
  unfold io_bind at 1 in H. destruct (RemoveAll staging h) as [h2 r2] eqn:H2.
  pose proof (respects_run _ _ _ _ _ (RemoveAll_same_tree target staging Ats) H2) as T2.
  pose proof (respects_run _ _ _ _ _ (RemoveAll_same_tree source staging (Haway _)) H2) as S2. unfold same_tree in T2, S2.
  pose proof (respects_run _ _ _ _ _ (RemoveAll_rooted staging) H2 Hroot) as Hroot2.
  destruct r2 as [[]|e]; [|injection H as <- <-; left; congruence]. apply RemoveAll_ok in H2 as G2.
  unfold io_bind at 1, attempt_io at 1 in H. destruct (copyTree source staging h2) as [h3 r3] eqn:H3.
  pose proof (respects_run _ _ _ _ _ (copyTree_same_tree target source staging Ats) H3) as T3. unfold same_tree in T3.
  destruct r3 as [[]|e].
  2: { unfold io_bind, ignoring in H. cbn [io_err] in H. injection H as <- <-. left.
       pose proof (RemoveAll_same_tree target staging Ats h3) as T4. unfold same_tree in T4. congruence. }
  destruct (copy_staged source p name ".adopting" h2 h3) as (Hroot3 & C3 & _); [done..|by rewrite G2, tree_cleared|done|].
  fold staging in C3. assert (is_Some (fs h3 !! target)) as Hs3 by (rewrite <-tree_at, T3, T2, tree_at; done).
  pose proof (swap_in_whole p name ".adopting" _ _ h3 h' r ltac:(done) ltac:(done) Hroot3 Hs3 H) as Hw. fold target staging in Hw.
  destruct r as [[]|e]; [congruence|]. by rewrite T3, T2 in Hw.
Qed.

(** A volume that moves arrives whole.  The origin took a snapshot and reported its
    checksum.  Whatever the backup store delivered, a node that adopts the volume with
    this checksum and succeeds holds exactly the files the origin's volume had when the
    snapshot was taken (or the two sets of files are digested to the same SHA-256); one that fails,
    or is interrupted, has left what it had, or set it aside whole. *)
Theorem adopted_is_snapshotted v a ref record h0 h1 ev0 w b ref' record' h2 h3 r
    (Hv : arranged v) (Hrec : volumes v !! VolumeRef_Name ref = Some record) (Hroot0 : rooted (fs h0))
    (Hfresh : fs h0 !! (vol_snapshots v ++ [VolumeRef_Name ref; Action_Snapshot a]) = None)
    (Htaken : snapshot v a ref h0 = (h1, Ok ev0))
    (Hw : arranged w) (Hrec' : volumes w !! VolumeRef_Name ref' = Some record')
    (Hid : namePattern (Action_Snapshot b) = true) (Hroot2 : rooted (fs h2)) (Hthere : is_Some (fs h2 !! VR_Path record'))
    (Hchecksum : VolumeRef_Checksum ref' = observed ev0 "checksum") (Hne : VolumeRef_Checksum ref' ≠ "")
    (Hadopted : adopt w b ref' h2 = (h3, r)) :
  let before := files_of (tree (fs h0) (VR_Path record)) in
  let after := files_of (tree (fs h3) (VR_Path record')) in
  match r with
  | Ok _ => text_files before → text_files after → after = before ∨ collision [manifest after; manifest before]
  | Err _ => set_aside (VR_Path record') (tree (fs h2) (VR_Path record')) (fs h3)
  end.
Proof.
  cbv zeta. destruct (arranged_records w Hw _ _ Hrec') as (Hname & En & Ep). unfold adopt in Hadopted.
  case_bool_decide as Hi; [injection Hadopted as <- <-; by left|]. rewrite snapshot_path_label in Hadopted by done.
  set (source := vol_snapshots w ++ _) in Hadopted. unfold io_bind at 1, attempt_io at 1 in Hadopted.
  destruct (Stat source h2) as [h4 r4] eqn:H4. apply Stat_same in H4. rewrite <-H4 in Hroot2, Hthere |- *.
  destruct r4 as [[]|e4]; [|injection Hadopted as <- <-; by left]. unfold io_bind at 1 in Hadopted.
  pose proof (checksumTree_same source h4) as E5. destruct (checksumTree source h4) as [h5 [c|e]] eqn:H5; cbn [fst] in E5;
    [|injection Hadopted as <- <-; rewrite E5; by left].
  apply checksumTree_ok in H5 as (_ & -> & _). destruct (mismatch ref' _) eqn:Hm; [injection Hadopted as <- <-; rewrite E5; by left|].
  rewrite Hrec', Ep in Hadopted. rewrite Ep in Hthere |- *. rewrite <-E5 in Hroot2, Hthere, Hm |- *.
  unfold io_bind, wrapping in Hadopted. destruct (copyTreeReplacing source _ h5) as [h6 r6] eqn:H6.
  pose proof (copyTreeReplacing_whole source (vol_root w) (VolumeRef_Name ref') h5 h6 r6 Hroot2 Hthere
    ltac:(apply snapshots_away, (arranged_roots w Hw)) H6) as Hc.
  destruct r6 as [[]|e]; injection Hadopted as <- <-; [|done]. intros Hb Ha. rewrite Hc in Ha |- *.
  exact (recorded_files v a ref record h0 h1 ev0 ref' _ Hv Hrec Hroot0 Hfresh Htaken Hchecksum Hne Hm Hb Ha).
Qed.
End Moves.

(** ** Who holds a volume *)

Section Ownership.
Context {digest : Digest} {codec : VolumeCodec} {laws : VolumeCodecLaws codec}.

(** The records a state file gives back. *)
Definition reloads (f : FS) (state : path) (m : gmap string VolumeRecord) : Prop :=
  ∀ h, fs h = f → faults h = [] → load_volumes state h = (h, Ok m).

(** The records in memory are those on the disk. *)
Definition filed_volumes (v : Volumes) (f : FS) : Prop :=
  f !! vol_state v = Some (FileEntry (ledger_lines (volume_lines (volumes v)))) ∨ f !! vol_state v = None ∧ volumes v = ∅.

Definition readable_volumes (m : gmap string VolumeRecord) : Prop :=
  map_Forall (λ name r, VR_Name r = name ∧ name ≠ "" ∧ Z.of_nat (String.length (encode_volume r)) < maxVolumeLine) m.

Lemma filed_reloads v f : readable_volumes (volumes v) → filed_volumes v f → reloads f (vol_state v) (volumes v).
Proof.
  intros Hr Hf [f' faults'] Ef Eh. cbn in Ef, Eh. subst f' faults'.
  unfold load_volumes, io_bind, attempt_io, ReadFile, reading, syscall. cbn [fs faults]. destruct Hf as [->|[-> ->]]; [|done].
  unfold io_of. rewrite scan_ledger_lines.
  - unfold volume_lines. rewrite for_each_table; [done|]. intros k x acc Hx. destruct (Hr k x Hx) as (En & Hne & Hl).
    unfold load_volume. rewrite (proj2 (Z.leb_gt _ _)) by done. rewrite decode_encode_volume, bool_decide_false by by rewrite En.
    by rewrite En.
  - apply Forall_forall. intros line Hin. unfold volume_lines in Hin. apply list_elem_of_omap in Hin as (k & _ & Hk).
    apply fmap_Some in Hk as (r & _ & ->). apply encode_volume_line.
Qed.

Lemma persist_files v h h' : vol_state v ≠ [] → persist v h = (h', Ok tt) → filed_volumes v (fs h').
Proof.
  intros Hne H. left. unfold persist, writeAtomic in H. apply io_bind_ok in H as (h1 & [] & H1 & H2).
  apply wrapping_ok in H1, H2. apply WriteFile_ok in H1 as [E1 _]. destruct (Dir_snoc _ Hne) as [name Hn].
  assert (apart (suffixed (vol_state v) ".tmp") (vol_state v)) as Ha.
  { rewrite Hn, suffixed_snoc. apply apart_below, apart_names. intros E. symmetry in E. by apply append_ne in E. }
  destruct (Rename_moves _ _ _ _ H2 Ha) as [E2 _]. by rewrite <-tree_at, E2, tree_at, E1, lookup_insert_eq.
Qed.

(** What becomes of custody when a volume is created, attached or detached. *)
Definition custody_step (v : Volumes) (h : Machine) (a : Action) : Volumes * (Machine * result Evidence) :=
  Volumes_Execute (λ _, 0) v a h.
Definition of_custody (a : Action) : Prop :=
  (Action_Kind a = ActionCreateVolume ∨ Action_Kind a = ActionAttachVolume ∨ Action_Kind a = ActionDetachVolume) ∧
  ∀ ref, Action_Volume a = Some ref → namePattern (VolumeRef_Name ref) = true.

Fixpoint custody (v : Volumes) (h : Machine) (l : list Action) : Volumes * Machine * list (result Evidence) :=
  match l with
  | [] => (v, h, [])
  | a :: l => let '(v, (h, r)) := custody_step v h a in let '(v, h, rs) := custody v h l in (v, h, r :: rs)
  end.

Lemma recorded_filed v m h v' h' ev :
  vol_state v ≠ [] → recorded v (io_ret m) h = (v', (h', Ok ev)) → v' = v ∧ filed_volumes v' (fs h').
Proof.
  intros Hne H. unfold recorded in H. injection H as -> H. split; [done|]. apply io_bind_ok in H as (h1 & [] & H1 & H2).
  injection H2 as <- _. by eapply persist_files.
Qed.

Lemma custody_step_filed v h a v' h' ev :
  arranged v → vol_state v ≠ [] → of_custody a → filed_volumes v (fs h) → custody_step v h a = (v', (h', Ok ev)) →
  filed_volumes v' (fs h').
Proof.
  intros Hv Hne [Hk Hr] Hf H. unfold custody_step, Volumes_Execute in H. destruct (Action_Volume a) as [ref|]; [|done].
  specialize (Hr ref eq_refl). assert (∀ w, w = v → ∀ m, unchanged w (io_ret m) h = (v', (h', Ok ev)) → filed_volumes v' (fs h')) as Hsame.
  { intros w -> m Hu. by injection Hu as <- <- _. }
  destruct Hk as [Hk|[Hk|Hk]]; rewrite Hk in H; unfold create, attach, detach in H.
  - destruct (volumes v !! VolumeRef_Name ref); [by eapply Hsame|]. rewrite Join_label in H by done. unfold wrapping in H.
    destruct (MkdirAll _ h) as [h1 [[]|e]]; [|done]. cbn [wrap_err] in H. apply recorded_filed in H as [_ H]; done.
  - destruct (volumes v !! VolumeRef_Name ref); [|done]. destruct (_ && _); [done|]. case_bool_decide; [|by eapply Hsame].
    apply recorded_filed in H as [_ H]; done.
  - destruct (volumes v !! VolumeRef_Name ref); [|by eapply Hsame]. destruct (_ && _); [done|].
    apply recorded_filed in H as [_ H]; done.
Qed.

(** C21: custody survives a restart.  Whatever volumes are created, attached and detached, as
    long as none of the actions reported an error, the records a restarted node reads are
    the ones the node held: a volume that has a writer still has it, under the same
    generation. *)
Theorem custody_survives v h l v' h' rs
    (Hv : arranged v) (Hne : vol_state v ≠ []) (Hl : Forall of_custody l) (Hf : filed_volumes v (fs h))
    (Hrun : custody v h l = (v', h', rs)) (Hok : Forall is_Ok rs) (Hread : readable_volumes (volumes v')) :
  reloads (fs h') (vol_state v) (volumes v').
Proof.
  assert (filed_volumes v' (fs h') ∧ vol_state v' = vol_state v) as [Hfiled <-]; [|by apply filed_reloads].
  clear Hread. revert v h rs Hv Hne Hf Hrun Hok. induction Hl as [|a l Ha _ IH]; intros v h rs Hv Hne Hf Hrun Hok; cbn [custody] in Hrun.
  { by injection Hrun as <- <- _. }
  destruct (custody_step v h a) as [v1 [h1 r1]] eqn:Hs. destruct (custody v1 h1 l) as [[v2 h2] rs2] eqn:Hc.
  injection Hrun as <- <- <-. apply Forall_cons in Hok as [Hr Hok]. destruct r1 as [ev|]; [|done].
  pose proof (execute_arranged (λ _, 0) v a h Hv (proj2 Ha)) as [Hv1 (_ & _ & Es & _)].
  unfold custody_step in Hs. rewrite Hs in Hv1, Es. cbn [fst] in Hv1, Es.
  destruct (IH v1 h1 rs2 Hv1 ltac:(by rewrite Es) (custody_step_filed _ _ _ _ _ _ Hv Hne Ha Hf Hs) Hc Hok) as [H1 H2].
  split; [done|]. congruence.
Qed.
End Ownership.

(** ** Samples *)

Lemma rooted_check f : map_Forall (λ p _, p = [] ∨ is_dir f (removelast p) = true) f → rooted f.
Proof.
  intros H p name e He. destruct (H _ _ He) as [Hn|Hn]; [by apply app_eq_nil in Hn as [_ ?]|]. by rewrite removelast_last in Hn.
Qed.

Module CustodySample.
#[local] Instance plain_digest : Digest := λ s, s.

Definition data_path : path := ["srv"; "volumes"; "data"].
Definition data_record (owner : string) (generation : Z) : VolumeRecord := mkVolumeRecord "data" data_path owner generation.

(** Records as bits. *)
Definition record_fields (r : VolumeRecord) := (VR_Name r, VR_Path r, VR_Owner r, VR_Generation r).
#[local] Instance sample_volumes : VolumeCodec := {|
  encode_volume r := QueueSample.bits (encode (record_fields r));
  decode_volume s := p ← QueueSample.unbits s; (λ '(n, p, o, g), mkVolumeRecord n p o g) <$> decode p |}.
Lemma sample_volumes_laws : VolumeCodecLaws sample_volumes.
Proof.
  split.
  - intros r. cbn -[encode decode]. rewrite QueueSample.unbits_bits. cbn -[encode decode]. rewrite decode_encode. by destruct r.
  - intros r. cbn -[encode decode]. generalize (encode (record_fields r)) as p. intros p.
    induction p as [p IH|p IH|]; cbn [QueueSample.bits no_break]; [by rewrite IH..|done].
Qed.

Definition sample_volume (owner : string) : Volumes :=
  mkVolumes ["srv"; "volumes"] ["srv"; "snapshots"] ["srv"; "volumes.json"] None {["data" := data_record owner 1]}.
Definition sample_fs (files : list (path * string)) : FS :=
  foldl (λ f x, <[x.1 := FileEntry x.2]> f)
    (list_to_map ((λ p, (p, DirEntry)) <$>
       [["srv"]; ["srv"; "volumes"]; ["srv"; "snapshots"]; ["srv"; "snapshots"; "data"]; data_path])) files.
Definition machine0 : Machine := mkMachine (sample_fs [(data_path ++ ["a"], "one"); (data_path ++ ["b"], "two")]) [].

Definition volume_action (kind : ActionKind) (target snapshot checksum : string) : Action :=
  mkAction "act" kind target "web" "n1" "" 0 Resources_zero 0 "" (Some (mkVolumeRef "data" "/data" false checksum)) snapshot "" 1 false
    None None [] None [] Budget_zero "" None [].
Definition data_ref (checksum : string) : VolumeRef := mkVolumeRef "data" "/data" false checksum.

Definition take_it : Action := volume_action ActionSnapshotVolume "data" "s1" "".
Definition taken : Machine * result Evidence := snapshot (sample_volume "") take_it (data_ref "") machine0.
Definition reported : string := match taken.2 with Ok ev => observed ev "checksum" | Err _ => "" end.

(** The volume is overwritten, then restored. *)
Definition overwritten : Machine := mkMachine (<[data_path ++ ["a"] := FileEntry "lost"]> (fs taken.1)) [].
Definition restored : Machine * result Evidence :=
  restore (sample_volume "") (volume_action ActionRestoreSnapshot "data" "s1" reported) (data_ref reported) overwritten.

Lemma sample_arranged owner : arranged (sample_volume owner).
Proof.
  split; [by split; intros [? [=]]| |].
  - intros name r H. cbn [volumes sample_volume] in H. apply lookup_singleton_Some in H as [<- <-]. done.
  - repeat split; intros [? [=]].
Qed.
Lemma machine0_rooted : rooted (fs machine0).
Proof. apply rooted_check, (bool_decide_unpack _). vm_compute. exact I. Qed.
Lemma overwritten_rooted : rooted (fs overwritten).
Proof. apply rooted_check, (bool_decide_unpack _). vm_compute. exact I. Qed.

Lemma restore_brings_back_witness :
  is_Ok restored.2 ∧
  (files_of (tree (fs restored.1) data_path) = files_of (tree (fs machine0) data_path) ∨
   collision [manifest (files_of (tree (fs restored.1) data_path)); manifest (files_of (tree (fs machine0) data_path))]).
Proof.
  split; [vm_compute; exact I|].
  pose proof (restore_brings_back (sample_volume "") take_it (data_ref "") (data_record "" 1) machine0 taken.1
    (match taken.2 with Ok ev => ev | Err _ => volumeEvidence EvidenceVolumeCreated "" [] end)
    (sample_volume "") (volume_action ActionRestoreSnapshot "data" "s1" reported) (data_ref reported) (data_record "" 1)
    overwritten restored.1 restored.2 (sample_arranged "") ltac:(reflexivity) machine0_rooted ltac:(vm_compute; reflexivity)
    ltac:(vm_compute; reflexivity) (sample_arranged "") ltac:(done) ltac:(reflexivity) ltac:(vm_compute; reflexivity)
    overwritten_rooted ltac:(vm_compute; by eexists) ltac:(vm_compute; reflexivity) ltac:(vm_compute; discriminate)
    ltac:(vm_compute; reflexivity)) as H. cbv zeta in H.
  assert (is_Ok restored.2) as Hok by (vm_compute; exact I). destruct restored.2 as [ev|]; [|done].
  apply H; apply (bool_decide_unpack _); vm_compute; exact I.
Defined.

Definition adopted : Machine * result Evidence :=
  adopt (sample_volume "") (volume_action ActionAdoptVolume "data" "s1" reported) (data_ref reported) overwritten.
Lemma adopted_is_snapshotted_witness :
  is_Ok adopted.2 ∧
  (files_of (tree (fs adopted.1) data_path) = files_of (tree (fs machine0) data_path) ∨
   collision [manifest (files_of (tree (fs adopted.1) data_path)); manifest (files_of (tree (fs machine0) data_path))]).
Proof.
  split; [vm_compute; exact I|].
  pose proof (adopted_is_snapshotted (sample_volume "") take_it (data_ref "") (data_record "" 1) machine0 taken.1
    (match taken.2 with Ok ev => ev | Err _ => volumeEvidence EvidenceVolumeCreated "" [] end)
    (sample_volume "") (volume_action ActionAdoptVolume "data" "s1" reported) (data_ref reported) (data_record "" 1)
    overwritten adopted.1 adopted.2 (sample_arranged "") ltac:(reflexivity) machine0_rooted ltac:(vm_compute; reflexivity)
    ltac:(vm_compute; reflexivity) (sample_arranged "") ltac:(reflexivity) ltac:(vm_compute; reflexivity)
    overwritten_rooted ltac:(vm_compute; by eexists) ltac:(vm_compute; reflexivity) ltac:(vm_compute; discriminate)
    ltac:(vm_compute; reflexivity)) as H. cbv zeta in H.
  assert (is_Ok adopted.2) as Hok by (vm_compute; exact I). destruct adopted.2 as [ev|]; [|done].
  apply H; apply (bool_decide_unpack _); vm_compute; exact I.
Defined.

(** A second snapshot, a restore that fails and a workload that writes. *)
Definition later : list storage_event :=
  [Acting (volume_action ActionSnapshotVolume "data" "s2" "");
   Acting (volume_action ActionRestoreSnapshot "data" "s1" "another checksum"); Writing {[ [] := DirEntry ]}].
Lemma snapshots_immutable_witness :
  tree (fs (storage_life (λ _, 0) (sample_volume "") taken.1 later).2) ["srv"; "snapshots"; "data"; "s1"] =
  tree (fs taken.1) ["srv"; "snapshots"; "data"; "s1"].
Proof.
  refine (snapshots_immutable (λ _, 0) (sample_volume "") taken.1 later
    (storage_life (λ _, 0) (sample_volume "") taken.1 later).1 (storage_life (λ _, 0) (sample_volume "") taken.1 later).2 "data" "s1"
    (sample_arranged "") _ _ _ _ _ _).
  - done.
  - vm_compute. reflexivity.
  - vm_compute. reflexivity.
  - repeat (apply Forall_cons; split); [| |done|done].
    all: split; [done|]; split; [done|]; split; [intros ref [= <-]; vm_compute; reflexivity|right; vm_compute; reflexivity].
  - vm_compute. reflexivity.
  - by destruct (storage_life _ _ _ _).
Defined.

(** Two snapshots, the older of them pruned. *)
Definition two_taken : Machine := (storage_life (λ _, 0) (sample_volume "") taken.1 (take 1 later)).2.
Definition by_name (p : path) : Z := if bool_decide (last p = Some "s2") then 2 else 1.
Definition prune_it : Action := volume_action ActionPruneSnapshots "data" "" "".
Definition pruned : Machine * result Evidence := prune by_name (sample_volume "") prune_it (data_ref "") two_taken.
Lemma two_taken_rooted : rooted (fs two_taken).
Proof. apply rooted_check, (bool_decide_unpack _). vm_compute. exact I. Qed.

Lemma prune_keeps_recent_witness :
  tree (fs pruned.1) ["srv"; "snapshots"; "data"; "s2"] = tree (fs two_taken) ["srv"; "snapshots"; "data"; "s2"] ∧
  tree (fs pruned.1) ["srv"; "snapshots"; "data"; "s1"] = ∅.
Proof.
  assert (prune by_name (sample_volume "") prune_it (data_ref "") two_taken = (pruned.1, pruned.2)) as E by by unfold pruned; destruct (prune _ _ _ _ _).
  destruct (prune_keeps_recent by_name (sample_volume "") prune_it (data_ref "") (data_record "" 1) two_taken pruned.1 pruned.2
    (sample_arranged "") eq_refl two_taken_rooted E) as (_ & Hkept & _ & Hgone).
  split.
  - apply (Hkept "s2"). apply (bool_decide_unpack _). vm_compute. exact I.
  - apply (Hgone ltac:(vm_compute; exact I) eq_refl "s1"); apply (bool_decide_unpack _); vm_compute; exact I.
Defined.

(** Create the volume and attach it. *)
Definition hand_over : list Action :=
  [volume_action ActionCreateVolume "data" "" ""; volume_action ActionAttachVolume "web-1" "" ""].
Definition empty_custody : Volumes :=
  mkVolumes ["srv"; "volumes"] ["srv"; "snapshots"] ["srv"; "volumes.json"] None ∅.

Definition handed_over : Volumes * Machine * list (result Evidence) := custody empty_custody machine0 hand_over.

Lemma custody_survives_witness :
  handed_over.1.1.(volumes) !! "data" = Some (data_record "web-1" 1) ∧
  reloads (fs handed_over.1.2) ["srv"; "volumes.json"] (volumes handed_over.1.1).
Proof.
  split; [vm_compute; reflexivity|].
  refine (custody_survives (laws := sample_volumes_laws) empty_custody machine0 hand_over handed_over.1.1 handed_over.1.2 handed_over.2
    _ _ _ _ _ _ _).
  - split; [by split; intros [? [=]]|intros name r [=]|repeat split; intros [? [=]]].
  - done.
  - repeat (apply Forall_cons; split); [..|apply Forall_nil; done].
    all: split; [naive_solver|]; intros ref [= <-]; vm_compute; reflexivity.
  - right. split; vm_compute; reflexivity.
  - unfold handed_over. destruct (custody empty_custody machine0 hand_over) as [[? ?] ?]. reflexivity.
  - repeat (apply Forall_cons; split); [..|apply Forall_nil; done]; vm_compute; exact I.
  - apply (bool_decide_unpack _). vm_compute. exact I.
Defined.

(** ** Where the storage does less than it promises *)

(** Two different trees with one checksum, whatever the digest: a file with zero bytes in
    it reads like two files. *)
Lemma checksum_ambiguous :
  ∃ t1 t2 : gmap path entry, files_of t1 ≠ files_of t2 ∧ ∀ digest : Digest, checksum_of t1 = checksum_of t2.
Proof.
  exists (<[ [] := DirEntry ]> (<[ ["a"] := FileEntry "x" ]> {[ ["b"] := FileEntry "y" ]})).
  exists (<[ [] := DirEntry ]> {[ ["a"] := FileEntry ("x" +:+ String zero_byte ("b" +:+ String zero_byte "y")) ]}).
  split; [vm_compute; discriminate|]. intros digest. unfold checksum_of. f_equal.
Qed.

(** An attachment whose record could not be written is reported as an error; tried again
    it succeeds without writing anything, and a restarted node hands the volume to a
    second writer. *)
Definition created : Volumes * Machine :=
  let '(v, (h, _)) := create empty_custody (volume_action ActionCreateVolume "data" "" "") (data_ref "") machine0 in (v, h).
Definition unwritten : Volumes * (Machine * result Evidence) :=
  attach created.1 (volume_action ActionAttachVolume "web-1" "" "") (data_ref "") (mkMachine (fs created.2) [Some 0%nat]).
Definition retried : Volumes * (Machine * result Evidence) :=
  attach unwritten.1 (volume_action ActionAttachVolume "web-1" "" "") (data_ref "") unwritten.2.1.
Definition rebooted : Machine * result (gmap string VolumeRecord) := load_volumes ["srv"; "volumes.json"] retried.2.1.
Definition second_writer : Volumes * (Machine * result Evidence) :=
  attach (retried.1 <| volumes := match rebooted.2 with Ok m => m | Err _ => ∅ end |>)
    (volume_action ActionAttachVolume "web-2" "" "") (data_ref "") rebooted.1.

Lemma attach_retry_not_durable :
  is_Ok retried.2.2 ∧ Volume_Owner retried.1 "data" = Some ("web-1", 1) ∧
  (rebooted.2 = Ok {["data" := data_record "" 0]}) ∧ is_Ok second_writer.2.2 ∧
  Volume_Owner second_writer.1 "data" = Some ("web-2", 1).
Proof. vm_compute. repeat split; exact I || reflexivity. Qed.

(** A verification that was interrupted leaves its scratch copy, which counts as a
    snapshot: being the newest it is retained, and the only real snapshot is removed. *)
Definition interrupted : Machine :=
  let h := (verifyBackup (sample_volume "") (volume_action ActionVerifyBackup "data" "s1" "") (data_ref "")
              (mkMachine (fs taken.1) (replicate 12 None ++ replicate 20 (Some 0%nat)))).1 in mkMachine (fs h) [].
Definition scratch_newest (p : path) : Z := if bool_decide (last p = Some "s1.verify") then 2 else 1.
Definition after_interruption : Machine * result Evidence :=
  prune scratch_newest (sample_volume "") prune_it (data_ref "") interrupted.

Lemma scratch_displaces_snapshot :
  snapshot_ids (fs interrupted) ["srv"; "snapshots"; "data"] = ["s1"; "s1.verify"] ∧ is_Ok after_interruption.2 ∧
  fs after_interruption.1 !! ["srv"; "snapshots"; "data"; "s1"] = None.
Proof. vm_compute. repeat split; exact I || reflexivity. Qed.

(** A transfer whose checksum does not match removes a snapshot the node already had. *)
Definition with_store : Volumes := WithBackupStore (sample_volume "") (DirectoryBackupStore ["mnt"]).
Definition refused_transfer : Volumes * (Machine * result Evidence) :=
  transfer with_store (volume_action ActionTransferVolume "data" "s1" "another checksum") (data_ref "another checksum") taken.1.

Lemma transfer_removes_snapshot :
  fs taken.1 !! ["srv"; "snapshots"; "data"; "s1"] = Some DirEntry ∧ ¬ is_Ok refused_transfer.2.2 ∧
  fs refused_transfer.2.1 !! ["srv"; "snapshots"; "data"; "s1"] = None.
Proof. vm_compute. repeat split; (by intros []) || reflexivity. Qed.

(** Adoption replaces the data under an allocation that holds the volume. *)
Definition adopted_under : Machine * result Evidence :=
  adopt (sample_volume "web-1") (volume_action ActionAdoptVolume "data" "s1" reported) (data_ref reported) overwritten.

Lemma adopt_ignores_writer :
  Volume_Owner (sample_volume "web-1") "data" = Some ("web-1", 1) ∧ is_Ok adopted_under.2 ∧
  fs overwritten !! (data_path ++ ["a"]) = Some (FileEntry "lost") ∧
  fs adopted_under.1 !! (data_path ++ ["a"]) = Some (FileEntry "one").
Proof. vm_compute. repeat split; exact I || reflexivity. Qed.
End CustodySample.
