(* ===== verification/LogBackup.v ===== *)
(** * Backups of the event log (src/eventlog/backup.go)

    A copy of the history with a manifest beside it, its verification and its
    installation in the place of a log, over the file system of [FileSystem] and the log
    of [EventLog].  How SQLite lays a database out in a file, the JSON of a manifest, the
    clock and the random part of a temporary name are parameters. *)

From S2P Require Import Prelude Types Text Engine Executor EventLog WorkQueue Placement FileSystem Volumes Storage.
Open Scope Z_scope.

(** ** Further calls of package os *)

(** [os.Remove] *)
Definition remove_in (f : FS) (p : path) : FS * result unit :=
  match f !! p with
  | None => (f, Err ErrNotExist)
  | Some DirEntry => if bool_decide (tree f p = {[ [] := DirEntry ]}) then (delete p f, Ok tt) else (f, Err ErrExist)
  | Some _ => (delete p f, Ok tt)
  end.
Definition Remove (p : path) : io unit := syscall (λ f, remove_in f p) (λ _ f, f).

(** The size [os.Stat] reports; that of a directory is some positive number. *)
Definition Size (p : path) : io Z := reading (λ f,
  match f !! p with
  | Some (FileEntry c) | Some (OtherEntry (Some c)) => Ok (Z.of_nat (String.length c))
  | Some DirEntry => Ok 1
  | Some (OtherEntry None) => Ok 0
  | None => Err ErrNotExist
  end).

(** [os.CreateTemp] with the name it settles on, and the calls on an open file that leave
    its content alone. *)
Definition CreateTemp (p : path) : io unit :=
  syscall (λ f, match f !! p with Some _ => (f, Err ErrExist) | None => write_at f p "" end) (λ _ f, f).
Definition Chmod (p : path) : io unit := reading (λ _, Ok tt).
Definition Sync (p : path) : io unit := reading (λ _, Ok tt).
Definition CloseFile (p : path) : io unit := reading (λ _, Ok tt).

(** [writeFileAtomic]; [temp] is the name of the temporary file. *)
Definition writeFileAtomic (temp : string) (p : path) (payload : string) : io unit :=
  let directory := Dir p in
  let name := directory ++ [temp] in
  wrapping "create temporary file: %w" (CreateTemp name) >>
  let! outcome := attempt_io (
    wrapping "set backup permissions: %w" (Chmod name) >>
    wrapping "write backup: %w" (WriteFile name payload) >>
    wrapping "sync backup: %w" (Sync name) >>
    wrapping "close backup: %w" (CloseFile name) >>
    wrapping "install backup: %w" (Rename name p) >>
    ignoring (Sync directory)) in
  ignoring (Remove name) >> io_of outcome.

(** ** Archives *)

(** The content of the file [VACUUM INTO] writes, and the database SQLite finds in a file
    given the write-ahead log beside it, if there is one. *)
Class SqliteFile := {
  vacuumed : Database → string;
  opened : string → option string → option Database }.

(** What was written by [VACUUM INTO] opens, alone, as the database it was written from. *)
Class SqliteFileLaws (sqlite : SqliteFile) : Prop :=
  opened_vacuumed : ∀ db, opened (vacuumed db) None = Some db.

Record BackupManifest := mkBackupManifest {
  BM_Version : Z; BM_TakenAt : time; BM_Records : Z; BM_HeadSequence : Z; BM_HeadHash : string;
  BM_Checksum : string; BM_Bytes : Z; BM_Format : string }.
#[export] Instance eta_BackupManifest : Eta BackupManifest := λ m,
  mkBackupManifest (BM_Version m) (BM_TakenAt m) (BM_Records m) (BM_HeadSequence m) (BM_HeadHash m)
    (BM_Checksum m) (BM_Bytes m) (BM_Format m).

Definition BackupVersion : Z := 2.
Definition backupFormat : string := "sqlite".
Definition manifestSuffix : string := ".manifest.json".

(** [json.MarshalIndent] and [json.Unmarshal] of a manifest. *)
Class ManifestCodec := {
  encode_manifest : BackupManifest → option string;
  decode_manifest : string → option BackupManifest }.
Definition end_of_line : string := String (Ascii.ascii_of_nat 10) "".
Class ManifestCodecLaws (codec : ManifestCodec) : Prop :=
  decode_encode_manifest : ∀ m s, encode_manifest m = Some s → decode_manifest (s +:+ end_of_line) = Some m.

Section Backup.
Context {codec : EventCodec} {digest : Digest} {sqlite : SqliteFile} {mcodec : ManifestCodec}.

Definition hashBytes (payload : string) : string := digestOf payload.

Definition bytes (payload : string) : Z := Z.of_nat (String.length payload).

(** [VACUUM INTO] refuses to overwrite. *)
Definition VacuumInto (db : Database) (p : path) : io unit :=
  let write content (f : FS) := match f !! p with Some _ => (f, Err ErrExist) | None => write_at f p content end in
  syscall (write (vacuumed db)) (λ n f, (write (String.substring 0 n (vacuumed db)) f).1).

Definition manifest_of (now : time) (records : list LogRecord) (payload : string) : BackupManifest :=
  let m := mkBackupManifest BackupVersion now (len records) 0 "" (hashBytes payload) (bytes payload) backupFormat in
  match last records with
  | None => m
  | Some head => m <| BM_HeadSequence := Rec_Sequence head |> <| BM_HeadHash := Rec_Hash head |>
  end.

(** [File.Backup]; [now] is the reading of the clock. *)
Definition Backup (f : File) (destination : string) (temp : string) (now : time) : io BackupManifest :=
  refuse! (negb (IsAbs destination)) "backup path must be absolute";
  let destination := Clean destination in
  match file_db f with
  | None => io_err (Errorf "event log is closed")
  | Some db =>
      let! records := io_of (readRecords f) in
      let! _ := io_of (wrap_err "refusing to back up a corrupt log: %w" (verifyChain records)) in
      wrapping "create backup directory: %w" (MkdirAll (Dir destination)) >>
      let! cleared := attempt_io (Remove destination) in
      match cleared with
      | Err e => if IsNotExist e then io_ret tt else io_err (Wrapf "clear previous backup: %w" e)
      | Ok _ => io_ret tt
      end >>
      wrapping "write backup: %w" (VacuumInto db destination) >>
      wrapping "secure backup permissions: %w" (Chmod destination) >>
      let! payload := wrapping "read backup: %w" (ReadFile destination) in
      let m := manifest_of now records payload in
      match encode_manifest m with
      | None => io_err (Errorf "encode manifest: %w")
      | Some encoded =>
          writeFileAtomic temp (suffixed destination manifestSuffix) (encoded +:+ end_of_line) >>
          io_ret m
      end
  end.

Definition readManifest (archive : path) : io BackupManifest :=
  let! raw := wrapping "read backup manifest: %w" (ReadFile (suffixed archive manifestSuffix)) in
  match decode_manifest raw with
  | None => io_err (Errorf "decode backup manifest: %w")
  | Some m =>
      refuse! (negb (BM_Version m =? BackupVersion))
        "unsupported backup version %d: this build writes and reads version %d";
      io_ret m
  end.

(** The file is opened as it is, without its write-ahead log. *)
Definition openReadOnly (archive : path) : io Database :=
  let! content := ReadFile archive in
  match opened content None with
  | None => io_err (Errorf "open event log read-only: %w")
  | Some db => io_ret db
  end.

Definition recordsIn (archive : path) : io (list LogRecord) :=
  let! db := openReadOnly archive in
  let! store := io_of (loadHead db) in
  io_of (readRecords store).

Definition VerifyBackup (archive : path) : io BackupManifest :=
  let! m := readManifest archive in
  let! payload := wrapping "read backup: %w" (ReadFile archive) in
  refuse! (negb (bytes payload =? BM_Bytes m)) "backup is %d bytes, manifest expects %d";
  refuse! (bool_decide (hashBytes payload ≠ BM_Checksum m)) "backup checksum mismatch: the archive is corrupt";
  let! records := wrapping "backup is not a readable event log: %w" (recordsIn archive) in
  refuse! (negb (len records =? BM_Records m)) "backup holds %d records, manifest expects %d";
  let! _ := io_of (wrap_err "backup chain is broken: %w" (verifyChain records)) in
  match last records with
  | None => io_ret m
  | Some head =>
      refuse! (bool_decide (Rec_Hash head ≠ BM_HeadHash m) || negb (Rec_Sequence head =? BM_HeadSequence m))
        "backup head is %d/%s, manifest expects %d/%s: the log was truncated or replaced";
      io_ret m
  end.

Definition second : Z := 1000000000.
Definition superseded (p : path) (now : time) : path := suffixed p (".superseded-" +:+ Sprint (now / second)).

(** Move the log at [p] and its sidecars aside. *)
Definition set_log_aside (p : path) (now : time) : io unit :=
  let aside := superseded p now in
  wrapping "preserve existing log: %w" (Rename p aside) >>
  each (λ suffix, ignoring (Rename (suffixed p suffix) (suffixed aside suffix))) ["-wal"; "-shm"].

Definition Restore (archive : path) (destination : string) (temp : string) (now : time) : io BackupManifest :=
  refuse! (negb (IsAbs destination)) "restore path must be absolute";
  let p := Clean destination in
  let! m := VerifyBackup archive in
  let! payload := wrapping "read backup: %w" (ReadFile archive) in
  wrapping "create restore directory: %w" (MkdirAll (Dir p)) >>
  let! existing := attempt_io (Size p) in
  match existing with
  | Ok size => if 0 <? size then set_log_aside p now else io_ret tt
  | Err _ => io_ret tt
  end >>
  writeFileAtomic temp p payload >>
  io_ret m.

(** The database a server that opens [p] finds. *)
Definition content_at (f : FS) (p : path) : option string :=
  match f !! p with Some (FileEntry c) | Some (OtherEntry (Some c)) => Some c | _ => None end.
Definition database_at (f : FS) (p : path) : option Database :=
  content_at f p ≫= λ main, opened main (content_at f (suffixed p "-wal")).
End Backup.

(** ** What the calls leave alone *)

Lemma Remove_same_tree d p : apart d p → respects (same_tree d) (Remove p).
Proof.
  intros Hd. apply respects_syscall; [|reflexivity]. intros f.
  assert (same_tree d f (delete p f)) as H by (apply tree_ext; intros r; apply lookup_delete_ne; intros ->; apply (apart_not _ _ Hd); by exists r).
  unfold remove_in. destruct (f !! p) as [[]|]; try case_bool_decide; done || reflexivity.
Qed.

Lemma CreateTemp_same_tree d p : apart d p → respects (same_tree d) (CreateTemp p).
Proof.
  intros Hd. apply respects_syscall; [|reflexivity]. intros f. destruct (f !! p); [reflexivity|].
  destruct (write_at_effect f p "") as [->|(_ & _ & ->)]; [reflexivity|]. apply tree_insert_apart, Hd.
Qed.

Lemma Dir_suffixed p suffix : p ≠ [] → Dir (suffixed p suffix) = Dir p.
Proof. intros H. destruct (exists_last H) as (q & name & ->). rewrite suffixed_snoc. unfold Dir. by rewrite !removelast_last. Qed.
Lemma suffixed_some p suffix : p ≠ [] → suffixed p suffix ≠ [].
Proof. intros H. destruct (exists_last H) as (q & name & ->). rewrite suffixed_snoc. by destruct q. Qed.

Lemma same_at d f g : same_tree d f g → g !! d = f !! d.
Proof. intros H. rewrite <-(tree_at f d), <-(tree_at g d). by rewrite H. Qed.

Lemma writeFileAtomic_same_tree d temp p payload :
  apart d p → apart d (Dir p ++ [temp]) → respects (same_tree d) (writeFileAtomic temp p payload).
Proof.
  intros H1 H2. unfold writeFileAtomic, Chmod, Sync, CloseFile. io_frame.
  all: first [ by apply CreateTemp_same_tree | by apply WriteFile_same_tree, apart_not | by apply Rename_same_tree
             | by apply Remove_same_tree ].
Qed.

(** A file written through a temporary one is there, whole, or what was there before is. *)
Lemma writeFileAtomic_ok temp p payload h h' :
  writeFileAtomic temp p payload h = (h', Ok tt) → p ≠ Dir p ++ [temp] → p ≠ [] → fs h' !! p = Some (FileEntry payload).
Proof.
  intros H Hne Hp. destruct (Dir_snoc p Hp) as [base Hbase]. set (name := Dir p ++ [temp]) in *.
  assert (apart p name) as Ha.
  { rewrite Hbase. apply apart_below, apart_names. intros ->. done. }
  unfold writeFileAtomic in H. fold name in H.
  apply io_bind_ok in H as (h1 & u1 & _ & H). apply io_bind_ok in H as (h2 & outcome & Hrun & H).
  apply attempt_ok in Hrun as Hr.
  apply io_bind_ok in H as (h4 & u & Hrm & H). unfold io_of in H. injection H as -> ->.
  apply ignoring_ok in Hrm as ->. rewrite (same_at p (fs h2)); [|apply Remove_same_tree, Ha].
  apply io_bind_ok in Hr as (h5 & [] & H5 & Hr). apply wrapping_ok, reading_ok in H5 as [E5 _].
  apply io_bind_ok in Hr as (h6 & [] & H6 & Hr). apply wrapping_ok, WriteFile_ok in H6 as [E6 _].
  apply io_bind_ok in Hr as (h7 & [] & H7 & Hr). apply wrapping_ok, reading_ok in H7 as [E7 _].
  apply io_bind_ok in Hr as (h8 & [] & H8 & Hr). apply wrapping_ok, reading_ok in H8 as [E8 _].
  apply io_bind_ok in Hr as (h9 & [] & H9 & Hr). apply wrapping_ok, Rename_ok in H9 as [E9 _]; [|done].
  apply ignoring_ok in Hr as ->. unfold Sync at 1. rewrite reading_same, E9, <-tree_at, tree_grafted, tree_at, E8, E7, E6.
  apply lookup_insert_eq.
Qed.

(** ** What a backup is worth *)

Section Worth.
Context {codec : EventCodec} {digest : Digest} {sqlite : SqliteFile} {mcodec : ManifestCodec}.
Context {slaws : SqliteFileLaws sqlite} {mlaws : ManifestCodecLaws mcodec}.

Lemma VacuumInto_ok db p h h' : VacuumInto db p h = (h', Ok tt) → fs h' = <[p := FileEntry (vacuumed db)]> (fs h).
Proof.
  intros H%syscall_ok. cbv beta zeta in H. destruct (fs h !! p) eqn:E; [done|]. unfold write_at in H. rewrite E in H.
  destruct (is_dir _ _); [|done]. by injection H as <-.
Qed.

Lemma ReadFile_ok p h h' c : ReadFile p h = (h', Ok c) → fs h' = fs h ∧ content_at (fs h) p = Some c.
Proof.
  intros [E H]%reading_ok. split; [done|]. unfold content_at. destruct (fs h !! p) as [[c'| |[c'|]]|]; try done; by injection H as ->.
Qed.

(** A successful backup describes the database by its own checksum, and its manifest is
    what a later verification reads. *)
Lemma Backup_ok f db destination temp now h h' m :
  file_db f = Some db → Clean destination ≠ [] →
  suffixed (Clean destination) manifestSuffix ≠ Dir (Clean destination) ++ [temp] →
  Backup f destination temp now h = (h', Ok m) →
  ∃ records encoded, readRecords f = Ok records ∧ m = manifest_of now records (vacuumed db) ∧
    encode_manifest m = Some encoded ∧
    fs h' !! suffixed (Clean destination) manifestSuffix = Some (FileEntry (encoded +:+ end_of_line)).
Proof.
  intros Hdb Hne Htemp H. unfold Backup in H. destruct (negb _); [done|]. rewrite Hdb in H. set (dest := Clean destination) in *.
  apply io_bind_ok in H as (h1 & records & H1 & H). unfold io_of in H1. injection H1 as <- H1.
  apply io_bind_ok in H as (h2 & u2 & _ & H). apply io_bind_ok in H as (h3 & u3 & _ & H).
  apply io_bind_ok in H as (h4 & u4 & _ & H). apply io_bind_ok in H as (h5 & u5 & _ & H).
  apply io_bind_ok in H as (h6 & [] & H6 & H). apply wrapping_ok, VacuumInto_ok in H6 as E6.
  apply io_bind_ok in H as (h7 & [] & H7 & H). apply wrapping_ok, reading_ok in H7 as [E7 _].
  apply io_bind_ok in H as (h8 & payload & H8 & H). apply wrapping_ok, ReadFile_ok in H8 as [E8 Hp].
  rewrite E7, E6 in Hp. unfold content_at in Hp. rewrite lookup_insert_eq in Hp. injection Hp as <-.
  destruct (encode_manifest _) as [encoded|] eqn:He in H; [|done].
  apply io_bind_ok in H as (h9 & [] & H9 & H). injection H as -> <-.
  exists records, encoded. do 3 (split; [done|]).
  apply writeFileAtomic_ok in H9; [done|by rewrite Dir_suffixed|by apply suffixed_some].
Qed.

Lemma VerifyBackup_ok archive h h' m :
  VerifyBackup archive h = (h', Ok m) →
  fs h' = fs h ∧ ∃ raw payload db store records,
    content_at (fs h) (suffixed archive manifestSuffix) = Some raw ∧ decode_manifest raw = Some m ∧
    content_at (fs h) archive = Some payload ∧ hashBytes payload = BM_Checksum m ∧
    opened payload None = Some db ∧ loadHead db = Ok store ∧ readRecords store = Ok records ∧
    verifyChain records = Ok tt ∧ len records = BM_Records m.
Proof.
  intros H. unfold VerifyBackup in H. apply io_bind_ok in H as (h1 & m1 & H1 & H).
  unfold readManifest in H1. apply io_bind_ok in H1 as (h0 & raw & H0 & H1). apply wrapping_ok, ReadFile_ok in H0 as [E0 Hraw].
  destruct (decode_manifest raw) as [m0|] eqn:Hd; [|done]. destruct (negb _); [done|]. injection H1 as <- <-.
  apply io_bind_ok in H as (h2 & payload & H2 & H). apply wrapping_ok, ReadFile_ok in H2 as [E2 Hp].
  destruct (negb _); [done|]. case_bool_decide as Hc; [done|].
  apply io_bind_ok in H as (h3 & records & H3 & H). apply wrapping_ok in H3.
  unfold recordsIn in H3. apply io_bind_ok in H3 as (h4 & db & H4 & H3). unfold openReadOnly in H4.
  apply io_bind_ok in H4 as (h5 & payload' & H5 & H4). apply ReadFile_ok in H5 as [E5 Hp'].
  destruct (opened payload' None) as [db'|] eqn:Ho; [|done]. injection H4 as <- <-.
  apply io_bind_ok in H3 as (h6 & store & H6 & H3). unfold io_of in H6, H3. injection H6 as <- H6. injection H3 as <- H3.
  rewrite E2 in Hp'. assert (payload' = payload) as -> by congruence. rewrite E0 in Hp.
  destruct (negb _) eqn:Hn; [done|]. apply negb_false_iff, Z.eqb_eq in Hn.
  apply io_bind_ok in H as (h7 & [] & H7 & H). unfold io_of in H7. injection H7 as <- H7.
  assert (verifyChain records = Ok tt) as Hv by (destruct (verifyChain records) as [[]|]; done).
  assert (m0 = m ∧ h5 = h') as [-> <-].
  { destruct (last records); [destruct (_ || _); [done|]|]; by injection H. }
  split; [congruence|]. exists raw, payload, db', store, records. done.
Qed.

(** C23: a restored log is the log that was backed up.  A backup was taken of an open log and
    its manifest is still what it was; whatever happened to the archive and the machine
    since, a restore that succeeds has installed a file in which a server finds exactly
    the database that was backed up, whose chain verifies and whose records are the ones
    the log held (or the archive read is another text than the database backed up and has the
    same SHA-256), as long as no write-ahead log lies beside it afterwards (see
    [stale_tail_recovered]) and the temporary files have names of their own. *)
Theorem backup_restores f db destination temp now h0 h1 m h2 target temp' now' h3 m'
    (Hdb : file_db f = Some db) (Hdest : Clean destination ≠ []) (Htarget : Clean target ≠ [])
    (Htemp : suffixed (Clean destination) manifestSuffix ≠ Dir (Clean destination) ++ [temp])
    (Htemp' : Clean target ≠ Dir (Clean target) ++ [temp'])
    (Htaken : Backup f destination temp now h0 = (h1, Ok m))
    (Hkept : fs h2 !! suffixed (Clean destination) manifestSuffix = fs h1 !! suffixed (Clean destination) manifestSuffix)
    (Hrestored : Restore (Clean destination) target temp' now' h2 = (h3, Ok m'))
    (Hwal : fs h3 !! suffixed (Clean target) "-wal" = None) :
  m' = m ∧
  ((∃ log, database_at (fs h3) (Clean target) = Some db ∧ Open db = Ok log ∧ Records log = Records f) ∨
   collision [default "" (content_at (fs h2) (Clean destination)); vacuumed db]).
Proof.
  destruct (Backup_ok _ _ _ _ _ _ _ _ Hdb Hdest Htemp Htaken) as (records & encoded & Hrec & -> & He & Hfile).
  unfold Restore in Hrestored. destruct (negb _); [done|].
  apply io_bind_ok in Hrestored as (h4 & m4 & H4 & H). apply VerifyBackup_ok in H4
    as (E4 & raw & payload & db' & store & records' & Hraw & Hd & Hp & Hsum & Ho & Hhead & Hread & Hver & Hlen).
  unfold content_at in Hraw. rewrite Hkept, Hfile in Hraw. injection Hraw as <-. rewrite (decode_encode_manifest _ _ He) in Hd.
  injection Hd as <-. apply io_bind_ok in H as (h5 & payload' & H5 & H). apply wrapping_ok, ReadFile_ok in H5 as [E5 Hp'].
  rewrite E4 in Hp'. assert (payload' = payload) as -> by congruence.
  apply io_bind_ok in H as (h6 & u6 & _ & H). apply io_bind_ok in H as (h7 & ex & _ & H).
  apply io_bind_ok in H as (h8 & u8 & _ & H). apply io_bind_ok in H as (h9 & [] & H9 & H). injection H as -> <-.
  split; [done|]. apply writeFileAtomic_ok in H9; [|done..].
  replace (BM_Checksum _) with (hashBytes (vacuumed db)) in Hsum by (unfold manifest_of; by destruct (last records)).
  destruct (decide (payload = vacuumed db)) as [->|Hc]; [left|right].
  2: { rewrite Hp. exists payload, (vacuumed db). split; [by left|]. split; [by right; left|done]. }
  rewrite opened_vacuumed in Ho. injection Ho as <-. exists store. unfold database_at, content_at. rewrite H9, Hwal.
  cbn [mbind option_bind]. split; [apply opened_vacuumed|]. unfold Open, Verify. rewrite Hhead. cbn [rbind]. rewrite Hread. cbn [rbind].
  rewrite Hver. split; [done|]. unfold Records. rewrite Hread, Hrec.
  unfold loadHead in Hhead. destruct (db_head db). destruct (negb _); [done|]. injection Hhead as <-.
  unfold readRecords in Hread, Hrec. rewrite Hdb in Hrec. cbn [file_db] in Hread. congruence.
Qed.

(** ** What a restore keeps *)

(** The number of calls a program that succeeds has made. *)
Definition takes (n : nat) {A} (m : io A) : Prop := ∀ h h' a, m h = (h', Ok a) → faults h' = drop n (faults h).

Lemma takes_syscall {A} (run : FS → FS * result A) broken : takes 1 (syscall run broken).
Proof.
  intros h h' a H. unfold syscall in H. destruct (run (fs h)) as [f r]. by destruct (faults h) as [|[n|] rest]; injection H as <- ?.
Qed.
Lemma takes_of {A} (r : result A) : takes 0 (io_of r).
Proof. intros h h' a [= <- _]. done. Qed.
Lemma takes_err {A} n e : takes n (io_err (A := A) e).
Proof. by intros h h' a. Qed.
Lemma takes_wrapping {A} n format (m : io A) : takes n m → takes n (wrapping format m).
Proof. intros Hm h h' a H%wrapping_ok. by apply (Hm h h' a). Qed.
Lemma takes_bind {A B} n k (m : io A) (f : A → io B) : takes n m → (∀ a, takes k (f a)) → takes (n + k) (io_bind m f).
Proof.
  intros Hm Hf h h' b (h1 & a & H1 & H2)%io_bind_ok. rewrite (Hf a h1 h' b H2), (Hm h h1 a H1). by rewrite drop_drop.
Qed.

Lemma VerifyBackup_takes archive : takes 3 (VerifyBackup archive).
Proof.
  apply (takes_bind 1 2).
  { apply (takes_bind 1 0); [apply takes_wrapping, takes_syscall|]. intros raw. destruct (decode_manifest raw); [|apply takes_err].
    destruct (negb _); [apply takes_err|]. apply (takes_of (Ok _)). }
  intros m. apply (takes_bind 1 1); [apply takes_wrapping, takes_syscall|]. intros payload.
  destruct (negb _); [apply takes_err|]. case_bool_decide; [apply takes_err|].
  apply (takes_bind 1 0).
  { apply takes_wrapping, (takes_bind 1 0); [apply (takes_bind 1 0); [apply takes_syscall|]|].
    - intros content. destruct (opened content None); [apply (takes_of (Ok _))|apply takes_err].
    - intros db. apply (takes_bind 0 0); [apply takes_of|]. intros store. apply takes_of. }
  intros records. destruct (negb _); [apply takes_err|]. apply (takes_bind 0 0); [apply takes_of|]. intros _.
  destruct (last records); [destruct (_ || _); [apply takes_err|]|]; apply (takes_of (Ok _)).
Qed.

Lemma VerifyBackup_reads archive : respects eq (VerifyBackup archive).
Proof. unfold VerifyBackup, readManifest, recordsIn, openReadOnly. io_frame. all: case_match; io_frame. Qed.

Lemma superseded_beside p now :
  p ≠ [] → ∃ base, p = Dir p ++ [base] ∧ superseded p now = Dir p ++ [base +:+ (".superseded-" +:+ Sprint (now / second))] ∧
  ∀ suffix, suffixed p suffix = Dir p ++ [base +:+ suffix].
Proof.
  intros Hp. destruct (Dir_snoc p Hp) as [base Hbase]. exists base. unfold superseded.
  assert (∀ suffix, suffixed p suffix = Dir p ++ [base +:+ suffix]) as Hs by (intros; rewrite Hbase at 1; apply suffixed_snoc). auto.
Qed.

Lemma set_log_aside_keeps p now h h' r c :
  p ≠ [] → fs h !! p = Some (FileEntry c) → set_log_aside p now h = (h', r) →
  match r with Ok _ => fs h' !! superseded p now = Some (FileEntry c) | Err _ => fs h' !! p = Some (FileEntry c) end.
Proof.
  intros Hp Hc H. destruct (superseded_beside p now Hp) as (base & Hbase & Ha & Hs). unfold set_log_aside in H.
  set (aside := superseded p now) in *. unfold io_bind at 1 in H. destruct (wrapping _ (Rename p aside) h) as [h1 [[]|e]] eqn:H1.
  - apply wrapping_ok, Rename_moves in H1 as [H1 _]; [|rewrite Hbase, Ha; by apply apart_below, apart_names, append_ne].
    assert (fs h1 !! aside = Some (FileEntry c)) as E1 by by rewrite <-tree_at, H1, tree_at.
    assert (respects (same_tree aside) (each (λ suffix, ignoring (Rename (suffixed p suffix) (suffixed aside suffix))) ["-wal"; "-shm"])) as Hk.
    { cbn [each]. io_frame; apply Rename_same_tree; rewrite ?Hs, ?Ha, ?suffixed_snoc; apply apart_below, apart_names.
      1, 3: by intros E%append_inj_l. all: by apply append_ne. }
    rewrite <-E1. specialize (Hk h1). rewrite H in Hk. apply same_at in Hk. cbn [each] in H.
    destruct r; [exact Hk|]. unfold io_bind, ignoring, io_ret in H. by repeat (destruct (Rename _ _ _) in H; cbn [fst] in H).
  - unfold wrapping in H1. destruct (Rename p aside h) as [h2 [|e2]] eqn:H2; [done|]. cbn in H1. injection H1 as -> _. injection H as <- <-.
    apply Rename_failed in H2. congruence.
Qed.

(** No history is lost to a restore.  Whatever the archive holds, whatever calls fail and
    whenever it is interrupted, the log that was at the destination is still there or lies
    whole under its superseded name, where it is when the restore succeeds; provided that
    the destination could be examined (see [unexamined_log_overwritten]). *)
Theorem restore_preserves archive target temp now h h' r c
    (Hp : Clean target ≠ []) (Hlog : fs h !! Clean target = Some (FileEntry c)) (Hc : c ≠ "")
    (Htemp : Dir (Clean target) ++ [temp] ≠ superseded (Clean target) now)
    (Hexamined : ∀ n, faults h !! 5%nat ≠ Some (Some n))
    (Hrun : Restore archive target temp now h = (h', r)) :
  let kept_aside := fs h' !! superseded (Clean target) now = Some (FileEntry c) in
  match r with Ok _ => kept_aside | Err _ => fs h' !! Clean target = Some (FileEntry c) ∨ kept_aside end.
Proof.
  cbv zeta. unfold Restore in Hrun. destruct (negb _); [injection Hrun as <- <-; by left|]. set (p := Clean target) in *.
  unfold io_bind at 1 in Hrun. destruct (VerifyBackup archive h) as [h1 r1] eqn:H1.
  pose proof (respects_run _ _ _ _ _ (VerifyBackup_reads archive) H1) as E1.
  destruct r1 as [m|e]; [|injection Hrun as <- <-; left; congruence]. apply VerifyBackup_takes in H1 as F1. clear H1.
  unfold io_bind at 1 in Hrun. destruct (wrapping _ (ReadFile archive) h1) as [h2 r2] eqn:H2.
  assert (fs h1 = fs h2) as E2 by exact (respects_run _ _ _ _ _ (respects_wrapping _ _ _ (respects_reading eq _)) H2).
  destruct r2 as [payload|e]; [|injection Hrun as <- <-; left; congruence]. apply wrapping_ok, takes_syscall in H2 as F2. clear H2.
  unfold io_bind at 1 in Hrun. destruct (wrapping _ (MkdirAll (Dir p)) h2) as [h3 r3] eqn:H3.
  assert (same_tree p (fs h2) (fs h3)) as E3%same_at.
  { eapply respects_run; [apply respects_wrapping, MkdirAll_same_tree|exact H3]. destruct (Dir_snoc p Hp) as [base Hb].
    intros Hpre%prefix_length. apply (f_equal length) in Hb. rewrite length_app in Hb. cbn in Hb. lia. }
  assert (fs h3 !! p = Some (FileEntry c)) as L3 by congruence.
  destruct r3 as [[]|e]; [|injection Hrun as <- <-; by left]. apply wrapping_ok, takes_syscall in H3 as F3. clear H3.
  assert (attempt_io (Size p) h3 = (mkMachine (fs h3) (drop 1 (faults h3)), Ok (Ok (Z.of_nat (String.length c))))) as H4.
  { unfold attempt_io, Size, reading, syscall. rewrite L3. destruct (faults h3) as [|[n|] rest] eqn:F; [done| |done].
    destruct (Hexamined n). rewrite F2, F1, !drop_drop in F3. change (3 + (1 + 1))%nat with 5%nat in F3.
    rewrite <-(Nat.add_0_r 5), <-lookup_drop. by rewrite <-F3. }
  unfold io_bind at 1 in Hrun. rewrite H4 in Hrun. destruct (Z.ltb_spec 0 (Z.of_nat (String.length c))); [|destruct c; cbn in *; [done|lia]].
  unfold io_bind at 1 in Hrun. destruct (set_log_aside p now _) as [h5 r5] eqn:H5.
  apply (set_log_aside_keeps _ _ _ _ _ c) in H5; [|done..]. destruct r5 as [[]|e]; [|injection Hrun as <- <-; by left].
  unfold io_bind at 1 in Hrun. destruct (writeFileAtomic temp p payload h5) as [h6 r6] eqn:H6.
  assert (same_tree (superseded p now) (fs h5) (fs h6)) as E6%same_at.
  { eapply respects_run; [apply writeFileAtomic_same_tree|exact H6].
    all: destruct (superseded_beside p now Hp) as (base & Hbase & Ha & _); rewrite Ha in *.
    - rewrite Hbase at 2. apply apart_below, apart_names, not_eq_sym. by apply append_ne.
    - apply apart_below, apart_names. congruence. }
  destruct r6 as [[]|e]; injection Hrun as <- <-; [|right]; congruence.
Qed.

(** ** Backups can be made *)

(** A machine on which nothing fails. *)
Definition sound_machine (f : FS) : Machine := mkMachine f [].

Lemma syscall_sound {A} (run : FS → FS * result A) broken f :
  syscall run broken (sound_machine f) = (sound_machine (run f).1, (run f).2).
Proof. unfold syscall. cbn. by destruct (run f). Qed.
Lemma reading_sound {A} (run : FS → result A) f : reading run (sound_machine f) = (sound_machine f, run f).
Proof. unfold reading. by rewrite syscall_sound. Qed.

Lemma syscall_run {A} (run : FS → FS * result A) broken f g a :
  run f = (g, Ok a) → syscall run broken (sound_machine f) = (sound_machine g, Ok a).
Proof. intros H. by rewrite syscall_sound, H. Qed.
Lemma touch_run f : reading (λ _, Ok tt) (sound_machine f) = (sound_machine f, Ok tt).
Proof. apply (reading_sound (λ _, Ok tt)). Qed.
Lemma io_bind_step {A B} (m : io A) (k : A → io B) h h' a : m h = (h', Ok a) → io_bind m k h = k a h'.
Proof. intros H. unfold io_bind. by rewrite H. Qed.
Lemma wrapping_step {A} format (m : io A) h h' a : m h = (h', Ok a) → wrapping format m h = (h', Ok a).
Proof. intros H. unfold wrapping. by rewrite H. Qed.
Lemma ignoring_step {A} (m : io A) h h' r : m h = (h', r) → ignoring m h = (h', Ok tt).
Proof. intros H. unfold ignoring. by rewrite H. Qed.
Lemma attempt_step {A} (m : io A) h h' r : m h = (h', r) → attempt_io m h = (h', Ok r).
Proof. intros H. unfold attempt_io. by rewrite H. Qed.

Lemma writeFileAtomic_sound temp p payload f :
  p ≠ [] → p ≠ Dir p ++ [temp] → f !! (Dir p ++ [temp]) = None → is_dir f (Dir p) = true → f !! p ≠ Some DirEntry →
  ∃ g, writeFileAtomic temp p payload (sound_machine f) = (sound_machine g, Ok tt).
Proof.
  intros Hp Hne Hfree Hdir Hnd. set (name := Dir p ++ [temp]) in *.
  assert (Dir name = Dir p) as Hn by (unfold name; unfold Dir at 1; by rewrite removelast_last).
  set (f1 := <[name := FileEntry payload]> (<[name := FileEntry ""]> f)).
  assert (rename_in f1 name p = (grafted (cleared f1 name) p (tree f1 name), Ok tt)) as Hren.
  { unfold rename_in, f1. rewrite lookup_insert_eq, !lookup_insert_ne by done.
    assert (¬ name `prefix_of` p) as Hpre.
    { destruct (Dir_snoc p Hp) as [base Hb]. rewrite Hb. unfold name. intros H%prefix_app_inv. apply Hne. unfold name.
      destruct H as [t [= <- _]]. exact Hb. }
    rewrite bool_decide_false by done. rewrite is_dir_insert; [|apply is_dir_insert; [done|left; by rewrite Hfree]|left; by rewrite lookup_insert_eq].
    destruct (f !! p) as [[]|]; done. }
  assert (is_dir (<[name := FileEntry ""]> f) (Dir p) = true) as Hdir' by (apply is_dir_insert; [done|left; by rewrite Hfree]).
  eexists. unfold writeFileAtomic. fold name. cbv zeta.
  erewrite io_bind_step by (apply wrapping_step, syscall_run; rewrite Hfree; unfold write_at; by rewrite Hfree, Hn, Hdir).
  erewrite io_bind_step.
  2: { apply attempt_step. erewrite io_bind_step by (apply wrapping_step, touch_run).
       erewrite io_bind_step by (apply wrapping_step, syscall_run; unfold write_at; by rewrite lookup_insert_eq, Hn, Hdir').
       erewrite io_bind_step by (apply wrapping_step, touch_run). erewrite io_bind_step by (apply wrapping_step, touch_run).
       erewrite io_bind_step by (apply wrapping_step, syscall_run, Hren). eapply ignoring_step, touch_run. }
  erewrite io_bind_step by (eapply ignoring_step, syscall_sound). reflexivity.
Qed.

(** The record of a good archive is what verification finds. *)
Lemma VerifyBackup_sound archive f db store records now encoded m :
  loadHead db = Ok store → readRecords store = Ok records → verifyChain records = Ok tt →
  m = manifest_of now records (vacuumed db) → encode_manifest m = Some encoded →
  f !! archive = Some (FileEntry (vacuumed db)) →
  f !! suffixed archive manifestSuffix = Some (FileEntry (encoded +:+ end_of_line)) →
  VerifyBackup archive (sound_machine f) = (sound_machine f, Ok m).
Proof.
  intros Hhead Hread Hver Hm He Ha Hf.
  assert (BM_Version m = BackupVersion ∧ BM_Bytes m = bytes (vacuumed db) ∧ BM_Checksum m = hashBytes (vacuumed db) ∧
          BM_Records m = len records) as (M1 & M2 & M3 & M4) by (subst m; unfold manifest_of; by destruct (last records)).
  assert (ReadFile archive (sound_machine f) = (sound_machine f, Ok (vacuumed db))) as Hra
    by (unfold ReadFile; rewrite reading_sound; by rewrite Ha).
  unfold VerifyBackup. erewrite io_bind_step.
  2: { unfold readManifest. erewrite io_bind_step by (apply wrapping_step; unfold ReadFile; rewrite reading_sound; by rewrite Hf).
       rewrite (decode_encode_manifest _ _ He), M1. reflexivity. }
  erewrite io_bind_step by (apply wrapping_step, Hra). rewrite M2, Z.eqb_refl, M3, bool_decide_false by auto. cbn [negb].
  erewrite io_bind_step.
  2: { apply wrapping_step. unfold recordsIn. erewrite io_bind_step.
       2: { unfold openReadOnly. erewrite io_bind_step by exact Hra. by rewrite opened_vacuumed. }
       unfold io_of. erewrite io_bind_step by (by rewrite Hhead). by rewrite Hread. }
  rewrite M4, Z.eqb_refl. cbn [negb]. erewrite io_bind_step by (unfold io_of; by rewrite Hver).
  subst m. unfold manifest_of in *. destruct (last records) as [head|]; [|done]. cbn. rewrite Z.eqb_refl, bool_decide_false by auto. done.
Qed.

(** Backups can be made.  On a machine on which nothing fails, an open log whose chain
    verifies is backed up to any absolute path whose directory can be made and which is
    not itself a directory, and the backup verifies. *)
Theorem backup_verifies f db store records destination temp now files g
    (Hdb : file_db f = Some db) (Hhead : loadHead db = Ok store) (Hread : readRecords f = Ok records)
    (Hver : verifyChain records = Ok tt) (Habs : IsAbs destination = true) (Hdest : Clean destination ≠ [])
    (Hmade : MkdirAll (Dir (Clean destination)) (sound_machine files) = (sound_machine g, Ok tt))
    (Hnd : g !! Clean destination ≠ Some DirEntry)
    (Hnd' : g !! suffixed (Clean destination) manifestSuffix ≠ Some DirEntry)
    (Hfree : g !! (Dir (Clean destination) ++ [temp]) = None) (Htemp : Clean destination ≠ Dir (Clean destination) ++ [temp])
    (Htemp' : suffixed (Clean destination) manifestSuffix ≠ Dir (Clean destination) ++ [temp])
    (Henc : is_Some (encode_manifest (manifest_of now records (vacuumed db)))) :
  ∃ kept m, Backup f destination temp now (sound_machine files) = (sound_machine kept, Ok m) ∧
    VerifyBackup (Clean destination) (sound_machine kept) = (sound_machine kept, Ok m).
Proof.
  set (dest := Clean destination) in *. set (mp := suffixed dest manifestSuffix) in *. set (m := manifest_of _ _ _) in *.
  destruct Henc as [encoded He]. destruct (Dir_snoc dest Hdest) as [base Hbase].
  assert (mp = Dir dest ++ [base +:+ manifestSuffix]) as Hmp by (unfold mp; rewrite Hbase at 1; apply suffixed_snoc).
  assert (dest ≠ mp) as Hne. { rewrite Hmp, Hbase at 1. intros E%app_inj_2; [|done]. destruct E as [_ [= E]]. by apply append_ne in E. }
  assert (is_dir g (Dir dest) = true) as Hdir by (apply MkdirAll_ok in Hmade as [? _]; done).
  set (g1 := delete dest g). set (g2 := <[dest := FileEntry (vacuumed db)]> g1).
  assert (is_dir g1 (Dir dest) = true) as Hdir1.
  { unfold is_dir, g1 in *. rewrite lookup_delete_ne; [done|]. intros E. pose proof (f_equal length Hbase) as Hl.
    rewrite length_app, <-E in Hl. cbn in Hl. lia. }
  destruct (writeFileAtomic_sound temp mp (encoded +:+ end_of_line) g2) as [kept Hw].
  { by apply suffixed_some. }
  { unfold mp at 2. by rewrite Dir_suffixed. }
  { unfold mp. rewrite Dir_suffixed by done. unfold g2, g1. by rewrite lookup_insert_ne, lookup_delete_ne. }
  { unfold mp. rewrite Dir_suffixed by done. apply is_dir_insert; [done|]. left. unfold g1. by rewrite lookup_delete_eq. }
  { unfold g2, g1. by rewrite lookup_insert_ne, lookup_delete_ne. }
  exists kept, m. split.
  - unfold Backup. rewrite Habs, Hdb. cbn [negb]. fold dest. unfold io_of. erewrite io_bind_step by (by rewrite Hread).
    erewrite io_bind_step by (by rewrite Hver). erewrite io_bind_step by (apply wrapping_step, Hmade).
    assert (∃ r, Remove dest (sound_machine g) = (sound_machine g1, r) ∧ (r = Ok tt ∨ r = Err ErrNotExist)) as (r & Hrm & Hr).
    { unfold Remove. rewrite syscall_sound. unfold remove_in. destruct (g !! dest) as [[]|] eqn:Hg; try done; cbn; eauto.
      unfold g1. rewrite delete_id by done. eauto. }
    erewrite io_bind_step by (apply attempt_step, Hrm). erewrite io_bind_step by (by destruct Hr as [-> | ->]).
    erewrite io_bind_step by (apply wrapping_step, syscall_run; cbv beta; unfold g1; rewrite lookup_delete_eq; fold g1;
                              unfold write_at; unfold g1 at 1; by rewrite lookup_delete_eq, Hdir1).
    erewrite io_bind_step by (apply wrapping_step, touch_run). fold g2.
    erewrite io_bind_step by (apply wrapping_step; unfold ReadFile; rewrite reading_sound; unfold g2; by rewrite lookup_insert_eq).
    fold m. fold g2. rewrite He. fold mp. by erewrite io_bind_step by exact Hw.
  - eapply VerifyBackup_sound; try done.
    + rewrite <-Hread. unfold loadHead in Hhead. destruct (db_head db). destruct (negb _); [done|]. injection Hhead as <-.
      unfold readRecords. by rewrite Hdb.
    + assert (same_tree dest g2 kept) as ->%same_at; [|by unfold g2; rewrite lookup_insert_eq].
      change g2 with (fs (sound_machine g2)). change kept with (fs (sound_machine kept)).
      eapply respects_run; [apply writeFileAtomic_same_tree|exact Hw].
      * rewrite Hmp. rewrite Hbase at 1. by apply apart_below, apart_names, append_ne.
      * unfold mp. rewrite Dir_suffixed by done. rewrite Hbase at 1. apply apart_below, apart_names. intros E. apply Htemp. by rewrite <-E.
    + apply writeFileAtomic_ok in Hw; [done|unfold mp at 2; by rewrite Dir_suffixed|by apply suffixed_some].
Qed.
End Worth.

(** ** Samples *)

(** Read the bits of a code up to the end of the line. *)
Fixpoint of_bits (s : string) : positive :=
  match s with
  | "" => xH
  | String c s =>
      if Ascii.eqb c QueueSample.one then xI (of_bits s) else if Ascii.eqb c QueueSample.zero then xO (of_bits s) else xH
  end.
Lemma of_bits_bits x : of_bits (QueueSample.bits x) = x.
Proof. induction x as [x IH|x IH|]; cbn; [by rewrite IH..|done]. Qed.
Lemma of_bits_line x : of_bits (QueueSample.bits x +:+ end_of_line) = x.
Proof.
  induction x as [x IH|x IH|]; [|change (xO (of_bits (QueueSample.bits x +:+ end_of_line)) = xO x); by rewrite IH|done].
  change (xI (of_bits (QueueSample.bits x +:+ end_of_line)) = xI x). by rewrite IH.
Qed.

#[export] Instance Row_eq_dec : EqDecision Row. Proof. solve_decision. Defined.
#[export] Instance Database_eq_dec : EqDecision Database. Proof. solve_decision. Defined.
#[export] Instance BackupManifest_eq_dec : EqDecision BackupManifest. Proof. solve_decision. Defined.
#[export] Instance Row_countable : Countable Row.
Proof.
  refine (inj_countable' (λ r, (Row_Sequence r, Row_PreviousHash r, Row_Hash r, Row_Payload r)) (λ '(a, b, c, d), mkRow a b c d) _).
  by intros [].
Defined.
#[export] Instance Database_countable : Countable Database.
Proof. refine (inj_countable' (λ d, (db_records d, db_head d)) (λ '(a, b), mkDatabase a b) _). by intros []. Defined.
#[export] Instance BackupManifest_countable : Countable BackupManifest.
Proof.
  refine (inj_countable' (λ m, (BM_Version m, BM_TakenAt m, BM_Records m, BM_HeadSequence m, BM_HeadHash m, BM_Checksum m, BM_Bytes m, BM_Format m))
    (λ '(a, b, c, d, e, f, g, h), mkBackupManifest a b c d e f g h) _). by intros [].
Defined.

Module BackupSample.
#[local] Existing Instances toy_codec toy_digest toy_codec_laws toy_digest_laws.

(** Short texts for the databases and the manifests below, bits for any other. *)
Definition db1 : Database := Eval vm_compute in default fresh_database (file_db log1).
Definition db2 : Database := Eval vm_compute in default fresh_database (file_db log2).
Lemma bits_neither x s : QueueSample.bits x = String (Ascii.ascii_of_nat 116) s → False.
Proof. by destruct x. Qed.
#[local] Instance sample_sqlite : SqliteFile := {|
  vacuumed db := if decide (db = db1) then "t1" else if decide (db = db2) then "t2" else QueueSample.bits (encode db);
  opened main wal :=
    let text := default main wal in
    if decide (text = "t1") then Some db1 else if decide (text = "t2") then Some db2 else decode (of_bits text) |}.
#[local] Instance sample_sqlite_laws : SqliteFileLaws sample_sqlite.
Proof.
  intros db. unfold opened, vacuumed, sample_sqlite. cbn [default from_option]. destruct (decide (db = db1)) as [->|]; [done|].
  destruct (decide (db = db2)) as [->|]; [done|]. rewrite !decide_False by (by intros ?%bits_neither). by rewrite of_bits_bits, decode_encode.
Qed.
Definition manifest5 : BackupManifest := Eval vm_compute in manifest_of 5 (Records log2) "t2".
#[local] Instance sample_manifests : ManifestCodec := {|
  encode_manifest m := Some (if decide (m = manifest5) then "t" else QueueSample.bits (encode m));
  decode_manifest s := if decide (s = "t" +:+ end_of_line) then Some manifest5 else decode (of_bits s) |}.
#[local] Instance sample_manifests_laws : ManifestCodecLaws sample_manifests.
Proof.
  intros m s [= <-]. unfold decode_manifest, sample_manifests. destruct (decide (m = manifest5)) as [->|]; [done|].
  rewrite decide_False; [by rewrite of_bits_line, decode_encode|]. by destruct (encode m).
Qed.

Definition disk : FS := list_to_map [(["srv"], DirEntry); (["backups"], DirEntry); (["srv"; "log.db"], FileEntry "history")].
Definition taken : Machine * result BackupManifest := Eval vm_compute in Backup log2 "/backups/log.db" ".a4s-1" 5 (sound_machine disk).
Definition archive : path := ["backups"; "log.db"].
Definition restored : Machine * result BackupManifest := Eval vm_compute in Restore archive "/srv/log.db" ".a4s-2" 7000000000 taken.1.

Lemma backup_restores_witness : restored.2 = Ok manifest5 ∧
  ((∃ log, database_at (fs restored.1) ["srv"; "log.db"] = Some db2 ∧ Open db2 = Ok log ∧ Records log = Records log2) ∨
   collision [default "" (content_at (fs taken.1) archive); vacuumed db2]).
Proof.
  split; [vm_compute; reflexivity|].
  apply (backup_restores log2 db2 "/backups/log.db" ".a4s-1" 5 (sound_machine disk) taken.1 manifest5 taken.1
    "/srv/log.db" ".a4s-2" 7000000000 restored.1 manifest5); vm_compute; reflexivity || discriminate.
Defined.

Lemma restore_preserves_witness :
  fs restored.1 !! ["srv"; "log.db.superseded-7"] = Some (FileEntry "history").
Proof.
  apply (restore_preserves archive "/srv/log.db" ".a4s-2" 7000000000 taken.1 restored.1 (Ok manifest5) "history");
    vm_compute; reflexivity || discriminate.
Defined.

Lemma backup_verifies_witness :
  ∃ kept m, Backup log2 "/backups/log.db" ".a4s-1" 5 (sound_machine disk) = (sound_machine kept, Ok m) ∧
    VerifyBackup archive (sound_machine kept) = (sound_machine kept, Ok m).
Proof.
  eapply (backup_verifies log2 db2 _ (Records log2) "/backups/log.db" ".a4s-1" 5 disk disk).
  all: vm_compute; discriminate || reflexivity || by eexists.
Defined.

(** A failing examination of the destination counts as absence: the history there is
    overwritten, and the restore reports success. *)
Lemma unexamined_log_overwritten :
  let run := Restore archive "/srv/log.db" ".a4s-2" 7000000000 (mkMachine (fs taken.1) (replicate 5 None ++ [Some 0%nat])) in
  is_Ok run.2 ∧ map_Forall (λ _ e, e ≠ FileEntry "history") (fs run.1).
Proof. split; [vm_compute; exact I|]. apply (bool_decide_unpack _). vm_compute. exact I. Qed.

(** The previous archive is removed before the new one is written: a backup that fails
    leaves none that verifies, where one was before. *)
Lemma failed_backup_loses_previous :
  let run := Backup log2 "/backups/log.db" ".a4s-3" 9 (mkMachine (fs taken.1) [None; None; Some 0%nat]) in
  is_Ok (VerifyBackup archive taken.1).2 ∧ ¬ is_Ok run.2 ∧ ¬ is_Ok (VerifyBackup archive (sound_machine (fs run.1))).2.
Proof. vm_compute. repeat split; (by intros []) || exact I. Qed.

(** A write-ahead log is moved aside with the log it belongs to, and left where it is when
    that is gone: the restored database is opened with it. *)
Definition stale : FS :=
  <[["srv"; "log.db-wal"] := FileEntry (vacuumed db1)]> (delete ["srv"; "log.db"] (fs taken.1)).
Lemma stale_tail_recovered :
  let run := Restore archive "/srv/log.db" ".a4s-2" 7000000000 (sound_machine stale) in
  is_Ok run.2 ∧ database_at (fs run.1) ["srv"; "log.db"] = file_db log1 ∧ file_db log1 ≠ file_db log2.
Proof. vm_compute. repeat split; exact I || reflexivity || discriminate. Qed.

(** Two restores within a second use one superseded name: the second replaces the log the
    first had preserved. *)
Lemma second_restore_loses_history :
  let run := Restore archive "/srv/log.db" ".a4s-3" 7500000000 restored.1 in
  fs restored.1 !! ["srv"; "log.db.superseded-7"] = Some (FileEntry "history") ∧ is_Ok run.2 ∧
  map_Forall (λ _ e, e ≠ FileEntry "history") (fs run.1).
Proof. split; [vm_compute; reflexivity|]. split; [vm_compute; exact I|]. apply (bool_decide_unpack _). vm_compute. exact I. Qed.
End BackupSample.
