(* ===== verification/Network.v ===== *)
(** * Addresses and attachments (src/node/network.go)

    The node's network capability over any backend, the allocator of a node-local subnet,
    and the in-process backend built on it.  [net.ParseCIDR] and [net.ParseIP] are
    parameters; an address is the 32-bit number its dotted text stands for. *)

From S2P Require Import Prelude Types Text Executor Directory Validate.
Open Scope Z_scope.

(** ** The allocator *)

Definition two32 : Z := 2 ^ 32.
Definition u32 (z : Z) : Z := z mod two32.

(** [net.ParseCIDR]: [None] for a text that is no prefix; [Some None] for one whose
    address is not IPv4; otherwise the address and the number of bits left to hosts. *)
Class SubnetParser := parse_subnet : string → option (option (Z * Z)).
Class SubnetParserLaws (parser : SubnetParser) : Prop :=
  subnet_prefix : ∀ s base host, parse_subnet s = Some (Some (base, host)) →
    0 <= host <= 32 ∧ 0 <= base ∧ base + 2 ^ host <= two32.

(** [BridgeIPAM]; the set [released] is never written. *)
Record BridgeIPAM := mkBridgeIPAM {
  ipam_base : Z; ipam_host : Z; ipam_next : Z; ipam_assigned : gmap string string }.
#[export] Instance eta_BridgeIPAM : Eta BridgeIPAM := λ a,
  mkBridgeIPAM (ipam_base a) (ipam_host a) (ipam_next a) (ipam_assigned a).

Definition NewBridgeIPAM {parser : SubnetParser} (cidr : string) : result BridgeIPAM :=
  need subnet := parse_subnet cidr else "parse allocation subnet: %w";
  need v4 := subnet else "allocation subnet must be IPv4";
  Ok (mkBridgeIPAM v4.1 v4.2 2 ∅).

Definition byte_of (value : Z) (shift : Z) : Z := Z.shiftr value shift mod 256.
Definition ipv4From (value : Z) : string :=
  Sprint (byte_of value 24) +:+ "." +:+ Sprint (byte_of value 16) +:+ "." +:+ Sprint (byte_of value 8) +:+ "." +:+ Sprint (byte_of value 0).

Definition inUse (a : BridgeIPAM) (address : string) : bool :=
  bool_decide (map_Exists (λ _ existing, existing = address) (ipam_assigned a)).

(** [uint32(1) << uint(bits-ones)]: a shift by the width gives zero. *)
Definition capacity (a : BridgeIPAM) : Z := u32 (Z.shiftl 1 (ipam_host a)).

(** The loop of [Assign].  Every round that goes on has found its candidate in use, so as
    many rounds as there are addresses in use, and one more, are enough; [None] would be
    a loop that is not over. *)
Fixpoint find_free (fuel : nat) (a : BridgeIPAM) (offset : Z) : option (option Z) :=
  match fuel with
  | O => None
  | S fuel =>
      if offset <? u32 (capacity a - 1) then
        if inUse a (ipv4From (u32 (ipam_base a + offset))) then find_free fuel a (u32 (offset + 1)) else Some (Some offset)
      else Some None
  end.
Definition rounds (a : BridgeIPAM) : nat := S (size (ipam_assigned a)).

Definition Assign (a : BridgeIPAM) (allocation : string) : BridgeIPAM * result (string * bool) :=
  match ipam_assigned a !! allocation with
  | Some address => (a, Ok (address, true))
  | None =>
      match find_free (rounds a) a (ipam_next a) with
      | Some (Some offset) =>
          let candidate := ipv4From (u32 (ipam_base a + offset)) in
          (a <| ipam_assigned ::= <[allocation := candidate]> |> <| ipam_next := u32 (offset + 1) |>, Ok (candidate, false))
      | _ => (a, Err (Errorf "allocation subnet %s is exhausted"))
      end
  end.

Definition ipam_Release (a : BridgeIPAM) (allocation : string) : BridgeIPAM * bool :=
  match ipam_assigned a !! allocation with
  | None => (a, false)
  | Some _ => (a <| ipam_assigned ::= delete allocation |>, true)
  end.

Definition ipam_Address (a : BridgeIPAM) (allocation : string) : option string := ipam_assigned a !! allocation.

(** ** The capability *)

Record NetworkAttachment := mkAttachment {
  Att_Address : string; Att_Namespace : string; Att_Interface : string; Att_AlreadyAttached : bool }.
#[export] Instance eta_NetworkAttachment : Eta NetworkAttachment := λ a,
  mkAttachment (Att_Address a) (Att_Namespace a) (Att_Interface a) (Att_AlreadyAttached a).

Record NetworkRequest := mkNetworkRequest {
  Req_Allocation : string; Req_Workload : string; Req_Port : Z; Req_ContainerID : string }.

Record NetworkBackend (N : Type) := mkNetworkBackend {
  net_Attach : N → NetworkRequest → N * result NetworkAttachment;
  net_Detach : N → string → N * result bool;
  net_Check : N → string → result NetworkAttachment }.
Arguments mkNetworkBackend {N}.
Arguments net_Attach {N}.
Arguments net_Detach {N}.
Arguments net_Check {N}.

(** Whether [net.ParseIP] accepts a text. *)
Class AddressParser := is_address : string → bool.

(** [Network]; [backend] is [None] for a node without the capability. *)
Section Capability.
Context {N : Type} {ip : AddressParser} (backend : option (NetworkBackend N)).

Definition Network_Execute (n : N) (a : Action) : N * result Evidence :=
  match backend, Action_Kind a with
  | None, _ => (n, Err (Errorf "node has no network capability"))
  | Some backend, ActionAttachNetwork =>
      if bool_decide (Action_Target a = "") || bool_decide (Action_Workload a = "")
      then (n, Err (Errorf "attach network requires target and workload"))
      else match net_Attach backend n (mkNetworkRequest (Action_Target a) (Action_Workload a) (Action_Port a) (Action_Target a)) with
           | (n, Err e) => (n, Err (Wrapf "attach network for %q: %w" e))
           | (n, Ok att) =>
               if bool_decide (Att_Address att = "") then (n, Err (Errorf "network backend returned no address for %q"))
               else if negb (is_address (Att_Address att))
               then (n, Err (Errorf "network backend returned invalid address %q for %q"))
               else (n, Ok (report EvidenceNetworkAttached (Action_Target a)
                      (<["address" := Att_Address att]> (<["namespace" := Att_Namespace att]>
                       (<["interface" := Att_Interface att]> {["already_attached" := Sprint_bool (Att_AlreadyAttached att)]})))))
           end
  | Some _, _ => (n, Err (Errorf "network does not support action kind %q"))
  end.

Definition Network_Detach (n : N) (allocation : string) : N * result Evidence :=
  match backend with
  | None => (n, Ok (report (EvidenceOther "") "" ∅))
  | Some backend =>
      match net_Detach backend n allocation with
      | (n, Err e) => (n, Err (Wrapf "detach network for %q: %w" e))
      | (n, Ok released) => (n, Ok (report EvidenceNetworkDetached allocation {["released" := Sprint_bool released]}))
      end
  end.

Definition Network_Attachment (n : N) (allocation : string) : result NetworkAttachment :=
  need backend := backend else "node has no network capability";
  net_Check backend n allocation.
End Capability.

(** ** The in-process backend *)

Record MemoryNetwork := mkMemoryNetwork {
  mem_ipam : BridgeIPAM; mem_attachments : gmap string NetworkAttachment; mem_FailAttach : option error }.
#[export] Instance eta_MemoryNetwork : Eta MemoryNetwork := λ m,
  mkMemoryNetwork (mem_ipam m) (mem_attachments m) (mem_FailAttach m).

Definition NewMemoryNetwork {parser : SubnetParser} (cidr : string) : result MemoryNetwork :=
  let* ipam := NewBridgeIPAM cidr in Ok (mkMemoryNetwork ipam ∅ None).

Definition Memory_Attach (m : MemoryNetwork) (r : NetworkRequest) : MemoryNetwork * result NetworkAttachment :=
  match mem_FailAttach m with
  | Some e => (m, Err e)
  | None =>
      match mem_attachments m !! Req_Allocation r with
      | Some existing => (m, Ok (existing <| Att_AlreadyAttached := true |>))
      | None =>
          match Assign (mem_ipam m) (Req_Allocation r) with
          | (ipam, Err e) => (m <| mem_ipam := ipam |>, Err e)
          | (ipam, Ok (address, _)) =>
              let attachment := mkAttachment address ("/var/run/a4s/netns/" +:+ Req_Allocation r) "eth0" false in
              (m <| mem_ipam := ipam |> <| mem_attachments ::= <[Req_Allocation r := attachment]> |>, Ok attachment)
          end
      end
  end.

Definition Memory_Detach (m : MemoryNetwork) (allocation : string) : MemoryNetwork * result bool :=
  match mem_attachments m !! allocation with
  | None => (m, Ok false)
  | Some _ => (m <| mem_attachments ::= delete allocation |> <| mem_ipam ::= λ a, (ipam_Release a allocation).1 |>, Ok true)
  end.

Definition Memory_Check (m : MemoryNetwork) (allocation : string) : result NetworkAttachment :=
  need attachment := mem_attachments m !! allocation else "allocation %q has no network attachment";
  Ok (attachment <| Att_AlreadyAttached := true |>).

Definition MemoryBackend : NetworkBackend MemoryNetwork := mkNetworkBackend Memory_Attach Memory_Detach Memory_Check.

(** ** Addresses as text *)

Fixpoint free_of (c : Ascii.ascii) (s : string) : bool :=
  match s with "" => true | String d s => negb (bool_decide (d = c)) && free_of c s end.

Lemma separated_inj c s s' t t' :
  free_of c s = true → free_of c s' = true → s +:+ String c t = s' +:+ String c t' → s = s' ∧ t = t'.
Proof.
  revert s'. induction s as [|d s IH]; intros [|d' s'] Hs Hs' H; simpl in *.
  - by injection H as ->.
  - injection H as <- _. by rewrite bool_decide_true in Hs'.
  - injection H as -> _. by rewrite bool_decide_true in Hs.
  - injection H as -> H. apply andb_true_iff in Hs as [_ Hs]. apply andb_true_iff in Hs' as [_ Hs'].
    destruct (IH s' Hs Hs' H) as [-> ->]. done.
Qed.

Lemma pretty_go_free c x s : is_digit c = false → free_of c s = true → free_of c (pretty_N_go x s) = true.
Proof.
  intros Hc. revert s. induction (N.lt_wf_0 x) as [x _ IH]; intros s Hs.
  destruct (decide (x = 0)%N) as [->|Hx]; [by rewrite pretty_N_go_0|].
  rewrite pretty_N_go_step by lia. apply IH; [apply N.div_lt; lia|]. simpl. rewrite Hs, andb_true_r.
  rewrite bool_decide_false; [done|]. intros E. destruct (pretty_char_digit (x mod 10)) as [Hd _]; [apply N.mod_lt; lia|]. congruence.
Qed.

Lemma Sprint_free c z : is_digit c = false → 0 <= z → free_of c (Sprint z) = true.
Proof.
  intros Hc Hz. destruct z as [|p|p]; [|change (Sprint (Z.pos p)) with (pretty (N.pos p))|lia].
  - change (Sprint 0) with "0". simpl. rewrite bool_decide_false; [done|]. intros <-. done.
  - unfold pretty, pretty_N. case_decide; [done|]. by apply pretty_go_free.
Qed.

Lemma byte_of_range v shift : 0 <= byte_of v shift < 256.
Proof. unfold byte_of. apply Z.mod_pos_bound. lia. Qed.

Lemma byte_of_sum v : 0 <= v < two32 → v = 2 ^ 24 * byte_of v 24 + 2 ^ 16 * byte_of v 16 + 2 ^ 8 * byte_of v 8 + byte_of v 0.
Proof.
  unfold two32, byte_of. intros H. rewrite !Z.shiftr_div_pow2 by lia.
  change (2 ^ 0) with 1. change (2 ^ 8) with 256. change (2 ^ 16) with 65536. change (2 ^ 24) with 16777216. change (2 ^ 32) with 4294967296 in H.
  Z.to_euclidean_division_equations. lia.
Qed.

(** Different addresses have different texts. *)
Lemma ipv4From_inj v v' : 0 <= v < two32 → 0 <= v' < two32 → ipv4From v = ipv4From v' → v = v'.
Proof.
  intros Hv Hv' H. unfold ipv4From in H. rewrite (byte_of_sum v Hv), (byte_of_sum v' Hv').
  assert (∀ x s, free_of dot (Sprint (byte_of x s)) = true) as Hfree by (intros; apply Sprint_free; [done|apply byte_of_range]).
  repeat (apply separated_inj in H as [?E H]; [|apply Hfree..]).
  assert (∀ x y, Sprint x = Sprint y → x = y) as Hinj by (intros x y; apply (inj pretty)).
  apply Hinj in E, E0, E1, H. congruence.
Qed.

(** ** What the allocator keeps *)

Definition address_at (a : BridgeIPAM) (offset : Z) : string := ipv4From (u32 (ipam_base a + offset)).
(** One past the last offset handed out: the last address of a subnet is its broadcast. *)
Definition last_offset (a : BridgeIPAM) : Z := 2 ^ ipam_host a - 1.

Record ipam_ok (a : BridgeIPAM) : Prop := {
  ipam_subnet : 0 <= ipam_host a <= 32 ∧ 0 <= ipam_base a ∧ ipam_base a + 2 ^ ipam_host a <= two32;
  ipam_start : 2 <= ipam_next a < two32;
  ipam_held : ∀ k address, ipam_assigned a !! k = Some address →
    ∃ o, address = address_at a o ∧ 2 <= o < ipam_next a ∧ o < last_offset a;
  ipam_single : ∀ k k' address, ipam_assigned a !! k = Some address → ipam_assigned a !! k' = Some address → k = k' }.

Lemma capacity_limit a : 0 <= ipam_host a <= 32 → u32 (capacity a - 1) = last_offset a.
Proof.
  intros H. unfold capacity, u32, last_offset. rewrite Z.shiftl_1_l. destruct (decide (ipam_host a = 32)) as [->|Hne].
  { unfold two32. rewrite Z.mod_same by lia. reflexivity. }
  assert (2 ^ ipam_host a <= 2 ^ 31) by (apply Z.pow_le_mono_r; lia). assert (0 < 2 ^ ipam_host a) by (apply Z.pow_pos_nonneg; lia).
  unfold two32. change (2 ^ 31) with 2147483648 in *. change (2 ^ 32) with 4294967296.
  rewrite (Z.mod_small (2 ^ ipam_host a)) by lia. rewrite Z.mod_small; lia.
Qed.

Lemma address_at_inj a o o' :
  ipam_ok a → 0 <= o < 2 ^ ipam_host a → 0 <= o' < 2 ^ ipam_host a → address_at a o = address_at a o' → o = o'.
Proof.
  intros Ha Ho Ho' H. destruct (ipam_subnet a Ha) as (_ & Hb & Ht). unfold address_at, u32 in H.
  assert (0 <= ipam_base a + o < two32) as R by lia. assert (0 <= ipam_base a + o' < two32) as R' by lia.
  rewrite (Z.mod_small _ _ R), (Z.mod_small _ _ R') in H. apply (ipv4From_inj _ _ R R') in H. lia.
Qed.

(** No address at or past the next offset is in use. *)
Lemma next_free a o : ipam_ok a → ipam_next a <= o < last_offset a → inUse a (address_at a o) = false.
Proof.
  intros Ha Ho. unfold inUse. apply bool_decide_eq_false. intros (k & address & Hk & E).
  destruct (ipam_held a Ha k address Hk) as (o' & -> & H1 & H2). pose proof (ipam_start a Ha). unfold last_offset in *.
  apply (address_at_inj a o' o) in E; [lia|done|lia..].
Qed.

(** The allocator as it turns out to be: the search never looks further than the next
    offset, and the addresses given back play no part in it. *)
Definition assign_next (a : BridgeIPAM) (allocation : string) : BridgeIPAM * result (string * bool) :=
  match ipam_assigned a !! allocation with
  | Some address => (a, Ok (address, true))
  | None =>
      if ipam_next a <? last_offset a then
        (a <| ipam_assigned ::= <[allocation := address_at a (ipam_next a)]> |> <| ipam_next := ipam_next a + 1 |>,
         Ok (address_at a (ipam_next a), false))
      else (a, Err (Errorf "allocation subnet %s is exhausted"))
  end.

Lemma Assign_next a allocation : ipam_ok a → Assign a allocation = assign_next a allocation.
Proof.
  intros Ha. unfold Assign, assign_next, rounds. destruct (ipam_assigned a !! allocation); [done|].
  cbn [find_free]. rewrite capacity_limit by apply (ipam_subnet a Ha). fold (address_at a (ipam_next a)).
  destruct (Z.ltb_spec (ipam_next a) (last_offset a)) as [Hl|Hl]; [|done]. rewrite next_free by (done || lia).
  pose proof (ipam_start a Ha). destruct (ipam_subnet a Ha) as (_ & Hb & Ht). unfold last_offset in Hl.
  assert (u32 (ipam_next a + 1) = ipam_next a + 1) as -> by (apply Z.mod_small; lia). done.
Qed.

Inductive ipam_call := CallAssign (allocation : string) | CallRelease (allocation : string).
(** The allocator after a call, and the address it handed out for the first time. *)
Definition ipam_step (a : BridgeIPAM) (c : ipam_call) : BridgeIPAM * option string :=
  match c with
  | CallAssign k => match Assign a k with (a, Ok (address, false)) => (a, Some address) | (a, _) => (a, None) end
  | CallRelease k => ((ipam_Release a k).1, None)
  end.
Fixpoint ipam_run (a : BridgeIPAM) (l : list ipam_call) : BridgeIPAM * list string :=
  match l with
  | [] => (a, [])
  | c :: l => let '(a, fresh) := ipam_step a c in let '(a, rest) := ipam_run a l in (a, option_list fresh ++ rest)
  end.

(** What a call hands out is the address at the next offset, which moves past it. *)
Lemma ipam_step_ok a c :
  ipam_ok a → let '(a', fresh) := ipam_step a c in
  ipam_ok a' ∧ ipam_base a' = ipam_base a ∧ ipam_host a' = ipam_host a ∧
  match fresh with
  | None => ipam_next a' = ipam_next a
  | Some address => address = address_at a (ipam_next a) ∧ ipam_next a' = ipam_next a + 1 ∧ ipam_next a < last_offset a
  end.
Proof.
  intros Ha. destruct (ipam_subnet a Ha) as (Hh & Hb & Ht). pose proof (ipam_start a Ha) as Hs. destruct c as [k|k]; cbn [ipam_step].
  - rewrite Assign_next by done. unfold assign_next. destruct (ipam_assigned a !! k) eqn:Hk; [done|].
    destruct (Z.ltb_spec (ipam_next a) (last_offset a)) as [Hl|Hl]; [|done]. cbn. split; [|done]. unfold last_offset in *. split; [done|cbn; lia|..].
    + intros k' address. cbn. rewrite lookup_insert_Some. intros [[<- <-]|[_ H]].
      * exists (ipam_next a). unfold address_at, last_offset. cbn. split; [done|]. lia.
      * destruct (ipam_held a Ha _ _ H) as (o & -> & ? & ?). exists o. unfold address_at, last_offset in *. cbn. split; [done|]. lia.
    + intros k1 k2 address. cbn. rewrite !lookup_insert_Some.
      assert (∀ k', ipam_assigned a !! k' = Some (address_at a (ipam_next a)) → False) as Hfree.
      { intros k' H. pose proof (next_free a (ipam_next a) Ha ltac:(unfold last_offset; lia)) as Hu. unfold inUse in Hu.
        apply bool_decide_eq_false in Hu. apply Hu. by exists k', (address_at a (ipam_next a)). }
      intros [[<- <-]|[_ H1]] [[<- E]|[_ H2]]; [done|by apply Hfree in H2|subst; by apply Hfree in H1|]. by eapply (ipam_single a Ha).
  - unfold ipam_Release. destruct (ipam_assigned a !! k); [|done]. cbn. split; [|done]. split; [done|done|..].
    + intros k' address. cbn. rewrite lookup_delete_Some. intros [_ H]. exact (ipam_held a Ha _ _ H).
    + intros k1 k2 address. cbn. rewrite !lookup_delete_Some. intros [_ H1] [_ H2]. by eapply (ipam_single a Ha).
Qed.

Lemma ipam_run_ok a l :
  ipam_ok a → let '(a', handed) := ipam_run a l in
  ipam_ok a' ∧ ipam_base a' = ipam_base a ∧ ipam_host a' = ipam_host a ∧ ipam_next a' = ipam_next a + len handed ∧
  (handed ≠ [] → ipam_next a' <= last_offset a) ∧
  handed = (λ i, address_at a (ipam_next a + Z.of_nat i)) <$> seq 0 (length handed).
Proof.
  revert a. induction l as [|c l IH]; intros a Ha; cbn [ipam_run]; [split_and!; [done..|unfold len; cbn; lia|done|done]|].
  pose proof (ipam_step_ok a c Ha) as Hs. destruct (ipam_step a c) as [a1 fresh]. destruct Hs as (Ha1 & Eb & Eh & Hf).
  specialize (IH a1 Ha1). destruct (ipam_run a1 l) as [a2 rest]. destruct IH as (Ha2 & Eb2 & Eh2 & En2 & Hlast & Erest).
  assert (last_offset a1 = last_offset a) as Hlo by (unfold last_offset; by rewrite Eh).
  assert (∀ o, address_at a1 o = address_at a o) as Hat by (intros; unfold address_at; by rewrite Eb).
  split; [done|]. split; [congruence|]. split; [congruence|].
  destruct fresh as [address|].
  - destruct Hf as (-> & En & Hlt). change (option_list (Some ?x) ++ rest) with (x :: rest). unfold len in *. cbn [length]. split; [lia|]. split.
    + intros _. destruct rest; [cbn in *; lia|]. rewrite <-Hlo. by apply Hlast.
    + cbn [seq fmap list_fmap]. rewrite Z.add_0_r. f_equal. rewrite Erest at 1. rewrite <-fmap_S_seq, <-list_fmap_compose.
      apply list_fmap_ext. intros i j _. cbn. rewrite Hat, En. f_equal. lia.
  - change (option_list None ++ rest) with rest. split; [lia|]. rewrite <-Hlo. split; [done|]. rewrite Erest at 1. apply list_fmap_ext. intros i j _. by rewrite Hat, Hf.
Qed.

Lemma NewBridgeIPAM_ok {parser : SubnetParser} {laws : SubnetParserLaws parser} cidr a :
  NewBridgeIPAM cidr = Ok a → ipam_ok a ∧ ipam_next a = 2 ∧ ipam_assigned a = ∅.
Proof.
  unfold NewBridgeIPAM. destruct (parse_subnet cidr) as [[[base host]|]|] eqn:Hp; [|done..]. intros [= <-].
  apply subnet_prefix in Hp. split; [|done]. split; cbn; [done|unfold two32; lia|..]; intros; by rewrite lookup_empty in *.
Qed.

(** ** Theorems about addresses *)

Section Addresses.
Context {parser : SubnetParser} {laws : SubnetParserLaws parser}.

(** C26: addresses are the allocation's own.  Whatever is assigned and released, in whatever
    order, no two allocations hold the same address, and every address held lies in the
    subnet and is neither its first address, nor the bridge's, nor its broadcast. *)
Theorem ipam_addresses_distinct cidr a l a' handed
    (Hnew : NewBridgeIPAM cidr = Ok a) (Hrun : ipam_run a l = (a', handed)) :
  (∀ k k' address, ipam_assigned a' !! k = Some address → ipam_assigned a' !! k' = Some address → k = k') ∧
  ∀ k address, ipam_assigned a' !! k = Some address →
    ∃ o, 2 <= o < 2 ^ ipam_host a - 1 ∧ ipam_base a + o < two32 ∧ address = ipv4From (ipam_base a + o).
Proof.
  destruct (NewBridgeIPAM_ok _ _ Hnew) as (Ha & _ & _). pose proof (ipam_run_ok a l Ha) as H. rewrite Hrun in H.
  destruct H as (Ha' & Eb & Eh & _). split; [apply (ipam_single a' Ha')|]. intros k address Hk.
  destruct (ipam_held a' Ha' k address Hk) as (o & -> & H1 & H2). unfold last_offset in H2. rewrite Eh in H2.
  destruct (ipam_subnet a Ha) as (_ & Hb & Ht). exists o. split; [lia|]. split; [lia|]. unfold address_at, u32. rewrite Eb.
  by rewrite Z.mod_small by lia.
Qed.

(** The search of the allocator is a counter.  After any history the whole loop over
    candidates gives what looking at the next offset alone gives: the allocation's own
    address, the address at that offset, or exhaustion. *)
Theorem ipam_assign_counts cidr a l a' handed k
    (Hnew : NewBridgeIPAM cidr = Ok a) (Hrun : ipam_run a l = (a', handed)) :
  Assign a' k = assign_next a' k ∧ ipam_next a' = 2 + len handed.
Proof.
  destruct (NewBridgeIPAM_ok _ _ Hnew) as (Ha & En & _). pose proof (ipam_run_ok a l Ha) as H. rewrite Hrun in H.
  destruct H as (Ha' & _ & _ & Hn & _). split; [by apply Assign_next|lia].
Qed.

(** An address is handed out once.  However many are released, no address is ever handed
    to a second allocation, and over the life of the node at most as many allocations
    get an address as the subnet has room for. *)
Theorem ipam_never_reuses cidr a l a' handed
    (Hnew : NewBridgeIPAM cidr = Ok a) (Hrun : ipam_run a l = (a', handed)) :
  NoDup handed ∧ len handed <= Z.max 0 (2 ^ ipam_host a - 3).
Proof.
  destruct (NewBridgeIPAM_ok _ _ Hnew) as (Ha & En & _). pose proof (ipam_run_ok a l Ha) as H. rewrite Hrun in H.
  destruct H as (_ & _ & _ & Hn & Hlast & Hhanded).
  assert (handed ≠ [] → len handed <= 2 ^ ipam_host a - 3) as Hb by (intros Hne; specialize (Hlast Hne); unfold last_offset in Hlast; lia).
  split.
  - rewrite Hhanded. apply NoDup_fmap_2_strong; [|apply NoDup_seq]. intros i j Hi%elem_of_seq Hj%elem_of_seq E.
    assert (handed ≠ []) as Hne by (intros ->; cbn in *; lia). specialize (Hb Hne). unfold len in Hb.
    apply address_at_inj in E; [lia|done|lia..].
  - destruct (decide (handed = [])) as [->|Hne]; [unfold len; cbn; lia|]. specialize (Hb Hne). lia.
Qed.
End Addresses.

(** ** What a backend promises *)

(** The contract of [NetworkBackend]: an attach that is repeated returns the existing
    attachment, a detach succeeds when nothing is attached, and after an attach the
    attachment can be checked. *)
Class NetworkContract {N} (backend : NetworkBackend N) : Prop := {
  attach_repeats : ∀ n r n' att r', net_Attach backend n r = (n', Ok att) → Req_Allocation r' = Req_Allocation r →
    net_Attach backend n' r' = (n', Ok (att <| Att_AlreadyAttached := true |>));
  attach_checks : ∀ n r n' att, net_Attach backend n r = (n', Ok att) →
    net_Check backend n' (Req_Allocation r) = Ok (att <| Att_AlreadyAttached := true |>);
  detach_absent : ∀ n k, ¬ is_Ok (net_Check backend n k) → net_Detach backend n k = (n, Ok false);
  detach_releases : ∀ n k n' released, net_Detach backend n k = (n', Ok released) → ¬ is_Ok (net_Check backend n' k) }.

#[export] Instance MemoryBackend_contract : NetworkContract MemoryBackend.
Proof.
  split; cbn [MemoryBackend net_Attach net_Detach net_Check].
  - intros m r m' att r' H E. unfold Memory_Attach in *. rewrite E. destruct (mem_FailAttach m) eqn:Hf; [done|].
    destruct (mem_attachments m !! Req_Allocation r) as [x|] eqn:Hx.
    + injection H as <- <-. rewrite Hf, Hx. by destruct x.
    + destruct (Assign _ _) as [ipam [[address fresh]|e]]; [|done]. injection H as <- <-. cbn. rewrite Hf, lookup_insert_eq. done.
  - intros m r m' att H. unfold Memory_Attach, Memory_Check in *. destruct (mem_FailAttach m) eqn:Hf; [done|].
    destruct (mem_attachments m !! Req_Allocation r) as [x|] eqn:Hx.
    + injection H as <- <-. rewrite Hx. by destruct x.
    + destruct (Assign _ _) as [ipam [[address fresh]|e]]; [|done]. injection H as <- <-. cbn. by rewrite lookup_insert_eq.
  - intros m k H. unfold Memory_Check, Memory_Detach in *. destruct (mem_attachments m !! k); [|done]. by destruct H.
  - intros m k m' released H. unfold Memory_Check, Memory_Detach in *. destruct (mem_attachments m !! k) eqn:Hk.
    + injection H as <- _. cbn. rewrite lookup_delete_eq. by intros [].
    + injection H as <- _. rewrite Hk. by intros [].
Qed.

Section Contract.
Context {N : Type} {ip : AddressParser} (backend : NetworkBackend N) {contract : NetworkContract backend}.

(** Attaching twice is attaching once.  With any backend that keeps its contract, an
    attach action that succeeded and is carried out again changes nothing and reports the
    same address, namespace and interface, marked as already attached. *)
Theorem attach_idempotent n a n' ev
    (H : Network_Execute (Some backend) n a = (n', Ok ev)) :
  Network_Execute (Some backend) n' a = (n', Ok (ev <| Ev_Observed ::= <["already_attached" := "true"]> |>)).
Proof.
  unfold Network_Execute in *. destruct (Action_Kind a); try discriminate H. destruct (_ || _); [done|].
  destruct (net_Attach backend n _) as [n1 [att|e]] eqn:Hatt; [|done].
  destruct (bool_decide (Att_Address att = "")) eqn:H1; [done|]. destruct (negb (is_address (Att_Address att))) eqn:H2; [done|].
  injection H as <- <-. rewrite (attach_repeats _ _ _ _ _ Hatt eq_refl).
  destruct att as [address namespace interface already]. cbn in *. rewrite H1, H2. unfold report, set. cbn.
  reflexivity.
Qed.
End Contract.

(** ** Samples *)

Module NetworkSample.
(** The subnets 10.0.0.0/30 and 10.0.0.0/29. *)
#[local] Instance sample_subnets : SubnetParser := λ s,
  if decide (s = "10.0.0.0/30") then Some (Some (167772160, 2)) else if decide (s = "10.0.0.0/29") then Some (Some (167772160, 3)) else None.
#[local] Instance sample_subnets_laws : SubnetParserLaws sample_subnets.
Proof.
  intros s base host H. unfold parse_subnet, sample_subnets, two32 in *. cbn. destruct (decide _); [injection H as <- <-; split; [lia|cbn; lia]|].
  destruct (decide _); [injection H as <- <-; split; [lia|cbn; lia]|done].
Qed.
#[local] Instance sample_addresses : AddressParser := λ s, negb (bool_decide (s = "")).

Definition subnet : BridgeIPAM := mkBridgeIPAM 167772160 3 2 ∅.
Definition calls : list ipam_call := [CallAssign "web-0"; CallAssign "web-1"; CallRelease "web-0"; CallAssign "web-1"; CallAssign "web-2"].
Definition after_calls : BridgeIPAM * list string := Eval vm_compute in ipam_run subnet calls.

Lemma ipam_addresses_distinct_witness :
  ipam_assigned after_calls.1 !! "web-2" = Some "10.0.0.4" ∧
  ∀ k k' address, ipam_assigned after_calls.1 !! k = Some address → ipam_assigned after_calls.1 !! k' = Some address → k = k'.
Proof.
  split; [vm_compute; reflexivity|].
  exact (proj1 (ipam_addresses_distinct "10.0.0.0/29" subnet calls after_calls.1 after_calls.2 eq_refl eq_refl)).
Defined.

Lemma ipam_assign_counts_witness : Assign after_calls.1 "db-0" = assign_next after_calls.1 "db-0" ∧ ipam_next after_calls.1 = 2 + len after_calls.2.
Proof. exact (ipam_assign_counts "10.0.0.0/29" subnet calls after_calls.1 after_calls.2 "db-0" eq_refl eq_refl). Defined.

Lemma ipam_never_reuses_witness : NoDup after_calls.2 ∧ len after_calls.2 <= Z.max 0 5.
Proof. exact (ipam_never_reuses "10.0.0.0/29" subnet calls after_calls.1 after_calls.2 eq_refl eq_refl). Defined.

(** A released address is not given out again: with every allocation gone the subnet is
    exhausted all the same. *)
Definition small : BridgeIPAM := mkBridgeIPAM 167772160 2 2 ∅.
Lemma released_address_lost :
  let a := (ipam_run small [CallAssign "web-0"; CallRelease "web-0"]).1 in
  ipam_assigned a = ∅ ∧ ¬ is_Ok (Assign a "web-1").2.
Proof. vm_compute. split; [reflexivity|by intros []]. Qed.

Definition attach_web : Action :=
  mkAction "act" ActionAttachNetwork "web-0" "web" "n1" "" 0 Resources_zero 80 "" None "" "" 0 false None None [] None [] Budget_zero "" None [].
Definition memory : MemoryNetwork := mkMemoryNetwork subnet ∅ None.
Definition attached_web : MemoryNetwork * result Evidence := Eval vm_compute in Network_Execute (Some MemoryBackend) memory attach_web.

Lemma attach_idempotent_witness : ∃ ev, attached_web.2 = Ok ev ∧
  Network_Execute (Some MemoryBackend) attached_web.1 attach_web = (attached_web.1, Ok (ev <| Ev_Observed ::= <["already_attached" := "true"]> |>)).
Proof.
  eexists. split; [reflexivity|]. apply (attach_idempotent MemoryBackend memory attach_web). vm_compute. reflexivity.
Defined.
End NetworkSample.
