(* ===== verification/Containers.v ===== *)
(** * The container runtime (src/node/container_runtime.go)

    What a node asks its container backend for, and what it reports.  The backend, which
    drives containerd, is an interface over a state of its own. *)

From S2P Require Import Prelude Types Text Policy Projection Executor Directory Provenance Supervise Volumes.
Open Scope Z_scope.

Definition DefaultKillDeadline : Z := 30 * 1000000000.

Record SecretMountSpec := mkSecretMountSpec { SecretMount_Source : string; SecretMount_Destination : string }.

Record ContainerSpec := mkContainerSpec {
  Spec_ID : string; Spec_Workload : string; Spec_Image : string; Spec_Resources : Resources; Spec_SnapshotKey : string;
  Spec_LogPath : string; Spec_NoNewPrivileges : bool; Spec_Capabilities : list string;
  Spec_VolumeMounts : list VolumeMountSpec; Spec_SecretMounts : list SecretMountSpec; Spec_Namespace : string;
  Spec_Seccomp : bool; Spec_AppArmor : string; Spec_User : string; Spec_ReadOnlyRoot : bool; Spec_UserNamespace : bool;
  Spec_HostUIDBase : Z; Spec_UIDMapSize : Z }.

Record SandboxProfile := mkSandboxProfile {
  Sandbox_Seccomp : bool; Sandbox_AppArmor : string; Sandbox_User : string; Sandbox_ReadOnlyRoot : bool;
  Sandbox_UserNamespace : bool; Sandbox_HostUIDBase : Z; Sandbox_UIDMapSize : Z }.
Definition DefaultSandboxProfile : SandboxProfile := mkSandboxProfile true "" "" false false 0 0.

Record BackendTask := mkBackendTask { Task_PID : Z; Task_AlreadyRunning : bool }.
Record BackendStop := mkBackendStop { Stop_ExitCode : Z; Stop_AlreadyGone : bool; Stop_Killed : bool }.

(** [ImageCollector], which a backend may or may not be. *)
Record ImageCollector (B : Type) := mkImageCollector {
  col_ListImages : B → B * result (list string); col_RemoveImage : B → string → B * result bool }.
Arguments mkImageCollector {B}.
Arguments col_ListImages {B}.
Arguments col_RemoveImage {B}.

Record ContainerBackend (B : Type) := mkContainerBackend {
  ctr_Pull : B → string → B * result string; ctr_Create : B → ContainerSpec → B * result bool;
  ctr_Start : B → string → string → B * result BackendTask; ctr_Stop : B → string → Z → B * result BackendStop;
  ctr_Delete : B → string → B * result bool; ctr_Inspect : B → string → result BackendState;
  ctr_collector : option (ImageCollector B) }.
Arguments mkContainerBackend {B}.
Arguments ctr_Pull {B}.
Arguments ctr_Create {B}.
Arguments ctr_Start {B}.
Arguments ctr_Stop {B}.
Arguments ctr_Delete {B}.
Arguments ctr_Inspect {B}.
Arguments ctr_collector {B}.

(** [ContainerRuntime] without its backend; a missing resolver is [None]. *)
Record ContainerRuntime := mkContainerRuntime {
  Run_VolumeMountsFor : option (string → list VolumeMountSpec);
  Run_SecretMountsFor : option (string → list SecretMountSpec);
  Run_Namespaces : option (string → string); Run_Sandbox : SandboxProfile }.
Definition NewContainerRuntime : ContainerRuntime := mkContainerRuntime None None None DefaultSandboxProfile.

Definition volumeMounts (r : ContainerRuntime) (allocation : string) : list VolumeMountSpec :=
  match Run_VolumeMountsFor r with None => [] | Some f => f allocation end.
Definition secretMounts (r : ContainerRuntime) (allocation : string) : list SecretMountSpec :=
  match Run_SecretMountsFor r with None => [] | Some f => f allocation end.
Definition Runtime_Namespace (r : ContainerRuntime) (allocation : string) : string :=
  match Run_Namespaces r with None => "" | Some f => f allocation end.

(** [strings.Cut] at a character: what stands before and after its first occurrence. *)
Fixpoint Cut (c : Ascii.ascii) (s : string) : option (string * string) :=
  match s with
  | "" => None
  | String d s => if bool_decide (d = c) then Some ("", s)
                  else match Cut c s with None => None | Some (before, after) => Some (String d before, after) end
  end.

Definition at_sign : Ascii.ascii := Ascii.ascii_of_nat 64.
Definition imageDigest (ref : string) : result string :=
  need parts := Cut at_sign ref else "image %q must use an immutable sha256 digest";
  let digest := parts.2 in
  refuse (negb (String.prefix "sha256:" digest) || negb (String.length digest =? 71)%nat)
    "image %q must use an immutable sha256 digest";
  refuse (negb (all_hex (String.substring 7 64 digest))) "image %q has an invalid sha256 digest";
  Ok digest.

(** What the container of an allocation is created with: what to run from the action, how
    tightly to confine it from the node. *)
Definition container_spec (r : ContainerRuntime) (a : Action) : ContainerSpec :=
  let s := Run_Sandbox r in
  mkContainerSpec (Action_Target a) (Action_Workload a) (Action_Image a) (Action_Resources a) (Action_Target a +:+ "-rootfs")
    (Action_Target a +:+ ".log") true [] (volumeMounts r (Action_Target a)) (secretMounts r (Action_Target a))
    (Runtime_Namespace r (Action_Target a)) (Sandbox_Seccomp s) (Sandbox_AppArmor s) (Sandbox_User s) (Sandbox_ReadOnlyRoot s)
    (Sandbox_UserNamespace s) (Sandbox_HostUIDBase s) (Sandbox_UIDMapSize s).

Section Runtime.
Context {B : Type} (backend : ContainerBackend B) (r : ContainerRuntime).

(** The loop of [collectImages]: what is reclaimed and what is skipped, in the order met. *)
Fixpoint collect_loop (c : ImageCollector B) (dry : bool) (protected : list string) (b : B) (reclaimed skipped present : list string)
    : B * result (list string * list string) :=
  match present with
  | [] => (b, Ok (reclaimed, skipped))
  | image :: present =>
      if bool_decide (image ∈ protected) then collect_loop c dry protected b reclaimed (skipped ++ [image]) present
      else if dry then collect_loop c dry protected b (reclaimed ++ [image]) skipped present
      else match col_RemoveImage c b image with
           | (b, Err e) => (b, Err (Wrapf "remove image %q: %w" e))
           | (b, Ok removed) => collect_loop c dry protected b (if removed then reclaimed ++ [image] else reclaimed) skipped present
           end
  end.

Definition collectImages (b : B) (a : Action) : B * result Evidence :=
  match ctr_collector backend with
  | None => (b, Err (Errorf "runtime backend cannot collect images"))
  | Some c =>
      match col_ListImages c b with
      | (b, Err e) => (b, Err (Wrapf "list images: %w" e))
      | (b, Ok present) =>
          match collect_loop c (Action_DryRun a) (Action_Protected a) b [] [] present with
          | (b, Err e) => (b, Err e)
          | (b, Ok (reclaimed, skipped)) =>
              (b, Ok (report EvidenceImagesCollected (Action_Node a)
                 (<["reclaimed" := Join_lines (sort_Strings reclaimed)]> (<["protected" := Join_lines (sort_Strings skipped)]>
                  (<["dry_run" := Sprint_bool (Action_DryRun a)]> {["scanned" := Sprint (len present)]})))))
          end
      end
  end.

Definition Container_Execute (b : B) (a : Action) : B * result Evidence :=
  match Action_Kind a with
  | ActionPullImage =>
      match imageDigest (Action_Image a) with
      | Err e => (b, Err e)
      | Ok want =>
          match ctr_Pull backend b (Action_Image a) with
          | (b, Err e) => (b, Err (Wrapf "pull image %q: %w" e))
          | (b, Ok got) =>
              if bool_decide (got ≠ want) then (b, Err (Errorf "pulled image digest %q does not match requested digest %q"))
              else (b, Ok (report EvidenceImagePresent (Action_Image a) {["digest" := got]}))
          end
      end
  | ActionCreateAllocation =>
      if bool_decide (Action_Target a = "") || bool_decide (Action_Workload a = "") || bool_decide (Action_Image a = "")
      then (b, Err (Errorf "create allocation requires target, workload, and image"))
      else if (CPUMillis (Action_Resources a) <=? 0) || (MemoryMB (Action_Resources a) <=? 0)
      then (b, Err (Errorf "create allocation requires positive resource limits"))
      else match ctr_Create backend b (container_spec r a) with
           | (b, Err e) => (b, Err (Wrapf "create allocation %q: %w" e))
           | (b, Ok created) =>
               (b, Ok (report EvidenceAllocationCreated (Action_Target a)
                  (<["created" := Sprint_bool created]> {["image" := Action_Image a]})))
           end
  | ActionStartAllocation =>
      if bool_decide (Action_Target a = "") then (b, Err (Errorf "start allocation requires target"))
      else match ctr_Start backend b (Action_Target a) (Action_Target a +:+ ".log") with
           | (b, Err e) => (b, Err (Wrapf "start allocation %q: %w" e))
           | (b, Ok task) =>
               (b, Ok (report EvidenceAllocationRunning (Action_Target a)
                  (<["pid" := Sprint (Task_PID task)]> {["already_running" := Sprint_bool (Task_AlreadyRunning task)]})))
           end
  | ActionStopAllocation =>
      if bool_decide (Action_Target a = "") then (b, Err (Errorf "stop allocation requires target"))
      else match ctr_Stop backend b (Action_Target a) DefaultKillDeadline with
           | (b, Err e) => (b, Err (Wrapf "stop allocation %q: %w" e))
           | (b, Ok stopped) =>
               (b, Ok (report EvidenceAllocationStopped (Action_Target a)
                  (<["exit_code" := Sprint (Stop_ExitCode stopped)]> (<["already_gone" := Sprint_bool (Stop_AlreadyGone stopped)]>
                   {["killed" := Sprint_bool (Stop_Killed stopped)]}))))
           end
  | ActionDeleteAllocation =>
      if bool_decide (Action_Target a = "") then (b, Err (Errorf "delete allocation requires target"))
      else match ctr_Delete backend b (Action_Target a) with
           | (b, Err e) => (b, Err (Wrapf "delete allocation %q: %w" e))
           | (b, Ok deleted) => (b, Ok (report EvidenceAllocationDeleted (Action_Target a) {["deleted" := Sprint_bool deleted]}))
           end
  | ActionCollectImages => collectImages b a
  | _ => (b, Err (Errorf "container runtime does not support action kind %q"))
  end.

Definition Container_Inspect (b : B) (id : string) : result BackendState := ctr_Inspect backend b id.
End Runtime.

(** ** Confinement *)

(** What a node's profile demands of a container. *)
Definition confined (s : SandboxProfile) (c : ContainerSpec) : Prop :=
  Spec_NoNewPrivileges c = true ∧ Spec_Capabilities c = [] ∧ Spec_Seccomp c = Sandbox_Seccomp s ∧ Spec_AppArmor c = Sandbox_AppArmor s ∧
  Spec_User c = Sandbox_User s ∧ Spec_ReadOnlyRoot c = Sandbox_ReadOnlyRoot s ∧ Spec_UserNamespace c = Sandbox_UserNamespace s ∧
  Spec_HostUIDBase c = Sandbox_HostUIDBase s ∧ Spec_UIDMapSize c = Sandbox_UIDMapSize s.

(** [agree P Q b b']: the backends answer alike, but for creating containers outside [P]
    and removing images outside [Q]. *)
Definition agree {B} (P : ContainerSpec → Prop) (Q : string → Prop) (b b' : ContainerBackend B) : Prop :=
  ctr_Pull b = ctr_Pull b' ∧ (∀ x c, P c → ctr_Create b x c = ctr_Create b' x c) ∧ ctr_Start b = ctr_Start b' ∧
  ctr_Stop b = ctr_Stop b' ∧ ctr_Delete b = ctr_Delete b' ∧
  match ctr_collector b, ctr_collector b' with
  | None, None => True
  | Some c, Some c' => col_ListImages c = col_ListImages c' ∧ ∀ x image, Q image → col_RemoveImage c x image = col_RemoveImage c' x image
  | _, _ => False
  end.

Section Confinement.
Context {B : Type}.

Lemma collect_loop_agree (c c' : ImageCollector B) dry protected b reclaimed skipped present :
  (∀ x image, dry = false ∧ image ∉ protected → col_RemoveImage c x image = col_RemoveImage c' x image) →
  collect_loop c dry protected b reclaimed skipped present = collect_loop c' dry protected b reclaimed skipped present.
Proof.
  intros H. revert b reclaimed skipped. induction present as [|image present IH]; intros b reclaimed skipped; cbn [collect_loop]; [done|].
  case_bool_decide; [apply IH|]. destruct dry; [apply IH|]. rewrite H by done. destruct (col_RemoveImage c' b image) as [b1 [removed|e]]; [apply IH|done].
Qed.

(** The host decides how tightly a container is confined, and which images go.  Whatever
    the action says, all a node ever asks its backend to create are containers without new
    privileges and capabilities, confined as the node's profile says; and it asks to
    remove only images the action does not protect, and none at all in a dry run: a backend
    that would answer any other request differently makes no difference. *)
Theorem container_confined (b b' : ContainerBackend B) r x a
    (H : agree (confined (Run_Sandbox r)) (λ image, Action_DryRun a = false ∧ image ∉ Action_Protected a) b b') :
  Container_Execute b r x a = Container_Execute b' r x a.
Proof.
  destruct H as (H1 & H2 & H3 & H4 & H5 & H6). unfold Container_Execute, collectImages. rewrite H1, H3, H4, H5.
  rewrite (H2 x (container_spec r a)) by done.
  destruct (ctr_collector b) as [c|], (ctr_collector b') as [c'|]; try done. destruct H6 as [-> H6].
  destruct (Action_Kind a); try done. destruct (col_ListImages c' x) as [x1 [present|e]]; [|done]. by rewrite (collect_loop_agree c c').
Qed.
End Confinement.

(** ** Pinned images *)

Lemma Cut_spec c s before after : Cut c s = Some (before, after) → s = before +:+ String c after.
Proof.
  revert before. induction s as [|d s IH]; intros before; cbn [Cut]; [done|]. case_bool_decide as Hd; [by intros [= <- <-]; subst|].
  destruct (Cut c s) as [[b1 a1]|]; [|done]. intros [= <- <-]. change (String d s = String d (b1 +:+ String c a1)). by rewrite (IH b1).
Qed.

Lemma substring_skip s t i k : String.substring (String.length s + i) k (s +:+ t) = String.substring i k t.
Proof. induction s as [|c s IH]; [done|]. change (String.substring (String.length s + i) k (s +:+ t) = String.substring i k t). exact IH. Qed.

Lemma prefix_append p s : String.prefix p s = true → ∃ t, s = p +:+ t.
Proof.
  revert s. induction p as [|c p IH]; intros s H; [by exists s|]. destruct s as [|d s]; [done|]. cbn in H.
  destruct (Ascii.ascii_dec c d) as [->|]; [|done]. destruct (IH s H) as [t ->]. by exists t.
Qed.

(** What the node takes for a pinned image, the kernel does too. *)
Lemma imageDigest_pinned ref digest :
  imageDigest ref = Ok digest → digestPattern ref = true ∧ ∃ name, ref = name +:+ String at_sign digest.
Proof.
  unfold imageDigest. destruct (Cut at_sign ref) as [[name after]|] eqn:Hc; [|done]. cbn [snd]. apply Cut_spec in Hc as ->.
  destruct (negb _ || negb _) eqn:H1; [done|]. apply orb_false_iff in H1 as [Hp%negb_false_iff Hl%negb_false_iff].
  destruct (negb (all_hex _)) eqn:H2; [done|]. apply negb_false_iff in H2. intros [= ->]. split; [|by exists name].
  apply Nat.eqb_eq in Hl. apply prefix_append in Hp as [t ->]. unfold digestPattern.
  assert (String.length (name +:+ String at_sign ("sha256:" +:+ t)) = String.length name + 72)%nat as Hn
    by (rewrite length_append; change (String.length (String at_sign ("sha256:" +:+ t))) with (S (String.length ("sha256:" +:+ t))); lia).
  rewrite Hn. replace (String.length name + 72 - 72)%nat with (String.length name + 0)%nat by lia.
  replace (String.length name + 72 - 64)%nat with (String.length name + 8)%nat by lia. rewrite !substring_skip.
  change (String.substring 8 64 (String at_sign ("sha256:" +:+ t))) with (String.substring 7 64 ("sha256:" +:+ t)). rewrite H2.
  change (String.substring 0 8 (String at_sign ("sha256:" +:+ t))) with ("@sha256:" +:+ String.substring 0 0 t).
  rewrite (proj2 (Nat.leb_le _ _)) by lia. by destruct t.
Qed.

(** An image is reported present only under its own digest.  When a pull succeeds, the
    image it named is pinned, the way the kernel demands, to exactly the digest the backend
    says it pulled, and that is the digest reported. *)
Theorem pull_reports_pinned {B} (backend : ContainerBackend B) r b a b' ev
    (Hk : Action_Kind a = ActionPullImage) (H : Container_Execute backend r b a = (b', Ok ev)) :
  ∃ name, Action_Image a = name +:+ String at_sign (observed ev "digest") ∧ digestPattern (Action_Image a) = true ∧
    ctr_Pull backend b (Action_Image a) = (b', Ok (observed ev "digest")) ∧ Ev_Target ev = Action_Image a.
Proof.
  unfold Container_Execute in H. rewrite Hk in H. destruct (imageDigest (Action_Image a)) as [want|] eqn:Hd; [|done].
  destruct (ctr_Pull backend b (Action_Image a)) as [b1 [got|e]]; [|done]. case_bool_decide as Hg; [done|]. subst want.
  injection H as <- <-. apply imageDigest_pinned in Hd as [Hp [name Hn]]. exists name. by unfold observed, report; cbn; rewrite lookup_singleton_eq.
Qed.

(** ** Reclaiming images *)

(** What a collector promises about the images its content store holds. *)
Class ImageStore {B} (c : ImageCollector B) (images : B → gset string) : Prop := {
  list_images : ∀ b b' r, col_ListImages c b = (b', r) → images b' = images b ∧ ∀ l, r = Ok l → ∀ i, i ∈ l ↔ i ∈ images b;
  remove_image : ∀ b b' i r, col_RemoveImage c b i = (b', r) →
    images b ∖ {[i]} ⊆ images b' ⊆ images b ∧
    ∀ removed, r = Ok removed → images b' = images b ∖ {[i]} ∧ removed = bool_decide (i ∈ images b) }.

Section Reclaiming.
Context {B : Type} (backend : ContainerBackend B) (c : ImageCollector B) (images : B → gset string) {store : ImageStore c images}.

Lemma collect_loop_images dry protected b reclaimed skipped present b' r :
  collect_loop c dry protected b reclaimed skipped present = (b', r) →
  images b' ⊆ images b ∧ (∀ i, i ∈ images b → i ∈ protected ∨ i ∉ present ∨ dry = true → i ∈ images b') ∧
  ∀ removed kept, r = Ok (removed, kept) →
    (dry = false → ∀ i, i ∈ present → i ∉ protected → i ∉ images b') ∧
    (∀ i, i ∈ removed → i ∈ reclaimed ∨ i ∈ present ∧ i ∉ protected) ∧
    (∀ i, i ∈ reclaimed → i ∈ removed) ∧ (∀ i, i ∈ present → i ∉ protected → i ∈ images b ∨ dry = true → i ∈ removed).
Proof.
  revert b reclaimed skipped. induction present as [|image present IH]; intros b reclaimed skipped; cbn [collect_loop].
  { intros [= <- <-]. set_solver. }
  case_bool_decide as Hp.
  { intros H. apply IH in H as (H1 & H2 & H3). split; [done|]. split; [set_solver|]. intros removed kept ->.
    destruct (H3 _ _ eq_refl) as (K1 & K2 & K3 & K4). split_and!; set_solver. }
  destruct dry eqn:Hd.
  { intros H. apply IH in H as (H1 & H2 & H3). split; [done|]. split; [set_solver|]. intros removed kept ->.
    destruct (H3 _ _ eq_refl) as (K1 & K2 & K3 & K4). split_and!; set_solver. }
  destruct (col_RemoveImage c b image) as [b1 r1] eqn:Hr. destruct (remove_image _ _ _ _ Hr) as [[R1 R2] R3]. destruct r1 as [removed1|e].
  - destruct (R3 removed1 eq_refl) as [E ->]. intros H. apply IH in H as (H1 & H2 & H3). split; [set_solver|].
    split; [intros i Hi [?|[?|?]]; [apply H2; set_solver..|done]|]. intros removed kept ->.
    destruct (H3 _ _ eq_refl) as (K1 & K2 & K3 & K4). split_and!.
    + intros _ i [->|Hi]%elem_of_cons Hip; [set_solver|by apply K1].
    + intros i Hi. destruct (K2 i Hi) as [Hin|?]; [|set_solver]. case_bool_decide; set_solver.
    + intros i Hi. apply K3. case_bool_decide; set_solver.
    + intros i [->|Hi]%elem_of_cons Hip [Hin|?]; [|done| |done].
      * apply K3. rewrite bool_decide_true by done. set_solver.
      * destruct (decide (i = image)) as [->|]; [apply K3; rewrite bool_decide_true by done; set_solver|]. apply K4; [done..|]. left. set_solver.
  - intros [= <- <-]. split; [done|]. split; [|done]. intros i Hi [?|[?|?]]; [set_solver..|done].
Qed.

(** Protected images stay.  However the collection ends, no image the action protects is
    lost and none is gained; when it succeeds the evidence names exactly the images held
    that are not protected, and they are gone, unless it was a dry run, which leaves every
    image where it is. *)
Theorem collect_keeps_protected r b a b' res
    (Hc : ctr_collector backend = Some c) (Hk : Action_Kind a = ActionCollectImages)
    (Hlines : set_Forall is_line (images b)) (H : Container_Execute backend r b a = (b', res)) :
  images b' ⊆ images b ∧ (∀ i, i ∈ images b → i ∈ Action_Protected a → i ∈ images b') ∧
  ∀ ev, res = Ok ev →
    (∀ i, i ∈ splitLines (observed ev "reclaimed") ↔ i ∈ images b ∧ i ∉ Action_Protected a) ∧
    (∀ i, i ∈ images b' ↔ i ∈ images b ∧ (i ∈ Action_Protected a ∨ Action_DryRun a = true)).
Proof.
  unfold Container_Execute, collectImages in H. rewrite Hk, Hc in H. destruct (col_ListImages c b) as [b1 r1] eqn:Hl.
  destruct (list_images _ _ _ Hl) as [E1 Hlist]. destruct r1 as [present|e]; [|injection H as <- <-; rewrite E1; set_solver].
  specialize (Hlist present eq_refl). destruct (collect_loop _ _ _ _ _ _ _) as [b2 r2] eqn:Hloop.
  apply collect_loop_images in Hloop as (H1 & H2 & H3). rewrite E1 in H1, H2.
  destruct r2 as [[reclaimed skipped]|e]; [|injection H as <- <-; split; [done|]; split; [|done]; intros; apply H2; auto].
  injection H as <- <-. split; [done|]. split; [intros; apply H2; auto|]. intros ev [= <-].
  destruct (H3 _ _ eq_refl) as (K1 & K2 & _ & K4). rewrite E1 in K4.
  assert (∀ i, i ∈ reclaimed ↔ i ∈ images b ∧ i ∉ Action_Protected a) as Hrec.
  { intros i. split; [|intros [? ?]; apply K4; [by apply Hlist|done|by left]]. intros Hi. destruct (K2 i Hi) as [?|[? ?]]; [set_solver|].
    split; [by apply Hlist|done]. }
  split.
  - intros i. unfold observed, report. cbn [Ev_Observed]. rewrite lookup_insert_eq. cbn [default from_option id].
    rewrite splitLines_Join; [by rewrite elem_of_sort_Strings|]. apply Forall_forall. intros j Hj. rewrite elem_of_sort_Strings in Hj.
    apply (Hlines j). by destruct (proj1 (Hrec j) Hj).
  - intros i. split.
    + intros Hi. split; [by apply H1|]. destruct (decide (i ∈ Action_Protected a)) as [|Hp]; [by left|right].
      destruct (Action_DryRun a) eqn:Hd; [done|]. exfalso. eapply K1; [done| |exact Hp|exact Hi]. by apply Hlist, H1.
    + intros [Hi [Hp|Hd]]; apply H2; auto.
Qed.
End Reclaiming.

(** ** Samples *)

Module ContainerSample.
Definition pinned : string := "web@sha256:aaaaaaaaaaaaaaaaaaaaaaaaaaaaaaaaaaaaaaaaaaaaaaaaaaaaaaaaaaaaaaaa".
Definition pin : string := "sha256:aaaaaaaaaaaaaaaaaaaaaaaaaaaaaaaaaaaaaaaaaaaaaaaaaaaaaaaaaaaaaaaa".
(** A backend whose state is the set of images it holds. *)
Definition sample_collector : ImageCollector (gset string) :=
  mkImageCollector (λ b, (b, Ok (elements b))) (λ b i, (b ∖ {[i]}, Ok (bool_decide (i ∈ b)))).
Definition sample_backend : ContainerBackend (gset string) :=
  mkContainerBackend (λ b i, ({[i]} ∪ b, Ok pin)) (λ b _, (b, Ok true)) (λ b _ _, (b, Ok (mkBackendTask 7 false)))
    (λ b _ _, (b, Ok (mkBackendStop 0 false false))) (λ b _, (b, Ok true)) (λ _ _, Err (Errorf "no such container")) (Some sample_collector).
#[local] Instance sample_store : ImageStore sample_collector (λ b, b).
Proof.
  split.
  - intros b b' r [= <- <-]. split; [done|]. intros l [= <-] i. apply elem_of_elements.
  - intros b b' i r [= <- <-]. cbn. split; [set_solver|]. by intros removed [= <-].
Qed.

Definition image_action (kind : ActionKind) (dry : bool) (protected : list string) : Action :=
  mkAction "act" kind "web-0" "web" "n1" pinned 0 (mkResources 100 64) 80 "" None "" "" 0 dry None None protected None [] Budget_zero "" None [].

(** Creating anything unconfined, and removing what is protected, would fail. *)
Definition strict_backend : ContainerBackend (gset string) :=
  mkContainerBackend (λ b i, ({[i]} ∪ b, Ok pin))
    (λ b c, (b, if Spec_NoNewPrivileges c && Spec_Seccomp c && bool_decide (Spec_Capabilities c = []) then Ok true else Err (Errorf "unconfined")))
    (λ b _ _, (b, Ok (mkBackendTask 7 false))) (λ b _ _, (b, Ok (mkBackendStop 0 false false))) (λ b _, (b, Ok true))
    (λ _ _, Err (Errorf "no such container")) (Some sample_collector).

Lemma container_confined_witness :
  Container_Execute sample_backend NewContainerRuntime ∅ (image_action ActionCreateAllocation false []) =
  Container_Execute strict_backend NewContainerRuntime ∅ (image_action ActionCreateAllocation false []).
Proof.
  apply (container_confined sample_backend strict_backend). split_and!; try done. intros x c (H1 & H2 & H3 & _). cbn. by rewrite H1, H2, H3.
Defined.

Lemma pull_reports_pinned_witness : ∃ name, pinned = name +:+ String at_sign pin ∧ digestPattern pinned = true ∧
  ctr_Pull sample_backend ∅ pinned = ({[pinned]} ∪ ∅, Ok pin) ∧ pinned = pinned.
Proof.
  refine (pull_reports_pinned sample_backend NewContainerRuntime ∅ (image_action ActionPullImage false []) ({[pinned]} ∪ ∅)
    (report EvidenceImagePresent pinned {["digest" := pin]}) eq_refl _). vm_compute. reflexivity.
Defined.

Definition held : gset string := {[pinned; "old"]}.
Definition collected : gset string * result Evidence :=
  Container_Execute sample_backend NewContainerRuntime held (image_action ActionCollectImages false [pinned]).
Lemma collect_keeps_protected_witness : ∀ i, i ∈ collected.1 ↔ i ∈ held ∧ (i ∈ [pinned] ∨ false = true).
Proof.
  destruct collected as [b' [ev|]] eqn:Hrun; [|vm_compute in Hrun; discriminate Hrun].
  destruct (collect_keeps_protected sample_backend sample_collector (λ b, b) NewContainerRuntime held (image_action ActionCollectImages false [pinned])
    b' (Ok ev)) as (_ & _ & H); [reflexivity|reflexivity| |exact Hrun|].
  { apply set_Forall_elements, (bool_decide_unpack _). vm_compute. exact I. }
  intros i. exact (proj2 (H ev eq_refl) i).
Defined.

(** The kernel looks at the end of an image's name, the node at what follows its first at
    sign: an image with two of them is approved, and no node pulls it. *)
Definition twice_pinned : string := "registry@mirror/" +:+ pinned.
Lemma approved_image_never_pulled : digestPattern twice_pinned = true ∧ ¬ is_Ok (imageDigest twice_pinned).
Proof. vm_compute. split; [reflexivity|by intros []]. Qed.

(** A dry run reports what it would remove as removed: projecting its evidence makes the
    world forget an image the node still holds. *)
Definition collecting_world : World :=
  mkWorld 1 100 {["n1" := mkNode "n1" ∅ (mkResources 1000 1000) (mkResources 0 0) {[pinned := true; "old" := true]} true "" false "" "" 0 "" ""
                            ∅ Budget_zero Budget_zero]} ∅ ∅ ∅ ∅ ∅ ∅ [] ∅.
Definition rehearsed : gset string * result Evidence :=
  Container_Execute sample_backend NewContainerRuntime held (image_action ActionCollectImages true [pinned]).
Lemma dry_collection_forgets :
  rehearsed.1 = held ∧ ∃ ev w, rehearsed.2 = Ok ev ∧ projectInto collecting_world ev = Ok w ∧
    (Node_Images <$> Nodes w !! "n1") = Some {[pinned := true]}.
Proof. split; [vm_compute; reflexivity|]. eexists _, _. repeat split; vm_compute; reflexivity. Qed.
End ContainerSample.
