(* ===== verification/Secrets.v ===== *)
(** * Secrets on a node (src/node/secret.go, src/node/x25519.go)

    A secret travels sealed to one node's identity and ends as a file of one allocation.
    Curve25519, ChaCha20-Poly1305, SHA-256, SHA-512, the conversion of an Ed25519 point and
    the JSON of a sealed secret are parameters; random bytes are arguments.  The types that
    keep material out of logs and JSON have no counterpart: that nothing reported depends
    on material is a theorem.  File modes are not modelled. *)

From S2P Require Import Prelude Types Text Projection Executor EventLog Directory Provenance Validate Keys Approvals WorkQueue Network FileSystem Volumes Storage.
Open Scope Z_scope.

(** ** Sealing *)

Record SealedSecret := mkSealedSecret {
  Sealed_Name : string; Sealed_Version : string; Sealed_NodeID : string; Sealed_EphemeralKey : string;
  Sealed_Nonce : string; Sealed_Ciphertext : string }.

Class SecretCipher := {
  X25519 : string → string → option string; Basepoint : string;
  aead_Seal : string → string → string → string → string; aead_Open : string → string → string → string → option string;
  cipher_sha256 : string → string; cipher_sha512 : string → string;
  montgomery : string → option string;
  encode_sealed : SealedSecret → string; decode_sealed : string → option SealedSecret }.

Definition byte (c : Ascii.ascii) : Z := Z.of_N (Ascii.N_of_ascii c).
Definition of_byte (z : Z) : Ascii.ascii := Ascii.ascii_of_N (Z.to_N z).

(** Change the byte at an index, when there is one. *)
Fixpoint at_byte (i : nat) (f : Z → Z) (s : string) : string :=
  match s, i with
  | "", _ => ""
  | String c s, O => String (of_byte (f (byte c))) s
  | String c s, S i => String c (at_byte i f s)
  end.

Section Sealing.
Context {cipher : SecretCipher} {signer : Signer}.

(** The seed of an Ed25519 private key is its first half. *)
Definition x25519FromEd25519 (private : string) : string :=
  let scalar := String.substring 0 32 (cipher_sha512 (String.substring 0 32 private)) in
  at_byte 31 (λ b, Z.lor (Z.land b 127) 64) (at_byte 0 (λ b, Z.land b 248) scalar).

Definition x25519FromEd25519Public (public : string) : result string :=
  need converted := montgomery public else "node public key is not a valid Ed25519 point: %w";
  Ok converted.

Definition deriveKey (shared ephemeral recipient : string) : string := cipher_sha256 (shared +:+ ephemeral +:+ recipient).

(** What binds a ciphertext to its identity. *)
Definition associated (name version nodeID : string) : string :=
  name +:+ String zero_byte (version +:+ String zero_byte nodeID).

(** [Seal], with the random ephemeral key and nonce. *)
Definition Seal (name version nodeID nodeKey value ephemeralSecret nonce : string) : result SealedSecret :=
  refuse (negb (String.length nodeKey =? PublicKeySize)%nat) "node public key is invalid";
  let* recipient := x25519FromEd25519Public nodeKey in
  need ephemeralPublic := X25519 ephemeralSecret Basepoint else "derive ephemeral public key: %w";
  need shared := X25519 ephemeralSecret recipient else "derive shared key: %w";
  let key := deriveKey shared ephemeralPublic recipient in
  Ok (mkSealedSecret name version nodeID ephemeralPublic nonce (aead_Seal key nonce value (associated name version nodeID))).

Definition unseal (sealed : SealedSecret) (secretKey : string) : result string :=
  refuse (negb (String.length (Sealed_EphemeralKey sealed) =? 32)%nat) "sealed secret has an invalid ephemeral key";
  need shared := X25519 secretKey (Sealed_EphemeralKey sealed) else "derive shared key: %w";
  need recipient := X25519 secretKey Basepoint else "derive recipient key: %w";
  let key := deriveKey shared (Sealed_EphemeralKey sealed) recipient in
  need value := aead_Open key (Sealed_Nonce sealed) (Sealed_Ciphertext sealed)
    (associated (Sealed_Name sealed) (Sealed_Version sealed) (Sealed_NodeID sealed)) else "secret %q version %q could not be decrypted";
  Ok value.

Record FileBroker := mkFileBroker { Broker_dir : path; Broker_nodeID : string; Broker_secretKey : string }.
Definition NewFileBroker (dir nodeID identity : string) : result FileBroker :=
  refuse (negb (IsAbs dir)) "secret directory must be an absolute path";
  refuse (negb (String.length identity =? PrivateKeySize)%nat) "node identity key is invalid";
  Ok (mkFileBroker (Clean dir) nodeID (x25519FromEd25519 identity)).

Definition sealed_file (b : FileBroker) (ref : SecretRef) : path :=
  Join (Broker_dir b) (Secret_Name ref +:+ "." +:+ Secret_Version ref +:+ ".sealed").

Definition FileBroker_Fetch (b : FileBroker) (ref : SecretRef) : io string :=
  let! read := attempt_io (ReadFile (sealed_file b ref)) in
  match read with
  | Err e => io_err (if IsNotExist e then Errorf "secret %q version %q is not available to this node" else Wrapf "read sealed secret: %w" e)
  | Ok raw =>
      match decode_sealed raw with
      | None => io_err (Errorf "decode sealed secret %q: %w")
      | Some sealed =>
          refuse! (bool_decide (Sealed_Name sealed ≠ Secret_Name ref) || bool_decide (Sealed_Version sealed ≠ Secret_Version ref))
            "sealed secret does not match reference %q version %q";
          refuse! (bool_decide (Sealed_NodeID sealed ≠ Broker_nodeID b)) "secret %q is sealed for another node";
          io_of (unseal sealed (Broker_secretKey b))
      end
  end.
End Sealing.

(** ** Mounting *)

Record SecretMount := mkSecretMount { SM_Name : string; SM_Version : string; SM_Path : path }.

Record Secrets := mkSecrets { sec_root : path; sec_mounts : gmap string (gmap string SecretMount) }.
#[export] Instance eta_Secrets : Eta Secrets := λ s, mkSecrets (sec_root s) (sec_mounts s).

Definition NewSecrets (root : string) : io Secrets :=
  refuse! (negb (IsAbs root)) "secret root must be an absolute path";
  wrapping "create secret root: %w" (MkdirAll (Clean root)) >> io_ret (mkSecrets (Clean root) ∅).

(** A broker supplies the material of a reference. *)
Definition SecretBroker : Type := SecretRef → io string.

(** [filepath.Base] *)
Definition Base (s : string) : string :=
  if bool_decide (s = "") then "."
  else default "/" (last (filter (λ x, x ≠ "") (split_on separator s))).

Definition secret_dir (s : Secrets) (allocation : string) : path := Join (sec_root s) allocation.

Definition write (s : Secrets) (allocation : string) (ref : SecretRef) (material : string) : io path :=
  let directory := secret_dir s allocation in
  wrapping "create secret directory: %w" (MkdirAll directory) >>
  let p := Join directory (Base (Secret_MountPath ref)) in
  wrapping "write secret %q: %w" (WriteFile p material) >> io_ret p.

Definition mountEvidence (allocation : string) (mount : SecretMount) (repeated : bool) : Evidence :=
  report EvidenceSecretMounted allocation
    (<["secret" := SM_Name mount]> (<["version" := SM_Version mount]>
     (<["mount_path" := absolute (SM_Path mount)]> {["repeated" := Sprint_bool repeated]}))).

Definition mounts_of (s : Secrets) (allocation : string) : gmap string SecretMount := default ∅ (sec_mounts s !! allocation).

(** The mount of exactly this version, if there is one. *)
Definition held_version (s : Secrets) (allocation : string) (ref : SecretRef) : option SecretMount :=
  existing ← mounts_of s allocation !! Secret_Name ref;
  if bool_decide (SM_Version existing = Secret_Version ref) then Some existing else None.

(** Fetch and write the material of a reference. *)
Definition place (broker : SecretBroker) (s : Secrets) (a : Action) (ref : SecretRef) : io SecretMount :=
  let! material := wrapping "fetch secret %q version %q: %w" (broker ref) in
  refuse! (bool_decide (material = "")) "secret %q version %q is empty";
  let! p := write s (Action_Target a) ref material in
  io_ret (mkSecretMount (Secret_Name ref) (Secret_Version ref) p).

Definition Secrets_Execute (broker : option SecretBroker) (s : Secrets) (a : Action) (h : Machine) : Secrets * (Machine * result Evidence) :=
  match broker with
  | None => (s, (h, Err (Errorf "node has no secret capability")))
  | Some broker =>
      if bool_decide (Action_Kind a ≠ ActionMountSecret) then (s, (h, Err (Errorf "secrets do not support action kind %q")))
      else match Action_Secret a with
      | None => (s, (h, Err (Errorf "mount secret requires target and reference")))
      | Some ref =>
          if bool_decide (Action_Target a = "") then (s, (h, Err (Errorf "mount secret requires target and reference")))
          else match held_version s (Action_Target a) ref with
          | Some existing => (s, (h, Ok (mountEvidence (Action_Target a) existing true)))
          | None =>
              match place broker s a ref h with
              | (h, Err e) => (s, (h, Err e))
              | (h, Ok mount) => (s <| sec_mounts ::= <[Action_Target a := <[Secret_Name ref := mount]> (mounts_of s (Action_Target a))]> |>,
                                  (h, Ok (mountEvidence (Action_Target a) mount false)))
              end
          end
      end
  end.

(** [Mounts]: the source gives them in the order of a map. *)
Definition Secrets_Mounts (s : Secrets) (allocation : string) : list SecretMount := (map_to_list (mounts_of s allocation)).*2.

Definition Secrets_Release (s : Secrets) (allocation : string) (h : Machine) : Secrets * (Machine * result unit) :=
  (s <| sec_mounts ::= delete allocation |>,
   wrapping "remove secret directory for %q: %w" (RemoveAll (secret_dir s allocation)) h).

(** ** What is sealed is what is mounted *)

(** What the library documents: both ends of a Diffie-Hellman exchange derive the same
    secret, an identity's converted public key is that of its converted private key, and
    what was encrypted is decrypted under the same key, nonce and associated data; JSON keeps
    ASCII names as they are, and bytes as base64. *)
Class SecretCipherLaws (cipher : SecretCipher) (signer : Signer) : Prop := {
  x25519_agrees : ∀ a b pa pb, X25519 a Basepoint = Some pa → X25519 b Basepoint = Some pb → X25519 a pb = X25519 b pa;
  x25519_size : ∀ a b c, X25519 a b = Some c → String.length c = 32%nat;
  x25519_identity : ∀ key p, genuine_key key → montgomery (ed25519_Public key) = Some p →
    X25519 (x25519FromEd25519 key) Basepoint = Some p;
  aead_opens : ∀ key nonce value data, aead_Open key nonce (aead_Seal key nonce value data) data = Some value;
  decode_encode_sealed : ∀ s, forallb ascii_text [Sealed_Name s; Sealed_Version s; Sealed_NodeID s] = true →
    decode_sealed (encode_sealed s) = Some s }.

Section Delivery.
Context {cipher : SecretCipher} {signer : Signer} {laws : SecretCipherLaws cipher signer}.

Lemma unseal_seal name version nodeID identity value ephemeral nonce sealed :
  genuine_key identity →
  Seal name version nodeID (ed25519_Public identity) value ephemeral nonce = Ok sealed →
  unseal sealed (x25519FromEd25519 identity) = Ok value ∧
  Sealed_Name sealed = name ∧ Sealed_Version sealed = version ∧ Sealed_NodeID sealed = nodeID.
Proof.
  intros Hgenuine H. unfold Seal, x25519FromEd25519Public in H. destruct (negb _); [done|].
  destruct (montgomery _) as [recipient|] eqn:Hm; [|done]. cbn [rbind] in H.
  destruct (X25519 ephemeral Basepoint) as [pe|] eqn:He; [|done].
  destruct (X25519 ephemeral recipient) as [shared|] eqn:Hs; [|done]. injection H as <-. split; [|done].
  pose proof (x25519_identity identity recipient Hgenuine Hm) as Hr. rewrite (x25519_agrees _ _ _ _ He Hr) in Hs.
  unfold unseal. cbn [Sealed_EphemeralKey Sealed_Nonce Sealed_Ciphertext Sealed_Name Sealed_Version Sealed_NodeID].
  rewrite (x25519_size _ _ _ He), Nat.eqb_refl, Hs, Hr. cbn [negb]. by rewrite aead_opens.
Qed.

(** A file broker reads one file and nothing else. *)
Lemma FileBroker_Fetch_reads b ref : respects eq (FileBroker_Fetch b ref).
Proof. unfold FileBroker_Fetch. io_frame. all: repeat case_match; io_frame. Qed.

Lemma write_ok s allocation ref material h h' p :
  write s allocation ref material h = (h', Ok p) →
  p = Join (secret_dir s allocation) (Base (Secret_MountPath ref)) ∧ fs h' !! p = Some (FileEntry material).
Proof.
  intros H. unfold write in H. apply io_bind_ok in H as (h1 & u1 & _ & H). apply io_bind_ok in H as (h2 & [] & H2 & H).
  injection H as <- <-. split; [done|]. apply wrapping_ok, WriteFile_ok in H2 as [-> _]. apply lookup_insert_eq.
Qed.

(** C24: what reaches a workload is what was sealed for it.  A secret was sealed to the public
    half of a node's genuine key, under ASCII names, and its file lies in the node's secret directory.  A mount
    of it that succeeds, when the node remembers no mount of this version for the
    allocation, has written exactly the sealed value to the path the evidence reports; when
    it remembers one, it has read and written nothing and reports that one as repeated. *)
Theorem sealed_secret_delivered name version nodeID identity value ephemeral nonce sealed dir b s a ref h s' h' ev
    (Hgenuine : genuine_key identity) (Htext : forallb ascii_text [name; version; nodeID] = true)
    (Hsealed : Seal name version nodeID (ed25519_Public identity) value ephemeral nonce = Ok sealed)
    (Hb : NewFileBroker dir nodeID identity = Ok b) (Hsecret : Action_Secret a = Some ref)
    (Hname : Secret_Name ref = name) (Hversion : Secret_Version ref = version)
    (Hfile : fs h !! sealed_file b ref = Some (FileEntry (encode_sealed sealed)))
    (H : Secrets_Execute (Some (FileBroker_Fetch b)) s a h = (s', (h', Ok ev))) :
  match held_version s (Action_Target a) ref with
  | None => ∃ p, observed ev "mount_path" = absolute p ∧ observed ev "secret" = name ∧ observed ev "version" = version ∧
      fs h' !! p = Some (FileEntry value)
  | Some mount => SM_Version mount = version ∧ ev = mountEvidence (Action_Target a) mount true ∧ s' = s ∧ h' = h
  end.
Proof.
  unfold NewFileBroker in Hb. destruct (negb _); [done|]. destruct (negb _) eqn:Hl; [done|].
  injection Hb as Hb. destruct (unseal_seal _ _ _ _ _ _ _ _ Hgenuine Hsealed) as (Hu & En & Ev & Ei).
  unfold Secrets_Execute in H. case_bool_decide; [done|]. rewrite Hsecret in H. case_bool_decide; [done|].
  destruct (held_version s (Action_Target a) ref) as [mount|] eqn:Hheld.
  { injection H as <- <- <-. unfold held_version in Hheld. destruct (mounts_of s _ !! _) as [existing|]; [|done]. cbn in Hheld.
    case_bool_decide; [|done]. injection Hheld as <-. by rewrite <-Hversion. }
  destruct (place _ s a ref h) as [h1 [mount|e]] eqn:Hp; [|done]. injection H as <- <- <-.
  unfold place in Hp. apply io_bind_ok in Hp as (h2 & material & Hf & Hp). apply wrapping_ok in Hf.
  assert (material = value) as ->.
  { unfold FileBroker_Fetch in Hf. apply io_bind_ok in Hf as (h3 & read & Hr & Hf). apply attempt_ok in Hr. destruct read as [raw|e]; [|done].
    apply reading_ok in Hr as [_ Hr]. rewrite Hfile in Hr. injection Hr as <-. rewrite decode_encode_sealed in Hf by (by rewrite En, Ev, Ei).
    destruct (_ || _); [done|]. destruct (bool_decide (Sealed_NodeID sealed ≠ _)); [done|]. unfold io_of in Hf. subst b. cbn [Broker_secretKey] in Hf. rewrite Hu in Hf. by injection Hf. }
  case_bool_decide; [done|]. apply io_bind_ok in Hp as (h3 & p & Hw & Hp). injection Hp as <- <-. apply write_ok in Hw as [_ Hw].
  exists p. subst name version. done.
Qed.
End Delivery.

(** A broker's material never shows.  Whether a mount succeeds, what it reports and what
    the node remembers do not depend on the material: two brokers that supply different
    values, neither empty, are not told apart by anything but the file that is written. *)
Theorem secret_never_reported (broker broker' : SecretBroker) s a ref h h1 m m'
    (Hsecret : Action_Secret a = Some ref) (H : broker ref h = (h1, Ok m)) (H' : broker' ref h = (h1, Ok m'))
    (Hm : m ≠ "") (Hm' : m' ≠ "") :
  (Secrets_Execute (Some broker) s a h).1 = (Secrets_Execute (Some broker') s a h).1 ∧
  (Secrets_Execute (Some broker) s a h).2.2 = (Secrets_Execute (Some broker') s a h).2.2.
Proof.
  assert ((place broker s a ref h).2 = (place broker' s a ref h).2) as E.
  { unfold place, io_bind, wrapping. rewrite H, H'. cbn [wrap_err]. rewrite !bool_decide_false by done. unfold write, io_bind, wrapping.
    destruct (MkdirAll _ h1) as [h2 [[]|e]]; [|done]. cbn [wrap_err]. set (p := Join _ _).
    assert ((WriteFile p m h2).2 = (WriteFile p m' h2).2) as E.
    { unfold WriteFile, syscall, write_at. destruct (fs h2 !! p) as [[]|]; try destruct (is_dir (fs h2) (Dir p)); by destruct (faults h2) as [|[]]. }
    destruct (WriteFile p m h2) as [h3 r3], (WriteFile p m' h2) as [h4 r4]. cbn in E. subst r4. by destruct r3. }
  unfold Secrets_Execute. case_bool_decide; [done|]. rewrite Hsecret. case_bool_decide; [done|]. destruct (held_version _ _ _); [done|].
  destruct (place broker s a ref h) as [h2 r2], (place broker' s a ref h) as [h3 r3]. cbn in E. subst r3. by destruct r2.
Qed.

(** ** Whose files they are *)

Lemma split_on_free c s x : x ∈ split_on c s → free_of c x = true.
Proof.
  revert x. induction s as [|d s IH]; intros x; cbn [split_on]; [by intros ->%list_elem_of_singleton|].
  case_bool_decide as Hd.
  - intros [->|H]%elem_of_cons; [done|by apply IH].
  - destruct (split_on c s) as [|w ws]; intros H.
    + apply list_elem_of_singleton in H as ->. cbn. by rewrite bool_decide_false.
    + apply elem_of_cons in H as [->|H]; [|apply IH; by right]. cbn. rewrite bool_decide_false by done. apply IH. by left.
Qed.

Lemma free_split c s : free_of c s = true → split_on c s = [s].
Proof.
  induction s as [|d s IH]; [done|]. cbn [free_of split_on]. intros [Hd%negb_true_iff%bool_decide_eq_false Hs]%andb_true_iff.
  rewrite bool_decide_false by done. by rewrite IH.
Qed.

(** However a mount path is spelled, what is joined to a directory is one component of it. *)
Lemma Join_Base d s : Join d (Base s) = d ∨ Join d (Base s) = removelast d ∨ ∃ name, Join d (Base s) = d ++ [name].
Proof.
  assert (Base s = "/" ∨ split_on separator (Base s) = [Base s]) as H.
  { unfold Base. case_bool_decide; [by right|]. destruct (last _) as [x|] eqn:Hl; [right|by left]. cbn.
    apply free_split, (split_on_free _ s). apply last_Some_elem_of, list_elem_of_filter in Hl. by destruct Hl. }
  unfold Join. destruct H as [-> | ->]; [by left|]. cbn. unfold step_into. destruct (_ || _); [by left|].
  case_bool_decide; [right; by left|]. right. right. by eexists.
Qed.

Lemma write_isolated s k k' ref material :
  namePattern k = true → namePattern k' = true → k ≠ k' → sec_root s ≠ [] →
  respects (same_tree (sec_root s ++ [k'])) (write s k ref material).
Proof.
  intros Hk Hk' Hne Hroot h. unfold write, secret_dir. rewrite Join_label by done. set (d := sec_root s ++ [k']).
  assert (apart d (sec_root s ++ [k])) as Ha by (apply apart_below, apart_names; congruence).
  pose proof (MkdirAll_same_tree d (sec_root s ++ [k]) (apart_not _ _ Ha) h) as E1.
  unfold io_bind at 1, wrapping at 1. destruct (MkdirAll (sec_root s ++ [k]) h) as [h1 [[]|e]] eqn:Hmk; cbn [fst wrap_err] in *; [|done].
  etransitivity; [exact E1|]. unfold io_bind, wrapping. apply MkdirAll_ok in Hmk as [Hdir _]. set (p := Join _ _).
  assert (same_tree d (fs h1) (fs (WriteFile p material h1).1)) as E2; [|by destruct (WriteFile p material h1) as [h2 [[]|]]].
  destruct (Join_Base (sec_root s ++ [k]) (Secret_MountPath ref)) as [Ep|[Ep|[name Ep]]]; fold p in Ep; rewrite Ep.
  - apply WriteFile_same_tree, apart_not, Ha.
  - rewrite removelast_last. apply WriteFile_same_tree. intros Hpre%prefix_length. unfold d in Hpre. rewrite length_app in Hpre. cbn in Hpre. lia.
  - apply WriteFile_same_tree. rewrite <-app_assoc. unfold d. intros [t Ht]. rewrite <-app_assoc in Ht. apply app_inv_head in Ht. cbn in Ht. congruence.
Qed.

Inductive secret_call := CallMount (a : Action) | CallRelease (allocation : string).
Definition secret_target (c : secret_call) : string := match c with CallMount a => Action_Target a | CallRelease k => k end.
Definition secret_step (broker : SecretBroker) (s : Secrets) (h : Machine) (c : secret_call) : Secrets * Machine :=
  match c with
  | CallMount a => let '(s, (h, _)) := Secrets_Execute (Some broker) s a h in (s, h)
  | CallRelease k => let '(s, (h, _)) := Secrets_Release s k h in (s, h)
  end.
Definition secret_life (broker : SecretBroker) (s : Secrets) (h : Machine) (l : list secret_call) : Secrets * Machine :=
  foldl (λ '(s, h) c, secret_step broker s h c) (s, h) l.

Lemma secret_step_isolated broker s h c k' :
  (∀ ref, respects (same_tree (sec_root s ++ [k'])) (broker ref)) → sec_root s ≠ [] →
  namePattern k' = true → namePattern (secret_target c) = true → secret_target c ≠ k' →
  let '(s', h') := secret_step broker s h c in
  sec_root s' = sec_root s ∧ mounts_of s' k' = mounts_of s k' ∧ tree (fs h') (sec_root s ++ [k']) = tree (fs h) (sec_root s ++ [k']).
Proof.
  intros Hb Hroot Hk' Hk Hne. destruct c as [a|k]; cbn [secret_step secret_target] in *.
  - unfold Secrets_Execute. case_bool_decide; [done|]. destruct (Action_Secret a) as [ref|]; [|done]. case_bool_decide; [done|].
    destruct (held_version _ _ _); [done|]. destruct (place broker s a ref h) as [h1 r1] eqn:Hp.
    assert (same_tree (sec_root s ++ [k']) (fs h) (fs h1)) as E.
    { eapply respects_run; [|exact Hp]. unfold place. io_frame. by apply write_isolated. }
    destruct r1; cbn; [|done]. split; [done|]. split; [|done]. unfold mounts_of. cbn. by rewrite lookup_insert_ne.
  - unfold Secrets_Release, wrapping, secret_dir. rewrite Join_label by done.
    assert (apart (sec_root s ++ [k']) (sec_root s ++ [k])) as Ha by (apply apart_below, apart_names; congruence).
    pose proof (RemoveAll_same_tree _ _ Ha h) as E. destruct (RemoveAll (sec_root s ++ [k]) h) as [h1 r1]. cbn in *.
    split; [done|]. split; [unfold mounts_of; cbn; by rewrite lookup_delete_ne|done].
Qed.

(** C25: credentials are an allocation's own, as long as allocation ids are DNS-style names.
    Whatever is mounted for and released of other allocations under such ids, however their
    mount paths are spelled and whatever calls fail, the mounts and files of an allocation
    with such an id stay what they are, provided the broker does not touch them; and when its
    own release succeeds, none of its material is left.  Nothing checks the ids: see
    [crafted_id_reaches_other]. *)
Theorem secrets_isolated broker s h l k s' h'
    (Hb : ∀ ref, respects (same_tree (sec_root s ++ [k])) (broker ref)) (Hroot : sec_root s ≠ [])
    (Hk : namePattern k = true) (Hl : Forall (λ c, namePattern (secret_target c) = true ∧ secret_target c ≠ k) l)
    (Hlife : secret_life broker s h l = (s', h')) :
  mounts_of s' k = mounts_of s k ∧ tree (fs h') (sec_root s ++ [k]) = tree (fs h) (sec_root s ++ [k]) ∧
  ∀ s2 h2 u, Secrets_Release s' k h' = (s2, (h2, Ok u)) → mounts_of s2 k = ∅ ∧ tree (fs h2) (sec_root s ++ [k]) = ∅.
Proof.
  assert (sec_root s' = sec_root s ∧ mounts_of s' k = mounts_of s k ∧ tree (fs h') (sec_root s ++ [k]) = tree (fs h) (sec_root s ++ [k]))
    as (Er & Em & Et).
  { revert s h Hb Hroot Hlife. induction Hl as [|c l [Hc Hne] _ IH]; intros s h Hb Hroot Hlife; [by injection Hlife as <- <-|].
    unfold secret_life in Hlife. cbn [foldl] in Hlife. pose proof (secret_step_isolated broker s h c k Hb Hroot Hk Hc Hne) as Hs.
    destruct (secret_step broker s h c) as [s1 h1]. destruct Hs as (E1 & E2 & E3). rewrite <-E1 in Hb, Hroot, E3 |- *.
    destruct (IH s1 h1 Hb Hroot Hlife) as (F1 & F2 & F3). split; [done|]. split; congruence. }
  split; [done|]. split; [done|]. intros s2 h2 u H. unfold Secrets_Release, secret_dir in H. rewrite Join_label, Er in H by done.
  injection H as <- H. split; [unfold mounts_of; cbn; by rewrite lookup_delete_eq|].
  apply wrapping_ok in H. destruct u. apply RemoveAll_ok in H as ->. apply tree_cleared.
Qed.

(** ** Samples *)

Module SecretSample.
Definition key32 : string := "kkkkkkkkkkkkkkkkkkkkkkkkkkkkkkkk".
Definition sealed_text (s : SealedSecret) : string :=
  QueueSample.bits (encode (Sealed_Name s, Sealed_Version s, Sealed_NodeID s, Sealed_EphemeralKey s, Sealed_Nonce s, Sealed_Ciphertext s)).
(** Ciphers that hide nothing: every exchange derives one key, and a ciphertext is its text. *)
#[local] Instance sample_cipher : SecretCipher := {|
  X25519 _ _ := Some key32; Basepoint := key32; aead_Seal _ _ value _ := value; aead_Open _ _ text _ := Some text;
  cipher_sha256 s := s; cipher_sha512 s := s; montgomery _ := Some key32;
  encode_sealed := sealed_text;
  decode_sealed s := p ← QueueSample.unbits s; (λ '(a, b, c, d, e, f), mkSealedSecret a b c d e f) <$> decode p |}.
#[local] Instance sample_identity : Signer := {| base64_Encode s := s; ed25519_Sign _ s := s; ed25519_Public key := String.substring 0 32 key;
  ed25519_NewKeyFromSeed seed := seed +:+ seed |}.
#[local] Instance sample_cipher_laws : SecretCipherLaws sample_cipher sample_identity.
Proof.
  split; [done|by intros a b c [= <-]|by intros key p _ [= <-]|done|].
  intros s _. unfold encode_sealed, decode_sealed, sample_cipher, sealed_text. rewrite QueueSample.unbits_bits. cbn -[encode decode].
  rewrite countable.decode_encode. by destruct s.
Qed.

Definition identity : string := key32 +:+ key32.
Definition broker : FileBroker := Eval vm_compute in mkFileBroker ["etc"; "sealed"] "n1" (x25519FromEd25519 identity).
Definition token : SecretRef := mkSecretRef "token" "v1" "/etc/api/key".
Definition sealed_token : SealedSecret := Eval vm_compute in mkSealedSecret "token" "v1" "n1" key32 "n" "hush".
Definition mount_of (k : string) (ref : SecretRef) : Action :=
  mkAction "act" ActionMountSecret k "web" "n1" "" 0 Resources_zero 0 "" None "" "" 0 false None None [] (Some ref) [] Budget_zero "" None [].
Definition disk : FS :=
  list_to_map [(["run"], DirEntry); (["run"; "secrets"], DirEntry); (["etc"; "sealed"; "token.v1.sealed"], FileEntry (sealed_text sealed_token))].
Definition empty_secrets : Secrets := mkSecrets ["run"; "secrets"] ∅.
Definition mounted : Secrets * (Machine * result Evidence) :=
  Eval vm_compute in Secrets_Execute (Some (FileBroker_Fetch broker)) empty_secrets (mount_of "web-0" token) (mkMachine disk []).
Definition mounted_evidence : Evidence := Eval vm_compute in match mounted.2.2 with Ok ev => ev | Err _ => report EvidenceSecretMounted "" ∅ end.

Lemma sealed_secret_delivered_witness :
  ∃ p, observed mounted_evidence "mount_path" = absolute p ∧ observed mounted_evidence "secret" = "token" ∧
    observed mounted_evidence "version" = "v1" ∧ fs mounted.2.1 !! p = Some (FileEntry "hush").
Proof.
  apply (sealed_secret_delivered "token" "v1" "n1" identity "hush" "e" "n" sealed_token "/etc/sealed" broker empty_secrets (mount_of "web-0" token) token
    (mkMachine disk []) mounted.1 mounted.2.1 mounted_evidence); [exists key32; split; reflexivity|vm_compute; reflexivity..].
Defined.

Definition plain (value : string) : SecretBroker := λ _, io_ret value.
Lemma secret_never_reported_witness :
  (Secrets_Execute (Some (plain "one")) empty_secrets (mount_of "web-0" token) (mkMachine disk [])).2.2 =
  (Secrets_Execute (Some (plain "two")) empty_secrets (mount_of "web-0" token) (mkMachine disk [])).2.2.
Proof.
  exact (proj2 (secret_never_reported (plain "one") (plain "two") empty_secrets (mount_of "web-0" token) token (mkMachine disk []) (mkMachine disk [])
    "one" "two" eq_refl eq_refl eq_refl ltac:(discriminate) ltac:(discriminate))).
Defined.

Definition others : list secret_call := [CallMount (mount_of "db-0" (mkSecretRef "pw" "v1" "/x/..")); CallRelease "db-0"].
Definition after_others : Secrets * Machine := Eval vm_compute in secret_life (plain "pw") mounted.1 mounted.2.1 others.
Lemma secrets_isolated_witness :
  mounts_of after_others.1 "web-0" = mounts_of mounted.1 "web-0" ∧
  tree (fs after_others.2) ["run"; "secrets"; "web-0"] = tree (fs mounted.2.1) ["run"; "secrets"; "web-0"] ∧
  ∀ s2 h2 u, Secrets_Release after_others.1 "web-0" after_others.2 = (s2, (h2, Ok u)) →
    mounts_of s2 "web-0" = ∅ ∧ tree (fs h2) ["run"; "secrets"; "web-0"] = ∅.
Proof.
  apply (secrets_isolated (plain "pw") mounted.1 mounted.2.1 others "web-0" after_others.1 after_others.2).
  - intros ref. apply respects_ret, _.
  - discriminate.
  - reflexivity.
  - repeat constructor; vm_compute; done.
  - vm_compute. reflexivity.
Defined.

(** Only the last element of a mount path counts: a second secret whose path ends alike
    overwrites the first, and both are reported mounted. *)
Definition named : SecretBroker := λ ref, io_ret (Secret_Name ref).
Definition both : list secret_call :=
  [CallMount (mount_of "web-0" (mkSecretRef "cert" "v1" "/etc/tls/key")); CallMount (mount_of "web-0" (mkSecretRef "token" "v1" "/etc/api/key"))].
Lemma secrets_share_a_file :
  let '(s, h) := secret_life named empty_secrets (mkMachine disk []) both in
  is_Ok (validateSecrets [mkSecretRef "cert" "v1" "/etc/tls/key"; mkSecretRef "token" "v1" "/etc/api/key"]) ∧
  (SM_Path <$> mounts_of s "web-0" !! "cert") = Some ["run"; "secrets"; "web-0"; "key"] ∧
  fs h !! ["run"; "secrets"; "web-0"; "key"] = Some (FileEntry "token").
Proof. vm_compute. repeat split; exact I || reflexivity. Qed.

(** An allocation id is joined to the secret root as a path: releasing the allocation called
    [x/../web-0], which holds nothing, removes the secrets of [web-0]. *)
Lemma crafted_id_reaches_other :
  tree (fs mounted.2.1) ["run"; "secrets"; "web-0"] ≠ ∅ ∧ mounts_of mounted.1 "x/../web-0" = ∅ ∧
  tree (fs (Secrets_Release mounted.1 "x/../web-0" mounted.2.1).2.1) ["run"; "secrets"; "web-0"] = ∅.
Proof. split; [apply (bool_decide_unpack _); vm_compute; exact I|]. split; [reflexivity|]. apply (bool_decide_unpack _). vm_compute. exact I. Qed.
End SecretSample.
