(* ===== verification/Gateway.v ===== *)
(** * The gateway of a node (src/node/gateway.go)

    Whole route snapshots rendered as one document and pushed to a local Caddy.  The text
    of a JSON value and the HTTP client are parameters; the timeout of a push is an answer
    that fails. *)

From S2P Require Import Prelude Types Text Projection History Executor Directory Canary NetPolicy WorkQueue Router FileSystem Volumes Storage LogBackup.
Open Scope Z_scope.

Inductive json := JNum (z : Z) | JStr (s : string) | JList (l : list json) | JObj (fields : list (string * json)).

(** [json.MarshalIndent] of a value, and an HTTP client that posts a body to an address
    and answers with a status, over a state of its own. *)
Class JsonText := encode_json : json → string.
Definition HttpClient (W : Type) : Type := W → string → string → W * result Z.

Record CaddyConfig := mkCaddyConfig {
  Caddy_AdminAddress : string; Caddy_ConfigPath : string; Caddy_ACMEEmail : string; Caddy_TLSInternal : bool }.
#[export] Instance eta_CaddyConfig : Eta CaddyConfig := λ c,
  mkCaddyConfig (Caddy_AdminAddress c) (Caddy_ConfigPath c) (Caddy_ACMEEmail c) (Caddy_TLSInternal c).

Definition NewCaddyGateway (config : CaddyConfig) : io CaddyConfig :=
  let config := if bool_decide (Caddy_AdminAddress config = "") then config <| Caddy_AdminAddress := "http://127.0.0.1:2019" |> else config in
  if bool_decide (Caddy_ConfigPath config ≠ "") then
    refuse! (negb (IsAbs (Caddy_ConfigPath config))) "gateway config path must be absolute";
    wrapping "create gateway config directory: %w" (MkdirAll (Dir (Clean (Caddy_ConfigPath config)))) >> io_ret config
  else io_ret config.

Definition weightedUpstreams (s : RouteSnapshot) : list WeightedEndpoint :=
  if len (Snap_Weighted s) <? 2 then []
  else if existsb (λ e, Weight e <=? 0) (Snap_Weighted s) then [] else Snap_Weighted s.

Definition dial (e : Endpoint) : json := JObj [("dial", JStr (Endpoint_HostPort e))].

(** The handler of one route. *)
Definition route_handler (s : RouteSnapshot) : json :=
  let '(upstreams, balancing) :=
    match weightedUpstreams s with
    | [] => (dial <$> Snap_Endpoints s, [])
    | _ =>
        ((λ e, dial (Weighted_Endpoint e)) <$> Snap_Weighted s,
         [("load_balancing", JObj [("selection_policy",
            JObj [("policy", JStr "weighted_round_robin"); ("weights", JList ((λ e, JNum (Weight e)) <$> Snap_Weighted s))])])])
    end in
  match upstreams with
  | [] => JObj [("handler", JStr "static_response"); ("status_code", JNum 503); ("body", JStr ("no healthy endpoint for " +:+ Snap_Workload s))]
  | _ => JObj ([("handler", JStr "reverse_proxy"); ("upstreams", JList upstreams)] ++ balancing)
  end.

Definition route_json (s : RouteSnapshot) : json :=
  JObj [("match", JList [JObj [("host", JList [JStr (Snap_Host s)])]]); ("handle", JList [route_handler s])].

(** The hosts that need a public certificate. *)
Definition acmeHosts (c : CaddyConfig) (l : list RouteSnapshot) : list string :=
  omap (λ s, if bool_decide (Snap_Exposure s = "public") && negb (Caddy_TLSInternal c) then Some (Snap_Host s) else None) l.

Definition automation (policy : list (string * json)) : json :=
  JObj [("automation", JObj [("policies", JList [JObj policy])])].

Definition tls_app (c : CaddyConfig) (hosts : list string) : list (string * json) :=
  if Caddy_TLSInternal c then [("tls", automation [("issuers", JList [JObj [("module", JStr "internal")]])])]
  else match hosts with
       | [] => []
       | _ =>
           let issuer := [("module", JStr "acme")] ++ (if bool_decide (Caddy_ACMEEmail c ≠ "") then [("email", JStr (Caddy_ACMEEmail c))] else []) in
           [("tls", automation [("subjects", JList (JStr <$> hosts)); ("issuers", JList [JObj issuer])])]
       end.

Definition render (c : CaddyConfig) (l : list RouteSnapshot) : result json :=
  refuse (existsb (λ s, bool_decide (Snap_Host s = "")) l) "route snapshot has no host";
  let server := JObj [("listen", JList [JStr ":443"]); ("routes", JList (route_json <$> l))] in
  Ok (JObj [("apps", JObj ([("http", JObj [("servers", JObj [("a4s", server)])])] ++ tls_app c (acmeHosts c l)))]).

Section Gateway.
Context {W : Type} {text : JsonText} (client : HttpClient W).

Definition push (c : CaddyConfig) (document : string) (w : W) : W * result unit :=
  match client w (Caddy_AdminAddress c +:+ "/load") document with
  | (w, Err e) => (w, Err (Wrapf "push gateway config: %w" e))
  | (w, Ok status) =>
      if (status <? 200) || (300 <=? status) then (w, Err (Errorf "gateway refused config: %s: %s")) else (w, Ok tt)
  end.

Definition Gateway_Apply (c : CaddyConfig) (h : Machine * W) (l : list RouteSnapshot) : (Machine * W) * result unit :=
  match render c l with
  | Err e => (h, Err e)
  | Ok document =>
      let '(m, r) := if bool_decide (Caddy_ConfigPath c ≠ "") then writeAtomic (Clean (Caddy_ConfigPath c)) (encode_json document) h.1 else (h.1, Ok tt) in
      match r with
      | Err e => ((m, h.2), Err e)
      | Ok _ => let '(w, r) := push c (encode_json document) h.2 in ((m, w), r)
      end
  end.
End Gateway.

(** ** What a document says about a host *)

Definition field (k : string) (j : json) : option json :=
  match j with JObj fields => snd <$> find (λ x, String.eqb x.1 k) fields | _ => None end.
Definition fields (ks : list string) (j : json) : option json := foldl (λ o k, o ≫= field k) (Some j) ks.
Definition elems (j : json) : list json := match j with JList l => l | _ => [] end.
Definition text_of (j : json) : option string := match j with JStr s => Some s | _ => None end.
Definition number_of (j : json) : option Z := match j with JNum z => Some z | _ => None end.

(** Refused with a status, or passed on to these addresses, with these weights if any. *)
Inductive answer := Static (status : Z) | Proxied (upstreams : list string) (weights : list Z).
#[export] Instance answer_eq_dec : EqDecision answer. Proof. solve_decision. Defined.

Definition handler_says (j : json) : option answer :=
  kind ← field "handler" j ≫= text_of;
  if String.eqb kind "static_response" then Static <$> (field "status_code" j ≫= number_of)
  else if String.eqb kind "reverse_proxy" then
    upstreams ← field "upstreams" j;
    let weights := fields ["load_balancing"; "selection_policy"; "weights"] j in
    Some (Proxied (omap (λ u, field "dial" u ≫= text_of) (elems upstreams)) (omap number_of (default [] (elems <$> weights))))
  else None.

Definition route_matches (host : string) (j : json) : bool :=
  bool_decide (Exists (λ m, host ∈ omap text_of (default [] (elems <$> field "host" m))) (default [] (elems <$> field "match" j))).

(** The handler of the first route that matches. *)
Definition document_says (doc : json) (host : string) : option answer :=
  routes ← fields ["apps"; "http"; "servers"; "a4s"; "routes"] doc;
  route ← find (route_matches host) (elems routes);
  handle ← field "handle" route;
  head (elems handle) ≫= handler_says.

(** What a snapshot means: its weighted endpoints when it splits traffic, its endpoints
    otherwise, and an honest error when it has none. *)
Definition intended (s : RouteSnapshot) : answer :=
  let '(upstreams, weights) :=
    match weightedUpstreams s with
    | [] => (Endpoint_HostPort <$> Snap_Endpoints s, [])
    | l => ((λ e, Endpoint_HostPort (Weighted_Endpoint e)) <$> l, Weight <$> l)
    end in
  match upstreams with [] => Static 503 | _ => Proxied upstreams weights end.

Lemma weightedUpstreams_cases s : weightedUpstreams s = [] ∨ weightedUpstreams s = Snap_Weighted s ∧ Snap_Weighted s ≠ [].
Proof. unfold weightedUpstreams. destruct (Z.ltb_spec (len (Snap_Weighted s)) 2); [by left|]. destruct (existsb _ _); [by left|right]. split; [done|]. intros E. rewrite E in *. unfold len in *. cbn in *. lia. Qed.

Lemma omap_dial {A} (f : A → Endpoint) (l : list A) : omap (λ u, field "dial" u ≫= text_of) ((λ e, dial (f e)) <$> l) = (λ e, Endpoint_HostPort (f e)) <$> l.
Proof. induction l as [|x l IH]; [done|]. cbn. by rewrite IH. Qed.
Lemma omap_weights (l : list WeightedEndpoint) : omap number_of ((λ e, JNum (Weight e)) <$> l) = Weight <$> l.
Proof. induction l as [|x l IH]; [done|]. cbn. by rewrite IH. Qed.

Lemma handler_intended s : handler_says (route_handler s) = Some (intended s).
Proof.
  unfold route_handler, intended. destruct (weightedUpstreams_cases s) as [->|[-> Hne]].
  - destruct (Snap_Endpoints s) as [|e l]; [done|]. cbn. f_equal. f_equal. f_equal. exact (omap_dial id l).
  - destruct (Snap_Weighted s) as [|e l]; [done|]. cbn. f_equal. f_equal; f_equal; [apply (omap_dial Weighted_Endpoint l)|apply omap_weights].
Qed.

Lemma route_json_matches host s : route_matches host (route_json s) = bool_decide (Snap_Host s = host).
Proof.
  unfold route_matches. apply bool_decide_ext. cbn. rewrite Exists_cons, Exists_nil. cbn. rewrite elem_of_cons. split; [|intros <-; left; by left].
  intros [[->|H]|[]]; [done|]. by apply not_elem_of_nil in H.
Qed.

(** The gateway serves exactly the snapshot.  A rendered document says, of every host, what
    the first snapshot for that host means, and nothing of a host no snapshot names. *)
Lemma render_says c l doc host :
  render c l = Ok doc → document_says doc host = intended <$> find (λ s, bool_decide (Snap_Host s = host)) l.
Proof.
  intros H. unfold render in H. destruct (existsb _ _); [done|]. injection H as <-.
  match goal with |- document_says ?d _ = _ => assert (fields ["apps"; "http"; "servers"; "a4s"; "routes"] d = Some (JList (route_json <$> l))) as F by done end.
  unfold document_says. rewrite F. cbn [mbind option_bind elems]. clear F.
  assert (find (route_matches host) (route_json <$> l) = route_json <$> find (λ s, bool_decide (Snap_Host s = host)) l) as E.
  { induction l as [|s l IH]; [done|]. cbn [fmap list_fmap find]. rewrite route_json_matches. case_bool_decide; [done|exact IH]. }
  rewrite E. destruct (find _ l) as [s|]; [|done]. exact (handler_intended s).
Qed.

(** ** What is published is what is served *)

Lemma find_unique {A} (P : A → bool) (l : list A) x : x ∈ l → P x = true → (∀ y, y ∈ l → P y = true → y = x) → find P l = Some x.
Proof.
  induction l as [|y l IH]; intros Hx Px Hu; [by apply not_elem_of_nil in Hx|]. cbn. destruct (P y) eqn:Py.
  - f_equal. apply Hu; [by left|done].
  - apply elem_of_cons in Hx as [->|Hx]; [congruence|]. apply IH; [done..|]. intros z Hz. apply Hu. by right.
Qed.

Lemma find_none_elem {A} (P : A → bool) (l : list A) : (∀ y, y ∈ l → P y = false) → find P l = None.
Proof. induction l as [|y l IH]; intros H; [done|]. cbn. rewrite H by by left. apply IH. intros z Hz. apply H. by right. Qed.

Section Served.
Context {W : Type} {text : JsonText} (client : HttpClient W).

(** A route table is kept under the names of its hosts. *)
Definition keyed (routes : gmap string Route) : Prop := map_Forall (λ host r, Route_Host r = host) routes.

Lemma snapshot_find endpoints routes host :
  keyed routes →
  find (λ s, bool_decide (Snap_Host s = host)) (gateway_snapshot endpoints routes) = route_entry endpoints <$> routes !! host.
Proof.
  intros Hk. destruct (routes !! host) as [r|] eqn:Hr.
  - apply find_unique.
    + apply gateway_snapshot_complete. by exists host, r.
    + apply bool_decide_eq_true. exact (Hk _ _ Hr).
    + intros s (host' & r' & Hr' & ->)%gateway_snapshot_complete E. apply bool_decide_eq_true in E. cbn in E.
      rewrite (Hk _ _ Hr') in E. subst host'. congruence.
  - apply find_none_elem. intros s (host' & r' & Hr' & ->)%gateway_snapshot_complete. apply bool_decide_eq_false. cbn.
    rewrite (Hk _ _ Hr'). intros ->. congruence.
Qed.

Lemma writeAtomic_ok p content h h' : p ≠ [] → writeAtomic p content h = (h', Ok tt) → fs h' !! p = Some (FileEntry content).
Proof.
  intros Hp H. destruct (Dir_snoc p Hp) as [base Hb]. unfold writeAtomic in H. apply io_bind_ok in H as (h1 & [] & H1 & H).
  apply wrapping_ok, WriteFile_ok in H1 as [E1 _]. apply wrapping_ok, Rename_ok in H as [E _].
  - rewrite E, <-tree_at, tree_grafted, tree_at, E1. apply lookup_insert_eq.
  - rewrite Hb, suffixed_snoc. intros E0. apply app_inj_tail in E0 as [_ E0]. symmetry in E0. by apply append_ne in E0.
Qed.

(** C28: the gateway serves what was authorized.  When a node reports a route published, its
    gateway has accepted a document that says, of every host in the node's route table, that
    it is passed on to exactly the endpoints of its workload, or answered with an error when
    there are none, and says nothing of any other host; and that document is on disk. *)
Theorem published_route_served c endpoints h routes a h' routes' ev
    (Hk : keyed routes) (Hpath : Clean (Caddy_ConfigPath c) ≠ [])
    (H : Router_Execute (Some (Gateway_Apply client c)) endpoints h routes a = (h', routes', Ok ev)) :
  is_Some (routes' !! Action_Target a) ∧ keyed routes' ∧
  ∃ doc status, client h.2 (Caddy_AdminAddress c +:+ "/load") (encode_json doc) = (h'.2, Ok status) ∧ 200 <= status < 300 ∧
    (∀ host, document_says doc host = (λ r, intended (route_entry endpoints r)) <$> routes' !! host) ∧
    (Caddy_ConfigPath c ≠ "" → fs h'.1 !! Clean (Caddy_ConfigPath c) = Some (FileEntry (encode_json doc))).
Proof.
  unfold Router_Execute in H. destruct (Action_Kind a); try discriminate H. destruct (_ || _); [discriminate H|].
  set (changed := <[Action_Target a := _]> routes) in H. destruct (Router_apply _ _ _ _) as [h1 [[]|e]] eqn:Ha; [|discriminate H].
  injection H as -> <- _. unfold changed at 1. rewrite lookup_insert_eq. split; [by eexists|].
  assert (keyed changed) as Hk' by (apply map_Forall_insert_2; done). split; [done|].
  unfold Router_apply, Gateway_Apply in Ha. destruct (render c _) as [doc|] eqn:Hr; [|discriminate Ha].
  destruct (if bool_decide _ then _ else _) as [m [[]|e]] eqn:Hw; [|discriminate Ha]. unfold push in Ha.
  destruct (client h.2 _ _) as [w [status|e]] eqn:Hc; [|discriminate Ha].
  destruct ((status <? 200) || (300 <=? status)) eqn:Hs; [discriminate Ha|]. injection Ha as <-.
  apply orb_false_iff in Hs as [Hs1%Z.ltb_ge Hs2%Z.leb_gt]. exists doc, status. cbn [fst snd]. split; [done|]. split; [lia|]. split.
  - intros host. rewrite (render_says _ _ _ host Hr), snapshot_find by done. by destruct (changed !! host).
  - intros Hne. rewrite bool_decide_true in Hw by done. by apply writeAtomic_ok in Hw.
Qed.
End Served.

(** ** Samples *)

Module GatewaySample.
#[local] Instance sample_text : JsonText := λ _, "document".
Definition accepts : HttpClient nat := λ w _ _, (S w, Ok 200).
Definition publish : Action :=
  mkAction "act" ActionPublishRoute "web.example" "web" "n1" "" 0 Resources_zero 80 "public" None "" "" 0 false None None [] None [] Budget_zero "" None [].
Definition endpoints (w : string) : list Endpoint := if bool_decide (w = "web") then [mkEndpoint "web-0" "n1" "10.0.0.2" 80] else [].
Definition caddy : CaddyConfig := mkCaddyConfig "http://127.0.0.1:2019" "/etc/caddy.json" "" false.
Definition disk : FS := {[ ["etc"] := DirEntry ]}.
Definition before : gmap string Route := {["old.example" := mkRoute "old.example" "old" 80 "public"]}.
Definition published : (Machine * nat) * gmap string Route * result Evidence :=
  Router_Execute (Some (Gateway_Apply accepts caddy)) (Some endpoints) (mkMachine disk [], 0%nat) before publish.

Lemma published_route_served_witness :
  ∃ doc, document_says doc "web.example" = Some (Proxied ["10.0.0.2:80"] []) ∧ document_says doc "old.example" = Some (Static 503) ∧
    document_says doc "other.example" = None.
Proof.
  destruct published as [[h' routes'] [ev|]] eqn:Hp; [|vm_compute in Hp; discriminate Hp].
  assert (routes' = published.1.2) as E by by rewrite Hp.
  destruct (published_route_served accepts caddy (Some endpoints) (mkMachine disk [], 0%nat) before publish h' routes' ev)
    as (_ & _ & doc & status & _ & _ & Hsays & _); [..|exact Hp|].
  { apply map_Forall_singleton. reflexivity. }
  { vm_compute. discriminate. }
  exists doc. rewrite !Hsays, E. split; [|split]; vm_compute; reflexivity.
Defined.

(** What the node hands its gateway never splits traffic: the weights of a canary are
    computed by the control plane and left out of every snapshot the router makes. *)
Lemma node_routes_unweighted (f : option (string → list Endpoint)) (routes : gmap string Route) s :
  s ∈ gateway_snapshot f routes → weightedUpstreams s = [].
Proof. intros (host & r & _ & ->)%gateway_snapshot_complete. done. Qed.
End GatewaySample.
