(* ===== verification/NodeHost.v ===== *)
(** * A whole node (src/cmd/a4s/main.go, runNode)

    The capabilities of the other files wired together the way the node command wires them:
    a container is created with the volumes, secrets and namespace the node knows for its
    allocation at that moment, and routes resolve to what the network has attached.  A node
    runs no agents and no databases.  Containerd and the network plugins are the backends. *)

From S2P Require Import Prelude Types Text Policy Simulate Disruption Projection Executor Directory Canary Validate WorkQueue Supervise Dispatch Metering RuntimeApi Router FileSystem Volumes Storage Custody Network Containers Secrets Gateway.
Open Scope Z_scope.

Record HostState (B N W : Type) := mkHostState {
  hs_containers : B; hs_network : N; hs_secrets : Secrets; hs_volumes : Volumes; hs_machine : Machine; hs_client : W }.
Arguments mkHostState {B N W}.
Arguments hs_containers {B N W}.
Arguments hs_network {B N W}.
Arguments hs_secrets {B N W}.
Arguments hs_volumes {B N W}.
Arguments hs_machine {B N W}.
Arguments hs_client {B N W}.
#[export] Instance eta_HostState {B N W} : Eta (HostState B N W) := λ h,
  mkHostState (hs_containers h) (hs_network h) (hs_secrets h) (hs_volumes h) (hs_machine h) (hs_client h).

Section Wiring.
Context {B N W : Type} {digest : Digest} {vcodec : VolumeCodec} {tcodec : TaskCodec} {ip : AddressParser} {text : JsonText}.
Context (containers : ContainerBackend B) (network : NetworkBackend N) (broker : option SecretBroker) (client : HttpClient W).
Context (sandbox : SandboxProfile) (caddy : option CaddyConfig) (nft : HostState B N W → string → HostState B N W * result unit).
Context (modified : path → Z) (nodeID : string).

(** [desired] is the node's record of server intent. *)
Definition volumeRefsFor (allocation : string) (desired : DesiredState) : list VolumeRef :=
  match entries desired !! allocation with None => [] | Some entry => Desired_Volumes entry end.

(** The resolvers [runNode] gives the container runtime. *)
Definition wired_runtime (desired : DesiredState) (h : HostState B N W) : ContainerRuntime :=
  mkContainerRuntime
    (Some (λ k, Mounts (hs_volumes h) k (volumeRefsFor k desired)))
    (match broker with
     | None => None
     | Some _ => Some (λ k, (λ m, mkSecretMountSpec (absolute (SM_Path m)) (absolute (SM_Path m))) <$> Secrets_Mounts (hs_secrets h) k)
     end)
    (Some (λ k, match Network_Attachment (Some network) (hs_network h) k with Ok att => Att_Namespace att | Err _ => "" end))
    sandbox.

(** The endpoints of a workload: what runs here and has an address. *)
Definition wired_endpoints (desired : DesiredState) (h : HostState B N W) (workload : string) : list Endpoint :=
  omap (λ entry,
    if bool_decide (Desired_Workload entry ≠ workload) || negb (Desired_Running entry) then None
    else match Network_Attachment (Some network) (hs_network h) (Desired_ID entry) with
         | Err _ => None
         | Ok att => if bool_decide (Att_Address att = "") then None
                     else Some (mkEndpoint (Desired_ID entry) nodeID (Att_Address att) (Probe_Port (Desired_Probe entry)))
         end) (Desired_List desired).

(** The capabilities over one state; [now] is the state an action finds, which the
    resolvers read. *)
Definition node_host (desired : DesiredState) (now : HostState B N W) : Host (HostState B N W) :=
  mkHost
    (Some (λ h a, let '(b, r) := Container_Execute containers (wired_runtime desired h) (hs_containers h) a in (h <| hs_containers := b |>, r)))
    (Some (λ h a, let '(n, r) := Network_Execute (Some network) (hs_network h) a in (h <| hs_network := n |>, r),
           λ h k, let '(n, r) := Network_Detach (Some network) (hs_network h) k in (h <| hs_network := n |>, let* _ := r in Ok tt)))
    (match broker with
     | None => None
     | Some _ =>
         Some (λ h a, let '(s, (m, r)) := Secrets_Execute broker (hs_secrets h) a (hs_machine h) in (h <| hs_secrets := s |> <| hs_machine := m |>, r),
               λ h k, let '(s, (m, r)) := Secrets_Release (hs_secrets h) k (hs_machine h) in (h <| hs_secrets := s |> <| hs_machine := m |>, r))
     end)
    (Some (λ h a, let '(v, (m, r)) := Volumes_Execute modified (hs_volumes h) a (hs_machine h) in (h <| hs_volumes := v |> <| hs_machine := m |>, r)))
    None
    (match caddy with
     | None => None
     | Some c => Some (λ h l, let '((m, w), r) := Gateway_Apply client c (hs_machine h, hs_client h) l in (h <| hs_machine := m |> <| hs_client := w |>, r))
     end)
    (match caddy with None => None | Some _ => Some (wired_endpoints desired now) end)
    nft.

Definition Node_Execute (luck : Luck) (desired : DesiredState) (c : CompositeRuntime (HostState B N W)) (a : Action)
    : CompositeRuntime (HostState B N W) * result Evidence :=
  Composite_Execute (node_host desired (Comp_host c)) luck c a.
End Wiring.

(** ** What a node reports is what the kernel supposed *)

Definition agrees (w : World) (a : Action) (e : Evidence) : Prop :=
  ∃ w1 w2, projectInto w e = Ok w1 ∧ simulateAction w a = Ok w2 ∧ Executor.view w1 = Executor.view w2.

Section Agreement.
Context {clock : WallClock} {digest : Digest}.

Lemma agrees_like w a e :
  predicted w a →
  (∀ e0 w0, Execute w a = Ok e0 → projectInto w e0 = Ok w0 → ∃ w1, projectInto w e = Ok w1 ∧ Executor.view w1 = Executor.view w0) →
  agrees w a e.
Proof.
  intros (e0 & w0 & w2 & He & Hp & Hs & Hview) H. destruct (H e0 w0 He Hp) as (w1 & H1 & H2). exists w1, w2. by rewrite H2.
Qed.

(** A projection that reads the same fields gives the same world. *)
Lemma created_fields_same w e e0 :
  Ev_Kind e = EvidenceAllocationCreated → Ev_Kind e0 = EvidenceAllocationCreated → Ev_Target e = Ev_Target e0 →
  (∀ k, k ∈ ["node"; "workload"; "image"; "replica"; "cpu_millis"; "memory_mb"; "tokens"; "cost_millis"; "wall_seconds"; "tool_calls"] →
     observed e k = observed e0 k) →
  projectInto w e = projectInto w e0.
Proof.
  intros Hk Hk0 Ht Hf. unfold projectInto. rewrite Hk, Hk0. unfold projectAllocationCreated, observedResources, observedBudget, observedInt.
  rewrite Ht, !Hf by set_solver. done.
Qed.

Lemma view_eq w w' :
  Nodes w = Nodes w' → Allocations w = Allocations w' → Routes w = Routes w' → Types.Volumes w = Types.Volumes w' →
  Queues w = Queues w' → Approvals w = Approvals w' → Executor.view w = Executor.view w'.
Proof. unfold Executor.view. by intros -> -> -> -> -> ->. Qed.

Lemma disruption_nodes w x k t : Nodes (recordDisruption w x k t) = Nodes w.
Proof. unfold recordDisruption. destruct (IsZero t); [done|]. by case_bool_decide. Qed.
Lemma disruption_allocations w x k t : Allocations (recordDisruption w x k t) = Allocations w.
Proof. unfold recordDisruption. destruct (IsZero t); [done|]. by case_bool_decide. Qed.
Lemma disruption_routes w x k t : Routes (recordDisruption w x k t) = Routes w.
Proof. unfold recordDisruption. destruct (IsZero t); [done|]. by case_bool_decide. Qed.
Lemma disruption_volumes w x k t : Types.Volumes (recordDisruption w x k t) = Types.Volumes w.
Proof. unfold recordDisruption. destruct (IsZero t); [done|]. by case_bool_decide. Qed.
Lemma disruption_queues w x k t : Queues (recordDisruption w x k t) = Queues w.
Proof. unfold recordDisruption. destruct (IsZero t); [done|]. by case_bool_decide. Qed.
Lemma disruption_approvals w x k t : Approvals (recordDisruption w x k t) = Approvals w.
Proof. unfold recordDisruption. destruct (IsZero t); [done|]. by case_bool_decide. Qed.
Create Rewrite HintDb disruption.
#[local] Hint Rewrite disruption_nodes disruption_allocations disruption_routes disruption_volumes disruption_queues disruption_approvals : disruption.

Section Reports.
Context {R L : Type} (d : @Dispatcher R L) (now : time) (g : Goal) (w : World) (a : Action).
Context (Hv : validateAction g w a = Ok tt) (Hp : predictable w a) (Hnode : Disp_NodeID d = Action_Node a).

(** The reports of the container runtime. *)
Lemma pulled_agrees observed' :
  Action_Kind a = ActionPullImage → agrees w a (attribute d now (report EvidenceImagePresent (Action_Image a) observed') a).
Proof.
  intros Hk. apply agrees_like; [eapply predict_node; [by left|done]|]. intros e0 w0 He H0.
  unfold Execute, execute_pull in He. rewrite Hk in He. destruct (Nodes w !! Action_Node a) eqn:Hn; [|done]. injection He as <-.
  exists w0. split; [|done]. rewrite <-H0. unfold projectInto, attribute. rewrite Hk. cbn [Ev_Kind report].
  unfold projectImagePresent. read_fields. by rewrite Hnode.
Qed.

Lemma created_agrees created :
  Action_Kind a = ActionCreateAllocation → Action_Budget a = Budget_zero →
  agrees w a (attribute d now (report EvidenceAllocationCreated (Action_Target a) (<["created" := created]> {["image" := Action_Image a]})) a).
Proof.
  intros Hk Hb. apply agrees_like; [by eapply predict_create|]. intros e0 w0 He H0.
  unfold Execute, execute_create in He. rewrite Hk in He. destruct (Nodes w !! Action_Node a) eqn:Hn; [|done]. injection He as <-.
  exists w0. split; [|done]. rewrite <-H0. apply created_fields_same; [done..|]. unfold attribute. rewrite Hk.
  intros k Hin. unfold create_fields. rewrite Hb, Hnode. unfold observed, report. cbn [Ev_Observed negb Budget_IsZero].
  rewrite !elem_of_cons in Hin.
  destruct Hin as [->|[->|[->|[->|[->|[->|[->|[->|[->|[->|Hin]]]]]]]]]]; [reflexivity..|by apply not_elem_of_nil in Hin].
Qed.

Lemma started_agrees observed' :
  Action_Kind a = ActionStartAllocation → agrees w a (attribute d now (report EvidenceAllocationRunning (Action_Target a) observed') a).
Proof.
  intros Hk. apply agrees_like; [eapply predict_allocation; [|done..]; rewrite Hk; set_solver|]. intros e0 w0 He H0.
  unfold Execute, execute_allocation in He. rewrite Hk in He. destruct (Allocations w !! Action_Target a) eqn:Hn; [|done]. injection He as <-.
  exists w0. split; [|done]. by rewrite <-H0.
Qed.

Lemma stopped_agrees observed' :
  Action_Kind a = ActionStopAllocation → agrees w a (attribute d now (report EvidenceAllocationStopped (Action_Target a) observed') a).
Proof.
  intros Hk. apply agrees_like; [eapply predict_allocation; [|done..]; rewrite Hk; set_solver|]. intros e0 w0 He H0.
  unfold Execute, execute_allocation in He. rewrite Hk in He. destruct (Allocations w !! Action_Target a) as [x|] eqn:Hn; [|done]. injection He as <-.
  unfold projectInto, attribute in *. cbn [Ev_Kind report Ev_Target Ev_ObservedAt] in *. unfold projectAllocationStopped in *.
  cbn [Ev_Target Ev_Kind Ev_ObservedAt report] in *. rewrite Hn in *. injection H0 as <-. eexists. split; [reflexivity|].
  apply view_eq; unfold put_alloc; simpl_set; by autorewrite with disruption.
Qed.

Lemma deleted_agrees observed' :
  Action_Kind a = ActionDeleteAllocation → agrees w a (attribute d now (report EvidenceAllocationDeleted (Action_Target a) observed') a).
Proof.
  intros Hk. apply agrees_like; [by eapply predict_delete|]. intros e0 w0 He H0.
  unfold Execute, execute_allocation in He. rewrite Hk in He. destruct (Allocations w !! Action_Target a) as [x|] eqn:Hn; [|done]. injection He as <-.
  unfold projectInto, attribute in *. cbn [Ev_Kind report Ev_Target Ev_ObservedAt] in *. unfold projectAllocationDeleted in *.
  cbn [Ev_Target Ev_Kind Ev_ObservedAt report] in *. rewrite Hn in *. injection H0 as <-. eexists. split; [reflexivity|].
  apply view_eq; simpl_set; by autorewrite with disruption.
Qed.

(** The reports of the network and of the secrets. *)
Lemma attached_agrees e :
  Action_Kind a = ActionAttachNetwork → Ev_Kind e = EvidenceNetworkAttached → Ev_Target e = Action_Target a → observed e "address" ≠ "" →
  agrees w a (attribute d now e a).
Proof.
  intros Hk He Ht Ha. apply agrees_like; [eapply predict_allocation; [|done..]; rewrite Hk; set_solver|]. intros e0 w0 H1 H0.
  unfold Execute, execute_allocation in H1. rewrite Hk in H1. destruct (Allocations w !! Action_Target a) as [x|] eqn:Hn; [|done]. injection H1 as <-.
  assert (observed (attribute d now e a) "address" = observed e "address") as Eo.
  { unfold attribute, observed. rewrite Hk. cbn [Ev_Observed]. by rewrite lookup_insert_ne. }
  exists (put_alloc w (Action_Target a) (x <| Alloc_Address := observed e "address" |>)). split.
  - unfold projectInto. replace (Ev_Kind (attribute d now e a)) with EvidenceNetworkAttached by by unfold attribute.
    unfold projectNetworkAttached. rewrite Eo. replace (Ev_Target (attribute d now e a)) with (Action_Target a) by by unfold attribute.
    rewrite Hn, bool_decide_false by done. done.
  - unfold projectInto in H0. cbn [Ev_Kind report] in H0. unfold projectNetworkAttached in H0. cbn [Ev_Target report] in H0. rewrite Hn in H0.
    match type of H0 with context [bool_decide (?addr = "")] => destruct (bool_decide (addr = "")) eqn:Hb; [discriminate H0|] end.
    injection H0 as <-. unfold Executor.view, put_alloc. simpl_set. f_equal. rewrite !fmap_insert. f_equal.
    unfold erase. cbn. apply bool_decide_eq_false in Hb. by rewrite !bool_decide_false by done.
Qed.

Lemma mounted_agrees e ref :
  Action_Kind a = ActionMountSecret → Action_Secret a = Some ref → Ev_Kind e = EvidenceSecretMounted → Ev_Target e = Action_Target a →
  observed e "secret" = Secret_Name ref → observed e "version" = Secret_Version ref → agrees w a (attribute d now e a).
Proof.
  intros Hk Hs He Ht H1 H2. apply agrees_like; [eapply predict_allocation; [|done..]; rewrite Hk; set_solver|]. intros e0 w0 H3 H0.
  unfold Execute, execute_allocation in H3. rewrite Hk, Hs in H3. destruct (Allocations w !! Action_Target a) as [x|] eqn:Hn; [|done]. injection H3 as <-.
  exists w0. split; [|done]. rewrite <-H0. unfold projectInto. rewrite (eq_refl : Ev_Kind (report EvidenceSecretMounted _ _) = EvidenceSecretMounted).
  replace (Ev_Kind (attribute d now e a)) with EvidenceSecretMounted by by unfold attribute.
  unfold projectSecretMounted. replace (Ev_Target (attribute d now e a)) with (Action_Target a) by by unfold attribute.
  replace (observed (attribute d now e a) "secret") with (Secret_Name ref)
    by (rewrite <-H1; unfold attribute, observed; rewrite Hk; cbn [Ev_Observed]; by rewrite lookup_insert_ne).
  replace (observed (attribute d now e a) "version") with (Secret_Version ref)
    by (rewrite <-H2; unfold attribute, observed; rewrite Hk; cbn [Ev_Observed]; by rewrite lookup_insert_ne).
  reflexivity.
Qed.
End Reports.
End Agreement.

(** ** Theorems about a whole node *)

Section Node.
Context {clock : WallClock} {B N W : Type} {digest : Digest} {vcodec : VolumeCodec} {tcodec : TaskCodec} {ip : AddressParser} {text : JsonText}.
Context (containers : ContainerBackend B) (network : NetworkBackend N) (broker : option SecretBroker) (client : HttpClient W).
Context (sandbox : SandboxProfile) (caddy : option CaddyConfig) (nft : HostState B N W → string → HostState B N W * result unit).
Context (modified : path → Z) (nodeID : string).
Abbreviation execute := (Node_Execute containers network broker client sandbox caddy nft modified nodeID).

(** Every mount is kept under its own name. *)
Definition named (s : Secrets) : Prop := ∀ k name m, mounts_of s k !! name = Some m → SM_Name m = name.

Lemma Secrets_Execute_report b s a h s' h' ev :
  named s → Secrets_Execute b s a h = (s', (h', Ok ev)) →
  ∃ ref, Action_Secret a = Some ref ∧ Ev_Kind ev = EvidenceSecretMounted ∧ Ev_Target ev = Action_Target a ∧
    observed ev "secret" = Secret_Name ref ∧ observed ev "version" = Secret_Version ref.
Proof.
  intros Hn H. unfold Secrets_Execute in H. destruct b as [b|]; [|done]. case_bool_decide; [done|].
  destruct (Action_Secret a) as [ref|]; [|done]. case_bool_decide; [done|]. exists ref. split; [done|].
  destruct (held_version s (Action_Target a) ref) as [m|] eqn:Hh.
  - injection H as <- <- <-. unfold held_version in Hh. destruct (mounts_of s (Action_Target a) !! Secret_Name ref) as [m'|] eqn:Hm; [|done].
    cbn in Hh. case_bool_decide as Hver; [|done]. injection Hh as ->. by rewrite <-(Hn _ _ _ Hm), <-Hver.
  - destruct (place b s a ref h) as [h1 [m|e]] eqn:Hp; [|done]. injection H as <- <- <-.
    unfold place in Hp. apply io_bind_ok in Hp as (h2 & material & _ & Hp). destruct (bool_decide (material = "")); [done|].
    apply io_bind_ok in Hp as (h3 & p & _ & Hp). by injection Hp as <- <-.
Qed.

(** C6: the node does what the kernel supposed.  For a predictable action its validator accepts,
    of the seven kinds that make and unmake an allocation (pulling an image, creating an
    allocation, attaching its network, mounting a secret, starting, stopping and deleting it),
    that carries no agent's budget (see [agent_budget_unreported]), whatever the backends did:
    when the node it is addressed to reports success, the evidence the dispatcher attributes
    to it projects, and the world it leads to is the one the kernel simulated, up to
    readiness, the text of an address and the content of tool grants. *)
Theorem node_matches_simulation {R L} (d : @Dispatcher R L) now g w a luck desired c c' ev
    (Hkind : Action_Kind a ∈ [ActionPullImage; ActionCreateAllocation; ActionAttachNetwork; ActionMountSecret;
                              ActionStartAllocation; ActionStopAllocation; ActionDeleteAllocation])
    (Hv : validateAction g w a = Ok tt) (Hp : predictable w a) (Hnode : Disp_NodeID d = Action_Node a)
    (Hbudget : Action_Budget a = Budget_zero) (Hnamed : named (hs_secrets (Comp_host c)))
    (Hrun : execute luck desired c a = (c', Ok ev)) :
  agrees w a (attribute d now ev a).
Proof.
  unfold Node_Execute, Composite_Execute, on_host, node_host in Hrun. cbn [host_containers host_networks host_secrets fmap option_fmap option_map fst] in Hrun.
  rewrite !elem_of_cons in Hkind. destruct Hkind as [Hk|[Hk|[Hk|[Hk|[Hk|[Hk|[Hk|Hin]]]]]]]; [..|by apply not_elem_of_nil in Hin]; rewrite Hk in Hrun.
  - unfold Container_Execute in Hrun. rewrite Hk in Hrun. destruct (imageDigest _) as [want|]; [|done].
    destruct (ctr_Pull _ _ _) as [b [got|]]; [|done]. case_bool_decide; [done|]. injection Hrun as <- <-. by eapply pulled_agrees.
  - unfold Container_Execute in Hrun. rewrite Hk in Hrun. destruct (_ || _); [done|]. destruct (_ || _); [done|].
    destruct (ctr_Create _ _ _) as [b [created|]]; [|done]. destruct (create_steps _ _ _) as [c1 [[]|]]; [|done]. injection Hrun as <- <-.
    by eapply created_agrees.
  - unfold Network_Execute in Hrun. rewrite Hk in Hrun. destruct (_ || _); [done|]. destruct (net_Attach _ _ _) as [n [att|]]; [|done].
    case_bool_decide as Ha; [done|]. destruct (negb _); [done|]. injection Hrun as <- <-. by eapply attached_agrees.
  - destruct broker as [b|]; [|done]. cbn [fmap option_fmap option_map fst] in Hrun.
    destruct (Secrets_Execute (Some b) (hs_secrets (Comp_host c)) a (hs_machine (Comp_host c))) as [s [m [ev0|]]] eqn:Hs; [|done]. injection Hrun as <- <-.
    destruct (Secrets_Execute_report _ _ _ _ _ _ _ Hnamed Hs) as (ref & ? & ? & ? & ? & ?). by eapply mounted_agrees.
  - unfold Container_Execute in Hrun. rewrite Hk in Hrun. case_bool_decide; [done|]. destruct (ctr_Start _ _ _ _) as [b [task|]]; [|done].
    injection Hrun as <- <-. by eapply started_agrees.
  - unfold Container_Execute in Hrun. rewrite Hk in Hrun. case_bool_decide; [done|]. destruct (ctr_Stop _ _ _ _) as [b [stopped|]]; [|done].
    injection Hrun as <- <-. by eapply stopped_agrees.
  - unfold Container_Execute in Hrun. rewrite Hk in Hrun. case_bool_decide; [done|]. destruct (ctr_Delete _ _ _) as [b [deleted|]]; [|done].
    destruct (delete_steps _ _ _ _) as [c1 [[]|]]; [|done]. injection Hrun as <- <-. by eapply deleted_agrees.
Qed.

(** Nothing of a deleted allocation stays on the host.  When the node reports an allocation
    deleted, it has no network attachment any more, the node remembers no mount of it and no
    file of its secrets is left, while the secrets of every other allocation are untouched. *)
Theorem deletion_clears_host {contract : NetworkContract network} luck desired c a c' ev
    (Hk : Action_Kind a = ActionDeleteAllocation) (Hname : namePattern (Action_Target a) = true) (Hbroker : is_Some broker)
    (Hrun : execute luck desired c a = (c', Ok ev)) :
  let h := Comp_host c in let h' := Comp_host c' in let root := sec_root (hs_secrets h) in
  ¬ is_Ok (net_Check network (hs_network h') (Action_Target a)) ∧ mounts_of (hs_secrets h') (Action_Target a) = ∅ ∧
  tree (fs (hs_machine h')) (root ++ [Action_Target a]) = ∅ ∧
  ∀ k, k ≠ Action_Target a → mounts_of (hs_secrets h') k = mounts_of (hs_secrets h) k ∧
    tree (fs (hs_machine h')) (root ++ [k]) = tree (fs (hs_machine h)) (root ++ [k]).
Proof.
  cbv zeta. destruct Hbroker as [b Eb]. revert Hrun. unfold Node_Execute, Composite_Execute, on_host, node_host. rewrite Hk, Eb.
  cbn [host_containers]. destruct (Container_Execute _ _ _ a) as [bk [ev0|]]; [|done]. cbv beta iota zeta.
  unfold delete_steps, host_release. cbn [host_networks host_secrets fmap option_fmap option_map snd].
  unfold Network_Detach. simpl_set. set (x := Action_Target a) in *.
  destruct (net_Detach network (hs_network (Comp_host c)) x) as [n [released|]] eqn:Hd; [|done]. cbn [rbind].
  pose proof (detach_releases _ _ _ _ Hd) as Hgone. simpl_set.
  unfold Secrets_Release, secret_dir, wrapping. rewrite Join_label by done.
  set (root := sec_root (hs_secrets (Comp_host c))) in *.
  destruct (RemoveAll (root ++ [x]) (hs_machine (Comp_host c))) as [m [[]|]] eqn:Hrm; [|done]. cbn [wrap_err]. simpl_set.
  destruct (return_work _ _ _ _) as [work [[]|]]; [|done].
  match goal with |- context [if ?b then API_Revoke ?f ?n ?k else ?e] => destruct (if b then API_Revoke f n k else e) as [api [[]|]] end; [|done].
  intros Hrun.
  assert (Comp_host c' = mkHostState bk n ((hs_secrets (Comp_host c)) <| sec_mounts ::= delete x |>)
      (hs_volumes (Comp_host c)) m (hs_client (Comp_host c))) as E.
  { injection Hrun as <- _. match goal with |- Comp_host (if ?b then _ else _) = _ => by destruct b end. }
  rewrite E. cbn [hs_network hs_secrets hs_machine]. split; [done|]. split; [unfold mounts_of; simpl_set; by rewrite lookup_delete_eq|].
  split; [apply RemoveAll_ok in Hrm as ->; apply tree_cleared|]. intros k Hne. split; [unfold mounts_of; simpl_set; by rewrite lookup_delete_ne|].
  exact (respects_run _ _ _ _ _ (RemoveAll_same_tree (root ++ [k]) (root ++ [x]) ltac:(apply apart_below, apart_names; congruence)) Hrm).
Qed.
End Node.

(** ** A sample node

    Its containers are the specifications they were created with, its network the one in
    memory, its secrets three short values. *)

Module NodeSample.
#[local] Instance sample_clock : WallClock := 100.
#[local] Instance sample_digest : Digest := λ s, s.
#[local] Instance sample_text : JsonText := λ _, "document".
#[local] Existing Instances NetworkSample.sample_addresses QueueSample.sample_codec CustodySample.sample_volumes.
#[local] Existing Instances NetworkSample.sample_subnets NetworkSample.sample_subnets_laws.

Definition recorder : ContainerBackend (gmap string ContainerSpec) :=
  mkContainerBackend (λ b _, (b, Ok ContainerSample.pin)) (λ b spec, (<[Spec_ID spec := spec]> b, Ok true)) (λ b _ _, (b, Ok (mkBackendTask 7 false)))
    (λ b _ _, (b, Ok (mkBackendStop 0 false false))) (λ b k, (delete k b, Ok true)) (λ _ _, Err (Errorf "no such container")) None.
Definition accepts : HttpClient nat := λ w _ _, (S w, Ok 200).
Definition State : Type := HostState (gmap string ContainerSpec) MemoryNetwork nat.
Definition sample_luck : Luck := mkLuck (Some "s3cret") (λ _, true) true.
Definition no_desired : DesiredState := mkDesiredState ∅ [].
Definition idle : CompositeRuntime State :=
  mkComposite (mkHostState ∅ NetworkSample.memory SecretSample.empty_secrets (mkVolumes ["vol"] ["snap"] ["state"] None ∅)
      (mkMachine SecretSample.disk []) 0%nat)
    None None None false false [] (mkNodeState ∅ NewAgents (mkRuntimeAPI "" ∅ ∅ ∅)).
Definition step (c : CompositeRuntime State) (a : Action) : CompositeRuntime State * result Evidence :=
  Node_Execute recorder MemoryBackend (Some (SecretSample.plain "hush")) accepts DefaultSandboxProfile None (λ h _, (h, Ok tt))
    (λ _, 0) "n1" sample_luck no_desired c a.

(** A goal with a port and a secret, and what the planner asks for it. *)
Definition image : string := ContainerSample.pinned.
Definition token : SecretRef := mkSecretRef "token" "v1" "/etc/api/key".
Definition goal : Goal :=
  mkGoal "a4s.io/v1alpha1" "g1" "serve the site"
    (mkWorkloadSpec "web" image 1 80 (mkResources 100 64) false false [token] [] "" None None None None None) None (mkConstraints ∅ []) None.
Definition world : World :=
  mkWorld 1 100 {["n1" := mkNode "n1" ∅ (mkResources 1000 1000) Resources_zero {[image := true]} true "" false "" "" 0 "" "" ∅ Budget_zero Budget_zero]}
    ∅ ∅ ∅ ∅ ∅ ∅ [] ∅.
Definition act (kind : ActionKind) : Action :=
  mkAction "act" kind "web-0" "web" "n1" image 0 (mkResources 100 64) 80 "" None "" "" 0 false None None [] (Some token) [] Budget_zero "" None [].
Definition plan : list Action := act <$> [ActionCreateAllocation; ActionAttachNetwork; ActionMountSecret; ActionStartAllocation].
Definition created : CompositeRuntime State * result Evidence := step idle (act ActionCreateAllocation).
Definition created_evidence : Evidence :=
  report EvidenceAllocationCreated "web-0" (<["created" := "true"]> {["image" := image]}).
Definition dispatcher : @Dispatcher nat nat := mkDispatcher "n1" ∅ "" 0%nat 0%nat None ∅.

Lemma node_matches_simulation_witness : agrees world (act ActionCreateAllocation) (attribute dispatcher 100 created_evidence (act ActionCreateAllocation)).
Proof.
  apply (node_matches_simulation recorder MemoryBackend (Some (SecretSample.plain "hush")) accepts DefaultSandboxProfile None (λ h _, (h, Ok tt))
    (λ _, 0) "n1" dispatcher 100 goal world (act ActionCreateAllocation) sample_luck no_desired idle created.1 created_evidence).
  - apply (bool_decide_unpack _). vm_compute. exact I.
  - vm_compute. reflexivity.
  - unfold predictable. cbn [Action_Kind act]. split; [done|]. split; [vm_compute; split; discriminate|].
    split; [vm_compute; split; discriminate|]. split; [vm_compute; split; discriminate|]. split; [vm_compute; repeat split; discriminate|].
    intros n [= <-]. reflexivity.
  - reflexivity.
  - reflexivity.
  - by intros k name m.
  - vm_compute. reflexivity.
Defined.

(** The whole plan, each action validated in the world the ones before it lead to. *)
Fixpoint perform (w : World) (c : CompositeRuntime State) (l : list Action) : option (CompositeRuntime State) :=
  match l with
  | [] => Some c
  | a :: rest =>
      match validateAction goal w a, simulateAction w a, step c a with
      | Ok _, Ok w', (c', Ok _) => perform w' c' rest
      | _, _, _ => None
      end
  end.
Definition serving : CompositeRuntime State := Eval vm_compute in default idle (perform world idle plan).

Definition deleted : CompositeRuntime State * result Evidence := Eval vm_compute in step serving (act ActionDeleteAllocation).
Lemma deletion_clears_host_witness :
  mounts_of (hs_secrets (Comp_host serving)) "web-0" ≠ ∅ ∧ mounts_of (hs_secrets (Comp_host deleted.1)) "web-0" = ∅ ∧
  tree (fs (hs_machine (Comp_host deleted.1))) ["run"; "secrets"; "web-0"] = ∅.
Proof.
  split; [vm_compute; discriminate|]. destruct deleted as [c' [ev|]] eqn:Hrun; [|vm_compute in Hrun; discriminate Hrun].
  destruct (deletion_clears_host recorder MemoryBackend (Some (SecretSample.plain "hush")) accepts DefaultSandboxProfile None (λ h _, (h, Ok tt))
    (λ _, 0) "n1" sample_luck no_desired serving (act ActionDeleteAllocation) c' ev) as (_ & H1 & H2 & _).
  - reflexivity.
  - vm_compute. reflexivity.
  - eexists. reflexivity.
  - etransitivity; [|exact Hrun]. vm_compute. reflexivity.
  - exact (conj H1 H2).
Defined.

(** A container is specified when it is created, before the kernel lets its network be
    attached or its secrets mounted: after the whole plan it still runs outside the namespace
    the node made for it, and without the secret the node decrypted. *)
Lemma containers_created_bare :
  perform world idle plan = Some serving ∧
  (Spec_Namespace <$> hs_containers (Comp_host serving) !! "web-0") = Some "" ∧
  (Spec_SecretMounts <$> hs_containers (Comp_host serving) !! "web-0") = Some [] ∧
  is_Ok (Network_Attachment (Some MemoryBackend) (hs_network (Comp_host serving)) "web-0") ∧
  mounts_of (hs_secrets (Comp_host serving)) "web-0" ≠ ∅.
Proof. vm_compute. repeat split; try reflexivity; discriminate. Qed.

(** The budget of an agent is not among the fields a dispatcher adds: the control plane
    projects an allocation without one, and its node's committed budget does not grow. *)
Definition agent_act : Action := (act ActionCreateAllocation) <| Action_Budget := mkBudget 1000 50 60 10 |>.
Lemma agent_budget_unreported :
  (let* w := projectInto world (attribute dispatcher 100 created_evidence agent_act) in
   Ok (Alloc_Budget <$> Allocations w !! "web-0", Node_BudgetUsed <$> Nodes w !! "n1")) = Ok (Some Budget_zero, Some Budget_zero) ∧
  (let* w := simulateAction world agent_act in
   Ok (Alloc_Budget <$> Allocations w !! "web-0", Node_BudgetUsed <$> Nodes w !! "n1"))
  = Ok (Some (mkBudget 1000 50 60 10), Some (mkBudget 1000 50 60 10)).
Proof. split; vm_compute; reflexivity. Qed.
End NodeSample.
