(* ===== verification/Channel.v ===== *)
(** * The encrypted channel of a node (src/node/channel.go)

    After enrolment every byte between a node and the server travels in records: a length,
    then a ciphertext whose nonce is the number of the record.  ChaCha20-Poly1305, X25519
    and HKDF are parameters, random bytes are arguments.  A connection holds the bytes that
    are still to arrive before the peer closes it and the bytes written so far; a write may
    fail part of the way. *)

From S2P Require Import Prelude Types Text EventLog Directory Placement ModelBoundary Dispatch Secrets.
Open Scope Z_scope.

Definition maxRecordSize : Z := Z.shiftl 4 20.
Definition KeySize : nat := 32.
Definition NonceSize : nat := 12.
Definition Overhead : Z := 16.
Definition channelKeyLength : nat := KeySize.

(** [hkdf.Key(sha256.New, secret, salt, info, channelKeyLength)]. *)
Class KeyDerivation := hkdf_Key : string → string → string → string.

Definition slen (s : string) : Z := Z.of_nat (String.length s).

(** [binary.BigEndian]: the last [n] bytes of a number, and back. *)
Fixpoint be_bytes (n : nat) (z : Z) : string :=
  match n with
  | O => ""
  | S n => String (of_byte (Z.land (Z.shiftr z (8 * Z.of_nat n)) 255)) (be_bytes n z)
  end.
Fixpoint be_from (acc : Z) (s : string) : Z :=
  match s with "" => acc | String c s => be_from (Z.lor (Z.shiftl acc 8) (byte c)) s end.
Definition Uint32 (s : string) : Z := be_from 0 s.

Definition zeros (n : nat) : string := Nat.iter n (String zero_byte) "".
Definition nonceFor (sequence : Z) : string := zeros (NonceSize - 8) +:+ be_bytes 8 sequence.

(** ** Connections *)

Record Conn := mkConn { conn_in : string; conn_out : string; conn_faults : list (option nat) }.
#[export] Instance eta_Conn : Eta Conn := λ r, mkConn (conn_in r) (conn_out r) (conn_faults r).

(** A write that fails has written some of its bytes. *)
Definition conn_Write (bytes : string) (c : Conn) : Conn * result unit :=
  match conn_faults c with
  | Some n :: faults => (mkConn (conn_in c) (conn_out c +:+ take_string n bytes) faults, Err (Errorf "write: broken pipe"))
  | faults => (mkConn (conn_in c) (conn_out c +:+ bytes) (tail faults), Ok tt)
  end.

Record secureConn := mkSecureConn {
  sc_conn : Conn; sc_carried : string; sendAEAD : string; recvAEAD : string; sendSeq : Z; recvSeq : Z; pending : string }.
#[export] Instance eta_secureConn : Eta secureConn := λ r,
  mkSecureConn (sc_conn r) (sc_carried r) (sendAEAD r) (recvAEAD r) (sendSeq r) (recvSeq r) (pending r).

(** What there is still to read: the bytes carried over, then the connection. *)
Definition sc_source (c : secureConn) : string := sc_carried c +:+ conn_in (sc_conn c).

(** [io.ReadFull] from the source; what is there is consumed even when it is too little. *)
Definition ReadFull (n : nat) (c : secureConn) : secureConn * result string :=
  let source := sc_source c in
  let carried := drop_string n (sc_carried c) in
  let rest := drop_string (n - String.length (sc_carried c)) (conn_in (sc_conn c)) in
  let c := c <| sc_carried := carried |> <| sc_conn ::= λ k, k <| conn_in := rest |> |> in
  if (String.length source <? n)%nat then (c, Err (Errorf "EOF")) else (c, Ok (take_string n source)).

Section Channel.
Context {cipher : SecretCipher} {kdf : KeyDerivation} {raw : RawBase64}.

Definition deriveChannelKeys (shared transcript : string) : string * string :=
  (hkdf_Key shared transcript "a4s node channel v1 client-to-server", hkdf_Key shared transcript "a4s node channel v1 server-to-client").

Definition newSecureConn (conn : Conn) (sendKey receiveKey : string) (carried : list string) : result secureConn :=
  refuse (negb (String.length sendKey =? KeySize)%nat) "build send cipher: %w";
  refuse (negb (String.length receiveKey =? KeySize)%nat) "build receive cipher: %w";
  Ok (mkSecureConn conn (foldr String.append "" carried) sendKey receiveKey 0 0 "").

(** The length of what one record may hold. *)
Definition chunk_limit : nat := Z.to_nat (maxRecordSize - Overhead).
Definition frame (sealed : string) : string := be_bytes 4 (slen sealed) +:+ sealed.

(** The loop of [Write]; every round takes at least a byte, so the length is fuel enough. *)
Fixpoint write_loop (fuel : nat) (c : secureConn) (plaintext : string) (written : Z) : secureConn * (Z * result unit) :=
  match fuel, plaintext with
  | S fuel, String _ _ =>
      let chunk := if maxRecordSize - Overhead <? slen plaintext then take_string chunk_limit plaintext else plaintext in
      let sealed := aead_Seal (sendAEAD c) (nonceFor (sendSeq c)) chunk "" in
      let c := c <| sendSeq ::= λ n, u64 (n + 1) |> in
      match conn_Write (frame sealed) (sc_conn c) with
      | (k, Err e) => (c <| sc_conn := k |>, (written, Err e))
      | (k, Ok _) => write_loop fuel (c <| sc_conn := k |>) (drop_string (String.length chunk) plaintext) (written + slen chunk)
      end
  | _, _ => (c, (written, Ok tt))
  end.

Definition secure_Write (c : secureConn) (plaintext : string) : secureConn * (Z * result unit) :=
  if slen plaintext =? 0 then (c, (0, Ok tt)) else write_loop (String.length plaintext) c plaintext 0.

Definition readRecord (c : secureConn) : secureConn * result string :=
  match ReadFull 4 c with
  | (c, Err e) => (c, Err e)
  | (c, Ok header) =>
      let length := Uint32 header in
      if length =? 0 then (c, Err (Errorf "channel received an empty record"))
      else if maxRecordSize <? length then (c, Err (Errorf "channel record of %d bytes exceeds the %d byte limit"))
      else
        match ReadFull (Z.to_nat length) c with
        | (c, Err e) => (c, Err e)
        | (c, Ok sealed) =>
            match aead_Open (recvAEAD c) (nonceFor (recvSeq c)) sealed "" with
            | None => (c, Err (Errorf "channel record failed authentication: the stream was tampered with"))
            | Some plaintext => (c <| recvSeq ::= λ n, u64 (n + 1) |>, Ok plaintext)
            end
        end
  end.

(** [Read] into a buffer of [n] bytes. *)
Definition secure_Read (n : nat) (c : secureConn) : secureConn * result string :=
  let copy (c : secureConn) := (c <| pending ::= drop_string n |>, Ok (take_string n (pending c))) in
  if bool_decide (pending c = "") then
    match readRecord c with
    | (c, Err e) => (c, Err e)
    | (c, Ok plaintext) => copy (c <| pending := plaintext |>)
    end
  else copy c.

(** [random] is what the random source yields, when it does. *)
Definition generateEphemeral (random : option string) : result (string * string) :=
  need private := random else "generate ephemeral key: %w";
  need public := X25519 private Basepoint else "generate ephemeral key: %w";
  Ok (private, public).

(** An absent share is none, not an error. *)
Definition decodeEphemeral (encoded : string) : result (option string) :=
  if bool_decide (encoded = "") then Ok None
  else
    need bytes := raw_Decode encoded else "ephemeral key is not valid base64";
    refuse (negb (String.length bytes =? 32)%nat) "ephemeral key is not a valid X25519 point";
    Ok (Some bytes).

Definition sharedSecret (privateBytes peerPublic : string) : result string :=
  refuse (negb (String.length privateBytes =? 32)%nat) "invalid ephemeral private key: %w";
  refuse (negb (String.length peerPublic =? 32)%nat) "peer ephemeral key is invalid: %w";
  need shared := X25519 privateBytes peerPublic else "key agreement failed: %w";
  Ok shared.
End Channel.

(** ** Byte strings *)

Lemma byte_of_byte z : 0 <= z < 256 → byte (of_byte z) = z.
Proof. intros H. unfold byte, of_byte. rewrite Ascii.N_ascii_embedding by lia. lia. Qed.

Lemma length_be_bytes n z : String.length (be_bytes n z) = n.
Proof. induction n as [|n IH]; [done|]. exact (f_equal S IH). Qed.

Lemma be_from_bytes n acc z : be_from acc (be_bytes n z) = acc * 256 ^ Z.of_nat n + z mod 256 ^ Z.of_nat n.
Proof.
  revert acc. induction n as [|n IH]; intros acc; [cbn; rewrite Z.mod_1_r; lia|].
  cbn [be_bytes be_from]. rewrite IH. change 255 with (Z.ones 8).
  rewrite Z.land_ones, Z.shiftr_div_pow2, Z.shiftl_mul_pow2 by lia.
  rewrite byte_of_byte by (pose proof (Z.mod_pos_bound (z / 2 ^ (8 * Z.of_nat n)) (2 ^ 8)); lia).
  rewrite Z.lor_comm, <-Z.add_nocarry_lor.
  - rewrite Z.pow_mul_r by lia. change (2 ^ 8) with 256. rewrite Nat2Z.inj_succ, Z.pow_succ_r by lia.
    rewrite (Z.mul_comm 256 (256 ^ _)), Z.rem_mul_r by (try apply Z.pow_nonzero; lia). nia.
  - rewrite <-Z.shiftl_mul_pow2 by lia. apply Z.bits_inj'. intros i Hi. rewrite Z.land_spec, Z.bits_0.
    rewrite Z.shiftl_spec by lia. destruct (decide (i < 8)) as [Hlt|Hge].
    + by rewrite (Z.testbit_neg_r acc), andb_false_r by lia.
    + by rewrite Z.mod_pow2_bits_high by lia.
Qed.

Lemma Uint32_bytes z : 0 <= z < 2 ^ 32 → Uint32 (be_bytes 4 z) = z.
Proof. intros H. unfold Uint32. rewrite be_from_bytes. cbn -[Z.modulo]. by rewrite Z.mod_small. Qed.

Lemma string_take_drop n s : take_string n s +:+ drop_string n s = s.
Proof. revert s. induction n as [|n IH]; intros [|c s]; [done..|]. exact (f_equal (String c) (IH s)). Qed.
Lemma length_take_string n s : String.length (take_string n s) = (n `min` String.length s)%nat.
Proof. revert s. induction n as [|n IH]; intros [|c s]; [done..|]. exact (f_equal S (IH s)). Qed.
Lemma length_drop_string n s : String.length (drop_string n s) = (String.length s - n)%nat.
Proof. revert s. induction n as [|n IH]; intros [|c s]; [done..|]. exact (IH s). Qed.
Lemma drop_append_all s t : drop_string (String.length s) (s +:+ t) = t.
Proof. rewrite <-(Nat.add_0_r (String.length s)), drop_append. by destruct t. Qed.
Lemma drop_append_split n s t : drop_string n (s +:+ t) = drop_string n s +:+ drop_string (n - String.length s) t.
Proof.
  revert s. induction n as [|n IH]; intros [|c s]; [by destruct t|done|done|]. exact (IH s).
Qed.
Lemma empty_string_length s : String.length s = 0%nat → s = "".
Proof. by destruct s. Qed.

Lemma foldr_append (l1 l2 : list string) : foldr String.append "" (l1 ++ l2) = foldr String.append "" l1 +:+ foldr String.append "" l2.
Proof. induction l1 as [|s l1 IH]; [done|]. cbn. by rewrite IH, append_assoc. Qed.

(** Reading what the source starts with. *)
Lemma ReadFull_source n c : sc_source (ReadFull n c).1 = drop_string n (sc_source c).
Proof. unfold ReadFull. destruct (_ <? _)%nat; unfold sc_source; simpl_set; by rewrite drop_append_split. Qed.

Lemma ReadFull_same n c : let c' := (ReadFull n c).1 in
  sendAEAD c' = sendAEAD c ∧ recvAEAD c' = recvAEAD c ∧ sendSeq c' = sendSeq c ∧ recvSeq c' = recvSeq c ∧ pending c' = pending c.
Proof. unfold ReadFull. by destruct (_ <? _)%nat. Qed.

Lemma ReadFull_prefix n c s rest :
  sc_source c = s +:+ rest → String.length s = n →
  ∃ c', ReadFull n c = (c', Ok s) ∧ sc_source c' = rest ∧ recvAEAD c' = recvAEAD c ∧ recvSeq c' = recvSeq c ∧ pending c' = pending c.
Proof.
  intros Hs Hn. pose proof (ReadFull_source n c) as Hsource. rewrite Hs, <-Hn, drop_append_all in Hsource. rewrite Hn in Hsource.
  pose proof (ReadFull_same n c) as (_ & ? & _ & ? & ?).
  destruct (ReadFull n c) as [c' r] eqn:E. exists c'. split; [|done]. unfold ReadFull in E. rewrite Hs, <-Hn in E.
  rewrite length_append, (proj2 (Nat.ltb_ge _ _)) in E by lia. by rewrite take_append in E; injection E as <- <-.
Qed.

(** ** Writing and reading *)

Class AeadLaws (cipher : SecretCipher) : Prop := {
  aead_round : ∀ key nonce value data, aead_Open key nonce (aead_Seal key nonce value data) data = Some value;
  aead_size : ∀ key nonce value data, slen (aead_Seal key nonce value data) = slen value + Overhead }.

Section Transport.
Context {cipher : SecretCipher} {laws : AeadLaws cipher}.
Implicit Types (c : secureConn) (chunks : list string).

(** The bytes of a list of records, the first with the given number. *)
Fixpoint frames (key : string) (seq : Z) (chunks : list string) : string :=
  match chunks with
  | [] => ""
  | chunk :: chunks => frame (aead_Seal key (nonceFor (u64 seq)) chunk "") +:+ frames key (seq + 1) chunks
  end.
Definition fits (chunk : string) : Prop := 0 < slen chunk <= maxRecordSize - Overhead.

(** A sequence of writes, all of which succeed. *)
Fixpoint sends (c : secureConn) (writes : list string) : option secureConn :=
  match writes with
  | [] => Some c
  | p :: writes => match secure_Write c p with (c, (_, Ok _)) => sends c writes | _ => None end
  end.

(** A sequence of reads with buffers of the given sizes; an error does not stop it. *)
Fixpoint reads (c : secureConn) (sizes : list nat) : secureConn * string :=
  match sizes with
  | [] => (c, "")
  | n :: sizes =>
      let '(c, r) := secure_Read n c in
      let '(c, rest) := reads c sizes in
      (c, match r with Ok s => s +:+ rest | Err _ => rest end)
  end.

Lemma u64_next n : u64 (u64 n + 1) = u64 (n + 1).
Proof. unfold u64. by rewrite Zplus_mod_idemp_l. Qed.

Lemma frames_app key seq l1 l2 : frames key seq (l1 ++ l2) = frames key seq l1 +:+ frames key (seq + len l1) l2.
Proof.
  revert seq. induction l1 as [|s l1 IH]; intros seq; [cbn; by rewrite Z.add_0_r|].
  cbn [frames app]. rewrite IH, append_assoc. unfold len. cbn [length]. do 3 f_equal. lia.
Qed.

Lemma chunk_limit_value : Z.of_nat chunk_limit = maxRecordSize - Overhead.
Proof. unfold chunk_limit. rewrite Z2Nat.id; [done|]. vm_compute. discriminate. Qed.

(** The chunk of one round: part of the rest, and no more than a record holds. *)
Lemma chunk_spec (p : string) (chunk := if maxRecordSize - Overhead <? slen p then take_string chunk_limit p else p) :
  p ≠ "" → fits chunk ∧ p = chunk +:+ drop_string (String.length chunk) p.
Proof.
  intros Hp. assert (0 < slen p) as Hpos by (destruct p; [done|unfold slen; cbn; lia]). pose proof chunk_limit_value as Hl.
  assert (0 < maxRecordSize - Overhead) by (vm_compute; reflexivity).
  unfold chunk, fits. destruct (Z.ltb_spec (maxRecordSize - Overhead) (slen p)) as [Hlt|Hge].
  - assert (String.length (take_string chunk_limit p) = chunk_limit) as El by (rewrite length_take_string; unfold slen in Hlt; lia).
    unfold slen at 1 2. rewrite El, Hl. split; [lia|]. by rewrite string_take_drop.
  - split; [lia|]. pose proof (drop_append_all p "") as Hd. rewrite append_nil in Hd. by rewrite Hd, append_nil.
Qed.

Lemma write_loop_ok fuel c p written seq c' n :
  sendSeq c = u64 seq → (String.length p <= fuel)%nat → write_loop fuel c p written = (c', (n, Ok tt)) →
  ∃ chunks, foldr String.append "" chunks = p ∧ Forall fits chunks ∧ sendAEAD c' = sendAEAD c ∧ sendSeq c' = u64 (seq + len chunks) ∧
    conn_out (sc_conn c') = conn_out (sc_conn c) +:+ frames (sendAEAD c) seq chunks ∧ n = written + slen p.
Proof.
  revert c p written seq. induction fuel as [|fuel IH]; intros c p written seq Hseq Hfuel H.
  { assert (p = "") as -> by (apply empty_string_length; lia). injection H as <- <-. exists []. cbn. rewrite append_nil, !Z.add_0_r. by repeat split. }
  destruct p as [|a p']; [injection H as <- <-; exists []; cbn; rewrite append_nil, !Z.add_0_r; by repeat split|].
  cbn [write_loop] in H. set (p := String a p') in *. destruct (chunk_spec p ltac:(done)) as [Hfits Hp].
  set (chunk := if _ <? _ then _ else _) in *. set (sealed := aead_Seal _ _ _ _) in *.
  unfold conn_Write in H. revert H. simpl_set. intros H.
  destruct (conn_faults (sc_conn c)) as [|[k|] faults] eqn:Hf; [|done|];
    (eapply (IH _ _ _ (seq + 1)) in H as (chunks & Hc & Hall & Hk & Hs & Ho & Hn);
     [|simpl_set; by rewrite Hseq, u64_next|rewrite length_drop_string; unfold fits, slen in Hfits; lia];
     exists (chunk :: chunks); cbn [foldr]; rewrite Hc, <-Hp; split; [done|]; split; [by constructor|]; split; [done|];
     split; [rewrite Hs; unfold len; cbn [length]; f_equal; lia|]; split;
     [revert Ho; simpl_set; intros ->; unfold sealed; cbn [conn_out frames]; by rewrite append_assoc, Hseq|
      rewrite Hn; unfold slen; rewrite length_drop_string;
      apply (f_equal String.length) in Hp; rewrite length_append, length_drop_string in Hp; lia]).
Qed.

Lemma secure_Write_ok c p seq c' n :
  sendSeq c = u64 seq → secure_Write c p = (c', (n, Ok tt)) →
  ∃ chunks, foldr String.append "" chunks = p ∧ Forall fits chunks ∧ sendAEAD c' = sendAEAD c ∧ sendSeq c' = u64 (seq + len chunks) ∧
    conn_out (sc_conn c') = conn_out (sc_conn c) +:+ frames (sendAEAD c) seq chunks ∧ n = slen p.
Proof.
  intros Hseq H. unfold secure_Write in H. destruct (Z.eqb_spec (slen p) 0) as [Hz|_].
  - assert (p = "") as -> by (apply empty_string_length; unfold slen in Hz; lia). injection H as <- <-. exists []. cbn. rewrite append_nil, !Z.add_0_r. by repeat split.
  - by eapply write_loop_ok in H.
Qed.

Lemma sends_ok c writes seq c' :
  sendSeq c = u64 seq → sends c writes = Some c' →
  ∃ chunks, foldr String.append "" chunks = foldr String.append "" writes ∧ Forall fits chunks ∧
    conn_out (sc_conn c') = conn_out (sc_conn c) +:+ frames (sendAEAD c) seq chunks.
Proof.
  revert c seq. induction writes as [|p writes IH]; intros c seq Hseq H.
  { injection H as <-. exists []. cbn. by rewrite append_nil. }
  cbn [sends] in H. destruct (secure_Write c p) as [c1 [n [[]|]]] eqn:Hw; [|done].
  apply (secure_Write_ok _ _ seq) in Hw as (chunks1 & H1 & Hall1 & Hk & Hs & Ho & _); [|done].
  apply (IH _ (seq + len chunks1)) in H as (chunks2 & H2 & Hall2 & Ho'); [|done].
  exists (chunks1 ++ chunks2). rewrite foldr_append, H1, H2. split; [done|]. split; [by apply Forall_app_2|].
  by rewrite Ho', Ho, Hk, frames_app, append_assoc.
Qed.

Lemma size_bounds : 0 < maxRecordSize - Overhead ∧ maxRecordSize < 2 ^ 32.
Proof. vm_compute. done. Qed.

Lemma readRecord_frame c chunk rest :
  sc_source c = frame (aead_Seal (recvAEAD c) (nonceFor (recvSeq c)) chunk "") +:+ rest → fits chunk →
  ∃ c', readRecord c = (c', Ok chunk) ∧ sc_source c' = rest ∧ recvAEAD c' = recvAEAD c ∧ recvSeq c' = u64 (recvSeq c + 1) ∧ pending c' = pending c.
Proof.
  intros Hs [Hpos Hle]. set (sealed := aead_Seal _ _ _ _) in *. pose proof size_bounds as [_ Hb].
  assert (slen sealed = slen chunk + Overhead) as Hlen by apply aead_size. unfold Overhead in *.
  unfold frame in Hs. rewrite append_assoc in Hs. unfold readRecord.
  destruct (ReadFull_prefix 4 c _ _ Hs (length_be_bytes 4 _)) as (c1 & -> & H1 & Hk1 & Hq1 & Hp1).
  rewrite Uint32_bytes, (proj2 (Z.eqb_neq _ _)), (proj2 (Z.ltb_ge _ _)) by lia.
  destruct (ReadFull_prefix (Z.to_nat (slen sealed)) c1 _ _ H1 ltac:(unfold slen; lia)) as (c2 & -> & H2 & Hk2 & Hq2 & Hp2).
  rewrite Hk2, Hk1, Hq2, Hq1. unfold sealed. rewrite aead_round. eexists. split; [reflexivity|]. simpl_set.
  by rewrite Hk2, Hk1, Hq2, Hq1, Hp2, Hp1.
Qed.

(** The receiver will read [data] out of what has yet to arrive. *)
Definition awaits (c : secureConn) (data : string) : Prop := ∃ seq chunks,
  recvSeq c = u64 seq ∧ Forall fits chunks ∧ sc_source c = frames (recvAEAD c) seq chunks ∧ data = pending c +:+ foldr String.append "" chunks.

Lemma fits_nonempty s : fits s → s ≠ "".
Proof. by intros [H _] ->. Qed.

Lemma take_nonempty n s : (0 < n)%nat → s ≠ "" → take_string n s ≠ "".
Proof. destruct n, s; (lia || done). Qed.

(** Handing out what is pending. *)
Lemma awaits_copy n c data (c' := c <| pending ::= drop_string n |>) :
  awaits c data → awaits c' (drop_string n (pending c) +:+ drop_string (String.length (pending c)) data) ∧
  data = take_string n (pending c) +:+ (drop_string n (pending c) +:+ drop_string (String.length (pending c)) data).
Proof.
  intros (seq & chunks & Hq & Hall & Hs & ->). rewrite drop_append_all. split.
  - exists seq, chunks. by repeat split.
  - by rewrite <-append_assoc, string_take_drop.
Qed.

Lemma read_step n c data :
  (0 < n)%nat → awaits c data →
  match secure_Read n c with
  | (c', Ok s) => s ≠ "" ∧ ∃ rest, data = s +:+ rest ∧ awaits c' rest
  | (c', Err _) => data = "" ∧ awaits c' ""
  end.
Proof.
  intros Hn Hw. unfold secure_Read. case_bool_decide as Hp.
  - destruct Hw as (seq & [|chunk chunks] & Hq & Hall & Hs & ->).
    + cbn [frames] in Hs. unfold readRecord. pose proof (ReadFull_source 4 c) as H1. pose proof (ReadFull_same 4 c) as (_ & _ & _ & H2 & H3).
      assert ((ReadFull 4 c).2 = Err (Errorf "EOF")) as E by (unfold ReadFull; by rewrite Hs).
      destruct (ReadFull 4 c) as [c1 r]. cbn [fst snd] in *. subst r. rewrite Hp. split; [done|].
      exists seq, []. rewrite H2, H3, H1, Hp, Hs. by repeat split.
    + apply Forall_cons in Hall as [Hfit Hall]. cbn [frames] in Hs. rewrite <-Hq in Hs.
      destruct (readRecord_frame c chunk _ Hs Hfit) as (c1 & -> & H1 & Hk1 & Hq1 & Hp1). cbn [foldr]. rewrite Hp.
      destruct (awaits_copy n (c1 <| pending := chunk |>) (chunk +:+ foldr String.append "" chunks)) as [Hw Hd].
      { exists (seq + 1), chunks. change (sc_source (c1 <| pending := chunk |>)) with (sc_source c1). simpl_set. rewrite Hq1, Hq, u64_next, H1, Hk1. by repeat split. }
      simpl_set. split; [by apply take_nonempty, fits_nonempty|]. by eexists.
  - destruct (awaits_copy n c data Hw) as [Hw' Hd]. split; [by apply take_nonempty|]. by eexists.
Qed.

Lemma reads_deliver c data sizes :
  awaits c data → Forall (λ n, 0 < n)%nat sizes →
  ∃ rest, data = (reads c sizes).2 +:+ rest ∧ ((String.length data <= length sizes)%nat → rest = "").
Proof.
  revert c data. induction sizes as [|n sizes IH]; intros c data Hw Hall; [exists data; split; [done|]; intros H; apply empty_string_length; cbn in H; lia|].
  apply Forall_cons in Hall as [Hn Hall]. pose proof (read_step n c data Hn Hw) as Hstep. cbn [reads].
  destruct (secure_Read n c) as [c1 [s|]].
  - destruct Hstep as (Hs & data' & -> & Hw'). destruct (IH c1 data' Hw' Hall) as (rest & E & Hrest).
    destruct (reads c1 sizes) as [c2 t]. cbn in E |- *. exists rest. split; [by rewrite append_assoc, <-E|].
    intros H. apply Hrest. rewrite length_append in H. destruct s; [done|]. cbn in H. lia.
  - destruct Hstep as [-> Hw']. destruct (IH c1 "" Hw' Hall) as (rest & E & Hrest). destruct (reads c1 sizes) as [c2 t]. cbn in E |- *.
    exists rest. split; [done|]. intros _. destruct t, rest; done.
Qed.

Lemma newSecureConn_ok conn key key' carried c :
  newSecureConn conn key key' carried = Ok c → c = mkSecureConn conn (foldr String.append "" carried) key key' 0 0 "".
Proof. unfold newSecureConn. destruct (negb _); [done|]. destruct (negb _); [done|]. by intros [= <-]. Qed.

(** Without faults every write goes through. *)
Lemma write_loop_runs fuel c p written :
  conn_faults (sc_conn c) = [] → ∃ c' n, write_loop fuel c p written = (c', (n, Ok tt)) ∧ conn_faults (sc_conn c') = [].
Proof.
  revert c p written. induction fuel as [|fuel IH]; intros c p written Hf; [by eexists _, _|].
  destruct p as [|a p]; [by eexists _, _|]. cbn [write_loop]. unfold conn_Write. simpl_set. rewrite Hf. apply IH. done.
Qed.

Lemma sends_run c writes : conn_faults (sc_conn c) = [] → is_Some (sends c writes).
Proof.
  revert c. induction writes as [|p writes IH]; intros c Hf; [by eexists|]. cbn [sends]. unfold secure_Write.
  destruct (_ =? _); [by apply IH|]. destruct (write_loop_runs (String.length p) c p 0 Hf) as (c' & n & -> & Hf'). by apply IH.
Qed.

(** What is written is read.  Whatever one end writes, in whatever pieces, when the bytes it
    put on the wire reach the other end, reads with buffers of any sizes give back exactly
    those bytes in order, all of them after at most as many reads as there are bytes.
    Without a broken connection every write succeeds. *)
Theorem channel_delivers out inn faults conn key key' carried carried' c d writes c' wire sizes
    (Hsender : newSecureConn (mkConn inn out faults) key key' carried = Ok c) (Hsent : sends c writes = Some c')
    (Hwire : conn_out (sc_conn c') = out +:+ wire)
    (Hreceiver : newSecureConn conn key' key carried' = Ok d) (Harrived : foldr String.append "" carried' +:+ conn_in conn = wire)
    (Hsizes : Forall (λ n, 0 < n)%nat sizes) :
  let data := foldr String.append "" writes in
  (∃ rest, data = (reads d sizes).2 +:+ rest) ∧
  ((String.length data <= length sizes)%nat → (reads d sizes).2 = data) ∧
  (faults = [] → ∀ more, is_Some (sends c more)).
Proof.
  cbv zeta. apply newSecureConn_ok in Hsender as ->, Hreceiver as ->.
  destruct (λ H, sends_ok _ _ 0 _ H Hsent) as (chunks & Hdata & Hall & Hout); [done|]. cbn [sc_conn conn_out sendAEAD] in Hout.
  rewrite Hwire in Hout. apply append_inj_l in Hout as ->. rewrite <-Hdata.
  destruct (reads_deliver (mkSecureConn conn (foldr String.append "" carried') key' key 0 0 "") (foldr String.append "" chunks) sizes)
    as (rest & E & Hrest); [by exists 0, chunks|done|].
  split; [by exists rest|]. split; [|intros -> more; by apply sends_run].
  intros H. rewrite (Hrest H), append_nil in E. done.
Qed.

(** On the wire there is a ciphertext that opens under [key] as record [i], although the peer
    sealed no such record. *)
Definition forged (key : string) (chunks : list string) (wire : string) : Prop := ∃ i before ciphertext after value,
  wire = before +:+ (ciphertext +:+ after) ∧
  aead_Open key (nonceFor (u64 (Z.of_nat i))) ciphertext "" = Some value ∧
  ∀ chunk, chunks !! i = Some chunk → ciphertext ≠ aead_Seal key (nonceFor (u64 (Z.of_nat i))) chunk "".

Lemma forged_later key chunks before wire : forged key chunks wire → forged key chunks (before +:+ wire).
Proof. intros (i & b & t & a & v & -> & H). exists i, (before +:+ b), t, a, v. by rewrite append_assoc. Qed.

Lemma ReadFull_suffix n c : ∃ before, sc_source c = before +:+ sc_source (ReadFull n c).1.
Proof. exists (take_string n (sc_source c)). by rewrite ReadFull_source, string_take_drop. Qed.

Lemma ReadFull_ok n c c' s : ReadFull n c = (c', Ok s) → sc_source c = s +:+ sc_source c'.
Proof.
  intros H. pose proof (ReadFull_source n c) as E. rewrite H in E. cbn [fst] in E. rewrite E.
  unfold ReadFull in H. destruct (_ <? _)%nat; [by repeat case_match|]. injection H as _ <-. by rewrite string_take_drop.
Qed.

Lemma readRecord_suffix c : ∃ before, sc_source c = before +:+ sc_source (readRecord c).1.
Proof.
  unfold readRecord. destruct (ReadFull_suffix 4 c) as [b1 H1]. destruct (ReadFull 4 c) as [c1 [header|]]; [|by exists b1].
  destruct (_ =? _); [by exists b1|]. destruct (_ <? _); [by exists b1|].
  destruct (ReadFull_suffix (Z.to_nat (Uint32 header)) c1) as [b2 H2]. cbn [fst] in *.
  exists (b1 +:+ b2). rewrite H1, H2, append_assoc.
  destruct (ReadFull _ c1) as [c2 [sealed|]]; [|done]. by destruct (aead_Open _ _ _ _).
Qed.

Lemma readRecord_ok c c' value :
  readRecord c = (c', Ok value) →
  ∃ before ciphertext, sc_source c = before +:+ (ciphertext +:+ sc_source c') ∧ aead_Open (recvAEAD c) (nonceFor (recvSeq c)) ciphertext "" = Some value ∧ recvAEAD c' = recvAEAD c ∧ recvSeq c' = u64 (recvSeq c + 1).
Proof.
  unfold readRecord. pose proof (ReadFull_same 4 c) as (_ & H1 & _ & H2 & _). destruct (ReadFull 4 c) as [c1 [header|]] eqn:R1; [|done].
  destruct (_ =? _); [done|]. destruct (_ <? _); [done|]. apply ReadFull_ok in R1.
  pose proof (ReadFull_same (Z.to_nat (Uint32 header)) c1) as (_ & H3 & _ & H4 & _).
  destruct (ReadFull _ c1) as [c2 [sealed|]] eqn:R2; [|done]. cbn [fst] in *. apply ReadFull_ok in R2.
  destruct (aead_Open _ _ _ _) as [p|] eqn:Ho; [|done]. intros [= <- <-]. exists header, sealed.
  split; [by rewrite R1, R2|]. simpl_set. by rewrite <-H1, <-H2, <-H3, <-H4.
Qed.

Lemma readRecord_err c c' e :
  readRecord c = (c', Err e) → recvAEAD c' = recvAEAD c ∧ recvSeq c' = recvSeq c ∧ pending c' = pending c.
Proof.
  unfold readRecord. pose proof (ReadFull_same 4 c) as (_ & H1 & _ & H2 & H5). destruct (ReadFull 4 c) as [c1 [header|]]; [|by intros [= <- <-]].
  destruct (_ =? _); [by intros [= <- <-]|]. destruct (_ <? _); [by intros [= <- <-]|].
  pose proof (ReadFull_same (Z.to_nat (Uint32 header)) c1) as (_ & H3 & _ & H4 & H6). cbn [fst] in *.
  destruct (ReadFull _ c1) as [c2 [sealed|]]; cbn [fst] in *; [|intros [= <- <-]; by rewrite H3, H4, H6].
  destruct (aead_Open _ _ _ _) as [p|] eqn:Ho; [done|]. intros [= <- <-]. by rewrite H3, H4, H6.
Qed.

(** The records read so far are the peer's first ones. *)
Definition in_step (c : secureConn) (chunks : list string) (handed : string) : Prop := ∃ i,
  recvSeq c = u64 (Z.of_nat i) ∧ (i <= length chunks)%nat ∧ handed +:+ pending c = foldr String.append "" (take i chunks).

Lemma in_step_copy n c chunks handed :
  in_step c chunks handed → in_step (c <| pending ::= drop_string n |>) chunks (handed +:+ take_string n (pending c)).
Proof. intros (i & Hq & Hi & H). exists i. simpl_set. by rewrite append_assoc, string_take_drop. Qed.

Lemma read_in_step n c chunks handed :
  in_step c chunks handed →
  forged (recvAEAD c) chunks (sc_source c) ∨
  let '(c', r) := secure_Read n c in
  recvAEAD c' = recvAEAD c ∧ (∃ before, sc_source c = before +:+ sc_source c') ∧ in_step c' chunks (match r with Ok s => handed +:+ s | Err _ => handed end).
Proof.
  intros Hin. unfold secure_Read. case_bool_decide as Hp; [|right; split; [done|]; split; [by exists ""|by apply in_step_copy]].
  destruct Hin as (i & Hq & Hi & H). pose proof (readRecord_suffix c) as Hsuf.
  destruct (readRecord c) as [c1 [value|e]] eqn:Hr; cbn [fst] in Hsuf.
  - apply readRecord_ok in Hr as (before & ciphertext & Hsrc & Hopen & Hk & Hs). rewrite Hq in Hopen, Hs. rewrite u64_next in Hs.
    destruct (chunks !! i) as [chunk|] eqn:Hlook; [|left; exists i, before, ciphertext, (sc_source c1), value; split; [done|]; split; [done|]; by rewrite Hlook].
    destruct (decide (ciphertext = aead_Seal (recvAEAD c) (nonceFor (u64 (Z.of_nat i))) chunk "")) as [->|Hne].
    2: { left. exists i, before, ciphertext, (sc_source c1), value. split; [done|]. split; [done|]. by rewrite Hlook; intros ? [= <-]. }
    rewrite aead_round in Hopen. injection Hopen as <-. right. split; [done|]. split; [exact Hsuf|].
    apply (in_step_copy n (c1 <| pending := chunk |>)). exists (S i). simpl_set. apply lookup_lt_Some in Hlook as Hlt.
    split; [rewrite Hs; f_equal; lia|]. split; [lia|]. rewrite Hp, append_nil in H.
    rewrite (take_S_r _ _ _ Hlook), foldr_append, H. cbn. by rewrite append_nil.
  - apply readRecord_err in Hr as (Hk & Hs & Hp'). right. split; [done|]. split; [exact Hsuf|]. exists i. by rewrite Hs, Hp'.
Qed.

Lemma reads_in_step c chunks handed sizes :
  in_step c chunks handed →
  forged (recvAEAD c) chunks (sc_source c) ∨ ∃ rest, foldr String.append "" chunks = (handed +:+ (reads c sizes).2) +:+ rest.
Proof.
  revert c handed. induction sizes as [|n sizes IH]; intros c handed Hin.
  { right. destruct Hin as (i & _ & _ & H). exists (pending c +:+ foldr String.append "" (drop i chunks)).
    cbn. by rewrite append_nil, <-append_assoc, H, <-foldr_append, take_drop. }
  destruct (read_in_step n c chunks handed Hin) as [?|H]; [by left|]. cbn [reads]. destruct (secure_Read n c) as [c1 r]. destruct H as (Hk & [before Hsuf] & Hin').
  apply IH in Hin' as [?|[rest E]]; [left; rewrite <-Hk, Hsuf; by apply forged_later|]. right. exists rest. destruct (reads c1 sizes) as [c2 t]. cbn in E |- *. rewrite E.
  by destruct r; rewrite ?append_assoc.
Qed.

(** C16: nobody between the ends can make them disagree.  Whatever bytes reach the receiver
    (edited, dropped, repeated, reordered, replayed or made up), and even if it keeps reading
    after an error, what it hands out is the beginning of what the sender wrote, unless
    somewhere in those bytes stands a ciphertext that opens as a record the sender never
    sealed under that number. *)
Theorem channel_tamper_evident out inn faults conn key key' carried carried' c d writes c' sizes
    (Hsender : newSecureConn (mkConn inn out faults) key key' carried = Ok c) (Hsent : sends c writes = Some c')
    (Hreceiver : newSecureConn conn key' key carried' = Ok d) :
  ∃ chunks, conn_out (sc_conn c') = out +:+ frames key 0 chunks ∧ foldr String.append "" chunks = foldr String.append "" writes ∧
    (forged key chunks (foldr String.append "" carried' +:+ conn_in conn) ∨ ∃ rest, foldr String.append "" writes = (reads d sizes).2 +:+ rest).
Proof.
  apply newSecureConn_ok in Hsender as ->, Hreceiver as ->.
  destruct (λ H, sends_ok _ _ 0 _ H Hsent) as (chunks & Hdata & _ & Hout); [done|]. exists chunks. split; [done|]. split; [done|].
  rewrite <-Hdata. apply (reads_in_step (mkSecureConn conn (foldr String.append "" carried') key' key 0 0 "") chunks "").
  exists 0%nat. split; [done|]. split; [lia|done].
Qed.
End Transport.

(** ** A sample channel

    A cipher that hides nothing and whose tag is the nonce, which is enough to notice a
    record that comes twice. *)

Module ChannelSample.
Definition tag (nonce : string) : string := take_string 16 (nonce +:+ zeros 16).
#[local] Instance channel_cipher : SecretCipher := {|
  X25519 _ _ := Some SecretSample.key32; Basepoint := SecretSample.key32;
  aead_Seal _ nonce value _ := value +:+ tag nonce;
  aead_Open _ nonce text _ :=
    let value := take_string (String.length text - 16) text in if bool_decide (value +:+ tag nonce = text) then Some value else None;
  cipher_sha256 s := s; cipher_sha512 s := s; montgomery _ := Some SecretSample.key32;
  encode_sealed := @encode_sealed SecretSample.sample_cipher; decode_sealed := @decode_sealed SecretSample.sample_cipher |}.
Lemma length_tag nonce : String.length (tag nonce) = 16%nat.
Proof. unfold tag. rewrite length_take_string, length_append. change (String.length (zeros 16)) with 16%nat. lia. Qed.
#[local] Instance channel_cipher_laws : AeadLaws channel_cipher.
Proof.
  split.
  - intros key nonce value data. cbn [aead_Open aead_Seal channel_cipher]. rewrite length_append, length_tag, Nat.add_sub, take_append. by rewrite bool_decide_true.
  - intros key nonce value data. cbn [aead_Open aead_Seal channel_cipher]. unfold slen, Overhead. rewrite length_append, length_tag. lia.
Qed.

Definition key1 : string := SecretSample.key32.
Definition key2 : string := take_string 32 (zeros 32).
Definition no_conn : Conn := mkConn "" "" [].
Definition sender : secureConn := mkSecureConn no_conn "" key1 key2 0 0 "".
Definition writes : list string := ["hello"; ""; "node"].
Definition sent : secureConn := Eval vm_compute in default sender (sends sender writes).
Definition wire : string := Eval vm_compute in conn_out (sc_conn sent).
Definition receiver : secureConn := mkSecureConn (mkConn (drop_string 3 wire) "" []) (take_string 3 wire) key2 key1 0 0 "".

Lemma channel_delivers_witness : (reads receiver [2; 7; 7; 7; 7; 7; 7; 7; 7]%nat).2 = "hellonode".
Proof.
  refine (proj1 (proj2 (channel_delivers "" "" [] (mkConn (drop_string 3 wire) "" []) key1 key2 [] [take_string 3 wire] sender receiver writes sent wire
    [2; 7; 7; 7; 7; 7; 7; 7; 7]%nat eq_refl eq_refl eq_refl eq_refl eq_refl _)) _); [apply (bool_decide_unpack _); vm_compute; exact I|apply (bool_decide_unpack _); vm_compute; exact I].
Defined.

(** The first record once more in place of the second. *)
Definition replayed : secureConn := mkSecureConn (mkConn (take_string 25 wire +:+ take_string 25 wire) "" []) "" key2 key1 0 0 "".
Lemma channel_tamper_evident_witness :
  (reads replayed [7; 7; 7]%nat).2 = "hello" ∧
  ∃ chunks, foldr String.append "" chunks = "hellonode" ∧
    (forged key1 chunks (take_string 25 wire +:+ take_string 25 wire) ∨ ∃ rest, "hellonode" = (reads replayed [7; 7; 7]%nat).2 +:+ rest).
Proof.
  split; [vm_compute; reflexivity|].
  destruct (channel_tamper_evident "" "" [] (mkConn (take_string 25 wire +:+ take_string 25 wire) "" []) key1 key2 [] [] sender replayed writes sent
    [7; 7; 7]%nat) as (chunks & _ & H1 & H2);
    [vm_compute; reflexivity..|]. exists chunks. split; [exact H1|exact H2].
Defined.
End ChannelSample.
