(* ===== verification/Wire.v ===== *)
(** * JSON values over a connection

    What [json.Decoder] over a [bufio.Reader] and [json.Encoder] do with the bytes of a
    connection, for the handshakes of src/node/enroll.go and the action stream of
    src/node/remote.go.  Both readers read ahead, and what their buffers hold is part of the
    model.  The network delivers bytes in segments of its own choosing; where one value ends
    and the next begins is a parameter. *)

From S2P Require Import Prelude Types Text EventLog Directory Placement ModelBoundary WorkQueue Dispatch Secrets Containers Channel.
Open Scope Z_scope.

(** The scanner of [json.Decoder] on a buffer: the first value with what follows it, or a
    value that is not complete yet, or text no value starts with. *)
Inductive scan := Incomplete | Corrupt | Whole (value rest : string).

Class JsonScanner := next_value : string → scan.

(** ** Reading ahead *)

(** The segments still to arrive, the buffer of [bufio.Reader], and the buffer of
    [json.Decoder] with its capacity. *)
Record Reader := mkReader { segments : list string; bufio_buf : string; dec_buf : string; dec_cap : nat }.
#[export] Instance eta_Reader : Eta Reader := λ r, mkReader (segments r) (bufio_buf r) (dec_buf r) (dec_cap r).
Definition NewReader (arriving : list string) : Reader := mkReader arriving "" "" 0.
Definition bufio_size : nat := 4096.
Definition minRead : nat := 512.

(** One read of the connection, with room for [n] bytes; [None] is the end. *)
Definition conn_Read (n : nat) (segs : list string) : option (string * list string) :=
  match segs with
  | [] => None
  | s :: segs => if (String.length s <=? n)%nat then Some (s, segs) else Some (take_string n s, drop_string n s :: segs)
  end.

(** [bufio.Reader.Read] with room for [n] bytes. *)
Definition bufio_Read (n : nat) (r : Reader) : Reader * option string :=
  if bool_decide (bufio_buf r = "") then
    if (bufio_size <=? n)%nat then
      match conn_Read n (segments r) with
      | None => (r, None)
      | Some (s, segs) => (r <| segments := segs |>, Some s)
      end
    else
      match conn_Read bufio_size (segments r) with
      | None => (r, None)
      | Some (s, segs) => (r <| segments := segs |> <| bufio_buf := drop_string n s |>, Some (take_string n s))
      end
  else (r <| bufio_buf ::= drop_string n |>, Some (take_string n (bufio_buf r))).

(** [Decoder.refill]; false is the end of the input. *)
Definition refill (r : Reader) : Reader * bool :=
  let held := String.length (dec_buf r) in
  let cap := if (dec_cap r - held <? minRead)%nat then (2 * dec_cap r + minRead)%nat else dec_cap r in
  let '(r, read) := bufio_Read (cap - held) (r <| dec_cap := cap |>) in
  match read with
  | None => (r, false)
  | Some s => (r <| dec_buf ::= λ b, b +:+ s |>, true)
  end.

(** The blanks of JSON. *)
Definition json_space (c : Ascii.ascii) : bool :=
  bool_decide (c = Ascii.ascii_of_N 32) || bool_decide (c = newline) || bool_decide (c = Ascii.ascii_of_N 9) || bool_decide (c = Ascii.ascii_of_N 13).
Fixpoint nonSpace (s : string) : bool :=
  match s with "" => false | String c s => negb (json_space c) || nonSpace s end.
Definition EOF : error := Errorf "EOF".
Definition ErrUnexpectedEOF : error := Errorf "unexpected EOF".
Definition is_EOF (e : error) : bool := match e with Errorf m => bool_decide (m = "EOF") | _ => false end.

(** [Decoder.readValue]: the text of the next value.  At the end of the input a blank is
    tried, which completes a bare number; an end inside a value is not the plain one. *)
Fixpoint read_value {values : JsonScanner} (fuel : nat) (r : Reader) : Reader * result string :=
  match next_value (dec_buf r) with
  | Whole value rest => (r <| dec_buf := rest |>, Ok value)
  | Corrupt => (r, Err (Errorf "invalid character"))
  | Incomplete =>
      match fuel with
      | O => (r, Err EOF)
      | S fuel =>
          match refill r with
          | (r, true) => read_value fuel r
          | (r, false) =>
              match next_value (dec_buf r +:+ " ") with
              | Whole value _ => (r <| dec_buf := "" |>, Ok value)
              | _ => (r, Err (if nonSpace (dec_buf r) then ErrUnexpectedEOF else EOF))
              end
          end
      end
  end.

(** Every refill takes a segment or a byte, so this many are enough. *)
Definition read_fuel (r : Reader) : nat :=
  S (String.length (bufio_buf r) + String.length (foldr String.append "" (segments r)) + length (segments r)).

(** ** One end of a connection *)

Record Line := mkLine { line_reader : Reader; line_conn : Conn }.
#[export] Instance eta_Line : Eta Line := λ r, mkLine (line_reader r) (line_conn r).

Definition talk (A : Type) : Type := Line → Line * result A.
Definition talk_bind {A B} (m : talk A) (k : A → talk B) : talk B := λ l,
  match m l with (l, Ok a) => k a l | (l, Err e) => (l, Err e) end.
Definition talk_of {A} (r : result A) : talk A := λ l, (l, r).

Section Values.
Context {values : JsonScanner}.

(** [decoder.Decode] and [encoder.Encode], which ends a value with a newline. *)
Definition Decode {A} (decode : string → option A) : talk A := λ l,
  let '(r, text) := read_value (read_fuel (line_reader l)) (line_reader l) in
  (l <| line_reader := r |>, let* text := text in need a := decode text else "json: cannot unmarshal"; Ok a).
Definition receive {A} (message : string) (decode : string → option A) : talk A := λ l,
  let '(l, r) := Decode decode l in (l, wrap_err message r).
Definition send (message : string) (value : string) : talk unit := λ l,
  let '(c, r) := conn_Write (value +:+ String newline "") (line_conn l) in (l <| line_conn := c |>, wrap_err message r).

End Values.

(** ** Reading through two buffers *)

Definition eol : string := String newline "".
Definition blank_start (ws : string) : Prop := ws = "" ∨ ws = eol.

(** Two ways to split one text. *)
Lemma append_split (a b c d : string) :
  a +:+ b = c +:+ d → (∃ x, a = c +:+ x ∧ d = x +:+ b) ∨ (∃ t, t ≠ "" ∧ c = a +:+ t ∧ b = t +:+ d).
Proof.
  revert c. induction a as [|x a IH]; intros [|y c]; intros H; cbn in H.
  - left. exists "". done.
  - right. exists (String y c). done.
  - left. exists (String x a). done.
  - injection H as -> H. destruct (IH c H) as [(z & -> & ->)|(t & Ht & -> & ->)]; [left; by exists z|right; by exists t].
Qed.

Definition unread (r : Reader) : string := dec_buf r +:+ (bufio_buf r +:+ foldr String.append "" (segments r)).
Definition left_over (r : Reader) : nat :=
  (String.length (bufio_buf r) + String.length (foldr String.append "" (segments r)) + length (segments r))%nat.
Definition wf_reader (r : Reader) : Prop := (String.length (dec_buf r) <= dec_cap r)%nat.

Lemma conn_Read_spec n segs s segs' :
  (0 < n)%nat → conn_Read n segs = Some (s, segs') →
  foldr String.append "" segs = s +:+ foldr String.append "" segs' ∧ (String.length s <= n)%nat ∧ (length segs' <= length segs)%nat ∧
  (String.length (foldr String.append "" segs') + length segs' < String.length (foldr String.append "" segs) + length segs)%nat.
Proof.
  intros Hn. unfold conn_Read. destruct segs as [|x segs]; [done|]. destruct (Nat.leb_spec (String.length x) n); intros [= <- <-]; cbn [foldr length].
  - split; [done|]. split; [done|]. split; [lia|]. rewrite length_append. lia.
  - split; [by rewrite <-append_assoc, string_take_drop|]. rewrite length_take_string. split; [lia|]. split; [lia|].
    rewrite !length_append, length_drop_string. lia.
Qed.

Lemma bufio_Read_spec n r r' s :
  (0 < n)%nat → bufio_Read n r = (r', Some s) →
  dec_buf r' = dec_buf r ∧ dec_cap r' = dec_cap r ∧ (String.length s <= n)%nat ∧ (left_over r' < left_over r)%nat ∧
  bufio_buf r +:+ foldr String.append "" (segments r) = s +:+ (bufio_buf r' +:+ foldr String.append "" (segments r')).
Proof.
  intros Hn. unfold bufio_Read. case_bool_decide as Hb.
  - destruct (_ <=? _)%nat.
    + destruct (conn_Read n _) as [[x segs]|] eqn:Hc; [|done]. intros [= <- <-].
      apply conn_Read_spec in Hc as (E & Hl & Hk & Hm); [|done]. unfold left_over. simpl_set. rewrite Hb. cbn. repeat split; (done || lia).
    + destruct (conn_Read bufio_size _) as [[x segs]|] eqn:Hc; [|done]. intros [= <- <-].
      apply conn_Read_spec in Hc as (E & Hl & Hk & Hm); [|unfold bufio_size; lia]. unfold left_over. simpl_set. rewrite Hb, E, length_take_string, length_drop_string.
      split; [done|]. split; [done|]. split; [lia|]. rewrite E, length_append in Hm. rewrite length_append.
      split; [change (String.length "") with 0%nat; lia|]. by rewrite <-(append_assoc (take_string n x)), string_take_drop.
  - intros [= <- <-]. unfold left_over. simpl_set. rewrite length_drop_string, length_take_string.
    destruct (bufio_buf r) as [|a b] eqn:Eb; [done|]. cbn [String.length].
    split; [done|]. split; [done|]. split; [lia|]. split; [lia|]. by rewrite <-(append_assoc (take_string n _)), string_take_drop.
Qed.

Lemma refill_more r r' :
  wf_reader r → refill r = (r', true) → wf_reader r' ∧ unread r' = unread r ∧ (left_over r' < left_over r)%nat.
Proof.
  unfold wf_reader, refill. intros Hwf. set (cap := if (_ <? _)%nat then _ else _). set (room := (cap - _)%nat).
  assert (0 < room ∧ room + String.length (dec_buf r) = cap)%nat as [Hroom Hcap].
  { unfold room, cap, minRead. destruct (Nat.ltb_spec (dec_cap r - String.length (dec_buf r)) 512); lia. }
  destruct (bufio_Read room (r <| dec_cap := cap |>)) as [r1 [s|]] eqn:Hr; [|done]. intros [= <-].
  apply bufio_Read_spec in Hr as (Hd & Hc & Hl & Hm & Hu); [|done]. revert Hd Hc Hu. unfold unread. simpl_set. intros Hd Hc Hu.
  rewrite Hd, Hc, length_append. split; [lia|]. split; [by rewrite Hu, append_assoc|]. exact Hm.
Qed.

Lemma bufio_Read_none n r r' : bufio_Read n r = (r', None) → r' = r.
Proof. unfold bufio_Read. repeat (case_match; try done); by intros [= <-]. Qed.
Lemma refill_none r r' : refill r = (r', false) → dec_buf r' = dec_buf r ∧ bufio_buf r' = bufio_buf r ∧ segments r' = segments r.
Proof.
  unfold refill. set (cap := if (_ <? _)%nat then _ else _). destruct (bufio_Read _ _) as [r1 [s|]] eqn:Hr; [done|].
  intros [= <-]. by apply bufio_Read_none in Hr as ->.
Qed.

Lemma refill_end r r' : wf_reader r → refill r = (r', false) → bufio_buf r = "" ∧ segments r = [].
Proof.
  unfold refill. intros _. destruct (bufio_Read _ _) as [r1 [s|]] eqn:Hr; [done|]. intros _. revert Hr. unfold bufio_Read. simpl_set.
  case_bool_decide as Hb; [|done]. destruct (_ <=? _)%nat.
  - destruct (segments r) as [|x segs]; [done|]. cbn [conn_Read]. by destruct (_ <=? _)%nat.
  - destruct (segments r) as [|x segs]; [done|]. cbn [conn_Read]. by destruct (_ <=? _)%nat.
Qed.

(** A value is a part of the text that is not blank, and blanks are no value. *)
Class ScannerLaws (values : JsonScanner) : Prop := {
  value_rest : ∀ s value rest, next_value s = Whole value rest → s = value +:+ rest;
  value_text : ∀ s value rest, next_value s = Whole value rest → nonSpace value = true;
  blank_value : ∀ s, nonSpace s = false → next_value s = Incomplete }.

Section Reading.
Context {values : JsonScanner}.

(** A text the scanner takes for one value, wherever it is cut and whatever follows. *)
Definition delimited (v : string) : Prop :=
  (∀ rest, next_value (v +:+ rest) = Whole v rest) ∧ ∀ s t, v = s +:+ t → t ≠ "" → next_value s = Incomplete.

(** Whatever way the network cuts the bytes, a value that is coming is read. *)
Lemma read_value_ok fuel r v rest :
  wf_reader r → delimited v → unread r = v +:+ rest → (left_over r <= fuel)%nat →
  ∃ r', read_value fuel r = (r', Ok v) ∧ unread r' = rest ∧ wf_reader r'.
Proof.
  intros Hwf [Hwhole Hpart]. revert r Hwf. induction fuel as [|fuel IH]; intros r Hwf Hu Hfuel; unfold unread in Hu;
    destruct (append_split _ _ _ _ Hu) as [(x & Hd & ->)|(t & Ht & Hd & Hrest)].
  1, 3: (exists (r <| dec_buf := x |>); unfold wf_reader in Hwf; rewrite Hd, length_append in Hwf;
    split; [|split; [done|unfold wf_reader; simpl_set; lia]]; cbn [read_value]; rewrite Hd, Hwhole; done).
  - exfalso. apply (f_equal String.length) in Hrest. rewrite !length_append in Hrest. unfold left_over in Hfuel.
    destruct t; [done|]. cbn [String.length] in Hrest. lia.
  - cbn [read_value]. rewrite (Hpart (dec_buf r) t) by done. destruct (refill r) as [r1 [|]] eqn:Hr.
    + destruct (refill_more _ _ Hwf Hr) as (Hwf1 & Hu1 & Hm). apply IH; [done|by rewrite Hu1|lia].
    + apply refill_end in Hr as [Hb Hs]; [|done]. rewrite Hb, Hs in Hrest. destruct t; done.
Qed.

Lemma Decode_ok {A} (decode : string → option A) l v rest a :
  wf_reader (line_reader l) → delimited v → unread (line_reader l) = v +:+ rest → decode v = Some a →
  ∃ r', Decode decode l = (l <| line_reader := r' |>, Ok a) ∧ unread r' = rest ∧ wf_reader r'.
Proof.
  intros Hwf Hv Hu Ha. unfold Decode.
  destruct (read_value_ok (read_fuel (line_reader l)) (line_reader l) v rest Hwf Hv Hu) as (r' & -> & Hu' & Hwf').
  { unfold read_fuel, left_over. lia. }
  exists r'. cbn [rbind]. by rewrite Ha.
Qed.

Lemma receive_ok {A} (decode : string → option A) message l v rest a :
  wf_reader (line_reader l) → delimited v → unread (line_reader l) = v +:+ rest → decode v = Some a →
  ∃ r', receive message decode l = (l <| line_reader := r' |>, Ok a) ∧ unread r' = rest ∧ wf_reader r'.
Proof. intros Hwf Hv Hu Ha. unfold receive. destruct (Decode_ok decode l v rest a Hwf Hv Hu Ha) as (r' & -> & H). by exists r'. Qed.

Context {slaws : ScannerLaws values}.

Lemma nonSpace_app s t : nonSpace (s +:+ t) = nonSpace s || nonSpace t.
Proof. induction s as [|c s IH]; [done|]. change (String c s +:+ t) with (String c (s +:+ t)). cbn [nonSpace]. by rewrite IH, orb_assoc. Qed.

(** Only blanks are left when the peer closes: the plain end. *)
Lemma read_value_end fuel r :
  wf_reader r → nonSpace (unread r) = false → (left_over r <= fuel)%nat → ∃ r', read_value fuel r = (r', Err EOF).
Proof.
  revert r. induction fuel as [|fuel IH]; intros r Hwf Hu Hfuel; pose proof Hu as Hd; unfold unread in Hd; rewrite nonSpace_app in Hd;
    apply orb_false_iff in Hd as [Hd _]; cbn [read_value]; rewrite (blank_value _ Hd); [by eexists|].
  destruct (refill r) as [r1 [|]] eqn:Hr.
  - destruct (refill_more _ _ Hwf Hr) as (Hwf1 & Hu1 & Hm). apply IH; [done|by rewrite Hu1|lia].
  - destruct (refill_none _ _ Hr) as (-> & _ & _).
    rewrite blank_value by (by rewrite nonSpace_app, Hd). rewrite Hd. by eexists.
Qed.

(** A value that is read is taken out of what was to come. *)
Lemma read_value_shrinks fuel r r' v :
  wf_reader r → (left_over r <= fuel)%nat → read_value fuel r = (r', Ok v) →
  wf_reader r' ∧ (String.length (unread r') < String.length (unread r))%nat.
Proof.
  revert r. induction fuel as [|fuel IH]; intros r Hwf Hfuel; cbn [read_value]; destruct (next_value (dec_buf r)) as [| |value rest] eqn:Hv; try done.
  1, 3: (intros [= <- <-]; pose proof (value_rest _ _ _ Hv) as E; pose proof (value_text _ _ _ Hv) as Ht; unfold wf_reader, unread in *; simpl_set;
    rewrite E in Hwf |- *; rewrite !length_append in *; destruct value; [done|]; cbn [String.length] in *; lia).
  destruct (refill r) as [r1 [|]] eqn:Hr.
  - destruct (refill_more _ _ Hwf Hr) as (Hwf1 & Hu1 & Hm). rewrite <-Hu1. apply IH; [done|lia].
  - pose proof (refill_end _ _ Hwf Hr) as [Hb Hs].
    destruct (refill_none _ _ Hr) as (Ed & Eb & Es).
    rewrite Ed. destruct (next_value (dec_buf r +:+ " ")) as [| |value rest] eqn:Hv'; try done. intros [= <- <-].
    unfold wf_reader, unread in *. simpl_set. rewrite Eb, Es, Hb, Hs. cbn. split; [lia|]. rewrite append_nil.
    destruct (dec_buf r); [|apply Nat.lt_0_succ]. by rewrite blank_value in Hv'.
Qed.
End Reading.

Lemma send_ok message value l :
  conn_faults (line_conn l) = [] →
  send message value l = (l <| line_conn ::= λ c, c <| conn_out := conn_out c +:+ (value +:+ eol) |> |>, Ok tt).
Proof. intros Hf. unfold send, conn_Write. rewrite Hf. unfold eol. destruct l as [r [i o f]]. cbn in *. by subst f. Qed.


(** ** Sample values

    A value is bits between blanks and a closing brace, which is self-delimiting. *)

Module WireSample.
Definition brace : Ascii.ascii := Ascii.ascii_of_nat 125.
Definition is_bit (c : Ascii.ascii) : bool := Ascii.eqb c QueueSample.zero || Ascii.eqb c QueueSample.one.
Fixpoint only_bits (s : string) : string :=
  match s with "" => "" | String c s => if is_bit c then String c (only_bits s) else only_bits s end.
Definition object (version : Z) (fields : list string) : string :=
  QueueSample.bits (encode (QueueSample.bits (encode version) :: fields)) +:+ String brace "".
Definition of_object (s : string) : option (Z * list string) :=
  p ← QueueSample.unbits (only_bits s); l ← decode (A := list string) p;
  match l with [] => None | v :: fields => q ← QueueSample.unbits v; version ← decode (A := Z) q; Some (version, fields) end.

#[export] Instance sample_scanner : JsonScanner := λ s,
  match Cut brace s with None => Incomplete | Some (before, after) => Whole (before +:+ String brace "") after end.

Lemma only_bits_bits p rest : only_bits (QueueSample.bits p +:+ rest) = QueueSample.bits p +:+ only_bits rest.
Proof. induction p as [p IH|p IH|]; [exact (f_equal (String _) IH)..|done]. Qed.
Lemma of_object_object version fields ws : blank_start ws → of_object (ws +:+ object version fields) = Some (version, fields).
Proof.
  intros Hws. unfold of_object, object.
  assert (only_bits (ws +:+ (QueueSample.bits (encode (QueueSample.bits (encode version) :: fields)) +:+ String brace ""))
    = QueueSample.bits (encode (QueueSample.bits (encode version) :: fields))) as ->.
  { transitivity (only_bits (QueueSample.bits (encode (QueueSample.bits (encode version) :: fields)) +:+ String brace "")); [by destruct Hws as [->| ->]|].
    rewrite only_bits_bits. apply append_nil. }
  rewrite QueueSample.unbits_bits. cbn [mbind option_bind]. rewrite countable.decode_encode. cbn [mbind option_bind].
  rewrite QueueSample.unbits_bits. cbn [mbind option_bind]. by rewrite countable.decode_encode.
Qed.
Lemma Cut_bits p rest : Cut brace (QueueSample.bits p +:+ String brace rest) = Some (QueueSample.bits p, rest).
Proof. induction p as [p IH|p IH|]; [..|done]; cbn [QueueSample.bits];
    match goal with |- context [String ?c ?a +:+ ?b] => change (String c a +:+ b) with (String c (a +:+ b)) end;
    cbn [Cut]; (rewrite bool_decide_false by done); by rewrite IH. Qed.
Lemma Cut_none p s t : QueueSample.bits p +:+ String brace "" = s +:+ t → t ≠ "" → Cut brace s = None.
Proof.
  revert s. induction p as [p IH|p IH|]; intros [|c s] H Ht; try done; cbn in H; injection H as <- H.
  - cbn [Cut]. rewrite bool_decide_false by done. by rewrite IH.
  - cbn [Cut]. rewrite bool_decide_false by done. by rewrite IH.
  - destruct s, t; done.
Qed.
Lemma scanner_rest s value rest : next_value s = Whole value rest → s = value +:+ rest.
Proof.
  unfold next_value, sample_scanner. destruct (Cut brace s) as [[before after]|] eqn:Hc; [|done]. intros [= <- <-]. apply Cut_spec in Hc.
  rewrite Hc. by rewrite append_assoc.
Qed.
#[export] Instance sample_scanner_laws : ScannerLaws sample_scanner.
Proof.
  split; [apply scanner_rest| |].
  - unfold next_value, sample_scanner. intros s value rest. destruct (Cut brace s) as [[before after]|]; [|done]. intros [= <- <-].
    rewrite nonSpace_app. by apply orb_true_iff; right.
  - unfold next_value, sample_scanner. intros s Hs. destruct (Cut brace s) as [[before after]|] eqn:Hc; [|done]. apply Cut_spec in Hc.
    rewrite Hc, nonSpace_app in Hs. apply orb_false_iff in Hs as [_ Hs]. done.
Qed.
Lemma object_delimited version fields ws : blank_start ws → delimited (ws +:+ object version fields).
Proof.
  intros Hws. unfold object. set (p := encode _). unfold delimited, next_value, sample_scanner. split.
  - intros rest. destruct Hws as [->| ->].
    + change ("" +:+ (QueueSample.bits p +:+ String brace "")) with (QueueSample.bits p +:+ String brace "").
      rewrite append_assoc. change (String brace "" +:+ rest) with (String brace rest). by rewrite Cut_bits.
    + change ((eol +:+ (QueueSample.bits p +:+ String brace "")) +:+ rest) with (String newline ((QueueSample.bits p +:+ String brace "") +:+ rest)).
      rewrite append_assoc. change (String brace "" +:+ rest) with (String brace rest). cbn [Cut]. rewrite bool_decide_false by done. by rewrite Cut_bits.
  - intros s t H Ht. destruct Hws as [->| ->]; [by rewrite (Cut_none p s t)|]. destruct s as [|c s]; [done|].
    change (String newline (QueueSample.bits p +:+ String brace "") = String c (s +:+ t)) in H. injection H as <- H.
    cbn [Cut]. rewrite bool_decide_false by done. by rewrite (Cut_none p s t).
Qed.
End WireSample.
