(* ===== verification/Enroll.v ===== *)
(** * Enrolment of a node (src/node/enroll.go, the handshakes of src/node/listen.go)

    A node claims an identity, the server sends a nonce, the node signs it together with both
    ends' shares of a key exchange.  The messages are JSON values read by a [json.Decoder]
    over a [bufio.Reader], and both read ahead: what the two buffers hold when the handshake
    is over is part of the model, because the encrypted stream starts there.  The network
    delivers bytes in segments of its own choosing; a deadline that passes is a connection
    that ends.  JSON, base64, Ed25519 and the key exchange are parameters, random bytes are
    arguments. *)

From S2P Require Import Prelude Types Text EventLog Directory Provenance Keys Approvals Placement ModelBoundary WorkQueue Dispatch Secrets Containers Channel Wire.
Open Scope Z_scope.

Definition HandshakeVersion : Z := 1.
Definition challengeSize : nat := 32.

Record Hello := mkHello { Hello_Version : Z; Hello_NodeID : string; Hello_EphemeralKey : string }.
Record Challenge := mkChallenge { Chal_Version : Z; Chal_Nonce : string; Chal_ServerKey : string; Chal_EphemeralKey : string }.
Record Proof_ := mkProof { Proof_Version : Z; Proof_NodeID : string; Proof_Signature : string }.
Record Enrolled := mkEnrolled { Enr_Version : Z; Enr_Accepted : bool; Enr_Reason : string; Enr_ServerKeyID : string }.

(** What both sides sign and verify; an absent share is an empty one. *)
Record Payload := mkPayload {
  Pay_Version : Z; Pay_NodeID : string; Pay_Nonce : string; Pay_NodeEphemeral : string; Pay_ServerEphemeral : string }.

Record session := mkSession { sendKey : string; receiveKey : string; buffered : string }.

Class HandshakeCodec := {
  handshake_values :: JsonScanner;
  encode_hello : Hello → string; decode_hello : string → option Hello;
  encode_challenge : Challenge → string; decode_challenge : string → option Challenge;
  encode_proof : Proof_ → string; decode_proof : string → option Proof_;
  encode_enrolled : Enrolled → string; decode_enrolled : string → option Enrolled;
  encode_payload : Payload → string }.

(** ** The handshakes *)

#[local] Notation "'exchange' x ':=' m 'in' k" := (talk_bind m (λ x, k)) (at level 10, x pattern, m at level 200, k at level 200).
#[local] Notation "'unless' b msg ; k" := (talk_bind (talk_of (if b then Ok tt else Err (Errorf msg))) (λ _, k))
  (at level 10, b at level 0, msg at level 0, k at level 200).

Section Handshake.
Context {cipher : SecretCipher} {kdf : KeyDerivation} {raw : RawBase64} {att : Attest} {signer : Signer} {codec : HandshakeCodec}.

Definition challengePayload (nodeID nonce : string) (nodeEphemeral serverEphemeral : option string) : string :=
  encode_payload (mkPayload HandshakeVersion nodeID nonce (default "" nodeEphemeral) (default "" serverEphemeral)).

(** [bytes.TrimLeft(_, "\r\n")]. *)
Fixpoint trim_newlines (s : string) : string :=
  match s with
  | String c s' => if bool_decide (c = newline) || bool_decide (c = Ascii.ascii_of_N 13) then trim_newlines s' else s
  | "" => ""
  end.
Definition leftover (l : Line) : string := trim_newlines (dec_buf (line_reader l)).

(** The refusal goes out in the same words whatever the reason. *)
Definition reject {A} (reason : string) : talk A := λ l,
  let '(l, _) := send "" (encode_enrolled (mkEnrolled HandshakeVersion false "enrollment refused" "")) l in (l, Err (Errorf reason)).
#[local] Notation "'insist' b reason ; k" := (if b then k else reject reason) (at level 10, b at level 0, reason at level 0, k at level 200).

(** The server's half up to the challenge: the hello, the node's share and its own. *)
Definition challenge_node (serverKeyID : string) (nonce random : option string) : talk (Hello * string * option string * option (string * string)) :=
  exchange hello := receive "read hello: %w" decode_hello in
  unless (Hello_Version hello =? HandshakeVersion) "unsupported handshake version %d";
  unless (negb (bool_decide (Hello_NodeID hello = ""))) "hello carries no node id";
  exchange nodeEphemeral := talk_of (decodeEphemeral (Hello_EphemeralKey hello)) in
  exchange nonce := talk_of (need n := nonce else "generate challenge: %w"; Ok n) in
  exchange share := talk_of (match nodeEphemeral with None => Ok None | Some _ => let* s := generateEphemeral random in Ok (Some s) end) in
  let key := match share with None => "" | Some (_, public) => raw_Encode public end in
  exchange _ := send "send challenge: %w" (encode_challenge (mkChallenge HandshakeVersion (raw_Encode nonce) serverKeyID key)) in
  talk_of (Ok (hello, nonce, nodeEphemeral, share)).

Definition acceptNode (nodeKeys : gmap string string) (serverKeyID : string) (nonce random : option string) : talk (option session * string) :=
  exchange (hello, nonce, nodeEphemeral, share) := challenge_node serverKeyID nonce random in
  exchange proof := receive "read proof: %w" decode_proof in
  insist (Proof_Version proof =? HandshakeVersion) "unsupported proof version %d";
  insist (bool_decide (Proof_NodeID proof = Hello_NodeID hello)) "proof identity does not match hello";
  match nodeKeys !! Hello_NodeID hello with
  | None => reject "node %q is not enrolled"
  | Some publicKey =>
      insist ((String.length publicKey =? PublicKeySize)%nat) "node %q is not enrolled";
      match raw_Decode (Proof_Signature proof) with
      | None => reject "proof signature is not valid base64"
      | Some signature =>
          let payload := challengePayload (Hello_NodeID hello) nonce nodeEphemeral (snd <$> share) in
          insist (ed25519_Verify publicKey payload signature) "node %q failed to prove its identity";
          exchange _ := send "send enrollment result: %w" (encode_enrolled (mkEnrolled HandshakeVersion true "" serverKeyID)) in
          match nodeEphemeral, share with
          | Some peer, Some (private, _) =>
              exchange shared := talk_of (sharedSecret private peer) in
              let '(clientToServer, serverToClient) := deriveChannelKeys shared payload in
              λ l, (l, Ok (Some (mkSession serverToClient clientToServer (leftover l)), Hello_NodeID hello))
          | _, _ => talk_of (Ok (None, Hello_NodeID hello))
          end
      end
  end.

(** The node's half up to what it signs: its private share, the server's share, the payload. *)
Definition face_challenge (nodeID nodeKey : string) (random : option string) : talk (string * string * option string * string) :=
  unless ((String.length nodeKey =? PrivateKeySize)%nat) "node identity key is invalid";
  exchange (private, public) := talk_of (generateEphemeral random) in
  exchange _ := send "send hello: %w" (encode_hello (mkHello HandshakeVersion nodeID (raw_Encode public))) in
  exchange challenge := receive "read challenge: %w" decode_challenge in
  unless (Chal_Version challenge =? HandshakeVersion) "unsupported challenge version %d";
  exchange nonce := talk_of (need n := raw_Decode (Chal_Nonce challenge) else "decode challenge nonce: %w"; Ok n) in
  unless ((challengeSize <=? String.length nonce)%nat) "challenge nonce is too short";
  exchange serverEphemeral := talk_of (decodeEphemeral (Chal_EphemeralKey challenge)) in
  talk_of (Ok (private, nonce, serverEphemeral, challengePayload nodeID nonce (Some public) serverEphemeral)).

(** The verdict; a connection closed instead of one is reported as such. *)
Definition await_result : talk Enrolled := λ l,
  match Decode decode_enrolled l with
  | (l, Err e) => (l, Err (if is_EOF e then Errorf "server closed the connection without enrolling this node" else Wrapf "read enrollment result: %w" e))
  | (l, Ok enrolled) => (l, Ok enrolled)
  end.

Definition connectToServer (nodeID nodeKey : string) (random : option string) : talk (option session * string) :=
  exchange (private, nonce, serverEphemeral, payload) := face_challenge nodeID nodeKey random in
  exchange _ := send "send proof: %w" (encode_proof (mkProof HandshakeVersion nodeID (raw_Encode (ed25519_Sign nodeKey payload)))) in
  exchange enrolled := await_result in
  unless (Enr_Accepted enrolled) "server refused enrollment: %s";
  unless (negb (bool_decide (Enr_ServerKeyID enrolled = ""))) "server did not name its signing key";
  match serverEphemeral with
  | None => talk_of (Ok (None, Enr_ServerKeyID enrolled))
  | Some peer =>
      exchange shared := talk_of (sharedSecret private peer) in
      let '(clientToServer, serverToClient) := deriveChannelKeys shared payload in
      λ l, (l, Ok (Some (mkSession clientToServer serverToClient (leftover l)), Enr_ServerKeyID enrolled))
  end.

(** ** What the two ends do with an enrolment (listen.go) *)

(** What is left of the connection: the reader's buffers are gone. *)
Definition after_handshake (l : Line) : Conn := (line_conn l) <| conn_in := foldr String.append "" (segments (line_reader l)) |>.

Inductive Stream := Encrypted (c : secureConn) | InTheClear (c : Conn).

Definition enroll (nodeKeys : gmap string string) (serverKeyID : string) (requireEncryption : bool) (nonce random : option string) (l : Line)
    : result (string * Stream) :=
  match acceptNode nodeKeys serverKeyID nonce random l with
  | (_, Err e) => Err e
  | (l, Ok (Some s, nodeID)) =>
      let* secure := newSecureConn (after_handshake l) (sendKey s) (receiveKey s) [buffered s] in Ok (nodeID, Encrypted secure)
  | (l, Ok (None, nodeID)) =>
      refuse requireEncryption "node %q enrolled without channel encryption, which this server requires";
      Ok (nodeID, InTheClear (after_handshake l))
  end.

Definition DialServer {V} (keys : gmap string V) (nodeID nodeKey : string) (random : option string) (l : Line) : result Stream :=
  match connectToServer nodeID nodeKey random l with
  | (_, Err e) => Err e
  | (l, Ok (negotiated, serverKeyID)) =>
      refuse (bool_decide (¬ is_Some (keys !! serverKeyID))) "server named untrusted signing key %q";
      match negotiated with
      | None => Ok (InTheClear (after_handshake l))
      | Some s => let* secure := newSecureConn (after_handshake l) (sendKey s) (receiveKey s) [buffered s] in Ok (Encrypted secure)
      end
  end.
End Handshake.

(** ** Who the server is talking to *)

Lemma talk_bind_ok {A B} (m : talk A) (k : A → talk B) l l' b :
  talk_bind m k l = (l', Ok b) → ∃ l1 a, m l = (l1, Ok a) ∧ k a l1 = (l', Ok b).
Proof. unfold talk_bind. destruct (m l) as [l1 [a|]]; [eauto|done]. Qed.

Lemma talk_of_ok {A} (r : result A) l l' a : talk_of r l = (l', Ok a) → l' = l ∧ r = Ok a.
Proof. unfold talk_of. by intros [= -> ->]. Qed.

Lemma guard_ok (b : bool) e u : (if b then Ok tt else Err e) = Ok u → b = true.
Proof. by destruct b. Qed.

(** One exchange of a successful handshake after the other. *)
Ltac exchanged H l a Hm :=
  apply talk_bind_ok in H as (l & a & Hm & H).
Ltac decided H :=
  let E := fresh in let u := fresh in let l := fresh in
  apply talk_bind_ok in H as (l & u & E & H); apply talk_of_ok in E as [-> E]; apply guard_ok in E.

Section Agreement.
Context {cipher : SecretCipher} {kdf : KeyDerivation} {raw : RawBase64} {att : Attest} {signer : Signer} {codec : HandshakeCodec}.
Context {laws : SecretCipherLaws cipher signer}.
Context (payload_bytes : ∀ p q, encode_payload p = encode_payload q →
  Pay_Nonce p = Pay_Nonce q ∧ Pay_NodeEphemeral p = Pay_NodeEphemeral q ∧ Pay_ServerEphemeral p = Pay_ServerEphemeral q).

Lemma decodeEphemeral_size encoded share : decodeEphemeral encoded = Ok (Some share) → String.length share = 32%nat.
Proof.
  unfold decodeEphemeral. case_bool_decide; [done|]. destruct (raw_Decode encoded); [|done].
  destruct (negb _) eqn:E; [done|]. intros [= ->]. by apply negb_false_iff, Nat.eqb_eq in E.
Qed.

Lemma generateEphemeral_ok random private public :
  generateEphemeral random = Ok (private, public) → random = Some private ∧ X25519 private Basepoint = Some public.
Proof.
  unfold generateEphemeral. destruct random as [p|]; [|done]. destruct (X25519 p Basepoint) eqn:E; [|done]. by intros [= <- <-].
Qed.

Lemma sharedSecret_ok private peer shared : sharedSecret private peer = Ok shared → X25519 private peer = Some shared.
Proof. unfold sharedSecret. do 2 (destruct (negb _); [done|]). destruct (X25519 _ _); [|done]. by intros [= <-]. Qed.

Lemma challenge_node_ok serverKeyID nonce random l l' hello n peer share :
  challenge_node serverKeyID nonce random l = (l', Ok (hello, n, peer, share)) →
  nonce = Some n ∧
  match peer with
  | None => share = None
  | Some p => String.length p = 32%nat ∧ ∃ private public, share = Some (private, public) ∧ X25519 private Basepoint = Some public
  end.
Proof.
  unfold challenge_node. intros H. exchanged H l1 h Hh. decided H. decided H.
  exchanged H l2 p Hp. apply talk_of_ok in Hp as [-> Hp]. exchanged H l3 n' Hn. apply talk_of_ok in Hn as [-> Hn].
  destruct nonce as [n0|]; [|done]. injection Hn as <-. exchanged H l4 s Hs. apply talk_of_ok in Hs as [-> Hs].
  exchanged H l5 u Hu. apply talk_of_ok in H as [-> H]. injection H as -> -> -> ->. split; [done|].
  destruct peer as [p|]; [|by injection Hs as <-]. split; [by eapply decodeEphemeral_size|].
  destruct (generateEphemeral random) as [[private public]|] eqn:Hg; [|done]. injection Hs as <-.
  apply generateEphemeral_ok in Hg as [_ Hg]. eauto.
Qed.

Lemma reject_fails {A} reason l l' (a : A) : reject reason l ≠ (l', Ok a).
Proof. unfold reject. by destruct (send _ _ l). Qed.

(** The text this handshake asks to be signed, and the signature that came for it. *)
Definition presented (serverKeyID : string) (nonce random : option string) (l : Line) : option (string * string) :=
  match challenge_node serverKeyID nonce random l with
  | (l, Ok (hello, nonce, nodeEphemeral, share)) =>
      match receive "read proof: %w" decode_proof l with
      | (_, Ok proof) =>
          pair (challengePayload (Hello_NodeID hello) nonce nodeEphemeral (snd <$> share)) <$> raw_Decode (Proof_Signature proof)
      | _ => None
      end
  | _ => None
  end.

(** What an accepted node has proved, and the session that follows. *)
Lemma acceptNode_ok nodeKeys serverKeyID nonce random l l' s id :
  acceptNode nodeKeys serverKeyID nonce random l = (l', Ok (s, id)) →
  ∃ publicKey signature n peer share, nonce = Some n ∧ nodeKeys !! id = Some publicKey ∧
    let payload := challengePayload id n peer (snd <$> share) in
    presented serverKeyID nonce random l = Some (payload, signature) ∧
    ed25519_Verify publicKey payload signature = true ∧
    match peer with
    | None => share = None ∧ s = None
    | Some p => String.length p = 32%nat ∧ ∃ private public shared, share = Some (private, public) ∧ X25519 private Basepoint = Some public ∧
        X25519 private p = Some shared ∧ ∃ ss, s = Some ss ∧ (receiveKey ss, sendKey ss) = deriveChannelKeys shared payload
    end.
Proof.
  unfold acceptNode, presented. intros H. exchanged H l1 x Hc. destruct x as [[[hello n] peer] share]. rewrite Hc.
  apply challenge_node_ok in Hc as [-> Hshare]. exchanged H l2 proof Hproof. rewrite Hproof. destruct (Proof_Version _ =? _); [|by apply reject_fails in H].
  destruct (bool_decide _); [|by apply reject_fails in H]. destruct (nodeKeys !! _) as [publicKey|] eqn:Hk; [|by apply reject_fails in H].
  destruct (String.length publicKey =? _)%nat; [|by apply reject_fails in H]. destruct (raw_Decode _) as [signature|]; [|by apply reject_fails in H].
  destruct (ed25519_Verify _ _ _) eqn:Hv; [|by apply reject_fails in H]. exchanged H l3 u Hsend.
  destruct peer as [p|].
  - destruct Hshare as (Hp & private & public & -> & Hx). exchanged H l4 shared Hs. apply talk_of_ok in Hs as [-> Hs]. apply sharedSecret_ok in Hs.
    destruct (deriveChannelKeys _ _) as [c2s s2c] eqn:Hd. injection H as <- <- <-.
    exists publicKey, signature, n, (Some p), (Some (private, public)). split_and!; [done..|]. exists private, public, shared. split_and!; [done..|].
    eexists. split; [done|]. by rewrite Hd.
  - subst share. apply talk_of_ok in H as [-> H]. injection H as -> <-. by exists publicKey, signature, n, None, None.
Qed.

Lemma face_challenge_ok nodeID nodeKey random l l' private nonce se payload :
  face_challenge nodeID nodeKey random l = (l', Ok (private, nonce, se, payload)) →
  ∃ public, X25519 private Basepoint = Some public ∧ payload = challengePayload nodeID nonce (Some public) se.
Proof.
  unfold face_challenge. intros H. decided H. exchanged H l1 x Hg. destruct x as [priv public]. apply talk_of_ok in Hg as [-> Hg].
  apply generateEphemeral_ok in Hg as [_ Hg]. exchanged H l2 u Hu. exchanged H l3 chal Hc. decided H. exchanged H l4 n Hn.
  apply talk_of_ok in Hn as [-> _]. decided H. exchanged H l5 se' Hse. apply talk_of_ok in Hse as [-> _]. apply talk_of_ok in H as [_ H].
  injection H as -> -> -> <-. by exists public.
Qed.

(** What one node signed in its handshakes: each with its name, its random bytes and the
    line it talked on. *)
Abbreviation run := (string * option string * Line)%type.
Definition faced (nodeKey : string) (r : run) : result (string * string * option string * string) :=
  (face_challenge r.1.1 nodeKey r.1.2 r.2).2.
Definition signed_payloads (nodeKey : string) (runs : list run) : list string :=
  omap (λ r, match faced nodeKey r with Ok (_, _, _, payload) => Some payload | Err _ => None end) runs.

(** C15: an enrolled node is who it says, and the two ends share their keys.  When the server
    accepts a connection as node [id], either the signature it was sent verifies with
    that node's key for this handshake's own text although the node never signed it, or the node itself took part: in
    one of its handshakes it answered this very nonce; the session is encrypted, whatever
    happened on the way (the node's share cannot be stripped); and if that handshake ended
    well for the node, each end sends with the key the other receives with. *)
Theorem enrolment_agreement nodeKeys serverKeyID nonce random l l' s id nodeKey (runs : list run)
    (Haccept : acceptNode nodeKeys serverKeyID nonce random l = (l', Ok (s, id)))
    (Hkey : nodeKeys !! id = Some (ed25519_Public nodeKey)) :
  (∃ payload signature, presented serverKeyID nonce random l = Some (payload, signature) ∧
    ed25519_Verify (ed25519_Public nodeKey) payload signature = true ∧ payload ∉ signed_payloads nodeKey runs) ∨
  ∃ r n private se payload ss, r ∈ runs ∧ nonce = Some n ∧ faced nodeKey r = Ok (private, n, se, payload) ∧ s = Some ss ∧
    ∀ l2 s' keyID, connectToServer r.1.1 nodeKey r.1.2 r.2 = (l2, Ok (s', keyID)) →
      ∃ ss', s' = Some ss' ∧ sendKey ss = receiveKey ss' ∧ receiveKey ss = sendKey ss'.
Proof.
  destruct (acceptNode_ok _ _ _ _ _ _ _ _ Haccept) as (publicKey & signature & n & peer & share & Hn & Hk & Hshown & Hv & Hs).
  rewrite Hk in Hkey. injection Hkey as ->. set (payload := challengePayload id n peer (snd <$> share)) in *.
  destruct (decide (payload ∈ signed_payloads nodeKey runs)) as [Hin|Hnot]; [right|left; eauto].
  unfold signed_payloads in Hin. apply list_elem_of_omap in Hin as (r & Hr & Hf). destruct (faced nodeKey r) as [[[[private' n'] se] p']|] eqn:Ef; [|done].
  injection Hf as ->. unfold faced in Ef. destruct (face_challenge r.1.1 nodeKey r.1.2 r.2) as [lf rf] eqn:Eface. cbn in Ef. subst rf.
  destruct (face_challenge_ok _ _ _ _ _ _ _ _ _ Eface) as (public' & Hx' & Hp'). unfold payload, challengePayload in Hp'.
  apply payload_bytes in Hp' as (E1 & E2 & E3). cbn in E1, E2, E3. subst n'.
  pose proof (x25519_size _ _ _ Hx') as Hsize'. destruct peer as [p|]; [|by subst public']. cbn in E2. subst p.
  destruct Hs as (_ & private & public & shared & -> & Hx & Hshared & ss & -> & Hkeys). cbn in E3.
  pose proof (x25519_size _ _ _ Hx) as Hsize. destruct se as [se|]; [|by subst public]. cbn in E3. subst se.
  exists r, n, private', (Some public), payload, ss. split; [done|]. split; [done|]. split; [unfold faced; by rewrite Eface|]. split; [done|].
  intros l2 s' keyID Hconn. unfold connectToServer in Hconn. exchanged Hconn l3 x Hface. rewrite Eface in Hface. injection Hface as <- <-.
  exchanged Hconn l4 u Hu. exchanged Hconn l5 e He. decided Hconn. decided Hconn. exchanged Hconn l6 shared' Hs'.
  apply talk_of_ok in Hs' as [-> Hs']. apply sharedSecret_ok in Hs'. rewrite <-(x25519_agrees _ _ _ _ Hx Hx'), Hshared in Hs'. injection Hs' as <-.
  rewrite <-Hkeys in Hconn. injection Hconn as <- <- <-. eexists. split; [done|]. done.
Qed.
End Agreement.

(** ** The texts of the messages *)

Inductive Message := MHello (h : Hello) | MChallenge (c : Challenge) | MProof (p : Proof_) | MEnrolled (e : Enrolled).
Definition encode_message {codec : HandshakeCodec} (m : Message) : string :=
  match m with MHello h => encode_hello h | MChallenge c => encode_challenge c | MProof p => encode_proof p | MEnrolled e => encode_enrolled e end.

(** An object ends with its closing brace, and JSON keeps ASCII text as it is. *)
Class HandshakeLaws (codec : HandshakeCodec) : Prop := {
  handshake_scanner :: ScannerLaws handshake_values;
  message_delimited : ∀ m ws, blank_start ws → delimited (ws +:+ encode_message m);
  decode_encode_hello : ∀ h ws, blank_start ws → ascii_text (Hello_NodeID h) = true → ascii_text (Hello_EphemeralKey h) = true →
    decode_hello (ws +:+ encode_hello h) = Some h;
  decode_encode_challenge : ∀ c ws, blank_start ws → ascii_text (Chal_Nonce c) = true → ascii_text (Chal_ServerKey c) = true →
    ascii_text (Chal_EphemeralKey c) = true → decode_challenge (ws +:+ encode_challenge c) = Some c;
  decode_encode_proof : ∀ p ws, blank_start ws → ascii_text (Proof_NodeID p) = true → ascii_text (Proof_Signature p) = true →
    decode_proof (ws +:+ encode_proof p) = Some p;
  decode_encode_enrolled : ∀ e ws, blank_start ws → ascii_text (Enr_Reason e) = true → ascii_text (Enr_ServerKeyID e) = true →
    decode_enrolled (ws +:+ encode_enrolled e) = Some e }.

Class RawBase64Laws (raw : RawBase64) : Prop := {
  raw_round : ∀ s, raw_Decode (raw_Encode s) = Some s;
  raw_empty : ∀ s, raw_Encode s = "" → s = "";
  raw_ascii : ∀ s, ascii_text (raw_Encode s) = true }.

(** ** Two honest ends *)

Section Honest.
Context {cipher : SecretCipher} {kdf : KeyDerivation} {raw : RawBase64} {att : Attest} {signer : Signer} {codec : HandshakeCodec}.
Context {laws : SecretCipherLaws cipher signer} {rlaws : RawBase64Laws raw} {slaws : SignerLaws att signer} {hlaws : HandshakeLaws codec}.
Context (nodeID nodeKey serverKeyID nonce np ns npub spub shared : string) (nodeKeys : gmap string string).

Definition payload : string := challengePayload nodeID nonce (Some npub) (Some spub).
Definition hello_text : string := encode_hello (mkHello HandshakeVersion nodeID (raw_Encode npub)) +:+ eol.
Definition challenge_text : string := encode_challenge (mkChallenge HandshakeVersion (raw_Encode nonce) serverKeyID (raw_Encode spub)) +:+ eol.
Definition proof_text : string := encode_proof (mkProof HandshakeVersion nodeID (raw_Encode (ed25519_Sign nodeKey payload))) +:+ eol.
Definition enrolled_text : string := encode_enrolled (mkEnrolled HandshakeVersion true "" serverKeyID) +:+ eol.

(** A genuine key of the right size, names JSON keeps, shares of the two ephemeral keys. *)
Record honest : Prop := mkHonest {
  honest_genuine : genuine_key nodeKey; honest_key : String.length nodeKey = PrivateKeySize; honest_enrolled : nodeKeys !! nodeID = Some (ed25519_Public nodeKey);
  honest_node : nodeID ≠ "" ∧ ascii_text nodeID = true; honest_server : serverKeyID ≠ "" ∧ ascii_text serverKeyID = true;
  honest_nonce : String.length nonce = challengeSize; honest_privates : String.length np = 32%nat ∧ String.length ns = 32%nat;
  honest_npub : X25519 np Basepoint = Some npub; honest_spub : X25519 ns Basepoint = Some spub; honest_shared : X25519 np spub = Some shared }.

Lemma decodeEphemeral_encode share : String.length share = 32%nat → decodeEphemeral (raw_Encode share) = Ok (Some share).
Proof.
  intros H. unfold decodeEphemeral. case_bool_decide as E; [by apply raw_empty in E as ->|]. by rewrite raw_round, H.
Qed.

(** The server's half, whatever segments the node's messages come in. *)
Lemma server_accepts l later :
  honest → wf_reader (line_reader l) → conn_faults (line_conn l) = [] → unread (line_reader l) = hello_text +:+ (proof_text +:+ later) →
  ∃ l', acceptNode nodeKeys serverKeyID (Some nonce) (Some ns) l =
      (l', Ok (Some (mkSession (deriveChannelKeys shared payload).2 (deriveChannelKeys shared payload).1 (leftover l')), nodeID)) ∧
    line_conn l' = (line_conn l) <| conn_out := conn_out (line_conn l) +:+ (challenge_text +:+ enrolled_text) |> ∧
    unread (line_reader l') = eol +:+ later.
Proof.
  intros [Hgenuine Hkey Henr [Hid Hascii] [Hsid Hsascii] Hnonce [Hnp Hns] Hnpub Hspub Hshared] Hwf Hf Hu.
  assert (String.length npub = 32%nat) as Hl1 by by eapply x25519_size. assert (String.length spub = 32%nat) as Hl2 by by eapply x25519_size.
  unfold acceptNode, challenge_node, talk_bind at 1 2.
  destruct (receive_ok decode_hello "read hello: %w" l ("" +:+ encode_message (MHello (mkHello HandshakeVersion nodeID (raw_Encode npub))))
    (eol +:+ (proof_text +:+ later)) (mkHello HandshakeVersion nodeID (raw_Encode npub))) as (r1 & -> & Hu1 & Hwf1);
    [done|apply message_delimited; by left|rewrite Hu; unfold hello_text; by rewrite append_assoc|apply decode_encode_hello; [by left|done|apply raw_ascii]|].
  unfold talk_bind, talk_of, talk_of. cbn [Hello_Version Hello_NodeID Hello_EphemeralKey]. rewrite Z.eqb_refl, bool_decide_false by done. cbn [negb].
  rewrite decodeEphemeral_encode by done. unfold generateEphemeral. rewrite Hspub. cbn [rbind].
  rewrite send_ok by (simpl_set; done). simpl_set.
  match goal with |- context [receive ?msg decode_proof ?l1] => set (l2 := l1) end.
  destruct (receive_ok decode_proof "read proof: %w" l2 (eol +:+ encode_message (MProof (mkProof HandshakeVersion nodeID (raw_Encode (ed25519_Sign nodeKey payload)))))
    (eol +:+ later) (mkProof HandshakeVersion nodeID (raw_Encode (ed25519_Sign nodeKey payload)))) as (r3 & -> & Hu3 & Hwf3);
    [done|apply message_delimited; by right|simpl_set; cbn; rewrite Hu1; unfold proof_text; by rewrite !append_assoc|apply decode_encode_proof; [by right|done|apply raw_ascii]|].
  cbn [Proof_Version Proof_NodeID Proof_Signature Hello_NodeID]. rewrite Z.eqb_refl, bool_decide_true, Henr, public_size, Nat.eqb_refl, raw_round by done.
  change (challengePayload nodeID nonce (Some npub) (snd <$> Some (ns, spub))) with payload. rewrite sign_verifies by done.
  rewrite send_ok by done. unfold sharedSecret. rewrite Hns, Hl1, (x25519_agrees _ _ _ _ Hspub Hnpub), Hshared. cbn [Nat.eqb negb].
  destruct (deriveChannelKeys shared payload) as [c2s s2c]. eexists. split; [reflexivity|]. split; [|done].
  unfold l2. simpl_set. destruct (line_conn l) as [i o f]. cbn. unfold challenge_text, enrolled_text. by rewrite !append_assoc.
Qed.

(** The node's half. *)
Lemma node_connects l later :
  honest → wf_reader (line_reader l) → conn_faults (line_conn l) = [] → unread (line_reader l) = challenge_text +:+ (enrolled_text +:+ later) →
  ∃ l', connectToServer nodeID nodeKey (Some np) l =
      (l', Ok (Some (mkSession (deriveChannelKeys shared payload).1 (deriveChannelKeys shared payload).2 (leftover l')), serverKeyID)) ∧
    line_conn l' = (line_conn l) <| conn_out := conn_out (line_conn l) +:+ (hello_text +:+ proof_text) |> ∧
    unread (line_reader l') = eol +:+ later.
Proof.
  intros [Hgenuine Hkey Henr [Hid Hascii] [Hsid Hsascii] Hnonce [Hnp Hns] Hnpub Hspub Hshared] Hwf Hf Hu.
  assert (String.length npub = 32%nat) as Hl1 by by eapply x25519_size. assert (String.length spub = 32%nat) as Hl2 by by eapply x25519_size.
  unfold connectToServer, face_challenge, generateEphemeral, talk_bind, talk_of. rewrite Hkey, Nat.eqb_refl, Hnpub. cbn [rbind].
  rewrite send_ok by done. match goal with |- context [receive ?msg decode_challenge ?l1] => set (l2 := l1) end.
  destruct (receive_ok decode_challenge "read challenge: %w" l2 ("" +:+ encode_message (MChallenge (mkChallenge HandshakeVersion (raw_Encode nonce) serverKeyID (raw_Encode spub))))
    (eol +:+ (enrolled_text +:+ later)) (mkChallenge HandshakeVersion (raw_Encode nonce) serverKeyID (raw_Encode spub))) as (r1 & -> & Hu1 & Hwf1);
    [done|apply message_delimited; by left|unfold l2; simpl_set; rewrite Hu; unfold challenge_text; by rewrite append_assoc|
     apply decode_encode_challenge; [by left|apply raw_ascii|done|apply raw_ascii]|].
  cbn [Chal_Version Chal_Nonce Chal_EphemeralKey]. rewrite Z.eqb_refl, raw_round, Hnonce, decodeEphemeral_encode by done. cbn [Nat.leb challengeSize].
  change (challengePayload nodeID nonce (Some npub) (Some spub)) with payload. rewrite send_ok by done.
  unfold await_result. match goal with |- context [Decode decode_enrolled ?l1] => set (l3 := l1) end.
  destruct (Decode_ok decode_enrolled l3 (eol +:+ encode_message (MEnrolled (mkEnrolled HandshakeVersion true "" serverKeyID)))
    (eol +:+ later) (mkEnrolled HandshakeVersion true "" serverKeyID)) as (r4 & -> & Hu4 & Hwf4);
    [done|apply message_delimited; by right|simpl_set; cbn; rewrite Hu1; unfold enrolled_text; by rewrite !append_assoc|apply decode_encode_enrolled; [by right|done|done]|].
  cbn [Enr_Accepted Enr_ServerKeyID]. rewrite bool_decide_false by done. cbn [negb]. unfold sharedSecret. rewrite Hnp, Hl2, Hshared. cbn [Nat.eqb negb].
  destruct (deriveChannelKeys shared payload) as [c2s s2c]. eexists. split; [reflexivity|]. split; [|done].
  unfold l3, l2. simpl_set. destruct (line_conn l) as [i o f]. cbn. unfold hello_text, proof_text. by rewrite !append_assoc.
Qed.

(** Enrolment ends well between honest ends.  Whatever segments the network delivers the
    messages in and whatever follows them, the server accepts the node under its name, the
    node learns the server's key id, each end sends with the key the other receives with,
    and what each wrote is what the other was supposed to read. *)
Theorem handshake_completes segs_s segs_n later_s later_n
    (Hh : honest)
    (Hs : foldr String.append "" segs_s = hello_text +:+ (proof_text +:+ later_n))
    (Hn : foldr String.append "" segs_n = challenge_text +:+ (enrolled_text +:+ later_s)) :
  ∃ ls ln ss sn, acceptNode nodeKeys serverKeyID (Some nonce) (Some ns) (mkLine (NewReader segs_s) (mkConn "" "" [])) = (ls, Ok (Some ss, nodeID)) ∧
    connectToServer nodeID nodeKey (Some np) (mkLine (NewReader segs_n) (mkConn "" "" [])) = (ln, Ok (Some sn, serverKeyID)) ∧
    sendKey ss = receiveKey sn ∧ receiveKey ss = sendKey sn ∧
    conn_out (line_conn ls) = challenge_text +:+ enrolled_text ∧ conn_out (line_conn ln) = hello_text +:+ proof_text.
Proof.
  destruct (server_accepts (mkLine (NewReader segs_s) (mkConn "" "" [])) later_n Hh) as (ls & E1 & Hc1 & _); [by unfold wf_reader|done|done|].
  destruct (node_connects (mkLine (NewReader segs_n) (mkConn "" "" [])) later_s Hh) as (ln & E2 & Hc2 & _); [by unfold wf_reader|done|done|].
  eexists ls, ln, _, _. split; [exact E1|]. split; [exact E2|]. by rewrite Hc1, Hc2.
Qed.
End Honest.

(** ** The first words after the handshake *)

(** A segment the decoder takes in whole and that does not start at the end of a line. *)
Definition tame (s : string) : Prop := (String.length s <= minRead)%nat ∧ ∀ s', s ≠ String newline s'.
Definition calm (r : Reader) : Prop := wf_reader r ∧ bufio_buf r = "" ∧ Forall tame (segments r).

Lemma drop_all n s : (String.length s <= n)%nat → drop_string n s = "".
Proof. intros H. apply empty_string_length. rewrite length_drop_string. lia. Qed.

Lemma bufio_Read_calm n r :
  (minRead <= n)%nat → bufio_buf r = "" → Forall tame (segments r) → let r' := (bufio_Read n r).1 in bufio_buf r' = "" ∧ Forall tame (segments r').
Proof.
  unfold minRead. intros Hn Hb Hall. unfold bufio_Read. rewrite bool_decide_true by done. destruct (segments r) as [|x segs] eqn:Es.
  { destruct (_ <=? _)%nat; cbn [conn_Read fst]; by rewrite ?Es. }
  apply Forall_cons in Hall as [[Hx Hnl] Hall]. unfold minRead in Hx. unfold conn_Read, bufio_size. destruct (Nat.leb_spec 4096 n).
  - rewrite (proj2 (Nat.leb_le _ _)) by lia. cbn [fst]. by simpl_set.
  - rewrite (proj2 (Nat.leb_le _ _)) by lia. cbn [fst]. simpl_set. split; [apply drop_all; lia|done].
Qed.

Lemma refill_calm r : calm r → calm (refill r).1.
Proof.
  intros (Hwf & Hb & Hall). pose proof Hwf as Hwf0. destruct (refill r) as [r' more] eqn:Hr. cbn [fst]. split.
  - destruct more; [by apply refill_more in Hr as (? & _)|]. revert Hr. unfold refill, wf_reader in *.
    set (cap := if (_ <? _)%nat then _ else _). destruct (bufio_Read _ _) as [r1 [s|]] eqn:Hread; [done|]. intros [= <-].
    unfold bufio_Read in Hread. revert Hread. simpl_set. rewrite bool_decide_true by done. intros Hread.
    assert (r1 = r <| dec_cap := cap |>) as ->.
    { destruct (_ <=? _)%nat in Hread; [destruct (conn_Read _ _) as [[]|] in Hread|destruct (conn_Read bufio_size _) as [[]|] in Hread]; by injection Hread. }
    simpl_set. unfold cap, minRead. destruct (_ <? _)%nat; lia.
  - revert Hr. unfold refill. set (cap := if (_ <? _)%nat then _ else _). intros Hr.
    destruct (bufio_Read_calm (cap - String.length (dec_buf r)) (r <| dec_cap := cap |>)) as [H1 H2]; [|done|done|].
    { unfold cap, minRead in *. unfold wf_reader in Hwf0. destruct (Nat.ltb_spec (dec_cap r - String.length (dec_buf r)) 512); lia. }
    destruct (bufio_Read _ _) as [r1 [s|]]; injection Hr as <- _; cbn [fst] in *; by simpl_set.
Qed.

Section Calm.
Context {cipher : SecretCipher} {kdf : KeyDerivation} {raw : RawBase64} {att : Attest} {signer : Signer} {codec : HandshakeCodec} {hlaws : HandshakeLaws codec}.

Lemma read_value_calm fuel r : calm r → calm (read_value fuel r).1.
Proof.
  assert (∀ r value rest, calm r → next_value (dec_buf r) = Whole value rest → calm (r <| dec_buf := rest |>)) as Hwhole.
  { intros r0 value rest (Hwf & Hb & Hall) Hv. apply value_rest in Hv. split; [|done]. unfold wf_reader in *. simpl_set.
    rewrite Hv, length_append in Hwf. lia. }
  revert r. induction fuel as [|fuel IH]; intros r Hc; cbn [read_value]; destruct (next_value (dec_buf r)) eqn:Hv; try done; [by eapply Hwhole| |by eapply Hwhole].
  pose proof (refill_calm r Hc) as Hc1. destruct (refill r) as [r1 []]; cbn [fst] in Hc1; [by apply IH|].
  destruct (next_value (dec_buf r1 +:+ " ")); try done. destruct Hc1 as (Hwf & Hb & Hall). split; [|done]. unfold wf_reader. simpl_set. cbn. lia.
Qed.

(** A part of a handshake that leaves a calm reader calm. *)
Definition keeps_calm {A} (m : talk A) : Prop := ∀ l, calm (line_reader l) → calm (line_reader (m l).1).

Lemma calm_bind {A B} (m : talk A) (k : A → talk B) : keeps_calm m → (∀ a, keeps_calm (k a)) → keeps_calm (talk_bind m k).
Proof. intros Hm Hk l Hl. unfold talk_bind. specialize (Hm l Hl). destruct (m l) as [l1 [a|]]; [by apply Hk|done]. Qed.
Lemma calm_of {A} (r : result A) : keeps_calm (talk_of r).
Proof. by intros l. Qed.
Lemma calm_send message value : keeps_calm (send message value).
Proof. intros l Hl. unfold send. by destruct (conn_Write _ _). Qed.
Lemma calm_Decode {A} (decode : string → option A) : keeps_calm (Decode decode).
Proof.
  intros l Hl. unfold Decode. pose proof (read_value_calm (read_fuel (line_reader l)) (line_reader l) Hl) as H.
  by destruct (read_value _ _) as [r1 res].
Qed.
Lemma calm_receive {A} message (decode : string → option A) : keeps_calm (receive message decode).
Proof. intros l Hl. unfold receive. pose proof (calm_Decode decode l Hl) as H. by destruct (Decode decode l). Qed.
Lemma calm_await_result : keeps_calm await_result.
Proof. intros l Hl. unfold await_result. pose proof (calm_Decode decode_enrolled l Hl) as H. by destruct (Decode decode_enrolled l) as [l1 []]. Qed.

Ltac calm_steps :=
  repeat match goal with
  | |- forall _, _ => intros ?
  | |- keeps_calm (talk_of _) => apply calm_of
  | |- keeps_calm (send _ _) => apply calm_send
  | |- keeps_calm (receive _ _) => apply calm_receive
  | |- keeps_calm await_result => apply calm_await_result
  | |- keeps_calm (talk_bind _ _) => apply calm_bind
  | |- keeps_calm (λ l, (l, _)) => by intros ? ?
  | |- keeps_calm (match ?x with _ => _ end) => destruct x
  end.

Lemma calm_connectToServer nodeID nodeKey random : keeps_calm (connectToServer nodeID nodeKey random).
Proof.
  unfold connectToServer, face_challenge. calm_steps.
Qed.
End Calm.

Lemma frame_start {cipher : SecretCipher} {alaws : AeadLaws cipher} key seq chunks :
  Forall fits chunks → frames key seq chunks = "" ∨ ∃ rest, frames key seq chunks = String zero_byte rest.
Proof.
  destruct chunks as [|chunk chunks]; [by left|]. intros [[_ Hfit] _]%Forall_cons. right. cbn [frames]. unfold frame.
  set (sealed := aead_Seal _ _ _ _). assert (0 <= slen sealed < 2 ^ 24) as Hlen.
  { unfold sealed. rewrite aead_size. split; [unfold slen, Overhead; lia|]. assert (maxRecordSize < 2 ^ 24) by (vm_compute; reflexivity). lia. }
  cbn [be_bytes]. change (8 * Z.of_nat 3) with 24. rewrite Z.shiftr_div_pow2, Z.div_small by lia. by eexists.
Qed.

(** What a calm reader holds after the last message: the rest of the line and a beginning
    of the encrypted stream, which its first byte keeps from being trimmed. *)
Lemma calm_leftover l wire :
  calm (line_reader l) → unread (line_reader l) = eol +:+ wire → (wire = "" ∨ ∃ rest, wire = String zero_byte rest) →
  leftover l +:+ foldr String.append "" (segments (line_reader l)) = wire.
Proof.
  intros (_ & Hb & Hall) Hu Hz. unfold unread in Hu. rewrite Hb in Hu. unfold leftover. set (r := line_reader l) in *.
  change ("" +:+ foldr String.append "" (segments r)) with (foldr String.append "" (segments r)) in Hu.
  destruct (dec_buf r) as [|a d].
  { exfalso. change ("" +:+ foldr String.append "" (segments r)) with (foldr String.append "" (segments r)) in Hu. clear Hb.
    induction (segments r) as [|x segs IH]; [done|]. apply Forall_cons in Hall as [[_ Hx] Hall]. destruct x as [|b x]; [by apply IH|].
    injection Hu as -> _. by apply (Hx x). }
  injection Hu as -> Hd. cbn [trim_newlines]. rewrite bool_decide_true by done. cbn [orb].
  assert (trim_newlines d = d) as ->; [|done]. destruct d as [|b d]; [done|]. destruct Hz as [->|[rest ->]]; [done|]. injection Hd as -> _. done.
Qed.

Section Composition.
Context {cipher : SecretCipher} {kdf : KeyDerivation} {raw : RawBase64} {att : Attest} {signer : Signer} {codec : HandshakeCodec}.
Context {laws : SecretCipherLaws cipher signer} {alaws : AeadLaws cipher} {rlaws : RawBase64Laws raw} {slaws : SignerLaws att signer} {hlaws : HandshakeLaws codec}.

(** C17: the server's first words reach the node.  Once the server has enrolled an honest node
    over an encrypted channel, whatever it writes before the node has even read its
    acceptance, when the bytes reach the node in segments of at most 512 bytes none of which
    starts with a newline, the node opens a channel over what its handshake reader left and
    reads exactly what was written.  Other segments can break the channel or lose its first
    record: see [late_newline_breaks_channel] and [burst_loses_first_record]. *)
Theorem enrolled_stream_delivers {V} nodeID nodeKey serverKeyID nonce np ns npub spub shared nodeKeys (keys : gmap string V)
    require segs_s segs_n later cs writes cs' sizes
    (Hh : honest nodeID nodeKey serverKeyID nonce np ns npub spub shared nodeKeys) (Htrust : is_Some (keys !! serverKeyID))
    (Hs : foldr String.append "" segs_s = hello_text nodeID npub +:+ (proof_text nodeID nodeKey nonce npub spub +:+ later))
    (Henroll : enroll nodeKeys serverKeyID require (Some nonce) (Some ns) (mkLine (NewReader segs_s) (mkConn "" "" [])) = Ok (nodeID, Encrypted cs))
    (Hsent : sends cs writes = Some cs') (Hn : foldr String.append "" segs_n = conn_out (sc_conn cs')) (Htame : Forall tame segs_n)
    (Hsizes : Forall (λ n, 0 < n)%nat sizes) :
  let data := foldr String.append "" writes in
  ∃ d, DialServer keys nodeID nodeKey (Some np) (mkLine (NewReader segs_n) (mkConn "" "" [])) = Ok (Encrypted d) ∧
    ((String.length data <= length sizes)%nat → (reads d sizes).2 = data).
Proof.
  cbv zeta. destruct (server_accepts nodeID nodeKey serverKeyID nonce np ns npub spub shared nodeKeys (mkLine (NewReader segs_s) (mkConn "" "" [])) later Hh)
    as (ls & E1 & Hc1 & _); [by unfold wf_reader|done|done|].
  unfold enroll in Henroll. rewrite E1 in Henroll. cbn [sendKey receiveKey buffered] in Henroll.
  set (c2s := (deriveChannelKeys _ _).1) in *. set (s2c := (deriveChannelKeys _ _).2) in *.
  destruct (newSecureConn _ s2c c2s _) as [cs0|] eqn:Hnew; [|done]. injection Henroll as <-. pose proof Hnew as Hcs. apply newSecureConn_ok in Hcs as ->.
  destruct (λ H, sends_ok _ _ 0 _ H Hsent) as (chunks & Hdata & Hfits & Hout); [done|]. cbn [sc_conn sendAEAD] in Hout.
  assert (conn_out (after_handshake ls) = challenge_text serverKeyID nonce spub +:+ enrolled_text serverKeyID) as Eout by (unfold after_handshake; simpl_set; by rewrite Hc1).
  rewrite Eout, append_assoc in Hout. rewrite Hout in Hn.
  destruct (node_connects nodeID nodeKey serverKeyID nonce np ns npub spub shared nodeKeys (mkLine (NewReader segs_n) (mkConn "" "" []))
    (frames s2c 0 chunks) Hh) as (ln & E2 & Hc2 & Hu2); [by unfold wf_reader|done|by rewrite <-Hn|].
  assert (calm (line_reader ln)) as Hcalm.
  { pose proof (calm_connectToServer nodeID nodeKey (Some np) (mkLine (NewReader segs_n) (mkConn "" "" []))) as H. rewrite E2 in H. apply H.
    by unfold calm, wf_reader. }
  unfold DialServer. rewrite E2, bool_decide_false by (intros Hk; by apply Hk). cbn [sendKey receiveKey buffered]. fold c2s s2c.
  unfold newSecureConn in Hnew |- *. destruct (String.length s2c =? KeySize)%nat; [|done]. destruct (String.length c2s =? KeySize)%nat; [|done]. cbn [negb].
  eexists. split; [reflexivity|]. intros Hlen.
  destruct (reads_deliver (mkSecureConn (after_handshake ln) (foldr String.append "" [leftover ln]) c2s s2c 0 0 "") (foldr String.append "" chunks) sizes)
    as (rest & E & Hrest); [|done|].
  { exists 0, chunks. split; [done|]. split; [done|]. split; [|done]. unfold sc_source. cbn [sc_carried sc_conn foldr recvAEAD]. rewrite append_nil.
    unfold after_handshake. simpl_set. apply calm_leftover; [done|done|]. by apply frame_start. }
  rewrite <-Hdata in Hlen |- *. rewrite (Hrest Hlen), append_nil in E. done.
Qed.
End Composition.

(** ** A sample enrolment

    Messages are braces around bits, which is self-delimiting; shares are fixed. *)

Module EnrollSample.
Import WireSample.
#[local] Existing Instances KeySample.sample_signer ChannelSample.channel_cipher ChannelSample.channel_cipher_laws.

(** A signature names its key, not its text. *)
#[local] Instance sample_verifier : Attest :=
  {| base64_Decode s := Some s; ed25519_Verify public message signature := String.eqb signature public; decode_statement _ := Malformed |}.
#[local] Instance sample_identity : Signer :=
  {| base64_Encode s := s; ed25519_Sign key message := String.substring 0 32 key; ed25519_Public key := String.substring 0 32 key;
     ed25519_NewKeyFromSeed seed := seed +:+ seed |}.
#[local] Instance sample_identity_laws : SignerLaws sample_verifier sample_identity.
Proof.
  split; [done|intros key message _; apply String.eqb_refl|].
  intros key H. apply KeySample.substring_length. rewrite H. unfold PrivateKeySize, PublicKeySize. lia.
Qed.
#[local] Instance sample_exchange_laws : SecretCipherLaws ChannelSample.channel_cipher sample_identity.
Proof.
  split; [done|by intros a b c [= <-]|by intros key p _ [= <-]|apply aead_round|].
  exact (@decode_encode_sealed _ _ SecretSample.sample_cipher_laws).
Qed.

(** Two letters for a byte. *)
Definition letter (n : N) : Ascii.ascii := Ascii.ascii_of_N (97 + n).
Fixpoint hex (s : string) : string :=
  match s with "" => "" | String c s => String (letter (Ascii.N_of_ascii c / 16)) (String (letter (Ascii.N_of_ascii c mod 16)) (hex s)) end.
Fixpoint unhex (s : string) : option string :=
  match s with
  | String a (String b s) => String (Ascii.ascii_of_N ((Ascii.N_of_ascii a - 97) * 16 + (Ascii.N_of_ascii b - 97))) <$> unhex s
  | "" => Some ""
  | _ => None
  end.
#[local] Instance sample_raw : RawBase64 := {| raw_Encode := hex; raw_Decode := unhex |}.
#[local] Instance sample_raw_laws : RawBase64Laws sample_raw.
Proof.
  split; cbn [raw_Encode raw_Decode sample_raw].
  - induction s as [|c s IH]; [done|]. cbn [hex unhex]. rewrite IH. cbn. do 2 f_equal. by destruct c as [[] [] [] [] [] [] [] []].
  - by intros [|c s].
  - induction s as [|c s IH]; [done|]. cbn [hex ascii_text]. rewrite IH. by destruct c as [[] [] [] [] [] [] [] []].
Qed.

#[local] Instance sample_messages : HandshakeCodec := {|
  handshake_values := sample_scanner;
  encode_hello h := object (Hello_Version h) [Hello_NodeID h; Hello_EphemeralKey h];
  decode_hello s := match of_object s with Some (v, [a; b]) => Some (mkHello v a b) | _ => None end;
  encode_challenge c := object (Chal_Version c) [Chal_Nonce c; Chal_ServerKey c; Chal_EphemeralKey c];
  decode_challenge s := match of_object s with Some (v, [a; b; c]) => Some (mkChallenge v a b c) | _ => None end;
  encode_proof p := object (Proof_Version p) [Proof_NodeID p; Proof_Signature p];
  decode_proof s := match of_object s with Some (v, [a; b]) => Some (mkProof v a b) | _ => None end;
  encode_enrolled e := object (Enr_Version e) [if Enr_Accepted e then "y" else "n"; Enr_Reason e; Enr_ServerKeyID e];
  decode_enrolled s := match of_object s with Some (v, [a; b; c]) => Some (mkEnrolled v (String.eqb a "y") b c) | _ => None end;
  encode_payload p := object (Pay_Version p) [Pay_NodeID p; Pay_Nonce p; Pay_NodeEphemeral p; Pay_ServerEphemeral p] |}.

Lemma message_object m : ∃ version fields, encode_message m = object version fields.
Proof. destruct m; by do 2 eexists. Qed.
#[local] Instance sample_messages_laws : HandshakeLaws sample_messages.
Proof.
  split.
  - apply sample_scanner_laws.
  - intros m ws Hws. destruct (message_object m) as (version & fields & ->). by apply object_delimited.
  - intros [v a b] ws Hws _ _. cbn -[object of_object]. by rewrite of_object_object.
  - intros [v a b c] ws Hws _ _ _. cbn -[object of_object]. by rewrite of_object_object.
  - intros [v a b] ws Hws _ _. cbn -[object of_object]. by rewrite of_object_object.
  - intros [v [] b c] ws Hws _ _; cbn -[object of_object]; by rewrite of_object_object.
Qed.

Lemma sample_payload_bytes p q : encode_payload p = encode_payload q →
  Pay_Nonce p = Pay_Nonce q ∧ Pay_NodeEphemeral p = Pay_NodeEphemeral q ∧ Pay_ServerEphemeral p = Pay_ServerEphemeral q.
Proof.
  cbn [encode_payload sample_messages]. intros H. pose proof (of_object_object (Pay_Version p) [Pay_NodeID p; Pay_Nonce p; Pay_NodeEphemeral p; Pay_ServerEphemeral p] "") as H1.
  pose proof (of_object_object (Pay_Version q) [Pay_NodeID q; Pay_Nonce q; Pay_NodeEphemeral q; Pay_ServerEphemeral q] "") as H2.
  rewrite H, H2 in H1 by by left. specialize (H1 (or_introl eq_refl)). by injection H1.
Qed.

#[local] Instance sample_kdf : KeyDerivation := λ _ _ info,
  if String.eqb info "a4s node channel v1 client-to-server" then ChannelSample.key1 else ChannelSample.key2.
Definition node_key : string := DispatchSample.node_key.
Definition share : string := SecretSample.key32.
Definition nonce : string := KeySample.key_bytes "z".
Definition np : string := KeySample.key_bytes "p".
Definition ns : string := KeySample.key_bytes "q".
Definition node_keys : gmap string string := {["n1" := ed25519_Public node_key]}.
Lemma sample_honest : honest "n1" node_key "k1" nonce np ns share share share node_keys.
Proof. split; [exists (KeySample.key_bytes "n"); split; reflexivity|..]; vm_compute; repeat split; discriminate. Qed.

(** A text in segments of a given size. *)
Fixpoint cut_up (fuel n : nat) (s : string) : list string :=
  match fuel, s with S fuel, String _ _ => take_string n s :: cut_up fuel n (drop_string n s) | _, _ => [] end.
Definition from_node : string := Eval vm_compute in hello_text "n1" share +:+ proof_text "n1" node_key nonce share share.
Definition to_challenge : string := Eval vm_compute in challenge_text "k1" nonce share.
Definition to_enrolled : string := Eval vm_compute in enrolled_text "k1".
Definition server_line : Line := mkLine (NewReader (cut_up 100 700 from_node)) (mkConn "" "" []).
Definition node_line (segs : list string) : Line := mkLine (NewReader segs) (mkConn "" "" []).

Lemma handshake_completes_witness :
  ∃ ls ln ss sn, acceptNode node_keys "k1" (Some nonce) (Some ns) server_line = (ls, Ok (Some ss, "n1")) ∧
    connectToServer "n1" node_key (Some np) (node_line [to_challenge; to_enrolled]) = (ln, Ok (Some sn, "k1")) ∧
    sendKey ss = receiveKey sn ∧ receiveKey ss = sendKey sn ∧ conn_out (line_conn ls) = to_challenge +:+ to_enrolled ∧ conn_out (line_conn ln) = from_node.
Proof.
  refine (handshake_completes "n1" node_key "k1" nonce np ns share share share node_keys (cut_up 100 700 from_node) [to_challenge; to_enrolled] "" "" sample_honest _ _);
    vm_compute; reflexivity.
Defined.

Definition accepted : Line * result (option session * string) := acceptNode node_keys "k1" (Some nonce) (Some ns) server_line.
Definition accepted_session : session := mkSession ChannelSample.key2 ChannelSample.key1 "".
Definition node_run : string * option string * Line := ("n1", Some np, node_line [to_challenge; to_enrolled]).
Lemma enrolment_agreement_witness :
  (∃ payload signature, presented "k1" (Some nonce) (Some ns) server_line = Some (payload, signature) ∧
    ed25519_Verify (ed25519_Public node_key) payload signature = true ∧ payload ∉ signed_payloads node_key [node_run]) ∨
  ∃ r n private se payload ss, r ∈ [node_run] ∧ Some nonce = Some n ∧ faced node_key r = Ok (private, n, se, payload) ∧ Some accepted_session = Some ss ∧
    ∀ l2 s' keyID, connectToServer r.1.1 node_key r.1.2 r.2 = (l2, Ok (s', keyID)) → ∃ ss', s' = Some ss' ∧ sendKey ss = receiveKey ss' ∧ receiveKey ss = sendKey ss'.
Proof.
  refine (enrolment_agreement sample_payload_bytes node_keys "k1" (Some nonce) (Some ns) server_line accepted.1 (Some accepted_session) "n1" node_key [node_run] _ _);
    vm_compute; reflexivity.
Defined.

(** What the server writes as soon as it has enrolled the node. *)
Definition server_stream : secureConn :=
  Eval vm_compute in match enroll node_keys "k1" true (Some nonce) (Some ns) server_line with Ok (_, Encrypted c) => c | _ => ChannelSample.sender end.
Definition says (writes : list string) : secureConn := default server_stream (sends server_stream writes).
Definition keys : gmap string unit := {["k1" := tt]}.
Definition dialled (segs : list string) : secureConn :=
  match DialServer keys "n1" node_key (Some np) (node_line segs) with Ok (Encrypted c) => c | _ => ChannelSample.sender end.

Definition greeting_segments : list string := cut_up 100 500 (conn_out (sc_conn (says ["pull"]))).
Lemma enrolled_stream_delivers_witness : (reads (dialled greeting_segments) [9; 9; 9; 9]%nat).2 = "pull".
Proof.
  destruct (enrolled_stream_delivers "n1" node_key "k1" nonce np ns share share share node_keys keys true (cut_up 100 700 from_node)
    greeting_segments "" server_stream ["pull"] (says ["pull"]) [9; 9; 9; 9]%nat) as (d & Hd & H).
  - exact sample_honest.
  - eexists. reflexivity.
  - vm_compute. reflexivity.
  - vm_compute. reflexivity.
  - vm_compute. reflexivity.
  - vm_compute. reflexivity.
  - vm_compute. repeat constructor; try (intros ? H; discriminate H).
  - apply (bool_decide_unpack _). vm_compute. exact I.
  - unfold dialled. fold (node_line greeting_segments) in Hd. rewrite Hd. apply H. apply (bool_decide_unpack _). vm_compute. exact I.
Defined.

(** A message ends with its brace, so the newline after it may still be on its way when the
    node starts to read records: it is then taken for the first byte of one. *)
Definition without_newline (s : string) : string := take_string (String.length s - 1) s.
Definition stream_after (s : string) (c : secureConn) : string := drop_string (String.length s) (conn_out (sc_conn c)).
Definition late_newline : list string :=
  [to_challenge; without_newline to_enrolled; eol +:+ stream_after (to_challenge +:+ to_enrolled) (says ["pull"])].
Lemma late_newline_breaks_channel :
  foldr String.append "" late_newline = conn_out (sc_conn (says ["pull"])) ∧
  is_Ok (DialServer keys "n1" node_key (Some np) (node_line late_newline)) ∧ (reads (dialled late_newline) [9; 9; 9; 9]%nat).2 = "".
Proof. vm_compute. repeat split. Qed.

(** What the decoder has not taken out of the buffered reader is lost with it: a first
    record that arrives together with the acceptance is cut off. *)
Definition long_order : string := zeros 4000.
Definition one_burst : list string := [to_challenge; to_enrolled +:+ stream_after (to_challenge +:+ to_enrolled) (says [long_order])].
Lemma burst_loses_first_record :
  foldr String.append "" one_burst = conn_out (sc_conn (says [long_order])) ∧
  is_Ok (DialServer keys "n1" node_key (Some np) (node_line one_burst)) ∧ (reads (dialled one_burst) [4096; 4096]%nat).2 = "".
Proof. vm_compute. repeat split. Qed.
End EnrollSample.
