(* ===== verification/Session.v ===== *)
(** * The action stream of a node (the transport and the serving loop of src/node/remote.go)

    Once a node is enrolled the server sends it signed actions and it answers each with one
    response, as JSON values over the connection.  [StreamTransport.Send] is the server's
    end, [Serve] the node's; what a node does with an action is [Dispatch].  JSON is a
    parameter.  The connections of the program have no [Flush]. *)

From S2P Require Import Prelude Types Text Clone Executor EventLog Provenance Engine Keys Approvals Directory Placement ModelBoundary WorkQueue Supervise Dispatch Secrets Containers Channel Wire.
Open Scope Z_scope.

(** [envelope_id] is the id [json.Unmarshal] finds in the bytes of an envelope, as far as it
    gets with them. *)
Class StreamCodec := {
  stream_values :: JsonScanner;
  encode_signed : SignedAction → string; decode_signed : string → option SignedAction;
  encode_response : DispatchResponse → string; decode_response : string → option DispatchResponse;
  envelope_id : string → string }.

Class StreamLaws (codec : StreamCodec) : Prop := {
  stream_scanner :: ScannerLaws stream_values;
  signed_delimited : ∀ s ws, blank_start ws → delimited (ws +:+ encode_signed s);
  response_delimited : ∀ r ws, blank_start ws → delimited (ws +:+ encode_response r) }.

Section Session.
Context {att : Attest} {signer : Signer} {raw : RawBase64} {envelopes : EnvelopeCodec} {evidences : EvidenceCodec}
  {digest : Digest} {desireds : DesiredCodec} {stream : StreamCodec}.
Context {R L : Type} {runtime : Runtime R} {ledger : Ledger L} (observer : option (Observer R)).
Implicit Types (d : @Dispatcher R L).

(** [StreamTransport.Send]. *)
Definition Send (signed : SignedAction) : talk DispatchResponse :=
  talk_bind (send "write signed action: %w" (encode_signed signed)) (λ _, receive "read dispatch response: %w" decode_response).

(** One round of [Serve]: the action dispatched and the response to it. *)
Definition respond (written : bool) (clock : nat → time) (d : Dispatcher) (signed : SignedAction) : Dispatcher * DispatchResponse :=
  let '(d, r) := Dispatch observer written clock d signed in
  (d, match r with
      | Ok result => mkDispatchResponse (envelope_id (SA_EnvelopeBytes signed)) (Some result) ""
      | Err e => mkDispatchResponse (envelope_id (SA_EnvelopeBytes signed)) None (error_text e)
      end).

(** [Serve]: in round [n] the intent file takes a write when [written n] and the clock reads
    [clocks n]; [None] is a loop that goes on. *)
Fixpoint Serve (fuel : nat) (written : nat → bool) (clocks : nat → nat → time) (n : nat) (d : Dispatcher) (l : Line)
    : option (Line * Dispatcher * result unit) :=
  match fuel with
  | O => None
  | S fuel =>
      match Decode decode_signed l with
      | (l, Err e) => Some (l, d, if is_EOF e then Ok tt else Err (Wrapf "decode signed action: %w" e))
      | (l, Ok signed) =>
          let '(d, response) := respond (written n) (clocks n) d signed in
          match send "encode dispatch response: %w" (encode_response response) l with
          | (l, Err e) => Some (l, d, Err e)
          | (l, Ok _) => Serve fuel written clocks (S n) d l
          end
      end
  end.

(** Every round takes a byte at least, so this many are enough. *)
Definition serve_fuel (l : Line) : nat := S (String.length (unread (line_reader l))).

(** ** Both ends together *)

(** What the node answers to actions dispatched one after another. *)
Fixpoint answers (written : nat → bool) (clocks : nat → nat → time) (n : nat) (d : Dispatcher) (actions : list SignedAction)
    : Dispatcher * list DispatchResponse :=
  match actions with
  | [] => (d, [])
  | a :: actions =>
      let '(d, r) := respond (written n) (clocks n) d a in let '(d, rs) := answers written clocks (S n) d actions in (d, r :: rs)
  end.

(** The server's calls one after another. *)
Fixpoint Sends (actions : list SignedAction) : talk (list DispatchResponse) :=
  match actions with
  | [] => talk_of (Ok [])
  | a :: actions => talk_bind (Send a) (λ r, talk_bind (Sends actions) (λ rs, talk_of (Ok (r :: rs))))
  end.

(** Values on the wire, a line each. *)
Definition on_lines {A} (encode : A → string) (values : list A) : string := foldr (λ v s, (encode v +:+ eol) +:+ s) "" values.

(** JSON gives the value back, after the end of the previous line too. *)
Definition kept {A} (encode : A → string) (decode : string → option A) (v : A) : Prop :=
  ∀ ws, blank_start ws → decode (ws +:+ encode v) = Some v.

(** ** Lemmas *)

Context {laws : StreamLaws stream}.

Lemma send_reader message value l : line_reader (send message value l).1 = line_reader l.
Proof. unfold send. by destruct (conn_Write _ _). Qed.

(** The loop ends with the connection, whatever bytes come over it. *)
Lemma Serve_ends fuel written clocks n d l :
  wf_reader (line_reader l) → (String.length (unread (line_reader l)) < fuel)%nat → is_Some (Serve fuel written clocks n d l).
Proof.
  revert n d l. induction fuel as [|fuel IH]; intros n d l Hwf Hfuel; [lia|]. cbn [Serve]. unfold Decode.
  destruct (read_value _ _) as [r [v|e]] eqn:Hr; cbn [rbind]; [|by eexists].
  apply read_value_shrinks in Hr as [Hwf' Hlt]; [|done|unfold read_fuel, left_over; lia].
  destruct (decode_signed v) as [signed|]; [|by eexists]. destruct (respond _ _ d signed) as [d' response].
  pose proof (send_reader "encode dispatch response: %w" (encode_response response) (l <| line_reader := r |>)) as Hs.
  destruct (send _ _ _) as [l' [|]]; cbn [fst] in Hs; [|by eexists]. apply IH; rewrite Hs; simpl_set; [done|lia].
Qed.

Lemma Serve_answers fuel written clocks n d l ws actions :
  wf_reader (line_reader l) → conn_faults (line_conn l) = [] → blank_start ws →
  unread (line_reader l) = ws +:+ on_lines encode_signed actions → Forall (kept encode_signed decode_signed) actions →
  (length actions < fuel)%nat →
  ∃ l', Serve fuel written clocks n d l = Some (l', (answers written clocks n d actions).1, Ok tt) ∧
    conn_out (line_conn l') = conn_out (line_conn l) +:+ on_lines encode_response (answers written clocks n d actions).2.
Proof.
  revert n d l ws actions. induction fuel as [|fuel IH]; intros n d l ws actions Hwf Hf Hws Hu Hall Hfuel; [lia|].
  cbn [Serve]. destruct actions as [|a actions]; cbn [answers fst snd].
  - unfold Decode. destruct (read_value_end (read_fuel (line_reader l)) (line_reader l) Hwf) as [r ->];
      [rewrite Hu; cbn; rewrite append_nil; by destruct Hws as [->| ->]|unfold read_fuel, left_over; lia|].
    cbn [rbind]. eexists. split; [reflexivity|]. simpl_set. cbn [on_lines foldr]. by rewrite append_nil.
  - apply Forall_cons in Hall as [Ha Hall].
    destruct (Decode_ok decode_signed l (ws +:+ encode_signed a) (eol +:+ on_lines encode_signed actions) a) as (r & -> & Hu' & Hwf');
      [done|by apply signed_delimited|rewrite Hu; cbn [on_lines foldr]; by rewrite !append_assoc|by apply Ha|].
    destruct (respond _ _ d a) as [d' response] eqn:Hd. destruct (answers written clocks (S n) d' actions) as [d'' rs] eqn:Hrs.
    rewrite send_ok by (simpl_set; done).
    match goal with |- context [Serve fuel _ _ _ _ ?k] => destruct (IH (S n) d' k eol actions) as (l' & E & Ec) end;
      [done|simpl_set; done|by right|done|done|cbn in Hfuel; lia|].
    rewrite Hrs in E, Ec. exists l'. split; [exact E|]. rewrite Ec. simpl_set. unfold on_lines; cbn [foldr snd]. by rewrite !append_assoc.
Qed.

Lemma Sends_answered l ws actions rs later :
  wf_reader (line_reader l) → conn_faults (line_conn l) = [] → blank_start ws → length rs = length actions →
  unread (line_reader l) = ws +:+ (on_lines encode_response rs +:+ later) → Forall (kept encode_response decode_response) rs →
  ∃ l', Sends actions l = (l', Ok rs) ∧ conn_out (line_conn l') = conn_out (line_conn l) +:+ on_lines encode_signed actions.
Proof.
  revert l ws rs. induction actions as [|a actions IH]; intros l ws [|r rs] Hwf Hf Hws Hlen Hu Hall; try done; cbn [Sends on_lines foldr].
  - exists l. split; [done|]. by rewrite append_nil.
  - apply Forall_cons in Hall as [Hr Hall]. unfold talk_bind at 1. unfold Send, talk_bind at 1. rewrite send_ok by done.
    set (l1 := l <| line_conn ::= _ |>).
    destruct (receive_ok decode_response "read dispatch response: %w" l1 (ws +:+ encode_response r) (eol +:+ (on_lines encode_response rs +:+ later)) r)
      as (rd & -> & Hu' & Hwf'); [done|by apply response_delimited|unfold l1; simpl_set; rewrite Hu; cbn [on_lines foldr]; by rewrite !append_assoc|by apply Hr|].
    destruct (IH (l1 <| line_reader := rd |>) eol rs) as (l' & E & Ec); [done|done|by right|by injection Hlen|done|done|].
    exists l'. unfold talk_bind. rewrite E. split; [done|]. rewrite Ec. unfold l1. simpl_set. cbn [on_lines foldr]. by rewrite !append_assoc.
Qed.

Lemma length_answers written clocks n d actions : length (answers written clocks n d actions).2 = length actions.
Proof.
  revert n d. induction actions as [|a actions IH]; intros n d; [done|]. cbn [answers]. destruct (respond _ _ d a) as [d' r].
  specialize (IH (S n) d'). destruct (answers written clocks (S n) d' actions). cbn in *. by rewrite IH.
Qed.

Lemma length_on_lines (actions : list SignedAction) : (length actions <= String.length (on_lines encode_signed actions))%nat.
Proof. induction actions as [|a actions IH]; [done|]. cbn [on_lines foldr length]. rewrite !length_append. cbn. unfold on_lines in IH. lia. Qed.

(** ** Properties *)

(** C18: answers reach the calls they belong to.  Whatever actions the server sends a node one
    after another and however the network cuts the bytes in either direction, the node
    dispatches exactly those actions in that order and stops cleanly with the connection,
    and each call of the server returns the node's response to its own action. *)
Theorem stream_answers written clocks d actions to_node to_server later
    (Hsent : Forall (kept encode_signed decode_signed) actions)
    (Hanswered : Forall (kept encode_response decode_response) (answers written clocks 0 d actions).2)
    (Hthere : foldr String.append "" to_node = on_lines encode_signed actions)
    (Hback : foldr String.append "" to_server = on_lines encode_response (answers written clocks 0 d actions).2 +:+ later) :
  let node := mkLine (NewReader to_node) (mkConn "" "" []) in
  let server := mkLine (NewReader to_server) (mkConn "" "" []) in
  (∃ node', Serve (serve_fuel node) written clocks 0 d node = Some (node', (answers written clocks 0 d actions).1, Ok tt) ∧
    conn_out (line_conn node') = on_lines encode_response (answers written clocks 0 d actions).2) ∧
  ∃ server', Sends actions server = (server', Ok (answers written clocks 0 d actions).2) ∧
    conn_out (line_conn server') = on_lines encode_signed actions.
Proof.
  cbv zeta. split.
  - destruct (Serve_answers (serve_fuel (mkLine (NewReader to_node) (mkConn "" "" []))) written clocks 0 d (mkLine (NewReader to_node) (mkConn "" "" [])) "" actions)
      as (l' & E & Ec); [by unfold wf_reader|done|by left|done|done|..].
    { change (length actions < S (String.length (foldr String.append "" to_node)))%nat. rewrite Hthere. pose proof (length_on_lines actions). lia. }
    exists l'. split; [exact E|]. by rewrite Ec.
  - destruct (Sends_answered (mkLine (NewReader to_server) (mkConn "" "" [])) "" actions (answers written clocks 0 d actions).2 later) as (l' & E & Ec);
      [by unfold wf_reader|done|by left|apply length_answers|done|done|].
    exists l'. split; [exact E|]. by rewrite Ec.
Qed.

(** The serving loop ends with the connection: whatever bytes reach a node, in whatever
    segments, [Serve] returns after at most one round a byte. *)
Theorem serve_terminates written clocks d arriving conn :
  is_Some (Serve (serve_fuel (mkLine (NewReader arriving) conn)) written clocks 0 d (mkLine (NewReader arriving) conn)).
Proof. apply Serve_ends; [by unfold wf_reader|unfold serve_fuel; lia]. Qed.
End Session.

(** ** A sample session: an action, its retry, and bytes that are no envelope *)

Module SessionSample.
Import DispatchSample WireSample.
#[local] Existing Instances KeySample.sample_attest KeySample.sample_signer MemoryLedger sample_raw sample_digest sample_desired sample_envelopes
  sample_evidences counting_runtime.

(** A response refers to the one result there is. *)
#[local] Instance sample_stream : StreamCodec := {|
  stream_values := sample_scanner;
  encode_signed s := object 0 [SA_EnvelopeBytes s; SA_KeyID s; SA_Signature s];
  decode_signed s := match of_object s with Some (_, [a; b; c]) => Some (mkSignedAction a b c) | _ => None end;
  encode_response r := object 0 [Resp_EnvelopeID r; match Resp_Result r with Some _ => "y" | None => "n" end; Resp_Error r];
  decode_response s := match of_object s with
                       | Some (_, [a; b; c]) => Some (mkDispatchResponse a (if String.eqb b "y" then Some first_answer else None) c)
                       | _ => None
                       end;
  envelope_id bytes := bytes |}.
#[local] Instance sample_stream_laws : StreamLaws sample_stream.
Proof. split; [apply sample_scanner_laws|by intros; apply object_delimited..]. Qed.

Definition requests : list SignedAction := [signed "e1"; signed "e2"; signed "xx"].
Definition clocks (n : nat) : nat → time := match n with O => at_100 | _ => at_retry end.
Definition replies : list DispatchResponse := (answers None (λ _, true) clocks 0 dispatcher requests).2.
Fixpoint pieces (fuel n : nat) (s : string) : list string :=
  match fuel with O => [s] | S fuel => take_string n s :: pieces fuel n (drop_string n s) end.
Definition to_node : list string := pieces 20 70 (on_lines encode_signed requests).
Definition to_server : list string := pieces 20 33 (on_lines encode_response replies).

Lemma kept_request s : kept encode_signed decode_signed s.
Proof. intros ws Hws. cbn -[object of_object]. rewrite of_object_object by done. by destruct s. Qed.
Lemma kept_reply id r e : r = None ∨ r = Some first_answer → kept encode_response decode_response (mkDispatchResponse id r e).
Proof. intros Hr ws Hws. cbn -[object of_object first_answer]. rewrite of_object_object by done. by destruct Hr as [->| ->]. Qed.

(** The host is asked once, and the three calls get their answers. *)
Lemma stream_answers_witness :
  Disp_Runtime (answers None (λ _, true) clocks 0 dispatcher requests).1 = 1%nat ∧
  ∃ server', Sends requests (mkLine (NewReader to_server) (mkConn "" "" [])) =
    (server', Ok [mkDispatchResponse "e1" (Some first_answer) ""; mkDispatchResponse "e2" (Some first_answer) "";
                  mkDispatchResponse "xx" None "decode action envelope: %w"]).
Proof.
  split; [vm_compute; reflexivity|].
  assert (replies = [mkDispatchResponse "e1" (Some first_answer) ""; mkDispatchResponse "e2" (Some first_answer) "";
                  mkDispatchResponse "xx" None "decode action envelope: %w"]) as Hr by (vm_compute; reflexivity).
  destruct (stream_answers None (λ _, true) clocks dispatcher requests to_node to_server "") as [_ (server' & E & _)].
  - apply Forall_forall. intros s _. apply kept_request.
  - fold replies. rewrite Hr. repeat (apply Forall_cons; split; [apply kept_reply; tauto|]). apply Forall_nil. done.
  - vm_compute. reflexivity.
  - vm_compute. reflexivity.
  - exists server'. rewrite <-Hr. exact E.
Defined.
Lemma serve_terminates_witness :
  is_Some (Serve None (serve_fuel (mkLine (NewReader ["}"; "10}"; "1"]) (mkConn "" "" []))) (λ _, true) clocks 0 dispatcher
    (mkLine (NewReader ["}"; "10}"; "1"]) (mkConn "" "" []))).
Proof. exact (serve_terminates None (λ _, true) clocks dispatcher ["}"; "10}"; "1"] (mkConn "" "" [])). Defined.
End SessionSample.
