(* ===== verification/Registry.v ===== *)
(** * Connected nodes (the registry of src/node/listen.go, src/node/observe.go)

    The server holds one live session per enrolled node; its executor sends actions and its
    observer sends probes over them.  Sessions are shared: the registry, the executor's cache
    and the observer's cache hold pointers to the same connection, so a session closed by one
    is closed for all.  What a connection does with a message is a parameter; the mutexes
    make each call atomic. *)

From S2P Require Import Prelude Types Text Disruption Spread Executor Provenance Keys Approvals Agents Repair Dispatch.
Open Scope Z_scope.

Section Registry.
Context {att : Attest} {signer : Signer} {raw : RawBase64} {envelopes : EnvelopeCodec} {evidences : EvidenceCodec} {digest : Digest}.
(** A connection, what sending over it does, and closing it. *)
Context {K : Type} (link_Send : K → SignedAction → K * result DispatchResponse) (link_Close : K → K).

Record NodeConnection := mkNodeConnection { Connection_NodeID : string; Connection_link : K }.
#[export] Instance eta_NodeConnection : Eta NodeConnection := λ r, mkNodeConnection (Connection_NodeID r) (Connection_link r).

(** [nodes] holds pointers into [sessions]. *)
Record Registry := mkRegistry { nodes : gmap string nat; sessions : gmap nat NodeConnection; next_session : nat }.
#[export] Instance eta_Registry : Eta Registry := λ r, mkRegistry (nodes r) (sessions r) (next_session r).
Implicit Types (r : Registry).

Definition NewRegistry : Registry := mkRegistry ∅ ∅ 0.
Definition Connection_Close (p : nat) (r : Registry) : Registry :=
  r <| sessions ::= alter (λ c, c <| Connection_link ::= link_Close |>) p |>.
Definition Connection_Send (t : nat * gmap nat NodeConnection) (signed : SignedAction) : (nat * gmap nat NodeConnection) * result DispatchResponse :=
  match t.2 !! t.1 with
  | None => (t, Err (Panic "nil connection"))
  | Some c => let '(k, res) := link_Send (Connection_link c) signed in ((t.1, <[t.1 := c <| Connection_link := k |>]> t.2), res)
  end.

(** [add], with the connection the listener has just enrolled. *)
Definition add (nodeID : string) (link : K) (r : Registry) : Registry :=
  let r := match nodes r !! nodeID with Some existing => Connection_Close existing r | None => r end in
  r <| sessions ::= <[next_session r := mkNodeConnection nodeID link]> |> <| nodes ::= <[nodeID := next_session r]> |> <| next_session ::= S |>.
Definition Registry_Get (nodeID : string) (r : Registry) : option nat := nodes r !! nodeID.
Definition Registry_Remove (nodeID : string) (r : Registry) : Registry :=
  match nodes r !! nodeID with Some p => (Connection_Close p r) <| nodes ::= delete nodeID |> | None => r end.
Definition Registry_Nodes (r : Registry) : list string := (map_to_list (nodes r)).*1.
Definition CloseAll (r : Registry) : Registry := foldr Registry_Remove r (Registry_Nodes r).

(** The settings an executor and an observer share. *)
Record Settings := mkSettings {
  Set_KeyID : string; Set_Key : string; Set_TTL : duration; Set_NodeKeys : gmap string string; Set_RequireAttestation : bool;
  Set_AttestationMaxAge : duration }.

Abbreviation Remote := (@RemoteExecutor nat).
Definition connected (s : Settings) (nodeID : string) (p : nat) : Remote :=
  (NewRemoteExecutor nodeID (Set_KeyID s) (Set_Key s) (Some p)) <| Remote_TTL := Set_TTL s |> <| Remote_NodeKeys := Set_NodeKeys s |>
    <| Remote_RequireAttestation := Set_RequireAttestation s |> <| Remote_AttestationMaxAge := Set_AttestationMaxAge s |>.

Definition with_transport {T U} (t : option U) (x : @RemoteExecutor T) : @RemoteExecutor U :=
  mkRemoteExecutor (Remote_NodeID x) (Remote_KeyID x) (Remote_PrivateKey x) t (Remote_TTL x) (Remote_GoalID x) (Remote_ProposalID x)
    (Remote_Revision x) (Remote_LeaseID x) (Remote_NodeKeys x) (Remote_RequireAttestation x) (Remote_AttestationMaxAge x) (Remote_sequence x).

(** An executor at work on the shared sessions. *)
Definition work (clock : nat → time) (x : Remote) (r : Registry) (a : Action) : Remote * Registry * result Evidence :=
  let '(y, res) := Remote_Execute Connection_Send clock (with_transport ((λ p, (p, sessions r)) <$> Remote_Transport x) x) a in
  (with_transport (Remote_Transport x) y, match Remote_Transport y with Some (_, s) => r <| sessions := s |> | None => r end, res).

Record RegistryExecutor := mkRegistryExecutor {
  RE_settings : Settings; RE_goalID : string; RE_proposalID : string; RE_revision : Z; RE_leaseID : string; RE_executors : gmap string Remote }.
#[export] Instance eta_RegistryExecutor : Eta RegistryExecutor := λ e,
  mkRegistryExecutor (RE_settings e) (RE_goalID e) (RE_proposalID e) (RE_revision e) (RE_leaseID e) (RE_executors e).

Definition NewRegistryExecutor (keyID key : string) : RegistryExecutor :=
  mkRegistryExecutor (mkSettings keyID key DefaultEnvelopeTTL ∅ false 0) "" "" 0 "" ∅.

Definition RegistryExecutor_Bind (e : RegistryExecutor) (goalID proposalID : string) (revision : Z) (leaseID : string) : RegistryExecutor :=
  e <| RE_goalID := goalID |> <| RE_proposalID := proposalID |> <| RE_revision := revision |> <| RE_leaseID := leaseID |>
    <| RE_executors ::= fmap (λ x, Remote_Bind x goalID proposalID revision leaseID) |>.

Definition executorFor (e : RegistryExecutor) (r : Registry) (nodeID : string) : result Remote :=
  match RE_executors e !! nodeID with
  | Some x => Ok x
  | None =>
      need p := Registry_Get nodeID r else "node %q is not connected";
      Ok (Remote_Bind (connected (RE_settings e) nodeID p) (RE_goalID e) (RE_proposalID e) (RE_revision e) (RE_leaseID e))
  end.

Definition RegistryExecutor_Execute (clock : nat → time) (e : RegistryExecutor) (r : Registry) (a : Action)
    : RegistryExecutor * Registry * result Evidence :=
  if bool_decide (Action_Node a = "") then (e, r, Err (Errorf "action %q does not name a node"))
  else
    match executorFor e r (Action_Node a) with
    | Err err => (e, r, Err err)
    | Ok x => let '(x, r, res) := work clock x r a in (e <| RE_executors ::= <[Action_Node a := x]> |>, r, res)
    end.

(** ** Probes (observe.go) *)

Record RegistryObserver := mkRegistryObserver { RO_settings : Settings; RO_executors : gmap string Remote; RO_sequence : Z }.
#[export] Instance eta_RegistryObserver : Eta RegistryObserver := λ o, mkRegistryObserver (RO_settings o) (RO_executors o) (RO_sequence o).
Definition NewRegistryObserver (keyID key : string) : RegistryObserver :=
  mkRegistryObserver (mkSettings keyID key DefaultEnvelopeTTL ∅ false 0) ∅ 0.

Definition observer_executorFor (o : RegistryObserver) (r : Registry) (nodeID : string) : result Remote :=
  match RO_executors o !! nodeID with
  | Some x => Ok x
  | None =>
      need p := Registry_Get nodeID r else "node %q is not connected";
      Ok (connected (RO_settings o) nodeID p)
  end.

Definition probe_action (probeID : string) (target : ProbeTarget) : Action :=
  Action_zero <| Action_ID := probeID |> <| Action_Kind := ActionProbeReadiness |> <| Action_Target := Probe_Allocation target |>
    <| Action_Node := Probe_Node target |> <| Action_Probe := Some target |>.

Definition Registry_ObserveReadiness (clock : nat → time) (o : RegistryObserver) (r : Registry) (target : ProbeTarget)
    : RegistryObserver * Registry * result (bool * gmap string string) :=
  if bool_decide (Probe_Node target = "") then (o, r, Err (Errorf "probe target %q does not name a node to measure on"))
  else
    match observer_executorFor o r (Probe_Node target) with
    | Err err => (o, r, Err err)
    | Ok x =>
        let sequence := u64 (RO_sequence o + 1) in
        let probeID := "probe-" +:+ Probe_Allocation target +:+ "-" +:+ Sprint sequence in
        let '(x, r, res) := work clock (Remote_Bind x "readiness" probeID 0 probeID) r (probe_action probeID target) in
        (o <| RO_sequence := sequence |> <| RO_executors ::= <[Probe_Node target := x]> |>, r,
         let* evidence := res in Ok (bool_decide (observed evidence "ready" = "true"), Ev_Observed evidence))
    end.

Definition Observer_Forget (o : RegistryObserver) (nodeID : string) : RegistryObserver := o <| RO_executors ::= delete nodeID |>.
End Registry.

(** ** Messages go to the node they name *)

Section Sessions.
Context {att : Attest} {signer : Signer} {raw : RawBase64} {envelopes : EnvelopeCodec} {evidences : EvidenceCodec} {digest : Digest}.
Context {K : Type} (link_Send : K → SignedAction → K * result DispatchResponse) (link_Close : K → K).
Abbreviation Remote := (@RemoteExecutor nat).
Abbreviation Registry := (@Registry K).
Abbreviation Executes clock := (RegistryExecutor_Execute link_Send clock).
Abbreviation Observes clock := (Registry_ObserveReadiness link_Send clock).

Lemma remote_sends {T} (f : T → SignedAction → T * result DispatchResponse) clock (x : @RemoteExecutor T) a t :
  Remote_Transport x = Some t →
  let '(x', _) := Remote_Execute f clock x a in
  Remote_NodeID x' = Remote_NodeID x ∧ ∃ t', Remote_Transport x' = Some t' ∧ (t' = t ∨ ∃ signed, t' = (f t signed).1).
Proof.
  intros Ht. unfold Remote_Execute. rewrite Ht. destruct (_ || _); [eauto|]. destruct (ControlPlaneLocal _); [eauto|].
  destruct (Sign _ _ _) as [signed|]; [|simpl_set; eauto]. destruct (f t signed) as [t' [response|]] eqn:Hf; simpl_set; [|split; [done|]; exists t'; split; [done|]; right; exists signed; by rewrite Hf].
  assert (∃ t0, Some t' = Some t0 ∧ (t0 = t ∨ ∃ signed, t0 = (f t signed).1)) as H by (exists t'; split; [done|]; right; exists signed; by rewrite Hf).
  destruct (bool_decide _); [by simpl_set|]. destruct (Resp_Result response); by simpl_set.
Qed.

(** Work over a session changes that session, and keeps its name. *)
Lemma work_one_session clock (x : Remote) (r : Registry) a p c :
  Remote_Transport x = Some p → sessions r !! p = Some c →
  let '(x', r', _) := work link_Send clock x r a in
  Remote_NodeID x' = Remote_NodeID x ∧ Remote_Transport x' = Some p ∧ nodes r' = nodes r ∧ next_session r' = next_session r ∧
  ∃ c', Connection_NodeID c' = Connection_NodeID c ∧ sessions r' = <[p := c']> (sessions r) ∧
    (c' = c ∨ ∃ signed, Connection_link c' = (link_Send (Connection_link c) signed).1).
Proof.
  intros Hp Hc. unfold work. rewrite Hp. cbn [fmap option_fmap option_map].
  pose proof (remote_sends (Connection_Send link_Send) clock (with_transport (Some (p, sessions r)) x) a (p, sessions r) eq_refl) as H.
  destruct (Remote_Execute _ _ _ _) as [y res]. destruct H as (Hid & t' & Ht' & Hcase). rewrite Ht'. destruct t' as [p' s']. simpl_set.
  split; [done|]. split; [done|]. split; [done|]. split; [done|]. destruct Hcase as [[= -> ->]|[signed E]].
  - exists c. split; [done|]. split; [by rewrite insert_id|by left].
  - unfold Connection_Send in E. cbn [fst snd] in E. rewrite Hc in E. destruct (link_Send (Connection_link c) signed) as [k res'] eqn:Hs.
    injection E as -> ->. exists (c <| Connection_link := k |>). split; [done|]. split; [done|]. right. exists signed. by rewrite Hs.
Qed.

Record registry_ok (r : Registry) : Prop := mkRegistryOk {
  node_pointers : ∀ n p, nodes r !! n = Some p → ∃ c, sessions r !! p = Some c ∧ Connection_NodeID c = n;
  fresh_pointer : ∀ p c, sessions r !! p = Some c → (p < next_session r)%nat }.
(** A cache whose executors each hold a session of their own node. *)
Definition cache_ok (r : Registry) (m : gmap string Remote) : Prop := ∀ n x, m !! n = Some x →
  Remote_NodeID x = n ∧ ∃ p c, Remote_Transport x = Some p ∧ sessions r !! p = Some c ∧ Connection_NodeID c = n.
Definition keeps_names (r r' : Registry) : Prop := ∀ p c, sessions r !! p = Some c →
  ∃ c', sessions r' !! p = Some c' ∧ Connection_NodeID c' = Connection_NodeID c.

Lemma cache_keeps_names r r' m : keeps_names r r' → cache_ok r m → cache_ok r' m.
Proof.
  intros Hk Hm n x Hx. destruct (Hm n x Hx) as (Hid & p & c & Hp & Hc & Hn). split; [done|].
  destruct (Hk p c Hc) as (c' & Hc' & Hn'). exists p, c'. by rewrite Hn'.
Qed.

Lemma insert_keeps_names r r' p c c' :
  sessions r !! p = Some c → Connection_NodeID c' = Connection_NodeID c → sessions r' = <[p := c']> (sessions r) → keeps_names r r'.
Proof.
  intros Hc Hn E q d Hd. rewrite E. destruct (decide (q = p)) as [->|Hne]; [rewrite lookup_insert_eq; exists c'; split; [done|]; congruence|].
  rewrite lookup_insert_ne by done. by exists d.
Qed.

Lemma registry_work r r' p c c' :
  registry_ok r → sessions r !! p = Some c → Connection_NodeID c' = Connection_NodeID c → sessions r' = <[p := c']> (sessions r) →
  nodes r' = nodes r → next_session r' = next_session r → registry_ok r'.
Proof.
  intros [H1 H2] Hc Hn Es En Ex. pose proof (insert_keeps_names r r' p c c' Hc Hn Es) as Hk. split.
  - intros n q Hq. rewrite En in Hq. destruct (H1 n q Hq) as (d & Hd & Hd'). destruct (Hk q d Hd) as (d' & ? & ?). exists d'. split; [done|congruence].
  - intros q d Hd. rewrite Ex. rewrite Es in Hd. destruct (decide (q = p)) as [->|Hne]; [by eapply H2|]. rewrite lookup_insert_ne in Hd by done. by eapply H2.
Qed.

(** One piece of work by an executor of the right node. *)
Lemma work_ok clock n (x : Remote) (r : Registry) a :
  registry_ok r → (Remote_NodeID x = n ∧ ∃ p c, Remote_Transport x = Some p ∧ sessions r !! p = Some c ∧ Connection_NodeID c = n) →
  let '(x', r', _) := work link_Send clock x r a in
  registry_ok r' ∧ keeps_names r r' ∧ (Remote_NodeID x' = n ∧ ∃ p c, Remote_Transport x' = Some p ∧ sessions r' !! p = Some c ∧ Connection_NodeID c = n) ∧
  ∀ p c, sessions r !! p = Some c → Connection_NodeID c ≠ n → sessions r' !! p = Some c.
Proof.
  intros Hr (Hid & p & c & Hp & Hc & Hn). pose proof (work_one_session clock x r a p c Hp Hc) as H. destruct (work _ clock x r a) as [[x' r'] res].
  destruct H as (Hid' & Hp' & En & Ex & c' & Hn' & Es & _). split; [by eapply registry_work|]. split; [by eapply insert_keeps_names|]. split.
  - split; [congruence|]. exists p, c'. rewrite Es, lookup_insert_eq. split_and!; [done..|congruence].
  - intros q d Hd Hne. rewrite Es, lookup_insert_ne; [done|]. intros <-. congruence.
Qed.

Lemma connected_ok r s n p : registry_ok r → Registry_Get n r = Some p →
  Remote_NodeID (connected s n p) = n ∧ ∃ p' c, Remote_Transport (connected s n p) = Some p' ∧ sessions r !! p' = Some c ∧ Connection_NodeID c = n.
Proof. intros [H _] Hp. split; [done|]. destruct (H n p Hp) as (c & ? & ?). by exists p, c. Qed.

Lemma cache_insert r m n x :
  cache_ok r m → Remote_NodeID x = n → (∃ p c, Remote_Transport x = Some p ∧ sessions r !! p = Some c ∧ Connection_NodeID c = n) → cache_ok r (<[n := x]> m).
Proof.
  intros Hm Hid Hp k y Hy. destruct (decide (k = n)) as [->|Hne]; [rewrite lookup_insert_eq in Hy; by injection Hy as <-|].
  rewrite lookup_insert_ne in Hy by done. by apply Hm.
Qed.

Lemma executes_ok clock e (r : Registry) a :
  registry_ok r → cache_ok r (RE_executors e) →
  let '(e', r', _) := Executes clock e r a in
  registry_ok r' ∧ keeps_names r r' ∧ cache_ok r' (RE_executors e') ∧
  ∀ p c, sessions r !! p = Some c → Connection_NodeID c ≠ Action_Node a → sessions r' !! p = Some c.
Proof.
  intros Hr Hm. unfold RegistryExecutor_Execute. assert (keeps_names r r) as Hid by (intros ? c ?; by exists c).
  case_bool_decide; [done|]. destruct (executorFor e r (Action_Node a)) as [x|] eqn:Hx; [|done].
  assert (Remote_NodeID x = Action_Node a ∧ ∃ p c, Remote_Transport x = Some p ∧ sessions r !! p = Some c ∧ Connection_NodeID c = Action_Node a) as Hok.
  { unfold executorFor in Hx. destruct (RE_executors e !! Action_Node a) as [y|] eqn:Hy; [injection Hx as <-; by apply Hm|].
    destruct (Registry_Get _ r) as [p|] eqn:Hp; [|done]. injection Hx as <-. by apply (connected_ok r (RE_settings e)). }
  pose proof (work_ok clock _ x r a Hr Hok) as Hw. destruct (work _ clock x r a) as [[x' r'] res]. destruct Hw as (Hr' & Hk & [Hx1 Hx2] & Hother).
  split; [done|]. split; [done|]. split; [|done]. simpl_set. apply cache_insert; [by eapply cache_keeps_names|done|done].
Qed.

Lemma observes_ok clock o (r : Registry) target :
  registry_ok r → cache_ok r (RO_executors o) →
  let '(o', r', _) := Observes clock o r target in
  registry_ok r' ∧ keeps_names r r' ∧ cache_ok r' (RO_executors o') ∧
  ∀ p c, sessions r !! p = Some c → Connection_NodeID c ≠ Probe_Node target → sessions r' !! p = Some c.
Proof.
  intros Hr Hm. unfold Registry_ObserveReadiness. assert (keeps_names r r) as Hid by (intros ? c ?; by exists c).
  case_bool_decide; [done|]. destruct (observer_executorFor o r (Probe_Node target)) as [x|] eqn:Hx; [|done].
  assert (Remote_NodeID x = Probe_Node target ∧ ∃ p c, Remote_Transport x = Some p ∧ sessions r !! p = Some c ∧ Connection_NodeID c = Probe_Node target) as Hok.
  { unfold observer_executorFor in Hx. destruct (RO_executors o !! Probe_Node target) as [y|] eqn:Hy; [injection Hx as <-; by apply Hm|].
    destruct (Registry_Get _ r) as [p|] eqn:Hp; [|done]. injection Hx as <-. by apply (connected_ok r (RO_settings o)). }
  match goal with |- context [work _ clock ?y r ?b] => pose proof (work_ok clock _ y r b Hr Hok) as Hw; destruct (work _ clock y r b) as [[x' r'] res] end.
  destruct Hw as (Hr' & Hk & [Hx1 Hx2] & Hother).
  split; [done|]. split; [done|]. split; [|done]. simpl_set. apply cache_insert; [by eapply cache_keeps_names|done|done].
Qed.

(** What happens at the server: nodes enrol, proposals are bound, actions and probes sent. *)
Inductive hub_op :=
  | Connects (nodeID : string) (link : K)
  | Binds (goalID proposalID : string) (revision : Z) (leaseID : string)
  | Acts (clock : nat → time) (a : Action)
  | Probes (clock : nat → time) (target : ProbeTarget).
Abbreviation hub := (Registry * RegistryExecutor * RegistryObserver)%type.
Definition hub_step (h : hub) (op : hub_op) : hub :=
  let '(r, e, o) := h in
  match op with
  | Connects n link => (add link_Close n link r, e, o)
  | Binds g p rev lease => (r, RegistryExecutor_Bind e g p rev lease, o)
  | Acts clock a => let '(e, r, _) := Executes clock e r a in (r, e, o)
  | Probes clock target => let '(o, r, _) := Observes clock o r target in (r, e, o)
  end.
Definition hub_run (h : hub) (ops : list hub_op) : hub := foldl hub_step h ops.
Definition hub_ok (h : hub) : Prop := registry_ok h.1.1 ∧ cache_ok h.1.1 (RE_executors h.1.2) ∧ cache_ok h.1.1 (RO_executors h.2).

Lemma close_lookup p (r : Registry) q :
  sessions (Connection_Close link_Close p r) !! q =
  if decide (p = q) then (λ c, c <| Connection_link ::= link_Close |>) <$> sessions r !! q else sessions r !! q.
Proof. unfold Connection_Close. simpl_set. destruct (decide (p = q)) as [->|Hne]; [by rewrite lookup_alter_eq|by rewrite lookup_alter_ne]. Qed.

Lemma close_keeps_names p r : keeps_names r (Connection_Close link_Close p r).
Proof. intros q c Hc. rewrite close_lookup, Hc. destruct (decide _); eexists; (split; [reflexivity|done]). Qed.

Lemma close_registry_ok p r : registry_ok r → registry_ok (Connection_Close link_Close p r).
Proof.
  intros [H1 H2]. split.
  - intros n q Hq. destruct (H1 n q Hq) as (c & Hc & Hn). destruct (close_keeps_names p r q c Hc) as (c' & ? & ?). exists c'. split; [done|congruence].
  - intros q c. rewrite close_lookup. intros Hq. destruct (sessions r !! q) as [c0|] eqn:Hc; [by eapply H2|]. destruct (decide _); done.
Qed.

(** Closing the old session of a node, if it has one. *)
Definition displaced (n : string) (r : Registry) : Registry :=
  match nodes r !! n with Some existing => Connection_Close link_Close existing r | None => r end.
Lemma displaced_ok n r : registry_ok r → registry_ok (displaced n r) ∧ keeps_names r (displaced n r) ∧ nodes (displaced n r) = nodes r.
Proof.
  intros H. unfold displaced. destruct (nodes r !! n); [|split; [done|]; split; [|done]; intros p c ?; by exists c].
  split; [by apply close_registry_ok|]. split; [apply close_keeps_names|done].
Qed.

Lemma add_ok n link r : registry_ok r → registry_ok (add link_Close n link r) ∧ keeps_names r (add link_Close n link r).
Proof.
  intros H. destruct (displaced_ok n r H) as ([H1 H2] & Hk & En). unfold add. fold (displaced n r). set (d := displaced n r) in *. split; [split|].
  - intros k p. simpl_set. destruct (decide (k = n)) as [->|Hne].
    + rewrite lookup_insert_eq. intros [= <-]. eexists. by rewrite lookup_insert_eq.
    + rewrite lookup_insert_ne by done. intros Hp. destruct (H1 k p Hp) as (c & Hc & Hn). exists c. rewrite lookup_insert_ne; [done|].
      specialize (H2 p c Hc). lia.
  - intros p c. simpl_set. destruct (decide (p = next_session d)) as [->|Hne]; [lia|]. rewrite lookup_insert_ne by done. intros Hc. specialize (H2 p c Hc). lia.
  - intros p c Hc. destruct (Hk p c Hc) as (c' & Hc' & Hn). exists c'. split; [|done]. simpl_set. rewrite lookup_insert_ne; [done|]. specialize (H2 p c' Hc'). lia.
Qed.

Lemma hub_step_ok h op : hub_ok h → hub_ok (hub_step h op).
Proof.
  destruct h as [[r e] o]. intros (Hr & He & Ho). destruct op as [n link|g p rev lease|clock a|clock target]; cbn [hub_step].
  - destruct (add_ok n link r Hr) as [Hr' Hk]. split; [done|]. split; by eapply cache_keeps_names.
  - split; [done|]. split; [|done]. intros n x. cbn [fst snd].
    change (RE_executors (RegistryExecutor_Bind e g p rev lease)) with ((λ x, Remote_Bind x g p rev lease) <$> RE_executors e). rewrite lookup_fmap.
    destruct (RE_executors e !! n) as [y|] eqn:Hy; [|done]. intros [= <-]. exact (He n y Hy).
  - pose proof (executes_ok clock e r a Hr He) as H. destruct (Executes clock e r a) as [[e' r'] res]. destruct H as (? & Hk & ? & _).
    split; [done|]. split; [done|]. by eapply cache_keeps_names.
  - pose proof (observes_ok clock o r target Hr Ho) as H. destruct (Observes clock o r target) as [[o' r'] res]. destruct H as (? & Hk & ? & _).
    split; [done|]. split; [by eapply cache_keeps_names|done].
Qed.

Definition hub0 (s s' : Settings) : hub := (NewRegistry, mkRegistryExecutor s "" "" 0 "" ∅, mkRegistryObserver s' ∅ 0).
Lemma hub_run_ok s s' ops : hub_ok (hub_run (hub0 s s') ops).
Proof.
  unfold hub_run. assert (hub_ok (hub0 s s')) as H. { split; [split|split]; cbn; intros ? ? H; by rewrite lookup_empty in H. }
  revert H. generalize (hub0 s s'). induction ops as [|op ops IH]; intros h H; [done|]. apply IH. by apply hub_step_ok.
Qed.

(** Nothing meant for one node travels over another's session.  After any sequence of
    enrolments (including nodes that come back), bindings, actions and probes, sending an
    action or a probe leaves every session of every node but the one it names exactly as it
    was, whatever the caches hold, and the session it uses was enrolled by that node. *)
Theorem messages_stay_with_node s s' ops clock a target :
  let '(r, e, o) := hub_run (hub0 s s') ops in
  (let '(e', r', _) := Executes clock e r a in
   ∀ p c, sessions r !! p = Some c → Connection_NodeID c ≠ Action_Node a → sessions r' !! p = Some c) ∧
  (let '(o', r', _) := Observes clock o r target in
   ∀ p c, sessions r !! p = Some c → Connection_NodeID c ≠ Probe_Node target → sessions r' !! p = Some c) ∧
  ∀ n x, RE_executors e !! n = Some x ∨ RO_executors o !! n = Some x →
    Remote_NodeID x = n ∧ ∃ p c, Remote_Transport x = Some p ∧ sessions r !! p = Some c ∧ Connection_NodeID c = n.
Proof.
  pose proof (hub_run_ok s s' ops) as H. destruct (hub_run (hub0 s s') ops) as [[r e] o]. destruct H as (Hr & He & Ho). split_and!.
  - pose proof (executes_ok clock e r a Hr He) as H. destruct (Executes clock e r a) as [[e' r'] res]. apply H.
  - pose proof (observes_ok clock o r target Hr Ho) as H. destruct (Observes clock o r target) as [[o' r'] res]. apply H.
  - intros n x [Hx|Hx]; [by apply He|by apply Ho].
Qed.

Lemma work_nodes clock (x : Remote) (r : Registry) a : nodes (work link_Send clock x r a).1.2 = nodes r.
Proof. unfold work. destruct (Remote_Execute _ _ _ _) as [y res]. cbn [fst snd]. by destruct (Remote_Transport y) as [[]|]. Qed.
Lemma executes_nodes clock e (r : Registry) a : nodes (Executes clock e r a).1.2 = nodes r.
Proof.
  unfold RegistryExecutor_Execute. case_bool_decide; [done|]. destruct (executorFor _ _ _) as [x|]; [|done].
  pose proof (work_nodes clock x r a) as E. by destruct (work _ clock x r a) as [[x' r'] res].
Qed.
Lemma observes_nodes clock o (r : Registry) target : nodes (Observes clock o r target).1.2 = nodes r.
Proof.
  unfold Registry_ObserveReadiness. case_bool_decide; [done|]. destruct (observer_executorFor _ _ _) as [x|]; [|done].
  match goal with |- context [work _ clock ?y r ?b] => pose proof (work_nodes clock y r b) as E; by destruct (work _ clock y r b) as [[x' r'] res] end.
Qed.

(** Nodes only ever join: nothing in the server removes one. *)
Lemma connected_for_good s s' ops ops' n :
  n ∈ Registry_Nodes (hub_run (hub0 s s') ops).1.1 → n ∈ Registry_Nodes (hub_run (hub0 s s') (ops ++ ops')).1.1.
Proof.
  assert (∀ r : Registry, n ∈ Registry_Nodes r ↔ is_Some (nodes r !! n)) as Hin.
  { intros r. unfold Registry_Nodes. rewrite list_elem_of_fmap. split.
    - intros ([k p] & -> & Hp). apply elem_of_map_to_list in Hp. by eexists.
    - intros [p Hp]. exists (n, p). split; [done|]. by apply elem_of_map_to_list. }
  rewrite !Hin. unfold hub_run. rewrite foldl_app. set (h := foldl _ _ ops).
  pose proof (hub_run_ok s s' ops) as Hok. unfold hub_run in Hok. fold h in Hok. clearbody h.
  revert h Hok. induction ops' as [|op ops' IH]; intros h Hok H; [done|]. cbn [foldl]. apply IH; [by apply hub_step_ok|].
  destruct h as [[r e] o]. destruct Hok as (Hr & He & Ho). destruct op as [k link|g p rev lease|clock a|clock target]; cbn [hub_step fst].
  - destruct (displaced_ok k r Hr) as (_ & _ & En). unfold add. fold (displaced k r). simpl_set. rewrite En.
    destruct (decide (k = n)) as [->|]; [by rewrite lookup_insert_eq|by rewrite lookup_insert_ne].
  - done.
  - pose proof (executes_nodes clock e r a) as E. destruct (Executes clock e r a) as [[e' r'] res]. cbn [fst snd] in *. by rewrite E.
  - pose proof (observes_nodes clock o r target) as E. destruct (Observes clock o r target) as [[o' r'] res]. cbn [fst snd] in *. by rewrite E.
Qed.
End Sessions.

(** Repair never reaches a node: the actions of the remediation agent name none, and the
    executor refuses every one of them. *)
Lemma repair_refused {att : Attest} {signer : Signer} {raw : RawBase64} {envelopes : EnvelopeCodec} {evidences : EvidenceCodec} {digest : Digest}
    {K} (link_Send : K → SignedAction → K * result DispatchResponse) clock e (r : @Registry K) g w p a :
  remediation_Propose g w = Ok p → a ∈ Proposal_Actions p → RegistryExecutor_Execute link_Send clock e r a = (e, r, Err (Errorf "action %q does not name a node")).
Proof.
  intros Hp Ha. assert (Action_Node a = "") as Hn; [|unfold RegistryExecutor_Execute; by rewrite bool_decide_true].
  unfold remediation_Propose in Hp. repeat case_bool_decide; injection Hp as <-; cbn [Proposal_Actions proposal_of] in Ha;
    rewrite ?elem_of_cons in Ha; destruct_or?; subst; try done; by apply not_elem_of_nil in Ha.
Qed.

(** ** A sample server *)

Module RegistrySample.
#[local] Existing Instances KeySample.sample_attest KeySample.sample_signer DispatchSample.sample_raw DispatchSample.sample_digest
  DispatchSample.sample_envelopes DispatchSample.sample_evidences.
(** A connection counts what was sent until it is closed. *)
Definition line : Type := option nat.
Definition line_Send (k : line) (_ : SignedAction) : line * result DispatchResponse :=
  match k with
  | None => (None, Err (Errorf "use of closed network connection"))
  | Some n => (Some (S n), Ok (mkDispatchResponse "e1" (Some (mkDispatchResult "" DispatchSample.pulled None)) ""))
  end.
Definition line_Close (_ : line) : line := None.
Definition clock (_ : nat) : time := 100.
Definition settings : Settings := mkSettings "k1" DispatchSample.controller_key DefaultEnvelopeTTL ∅ false 0.
Definition pull : Action := DispatchSample.pull.

(** A node connects, is sent an action, and connects again: its new session is live and
    listed, and every action for it still goes to the closed one. *)
Definition back_again : @hub_op line := Connects "n1" (Some 0%nat).
Definition reconnected := hub_run line_Send line_Close (hub0 settings settings) [back_again; Binds "g1" "p1" 3 "lease"; Acts clock pull; back_again].
Lemma reconnected_node_unreachable :
  let '(r, e, o) := reconnected in
  (Connection_link <$> (nodes r !! "n1" ≫= λ p, sessions r !! p)) = Some (Some 0%nat) ∧
  let '(e', r', res) := RegistryExecutor_Execute line_Send clock e r pull in ¬ is_Ok res ∧ sessions r' = sessions r ∧ "n1" ∈ Registry_Nodes r'.
Proof. vm_compute. split; [reflexivity|]. split; [by intros []|]. split; [reflexivity|by left]. Qed.
End RegistrySample.
