(* ===== verification/Probes.v ===== *)
(** * Measuring on a node (src/node/probe.go, src/node/provider.go) and the supervision pass
    (src/node/supervisor.go)

    Readiness is measured where the allocation runs, by the capability that owns the kind of
    probe; reach to model providers is measured on a timer and cached; a supervision pass
    reports both together with the restarts it made.  Dialling, HTTP and the container
    backend are parameters; a time limit that passes is an answer with an error. *)

From S2P Require Import Prelude Types Text Projection Executor Rollout Engine Directory Canary Validate WorkQueue Supervise Dispatch Metering FileSystem Volumes Network Containers.
Open Scope Z_scope.

(** ** Readiness *)

Definition ProbeHTTP : string := "http".

(** What comes of a GET: no request could be made, no answer came, or a status. *)
Inductive HttpAnswer := NoRequest (e : error) | NoAnswer (e : error) | Status_ (code : Z).

Record RuntimeObserver (B N : Type) := mkRuntimeObserver {
  RO_backend : option (ContainerBackend B); RO_Endpoints : gmap string string; RO_Network : option (option (NetworkBackend N)) }.
Arguments mkRuntimeObserver {B N}.
Arguments RO_backend {B N}.
Arguments RO_Endpoints {B N}.
Arguments RO_Network {B N}.

Section Observers.
Context {B N : Type} (dial : string → result unit) (get : string → HttpAnswer).
Implicit Types (o : RuntimeObserver B N) (b : B) (n : N).

Definition NewRuntimeObserver (backend : ContainerBackend B) : RuntimeObserver B N := mkRuntimeObserver (Some backend) ∅ None.

Definition endpoint o n (target : ProbeTarget) : result string :=
  match RO_Endpoints o !! Probe_Allocation target with
  | Some host => Ok host
  | None =>
      refuse (Probe_Port target <=? 0) "probe for %q has no port";
      if bool_decide (Probe_Address target ≠ "") then Ok (JoinHostPort (Probe_Address target) (Sprint (Probe_Port target)))
      else
        let unknown := Err (Errorf "allocation %q has no known address to probe") in
        match RO_Network o with
        | None => unknown
        | Some network =>
            match Network_Attachment network n (Probe_Allocation target) with
            | Ok att => if bool_decide (Att_Address att = "") then unknown else Ok (JoinHostPort (Att_Address att) (Sprint (Probe_Port target)))
            | Err _ => unknown
            end
        end
  end.

(** The probe of a running container, given what was observed of it. *)
Definition measure_running o n (target : ProbeTarget) (observed : gmap string string) : result (bool * gmap string string) :=
  if bool_decide (Probe_Kind target = ProbeProcess) || bool_decide (Probe_Kind target = "") then Ok (true, observed)
  else if bool_decide (Probe_Kind target = ProbeTCP) then
    let* address := endpoint o n target in
    let observed := <["address" := address]> observed in
    match dial address with
    | Err e => Ok (false, <["reason" := error_text e]> observed)
    | Ok _ => Ok (true, observed)
    end
  else if bool_decide (Probe_Kind target = ProbeHTTP) then
    let* address := endpoint o n target in
    let url := "http://" +:+ address +:+ (if bool_decide (Probe_Path target = "") then "/" else Probe_Path target) in
    let observed := <["url" := url]> observed in
    match get url with
    | NoRequest e => Err e
    | NoAnswer e => Ok (false, <["reason" := error_text e]> observed)
    | Status_ code =>
        let observed := <["status" := Sprint code]> observed in
        if (200 <=? code) && (code <? 400) then Ok (true, observed) else Ok (false, <["reason" := "unhealthy status"]> observed)
    end
  else if bool_decide (Probe_Kind target = ProbeDatabase) || bool_decide (Probe_Kind target = ProbeAgent)
  then Err (Errorf "probe kind %q must be routed to its capability, not the runtime observer")
  else Err (Errorf "unsupported probe kind %q").

Definition Runtime_ObserveReadiness o b n (target : ProbeTarget) : result (bool * gmap string string) :=
  match RO_backend o with
  | None => Err (Errorf "runtime observer is not initialized")
  | Some backend =>
      let* state := wrap_err "inspect %q: %w" (Container_Inspect backend b (Probe_Allocation target)) in
      let observed := <["running" := Sprint_bool (Backend_Running state)]> {["exists" := Sprint_bool (Backend_Exists state)]} in
      let observed := if Backend_Exists state then <["pid" := Sprint (Backend_PID state)]> observed else observed in
      if negb (Backend_Exists state) || negb (Backend_Running state) then Ok (false, <["reason" := "task is not running"]> observed)
      else measure_running o n target observed
  end.

(** [CompositeObserver], with the agents and what is known of the providers they need. *)
Definition Composite_ObserveReadiness (runtime : option (RuntimeObserver B N)) (databases : option DatabaseManager)
    (agents : option (Agents * option (string → bool))) b n (target : ProbeTarget) : result (bool * gmap string string) :=
  if bool_decide (Probe_Kind target = ProbeDatabase) then
    need db := databases else "node has no database capability for probe %q";
    Database_ObserveReadiness db target
  else if bool_decide (Probe_Kind target = ProbeAgent) then
    match agents with
    | None => Err (Errorf "node has no agent capability for probe %q")
    | Some (a, providers) =>
        match runtime with
        | None => Agents_ObserveReadiness providers a target
        | Some o =>
            let* alive := Runtime_ObserveReadiness o b n (mkProbeTarget (Probe_Allocation target) ProbeProcess 0 "" "" "" "" "") in
            if negb alive.1 then Ok (false, alive.2) else Agents_ObserveReadiness providers a target
        end
    end
  else
    need o := runtime else "node has no runtime observer for probe %q";
    Runtime_ObserveReadiness o b n target.
End Observers.

(** ** Providers *)

Definition DefaultProviderTTL : duration := 2 * Minute.
Record ProviderEndpoint := mkProviderEndpoint { Provider_Name : string; Provider_URL : string }.
Record providerResult := mkProviderResult { pr_reachable : bool; pr_detail : string; pr_observedAt : time; pr_expiresAt : time }.
Record ProviderMonitor := mkProviderMonitor { PM_Endpoints : list ProviderEndpoint; PM_TTL : duration; PM_results : gmap string providerResult }.
#[export] Instance eta_ProviderMonitor : Eta ProviderMonitor := λ p, mkProviderMonitor (PM_Endpoints p) (PM_TTL p) (PM_results p).
Definition NewProviderMonitor (endpoints : list ProviderEndpoint) : ProviderMonitor := mkProviderMonitor endpoints DefaultProviderTTL ∅.

Definition Reachable (p : ProviderMonitor) (now : time) (provider : string) : bool :=
  match PM_results p !! provider with
  | None => false
  | Some r => if negb (IsZero (pr_expiresAt r)) && negb (Before now (pr_expiresAt r)) then false else pr_reachable r
  end.
Definition provider_ttl (p : ProviderMonitor) : duration := if 0 <? PM_TTL p then PM_TTL p else DefaultProviderTTL.
Definition Detail (p : ProviderMonitor) (provider : string) : string := default "" (pr_detail <$> PM_results p !! provider).

Definition provider_le (x y : ProviderEndpoint) : Prop := string_le (Provider_Name x) (Provider_Name y).
#[export] Instance provider_le_dec x y : Decision (provider_le x y) := decide (string_le (Provider_Name x) (Provider_Name y)).

Section Providers.
(** A GET by the monitor's client, over a state of its own. *)
Context {W : Type} (get : W → string → W * HttpAnswer).

Definition measure (w : W) (x : ProviderEndpoint) : W * (bool * string) :=
  if bool_decide (Provider_URL x = "") then (w, (false, "no endpoint configured"))
  else
    let '(w, answer) := get w (Provider_URL x) in
    (w, match answer with
        | NoRequest e | NoAnswer e => (false, error_text e)
        | Status_ code => if 500 <=? code then (false, "provider returned " +:+ Sprint code) else (true, "")
        end).

Definition provider_observed (reachable : bool) (detail : string) : gmap string string :=
  let observed := {["reachable" := Sprint_bool reachable]} in if bool_decide (detail = "") then observed else <["detail" := detail]> observed.

(** The loop of [Refresh]; the clock is read after each measurement. *)
Fixpoint refresh_loop (w : W) (p : ProviderMonitor) (clock : nat → time) (i : nat) (l : list ProviderEndpoint) : W * ProviderMonitor * list Evidence :=
  match l with
  | [] => (w, p, [])
  | x :: l =>
      let '(w, (reachable, detail)) := measure w x in
      let now := clock i in
      let expires := time_Add now (provider_ttl p) in
      let p := p <| PM_results ::= <[Provider_Name x := mkProviderResult reachable detail now expires]> |> in
      let '(w, p, rest) := refresh_loop w p clock (S i) l in
      (w, p, mkEvidence EvidenceProviderReachable (Provider_Name x) "" now expires (provider_observed reachable detail) :: rest)
  end.
Definition Refresh (w : W) (p : ProviderMonitor) (clock : nat → time) : W * ProviderMonitor * list Evidence :=
  refresh_loop w p clock 0 (merge_sort provider_le (PM_Endpoints p)).

(** The supervisor says which node measured. *)
Definition attribute_provider (nodeID : string) (e : Evidence) : Evidence :=
  e <| Ev_Source := "node-supervisor" |> <| Ev_Observed ::= <["node" := nodeID]> |>.
Definition refreshProviders (nodeID : string) (w : W) (p : ProviderMonitor) (clock : nat → time) : W * ProviderMonitor * list Evidence :=
  let '(w, p, l) := Refresh w p clock in (w, p, attribute_provider nodeID <$> l).
End Providers.

(** ** One supervision pass *)

Section Pass.
Context {B : Type} {codec : DesiredCodec} (backend : ContainerBackend B).

(** A queue with the name it is observed under; the clock is read three times for each. *)
Definition observeQueues (clock : nat → time) (queues : list (string * WorkQueue)) : list Evidence :=
  imap (λ i q, (Queue_Evidence q.2 q.1 (clock (3 * i)%nat) (clock (3 * i + 1)%nat) (clock (3 * i + 2)%nat)) <| Ev_Source := "node-supervisor" |>) queues.

Definition spendEvidence (agents : option Agents) (allocation : string) (now : time) : option Evidence :=
  a ← agents; e ← SpendEvidence a allocation; Some (e <| Ev_Source := "node-supervisor" |> <| Ev_ObservedAt := now |>).

(** [reconcileOne] on the backend, which is asked to start a container only when the
    supervisor decides so. *)
Definition supervise_one (agents : option Agents) (written : bool) (clock : nat → time) (b : B) (s : Supervisor) (entry : DesiredAllocation)
    : B * Supervisor * list string * result (list Evidence) :=
  let id := Desired_ID entry in
  let '(b1, start) := ctr_Start backend b id (id +:+ ".log") in
  let '(s, starts, r) :=
    reconcileOne (Container_Inspect backend b id) (match start with Ok _ => None | Err e => Some (error_text e) end)
      (match agents with Some a => Agents_Exhausted a id | None => false end) (spendEvidence agents id (clock 3%nat)) written clock s entry in
  (match starts with O => b | S _ => b1 end, s, match starts with O => [] | S _ => [id] end, r).

Fixpoint supervise_loop (agents : option Agents) (written : nat → bool) (clock : nat → nat → time) (i : nat) (b : B) (s : Supervisor)
    (l : list DesiredAllocation) : B * Supervisor * list string * (list Evidence * result unit) :=
  match l with
  | [] => (b, s, [], ([], Ok tt))
  | entry :: l =>
      let '(b, s, started, r) := supervise_one agents (written i) (clock i) b s entry in
      match r with
      | Err e => (b, s, started, ([], Err e))
      | Ok evidence =>
          let '(b, s, started', (rest, r)) := supervise_loop agents written clock (S i) b s l in
          (b, s, started ++ started', (evidence ++ rest, r))
      end
  end.

(** [Supervisor.Reconcile]: what the host and the monitor answer, the containers started,
    and the observations up to the first error. *)
Definition Supervisor_Reconcile {W} (get : W → string → W * HttpAnswer) (nodeID : string) (agents : option Agents) (queues : list (string * WorkQueue))
    (written : nat → bool) (clock : nat → nat → time) (b : B) (w : W) (p : option ProviderMonitor) (s : Supervisor)
    : B * W * option ProviderMonitor * Supervisor * list string * (list Evidence * result unit) :=
  let '(w, p, providers) :=
    match p with
    | None => (w, None, [])
    | Some p => let '(w, p, l) := refreshProviders get nodeID w p (clock 0%nat) in (w, Some p, l)
    end in
  let queued := observeQueues (clock 1%nat) queues in
  let '(b, s, started, (observed, r)) := supervise_loop agents written clock 2 b s (Desired_List (Supervisor_desired s)) in
  (b, w, p, s, started, (providers ++ queued ++ observed, r)).

(** Containers of ours that no order accounts for. *)
Definition Orphans (managed : option (result (list string))) (s : Supervisor) : result (list string) :=
  need listed := managed else "runtime backend cannot enumerate managed containers";
  let* ids := wrap_err "list managed containers: %w" listed in
  Ok (filter (λ id, Desired_Get (Supervisor_desired s) id = None) ids).
End Pass.

(** ** Theorems *)

(** What the control plane records of a measurement the node cached. *)
Definition reach_of (r : providerResult) : ProviderReach := mkProviderReach (pr_reachable r) (pr_observedAt r) (pr_expiresAt r) (pr_detail r).

Lemma CanReach_cached (n : Node) (p : ProviderMonitor) provider r now :
  Node_Providers n !! provider = Some (reach_of r) → PM_results p !! provider = Some r → CanReach n provider now = Reachable p now provider.
Proof. intros H1 H2. unfold CanReach, Reachable. rewrite H1, H2. destruct r as [a b c d]. cbn. by destruct a, (IsZero d), (Before now d). Qed.

Section Reach.
Context {W : Type} (get : W → string → W * HttpAnswer) (nodeID : string) (clock : nat → time).
Context (Hclock : ∀ i j, (i <= j)%nat → clock i <= clock j).

(** Every measurement the world holds of the node was made by the given time. *)
Definition no_later (n : Node) (now : time) : Prop := ∀ provider r, Node_Providers n !! provider = Some r → Reach_ObservedAt r <= now.
(** The world and the cache agree on the providers in [s]. *)
Definition in_agreement (s : gset string) (n : Node) (p : ProviderMonitor) : Prop := ∀ provider, provider ∈ s →
  ∃ r, PM_results p !! provider = Some r ∧ Node_Providers n !! provider = Some (reach_of r).

Lemma project_measurement (w : World) (n : Node) x reachable detail now expires :
  Nodes w !! nodeID = Some n → Provider_Name x ≠ "" → no_later n now →
  projectInto w (attribute_provider nodeID (mkEvidence EvidenceProviderReachable (Provider_Name x) "" now expires (provider_observed reachable detail)))
  = Ok (put_node w nodeID (n <| Node_Providers ::= <[Provider_Name x := mkProviderReach reachable now expires detail]> |>)).
Proof.
  intros Hn Hx Hl. set (e := attribute_provider _ _).
  assert (observed e "node" = nodeID ∧ observed e "reachable" = Sprint_bool reachable ∧ observed e "detail" = detail) as (E1 & E2 & E3).
  { unfold e, attribute_provider, observed, provider_observed. simpl_set. cbn [Ev_Observed].
    split; [by rewrite lookup_insert_eq|]. rewrite !lookup_insert_ne by done. case_bool_decide as Hd; [subst detail; by repeat split|].
    by rewrite lookup_insert_eq, lookup_insert_ne. }
  change (projectProviderReachable w e = Ok (put_node w nodeID (n <| Node_Providers ::= <[Provider_Name x := mkProviderReach reachable now expires detail]> |>))).
  unfold projectProviderReachable. rewrite E1, E2, E3, Hn. change (Ev_Target e) with (Provider_Name x). rewrite bool_decide_false by done.
  assert (match Node_Providers n !! Provider_Name x with
          | Some existing => negb (IsZero (Reach_ObservedAt existing)) && Before (Ev_ObservedAt e) (Reach_ObservedAt existing) | None => false end = false) as ->.
  { destruct (Node_Providers n !! Provider_Name x) as [r|] eqn:Hr; [|done]. apply Hl in Hr. apply andb_false_iff. right.
    unfold Before. apply Z.ltb_ge. exact Hr. }
  change (Ev_ObservedAt e) with now. change (Ev_ExpiresAt e) with expires. by destruct reachable.
Qed.

Lemma refresh_agrees w0 p i l (w : World) (n : Node) s :
  Nodes w !! nodeID = Some n → Forall (λ x, Provider_Name x ≠ "") l → no_later n (clock i) → in_agreement s n p →
  let '(_, p', evidence) := refresh_loop get w0 p clock i l in
  ∃ w' n', for_each projectInto w (attribute_provider nodeID <$> evidence) = Ok w' ∧ Nodes w' !! nodeID = Some n' ∧
    in_agreement (s ∪ list_to_set (Provider_Name <$> l)) n' p'.
Proof.
  revert w0 p i w n s. induction l as [|x l IH]; intros w0 p i w n s Hn Hall Hl Hs; cbn [refresh_loop].
  { exists w, n. split; [done|]. split; [done|]. cbn. by rewrite union_empty_r_L. }
  apply Forall_cons in Hall as [Hx Hall]. destruct (measure get w0 x) as [w1 [reachable detail]].
  set (r := mkProviderResult reachable detail (clock i) (time_Add (clock i) (provider_ttl p))).
  set (p1 := p <| PM_results ::= <[Provider_Name x := r]> |>). set (n1 := n <| Node_Providers ::= <[Provider_Name x := reach_of r]> |>).
  specialize (IH w1 p1 (S i) (put_node w nodeID n1) n1 (s ∪ {[Provider_Name x]})).
  destruct (refresh_loop get w1 p1 clock (S i) l) as [[w2 p2] rest]. destruct IH as (w' & n' & Hw' & Hn' & Ha).
  - unfold put_node. simpl_set. by rewrite lookup_insert_eq.
  - done.
  - intros provider q. unfold n1. simpl_set. specialize (Hclock i (S i) ltac:(lia)). destruct (decide (provider = Provider_Name x)) as [->|Hne].
    + rewrite lookup_insert_eq. intros [= <-]. cbn. lia.
    + rewrite lookup_insert_ne by done. intros Hq. apply Hl in Hq. lia.
  - intros provider [Hp|Hp%elem_of_singleton]%elem_of_union; unfold n1, p1; simpl_set.
    + destruct (decide (provider = Provider_Name x)) as [->|Hne]; [exists r; by rewrite !lookup_insert_eq|]. rewrite !lookup_insert_ne by done. by apply Hs.
    + subst provider. exists r. by rewrite !lookup_insert_eq.
  - exists w', n'. cbn [fmap list_fmap for_each]. rewrite (project_measurement w n x reachable detail _ _ Hn Hx Hl). split; [exact Hw'|]. split; [done|].
    cbn [fmap list_fmap list_to_set]. by rewrite (assoc_L (∪)).
Qed.
End Reach.

(** The scheduler sees the reach the node has.  When a node refreshes its providers and the
    control plane projects what it reports, the report is accepted, and from then on, for
    every declared provider and at every moment, the node's own answer to whether an agent
    can reach it and the kernel's answer when it considers placing one are the same: both
    expire together, and neither trusts a measurement longer than the other. *)
Theorem provider_reach_shared {W} (get : W → string → W * HttpAnswer) nodeID clock w0 p (w : World) (n : Node)
    (Hclock : ∀ i j, (i <= j)%nat → clock i <= clock j) (Hn : Nodes w !! nodeID = Some n)
    (Hnames : Forall (λ x, Provider_Name x ≠ "") (PM_Endpoints p)) (Hlate : no_later n (clock 0%nat)) :
  let '(_, p', evidence) := refreshProviders get nodeID w0 p clock in
  ∃ w' n', for_each projectInto w evidence = Ok w' ∧ Nodes w' !! nodeID = Some n' ∧
    ∀ x now, x ∈ PM_Endpoints p → CanReach n' (Provider_Name x) now = Reachable p' now (Provider_Name x).
Proof.
  unfold refreshProviders, Refresh. pose proof (merge_sort_Permutation provider_le (PM_Endpoints p)) as Hperm.
  pose proof (refresh_agrees get nodeID clock Hclock w0 p 0 (merge_sort provider_le (PM_Endpoints p)) w n ∅ Hn) as H.
  destruct (refresh_loop get w0 p clock 0 _) as [[w1 p'] evidence]. destruct H as (w' & n' & Hw & Hn' & Ha).
  - by rewrite Hperm.
  - done.
  - by intros provider ?%not_elem_of_empty.
  - exists w', n'. split; [done|]. split; [done|]. intros x now Hx. destruct (Ha (Provider_Name x)) as (r & H1 & H2).
    + apply elem_of_union_r, elem_of_list_to_set, list_elem_of_fmap. exists x. split; [done|]. by rewrite Hperm.
    + by eapply CanReach_cached.
Qed.

(** A workload is ready only when that was measured.  If the node's observer reports an
    allocation ready, then (for every kind but a database, whose engine answers for it) its
    container exists and runs; for a TCP probe its own endpoint accepted a connection, for
    an HTTP probe it answered with a status from 200 to 399, and an agent has budget left
    and a provider it can reach. *)
Theorem readiness_measured {B N} dial get (o : RuntimeObserver B N) databases agents b n target observed'
    (Hready : Composite_ObserveReadiness dial get (Some o) databases agents b n target = Ok (true, observed')) :
  (Probe_Kind target ≠ ProbeDatabase → ∃ backend state, RO_backend o = Some backend ∧
     Container_Inspect backend b (Probe_Allocation target) = Ok state ∧ Backend_Exists state = true ∧ Backend_Running state = true) ∧
  (Probe_Kind target = ProbeTCP → ∃ address, endpoint o n target = Ok address ∧ dial address = Ok tt) ∧
  (Probe_Kind target = ProbeHTTP → ∃ address path code, endpoint o n target = Ok address ∧ get ("http://" +:+ address +:+ path) = Status_ code ∧ 200 <= code < 400) ∧
  (Probe_Kind target = ProbeDatabase → ∃ db engine address port, databases = Some db ∧ db_engines db !! Probe_Engine target = Some engine ∧
     reachable db (Probe_Allocation target) = Some (address, port) ∧ engine_Ready engine (Probe_Allocation target) address port = Ok true) ∧
  (Probe_Kind target = ProbeAgent → ∃ a reach m, agents = Some (a, Some reach) ∧ Agents_meters a !! Probe_Allocation target = Some m ∧
     Budget_Exhausts (meter_spent m) (meter_budget m) = false ∧ reach (Probe_Provider target) = true).
Proof.
  assert (∀ t observed', Runtime_ObserveReadiness dial get o b n t = Ok (true, observed') → ∃ backend state seen, RO_backend o = Some backend ∧
    Container_Inspect backend b (Probe_Allocation t) = Ok state ∧ Backend_Exists state = true ∧ Backend_Running state = true ∧
    measure_running dial get o n t seen = Ok (true, observed')) as Hruntime.
  { intros t obs H. unfold Runtime_ObserveReadiness in H. destruct (RO_backend o) as [backend|]; [|done].
    destruct (Container_Inspect backend b (Probe_Allocation t)) as [state|] eqn:Hi; [|done]. cbn [wrap_err rbind] in H.
    destruct (Backend_Exists state) eqn:He, (Backend_Running state) eqn:Hr; try done. cbn [negb orb] in H. eexists backend, state, _. split_and!; eauto. }
  unfold Composite_ObserveReadiness in Hready. case_bool_decide as Hdb.
  { rewrite Hdb. split_and!; try done. intros _. destruct databases as [db|]; [|done].
    unfold Database_ObserveReadiness in Hready. destruct (bool_decide _); [done|]. destruct (db_engines db !! Probe_Engine target) as [engine|] eqn:Heng; [|done].
    destruct (reachable db _) as [[address port]|] eqn:Hre; [|done]. destruct (engine_Ready engine _ _ _) as [ready|] eqn:He; [|done]. injection Hready as -> _.
    by exists db, engine, address, port. }
  case_bool_decide as Hagent.
  { rewrite Hagent. destruct agents as [[a providers]|]; [|done]. destruct (Runtime_ObserveReadiness dial get o b n _) as [[[] seen]|] eqn:Hr; [|done..].
    destruct (Hruntime _ _ Hr) as (backend & state & _ & H1 & H2 & H3 & H4 & _). split; [eauto 10|]. split_and!; try done. intros _.
    cbn [rbind fst negb] in Hready. unfold Agents_ObserveReadiness in Hready. do 2 (destruct (bool_decide _); [done|]).
    destruct (Agents_meters a !! Probe_Allocation target) as [m|] eqn:Hm; [|done]. destruct (Budget_Exhausts _ _) eqn:Hb; [done|].
    destruct providers as [reach|]; [|done]. destruct (reach (Probe_Provider target)) eqn:Hreach; [|done]. by exists a, reach, m. }
  destruct (Hruntime _ _ Hready) as (backend & state & seen & H1 & H2 & H3 & H4 & Hm). split; [eauto 10|]. unfold measure_running in Hm. split_and!.
  - intros Hk. rewrite Hk in Hm. cbn -[endpoint] in Hm. destruct (endpoint o n target) as [address|]; [|done]. cbn [rbind] in Hm.
    destruct (dial address) as [[]|] eqn:Hd; [|done]. eauto.
  - intros Hk. rewrite Hk in Hm. cbn -[endpoint String.append] in Hm. destruct (endpoint o n target) as [address|]; [|done]. cbn [rbind] in Hm.
    destruct (get _) as [| |code] eqn:Hg; [done..|]. destruct ((200 <=? code) && (code <? 400)) eqn:Hc; [|done].
    apply andb_true_iff in Hc as [?%Z.leb_le ?%Z.ltb_lt]. eexists address, _, code. split; [done|]. split; [exact Hg|]. lia.
  - done.
  - done.
Qed.

Section Passes.
Context {B : Type} {codec : DesiredCodec} (backend : ContainerBackend B).
(** Starting one container does not change what is seen of another. *)
Context (isolated : ∀ b id log other, other ≠ id → ctr_Inspect backend (ctr_Start backend b id log).1 other = ctr_Inspect backend b other).

Definition reported (id : string) (l : list Evidence) : Prop := ∃ e, e ∈ l ∧ Ev_Target e = id ∧ Ev_Kind e ∈ [EvidenceAllocationFailed; EvidenceAllocationRunning].

Lemma supervise_one_spec agents written clock b s entry b' s' started r :
  supervise_one backend agents written clock b s entry = (b', s', started, r) →
  (started = [] ∨ started = [Desired_ID entry] ∧ Desired_Running entry = true) ∧
  (∀ other, other ≠ Desired_ID entry → ctr_Inspect backend b' other = ctr_Inspect backend b other) ∧
  ∀ evidence st, r = Ok evidence → Desired_Running entry = true → ctr_Inspect backend b (Desired_ID entry) = Ok st → Backend_Running st = false →
    reported (Desired_ID entry) evidence.
Proof.
  unfold supervise_one. pose proof (isolated b (Desired_ID entry) (Desired_ID entry +:+ ".log")) as Hiso.
  destruct (ctr_Start backend b _ _) as [b1 start]. cbn [fst] in Hiso.
  destruct (reconcileOne _ _ _ _ _ _ _ _) as [[s1 starts] r1] eqn:H. intros [= <- <- <- <-].
  unfold reconcileOne, Container_Inspect in H.
  assert (∀ l x, Ev_Target x = Desired_ID entry → Ev_Kind x ∈ [EvidenceAllocationFailed; EvidenceAllocationRunning] → reported (Desired_ID entry) (l ++ [x])) as Hsnoc.
  { intros l x H1 H2. exists x. split; [apply elem_of_app; right; by left|done]. }
  destruct (ctr_Inspect backend b (Desired_ID entry)) as [st|] eqn:Hi; [|by simplify_eq; split; [left|]].
  destruct (Desired_Running entry) eqn:Hrun; cbn [negb] in H; [|by simplify_eq; split; [left|]].
  destruct (Backend_Running st) eqn:Hr; [simplify_eq; split; [by left|]; split; [done|]; by intros ? ? _ _ [= <-]; rewrite Hr|].
  destruct (Backend_Exists st); cbn [negb] in H; [|simplify_eq; split; [by left|]; split; [done|]; intros ? ? [= <-] _ _ _; apply Hsnoc; [done|by left]].
  destruct (match agents with Some a => _ | None => false end); [simplify_eq; split; [by left|]; split; [done|]; intros ? ? [= <-] _ _ _; apply Hsnoc; [done|by left]|].
  destruct (allowRestart _ _ _) as [h []]; cbn [negb] in H; [|simplify_eq; split; [by left|]; split; [done|]; intros ? ? [= <-] _ _ _; apply Hsnoc; [done|by left]].
  destruct start as [task|]; [|simplify_eq; split; [by right|]; split; [done|]; intros ? ? [= <-] _ _ _; apply Hsnoc; [done|by left]].
  destruct (recordRestart _ _ _ _) as [d []]; simplify_eq; (split; [by right|]; split; [done|]); [|done].
  intros ? ? [= <-] _ _ _. apply Hsnoc; [done|]. right. by left.
Qed.

Lemma supervise_loop_spec agents written clock i b s l b' s' started evidence r :
  NoDup (Desired_ID <$> l) → supervise_loop backend agents written clock i b s l = (b', s', started, (evidence, r)) →
  started `sublist_of` (Desired_ID <$> l) ∧ (∀ id, id ∈ started → ∃ entry, entry ∈ l ∧ Desired_ID entry = id ∧ Desired_Running entry = true) ∧
  (r = Ok tt → ∀ entry st, entry ∈ l → Desired_Running entry = true → ctr_Inspect backend b (Desired_ID entry) = Ok st → Backend_Running st = false →
    reported (Desired_ID entry) evidence).
Proof.
  revert i b s b' s' started evidence r. induction l as [|x l IH]; intros i b s b' s' started evidence r Hnd H; cbn [supervise_loop] in H.
  { injection H as <- <- <- <- <-. split; [constructor|]. split; [by intros ? ?%not_elem_of_nil|by intros _ ? ? ?%not_elem_of_nil]. }
  apply NoDup_cons in Hnd as [Hx Hnd]. destruct (supervise_one _ _ _ _ _ _ _) as [[[b1 s1] started1] r1] eqn:H1.
  apply supervise_one_spec in H1 as (Hstart & Hinspect & Hreport).
  assert (∀ rest, rest `sublist_of` (Desired_ID <$> l) → (started1 ++ rest) `sublist_of` (Desired_ID <$> x :: l)) as Hsub.
  { intros rest Hrest. destruct Hstart as [->|[-> _]]; cbn; by constructor. }
  assert (∀ id, id ∈ started1 → ∃ entry, entry ∈ x :: l ∧ Desired_ID entry = id ∧ Desired_Running entry = true) as Hone.
  { intros id Hid. destruct Hstart as [->|[-> Hrun]]; [by apply not_elem_of_nil in Hid|]. apply list_elem_of_singleton in Hid as ->. exists x. split; [by left|done]. }
  destruct r1 as [ev1|]; [|injection H as <- <- <- <- <-; split; [rewrite <-(app_nil_r started1); apply Hsub, sublist_nil_l|]; split; done].
  destruct (supervise_loop _ _ _ _ _ _ _ _) as [[[b2 s2] started2] [rest r2]] eqn:H2. injection H as <- <- <- <- <-.
  apply IH in H2 as (Hs & Ho & Hr); [|done]. split; [by apply Hsub|]. split.
  - intros id [Hid|Hid]%elem_of_app; [by apply Hone|]. destruct (Ho id Hid) as (entry & ? & ?). exists entry. split; [by right|done].
  - intros -> entry st Hin Hrun Hi Hdead. apply elem_of_cons in Hin as [->|Hin].
    + destruct (Hreport ev1 st eq_refl Hrun Hi Hdead) as (e & He & ?). exists e. split; [apply elem_of_app; by left|done].
    + destruct (Hr eq_refl entry st Hin Hrun) as (e & He & ?); [|done|exists e; split; [apply elem_of_app; by right|done]].
      rewrite Hinspect; [done|]. intros E. apply Hx. rewrite <-E. by apply list_elem_of_fmap_2.
Qed.

Lemma Desired_List_ids d : filed (entries d) → Desired_ID <$> Desired_List d = sorted_ids (entries d).
Proof.
  intros Hf. unfold Desired_List. assert (∀ id, id ∈ sorted_ids (entries d) → is_Some (entries d !! id)) as Hin.
  { intros id. unfold sorted_ids. rewrite sort_Strings_perm, list_elem_of_fmap. intros ([k e] & -> & He). apply elem_of_map_to_list in He. by eexists. }
  induction (sorted_ids (entries d)) as [|id l IH]; [done|]. destruct (Hin id) as [e He]; [by left|]. cbn. rewrite He. cbn.
  destruct (Hf id e He) as [-> _]. f_equal. apply IH. intros k Hk. apply Hin. by right.
Qed.

(** A supervision pass keeps to its orders and hides no crash.  Each container is started at
    most once, and only one the server ordered to run; if the pass ends well, every
    allocation that is to run and whose container was seen not running is reported, as
    restarted or as failed. *)
Theorem supervision_pass {W} (get : W → string → W * HttpAnswer) nodeID agents queues written clock b w p s b' w' p' s' started evidence r
    (Hfiled : filed (entries (Supervisor_desired s)))
    (H : Supervisor_Reconcile backend get nodeID agents queues written clock b w p s = (b', w', p', s', started, (evidence, r))) :
  NoDup started ∧
  (∀ id, id ∈ started → ∃ entry, entries (Supervisor_desired s) !! id = Some entry ∧ Desired_Running entry = true) ∧
  (r = Ok tt → ∀ id entry st, entries (Supervisor_desired s) !! id = Some entry → Desired_Running entry = true →
    ctr_Inspect backend b id = Ok st → Backend_Running st = false → reported id evidence).
Proof.
  unfold Supervisor_Reconcile in H. destruct (match p with None => _ | Some _ => _ end) as [[w1 p1] providers].
  destruct (supervise_loop _ _ _ _ _ _ _ _) as [[[b1 s1] started1] [observed r1]] eqn:Hl. injection H as <- <- <- <- <- <- <-.
  pose proof (Desired_List_ids _ Hfiled) as Eids. assert (NoDup (sorted_ids (entries (Supervisor_desired s)))) as Hnd.
  { unfold sorted_ids. rewrite sort_Strings_perm. apply NoDup_fst_map_to_list. }
  assert (∀ entry, entry ∈ Desired_List (Supervisor_desired s) → entries (Supervisor_desired s) !! Desired_ID entry = Some entry) as Hlook.
  { intros entry He. unfold Desired_List in He. apply list_elem_of_omap in He as (id & _ & He). by destruct (Hfiled id entry He) as [-> _]. }
  apply supervise_loop_spec in Hl as (Hsub & Hord & Hrep); [|by rewrite Eids]. rewrite Eids in Hsub. split; [by eapply sublist_NoDup|]. split.
  - intros id Hid. destruct (Hord id Hid) as (entry & He & <- & Hrun). exists entry. split; [by apply Hlook|done].
  - intros -> id entry st He Hrun Hi Hdead. destruct (Hfiled id entry He) as [Hid _].
    destruct (Hrep eq_refl entry st) as (e & Hin & ? & ?); [|done|by rewrite Hid|done|].
    + unfold Desired_List. apply list_elem_of_omap. exists id. split; [|done]. unfold sorted_ids. rewrite sort_Strings_perm.
      apply list_elem_of_fmap. exists (id, entry). split; [done|]. by apply elem_of_map_to_list.
    + exists e. split; [apply elem_of_app; right; apply elem_of_app; by right|]. by rewrite <-Hid.
Qed.
End Passes.

(** ** A sample node *)

Module ProbeSample.
#[local] Existing Instance SuperviseSample.sample_codec.
(** A backend whose state is the set of containers that run. *)
Definition backend : ContainerBackend (gset string) :=
  mkContainerBackend (λ b _, (b, Ok "")) (λ b _, (b, Ok true)) (λ b id _, ({[id]} ∪ b, Ok (mkBackendTask 7 false)))
    (λ b id _, (b ∖ {[id]}, Ok (mkBackendStop 0 false false))) (λ b _, (b, Ok true))
    (λ b id, Ok (mkBackendState true (bool_decide (id ∈ b)) 7 1)) None.
Lemma backend_isolated b id log other : other ≠ id → ctr_Inspect backend (ctr_Start backend b id log).1 other = ctr_Inspect backend b other.
Proof. intros Hne. cbn. do 2 f_equal. apply bool_decide_ext. set_solver. Qed.

Definition get (w : nat) (url : string) : nat * HttpAnswer := (S w, if bool_decide (url = "https://models") then Status_ 401 else Status_ 503).
Definition monitor : ProviderMonitor := NewProviderMonitor [mkProviderEndpoint "maker" "https://models"; mkProviderEndpoint "broken" "https://down"].
Definition ticks (i : nat) : time := 100 + Z.of_nat i.
Definition plain_node : Node := mkNode "n1" ∅ (mkResources 1000 1000) Resources_zero ∅ true "" false "" "" 0 "" "" ∅ Budget_zero Budget_zero.
Definition plain_world : World := mkWorld 1 100 {["n1" := plain_node]} ∅ ∅ ∅ ∅ ∅ ∅ [] ∅.
Definition refreshed : nat * ProviderMonitor * list Evidence := Eval vm_compute in refreshProviders get "n1" 0%nat monitor ticks.

Lemma provider_reach_shared_witness :
  Reachable refreshed.1.2 150 "maker" = true ∧ Reachable refreshed.1.2 150 "broken" = false ∧
  ∃ w' n', for_each projectInto plain_world refreshed.2 = Ok w' ∧ Nodes w' !! "n1" = Some n' ∧
    ∀ x now, x ∈ PM_Endpoints monitor → CanReach n' (Provider_Name x) now = Reachable refreshed.1.2 now (Provider_Name x).
Proof.
  split; [vm_compute; reflexivity|]. split; [vm_compute; reflexivity|].
  refine (provider_reach_shared get "n1" ticks 0%nat monitor plain_world plain_node _ _ _ _).
  - intros i j H. unfold ticks. lia.
  - vm_compute. reflexivity.
  - repeat constructor; discriminate.
  - by intros provider r.
Defined.

Definition observer : RuntimeObserver (gset string) unit := NewRuntimeObserver backend.
Definition tcp_probe : ProbeTarget := mkProbeTarget "web-0" ProbeTCP 80 "" "" "10.0.0.2" "" "n1".
Definition answers (address : string) : result unit := if bool_decide (address = "10.0.0.2:80") then Ok tt else Err (Errorf "connection refused").
Definition no_get (_ : string) : HttpAnswer := NoAnswer (Errorf "connection refused").
Lemma readiness_measured_witness : ∃ address, endpoint observer tt tcp_probe = Ok address ∧ answers address = Ok tt.
Proof.
  refine (proj1 (proj2 (readiness_measured answers no_get observer None None {["web-0"]} tt tcp_probe _ _)) _); [vm_compute; reflexivity|reflexivity].
Defined.

(** One container runs, one has crashed, one is to be left alone. *)
Definition entry_of (id : string) (running : bool) : DesiredAllocation :=
  (SuperviseSample.web_entry) <| Desired_ID := id |> <| Desired_Running := running |>.
Definition orders : DesiredState :=
  mkDesiredState (<["web-0" := entry_of "web-0" true]> (<["web-1" := entry_of "web-1" true]> {["web-2" := entry_of "web-2" false]})) [].
Definition supervisor : Supervisor := mkSupervisor SuperviseSample.default_limits ∅ orders.
Definition pass := Supervisor_Reconcile backend get "n1" None [] (λ _, true) (λ _ i, ticks i) {["web-0"]} 0%nat None supervisor.
Lemma supervision_pass_witness : pass.1.2 = ["web-1"] ∧ NoDup pass.1.2 ∧ reported "web-1" pass.2.1.
Proof.
  destruct pass as [[[[[b' w'] p'] s'] started] [evidence r]] eqn:H.
  assert (started = ["web-1"] ∧ r = Ok tt) as [E Er].
  { change (started = ["web-1"] ∧ r = Ok tt) with ((b', w', p', s', started, (evidence, r)).1.2 = ["web-1"] ∧ (b', w', p', s', started, (evidence, r)).2.2 = Ok tt).
    rewrite <-H. split; vm_compute; reflexivity. }
  destruct (supervision_pass backend backend_isolated get "n1" None [] (λ _, true) (λ _ i, ticks i) {["web-0"]} 0%nat None supervisor
    b' w' p' s' started evidence r) as (H1 & _ & H3).
  - intros id e. unfold supervisor, orders. cbn [Supervisor_desired entries]. rewrite !lookup_insert_Some, lookup_singleton_Some.
    intros [[<- <-]|[_ [[<- <-]|[_ [<- <-]]]]]; split; (reflexivity || discriminate).
  - exact H.
  - split; [exact E|]. split; [exact H1|]. apply (H3 Er "web-1" (entry_of "web-1" true) (mkBackendState true false 7 1)); vm_compute; reflexivity.
Defined.

(** An agent's probe asks first whether its container runs; a database's does not. *)
Definition always_ready : DatabaseEngine := mkDatabaseEngine "postgres" (λ _ _ _ _, io_ret tt) (λ _ _ _, Ok true).
Definition databases : DatabaseManager := NewDatabaseManager (λ _, Some ("10.0.0.3", 5432)) [always_ready].
Lemma database_liveness_unchecked :
  ctr_Inspect backend ∅ "db-0" = Ok (mkBackendState true false 7 1) ∧
  (let* r := Composite_ObserveReadiness answers no_get (Some observer) (Some databases) None ∅ tt (mkProbeTarget "db-0" ProbeDatabase 5432 "" "" "" "postgres" "n1") in
   Ok r.1) = Ok true.
Proof. split; vm_compute; reflexivity. Qed.
End ProbeSample.
