(* ===== verification/GoalSource.v ===== *)
(** * Goals from a repository (src/source/git.go)

    The server can follow a git repository: every document of a new commit is decoded and
    submitted like a goal of an operator.  The git mirror and the JSON of a goal are
    parameters; where a JSON value ends is the scanner of Wire. *)

From S2P Require Import Prelude Types Text Spread Policy Clone Executor EventLog Durable Lease Provenance Kernel Directory NetPolicy Cron Validate Keys Approvals Anchor Server WorkQueue Containers Channel Wire.
Open Scope Z_scope.

(** The mirror ([gitcmd.Source]), whose calls may fail one time and not the next. *)
Class GitSource (G : Type) := {
  git_Sync : G → G * result string;
  git_ListFiles : G → string → string → G * result (list string);
  git_CommitMessage : G → string → G * result string;
  git_ReadFile : G → string → string → G * result string }.

(** Who takes the goals. *)
Class Submitter (S : Type) := submit : S → Goal → S * result unit.

Class GoalCodec := { goal_values :: JsonScanner; decode_goal_value : string → option Goal }.

(** [path.Ext]: the last dot of the last element and what follows it. *)
Fixpoint Ext_from (found : string) (s : string) : string :=
  match s with
  | "" => found
  | String c s' => Ext_from (if bool_decide (c = Cron.slash) then "" else if bool_decide (c = dot) then s else found) s'
  end.
Definition Ext (file : string) : string := Ext_from "" file.

(** The folding of [strings.EqualFold], as far as ASCII text can meet it: upper case, and the
    long s (U+017F). *)
Fixpoint fold_case (s : string) : string :=
  match s with
  | "" => ""
  | String c s' =>
      match s' with
      | String c' s'' =>
          if bool_decide (c = Ascii.ascii_of_N 197) && bool_decide (c' = Ascii.ascii_of_N 191) then String (Ascii.ascii_of_N 115) (fold_case s'')
          else String (to_lower c) (fold_case s')
      | "" => String (to_lower c) ""
      end
  end.

Definition isGoalDocument (file : string) : bool := bool_decide (fold_case (Ext file) = ".json").

Record Result := mkResult {
  Result_Commit : string; Result_Message : string; Result_Goals : list string; Result_Changed : bool; Result_Rejected : gmap string string }.
#[export] Instance eta_Result : Eta Result := λ r,
  mkResult (Result_Commit r) (Result_Message r) (Result_Goals r) (Result_Changed r) (Result_Rejected r).
Definition Result_zero : Result := mkResult "" "" [] false ∅.

(** [err.Error()] of a rejection is the text of the error. *)
Definition Result_reject (result : Result) (file : string) (reason : error) : Result :=
  result <| Result_Rejected ::= <[file := Engine.error_text reason]> |>.

Section Source.
Context {codec : GoalCodec}.

(** [decoder.More] outside arrays and objects: something other than a closing bracket follows. *)
Fixpoint More (rest : string) : bool :=
  match rest with
  | "" => false
  | String c rest => if json_space c then More rest else negb (bool_decide (c = Ascii.ascii_of_N 93) || bool_decide (c = Ascii.ascii_of_N 125))
  end.

Definition decodeGoal (raw : string) : result Goal :=
  let '(l, r) := Decode decode_goal_value (mkLine (NewReader [raw]) (mkConn "" "" [])) in
  let* goal := wrap_err "decode goal: %w" r in
  refuse (More (unread (line_reader l))) "goal document has trailing content";
  refuse (bool_decide (Goal_ID goal = "")) "goal document has no id";
  Ok goal.

Context {G S : Type} {git : GitSource G} {submitter : Submitter S}.

Record Repository := mkRepository { Repo_Source : option G; Repo_Path : string; Repo_Submitter : option S; Repo_applied : string }.
#[export] Instance eta_Repository : Eta Repository := λ r, mkRepository (Repo_Source r) (Repo_Path r) (Repo_Submitter r) (Repo_applied r).

Definition NewRepository (source : option G) (dir : string) (s : option S) : Repository := mkRepository source dir s "".

(** One document: read, decoded, submitted. *)
Definition sync_file (commit : string) (file : string) (st : G * S * Result) : G * S * Result :=
  let '(g, s, result) := st in
  if negb (isGoalDocument file) then st
  else
    match git_ReadFile g commit file with
    | (g, Err err) => (g, s, Result_reject result file err)
    | (g, Ok raw) =>
        match decodeGoal raw with
        | Err err => (g, s, Result_reject result file err)
        | Ok goal =>
            match submit s goal with
            | (s, Err err) => (g, s, Result_reject result file err)
            | (s, Ok _) => (g, s, result <| Result_Goals ::= λ l, l ++ [Goal_ID goal] |>)
            end
        end
    end.
Fixpoint sync_files (commit : string) (files : list string) (st : G * S * Result) : G * S * Result :=
  match files with [] => st | file :: files => sync_files commit files (sync_file commit file st) end.

Definition Sync (r : Repository) : Repository * Result * result unit :=
  match Repo_Source r, Repo_Submitter r with
  | None, _ => (r, Result_zero, Err (Errorf "git source is not configured"))
  | Some _, None => (r, Result_zero, Err (Errorf "git source has no submitter"))
  | Some g, Some s =>
      match git_Sync g with
      | (g, Err err) => (r <| Repo_Source := Some g |>, Result_zero, Err err)
      | (g, Ok commit) =>
          if bool_decide (commit = Repo_applied r)
          then (r <| Repo_Source := Some g |>, Result_zero <| Result_Commit := commit |>, Ok tt)
          else match git_ListFiles g commit (Repo_Path r) with
          | (g, Err err) => (r <| Repo_Source := Some g |>, Result_zero, Err err)
          | (g, Ok files) =>
              let '(g, message) := git_CommitMessage g commit in
              let message := match message with Ok m => m | Err _ => "" end in
              let '(g, s, result) := sync_files commit (sort_Strings files) (g, s, mkResult commit message [] true ∅) in
              let r := r <| Repo_Source := Some g |> <| Repo_Submitter := Some s |> in
              if bool_decide (Result_Goals result = []) && negb (bool_decide (Result_Rejected result = ∅))
              then (r, result, Err (Errorf "no goal in %s could be applied"))
              else (r <| Repo_applied := commit |>, result, Ok tt)
          end
      end
  end.
Definition Applied (r : Repository) : string := Repo_applied r.
End Source.

(** The server takes goals through [Submit]. *)
#[export] Instance server_submitter {digest : Digest} {cidr : CIDRParser} : Submitter Server := Submit.

(** ** Every document is accounted for *)

Section Accounting.
Context {codec : GoalCodec} {G S : Type} {git : GitSource G} {submitter : Submitter S}.

(** The document of a commit, read at some time, is this goal. *)
Definition offered (commit file : string) (goal : Goal) : Prop :=
  ∃ g raw g', git_ReadFile g commit file = (g', Ok raw) ∧ decodeGoal raw = Ok goal.
Definition settled (commit file : string) (result : Result) : Prop :=
  (∃ goal, offered commit file goal ∧ Goal_ID goal ∈ Result_Goals result) ∨ is_Some (Result_Rejected result !! file).

(** What one document does: nothing, a rejection, or a goal the submitter took. *)
Lemma sync_file_cases commit file g s result g' s' result' :
  sync_file commit file (g, s, result) = (g', s', result') →
  (isGoalDocument file = false ∧ s' = s ∧ result' = result) ∨
  (isGoalDocument file = true ∧
   ((∃ err, result' = Result_reject result file err ∧ (s' = s ∨ ∃ goal, offered commit file goal ∧ submit s goal = (s', Err err))) ∨
    (∃ goal u, offered commit file goal ∧ submit s goal = (s', Ok u) ∧ result' = result <| Result_Goals ::= λ l, l ++ [Goal_ID goal] |>))).
Proof.
  unfold sync_file. destruct (isGoalDocument file); cbn [negb]; [|intros [= <- <- <-]; by left]. intros H. right. split; [done|].
  destruct (git_ReadFile g commit file) as [g1 [raw|err]] eqn:Hread; [|injection H as <- <- <-; left; exists err; split; [done|by left]].
  destruct (decodeGoal raw) as [goal|err] eqn:Hdec; [|injection H as <- <- <-; left; exists err; split; [done|by left]].
  assert (offered commit file goal) as Ho by by exists g, raw, g1.
  destruct (submit s goal) as [s1 [u|err]] eqn:Hsub; injection H as <- <- <-; [right; by exists goal, u|].
  left. exists err. split; [done|]. right. by exists goal.
Qed.

(** Settled stays settled, and each document is settled when it was visited. *)
Lemma sync_file_settled commit file g s result g' s' result' :
  sync_file commit file (g, s, result) = (g', s', result') →
  (∀ f, settled commit f result → settled commit f result') ∧ (isGoalDocument file = true → settled commit file result').
Proof.
  intros [(Hno & -> & ->)|(Hyes & [(err & -> & _)|(goal & u & Ho & _ & ->)])]%sync_file_cases; unfold settled, Result_reject; simpl_set.
  - split; [done|]. by rewrite Hno.
  - split; [|intros _; right; rewrite lookup_insert_eq; by eexists]. intros f [Hl|Hr]; [by left|right].
    rewrite lookup_insert. case_decide; [by eexists|done].
  - split; [|intros _; left; exists goal; split; [done|set_solver]]. intros f [(goal' & Ho' & Hin)|Hr]; [left|by right].
    exists goal'. split; [done|set_solver].
Qed.

Lemma sync_files_settled commit files g s result g' s' result' :
  sync_files commit files (g, s, result) = (g', s', result') →
  (∀ f, settled commit f result → settled commit f result') ∧ ∀ f, f ∈ files → isGoalDocument f = true → settled commit f result'.
Proof.
  revert g s result. induction files as [|file files IH]; intros g s result; cbn [sync_files].
  - intros [= <- <- <-]. split; [done|]. set_solver.
  - destruct (sync_file commit file (g, s, result)) as [[g1 s1] result1] eqn:H1. intros H.
    destruct (sync_file_settled _ _ _ _ _ _ _ _ H1) as [Hk1 Hf1]. destruct (IH _ _ _ H) as [Hk Hf].
    split; [by intros f Hs; apply Hk, Hk1|]. intros f [->|Hin]%elem_of_cons Hg; [by apply Hk, Hf1|by apply Hf].
Qed.
End Accounting.

(** ** What a server holds afterwards *)

Section Server.
Context {digest : Digest} {cidr : CIDRParser} {codec : GoalCodec} {G : Type} {git : GitSource G}.
Implicit Types (s : Server).

Lemma Submit_err s g s' err : Submit s g = (s', Err err) → s' = s.
Proof. unfold Submit. by destruct (NormalizeAndValidate _); intros [= <-]. Qed.

(** A server that took some of the documents, with the result so far. *)
Definition followed (commit : string) s0 s (result : Result) : Prop :=
  s = s0 <| Server_goals := Server_goals s |> ∧ (Result_Goals result = [] → s = s0) ∧
  ∀ id g, Server_goals s !! id = Some g → Server_goals s0 !! id = Some g ∨
    (id = Goal_ID g ∧ id ∈ Result_Goals result ∧ (∃ file, isGoalDocument file = true ∧ offered commit file g) ∧
     NormalizeAndValidate (mkScenario g (Server_World s0)) = Ok tt).

Lemma followed_step commit file s0 g s result g' s' result' :
  followed commit s0 s result → sync_file commit file (g, s, result) = (g', s', result') → followed commit s0 s' result'.
Proof.
  intros Hf [(_ & -> & ->)|(Hyes & [(err & -> & Hs)|(goal & u & Ho & Hsub & ->)])]%sync_file_cases; [done| |].
  - assert (s' = s) as -> by (destruct Hs as [->|(goal & _ & Hsub)]; [done|by eapply Submit_err]). done.
  - destruct Hf as (Hsame & _ & Hgoals). unfold submit, server_submitter, Submit in Hsub.
    assert (Server_World s = Server_World s0) as Hw by by rewrite Hsame.
    destruct (NormalizeAndValidate _) as [[]|] eqn:Hv; [|done]. injection Hsub as <- _. unfold followed. simpl_set. split; [by rewrite Hsame|].
    split; [by intros [_ ?]%app_nil|]. intros id g2. rewrite lookup_insert. case_decide as Hid.
    + intros [= <-]. right. split; [done|]. split; [set_solver|]. split; [by exists file|by rewrite <-Hw].
    + intros [?|(? & ? & ?)]%Hgoals; [by left|right]. split; [done|]. split; [set_solver|done].
Qed.

Lemma followed_files commit files s0 g s result g' s' result' :
  followed commit s0 s result → sync_files commit files (g, s, result) = (g', s', result') → followed commit s0 s' result'.
Proof.
  revert g s result. induction files as [|file files IH]; intros g s result Hf; cbn [sync_files]; [by intros [= <- <- <-]|].
  destruct (sync_file commit file (g, s, result)) as [[g1 s1] result1] eqn:H1. by eapply IH, followed_step.
Qed.

Lemma followed_refl commit s result : followed commit s s result.
Proof. split; [by destruct s|]. split; [done|]. intros id g Hg. by left. Qed.

Lemma sync_files_commit commit files g s result g' (s' : Server) result' :
  sync_files commit files (g, s, result) = (g', s', result') → Result_Commit result' = Result_Commit result ∧ Result_Changed result' = Result_Changed result.
Proof.
  revert g s result. induction files as [|file files IH]; intros g s result; cbn [sync_files]; [by intros [= <- <- <-]|].
  destruct (sync_file commit file (g, s, result)) as [[g1 s1] result1] eqn:H1. intros [-> ->]%IH.
  by apply sync_file_cases in H1 as [(_ & _ & ->)|(_ & [(err & -> & _)|(goal & u & _ & _ & ->)])].
Qed.

(** A commit that was applied is not read again. *)
Lemma sync_again (r : @Repository G Server) s commit g g' :
  Repo_Submitter r = Some s → Repo_applied r = commit → Repo_Source r = Some g → git_Sync g = (g', Ok commit) →
  Sync r = (r <| Repo_Source := Some g' |>, Result_zero <| Result_Commit := commit |>, Ok tt).
Proof. intros Hs Ha Hg Hc. unfold Sync. rewrite Hs, Hg, Hc, Ha. by rewrite bool_decide_true. Qed.

(** Rounds that submit nothing. *)
Lemma sync_kept (r r' : @Repository G Server) s commit (res : result unit) (P : Prop) :
  Repo_Submitter r' = Some s → Repo_applied r' = Repo_applied r → (res = Ok tt → P) →
  let result := Result_zero <| Result_Commit := commit |> in
  (∃ s', Repo_Submitter r' = Some s' ∧ followed (Result_Commit result) s s' result ∧ (res ≠ Ok tt → s' = s)) ∧
  (Result_Changed result = true → ∃ g files g', git_ListFiles g (Result_Commit result) (Repo_Path r) = (g', Ok files) ∧
     ∀ f, f ∈ files → isGoalDocument f = true → settled (Result_Commit result) f result) ∧
  (res ≠ Ok tt → Repo_applied r' = Repo_applied r) ∧
  (res = Ok tt → Result_Rejected result = ∅ → P).
Proof. intros Hs Ha HP. split; [|split; [done|split; auto]]. exists s. split; [done|]. split; [apply followed_refl|done]. Qed.

End Server.

(** ** A sample repository: two goals, and one read that fails *)

Module SourceSample.
Import WireSample.
#[local] Existing Instances ValidateSample.validate_cidr ValidateSample.validate_digest.

Definition site (id : string) : Goal :=
  mkGoal APIVersion id "serve the site" (ValidateSample.web_spec None) (Some (mkRouteSpec "example.org" 443 "public")) (mkConstraints ∅ []) None.
#[local] Instance sample_goals : GoalCodec := {|
  goal_values := sample_scanner;
  decode_goal_value s := match of_object s with Some (_, [id]) => Some (site id) | _ => None end |}.

(** The mirror holds the outcomes of the reads to come. *)
#[local] Instance sample_git : GitSource (list bool) := {|
  git_Sync g := (g, Ok "c1");
  git_ListFiles g _ _ := (g, Ok ["web.json"; "README.md"; "api.JSON"]);
  git_CommitMessage g _ := (g, Ok "deploy");
  git_ReadFile g _ file :=
    (tail g, match g with
             | false :: _ => Err (Errorf "git show: %w")
             | _ => Ok (object 0 [if bool_decide (file = "web.json") then "web" else "api"])
             end) |}.

Definition quiet_world : World := (Scenario_World (ValidateSample.web_scenario None)) <| Approvals := ∅ |>.
Definition server : Server :=
  mkServer (Some (mkFile (Some fresh_database) (mkLogRecord 0 "" "" Event_zero) 0)) (mkProjector quiet_world quiet_world) NewLeaseManager 12 ∅ ∅ None DefaultPolicy.
Definition repository (reads : list bool) : @Repository (list bool) Server := NewRepository (Some reads) "" (Some server).
Definition first_round (reads : list bool) : @Repository (list bool) Server * Result * result unit := Sync (repository reads).
Definition held (r : @Repository (list bool) Server) (id : string) : bool :=
  match Repo_Submitter r with Some s => bool_decide (is_Some (Server_goals s !! id)) | None => false end.


(** A document whose read failed once is not read again: the commit counts as applied. *)
Lemma failed_read_never_retried :
  let '(r, result, res) := first_round [true; false] in
  res = Ok tt ∧ Result_Rejected result !! "web.json" = Some "git show: %w" ∧ held r "web" = false ∧
  (Sync r).1.2 = Result_zero <| Result_Commit := "c1" |> ∧ held (Sync r).1.1 "web" = false.
Proof. vm_compute. repeat split; reflexivity. Qed.

(** Text after the document goes unnoticed when it starts with a closing brace. *)
Lemma trailing_brace_accepted : decodeGoal (object 0 ["web"] +:+ "} and more") = Ok (site "web").
Proof. vm_compute. reflexivity. Qed.
End SourceSample.
