(* ===== verification/Follow.v ===== *)
(** * A standby that follows its primary (syncStandby of src/cmd/a4s/standby.go,
      operatorClient of src/cmd/a4s/client.go)

    The follower asks the primary's operator API for the records after its own head, one
    batch after another, with signed requests.  The API is the modelled one; what the
    network, the clocks, the random source and the follower's disk do in each round is an
    argument, and so is the state of the API at that time.  JSON is a parameter. *)

From S2P Require Import Prelude Types Text Spread Clone Disruption Projection History Executor EventLog Durable Lease Provenance Kernel Rollout Engine Directory Canary NetPolicy Agents Cron Validate Keys Approvals Anchor Server Reconcile Plan Reports Standby OperatorApi ModelBoundary Placement WorkQueue Dispatch Secrets Containers Channel Wire.
Open Scope Z_scope.

(** The JSON of the signature header, of the answers, and of records read back. *)
Class ClientCodec := {
  encode_signature_header : SignedRequest → string;
  body_text : Payload → string;
  decode_records : string → option (list LogRecord) }.

Record operatorClient := mkOperatorClient { client_keyID : string; client_issuedBy : string; client_key : string }.

(** What becomes of a request. *)
Inductive Network := Unreachable | Answered (m : Moment) | AnswerLost (m : Moment).

(** One round: the nonce drawn, the client's clock, the network, the API as it is then, and
    whether the follower's disk takes what is committed. *)
Record Round := mkRound {
  round_nonce : option string; round_clock : time; round_network : Network; round_api : API; round_commits : bool }.

Section Client.
Context {att : Attest} {signer : Signer} {codec : RequestCodec} {client_codec : ClientCodec} {grants : GrantCodec} {events : EventCodec}
  {digest : Digest} {anchors : AnchorCodec} {cidr : CIDRParser} {clock : WallClock} {choice : NodeChoice}.
Context (agents : list Agent) (metrics_enabled : bool).

(** The envelope of a call; the query is not part of it. *)
Definition call_envelope (c : operatorClient) (nonce : string) (now : time) (method path payload : string) : RequestEnvelope :=
  mkRequestEnvelope 0 nonce method path (BodyDigest payload) (client_issuedBy c) "" now (time_Add now (2 * Minute)).

Definition client_request (c : operatorClient) (nonce : option string) (now : time) (method path : string) (query : gmap string string)
    (payload : string) : result HttpRequest :=
  need nonce := nonce else "generate nonce: %w";
  let* signed := SignRequest (call_envelope c nonce now method path payload) (client_keyID c) (client_key c) in
  Ok (mkHttpRequest method path query (encode_signature_header signed) (Some payload)).

(** [operatorClient.do]: the answer, as much of it as is read. *)
Definition client_do (c : operatorClient) (r : Round) (method path : string) (query : gmap string string) (payload : string) : result string :=
  let* request := client_request c (round_nonce r) (round_clock r) method path query payload in
  match round_network r with
  | Unreachable | AnswerLost _ => Err (Wrapf "contact server: %w" (Errorf "i/o timeout"))
  | Answered m =>
      let response := (Handler agents metrics_enabled m (round_api r) request).2 in
      refuse (400 <=? Http_Status response) "server refused %s %s: %s: %s";
      Ok (take_string (Z.to_nat MaxRequestBody) (body_text (Http_Payload response)))
  end.

Definition records_query (after : Z) : gmap string string := <["after" := Sprint after]> {["limit" := Sprint MaxRecordBatch]}.

(** [syncStandby], with the number of records applied; [None] is a loop that goes on. *)
Fixpoint syncStandby (fuel : nat) (c : operatorClient) (rounds : nat → Round) (k : nat) (applied : Z) (s : Standby) : option (Standby * result Z) :=
  match fuel with
  | O => None
  | S fuel =>
      match client_do c (rounds k) "GET" "/v1/records" (records_query (Rec_Sequence (Standby_Head s))) "" with
      | Err e => Some (s, Err e)
      | Ok answer =>
          match decode_records answer with
          | None => Some (s, Err (Errorf "decode records: %w"))
          | Some [] => Some (s, Ok applied)
          | Some records =>
              match Standby_Ingest (round_commits (rounds k)) s records with
              | (s, _, Err e) => Some (s, Err (Wrapf "ingest records after %d: %w" e))
              | (s, count, Ok _) =>
                  let applied := i64 (applied + count) in
                  if count =? 0 then Some (s, Ok applied) else syncStandby fuel c rounds (S k) applied s
              end
          end
      end
  end.
End Client.

(** ** The numbers of a query *)

Lemma all_digits_go (x : N) s : all_digits s = true → all_digits (pretty_N_go x s) = true.
Proof.
  revert s. induction (N.lt_wf_0 x) as [x _ IH]; intros s Hs.
  destruct (decide (x = 0)%N) as [->|Hx]; [by rewrite pretty_N_go_0|].
  rewrite pretty_N_go_step by lia. apply IH; [apply N.div_lt; lia|]. cbn [all_digits].
  destruct (pretty_char_digit (x mod 10) (N.mod_lt x 10 ltac:(lia))) as [-> _]. done.
Qed.

Lemma ParseUint_Sprint n : 0 <= n < two64 → ParseUint (Sprint n) = Some n.
Proof.
  intros Hn. unfold ParseUint, Sprint. assert (pretty n = pretty (Z.to_N n)) as ->.
  { unfold pretty at 1, pretty_Z. destruct n as [|p|p]; [done|done|lia]. }
  destruct (pretty_N_digits (Z.to_N n)) as [Hs Hd].
  assert (all_digits (pretty (Z.to_N n)) = true) as Ha.
  { unfold pretty, pretty_N. case_decide; [done|]. by apply all_digits_go. }
  rewrite bool_decide_false by (intros E; by rewrite E in Hs). rewrite Ha, Hd, Z2N.id by lia. cbn [negb orb].
  by rewrite (proj2 (Z.ltb_lt _ _)) by lia.
Qed.

(** ** What a log of the same history holds *)

Section Logs.
Context {events : EventCodec} {digest : Digest} {elaws : EventCodecLaws events} {dlaws : DigestLaws digest}.

(** The rows are determined by the events. *)
Lemma chained_prefix p n evs more rows rows' :
  chained p n evs rows → chained p n (evs ++ more) rows' → rows = take (length evs) rows'.
Proof.
  revert p n rows rows'. induction evs as [|e evs IH]; intros p n [|r rows] rows' H H'; try done.
  destruct rows' as [|r' rows']; [done|]. destruct H as (H1 & H2 & H3 & H4 & H5 & H), H' as (H1' & _ & H3' & H4' & H5' & H').
  assert (r = r') as <-. { destruct r, r'. cbn in *. rewrite H4 in H4'. injection H4' as <-. by subst. }
  cbn [length take]. f_equal. by eapply IH.
Qed.

Lemma chained_row p n evs rows i e :
  chained p n evs rows → evs !! i = Some e →
  ∃ r, rows !! i = Some r ∧ Row_Sequence r = n + Z.of_nat i ∧ Event_Sequence e = n + Z.of_nat i ∧ marshal e = Some (Row_Payload r) ∧
    Row_PreviousHash r = tip p (take i rows) ∧ Row_Hash r = link (tip p (take i rows)) (Row_Payload r).
Proof.
  revert p n rows i. induction evs as [|x evs IH]; intros p n [|r rows] [|i] H Hi; try done; destruct H as (H1 & H2 & H3 & H4 & H5 & H).
  - injection Hi as <-. exists r. cbn [lookup list_lookup take]. unfold tip. cbn [last]. rewrite Z.add_0_r. done.
  - destruct (IH _ _ _ i H Hi) as (r' & Hr & Hs & He & Hm & Hp & Hh). exists r'. cbn [take]. rewrite tip_cons.
    split; [exact Hr|]. split; [lia|]. split; [lia|]. done.
Qed.

Lemma append_row_nodup f commits e f' evs :
  represents f evs → len evs + 1 < two64 → NoDup (held_hashes f) → Append commits f e = (f', Ok tt) → NoDup (held_hashes f').
Proof.
  intros Hr Hn Hnd H. destruct (Append_held commits f e f' evs Hr Hn H) as [-> _]. apply NoDup_app. split; [done|].
  split; [|apply NoDup_singleton]. intros x Hx Hx'. apply list_elem_of_singleton in Hx' as ->.
  unfold Append in H. destruct (file_db f) as [db|] eqn:Hdb; [|done]. destruct (negb _); [done|]. destruct (eventHash _ _) as [hash|]; [|done].
  destruct (marshal e) as [payload|]; [|done]. destruct (append_transaction _ _ _ _) as [db'|] eqn:Et; [|done]. injection H as <-.
  unfold append_transaction, row_admissible in Et. inv_ok Et. bool_simpl. unfold held_hashes in Hx. rewrite Hdb in Hx. done.
Qed.

Lemma logged_nodup f evs : logged f evs → len evs < two64 → NoDup (held_hashes f).
Proof.
  induction 1 as [f Hf|f evs commits e f' Hl IH Ha|f evs commits e f' err _ IH Ha|f evs db f' Hl IH Hdb Ho]; intros Hn.
  - injection Hf as <-. apply NoDup_nil_2.
  - assert (len (evs ++ [e]) = len evs + 1) as E by (unfold len; rewrite length_app; simpl; lia).
    eapply append_row_nodup; [apply logged_represents; [exact Hl|lia]|lia|apply IH; lia|exact Ha].
  - apply Append_error in Ha as ->. auto.
  - unfold Open, loadHead in Ho. inv_ok Ho. subst. unfold held_hashes in *. destruct (db_head db).
    match goal with H : (if _ then _ else _) = Ok _ |- _ => inv_ok H; subst end.
    cbn [file_db]. specialize (IH Hn). by rewrite Hdb in IH.
Qed.

Lemma tip_size p n evs rows : chained p n evs rows → evs ≠ [] → String.length (tip p rows) = 64%nat.
Proof.
  intros H Hne. unfold tip. destruct (last rows) as [r|] eqn:Hl.
  - rewrite last_lookup in Hl. assert (is_Some (evs !! pred (length rows))) as [e He].
    { apply lookup_lt_is_Some. rewrite (chained_length _ _ _ _ H). apply lookup_lt_Some in Hl. done. }
    destruct (chained_row _ _ _ _ _ _ H He) as (r' & Hr & _ & _ & _ & _ & Hh). rewrite Hl in Hr. injection Hr as <-.
    rewrite Hh. apply digest_length.
  - apply last_None in Hl as ->. by destruct evs.
Qed.

(** The next event of the primary's history is appended under the primary's hash. *)
Lemma append_next g evs e more f :
  logged g evs → logged f (evs ++ e :: more) → len (evs ++ e :: more) < two64 →
  ∃ g', Append true g e = (g', Ok tt) ∧ held_hashes f !! length evs = Some (Rec_Hash (Head g')).
Proof.
  intros Hg Hf Hn. pose proof (logged_nodup f _ Hf Hn) as Hnd. assert (len evs + 1 < two64) as Hn' by (unfold len in *; rewrite length_app in Hn; cbn in Hn; lia).
  destruct (logged_represents f _ Hf Hn) as (db & Hdb & Hc & _).
  destruct (logged_represents g _ Hg ltac:(lia)) as (dbg & Hdbg & Hcg & Hhd & Hs & Hh & Hcount).
  pose proof (chained_prefix _ _ _ _ _ _ Hcg Hc) as Hrows.
  destruct (chained_row _ _ _ _ (length evs) e Hc) as (r & Hr & Hseq & He & Hm & Hp & Hhash); [by apply list_lookup_middle|].
  rewrite <-Hrows in Hp, Hhash. unfold held_hashes in *. rewrite Hdb in *. unfold Append. rewrite Hdbg, Hcount.
  rewrite u64_id by (unfold len in *; lia). rewrite (proj2 (Z.eqb_eq _ _)) by (unfold len; lia). cbn [negb].
  unfold eventHash. rewrite Hm, Hh. cbn [rbind]. change (digestOf _) with (link (tip "" (db_records dbg)) (Row_Payload r)). rewrite <-Hhash.
  assert (append_transaction true dbg g (mkRow (len evs + 1) (tip "" (db_records dbg)) (Row_Hash r) (Row_Payload r)) =
    Ok (mkDatabase (insert_row (db_records dbg) (mkRow (len evs + 1) (tip "" (db_records dbg)) (Row_Hash r) (Row_Payload r))) (len evs + 1, Row_Hash r))) as ->.
  { unfold append_transaction. rewrite Hhd, Hs. cbn [fst negb]. rewrite Z.eqb_refl.
    assert (row_admissible (db_records dbg) (mkRow (len evs + 1) (tip "" (db_records dbg)) (Row_Hash r) (Row_Payload r)) = true) as ->; [|done].
    unfold row_admissible. cbn [Row_Sequence Row_PreviousHash Row_Hash]. rewrite (proj2 (Z.ltb_lt 0 _)) by (unfold len; lia). cbn [andb].
    assert (String.length (Row_Hash r) = 64%nat) as -> by (rewrite Hhash; apply digest_length). rewrite Nat.eqb_refl, andb_true_r.
    rewrite (bool_decide_true (Row_Hash r ∉ _)), (bool_decide_true (len evs + 1 ∉ _)).
    - destruct evs as [|x evs]; [destruct (db_records dbg); done|]. rewrite (tip_size _ _ _ _ Hcg) by done.
      rewrite (proj2 (Z.ltb_lt 1 _)) by (unfold len; cbn; lia). by rewrite orb_true_r.
    - rewrite list_elem_of_fmap. intros (x & Ex & Hx). pose proof (chained_sequences _ _ _ _ _ Hcg Hx). unfold len in *. lia.
    - rewrite Hrows, list_elem_of_fmap. intros (x & Ex & Hx). apply list_elem_of_lookup in Hx as [j Hj].
      apply lookup_take_Some in Hj as [Hj Hlt].
      assert (j = length evs) as ->; [|lia]. eapply NoDup_lookup; [exact Hnd|by rewrite list_lookup_fmap, Hj|rewrite list_lookup_fmap, Hr; cbn; by rewrite Ex]. }
  eexists. split; [reflexivity|]. cbn [Head file_head Rec_Hash]. by rewrite list_lookup_fmap, Hr.
Qed.

(** Records that tell the history of [f] from position [i] on. *)
Definition tells (f : File) (i : nat) (batch : list Event) (records : list LogRecord) : Prop :=
  Rec_Event <$> records = batch ∧
  ∀ j r, records !! j = Some r → Rec_Sequence r = Z.of_nat (i + j) + 1 ∧ held_hashes f !! (i + j)%nat = Some (Rec_Hash r).

Lemma ingest_batch g evs batch more f records a :
  logged g evs → logged f (evs ++ batch ++ more) → len (evs ++ batch ++ more) <= int_max → tells f (length evs) batch records →
  0 <= a → a + len records <= int_max →
  ∃ g', Ingest true g a records = (g', a + len records, Ok tt) ∧ logged g' (evs ++ batch).
Proof.
  revert g evs batch a. induction records as [|r records IH]; intros g evs batch a Hg Hf Hn [Hev Hat] Ha Hlen.
  - cbn in Hev. subst batch. exists g. cbn [Ingest]. rewrite app_nil_r, Z.add_0_r. done.
  - destruct batch as [|e batch]; [done|]. injection Hev as He Hev. destruct (Hat 0%nat r eq_refl) as [Hseq Hhash]. rewrite Nat.add_0_r in *.
    assert (len evs + 1 < two64) as Hb by (unfold len in Hn |- *; rewrite length_app in Hn; cbn in Hn; unfold int_max, two64 in *; lia).
    destruct (append_next g evs e (batch ++ more) f) as (g1 & Happ & Hh); [done|done|change ((e :: batch) ++ more) with (e :: batch ++ more) in Hn; unfold int_max, two64 in *; lia|].
    cbn [Ingest]. destruct (logged_represents g evs Hg ltac:(lia)) as (dbg & _ & _ & _ & _ & _ & Hcount).
    unfold NextSequence. rewrite Hcount, (u64_id (len evs + 1)), Z.add_simpl_r, u64_id by (unfold len in *; lia).
    rewrite (proj2 (Z.leb_gt _ _)) by (unfold len; lia). rewrite He, Happ. rewrite bool_decide_false by congruence.
    unfold len in Hlen |- *. cbn [length] in Hlen |- *. rewrite i64_id by (unfold in_int, int_min, int_max in *; lia).
    destruct (IH g1 (evs ++ [e]) batch (a + 1)) as (g' & E & Hg'); [by eapply logged_append|by rewrite <-app_assoc|by rewrite <-app_assoc| |lia|unfold len; lia|].
    { split; [done|]. intros j x Hx. rewrite length_app. cbn [length]. destruct (Hat (S j) x Hx) as [Hs Hx']. rewrite <-Nat.add_assoc. split; [lia|done]. }
    exists g'. rewrite E. unfold len. rewrite <-app_assoc in Hg'. split; [f_equal; f_equal; lia|done].
Qed.

Lemma verify_sequences i p l j r :
  verify_from i p l = Ok tt → l !! j = Some r → Rec_Sequence r = u64 (Z.of_nat (i + j) + 1).
Proof.
  revert i p j. induction l as [|x l IH]; intros i p [|j] H Hj; try done; cbn [verify_from] in H; inv_ok H; bool_simpl.
  - injection Hj as <-. by rewrite Nat.add_0_r.
  - rewrite (IH _ _ _ H Hj). f_equal. lia.
Qed.

Lemma records_tell f evs i n :
  logged f evs → len evs < two64 → tells f i (take n (drop i evs)) (take n (drop i (Records f))).
Proof.
  intros Hf Hn. destruct (logged_represents f evs Hf Hn) as (db & Hdb & Hc & _).
  destruct (chained_scan "" 0 evs (db_records db) [] Hc Hn) as (records & Hrun & Hev & Hh & Hver).
  assert (Records f = records) as -> by (unfold Records, readRecords, scan_rows; by rewrite Hdb, Hrun).
  split; [by rewrite fmap_take, fmap_drop, Hev|]. intros j r [Hj _]%lookup_take_Some. rewrite lookup_drop in Hj. split.
  - rewrite (verify_sequences _ _ _ _ _ Hver Hj), u64_id; [done|]. apply lookup_lt_Some in Hj.
    rewrite <-(length_fmap Rec_Event), Hev in Hj. unfold len in *. lia.
  - unfold held_hashes. rewrite Hdb, <-Hh, list_lookup_fmap, Hj. done.
Qed.
End Logs.

(** ** Catching up *)

(** JSON keeps ASCII text; an array cut before its last bracket is no value. *)
Class ClientCodecLaws (codec : RequestCodec) (client_codec : ClientCodec) : Prop := {
  header_round : ∀ s, ascii_text (SignedReq_KeyID s) = true → ascii_text (SignedReq_Signature s) = true →
    decode_signature_header (encode_signature_header s) = Some s;
  header_nonempty : ∀ s, encode_signature_header s ≠ "";
  array_cut : ∀ l n, Z.of_nat n + 1 < slen (body_text (RecordsBody l)) → decode_records (take_string n (body_text (RecordsBody l))) = None }.

Section CatchingUp.
Context {att : Attest} {signer : Signer} {codec : RequestCodec} {client_codec : ClientCodec} {grants : GrantCodec} {events : EventCodec}
  {digest : Digest} {anchors : AnchorCodec} {cidr : CIDRParser} {clock : WallClock} {choice : NodeChoice}.
Context {elaws : EventCodecLaws events} {dlaws : DigestLaws digest} {slaws : SignerLaws att signer} {rlaws : RequestCodecLaws codec}
  {claws : ClientCodecLaws codec client_codec}.
Context (agents : list Agent) (metrics_enabled : bool).

(** A round in which the primary, over the log [f], hears the client and knows its key, and
    the follower's disk works. *)
Definition in_touch (c : operatorClient) (f : File) (r : Round) : Prop :=
  ∃ nonce m signed,
    round_nonce r = Some nonce ∧ round_network r = Answered m ∧ round_commits r = true ∧
    round_clock r <= at_now m <= round_clock r + 2 * Minute ∧
    SignRequest (call_envelope c nonce (round_clock r) "GET" "/v1/records" "") (client_keyID c) (client_key c) = Ok signed ∧
    ascii_request ((call_envelope c nonce (round_clock r) "GET" "/v1/records" "") <| Req_KeyID := client_keyID c |>) = true ∧
    ascii_text (SignedReq_Signature signed) = true ∧ slen (encode_signature_header signed) <= MaxSignatureHeader ∧
    let a := round_api r in
    Server_operatorKeys (API_server a) !! client_keyID c = Some (ed25519_Public (client_key c)) ∧
    API_nonces a !! scoped (client_keyID c) nonce = None ∧ Server_log (API_server a) = Some f ∧ genuine_key (client_key c).

(** The answer of the primary. *)
Definition batch (f : File) (after : Z) : list LogRecord :=
  if len (Records f) <=? after then [] else take (Z.to_nat MaxRecordBatch) (drop (Z.to_nat after) (Records f)).
Definition batch_text (f : File) (after : Z) : string := body_text (RecordsBody (batch f after)).

(** The answer can be read in full. *)
Definition carried (f : File) (after : Z) : Prop :=
  slen (batch_text f after) <= MaxRequestBody ∧ decode_records (batch_text f after) = Some (batch f after).

Lemma sign_request_inv e keyID key signed :
  SignRequest e keyID key = Ok signed → SignedReq_KeyID signed = keyID ∧ String.length key = PrivateKeySize.
Proof.
  unfold SignRequest. intros H. inv_ok H. bool_simpl. subst. split; [done|]. by apply Nat.eqb_eq.
Qed.

Lemma client_do_records c f r after :
  in_touch c f r → 0 <= after < two64 →
  client_do agents metrics_enabled c r "GET" "/v1/records" (records_query after) "" =
    Ok (take_string (Z.to_nat MaxRequestBody) (batch_text f after)).
Proof.
  intros (nonce & m & signed & Hnonce & Hnet & _ & Hnow & Hsign & Hascii & Hsig & Hhead & Hkey & Hfresh & Hlog & Hgenuine) Hafter.
  destruct (sign_request_inv _ _ _ _ Hsign) as [Hid _].
  pose proof (request_roundtrip _ _ _ _ (Server_operatorKeys (API_server (round_api r))) "" (at_now m) Hgenuine Hsign Hkey Hascii eq_refl Hnow) as Hv.
  unfold client_do, client_request. rewrite Hnonce, Hsign, Hnet. cbn [rbind].
  set (req := mkHttpRequest _ _ _ _ _).
  assert (ascii_text (client_keyID c) = true) as Hka.
  { unfold ascii_request in Hascii. cbn in Hascii. rewrite !andb_true_iff in Hascii. tauto. }
  assert (∃ nonces e, vet m (round_api r) req = (nonces, inr (e, ""))) as (nonces & e & Hvet).
  { unfold vet, req. cbn [Http_Body Http_Signature Http_Method Http_Path]. cbn [String.length Z.of_nat]. rewrite (bool_decide_false (_ = "")) by apply header_nonempty.
    rewrite (proj2 (Z.ltb_ge MaxSignatureHeader _)) by exact Hhead. rewrite header_round by (by rewrite ?Hid).
    cbn [Req_Method Req_Path call_envelope] in Hv. rewrite Hv. unfold nonce_observe. simpl_set.
    rewrite bool_decide_false; [by do 2 eexists|]. intros [x Hx]. apply map_lookup_filter_Some in Hx as [Hx _].
    change (Req_Nonce _) with nonce in Hx. by rewrite Hfresh in Hx. }
  change (Handler agents metrics_enabled m (round_api r) req) with (authenticated (OperatorApi.reads api_records) m (round_api r) req).
  unfold authenticated. rewrite Hvet. unfold OperatorApi.reads, api_records, bound_limit, query, req. cbn [Http_Query records_query].
  assert (records_query after !! "after" = Some (Sprint after) ∧ records_query after !! "limit" = Some "500") as [-> ->] by done.
  cbn [default id]. rewrite (ParseUint_Sprint after Hafter).
  assert (Sprint after ≠ "") as Hs.
  { intros E. pose proof (ParseUint_Sprint after Hafter) as Hp. by rewrite E in Hp. }
  rewrite (bool_decide_false (Sprint after = "")) by done. cbn [rbind].
  unfold batch_text, batch, Server_Records, History. rewrite Hlog. done.
Qed.

Lemma take_string_all s n : (String.length s <= n)%nat → take_string n s = s.
Proof. revert n. induction s as [|c s IH]; intros [|n] H; cbn in *; [done..|lia|]. f_equal. apply IH. lia. Qed.

Lemma sync_rounds c f evs rounds fuel k applied s g held rest :
  logged f evs → len evs <= int_max → evs = held ++ rest → Standby_log s = Some g → logged g held →
  (∀ k, in_touch c f (rounds k)) → (∀ after, 0 <= after → carried f after) →
  0 <= applied → applied + len rest <= int_max → (length rest < fuel)%nat →
  ∃ g', syncStandby agents metrics_enabled fuel c rounds k applied s =
      Some (mkStandby (Standby_config s) (Some g') (Standby_anchor s), Ok (applied + len rest)) ∧ logged g' evs.
Proof.
  intros Hf Hn Hevs Hs Hg Htouch Hcarried. revert k applied s g held rest Hevs Hs Hg.
  assert (len evs < two64) as Hn' by (unfold int_max, two64 in *; lia).
  assert (len (Records f) = len evs) as Hrec.
  { destruct (represents_read f evs (logged_represents f evs Hf Hn') Hn') as (records & Hr & Hev & _).
    unfold Records. rewrite Hr, <-Hev. unfold len. by rewrite length_fmap. }
  induction fuel as [|fuel IH]; intros k applied s g held rest Hevs Hs Hg Ha Hlen Hfuel; [lia|]. cbn [syncStandby].
  assert (len evs = len held + len rest) as Hsum by (rewrite Hevs; unfold len; rewrite length_app; lia).
  assert (Rec_Sequence (Standby_Head s) = len held) as Hhead.
  { unfold Standby_Head. rewrite Hs. destruct (logged_represents g held Hg ltac:(unfold len in *; lia)) as (_ & _ & _ & _ & ? & _). done. }
  rewrite Hhead, (client_do_records c f (rounds k) (len held) (Htouch k)) by (unfold len in *; lia).
  destruct (Hcarried (len held) ltac:(unfold len; lia)) as [Hsize Hdec].
  rewrite take_string_all by (unfold slen in Hsize; lia). rewrite Hdec. unfold batch. rewrite Hrec.
  destruct rest as [|e rest].
  { rewrite (proj2 (Z.leb_le _ _)) by (unfold len in *; cbn in *; lia). exists g. rewrite Hevs, app_nil_r. unfold len. cbn. rewrite Z.add_0_r.
    destruct s as [cfg lg an]. cbn in *. by subst lg. }
  rewrite (proj2 (Z.leb_gt _ _)) by (unfold len in *; cbn in *; lia).
  replace (Z.to_nat (len held)) with (length held) by (unfold len; lia).
  set (n := Z.to_nat MaxRecordBatch). pose proof (records_tell f evs (length held) n Hf Hn') as Htell.
  set (records := take n (drop (length held) (Records f))) in *.
  assert (take n (drop (length held) evs) = take n (e :: rest)) as Ebatch by (by rewrite Hevs, drop_app_length).
  rewrite Ebatch in Htell.
  assert (length records = length (take n (e :: rest))) as Hcount by (destruct Htell as [Hev _]; by rewrite <-Hev, length_fmap).
  assert (0 < length records <= length (e :: rest))%nat as Hpos by (rewrite Hcount, length_take; cbn [length]; unfold n, MaxRecordBatch; lia).
  destruct (ingest_batch g held (take n (e :: rest)) (drop n (e :: rest)) f records 0) as (g1 & Hin & Hg1);
    [done|by rewrite take_drop, <-Hevs|by rewrite take_drop, <-Hevs|done|lia|unfold len in *; lia|].
  assert (∃ x l, records = x :: l) as (x & l & Hl) by (destruct records; [cbn in Hpos; lia|by eexists _, _]).
  rewrite Hl. rewrite Hl in Hin. unfold Standby_Ingest. rewrite Hs. destruct (Htouch k) as (? & ? & ? & _ & _ & -> & _). rewrite Hin.
  rewrite Z.add_0_l, <-Hl. rewrite (proj2 (Z.eqb_neq _ _)) by (unfold len; lia). rewrite i64_id by (unfold in_int, int_min, len, int_max in *; lia).
  destruct (IH (S k) (applied + len records) (mkStandby (Standby_config s) (Some g1) (Standby_anchor s)) g1 (held ++ take n (e :: rest)) (drop n (e :: rest)))
    as (g' & E & Hg'); [by rewrite <-app_assoc, take_drop|done|done|unfold len; lia| | |].
  - unfold len in *. rewrite length_drop. rewrite Hcount, length_take. lia.
  - rewrite length_drop. cbn [length] in *. unfold n, MaxRecordBatch. lia.
  - exists g'. split; [|done]. rewrite E. cbn [Standby_config Standby_anchor]. do 3 f_equal. unfold len in *.
    rewrite length_drop, Hcount, length_take. cbn [length] in *. lia.
Qed.

(** C19: a standby catches up.  When the primary can be reached, knows the standby's key and its
    answers can be read in full (a batch no longer than a request may be), and its log does not
    grow meanwhile, one synchronisation ends after at most one batch for each record the
    standby lacked and one that finds nothing, and the standby's log then is one that accepted
    exactly the primary's events; nothing else of the standby changed. *)
Theorem standby_catches_up c f evs s g held rounds
    (Hprimary : logged f evs) (Hn : len evs <= int_max) (Hfollower : Standby_log s = Some g) (Hheld : logged g held) (Hprefix : held `prefix_of` evs)
    (Htouch : ∀ k, in_touch c f (rounds k)) (Hcarried : ∀ after, 0 <= after → carried f after) :
  ∃ g', syncStandby agents metrics_enabled (S (length evs - length held)) c rounds 0 0 s =
      Some (mkStandby (Standby_config s) (Some g') (Standby_anchor s), Ok (len evs - len held)) ∧ logged g' evs.
Proof.
  destruct Hprefix as [rest Hevs]. assert (len evs = len held + len rest) as Hsum by (rewrite Hevs; unfold len; rewrite length_app; lia).
  destruct (sync_rounds c f evs rounds (S (length evs - length held)) 0 0 s g held rest) as (g' & E & Hg'); try done;
    [unfold len in *; lia|unfold len in *; lia|].
  exists g'. split; [|done]. rewrite E. do 3 f_equal. lia.
Qed.

(** A batch that is too long to be read is never got past: every attempt fails and leaves the
    standby where it is. *)
Theorem long_batch_stalls c f s g evs rounds k fuel applied
    (Hfollower : Standby_log s = Some g) (Hheld : logged g evs) (Hn : len evs < two64)
    (Htouch : in_touch c f (rounds k)) (Hlong : MaxRequestBody + 1 < slen (batch_text f (len evs))) :
  syncStandby agents metrics_enabled (S fuel) c rounds k applied s = Some (s, Err (Errorf "decode records: %w")).
Proof.
  cbn [syncStandby]. assert (Rec_Sequence (Standby_Head s) = len evs) as ->.
  { unfold Standby_Head. rewrite Hfollower. destruct (logged_represents g evs Hheld Hn) as (_ & _ & _ & _ & ? & _). done. }
  rewrite (client_do_records c f (rounds k) (len evs) Htouch) by (unfold len in *; lia). unfold batch_text. rewrite array_cut; [done|].
  unfold batch_text in Hlong. rewrite Z2Nat.id by (vm_compute; discriminate). exact Hlong.
Qed.
End CatchingUp.

(** ** A sample pair: two records, and a follower that starts from nothing *)

Module FollowSample.
#[local] Existing Instances KeySample.sample_attest KeySample.sample_signer KeySample.sample_signer_laws ApprovalSample.sample_grants
  ApprovalSample.sample_clock ServerSample.server_cidr ServerSample.server_anchors toy_codec toy_digest toy_codec_laws toy_digest_laws
  OperatorSample.operator_choice.

Definition number (z : Z) : string := QueueSample.bits (encode z).
Definition of_number (s : string) : option Z := p ← QueueSample.unbits s; decode p.
Definition envelope_fields (e : RequestEnvelope) : list string :=
  [number (Req_Version e); Req_Nonce e; Req_Method e; Req_Path e; Req_BodyDigest e; Req_IssuedBy e; Req_KeyID e; number (Req_IssuedAt e); number (Req_ExpiresAt e)].
Definition of_envelope_fields (l : list string) : option RequestEnvelope :=
  match l with
  | [v; n; m; p; b; i; k; t; u] => v ← of_number v; t ← of_number t; u ← of_number u; Some (mkRequestEnvelope v n m p b i k t u)
  | _ => None
  end.
Definition separator : Ascii.ascii := Ascii.ascii_of_N 255.

Lemma of_number_number z : of_number (number z) = Some z.
Proof. unfold of_number, number. rewrite QueueSample.unbits_bits. cbn [mbind option_bind]. apply countable.decode_encode. Qed.
Lemma of_envelope_fields_back e : of_envelope_fields (envelope_fields e) = Some e.
Proof. unfold of_envelope_fields, envelope_fields. rewrite !of_number_number. by destruct e. Qed.
Lemma Cut_ascii s rest : ascii_text s = true → Cut separator (s +:+ String separator rest) = Some (s, rest).
Proof.
  induction s as [|c s IH]; [by intros _|]. intros [Hc Hs]%andb_prop.
  change (String c s +:+ String separator rest) with (String c (s +:+ String separator rest)). cbn [Cut].
  rewrite bool_decide_false by (intros ->; done). by rewrite IH.
Qed.

#[local] Instance follow_codec : RequestCodec := {|
  encode_request e := Some (String QueueSample.one (QueueSample.bits (encode (envelope_fields e))));
  decode_request s :=
    match s with
    | String _ s => match p ← QueueSample.unbits s; l ← decode p; of_envelope_fields l with Some e => Decoded e | None => Malformed end
    | "" => Malformed
    end;
  decode_signature_header s :=
    '(keyID, s) ← Cut separator s; '(signature, bytes) ← Cut separator s; Some (mkSignedRequest bytes keyID signature);
  decode_goal _ := Malformed; decode_signed_approval _ := Malformed; decode_cordon_reason _ := Malformed; Parse_RFC3339 _ := None |}.
#[local] Instance follow_codec_laws : RequestCodecLaws follow_codec.
Proof.
  split; intros e bytes; cbn [encode_request decode_request follow_codec].
  - intros _ [= <-]. rewrite QueueSample.unbits_bits. cbn -[encode decode envelope_fields of_envelope_fields]. rewrite countable.decode_encode.
    cbn -[envelope_fields of_envelope_fields]. by rewrite of_envelope_fields_back.
  - by intros [= <-].
Qed.

(** An answer is a stroke for each record and a closing brace. *)
Definition strokes (n : nat) : string := Nat.iter n (String QueueSample.one) "".
#[local] Instance follow_client_codec : ClientCodec := {|
  encode_signature_header s := SignedReq_KeyID s +:+ String separator (SignedReq_Signature s +:+ String separator (SignedReq_Bytes s));
  body_text p := match p with RecordsBody l => strokes (length l) +:+ String WireSample.brace eol | _ => "" end;
  decode_records s := match Cut WireSample.brace s with
                      | Some (counted, _) => Some (drop (2 - String.length counted) primary_records)
                      | None => None
                      end |}.

Lemma strokes_cut n k : (k <= n)%nat → Cut WireSample.brace (take_string k (strokes n +:+ String WireSample.brace eol)) = None.
Proof.
  revert k. induction n as [|n IH]; intros [|k] H; try done; [lia|].
  change (strokes (S n) +:+ String WireSample.brace eol) with (String QueueSample.one (strokes n +:+ String WireSample.brace eol)).
  cbn [take_string Cut]. rewrite bool_decide_false by done. by rewrite IH by lia.
Qed.
#[local] Instance follow_client_codec_laws : ClientCodecLaws follow_codec follow_client_codec.
Proof.
  split.
  - intros s Hk Hs. cbn [encode_signature_header follow_client_codec decode_signature_header follow_codec].
    rewrite (Cut_ascii _ _ Hk). cbn -[Cut]. rewrite (Cut_ascii _ _ Hs). by destruct s.
  - intros s H. cbn in H. by destruct (SignedReq_KeyID s).
  - intros l n. cbn [body_text follow_client_codec decode_records]. unfold slen. rewrite length_append. cbn [String.length eol].
    assert (String.length (strokes (length l)) = length l) as -> by (induction (length l) as [|m IH]; [done|cbn; by f_equal]).
    intros Hn. by rewrite strokes_cut by lia.
Qed.

Definition client : operatorClient := mkOperatorClient "op1" "ada" ApprovalSample.operator_key.
Definition primary : Server := ServerSample.server0 <| Server_log := Some log2 |>.
Definition good_round (k : nat) : Round :=
  mkRound (Some "n") 100 (Answered (mkMoment 101 101 ServerSample.sound_disk)) (NewAPI primary) true.
Definition replica : Standby := mkStandby StandbySample.standby_config (Some log0) AnchorSample.sample_anchor.

Lemma client_in_touch k : in_touch client log2 (good_round k).
Proof.
  destruct (SignRequest (call_envelope client "n" 100 "GET" "/v1/records" "") (client_keyID client) (client_key client)) as [signed|e] eqn:Hs;
    [|vm_compute in Hs; discriminate].
  exists "n", (mkMoment 101 101 ServerSample.sound_disk), signed. do 3 (split; [reflexivity|]).
  split; [split; apply Z.leb_le; vm_compute; reflexivity|]. split; [exact Hs|]. split; [vm_compute; reflexivity|].
  vm_compute in Hs. injection Hs as <-. split; [vm_compute; reflexivity|]. split; [apply Z.leb_le; vm_compute; reflexivity|].
  split; [vm_compute; reflexivity|]. split; [reflexivity|]. split; [reflexivity|].
  exists (KeySample.key_bytes "a"). split; reflexivity.
Qed.

Lemma answers_carried after : 0 <= after → carried log2 after.
Proof.
  intros Ha. destruct (decide (after = 0)) as [->|H0]; [split; [apply Z.leb_le|]; vm_compute; reflexivity|].
  destruct (decide (after = 1)) as [->|H1]; [split; [apply Z.leb_le|]; vm_compute; reflexivity|].
  assert (batch log2 after = []) as E.
  { unfold batch. change (len (Records log2)) with 2. by rewrite (proj2 (Z.leb_le _ _)) by lia. }
  unfold carried, batch_text. rewrite E. split; [apply Z.leb_le; vm_compute; reflexivity|reflexivity].
Qed.

Lemma standby_catches_up_witness :
  ∃ g', syncStandby [] false 3 client good_round 0 0 replica =
    Some (mkStandby StandbySample.standby_config (Some g') AnchorSample.sample_anchor, Ok 2) ∧ logged g' [EventLog.note 1; EventLog.note 2].
Proof.
  refine (standby_catches_up [] false client log2 [EventLog.note 1; EventLog.note 2] replica log0 [] good_round log2_logged _ eq_refl _ _ client_in_touch answers_carried).
  - apply Z.leb_le. vm_compute. reflexivity.
  - apply logged_open. vm_compute. reflexivity.
  - by eexists.
Defined.
End FollowSample.
