(* ===== verification/Commands.v ===== *)
(** * The operator's commands on files (src/cmd/a4s/operator.go, src/cmd/a4s/keys.go)

    [a4s approve] writes a decision into an event log directly, and [a4s keys] maintains the
    set of controller keys in a file.  Flags are a record, the log is a database that is
    opened, files are those of FileSystem; JSON, base64, Ed25519 and the order in which a map
    is visited are parameters.  What is printed is not modelled. *)

From S2P Require Import Prelude Types Text Snapshots Policy Clone Projection History Executor EventLog Durable Provenance Kernel Engine Directory NetPolicy Validate Keys Approvals Anchor Server Dispatch FileSystem.
Open Scope Z_scope.

(** ** Approving without a server *)

Record ApproveFlags := mkApproveFlags {
  Flag_eventLog : string; Flag_goal : string; Flag_scope : string; Flag_operator : string; Flag_key : string; Flag_keyID : string;
  Flag_reason : string; Flag_lifetime : duration; Flag_id : string; Flag_revoke : bool; Flag_workload : string; Flag_from : string;
  Flag_to : string }.

(** [control.World{}] *)
Definition World_zero : World := mkWorld 0 0 ∅ ∅ ∅ ∅ ∅ ∅ ∅ [] ∅.

(** The order a loop over the allocations visits them in. *)
Class AllocationOrder := allocations_in_order : gmap string Allocation → list Allocation.
Class AllocationOrderLaws (order : AllocationOrder) : Prop :=
  order_values : ∀ m a, a ∈ allocations_in_order m ↔ ∃ id, m !! id = Some a.

Section Approve.
Context {att : Attest} {signer : Signer} {grants : GrantCodec} {events : EventCodec} {digest : Digest} {order : AllocationOrder}.

Definition failing (workload : string) (a : Allocation) : bool :=
  bool_decide (Alloc_Workload a = workload) && bool_decide (Alloc_Phase a = AllocationStopped) &&
  (negb (Alloc_ExitCode a =? 0) || (0 <? Alloc_Restarts a)).

Definition rollbackVersions (w : World) (workload from to : string) : result (string * string) :=
  refuse (bool_decide (workload = "")) "workload is required to approve a rollback";
  let failed := if bool_decide (from = "")
                then match List.find (failing workload) (allocations_in_order (Allocations w)) with Some a => Alloc_Image a | None => "" end
                else from in
  refuse (bool_decide (failed = "")) "no failing allocation of %q was observed; pass --from to name the version explicitly";
  let target := if bool_decide (to = "") then default "" (KnownGood w !! workload) else to in
  refuse (bool_decide (target = "")) "no known-good image is recorded for %q; pass --to to name one explicitly";
  refuse (bool_decide (target = failed)) "refusing to roll %q back to the version that failed";
  Ok (failed, target).

Definition recordOperatorDecision (commits : bool) (store : File) (p : DurableProjector) (g : ApprovalGrant) (e : Evidence) (message : string)
    : File * DurableProjector * result unit :=
  match Append commits store (observation_event store ("operator:" +:+ Grant_IssuedBy g) (Grant_GoalID g) (Grant_ID g)
                                (message +:+ ": " +:+ Grant_Scope g) e) with
  | (store, Err err) => (store, p, Err (Wrapf "record operator decision: %w" err))
  | (store, Ok _) => let '(p, r) := Projector_Project p e in (store, p, r)
  end.

(** The grant the flags describe, in the world the log replays to. *)
Definition flagged_grant (flags : ApproveFlags) (now : time) (w : World) : result ApprovalGrant :=
  let id := if bool_decide (Flag_id flags = "") then Flag_goal flags +:+ "-" +:+ Flag_scope flags else Flag_id flags in
  let* versions := if bool_decide (Flag_scope flags = "rollback") && negb (Flag_revoke flags)
                   then rollbackVersions w (Flag_workload flags) (Flag_from flags) (Flag_to flags) else Ok ("", "") in
  Ok (mkApprovalGrant id (Flag_goal flags) (Flag_scope flags) (Flag_operator flags) "" now (time_Add now (Flag_lifetime flags)) (Revision w)
        (Flag_reason flags) versions.1 versions.2).

(** [approve] past the flags: the log it leaves, when it got to open one. *)
Definition approve (commits : bool) (now : time) (flags : ApproveFlags) (key : result string) (db : Database) : option File * result unit :=
  match (refuse (bool_decide (Flag_eventLog flags = "") || bool_decide (Flag_goal flags = "") || bool_decide (Flag_scope flags = ""))
           "event-log, goal, and scope are required";
         refuse (bool_decide (Flag_operator flags = "") || bool_decide (Flag_key flags = "") || bool_decide (Flag_keyID flags = ""))
           "operator, key, and key-id are required";
         refuse (bool_decide (Flag_scope flags ∉ ApprovalScopes)) "scope %q is not one the kernel gates on; run --scopes to list them";
         let* key := key in
         let* store := EventLog.Open db in
         Ok (key, store)) with
  | Err e => (None, Err e)
  | Ok (key, store) =>
      match (let* p := NewDurableProjector World_zero (Some (ReplayEvidence store)) in
             let* grant := flagged_grant flags now (Projector_World p) in
             let* signed := SignApproval grant (Flag_keyID flags) key in
             let* verified := wrap_err "refusing to record an approval that does not verify: %w"
               (VerifyApproval signed {[Flag_keyID flags := ed25519_Public key]} now) in
             refuse (Flag_revoke flags && bool_decide (Approvals (Projector_World p) !! Grant_ID verified = None))
               "approval %q was never granted";
             Ok (p, verified)) with
      | Err e => (Some store, Err e)
      | Ok (p, verified) =>
          let '(store, _, r) :=
            if Flag_revoke flags then recordOperatorDecision commits store p verified (revocation verified now) "approval revoked"
            else recordOperatorDecision commits store p verified (Grant_Evidence verified) "approval granted" in
          (Some store, r)
      end
  end.
End Approve.

(** ** The keys of the control plane *)

Record KeyFlags := mkKeyFlags { Flag_keyset : option path; Flag_newID : string; Flag_out : option path }.

(** [json.MarshalIndent] of a key set; [None] when it has a time JSON cannot write. *)
Class KeySetEncoder := encode_keyset : KeySet → option string.

Section KeyFiles.
Context {att : Attest} {signer : Signer} {raw : RawBase64} {decoder : KeySetDecoder} {encoder : KeySetEncoder}.
#[local] Open Scope a4s_scope.

(** [generated] is the pair of keys drawn, public and private, when the random source works. *)
Definition generateSigningKey (p : path) (generated : option (string * string)) : io string :=
  let! found := attempt_io (Stat p) in
  refuse! (match found with Ok _ => true | Err _ => false end) "refusing to overwrite existing key %s";
  let! keys := io_of (need k := generated else "generate signing key: %w"; Ok k) in
  wrapping "create key directory: %w" (MkdirAll (Dir p)) >>
  wrapping "write signing key: %w" (WriteFile p (raw_Encode keys.2 +:+ String newline "")) >>
  wrapping "write public key: %w" (WriteFile (suffixed p ".pub") (raw_Encode keys.1 +:+ String newline "")) >>
  io_ret keys.1.

Definition readKeySet (p : path) : io KeySet :=
  let! text := wrapping "read keyset: %w" (ReadFile p) in io_of (DecodeKeySet text).

Definition writeKeySet (p : path) (set : KeySet) : io unit :=
  let! encoded := io_of (need text := encode_keyset set else "encode keyset: %w"; Ok text) in
  wrapping "create keyset directory: %w" (MkdirAll (Dir p)) >> WriteFile p (encoded +:+ String newline "").

Definition keysInit (flags : KeyFlags) (generated : option (string * string)) (now : time) : io unit :=
  match Flag_keyset flags, Flag_out flags with
  | Some keyset, Some out =>
      let! found := attempt_io (Stat keyset) in
      refuse! (match found with Ok _ => true | Err _ => false end) "keyset %s already exists; use keys rotate";
      let! public := generateSigningKey out generated in
      let! set := io_of (NewKeySet (Flag_newID flags) public now) in
      writeKeySet keyset set
  | _, _ => io_err (Errorf "keyset and out are required")
  end.

Definition keysRotate (flags : KeyFlags) (generated : option (string * string)) (now : time) : io unit :=
  match Flag_keyset flags, Flag_out flags with
  | Some keyset, Some out =>
      refuse! (bool_decide (Flag_newID flags = "")) "keyset, key-id, and out are required";
      let! set := readKeySet keyset in
      let! previous := io_of (KeySet_Active set) in
      let! public := generateSigningKey out generated in
      let! rotated := io_of (Rotate set (Flag_newID flags) public now) in
      writeKeySet keyset rotated
  | _, _ => io_err (Errorf "keyset, key-id, and out are required")
  end.

Definition keysRetire (flags : KeyFlags) (now : time) : io unit :=
  match Flag_keyset flags with
  | Some keyset =>
      refuse! (bool_decide (Flag_newID flags = "")) "keyset and key-id are required";
      let! set := readKeySet keyset in
      let! retired := io_of (Retire set (Flag_newID flags) now) in
      writeKeySet keyset retired
  | None => io_err (Errorf "keyset and key-id are required")
  end.
End KeyFiles.

(** ** Both ways to record a decision agree *)

Section Offline.
Context {att : Attest} {signer : Signer} {grants : GrantCodec} {events : EventCodec} {digest : Digest} {order : AllocationOrder}
  {anchors : AnchorCodec} {elaws : EventCodecLaws events} {dlaws : DigestLaws digest}.

(** The command and a server without an anchor, over the same log and world, append the same
    event and arrive at the same world. *)
Theorem offline_decision_agrees disk now s store g e message (Hlog : Server_log s = Some store) (Hanchor : Server_anchor s = None) :
  let '(store', p', r) := recordOperatorDecision (disk_commits disk) store (Server_projector s) g e message in
  let '(s', r') := recordDecision disk now s g e message in
  Server_log s' = Some store' ∧ Server_projector s' = p' ∧ (r = Ok tt ↔ r' = Ok tt).
Proof.
  unfold recordOperatorDecision, recordDecision, appendObservation. rewrite Hlog.
  destruct (Append _ _ _) as [f [[]|err]]; [|simpl_set; done]. simpl_set. rewrite Hanchor.
  destruct (Projector_Project (Server_projector s) e) as [p r]. simpl_set. done.
Qed.

(** ** The world the command works in *)

Lemma recordDisruption_nodes w a kind at_ : Nodes (Disruption.recordDisruption w a kind at_) = Nodes w.
Proof. unfold Disruption.recordDisruption. by repeat case_match. Qed.
Lemma applyReadiness_nodes w id a e : Nodes (applyReadiness w id a e) = Nodes w.
Proof. unfold applyReadiness. by repeat case_match. Qed.
Lemma detach_volume_nodes w name v : Nodes (Simulate.detach_volume w name v) = Nodes w.
Proof. unfold Simulate.detach_volume. by repeat case_match. Qed.

(** No observation adds a node, and one of a created allocation needs its node. *)
Lemma projectInto_nodes w e w' : projectInto w e = Ok w' → Nodes w = ∅ → Nodes w' = ∅ ∧ Ev_Kind e ≠ EvidenceAllocationCreated.
Proof.
  intros H Hw. unfold projectInto in H. destruct (Ev_Kind e); split; try done; autounfold with project in H; try rewrite Hw, lookup_empty in H; try done.
  all: inv_ok H; subst; simpl_set; rewrite ?detach_volume_nodes, ?applyReadiness_nodes, ?recordDisruption_nodes; try done.
  all: try (rewrite Hw, lookup_empty in *; done).
  all: try (change (Nodes (put_alloc ?w _ _)) with (Nodes w); by rewrite recordDisruption_nodes).
Qed.

Lemma replay_from_nothing w evidence w' :
  Nodes w = ∅ → replay_over w evidence = Ok w' → Forall (λ e, Ev_Kind e ≠ EvidenceAllocationCreated) evidence.
Proof.
  unfold replay_over. revert w. induction evidence as [|e evidence IH]; intros w Hw H; [constructor|]. cbn [for_each] in H.
  destruct (Project w e) as [w1|] eqn:Hp; [|done]. cbn [wrap_err rbind] in H. apply Project_inv in Hp as (n & Hn & Hnodes & _).
  destruct (projectInto_nodes _ _ _ Hn Hw) as [Hempty Hkind]. constructor; [done|]. eapply IH; [|exact H]. by rewrite Hnodes.
Qed.

(** The command replays the history over a world without nodes: once an allocation was ever
    created, no decision can be recorded with it. *)
Theorem offline_approval_blocked commits now flags key db f evs e
    (Hlog : logged f evs) (Hdb : file_db f = Some db) (Hn : len evs < two64)
    (He : e ∈ evidence_of evs) (Hkind : Ev_Kind e = EvidenceAllocationCreated) :
  ∃ err, (approve commits now flags key db).2 = Err err.
Proof.
  unfold approve. match goal with |- context [match ?m with _ => _ end] => destruct m as [[k store]|err] eqn:Hopen end; [|by eexists].
  inv_ok Hopen. simplify_eq. match goal with H : EventLog.Open db = Ok ?g |- _ => rename H into Ho end.
  pose proof (logged_restart f evs db _ Hlog Hdb Ho) as Hlog'. destruct (log_reads _ _ Hlog' Hn) as (_ & _ & Hre). rewrite Hre.
  unfold NewDurableProjector. cbn [wrap_err rbind Projector_world]. rewrite cloneWorld_id.
  destruct (replay_over World_zero _) as [w|err] eqn:Hw; [exfalso|cbn [rbind snd]; by eexists].
  pose proof (replay_from_nothing World_zero _ _ eq_refl Hw) as Hall. rewrite Forall_forall in Hall. by eapply Hall.
Qed.
End Offline.

(** ** The file of keys *)

Section KeyFileFacts.
Context {att : Attest} {signer : Signer} {raw : RawBase64} {decoder : KeySetDecoder} {encoder : KeySetEncoder}.
#[local] Open Scope a4s_scope.

(** What the file of keys says. *)
Definition keyset_at (h : Machine) (p : path) : result KeySet :=
  match fs h !! p with
  | Some (FileEntry text) | Some (OtherEntry (Some text)) => DecodeKeySet text
  | _ => Err ErrNotExist
  end.

Class KeySetCodecLaws : Prop := decode_encode_keyset : ∀ s text, encode_keyset s = Some text → decode_keyset (text +:+ String newline "") = Decoded s.
Context {klaws : KeySetCodecLaws} {slaws : SignerLaws att signer}.

Lemma readKeySet_ok p h h' s : readKeySet p h = (h', Ok s) → fs h' = fs h ∧ keyset_at h p = Ok s.
Proof.
  unfold readKeySet. intros H. apply io_bind_ok in H as (h1 & text & Hr & H). apply wrapping_ok, reading_ok in Hr as [E Hr].
  injection H as <- H. split; [done|]. unfold keyset_at. destruct (fs h !! p) as [[]|]; try done; repeat case_match; simplify_eq; done.
Qed.

Lemma writeKeySet_ok p s h h' : KeySet_Validate s = Ok tt → writeKeySet p s h = (h', Ok tt) → keyset_at h' p = Ok s.
Proof.
  unfold writeKeySet. intros Hv H. apply io_bind_ok in H as (h1 & text & Ht & H). unfold io_of in Ht. injection Ht as -> Ht.
  destruct (encode_keyset s) as [t|] eqn:He; [|done]. injection Ht as ->.
  apply io_bind_ok in H as (h2 & [] & _ & H). apply WriteFile_ok in H as [E _]. unfold keyset_at. rewrite E, lookup_insert_eq.
  unfold DecodeKeySet. rewrite (decode_encode_keyset _ _ He), Hv. done.
Qed.

Lemma generateSigningKey_ok p generated h h' public :
  generateSigningKey p generated h = (h', Ok public) → ∃ private, generated = Some (public, private).
Proof.
  unfold generateSigningKey. intros H. apply io_bind_ok in H as (h1 & found & _ & H). destruct found; [done|].
  apply io_bind_ok in H as (h2 & keys & Hk & H). destruct generated as [[a b]|]; [|done]. injection Hk as _ <-.
  apply io_bind_ok in H as (h3 & [] & _ & H). apply io_bind_ok in H as (h4 & [] & _ & H). apply io_bind_ok in H as (h5 & [] & _ & H).
  injection H as _ <-. by exists b.
Qed.

Lemma NewKeySet_valid keyID public now s : NewKeySet keyID public now = Ok s → KeySet_Validate s = Ok tt.
Proof.
  unfold NewKeySet. intros H. inv_ok H. subst. unfold KeySet_Validate. cbn [Set_Version Set_Keys]. rewrite Z.eqb_refl. cbn [negb len length Z.of_nat Z.eqb].
  cbn [for_each]. unfold validate_key, active_key. cbn [Key_ID Key_State]. bool_simpl. rewrite bool_decide_false by done.
  rewrite bool_decide_false by (cbn [fst]; set_solver). cbn [rbind]. unfold Key_Decode. cbn [Key_Public].
  rewrite decode_encode. cbn [rbind]. match goal with H : (_ =? _)%nat = true |- _ => rewrite H end. done.
Qed.

(** Rotating and retiring are what the file says.  When a command on the keys succeeds,
    whatever went wrong on other occasions, the file then holds exactly the set the operation
    makes of the one it held, and that set is valid; a rotation took a public key that was
    drawn for it. *)
Theorem keys_commands_exact flags generated now h h' keyset (Hfile : Flag_keyset flags = Some keyset) :
  (keysInit flags generated now h = (h', Ok tt) →
     ∃ public private s, generated = Some (public, private) ∧ NewKeySet (Flag_newID flags) public now = Ok s ∧ keyset_at h' keyset = Ok s) ∧
  (keysRotate flags generated now h = (h', Ok tt) →
     ∃ public private s s', generated = Some (public, private) ∧ keyset_at h keyset = Ok s ∧
       Rotate s (Flag_newID flags) public now = Ok s' ∧ keyset_at h' keyset = Ok s') ∧
  (keysRetire flags now h = (h', Ok tt) →
     ∃ s s', keyset_at h keyset = Ok s ∧ Retire s (Flag_newID flags) now = Ok s' ∧ keyset_at h' keyset = Ok s').
Proof.
  unfold keysInit, keysRotate, keysRetire. rewrite Hfile. split; [|split].
  - destruct (Flag_out flags) as [out|]; [|done]. intros H. apply io_bind_ok in H as (h1 & found & _ & H). destruct found; [done|].
    apply io_bind_ok in H as (h2 & public & Hg & H). apply generateSigningKey_ok in Hg as [private ->].
    apply io_bind_ok in H as (h3 & s & Hs & H). injection Hs as -> Hs. exists public, private, s. split; [done|]. split; [done|].
    eapply writeKeySet_ok; [|exact H]. by eapply NewKeySet_valid.
  - destruct (Flag_out flags) as [out|]; [|done]. destruct (bool_decide _); [done|]. intros H.
    apply io_bind_ok in H as (h1 & s & Hr & H). apply readKeySet_ok in Hr as [_ Hs].
    apply io_bind_ok in H as (h2 & k & _ & H). apply io_bind_ok in H as (h3 & public & Hg & H). apply generateSigningKey_ok in Hg as [private ->].
    apply io_bind_ok in H as (h4 & s' & Hs' & H). injection Hs' as -> Hs'. exists public, private, s, s'. do 3 (split; [done|]).
    eapply writeKeySet_ok; [|exact H]. unfold Rotate in Hs'. inv_ok Hs'. subst. by match goal with H : KeySet_Validate (mkKeySet _ (_ ++ _)) = Ok ?u |- _ => destruct u end.
  - destruct (bool_decide _); [done|]. intros H. apply io_bind_ok in H as (h1 & s & Hr & H). apply readKeySet_ok in Hr as [_ Hs].
    apply io_bind_ok in H as (h2 & s' & Hs' & H). injection Hs' as -> Hs'. exists s, s'. do 2 (split; [done|]).
    eapply writeKeySet_ok; [|exact H]. unfold Retire in Hs'. inv_ok Hs'. subst.
    by match goal with H : KeySet_Validate (mkKeySet _ _) = Ok ?u |- KeySet_Validate (mkKeySet _ _) = _ => destruct u end.
Qed.
End KeyFileFacts.

(** ** A sample: a first key, a rotation, and one that is interrupted *)

Module CommandSample.
#[local] Existing Instances KeySample.sample_attest KeySample.sample_signer KeySample.sample_signer_laws DispatchSample.sample_raw.

#[local] Instance ControllerKey_eq_dec : EqDecision ControllerKey. Proof. solve_decision. Defined.
#[local] Instance KeySet_eq_dec : EqDecision KeySet. Proof. solve_decision. Defined.

(** Two documents. *)
#[local] Instance keys_decoder : KeySetDecoder := λ s,
  if bool_decide (s = "first" +:+ String newline "") then Decoded KeySample.first_set
  else if bool_decide (s = "second" +:+ String newline "") then Decoded KeySample.second_set else Malformed.
#[local] Instance keys_encoder : KeySetEncoder := λ s,
  if bool_decide (s = KeySample.first_set) then Some "first" else if bool_decide (s = KeySample.second_set) then Some "second" else None.
#[local] Instance keys_codec_laws : KeySetCodecLaws.
Proof. intros s text. unfold encode_keyset, keys_encoder. repeat case_bool_decide; subst; try done; intros [= <-]; vm_compute; reflexivity. Qed.

Definition keyset : path := ["etc"; "keys.json"].
Definition rotate (id : string) : KeyFlags := mkKeyFlags (Some keyset) id (Some ["etc"; "new.key"]).
Definition drawn : option (string * string) := Some (KeySample.key_bytes "b", KeySample.key_bytes "c").
Definition disk : FS := {[["etc"] := DirEntry; keyset := FileEntry ("first" +:+ String newline "")]}.
Definition machine (faults : list (option nat)) : Machine := mkMachine disk faults.

Lemma keys_commands_exact_witness :
  keyset_at (keysRotate (rotate "k2") drawn 20 (machine [])).1 keyset = Ok KeySample.second_set.
Proof.
  destruct (proj1 (proj2 (keys_commands_exact (rotate "k2") drawn 20 (machine []) (keysRotate (rotate "k2") drawn 20 (machine [])).1 keyset eq_refl)))
    as (public & private & s & s' & Hd & Hs & Hr & ->).
  - vm_compute. reflexivity.
  - injection Hd as <- _. assert (keyset_at (machine []) keyset = Ok KeySample.first_set) as E by (vm_compute; reflexivity). rewrite E in Hs. injection Hs as <-.
    rewrite <-Hr. vm_compute. reflexivity.
Defined.

(** The set of keys is written in place: a rotation cut short leaves no set at all, and the
    command that would make one refuses because the file is there. *)
Lemma interrupted_rotation_loses_keys :
  let '(h, r) := keysRotate (rotate "k2") drawn 20 (machine [None; None; None; None; None; None; Some 3%nat]) in
  r = Err ErrIO ∧ keyset_at h keyset = Err (Errorf "decode keyset: %w") ∧
  (keysInit (mkKeyFlags (Some keyset) "k3" (Some ["etc"; "k3.key"])) drawn 30 h).2 = Err (Errorf "keyset %s already exists; use keys rotate").
Proof. vm_compute. repeat split; reflexivity. Qed.

(** The private key is written before the set is looked at: a rotation to an id in use is
    refused, and the corrected one is refused because of the key the first left behind. *)
Lemma refused_rotation_leaves_key :
  let '(h, r) := keysRotate (rotate "k1") drawn 20 (machine []) in
  r = Err (Errorf "key id %q is already in the keyset") ∧
  (keysRotate (rotate "k2") drawn 20 h).2 = Err (Errorf "refusing to overwrite existing key %s").
Proof. vm_compute. repeat split; reflexivity. Qed.
End CommandSample.
